(* ===== verification/_CoqProject ===== *)
-Q . S2P
Prelude.v
Words.v
KeccakSpec.v
Sha3.v
EthashSizes.v
Ethash.v
EthashIo.v
B64.v
Sha256.v
Scrypt.v
JumpUtil.v
JumpKeccak.v
JumpBlake.v
JumpCubehash.v
JumpSkein.v
JumpHash.v
Exn.v
Rlp.v
RlpSpec.v
RlpClaims.v
TrieCommon.v
MemoryDB.v
TrieDB.v
TrieKeys.v
TrieSpec.v
TrieTree.v
TrieCanon.v
TrieRead.v
TrieWp.v
TrieInsert.v
TrieRemove.v
TrieTop.v
TrieSecure.v
TrieCommit.v
TrieMulti.v
TrieClaims.v
Chainbase.v
Producer.v
ChainController.v
DposCalls.v
DposUndo.v
DposSlots.v
DposVotes.v
DposInv.v
DposRace.v
DposSchedule.v
DposInvariant.v
DposReach.v
EthState.v
EthStateInv.v
EthCommit.v
EthRollback.v
Ledger.v
EthLedger.v
Vote.v
VoteCodec.v
VoteStore.v
VoteSpec.v
VoteMap.v
VoteInv.v
VoteCall.v
VoteReach.v
VoteClaims.v
VoteStable.v
Transaction.v
TransactionRlp.v
Executive.v
Precompiled.v
ExecState.v
ExecOps.v
ExecSteps.v
ExecLaws.v
Machine.v
Wasm.v
ExecVotes.v
ExecStart.v
ExecRun.v
ExecTx.v
ExecDemo.v
ExecClaims.v
