(* ===== verification/Prelude.v ===== *)
(** * Verification of the core of the PlayBlock prototype node

    The node is a fork of cpp-ethereum that combines proof of work with delegated proof of
    stake.  This library models its consensus (libproducer, C++), transactions, their
    execution, the state and the vote contract (libethereum, libethcore), the encoding, the
    databases and the tries below them (libdevcore), and its C code: the proof of work
    (libethash), the hash functions of the vote contract's work check (libjumphash), and the
    key derivation of the key store (utils/libscrypt).  The parts interact as follows: State
    keeps accounts and their storage in tries with hashed keys (TrieDB.h) whose nodes are RLP
    values in an OverlayDB, and VoteManager keeps its records in the storage of accounts;
    State::execute gives a transaction to an Executive, which checks it, pays its gas, runs a
    precompiled contract or, through ExtVM and inner executives, the virtual machine on the
    state, and rolls the state back when that fails; the machine of the node is WASM_VM, which
    runs WebAssembly modules that call the host functions of eth/Register.cpp;
    libethereum/BlockChain.cpp passes every imported header to chain_controller::push_block, which
    applies it to an object database with undo (chainbase), and calls databaseReversion when the
    chain switches to another fork; producer_plugin asks the controller whose turn it is;
    libethashseal uses libethash through light and full handles, libevm/Vote.cpp picks a function
    of the jump table of libjumphash, and libdevcrypto derives keys with scrypt.

    ** Conventions

    A [w]-bit unsigned integer is a [Z] in [0, 2^w), and every C operation that can leave
    the range is followed by its truncation.  Where several wrapping additions are
    followed by one truncation the intermediate ones are left out, which does not change
    the value.  Buffers are lists; unions are byte lists with word views.  The machine is
    little-endian, as the code selects.  Macros over named variables are functions from
    the old values to the new ones, or [match]es that name the elements of a list, with
    one [let] per assignment.  Fallible functions return [option] or an error code as in
    the code.  A loop over a fixed range is [for_] (or [for_opt] when the body can fail);
    loops with a data dependent bound have a fuel argument that is proved to suffice
    (the length of the input for the sponge and for SHA-256 updates, 20 digits for a
    32-bit number, quadratic in the size of the index for the loops of the producer
    schedule that change the index they walk over, the height of the undo stack for a
    reversion, four calls for each byte of a key and two more in a trie, 1025 executives inside
    each other because the machine makes no call at depth 1024).  C++ code that throws is in
    the monad of Exn: what was assigned before the throw stays assigned.  Object ids and
    account names are integers, name 0 is the empty one; an index of objects is a finite map
    from ids, and its sorted views are functions of the contents.

    ** Files

    - Prelude: this header; notations, hint databases, tactics, loops and buffers.
    - Words: truncation, rotations, byte codecs and word views of buffers; the interface
      [Sha3Api] that the clients of sha3.h rely on.
    - KeccakSpec: reference Keccak-f and sponge.
    - Sha3: libethash/sha3.c, an instance of [Sha3Api].
    - EthashSizes: libethash/data_sizes.h and its accessors.
    - Ethash: libethash/internal.c against [Sha3Api]: cache, dataset items, hashing,
      difficulty, light and full computation.
    - EthashIo: libethash/io.c, io.h, io_posix.c and the DAG file part of internal.c over
      a file system of named byte strings, with a record of injected faults.
    - Sha256, Scrypt, B64: utils/libscrypt/sysendian.h, sha256.c,
      crypto_scrypt-nosse.c, b64.c.
    - JumpUtil: libjumphash/wutil.h, the scanHash wrappers, the interface [JumpHash].
    - JumpKeccak, JumpBlake, JumpCubehash, JumpSkein: the w_*.c files of
      those functions, each with a reference definition of the hash function.
    - JumpHash: the wrappers over the interface, Hex2Str of jumphash.h.
    - Exn: the state and exception monad of the C++ components, with rules for invariants.
    - Rlp: libdevcore/RLP.h, RLP.cpp: reading with its checks and exceptions, subscripts with
      their cache, RLPStream.  RlpSpec, RlpClaims: values and their encodings, the theorems.
    - TrieCommon: libdevcore/TrieCommon.h, TrieCommon.cpp: nibbles and hex prefixes.
    - MemoryDB: libdevcore/MemoryDB.cpp, OverlayDB.cpp, and the interface [Backend] with its
      laws, which both databases implement.  The database on disk is the class [LevelDB].
    - TrieDB: libdevcore/TrieDB.h, GenericTrieDB and the tries with hashed keys, over any
      [Backend] and any [Sha3Api].  A history variable records hashes with two meanings.
    - TrieKeys, TrieSpec, TrieTree, TrieCanon: keys as lists of nibbles; tries as trees with
      look-up, insertion, removal and encoding; that these keep the canonical form, which is
      unique for its contents.
    - TrieRead, TrieWp, TrieInsert, TrieRemove: the operations of the code on encoded nodes
      compute those on trees, and the database keeps exactly the nodes.
    - TrieTop, TrieSecure, TrieCommit, TrieMulti, TrieClaims: whole operations and runs, hashed
      keys, commits and rollbacks, insertion below the cached children of a root, the theorems.
    - Chainbase: libproducer/chainbase.hpp, the index with its stack of undo states, and
      its specification as contents with saved snapshots.
    - Producer: the objects, the race and the schedule of producer_objects.hpp/.cpp,
      producer_object.hpp, global_property_object.hpp, config.hpp, version.hpp, rand.hpp;
      the database of six indices.
    - ChainController: chain_controller.cpp.  What it reads of the chain and of contract
      storage is the record [chain_env].
    - DposCalls: which database calls each function of the controller makes.
    - DposUndo: sessions and histories of the database under the controller.
    - DposSlots: slots, producer_plugin::maybe_produce_block, the irreversible block.
    - DposVotes: the race at speed zero.
    - DposInv, DposRace, DposSchedule, DposInvariant, DposReach: the invariant of the
      database; the race and the round against reference definitions; the invariant along
      blocks; reachable states.
    - EthState: libethereum/Account.h, State.h, State.cpp: the cache of accounts over the
      state trie, the change log, commits.  A trie is represented by its contents.
    - EthStateInv, EthCommit, EthRollback: what a state means, and that the cache, a commit
      and a rollback keep to it.
    - Ledger, EthLedger: the interface between the state and the vote contract, and that
      the state implements it.
    - Vote: libethereum/Vote.cpp, Vote.h: records in contract storage, the operations of
      VoteManager, the precompiled contracts.
    - VoteCodec, VoteStore: serialized records, pages of storage.
    - VoteSpec, VoteMap, VoteCall: the specification on a map of records, and refinement.
    - VoteInv, VoteReach, VoteClaims: the invariant of the votes, reachable states, the
      theorems and their instances on the model of State.
    - VoteStable: the contracts on a storage with any contents.
    - Transaction, TransactionRlp: libethcore/TransactionBase: the record, its RLP form, the
      sender, the checks of the seal engine; that reading inverts writing.
    - Executive: libethereum/Executive.cpp, ExtVM.cpp, State::execute.  A virtual machine is a
      program over the calls of ExtVM (class [VM]).
    - Precompiled: libethcore/Precompiled.cpp and the contracts of the main network.
    - ExecState, ExecOps, ExecSteps: what a transaction relies on and keeps of the
      state, the sum of all balances, and each operation of the state in these terms.
    - ExecLaws: the interface between the executive, the machine ([VMLaw], and [VaultLaw]: it
      does not run the code 0x00 of the account of the votes) and the precompiled contracts
      ([ContractLaws]).  ExecVotes: the contracts of the main network satisfy it; mortgage and
      redeem exchange balances for votes.
    - Machine: member functions of a machine as computations with a logic for them.  Wasm:
      libevm/WASM_VM.cpp and eth/Register.cpp, the loading of modules, the run of a function and
      all host functions, over an engine (class [Wavm]); that this machine satisfies both laws.
    - ExecStart, ExecRun, ExecTx: starting a call or a creation, the run of the machine by
      induction on its program and on the depth, the whole transaction.
    - ExecDemo, ExecClaims: a small chain, the theorems.

    ** What the theorems show

    - Sha3: the in-place permutation is Keccak-f, the buffer-walking sponge is the
      padded sponge for every rate from 1 to 199 (rate 0 never ends), error returns are as
      documented.
    - EthashSizes: every entry of both tables is the size the specification defines (the
      largest admissible size with a prime number of rows).
    - Ethash: light and full computation agree for every header and nonce, when the callback of
      the generation, if any, does not stop it; a whole epoch
      works end to end; the quick check agrees with the full one; the difficulty loop is
      the comparison of 256-bit numbers; cache generation stays in its buffer and when it
      does not; seed hashes.
    - EthashIo: a DAG file whose generation fails at any point is never taken for a
      complete one; a complete one is found again; the preparation refines its
      abstract specification; file names fit and are injective.
    - Sha256, Scrypt, B64: the code computes FIPS 180-4, RFC 2104, RFC 8018,
      RFC 7914 and RFC 4648; the parameter checks and where they are too weak.
    - Jump*: each function is the hash function it is named after, on a byte-swapped
      block where the code swaps; tables and initial values are computed from
      their definitions; unrolled variants agree; the wrappers touch only their 64 bytes.

    - Rlp*: the strict reader accepts the canonical encodings and nothing else, the stream
      writes them, whatever is read in whatever order.
    - Trie*: a trie is a finite map, its root is a function of its contents, and the counters
      of its database count exactly its nodes, so that purge leaves them and nothing else;
      with hashed keys the keys may have any length; commit and rollback of OverlayDB are
      transactions; the insertions of commitEx, each a whole call, give the same trie in any
      order (calls that overlap in time are not modelled).  All for runs in which no hash names
      two nodes and no counter is full, and for keys of one length; examples show what happens
      outside.
    - Chainbase: every trace of index calls, sessions included, behaves as one that saves
      whole snapshots.
    - Dpos*: a rejected block changes nothing and a reversion restores the database of
      the block it names (with the cases in which neither holds); in every state reachable
      from a genesis the queue, the candidates and the 21 active producers are consistent;
      the next round and the race are what the reference definitions say, and their loops
      end; every scheduled producer can produce within a round a block that the controller
      accepts; the irreversible block is confirmed by 70 percent of the producers; slot
      arithmetic.  Three theorems show how valid votes or headers halt a node.
    - EthRollback: rolling back to a savepoint restores every answer of the state and the
      state that a commit would write, for executions that keep to the order of calls of the
      executive; two examples show what is lost otherwise.
    - EthCommit: a commit changes no answer, except for the accounts it removes; the parallel
      commit writes the same trie exactly when it has nothing to remove.
    - Vote*: a saved record is loaded again; the contracts implement the operations on a map
      of records; in every reachable state a candidate has the votes that the records give
      it, the producers that the chain reads are the candidates, votes and money are within
      what was issued; value moves by send only (and redeem drops part of large amounts).
    - TransactionRlp: a transaction that is written and read again is the same one.
    - Exec*: State::execute runs exactly the transactions that pass the checks and otherwise
      changes nothing; a transaction that fails costs its gas and changes nothing else; no
      transaction makes money, with the contracts of the main network and the money that is
      mortgaged for votes counted, for every machine that also satisfies [VaultLaw]; gas is
      bounded by what is offered, paid to at least half of its intrinsic price and fits in the
      block; the execution ends; the state keeps its types; what a vote contract did can be
      undone.  All for every machine that satisfies [VMLaw], a transaction whose sender is known,
      a state in which no account was killed since the last commit, and an execution whose state
      is kept (not the dry run).
    - Wasm: the machine of the node satisfies both laws, whatever the module and the engine do, and
      fails only in ways that the executive rolls back, or where the code has no defined
      behaviour; blocks of malloc do not overlap; what an earlier call, or an earlier contract at
      the same address, leaves behind.

    ** Not modelled

    Deallocation, logging and the SIMD and Windows branches of the C code; the remaining functions
    of libjumphash (JH, Luffa, BMW, Groestl, SHAvite, SIMD, ECHO, Hamsi, Fugue) and with them the
    jump table; the modular crypt format of libscrypt; of libproducer the memory mapped file,
    locks and the timer loop; of State.cpp the code size cache, the database files and printing;
    of libdevcore the conversions of RLP to containers, the locks of the databases, the scans of
    tries for debugging, the ByIterator variants of insertion, TrieHash.cpp; libevm/Vote.cpp; the
    interpreter VM.cpp and the JIT, which the node does not run; WAVM, which is the parameter
    [Wavm], with the resolver of imports, and sbrk of WASM_VM.cpp, which nothing calls; modexp,
    alt_bn128 and powReceive; tracing; signing; blocks, the block chain and its queues, the
    network.  These are input and output, third-party code, or bookkeeping around what is
    modelled. *)

From Stdlib Require Export ZArith Lia.
From stdpp Require Export base list list_numbers numbers.

#[global] Open Scope Z_scope.
#[global] Set Default Goal Selector "!".

(** ** Notations for the bit operators of C *)

Declare Scope c_scope.
Delimit Scope c_scope with c.
Notation "x .& y" := (Z.land x y) (at level 40, left associativity) : c_scope.
Notation "x .^ y" := (Z.lxor x y) (at level 45, left associativity) : c_scope.
Notation "x .| y" := (Z.lor x y) (at level 47, left associativity) : c_scope.
Notation "x .<< n" := (Z.shiftl x n) (at level 33, left associativity) : c_scope.
Notation "x .>> n" := (Z.shiftr x n) (at level 33, left associativity) : c_scope.
#[global] Open Scope c_scope.

#[global] Arguments Z.lxor : simpl never.
#[global] Arguments Z.land : simpl never.
#[global] Arguments Z.lor : simpl never.
#[global] Arguments Z.shiftl : simpl never.
#[global] Arguments Z.shiftr : simpl never.

(** ** Hint databases

    - [wrange]: bounds of machine words, resolved by [eauto with wrange];
    - [len]: lengths of buffers, rewritten by [autorewrite with len];
    - [bits]: bit-level specifications of the Z operators. *)

Create HintDb wrange.
Create Rewrite HintDb len.
Create Rewrite HintDb bits.

#[export] Hint Rewrite Z.lor_spec Z.land_spec Z.lxor_spec Z.testbit_0_l : bits.
#[export] Hint Rewrite Z.shiftl_spec Z.shiftr_spec Z.lnot_spec Z.testbit_ones_nonneg
  using lia : bits.
#[export] Hint Rewrite @length_app @length_take @length_drop @length_replicate
  @length_insert @length_fmap @length_seq @length_zip_with @length_reverse : len.

(** Two integers are equal when they agree on every bit. *)
Ltac bitwise :=
  apply Z.bits_inj'; let i := fresh "i" in let Hi := fresh "Hi" in
  intros i Hi; autorewrite with bits.

(** Case analysis on the atoms of a boolean goal. *)
Ltac bsolve :=
  repeat match goal with
  | |- context [Z.testbit ?x ?i] => is_var x; destruct (Z.testbit x i)
  end; try reflexivity.

(** Split a list of known length, and the bounds of its elements. *)
Ltac destruct_list l H :=
  repeat (destruct l as [|? l]; [discriminate H|]); destruct l; [|discriminate H]; clear H.
Ltac inv_Forall :=
  repeat match goal with H : Forall _ (_ :: _) |- _ => apply Forall_cons_1 in H as [? H] end.

Ltac simpl_len := autorewrite with len.
Tactic Notation "simpl_len" "in" hyp(H) := autorewrite with len in H.

(** ** Loops

    A C loop with a fixed range of indices is a left fold of its body. *)

Definition for_ {S} (l : list nat) (body : nat -> S -> S) (s : S) : S :=
  foldl (fun s i => body i s) s l.

(** [rangestep n step] is [0, step, .., (n-1)*step], the indices of
    [for (i = 0; i < n*step; i += step)]. *)
Definition rangestep (n step : nat) : list nat := (fun i => i * step)%nat <$> seq 0 n.

Section loops.
Context {S : Type}.
Implicit Types (body : nat -> S -> S) (s : S).

Lemma for_nil body s : for_ [] body s = s.
Proof. done. Qed.

Lemma for_cons i l body s : for_ (i :: l) body s = for_ l body (body i s).
Proof. done. Qed.

Lemma for_app l1 l2 body s : for_ (l1 ++ l2) body s = for_ l2 body (for_ l1 body s).
Proof. apply foldl_app. Qed.

Lemma for_seq_S a n body s :
  for_ (seq a (Datatypes.S n)) body s = body (a + n)%nat (for_ (seq a n) body s).
Proof. by rewrite seq_S, for_app. Qed.

(** Invariant rule: a property kept by the body holds after the loop. *)
Lemma for_ind (P : S -> Prop) l body s :
  P s -> (forall i s, i ∈ l -> P s -> P (body i s)) -> P (for_ l body s).
Proof.
  revert s. induction l as [|i l IH]; intros s Hs Hb; [done|].
  rewrite for_cons. apply IH; [apply Hb; [by left|done]|].
  intros j t Hj. apply Hb. by right.
Qed.

(** Indexed invariant rule for a loop from [0] to [n]. *)
Lemma for_range_ind (P : nat -> S -> Prop) n body s :
  P 0%nat s ->
  (forall i s, (i < n)%nat -> P i s -> P (Datatypes.S i) (body i s)) ->
  P n (for_ (seq 0 n) body s).
Proof.
  intros H0 Hb. induction n as [|n IH]; [done|].
  rewrite for_seq_S. apply Hb; [lia|]. apply IH. intros i t Hi. apply Hb. lia.
Qed.

(** Two loops whose bodies agree on the states that satisfy an invariant agree. *)
Lemma for_ext (P : S -> Prop) l body1 body2 s :
  P s ->
  (forall i s, i ∈ l -> P s -> body1 i s = body2 i s /\ P (body2 i s)) ->
  for_ l body1 s = for_ l body2 s.
Proof.
  revert s. induction l as [|i l IH]; intros s Hs Hb; [done|].
  rewrite !for_cons. destruct (Hb i s) as [-> HP]; [by left|done|].
  apply IH; [done|]. intros j t Hj. apply Hb. by right.
Qed.
End loops.

(** A loop whose body can go wrong: [None] is undefined behaviour of the C code
    (an access out of bounds, a division by zero). *)
Fixpoint for_opt {S} (l : list nat) (body : nat -> S -> option S) (s : S) : option S :=
  match l with
  | [] => Some s
  | i :: l => s ← body i s; for_opt l body s
  end.

Section loops_opt.
Context {S : Type}.
Implicit Types (body : nat -> S -> option S) (s : S).

Lemma for_opt_app l1 l2 body s :
  for_opt (l1 ++ l2) body s = s ← for_opt l1 body s; for_opt l2 body s.
Proof.
  revert s. induction l1 as [|i l1 IH]; intros s; [done|]. simpl.
  destruct (body i s); simpl; auto.
Qed.

(** A body that never goes wrong under its invariant gives a loop that does not. *)
Lemma for_opt_ind (P : S -> Prop) l body s :
  P s ->
  (forall i s, i ∈ l -> P s -> exists s', body i s = Some s' /\ P s') ->
  exists s', for_opt l body s = Some s' /\ P s'.
Proof.
  revert s. induction l as [|i l IH]; intros s Hs Hb; [by exists s|]. simpl.
  destruct (Hb i s) as (s1 & -> & H1); [by left|done|]. simpl.
  apply IH; [done|]. intros j t Hj. apply Hb. by right.
Qed.

Lemma for_opt_range_ind (P : nat -> S -> Prop) a n body s :
  P a s ->
  (forall i s, (a <= i < a + n)%nat -> P i s ->
     exists s', body i s = Some s' /\ P (Datatypes.S i) s') ->
  exists s', for_opt (seq a n) body s = Some s' /\ P (a + n)%nat s'.
Proof.
  revert a s. induction n as [|n IH]; intros a s Hs Hb.
  - exists s. by rewrite Nat.add_0_r.
  - simpl. destruct (Hb a s) as (s1 & -> & H1); [lia|done|]. simpl.
    destruct (IH (Datatypes.S a) s1) as (s2 & E & H2); [done| |].
    + intros i t Hi. apply Hb. lia.
    + exists s2. split; [done|]. by replace (a + Datatypes.S n)%nat with (Datatypes.S a + n)%nat by lia.
Qed.

(** Two loops whose bodies agree under an invariant agree. *)
Lemma for_opt_ext (P : S -> Prop) l body1 body2 s :
  P s ->
  (forall i s, i ∈ l -> P s ->
     body1 i s = body2 i s /\ forall s', body2 i s = Some s' -> P s') ->
  for_opt l body1 s = for_opt l body2 s.
Proof.
  revert s. induction l as [|i l IH]; intros s Hs Hb; [done|]. simpl.
  destruct (Hb i s) as [-> HP]; [by left|done|].
  destruct (body2 i s) as [s'|]; [|done]. simpl.
  apply IH; [auto|]. intros j t Hj. apply Hb. by right.
Qed.
End loops_opt.

(** ** Buffers

    A C array is a list; [sub l off n] reads [n] elements at [off] and
    [blit dst off src] is [memcpy(dst + off, src, length src)]. *)

Definition sub {A} (l : list A) (off n : nat) : list A := take n (drop off l).
Definition blit {A} (dst : list A) (off : nat) (src : list A) : list A :=
  take off dst ++ src ++ drop (off + length src) dst.

Section buffers.
Context {A : Type}.
Implicit Types l dst src : list A.

Lemma length_sub l off n : (off + n <= length l)%nat -> length (sub l off n) = n.
Proof. intros. unfold sub. simpl_len. lia. Qed.

Lemma length_blit dst off src :
  (off + length src <= length dst)%nat -> length (blit dst off src) = length dst.
Proof. intros. unfold blit. simpl_len. lia. Qed.

Lemma sub_app_l l1 l2 n : n = length l1 -> sub (l1 ++ l2) 0 n = l1.
Proof. intros ->. unfold sub. rewrite drop_0. by rewrite take_app_length. Qed.

Lemma sub_all l n : n = length l -> sub l 0 n = l.
Proof. intros ->. unfold sub. by rewrite drop_0, firstn_all. Qed.

Lemma blit_all dst src : length src = length dst -> blit dst 0 src = src.
Proof.
  intros H. unfold blit. rewrite take_0, drop_ge by lia. by rewrite app_nil_r.
Qed.

(** Reading back what was just written. *)
Lemma sub_blit dst off src :
  (off + length src <= length dst)%nat -> sub (blit dst off src) off (length src) = src.
Proof.
  intros H. unfold sub, blit.
  rewrite drop_app_ge by (simpl_len; lia). simpl_len.
  replace (off - off `min` length dst)%nat with 0%nat by lia.
  rewrite drop_0. apply take_app_length.
Qed.

(** Adjacent writes are one write. *)
Lemma blit_blit dst off s1 s2 :
  (off + length s1 <= length dst)%nat ->
  blit (blit dst off s1) (off + length s1) s2 = blit dst off (s1 ++ s2).
Proof.
  intros H. unfold blit.
  replace (take off dst ++ s1 ++ drop (off + length s1) dst)
    with ((take off dst ++ s1) ++ drop (off + length s1) dst) by by rewrite <-app_assoc.
  rewrite take_app_length' by (simpl_len; lia).
  rewrite drop_app_ge by (simpl_len; lia). rewrite drop_drop. simpl_len.
  rewrite <-!app_assoc. do 4 f_equal. lia.
Qed.

Lemma blit_nil dst off : blit dst off [] = dst.
Proof. unfold blit. simpl. rewrite Nat.add_0_r. apply take_drop. Qed.

(** A single store is a write of one element. *)
Lemma insert_as_blit l i x : (i < length l)%nat -> <[i := x]> l = blit l i [x].
Proof. intros. unfold blit. simpl. rewrite insert_take_drop by done. by rewrite Nat.add_1_r. Qed.

(** A store right behind a write extends it. *)
Lemma insert_blit dst off src x i :
  i = (off + length src)%nat -> (i < length dst)%nat ->
  <[i := x]> (blit dst off src) = blit dst off (src ++ [x]).
Proof.
  intros -> H. rewrite insert_as_blit by (rewrite length_blit; lia).
  apply blit_blit. lia.
Qed.

(** What a write leaves alone, and what it shows. *)
Lemma take_blit dst off src n :
  (n <= off)%nat -> (off <= length dst)%nat -> take n (blit dst off src) = take n dst.
Proof.
  intros Hn Ho. unfold blit. rewrite take_app_le by (simpl_len; lia).
  rewrite take_take. f_equal. lia.
Qed.
Lemma take_blit_0 dst src n : n = length src -> take n (blit dst 0 src) = src.
Proof. intros ->. unfold blit. rewrite take_0. cbn [app]. apply take_app_length. Qed.

(** Reading and storing inside a write. *)
Lemma lookup_blit dst off src k :
  (off <= length dst)%nat -> (k < length src)%nat -> blit dst off src !! (off + k)%nat = src !! k.
Proof.
  intros Ho Hk. unfold blit. rewrite lookup_app_r by (simpl_len; lia).
  rewrite lookup_app_l by (simpl_len; lia). f_equal. simpl_len. lia.
Qed.
Lemma insert_in_blit dst off src k x i :
  i = (off + k)%nat -> (off <= length dst)%nat -> (k < length src)%nat ->
  <[i := x]> (blit dst off src) = blit dst off (<[k := x]> src).
Proof.
  intros -> Ho Hk. unfold blit. rewrite length_insert.
  rewrite insert_app_r_alt by (simpl_len; lia). rewrite insert_app_l by (simpl_len; lia).
  simpl_len. by replace (off + k - off `min` length dst)%nat with k by lia.
Qed.

Lemma lookup_blit_ge dst off src k :
  (off + length src <= k)%nat -> (off <= length dst)%nat -> blit dst off src !! k = dst !! k.
Proof.
  intros Hk Ho. unfold blit. rewrite !lookup_app_r by (simpl_len; lia).
  rewrite lookup_drop. f_equal. simpl_len. lia.
Qed.

Lemma sub_blit_ge dst off src k n :
  (off + length src <= k)%nat -> (off <= length dst)%nat ->
  sub (blit dst off src) k n = sub dst k n.
Proof.
  intros Hk Ho. unfold sub. f_equal. apply list_eq. intros i. rewrite !lookup_drop.
  apply lookup_blit_ge; lia.
Qed.

(** A list is the sequence of its elements. *)
Lemma list_seq_total `{!Inhabited A} l : (fun k => l !!! k) <$> seq 0 (length l) = l.
Proof.
  apply list_eq. intros i. rewrite list_lookup_fmap. destruct (decide (i < length l)%nat).
  - rewrite lookup_seq_lt by done. simpl. by rewrite list_lookup_lookup_total_lt.
  - rewrite !lookup_ge_None_2; [done|lia|simpl_len; lia].
Qed.

(** One more element of a view. *)
Lemma sub_S l off n x :
  l !! (off + n)%nat = Some x -> sub l off (S n) = sub l off n ++ [x].
Proof. intros H. unfold sub. apply take_S_r. by rewrite lookup_drop. Qed.
Lemma sub_0 l off : sub l off 0 = [].
Proof. done. Qed.
Lemma sub_add l off n k : sub l off (n + k) = sub l off n ++ sub l (off + n) k.
Proof.
  unfold sub. rewrite <-(take_drop n (take (n + k) (drop off l))).
  by rewrite take_take, skipn_firstn_comm, drop_drop, Nat.min_l, Nat.add_comm, Nat.add_sub by lia.
Qed.
Lemma lookup_sub l off n k : (k < n)%nat -> sub l off n !! k = l !! (off + k)%nat.
Proof. intros. unfold sub. by rewrite lookup_take_lt, lookup_drop. Qed.

(** A write into the second part of a buffer. *)
Lemma blit_app l1 l2 off src :
  off = length l1 -> (length src <= length l2)%nat ->
  blit (l1 ++ l2) off src = l1 ++ src ++ drop (length src) l2.
Proof.
  intros -> H. unfold blit. rewrite take_app_length. rewrite drop_app_ge by lia.
  by replace (length l1 + length src - length l1)%nat with (length src) by lia.
Qed.

Lemma Forall_sub (P : A -> Prop) l off n : Forall P l -> Forall P (sub l off n).
Proof. intros. unfold sub. by apply Forall_take, Forall_drop. Qed.

Lemma Forall_blit (P : A -> Prop) dst off src :
  Forall P dst -> Forall P src -> Forall P (blit dst off src).
Proof.
  intros. unfold blit. rewrite !Forall_app.
  split_and!; [by apply Forall_take|done|by apply Forall_drop].
Qed.
End buffers.

#[export] Hint Resolve Forall_sub Forall_blit : wrange.

(** The first [n] blocks of [rate] elements. *)
Fixpoint chunks {A} (rate n : nat) (m : list A) : list (list A) :=
  match n with
  | O => []
  | S n => take rate m :: chunks rate n (drop rate m)
  end.

Section blocks.
Context {A : Type}.
Implicit Types m : list A.

Lemma chunks_add rate n k m :
  chunks rate (n + k) m = chunks rate n m ++ chunks rate k (drop (rate * n) m).
Proof.
  revert m. induction n as [|n IH]; intros m; simpl.
  - by rewrite Nat.mul_0_r, drop_0.
  - f_equal. rewrite IH, drop_drop. repeat f_equal. lia.
Qed.

Lemma chunks_app_l rate n m1 m2 :
  (rate * n <= length m1)%nat -> chunks rate n (m1 ++ m2) = chunks rate n m1.
Proof.
  revert m1. induction n as [|n IH]; intros m1 Hl; [done|]. simpl.
  rewrite take_app_le, drop_app_le by lia. by rewrite IH by (simpl_len; lia).
Qed.
End blocks.

(** ** Loops that fill a buffer *)

Lemma for_store {A} (f : nat -> A) (l : list A) n :
  (n <= length l)%nat ->
  for_ (seq 0 n) (fun k l => <[k := f k]> l) l = (f <$> seq 0 n) ++ drop n l.
Proof.
  induction n as [|n IH]; intros Hn; [done|].
  rewrite for_seq_S, IH by lia. cbn [plus].
  destruct (lookup_lt_is_Some_2 l n ltac:(lia)) as [x Hx].
  rewrite (drop_S _ x n Hx). rewrite insert_app_r_alt by (simpl_len; lia). simpl_len.
  rewrite Nat.sub_diag, seq_S, fmap_app, <-app_assoc. done.
Qed.

Lemma for_blit {A} (g : nat -> list A) m (l : list A) off n :
  (forall k, (k < n)%nat -> length (g k) = m) -> (off + m * n <= length l)%nat ->
  for_ (seq 0 n) (fun k l => blit l (off + m * k) (g k)) l = blit l off (mjoin (g <$> seq 0 n)) /\
  length (mjoin (g <$> seq 0 n)) = (m * n)%nat.
Proof.
  induction n as [|n IH]; intros Hg Hl.
  - split; [symmetry; apply blit_nil|simpl; lia].
  - destruct IH as [IH1 IH2]; [intros; apply Hg; lia|lia|].
    rewrite for_seq_S, IH1. cbn [plus].
    rewrite seq_S, fmap_app, join_app. cbn [plus]. cbn [fmap list_fmap mjoin list_join].
    rewrite app_nil_r. split; [|rewrite length_app, Hg by lia; lia].
    rewrite <-IH2. apply blit_blit. lia.
Qed.

(** Joining blocks of equal length. *)
Lemma length_mjoin_seq {A} (g : nat -> list A) m a n :
  (forall k, (a <= k < a + n)%nat -> length (g k) = m) ->
  length (mjoin (g <$> seq a n)) = (m * n)%nat.
Proof.
  revert a. induction n as [|n IH]; intros a Hg; [simpl; lia|].
  change (length (g a ++ mjoin (g <$> seq (S a) n)) = (m * S n)%nat).
  rewrite length_app, IH, Hg by (lia || (intros; apply Hg; lia)). lia.
Qed.

Lemma mjoin_seq_S {A} (g : nat -> list A) n :
  mjoin (g <$> seq 0 (S n)) = mjoin (g <$> seq 0 n) ++ g n.
Proof. rewrite seq_S, fmap_app, join_app. cbn. by rewrite app_nil_r. Qed.

Lemma sub_mjoin_seq {A} (g : nat -> list A) m n j :
  (forall k, (k < n)%nat -> length (g k) = m) -> (j < n)%nat ->
  sub (mjoin (g <$> seq 0 n)) (m * j) m = g j.
Proof.
  intros Hg Hj. replace n with (j + S (n - S j))%nat by lia.
  rewrite seq_app, fmap_app, join_app. cbn [plus seq]. rewrite fmap_cons.
  change (mjoin (g j :: (g <$> seq (S j) (n - S j)))) with (g j ++ mjoin (g <$> seq (S j) (n - S j))).
  unfold sub. rewrite drop_app_length'.
  - apply take_app_length'. by rewrite Hg.
  - symmetry. apply length_mjoin_seq. intros. apply Hg. lia.
Qed.
