(* ===== verification/Words.v ===== *)
(** * Machine words, bytes and their codecs

    A [w]-bit unsigned integer of the C code is a [Z] in [0, 2^w); every
    operation that can leave the range is followed by the truncation of its
    type ([u8], [u32], [u64]).  Byte buffers are lists of [Z] in [0, 256).
    The file also holds the byte/word views of C unions and pointer casts on a
    little-endian machine, and the big-endian codecs of sysendian.h. *)

From S2P Require Import Prelude.

(** ** Truncation *)

Definition u8 (x : Z) : Z := x .& 0xFF.
Definition u32 (x : Z) : Z := x .& 0xFFFFFFFF.
Definition u64 (x : Z) : Z := x .& 0xFFFFFFFFFFFFFFFF.

Definition is_word (w : Z) (x : Z) : Prop := 0 <= x < 2 ^ w.
Abbreviation is_byte := (is_word 8).
Abbreviation is_u32 := (is_word 32).
Abbreviation is_u64 := (is_word 64).

Lemma u8_mod x : u8 x = x mod 2 ^ 8.
Proof. unfold u8. by rewrite <-Z.land_ones. Qed.
Lemma u32_mod x : u32 x = x mod 2 ^ 32.
Proof. unfold u32. by rewrite <-Z.land_ones. Qed.
Lemma u64_mod x : u64 x = x mod 2 ^ 64.
Proof. unfold u64. by rewrite <-Z.land_ones. Qed.

Lemma is_word_mod w x : 0 <= w -> is_word w (x mod 2 ^ w).
Proof. intros. apply Z.mod_pos_bound. lia. Qed.

Lemma u8_range x : is_byte (u8 x).
Proof. rewrite u8_mod. by apply is_word_mod. Qed.
Lemma u32_range x : is_u32 (u32 x).
Proof. rewrite u32_mod. by apply is_word_mod. Qed.
Lemma u64_range x : is_u64 (u64 x).
Proof. rewrite u64_mod. by apply is_word_mod. Qed.

Lemma u8_id x : is_byte x -> u8 x = x.
Proof. intros. rewrite u8_mod. by apply Z.mod_small. Qed.
Lemma u32_id x : is_u32 x -> u32 x = x.
Proof. intros. rewrite u32_mod. by apply Z.mod_small. Qed.
Lemma u64_id x : is_u64 x -> u64 x = x.
Proof. intros. rewrite u64_mod. by apply Z.mod_small. Qed.

(** ** Words as bit vectors *)

Lemma is_word_bits w x :
  0 <= w -> is_word w x <-> 0 <= x /\ forall i, w <= i -> Z.testbit x i = false.
Proof.
  intros Hw. split.
  - intros [H0 H1]. split; [done|]. intros i Hi.
    rewrite <-(Z.mod_small x (2 ^ w)) by done. apply Z.mod_pow2_bits_high. lia.
  - intros [H0 Hb]. split; [done|].
    assert (x = x mod 2 ^ w) as ->; [|apply is_word_mod; lia].
    apply Z.bits_inj'. intros i Hi. destruct (decide (i < w)).
    + by rewrite Z.mod_pow2_bits_low by lia.
    + rewrite Z.mod_pow2_bits_high by lia. apply Hb. lia.
Qed.

Lemma is_word_high w x i : is_word w x -> 0 <= w <= i -> Z.testbit x i = false.
Proof. intros H Hi. apply (is_word_bits w x) in H; [|lia]. apply H. lia. Qed.

Section word_closure.
Context (w : Z) (Hw : 0 <= w).

Lemma is_word_lxor x y : is_word w x -> is_word w y -> is_word w (x .^ y).
Proof.
  rewrite !is_word_bits by done. intros [Hx Hx'] [Hy Hy'].
  split; [by apply Z.lxor_nonneg|]. intros i Hi. autorewrite with bits.
  by rewrite Hx', Hy'.
Qed.
Lemma is_word_lor x y : is_word w x -> is_word w y -> is_word w (x .| y).
Proof.
  rewrite !is_word_bits by done. intros [Hx Hx'] [Hy Hy'].
  split; [by apply Z.lor_nonneg|]. intros i Hi. autorewrite with bits.
  by rewrite Hx', Hy'.
Qed.
Lemma is_word_land_l x y : is_word w x -> 0 <= y -> is_word w (x .& y).
Proof.
  rewrite !is_word_bits by done. intros [Hx Hx'] Hy.
  split; [by apply Z.land_nonneg; right|]. intros i Hi. autorewrite with bits.
  by rewrite Hx'.
Qed.
Lemma is_word_shiftr x n : is_word w x -> 0 <= n -> is_word w (x .>> n).
Proof.
  intros [H0 H1] Hn. rewrite Z.shiftr_div_pow2 by done. split.
  - apply Z.div_pos; lia.
  - apply Z.le_lt_trans with x; [|done].
    apply Z.div_le_upper_bound; [lia|]. nia.
Qed.
Lemma is_word_0 : is_word w 0.
Proof. unfold is_word. lia. Qed.
End word_closure.

Lemma is_word_weaken w w' x : is_word w x -> 0 <= w <= w' -> is_word w' x.
Proof.
  intros [H0 H1] H. split; [done|].
  apply Z.lt_le_trans with (2 ^ w); [done|]. apply Z.pow_le_mono_r; lia.
Qed.

(** Reading an array of words gives a word, also out of range. *)
Lemma is_word_lookup w l (i : nat) : 1 <= w -> Forall (is_word w) l -> is_word w (l !!! i).
Proof.
  intros Hw H. destruct (l !! i) as [z|] eqn:E.
  - rewrite (list_lookup_total_correct _ _ _ E). by apply (Forall_lookup_1 _ _ _ _ H E).
  - rewrite list_lookup_total_alt, E. simpl. split; [done|].
    change (2 ^ 0 < 2 ^ w). apply Z.pow_lt_mono_r; lia.
Qed.

Lemma is_word_insert w l (i : nat) x :
  is_word w x -> Forall (is_word w) l -> Forall (is_word w) (<[i := x]> l).
Proof. intros. by apply Forall_insert. Qed.

#[export] Hint Resolve is_word_lookup is_word_insert : wrange.
#[export] Hint Resolve u8_range u32_range u64_range is_word_0 : wrange.
#[export] Hint Resolve is_word_lxor is_word_lor is_word_land_l is_word_shiftr : wrange.
#[export] Hint Extern 1 (_ <= _) => lia : wrange.
#[export] Hint Extern 1 (_ < _) => lia : wrange.

Ltac word_range := eauto 12 with wrange.

(** ** Rotations

    [rotl w x n] is the value every rotation macro of the code computes on a
    [w]-bit [x]: SPH_ROTL32/64 of wutil.h, rol of sha3.c, ROTR of sha256.c, R of
    crypto_scrypt-nosse.c. *)

Definition rotl (w x n : Z) : Z := ((x .<< n) .| (x .>> (w - n))) .& Z.ones w.

Lemma testbit_rotl w x n i :
  is_word w x -> 0 <= n <= w -> 0 <= i < w ->
  Z.testbit (rotl w x n) i =
    if decide (n <= i) then Z.testbit x (i - n) else Z.testbit x (i - n + w).
Proof.
  intros Hx Hn Hi. unfold rotl. autorewrite with bits.
  replace (i <? w) with true by (symmetry; apply Z.ltb_lt; lia).
  rewrite andb_true_r. case_decide.
  - rewrite (is_word_high w x (i + (w - n))) by (done || lia). by rewrite orb_false_r.
  - rewrite (Z.testbit_neg_r x (i - n)) by lia. simpl. f_equal. lia.
Qed.

Lemma rotl_range w x n : 0 <= w -> is_word w (rotl w x n).
Proof. intros. unfold rotl. rewrite Z.land_ones by done. by apply is_word_mod. Qed.
#[export] Hint Resolve rotl_range : wrange.

(** Bit [i] of a rotated word is the bit [n] places below, modulo the width. *)
Lemma testbit_rotl_mod w x n i :
  is_word w x -> 0 <= n <= w -> 0 <= i < w ->
  Z.testbit (rotl w x n) i = Z.testbit x ((i - n) mod w).
Proof.
  intros Hx Hn Hi. rewrite testbit_rotl by done. case_decide; f_equal.
  - symmetry. apply Z.mod_small. lia.
  - rewrite <-(Z.mod_small (i - n + w) w) by lia.
    rewrite <-(Z.mod_add (i - n) 1 w) by lia. f_equal. lia.
Qed.

(** Two words are equal when they agree on the bits below their width. *)
Lemma word_ext w x y :
  0 <= w -> is_word w x -> is_word w y ->
  (forall i, 0 <= i < w -> Z.testbit x i = Z.testbit y i) -> x = y.
Proof.
  intros Hw Hx Hy H. apply Z.bits_inj'. intros i Hi. destruct (decide (i < w)); [auto|].
  by rewrite !(is_word_high w) by (done || lia).
Qed.

Lemma rotl_0 w x : is_word w x -> 0 <= w -> rotl w x 0 = x.
Proof.
  intros Hx Hw. apply (word_ext w); [done|by apply rotl_range|done|]. intros i Hi.
  rewrite testbit_rotl_mod by (done || lia). rewrite Z.sub_0_r. by rewrite Z.mod_small by lia.
Qed.

(** A rotation by [n] is undone by the rotation by [w - n]. *)
Lemma rotl_rotl_inv w x n :
  is_word w x -> 0 <= n <= w -> rotl w (rotl w x n) (w - n) = x.
Proof.
  intros Hx Hn. apply Z.bits_inj'. intros i Hi. destruct (decide (i < w)).
  - rewrite testbit_rotl by (try apply rotl_range; lia).
    case_decide; rewrite testbit_rotl by (done || lia);
      case_decide; try lia; f_equal; lia.
  - rewrite (is_word_high w x) by (done || lia).
    apply (is_word_high w); [apply rotl_range|]; lia.
Qed.

(** The two spellings of a rotation in C: the truncation can be applied to the
    left shift alone or to the whole disjunction. *)
Lemma rotl_shl_trunc w x n :
  is_word w x -> 0 <= n <= w ->
  (((x .<< n) .& Z.ones w) .| (x .>> (w - n))) = rotl w x n.
Proof.
  intros Hx Hn. unfold rotl. bitwise.
  destruct (decide (i < w)) as [Hl|Hl].
  - replace (i <? w) with true by lia. by rewrite !andb_true_r.
  - replace (i <? w) with false by lia. rewrite !andb_false_r.
    simpl. apply (is_word_high w x); [done|lia].
Qed.

(** ** Little-endian codecs *)

Fixpoint le_of_bytes (l : list Z) : Z :=
  match l with
  | [] => 0
  | b :: l => b .| (le_of_bytes l .<< 8)
  end.

Fixpoint le_to_bytes (n : nat) (x : Z) : list Z :=
  match n with
  | O => []
  | S n => u8 x :: le_to_bytes n (x .>> 8)
  end.

Definition be_of_bytes (l : list Z) : Z := le_of_bytes (reverse l).
Definition be_to_bytes (n : nat) (x : Z) : list Z := reverse (le_to_bytes n x).

Abbreviation bytes := (Forall is_byte).

Lemma length_le_to_bytes n x : length (le_to_bytes n x) = n.
Proof. revert x. induction n; intros; simpl; auto. Qed.
Lemma length_be_to_bytes n x : length (be_to_bytes n x) = n.
Proof. unfold be_to_bytes. by rewrite length_reverse, length_le_to_bytes. Qed.
#[export] Hint Rewrite length_le_to_bytes length_be_to_bytes : len.

Lemma le_to_bytes_bytes n x : bytes (le_to_bytes n x).
Proof. revert x. induction n; intros; simpl; constructor; auto with wrange. Qed.
Lemma be_to_bytes_bytes n x : bytes (be_to_bytes n x).
Proof. apply Forall_reverse, le_to_bytes_bytes. Qed.
#[export] Hint Resolve le_to_bytes_bytes be_to_bytes_bytes : wrange.

(** A byte below a number shifted by eight bits. *)
Lemma lor_shiftl8_add b x : is_byte b -> (b .| (x .<< 8)) = b + 256 * x.
Proof.
  intros Hb. rewrite <-Z.lxor_lor, <-Z.add_nocarry_lxor.
  - rewrite Z.shiftl_mul_pow2 by lia. lia.
  - bitwise. destruct (decide (i < 8)).
    + rewrite (Z.testbit_neg_r x) by lia. apply andb_false_r.
    + by rewrite (is_word_high 8 b) by (done || lia).
  - bitwise. destruct (decide (i < 8)).
    + rewrite (Z.testbit_neg_r x) by lia. apply andb_false_r.
    + by rewrite (is_word_high 8 b) by (done || lia).
Qed.

Lemma le_of_bytes_cons b l :
  is_byte b -> le_of_bytes (b :: l) = b + 256 * le_of_bytes l.
Proof. intros. by apply lor_shiftl8_add. Qed.

Lemma le_of_bytes_app l1 l2 :
  bytes l1 ->
  le_of_bytes (l1 ++ l2) = le_of_bytes l1 + 2 ^ (8 * Z.of_nat (length l1)) * le_of_bytes l2.
Proof.
  induction 1 as [|b l1 Hb Hl IH]; cbn [app].
  - simpl. lia.
  - rewrite !le_of_bytes_cons, IH by done. cbn [length].
    replace (8 * Z.of_nat (S (length l1))) with (8 + 8 * Z.of_nat (length l1)) by lia.
    rewrite Z.pow_add_r by lia. lia.
Qed.

Lemma le_of_bytes_range l : bytes l -> is_word (8 * Z.of_nat (length l)) (le_of_bytes l).
Proof.
  induction 1 as [|b l Hb Hl IH].
  - unfold is_word. simpl. lia.
  - rewrite le_of_bytes_cons by done. unfold is_word in *. cbn [length].
    replace (8 * Z.of_nat (S (length l))) with (8 + 8 * Z.of_nat (length l)) by lia.
    rewrite Z.pow_add_r by lia. lia.
Qed.

Lemma le_of_to_bytes n x : le_of_bytes (le_to_bytes n x) = x mod 2 ^ (8 * Z.of_nat n).
Proof.
  revert x. induction n as [|n IH]; intros x.
  - simpl. by rewrite Z.mod_1_r.
  - cbn [le_to_bytes]. rewrite le_of_bytes_cons, IH by word_range.
    rewrite u8_mod, Z.shiftr_div_pow2 by lia.
    replace (8 * Z.of_nat (S n)) with (8 + 8 * Z.of_nat n) by lia.
    rewrite Z.pow_add_r, Z.rem_mul_r by lia. lia.
Qed.

(** Round trips between a word and its bytes, little- and big-endian. *)
Lemma le_of_to_bytes_id n x :
  is_word (8 * Z.of_nat n) x -> le_of_bytes (le_to_bytes n x) = x.
Proof. intros. rewrite le_of_to_bytes. by apply Z.mod_small. Qed.

Lemma le_to_of_bytes n l : length l = n -> bytes l -> le_to_bytes n (le_of_bytes l) = l.
Proof.
  intros <-. induction 1 as [|b l Hb Hl IH]; [done|]. cbn [length le_to_bytes].
  rewrite le_of_bytes_cons by done.
  replace (b + 256 * le_of_bytes l) with (b + le_of_bytes l * 2 ^ 8) by lia. f_equal.
  - rewrite u8_mod, Z.mod_add by lia. by apply Z.mod_small.
  - etransitivity; [|exact IH]. f_equal.
    unfold is_word in Hb. rewrite Z.shiftr_div_pow2, Z.div_add by lia.
    rewrite (Z.div_small b); lia.
Qed.

Lemma be_of_to_bytes_id n x :
  is_word (8 * Z.of_nat n) x -> be_of_bytes (be_to_bytes n x) = x.
Proof.
  intros. unfold be_of_bytes, be_to_bytes. rewrite reverse_involutive.
  by apply le_of_to_bytes_id.
Qed.

Lemma be_to_of_bytes n l : length l = n -> bytes l -> be_to_bytes n (be_of_bytes l) = l.
Proof.
  intros Hl Hb. unfold be_of_bytes, be_to_bytes.
  rewrite le_to_of_bytes; [by rewrite reverse_involutive|by rewrite length_reverse|].
  by apply Forall_reverse.
Qed.

Lemma le_of_bytes_inj l1 l2 :
  length l1 = length l2 -> bytes l1 -> bytes l2 ->
  le_of_bytes l1 = le_of_bytes l2 -> l1 = l2.
Proof.
  intros Hl H1 H2 He. rewrite <-(le_to_of_bytes (length l1) l1) by done.
  rewrite He, Hl. by apply le_to_of_bytes.
Qed.

(** The bytes of a truncated number, and of a number in two parts. *)
Lemma le_to_bytes_mod n x : le_to_bytes n (x mod 2 ^ (8 * Z.of_nat n)) = le_to_bytes n x.
Proof.
  rewrite <-le_of_to_bytes. apply le_to_of_bytes; [apply length_le_to_bytes|apply le_to_bytes_bytes].
Qed.
Lemma be_to_bytes_mod n x : be_to_bytes n (x mod 2 ^ (8 * Z.of_nat n)) = be_to_bytes n x.
Proof. unfold be_to_bytes. by rewrite le_to_bytes_mod. Qed.

Lemma le_to_bytes_add n k x :
  le_to_bytes (n + k) x = le_to_bytes n x ++ le_to_bytes k (x .>> (8 * Z.of_nat n)).
Proof.
  revert x. induction n as [|n IH]; intros x; [by rewrite Z.shiftr_0_r|].
  cbn [plus le_to_bytes app]. rewrite IH, Z.shiftr_shiftr by lia.
  by replace (8 + 8 * Z.of_nat n) with (8 * Z.of_nat (S n)) by lia.
Qed.
Lemma be_to_bytes_add n k x :
  be_to_bytes (n + k) x = be_to_bytes k (x .>> (8 * Z.of_nat n)) ++ be_to_bytes n x.
Proof. unfold be_to_bytes. by rewrite le_to_bytes_add, reverse_app. Qed.

(** ** Word views of a byte buffer

    [words_le k n l] is the view of the first [k*n] bytes of [l] as [n]
    little-endian words of [k] bytes: the [words] member of a C union, or the
    buffer cast to [uint32_t*] / [uint64_t*]. *)

Fixpoint words_le (k n : nat) (l : list Z) : list Z :=
  match n with
  | O => []
  | S n => le_of_bytes (take k l) :: words_le k n (drop k l)
  end.

Fixpoint bytes_le (k : nat) (ws : list Z) : list Z :=
  match ws with
  | [] => []
  | w :: ws => le_to_bytes k w ++ bytes_le k ws
  end.

Lemma length_words_le k n l : length (words_le k n l) = n.
Proof. revert l. induction n; intros; simpl; auto. Qed.
Lemma length_bytes_le k ws : length (bytes_le k ws) = (k * length ws)%nat.
Proof. induction ws; simpl; simpl_len; lia. Qed.
#[export] Hint Rewrite length_words_le length_bytes_le : len.

Lemma bytes_le_bytes k ws : bytes (bytes_le k ws).
Proof. induction ws; simpl; [done|]. apply Forall_app. split; [word_range|done]. Qed.
#[export] Hint Resolve bytes_le_bytes : wrange.

Lemma words_le_range k n l :
  bytes l -> length l = (k * n)%nat -> Forall (is_word (8 * Z.of_nat k)) (words_le k n l).
Proof.
  revert l. induction n as [|n IH]; intros l Hb Hl; simpl; constructor.
  - replace (8 * Z.of_nat k) with (8 * Z.of_nat (length (take k l))) by (simpl_len; lia).
    by apply le_of_bytes_range, Forall_take.
  - apply IH; [by apply Forall_drop|]. simpl_len. lia.
Qed.

Lemma words_bytes_le k ws :
  Forall (is_word (8 * Z.of_nat k)) ws -> words_le k (length ws) (bytes_le k ws) = ws.
Proof.
  induction 1 as [|w ws Hw Hws IH]; [done|]. simpl.
  rewrite take_app_length' by (simpl_len; lia).
  rewrite drop_app_length' by (simpl_len; lia). by rewrite IH, le_of_to_bytes_id.
Qed.

Lemma bytes_words_le k n l :
  bytes l -> length l = (k * n)%nat -> bytes_le k (words_le k n l) = l.
Proof.
  revert l. induction n as [|n IH]; intros l Hb Hl; simpl.
  - destruct l; [done|]. simpl in Hl. lia.
  - rewrite IH by (try apply Forall_drop; simpl_len; done || lia).
    rewrite le_to_of_bytes by (try apply Forall_take; simpl_len; done || lia).
    apply take_drop.
Qed.

Lemma lookup_words_le k n l i :
  (i < n)%nat -> words_le k n l !! i = Some (le_of_bytes (sub l (i * k) k)).
Proof.
  revert l i. induction n as [|n IH]; intros l i Hi; [lia|]. destruct i as [|i]; simpl.
  - unfold sub. by rewrite drop_0.
  - rewrite IH by lia. unfold sub. rewrite drop_drop. repeat f_equal.
Qed.

Lemma words_le_seq k n l : words_le k n l = (fun i => le_of_bytes (sub l (i * k) k)) <$> seq 0 n.
Proof.
  apply list_eq. intros i. rewrite list_lookup_fmap. destruct (decide (i < n)%nat).
  - rewrite lookup_words_le, lookup_seq_lt by done. done.
  - rewrite !lookup_ge_None_2; [done| |]; simpl_len; lia.
Qed.

Lemma bytes_le_mjoin k ws : bytes_le k ws = mjoin (le_to_bytes k <$> ws).
Proof. induction ws as [|w ws IH]; [done|]. cbn [bytes_le]. by rewrite IH. Qed.

Lemma be_of_bytes_range l : bytes l -> is_word (8 * Z.of_nat (length l)) (be_of_bytes l).
Proof.
  intros Hl. unfold be_of_bytes. rewrite <-(length_reverse l).
  by apply le_of_bytes_range, Forall_reverse.
Qed.

(** ** Vectors of big-endian words *)

Definition bytes_be (k : nat) (ws : list Z) : list Z := mjoin (be_to_bytes k <$> ws).
Fixpoint words_be (k n : nat) (l : list Z) : list Z :=
  match n with
  | O => []
  | S n => be_of_bytes (take k l) :: words_be k n (drop k l)
  end.

Lemma bytes_be_cons k w ws : bytes_be k (w :: ws) = be_to_bytes k w ++ bytes_be k ws.
Proof. done. Qed.
Lemma bytes_be_snoc k ws w : bytes_be k (ws ++ [w]) = bytes_be k ws ++ be_to_bytes k w.
Proof. unfold bytes_be. rewrite fmap_app, join_app. cbn. by rewrite app_nil_r. Qed.

Lemma length_bytes_be k ws : length (bytes_be k ws) = (k * length ws)%nat.
Proof.
  induction ws as [|w ws IH]; [simpl; lia|]. rewrite bytes_be_cons, length_app, IH, length_be_to_bytes.
  simpl. lia.
Qed.
Lemma length_words_be k n l : length (words_be k n l) = n.
Proof. revert l. induction n; intros; simpl; auto. Qed.
#[export] Hint Rewrite length_bytes_be length_words_be : len.

Lemma bytes_be_bytes k ws : bytes (bytes_be k ws).
Proof.
  induction ws as [|w ws IH]; [constructor|]. rewrite bytes_be_cons. apply Forall_app.
  split; [apply be_to_bytes_bytes|done].
Qed.
#[export] Hint Resolve bytes_be_bytes : wrange.

Lemma lookup_words_be k n l i :
  (i < n)%nat -> words_be k n l !! i = Some (be_of_bytes (sub l (i * k) k)).
Proof.
  revert l i. induction n as [|n IH]; intros l i Hi; [lia|]. destruct i as [|i]; simpl.
  - unfold sub. by rewrite drop_0.
  - rewrite IH by lia. unfold sub. rewrite drop_drop. repeat f_equal.
Qed.

Lemma words_be_range k n l :
  bytes l -> (k * n <= length l)%nat -> Forall (is_word (8 * Z.of_nat k)) (words_be k n l).
Proof.
  revert l. induction n as [|n IH]; intros l Hb Hl; simpl; constructor.
  - unfold be_of_bytes. replace (8 * Z.of_nat k) with (8 * Z.of_nat (length (reverse (take k l)))).
    + by apply le_of_bytes_range, Forall_reverse, Forall_take.
    + rewrite length_reverse, length_take. lia.
  - apply IH; [by apply Forall_drop|]. simpl_len. lia.
Qed.

Lemma words_be_seq k n l : words_be k n l = (fun i => be_of_bytes (sub l (i * k) k)) <$> seq 0 n.
Proof.
  apply list_eq. intros i. rewrite list_lookup_fmap. destruct (decide (i < n)%nat).
  - rewrite lookup_words_be, lookup_seq_lt by done. done.
  - rewrite !lookup_ge_None_2; [done| |]; simpl_len; lia.
Qed.

Lemma bytes_le_app k ws1 ws2 : bytes_le k (ws1 ++ ws2) = bytes_le k ws1 ++ bytes_le k ws2.
Proof. rewrite !bytes_le_mjoin, fmap_app. apply join_app. Qed.

(** ** The interface between the hash functions of sha3.h and their clients

    ethash and the tries are verified against this class: two functions from byte messages to
    digests of 32 and 64 bytes.  Sha3.v discharges it with the code of sha3.c. *)

Class Sha3Api := {
  SHA3_256 : list Z -> list Z;
  SHA3_512 : list Z -> list Z;
  SHA3_256_length m : bytes m -> length (SHA3_256 m) = 32%nat;
  SHA3_512_length m : bytes m -> length (SHA3_512 m) = 64%nat;
  SHA3_256_bytes m : bytes m -> bytes (SHA3_256 m);
  SHA3_512_bytes m : bytes m -> bytes (SHA3_512 m);
}.

#[export] Hint Resolve SHA3_256_bytes SHA3_512_bytes : wrange.
