(* ===== verification/KeccakSpec.v ===== *)
(** * Reference definition of Keccak

    The permutation Keccak-f[1600] on 25 lanes of 64 bits, with lane (x, y) at
    index x + 5y, its round constants from the LFSR and its rotation offsets from
    the walk (x, y) -> (y, 2x + 3y), and the sponge over it.  The
    implementations in sha3.c and w_keccak.c are proved equal to these. *)

From S2P Require Import Prelude Words.

Definition lane (a : list Z) (x y : nat) : Z := a !!! (x mod 5 + 5 * (y mod 5))%nat.

(** The list of lanes whose lane (x, y) is [f x y]. *)
Definition mk_lanes (f : nat -> nat -> Z) : list Z :=
  (fun i => f (i mod 5) (i / 5))%nat <$> seq 0 25.

Definition column (a : list Z) (x : nat) : Z :=
  foldr (fun y acc => lane a x y .^ acc) 0 (seq 0 5).

Definition spec_theta (a : list Z) : list Z :=
  mk_lanes (fun x y => lane a x y .^ (column a (x + 4) .^ rotl 64 (column a (x + 1)) 1)).

(** The offset of lane (x, y): t steps along the walk from (1, 0) give
    (t+1)(t+2)/2 mod 64; lane (0, 0) is not rotated. *)
Fixpoint walk (t : nat) : nat * nat :=
  match t with
  | O => (1, 0)
  | S t => let '(x, y) := walk t in (y, (2 * x + 3 * y) mod 5)
  end%nat.

Definition offset (x y : nat) : Z :=
  match list_find (fun t => walk t = (x, y)) (seq 0 24) with
  | Some (_, t) => Z.of_nat ((t + 1) * (t + 2) / 2) mod 64
  | None => 0
  end.

Definition spec_rho (a : list Z) : list Z :=
  mk_lanes (fun x y => rotl 64 (lane a x y) (offset x y)).
Definition spec_pi (a : list Z) : list Z :=
  mk_lanes (fun x y => lane a (x + 3 * y) x).
Definition spec_chi (a : list Z) : list Z :=
  mk_lanes (fun x y => lane a x y .^ Z.ldiff (lane a (x + 2) y) (lane a (x + 1) y)).

(** rc(t): bit 0 of the LFSR x^8 + x^6 + x^5 + x^4 + 1 after t steps; the round
    constant of round [i] has bit 2^j - 1 equal to rc(j + 7i). *)
Definition lfsr_step (r : Z) : Z :=
  let r := Z.shiftl r 1 in if Z.testbit r 8 then r .^ 0x171 else r.
Definition spec_RC (i : nat) : Z :=
  foldr (fun j acc =>
    if Z.testbit (Nat.iter (j + 7 * i) lfsr_step 1) 0
    then Z.setbit acc (2 ^ Z.of_nat j - 1) else acc) 0 (seq 0 7).

Definition spec_iota (i : nat) (a : list Z) : list Z := <[0%nat := (a !!! 0%nat) .^ spec_RC i]> a.

Definition spec_round (i : nat) (a : list Z) : list Z :=
  spec_iota i (spec_chi (spec_pi (spec_rho (spec_theta a)))).
Definition spec_keccakf (a : list Z) : list Z := for_ (seq 0 24) spec_round a.

(** The permutation on the 200 bytes of the state. *)
Definition spec_P (s : list Z) : list Z := bytes_le 8 (spec_keccakf (words_le 8 25 s)).

(** ** The sponge, for a rate below 200 and a domain byte [delim] *)

(** Multi-rate padding with the domain bits of [delim]. *)
Definition pad (rate : nat) (delim : Z) (len : nat) : list Z :=
  let q := (rate - len mod rate)%nat in
  if decide (q = 1%nat) then [delim .^ 0x80]
  else delim :: replicate (q - 2) 0 ++ [0x80].

(** Xor of a block into the first bytes of the state. *)
Definition xor_block (s blk : list Z) : list Z :=
  zip_with Z.lxor (take (length blk) s) blk ++ drop (length blk) s.

Definition spec_absorb (rate : nat) (delim : Z) (m : list Z) : list Z :=
  let p := m ++ pad rate delim (length m) in
  foldl (fun s blk => spec_P (xor_block s blk)) (replicate 200 0)
    (chunks rate (length p / rate) p).

(** Output block [k] is the first [rate] bytes of the state after [k] more
    permutations. *)
Definition spec_squeeze (rate outlen : nat) (s : list Z) : list Z :=
  take outlen (mjoin ((fun k => take rate (Nat.iter k spec_P s)) <$> seq 0 (S (outlen / rate)))).

Definition spec_sponge (rate : nat) (delim : Z) (m : list Z) (outlen : nat) : list Z :=
  spec_squeeze rate outlen (spec_absorb rate delim m).

#[global] Arguments spec_theta : simpl never.
#[global] Arguments spec_rho : simpl never.
#[global] Arguments spec_pi : simpl never.
#[global] Arguments spec_chi : simpl never.
#[global] Arguments spec_round : simpl never.
#[global] Arguments spec_RC : simpl never.
#[global] Arguments spec_keccakf : simpl never.
#[global] Arguments spec_P : simpl never.

(** ** Facts on blocks *)

Lemma length_xor_block s blk :
  (length blk <= length s)%nat -> length (xor_block s blk) = length s.
Proof. intros. unfold xor_block. simpl_len. lia. Qed.

Lemma lookup_xor_block s blk j :
  (length blk <= length s)%nat ->
  xor_block s blk !! j =
    match s !! j, blk !! j with
    | Some x, Some b => Some (x .^ b)
    | Some x, None => Some x
    | None, _ => None
    end.
Proof.
  intros Hl. unfold xor_block. destruct (decide (j < length blk)%nat) as [Hj|Hj].
  - rewrite lookup_app_l by (simpl_len; lia). rewrite lookup_zip_with.
    rewrite lookup_take_lt by done. destruct (lookup_lt_is_Some_2 blk j Hj) as [b ->].
    by destruct (s !! j).
  - rewrite lookup_app_r by (simpl_len; lia). rewrite lookup_drop. simpl_len.
    rewrite (lookup_ge_None_2 blk) by lia.
    match goal with |- s !! ?k = _ => replace k with j by lia end.
    by destruct (s !! j).
Qed.

Lemma length_pad rate delim len :
  (0 < rate)%nat -> length (pad rate delim len) = (rate - len mod rate)%nat.
Proof.
  intros Hr. pose proof (Nat.mod_upper_bound len rate ltac:(lia)). unfold pad.
  case_decide; simpl; simpl_len; simpl; lia.
Qed.

Lemma xor_block_bytes s blk : bytes s -> bytes blk -> bytes (xor_block s blk).
Proof.
  intros Hs Hb. unfold xor_block. apply Forall_app. split; [|by apply Forall_drop].
  apply Forall_lookup_2. intros i x Hx. apply lookup_zip_with_Some in Hx as (y & z & -> & Hy & Hz).
  apply is_word_lxor; [lia| |by eapply Forall_lookup_1].
  eapply Forall_lookup_1; [apply Forall_take, Hs|exact Hy].
Qed.

(** One block of output and the rest of it. *)
Lemma spec_squeeze_step rate outlen s :
  (0 < rate <= length s)%nat -> (rate <= outlen)%nat ->
  spec_squeeze rate outlen s = take rate s ++ spec_squeeze rate (outlen - rate) (spec_P s).
Proof.
  intros Hr Ho. unfold spec_squeeze.
  replace outlen with (rate + (outlen - rate))%nat at 1 2 by lia.
  set (n := (outlen - rate)%nat).
  replace ((rate + n) / rate)%nat with (S (n / rate)).
  2: { replace (rate + n)%nat with (n + 1 * rate)%nat by lia. rewrite Nat.div_add; lia. }
  change (seq 0 (S (S (n / rate)))) with (0%nat :: seq 1 (S (n / rate))).
  rewrite fmap_cons. cbn [mjoin list_join].
  rewrite take_app_add' by (simpl_len; simpl; lia). f_equal. f_equal. f_equal.
  rewrite <-(fmap_S_seq 0), <-list_fmap_compose. apply list_fmap_ext.
  intros _ k _. simpl. by rewrite Nat.iter_swap.
Qed.

Lemma spec_squeeze_small rate outlen s :
  (outlen < rate)%nat -> spec_squeeze rate outlen s = take outlen s.
Proof.
  intros. unfold spec_squeeze. rewrite Nat.div_small by done. simpl.
  rewrite app_nil_r, take_take. f_equal. lia.
Qed.

(** ** Ranges *)

Lemma length_mk_lanes f : length (mk_lanes f) = 25%nat.
Proof. done. Qed.

Lemma mk_lanes_range f : (forall x y, is_u64 (f x y)) -> Forall is_u64 (mk_lanes f).
Proof. intros H. apply Forall_fmap, Forall_true. intros. apply H. Qed.

Lemma is_u64_lane a x y : Forall is_u64 a -> is_u64 (lane a x y).
Proof. intros. apply is_word_lookup; [lia|done]. Qed.

Lemma is_u64_column a x : Forall is_u64 a -> is_u64 (column a x).
Proof.
  intros H. unfold column. induction (seq 0 5) as [|y l IH]; simpl; [word_range|].
  apply is_word_lxor; [lia|by apply is_u64_lane|done].
Qed.
#[export] Hint Resolve is_u64_lane is_u64_column : wrange.

Lemma is_word_ldiff w x y : 0 <= w -> is_word w x -> is_word w (Z.ldiff x y).
Proof.
  intros Hw. rewrite !is_word_bits by done. intros [Hx Hx'].
  split; [by apply Z.ldiff_nonneg; left|]. intros i Hi. rewrite Z.ldiff_spec.
  by rewrite Hx'.
Qed.
#[export] Hint Resolve is_word_ldiff : wrange.

Lemma spec_theta_range a : Forall is_u64 a -> Forall is_u64 (spec_theta a).
Proof. intros. apply mk_lanes_range. intros. word_range. Qed.
Lemma spec_rhopi_range a : Forall is_u64 (spec_pi (spec_rho a)).
Proof.
  apply mk_lanes_range. intros. apply is_u64_lane, mk_lanes_range. intros. word_range.
Qed.
Lemma spec_chi_range a : Forall is_u64 a -> Forall is_u64 (spec_chi a).
Proof. intros. apply mk_lanes_range. intros. word_range. Qed.
