(* ===== verification/Sha3.v ===== *)
(** * libethash/sha3.c: Keccak-f[1600] and the hash functions of ethash

    The tables, the in-place permutation [keccakf] with its unrolled loops as
    folds over the same indices, the sponge [hash] with its error return, and
    sha3_256 / sha3_512 with the wrappers of sha3.h.  The theorems show that the
    code computes the Keccak of KeccakSpec.v. *)

From S2P Require Import Prelude Words KeccakSpec.

(** ** Constants *)

Definition rho : list Z :=
  [1; 3; 6; 10; 15; 21; 28; 36; 45; 55; 2; 14;
   27; 41; 56; 8; 25; 43; 62; 18; 39; 61; 20; 44].

Definition pi : list nat :=
  [10; 7; 11; 17; 18; 3; 5; 16; 8; 21; 24; 4;
   15; 23; 19; 13; 12; 2; 20; 14; 22; 9; 6; 1]%nat.

Definition RC : list Z :=
  [1; 0x8082; 0x800000000000808a; 0x8000000080008000;
   0x808b; 0x80000001; 0x8000000080008081; 0x8000000000008009;
   0x8a; 0x88; 0x80008009; 0x8000000a;
   0x8000808b; 0x800000000000008b; 0x8000000000008089; 0x8000000000008003;
   0x8000000000008002; 0x8000000000000080; 0x800a; 0x800000008000000a;
   0x8000000080008081; 0x8000000000008080; 0x80000001; 0x8000000080008008].

(** ** Macros *)

Definition rol (x s : Z) : Z := u64 (x .<< s) .| (x .>> (64 - s)).
Definition not64 (x : Z) : Z := u64 (Z.lnot x).

(** FOR5(v, s, e): [v] takes the values 0, s, 2s, 3s, 4s. *)
Definition FOR5 {S} (s : nat) (e : nat -> S -> S) (st : S) : S := for_ (rangestep 5 s) e st.

(** ** keccakf: the state is [a] (25 lanes) and the scratch array [b] (5 lanes) *)

(** b[x] = xor of column x, for every x *)
Definition keccakf_parity (a b : list Z) : list Z :=
  FOR5 1 (fun x b =>
    FOR5 5 (fun y b => <[x := (b !!! x) .^ (a !!! (x + y)%nat)]> b) (<[x := 0]> b)) b.

Definition keccakf_theta (a b : list Z) : list Z :=
  FOR5 1 (fun x a =>
    FOR5 5 (fun y a =>
      <[(y + x)%nat := (a !!! (y + x)%nat)
          .^ ((b !!! ((x + 4) mod 5)%nat) .^ rol (b !!! ((x + 1) mod 5)%nat) 1)]> a) a) a.

(** REPEAT24: follow the cycle pi, carrying the displaced lane in [t]. *)
Definition keccakf_rhopi (a b : list Z) : list Z * list Z :=
  let t := a !!! 1%nat in
  let '(a, b, t) :=
    for_ (seq 0 24) (fun x st =>
      let '(a, b, t) := st in
      let b := <[0%nat := a !!! (pi !!! x)]> b in
      let a := <[(pi !!! x) := rol t (rho !!! x)]> a in
      let t := b !!! 0%nat in
      (a, b, t)) (a, b, t) in
  (a, b).

Definition keccakf_chi (a b : list Z) : list Z * list Z :=
  FOR5 5 (fun y st =>
    let '(a, b) := st in
    let b := FOR5 1 (fun x b => <[x := a !!! (y + x)%nat]> b) b in
    let a := FOR5 1 (fun x a =>
      <[(y + x)%nat := (b !!! x)
          .^ (not64 (b !!! ((x + 1) mod 5)%nat) .& (b !!! ((x + 2) mod 5)%nat))]> a) a in
    (a, b)) (a, b).

Definition keccakf_round (i : nat) (st : list Z * list Z) : list Z * list Z :=
  let '(a, b) := st in
  let b := keccakf_parity a b in
  let a := keccakf_theta a b in
  let '(a, b) := keccakf_rhopi a b in
  let '(a, b) := keccakf_chi a b in
  (<[0%nat := (a !!! 0%nat) .^ (RC !!! i)]> a, b).

Definition keccakf (a : list Z) : list Z :=
  fst (for_ (seq 0 24) keccakf_round (a, replicate 5 0)).

(** The permutation on the byte state: [a] cast to [uint64_t*]. *)
Definition P (a : list Z) : list Z := bytes_le 8 (keccakf (words_le 8 25 a)).
Definition Plen : nat := 200.

(** ** The sponge *)

Definition xorin (dst src : list Z) (len : nat) : list Z :=
  for_ (seq 0 len) (fun i dst => <[i := (dst !!! i) .^ (src !!! i)]> dst) dst.

(** setout(src, dst + off, len) *)
Definition setout (src dst : list Z) (off len : nat) : list Z :=
  for_ (seq 0 len) (fun i dst => <[(off + i)%nat := src !!! i]> dst) dst.

(** foldP(in, inlen, xorin): absorb the full blocks; [in_] is the input from the
    current pointer on. The loop does not end when [rate] is 0, hence the fuel. *)
Fixpoint foldP_absorb (fuel rate : nat) (a in_ : list Z) (inlen : nat)
    : option (list Z * list Z * nat) :=
  if decide (rate <= inlen)%nat then
    match fuel with
    | O => None
    | S fuel => foldP_absorb fuel rate (P (xorin a in_ rate)) (drop rate in_) (inlen - rate)
    end
  else Some (a, in_, inlen).

(** foldP(out, outlen, setout): write full blocks at offset [off] of [out]. *)
Fixpoint foldP_squeeze (fuel rate : nat) (a out : list Z) (off outlen : nat)
    : option (list Z * list Z * nat * nat) :=
  if decide (rate <= outlen)%nat then
    match fuel with
    | O => None
    | S fuel => foldP_squeeze fuel rate (P a) (setout a out off rate) (off + rate) (outlen - rate)
    end
  else Some (a, out, off, outlen).

(** hash(out, outlen, in, inlen, rate, delim): a null pointer is [None]; the
    result is the return value and the output buffer.  [None] is a loop that
    does not end. *)
Definition hash (out : option (list Z)) (outlen : nat) (in_ : option (list Z)) (inlen : nat)
    (rate : nat) (delim : Z) : option (Z * option (list Z)) :=
  match out with
  | None => Some (-1, None)
  | Some o =>
    if decide ((in_ = None /\ inlen <> 0%nat) \/ (Plen <= rate)%nat) then Some (-1, out)
    else
      let a := replicate Plen 0 in
      '(a, rest, len) ← foldP_absorb inlen rate a (default [] in_) inlen;
      let a := <[len := (a !!! len) .^ delim]> a in
      let a := <[(rate - 1)%nat := (a !!! (rate - 1)%nat) .^ 0x80]> a in
      let a := xorin a rest len in
      let a := P a in
      '(a, o, off, olen) ← foldP_squeeze outlen rate a o 0 outlen;
      Some (0, Some (setout a o off olen))
  end.

(** defsha3(bits) *)
Definition defsha3 (bits : nat) (out : option (list Z)) (outlen : nat)
    (in_ : option (list Z)) (inlen : nat) : option (Z * option (list Z)) :=
  if decide (bits / 8 < outlen)%nat then Some (-1, out)
  else hash out outlen in_ inlen (200 - bits / 4) 0x01.
Definition sha3_256 := defsha3 256.
Definition sha3_512 := defsha3 512.

(** The wrappers of sha3.h: [ret] is the destination buffer. *)
Definition SHA3_into (bits : nat) (ret data : list Z) : list Z :=
  match defsha3 bits (Some ret) (bits / 8) (Some data) (length data) with
  | Some (_, Some o) => o
  | _ => ret
  end.
Definition SHA3_256_code (data : list Z) : list Z := SHA3_into 256 (replicate 32 0) data.
Definition SHA3_512_code (data : list Z) : list Z := SHA3_into 512 (replicate 64 0) data.

#[global] Arguments keccakf_parity : simpl never.
#[global] Arguments keccakf_theta : simpl never.
#[global] Arguments keccakf_rhopi : simpl never.
#[global] Arguments keccakf_chi : simpl never.
#[global] Arguments keccakf : simpl never.
#[global] Arguments P : simpl never.

(** ** The permutation *)

Lemma rol_rotl x s : is_u64 x -> 0 <= s <= 64 -> rol x s = rotl 64 x s.
Proof. intros. unfold rol, u64. by apply (rotl_shl_trunc 64). Qed.

Lemma not64_land x y : is_u64 y -> (not64 x .& y) = Z.ldiff y x.
Proof.
  intros Hy. unfold not64, u64. change 0xFFFFFFFFFFFFFFFF with (Z.ones 64).
  bitwise. rewrite Z.ldiff_spec. destruct (decide (i < 64)).
  - replace (i <? 64) with true by lia. rewrite andb_true_r. apply andb_comm.
  - rewrite (is_word_high 64 y) by (done || lia). apply andb_false_r.
Qed.

Lemma keccakf_theta_spec a b :
  length a = 25%nat -> length b = 5%nat -> Forall is_u64 a ->
  keccakf_theta a (keccakf_parity a b) = spec_theta a.
Proof.
  intros Ha Hb Hr. destruct_list a Ha. destruct_list b Hb. inv_Forall.
  cbv -[Z.lxor rol rotl is_word]. rewrite !Z.lxor_0_l, !Z.lxor_0_r.
  rewrite !rol_rotl by (word_range; lia). by rewrite !Z.lxor_assoc.
Qed.

Lemma keccakf_rhopi_spec a b :
  length a = 25%nat -> length b = 5%nat -> Forall is_u64 a ->
  fst (keccakf_rhopi a b) = spec_pi (spec_rho a).
Proof.
  intros Ha Hb Hr. destruct_list a Ha. destruct_list b Hb. inv_Forall.
  cbv -[Z.lxor rol rotl is_word]. rewrite !rol_rotl by (done || lia).
  by rewrite (rotl_0 64).
Qed.

Lemma keccakf_chi_spec a b :
  length a = 25%nat -> length b = 5%nat -> Forall is_u64 a ->
  fst (keccakf_chi a b) = spec_chi a.
Proof.
  intros Ha Hb Hr. destruct_list a Ha. destruct_list b Hb. inv_Forall.
  cbv -[Z.lxor Z.land not64 Z.ldiff is_word]. by rewrite !not64_land by done.
Qed.

Lemma RC_spec i : (i < 24)%nat -> RC !!! i = spec_RC i.
Proof. intros. do 24 (destruct i as [|i]; [by vm_compute|]). lia. Qed.
Lemma RC_range i : is_u64 (RC !!! i).
Proof. apply is_word_lookup; [lia|]. by repeat constructor. Qed.

(** Scratch invariant of the round: 25 lanes in range, 5 scratch lanes. *)
Definition kinv (st : list Z * list Z) : Prop :=
  length (fst st) = 25%nat /\ length (snd st) = 5%nat /\ Forall is_u64 (fst st).

Lemma length_parity a b : length (keccakf_parity a b) = length b.
Proof.
  unfold keccakf_parity, FOR5. apply (for_ind (fun b' => length b' = length b)); [done|].
  intros x b' _ Hb'. apply (for_ind (fun b' => length b' = length b)).
  - by rewrite length_insert.
  - intros. by rewrite length_insert.
Qed.

Lemma length_scratch a b :
  length a = 25%nat -> length b = 5%nat ->
  length (snd (keccakf_rhopi a b)) = 5%nat /\ length (snd (keccakf_chi a b)) = 5%nat.
Proof. intros Ha Hb. destruct_list a Ha. by destruct_list b Hb. Qed.

Lemma keccakf_round_spec i st :
  (i < 24)%nat -> kinv st ->
  fst (keccakf_round i st) = spec_round i (fst st) /\ kinv (keccakf_round i st).
Proof.
  destruct st as [a b]. intros Hi (Ha & Hb & Hr). cbn [fst snd] in *. unfold keccakf_round.
  rewrite keccakf_theta_spec by done.
  assert (length (spec_theta a) = 25%nat) as H1 by done.
  assert (length (keccakf_parity a b) = 5%nat) as H2 by by rewrite length_parity.
  pose proof (keccakf_rhopi_spec _ _ H1 H2 (spec_theta_range a Hr)) as H3.
  pose proof (length_scratch _ _ H1 H2) as [H4 _].
  destruct (keccakf_rhopi _ _) as [a2 b2]. cbn [fst snd] in *. subst a2.
  assert (length (spec_pi (spec_rho (spec_theta a))) = 25%nat) as H5 by done.
  pose proof (keccakf_chi_spec _ _ H5 H4 (spec_rhopi_range _)) as H6.
  pose proof (length_scratch _ _ H5 H4) as [_ H7].
  destruct (keccakf_chi _ _) as [a3 b3]. cbn [fst snd] in *. subst a3.
  rewrite RC_spec by done. split; [done|].
  split_and!; cbn [fst snd]; [by rewrite length_insert|done|].
  pose proof (spec_chi_range _ (spec_rhopi_range (spec_theta a))) as H8.
  rewrite <-RC_spec by done. apply is_word_insert; [|done].
  apply is_word_lxor; [lia|by apply is_word_lookup|apply RC_range].
Qed.

Lemma keccakf_rounds n st :
  (n <= 24)%nat -> kinv st ->
  fst (for_ (seq 0 n) keccakf_round st) = for_ (seq 0 n) spec_round (fst st) /\
  kinv (for_ (seq 0 n) keccakf_round st).
Proof.
  intros Hn Hst. induction n as [|n IH]; [done|]. rewrite !for_seq_S. simpl.
  destruct IH as [IH1 IH2]; [lia|].
  destruct (keccakf_round_spec n _ ltac:(lia) IH2) as [H1 H2]. by rewrite H1, IH1.
Qed.

Lemma keccakf_ok a :
  length a = 25%nat -> Forall is_u64 a ->
  keccakf a = spec_keccakf a /\ length (keccakf a) = 25%nat /\ Forall is_u64 (keccakf a).
Proof.
  intros Ha Hr. assert (kinv (a, replicate 5 0)) as Hk by done.
  destruct (keccakf_rounds 24 _ ltac:(lia) Hk) as [H1 (H2 & _ & H3)].
  unfold keccakf, spec_keccakf. exact (conj H1 (conj H2 H3)).
Qed.

(** C27: On every state of 25 64-bit lanes, the in-place permutation [keccakf] of
    sha3.c (its scratch column parities, the cycle walk through [pi]/[rho] with
    one carried lane, and its constant table [RC]) computes Keccak-f[1600], and
    the result is again 25 lanes in range. *)
Theorem keccakf_correct a :
  length a = 25%nat -> Forall is_u64 a ->
  keccakf a = spec_keccakf a /\ length (keccakf a) = 25%nat /\ Forall is_u64 (keccakf a).
Proof. apply keccakf_ok. Qed.

Lemma keccakf_correct_witness :
  keccakf (replicate 25 0) = spec_keccakf (replicate 25 0) /\
  keccakf (replicate 25 0) !!! 0%nat = 0xF1258F7940E1DDE7.
Proof.
  split; [|by vm_compute].
  apply (keccakf_correct (replicate 25 0)); [done|by repeat constructor].
Defined.

(** ** The sponge *)

(** The byte state: 200 bytes. *)
Definition sstate (s : list Z) : Prop := length s = 200%nat /\ bytes s.

Lemma P_spec s : sstate s -> P s = spec_P s /\ sstate (P s).
Proof.
  intros [Hl Hb]. unfold P, spec_P.
  pose proof (words_le_range 8 25 s Hb ltac:(simpl; lia)) as Hw.
  destruct (keccakf_ok (words_le 8 25 s)) as (H1 & H2 & H3); [by simpl_len|exact Hw|].
  rewrite H1. split; [done|]. split; [|apply bytes_le_bytes].
  rewrite length_bytes_le, <-H1, H2. done.
Qed.

Lemma sstate_xor_block s blk :
  sstate s -> bytes blk -> (length blk <= 200)%nat -> sstate (xor_block s blk).
Proof.
  intros [Hl Hb] Hk Hlk. split; [|by apply xor_block_bytes].
  rewrite length_xor_block; lia.
Qed.

Lemma length_xorin dst src len : length (xorin dst src len) = length dst.
Proof.
  apply (for_ind (fun d => length d = length dst)); [done|].
  intros. by rewrite length_insert.
Qed.

Lemma lookup_xorin dst src len j :
  (len <= length src)%nat ->
  xorin dst src len !! j =
    if decide (j < len)%nat then (fun x => x .^ (src !!! j)) <$> dst !! j else dst !! j.
Proof.
  intros Hl. induction len as [|n IH]; [done|].
  unfold xorin in *. rewrite for_seq_S. simpl. fold (xorin dst src n) in *.
  destruct (decide (j = n)) as [->|Hj].
  - rewrite decide_True by lia. destruct (decide (n < length dst)%nat).
    + rewrite list_lookup_insert_eq by (rewrite length_xorin; lia).
      rewrite list_lookup_total_alt, IH, decide_False by lia.
      by destruct (lookup_lt_is_Some_2 dst n) as [x ->].
    + rewrite list_insert_ge by (rewrite length_xorin; lia).
      rewrite IH, decide_False by lia. by rewrite (lookup_ge_None_2 dst) by lia.
  - rewrite list_lookup_insert_ne, IH by (lia || done).
    repeat case_decide; try lia; done.
Qed.

Lemma xorin_block dst src len :
  (len <= length src)%nat -> (len <= length dst)%nat ->
  xorin dst src len = xor_block dst (take len src).
Proof.
  intros Hs Hd. apply list_eq. intros j. rewrite lookup_xorin by done.
  rewrite lookup_xor_block by (simpl_len; lia). case_decide.
  - rewrite lookup_take_lt by done. rewrite list_lookup_total_alt.
    by destruct (dst !! j), (lookup_lt_is_Some_2 src j ltac:(lia)) as [y ->].
  - rewrite lookup_take_ge by lia. by destruct (dst !! j).
Qed.

(** The absorbing loop ends for a positive rate and folds the permutation over
    the full blocks. *)
Lemma foldP_absorb_spec fuel rate a in_ len :
  (0 < rate <= 200)%nat -> (len <= fuel)%nat -> (len <= length in_)%nat ->
  sstate a -> bytes in_ ->
  let a' := foldl (fun s blk => spec_P (xor_block s blk)) a (chunks rate (len / rate) in_) in
  foldP_absorb fuel rate a in_ len
    = Some (a', drop (rate * (len / rate)) in_, len mod rate)%nat /\ sstate a'.
Proof.
  revert a in_ len. induction fuel as [|fuel IH]; intros a in_ len Hr Hf Hl Ha Hin; simpl.
  - rewrite decide_False by lia. replace len with 0%nat by lia.
    rewrite Nat.Div0.div_0_l, Nat.Div0.mod_0_l, Nat.mul_0_r, drop_0. done.
  - case_decide as Hd.
    + rewrite xorin_block by (destruct Ha; lia).
      assert (sstate (xor_block a (take rate in_))) as Hx.
      { apply sstate_xor_block; [done|by apply Forall_take|]. simpl_len. lia. }
      destruct (P_spec _ Hx) as [HP HPs].
      destruct (IH (P (xor_block a (take rate in_))) (drop rate in_) (len - rate)%nat)
        as [E Hs]; [lia|lia|simpl_len; lia|done|by apply Forall_drop|].
      assert (len / rate = S ((len - rate) / rate))%nat as Hq.
      { replace len with ((len - rate) + 1 * rate)%nat at 1 by lia.
        rewrite Nat.div_add; lia. }
      rewrite E, Hq. cbn [chunks foldl]. rewrite <-HP. split; [|done].
      rewrite drop_drop, <-(Nat.Div0.mod_add (len - rate) 1 rate).
      replace (rate + rate * ((len - rate) / rate))%nat
        with (rate * S ((len - rate) / rate))%nat by lia.
      by replace (len - rate + 1 * rate)%nat with len by lia.
    + rewrite Nat.div_small, Nat.mod_small, Nat.mul_0_r, drop_0 by lia. done.
Qed.

(** The last block: xoring the domain byte, the final 0x80 and the remaining
    input into the state is xoring the padded block. *)
Lemma last_block a rest len rate delim :
  sstate a -> (len < rate <= 200)%nat -> (len = length rest)%nat ->
  let a1 := <[len := (a !!! len) .^ delim]> a in
  let a2 := <[(rate - 1)%nat := (a1 !!! (rate - 1)%nat) .^ 0x80]> a1 in
  xorin a2 rest len = xor_block a (rest ++ pad rate delim len).
Proof.
  intros [Ha _] Hr Hl a1 a2. apply list_eq. intros j.
  assert (length (pad rate delim len) = (rate - len)%nat) as Hp.
  { rewrite length_pad, Nat.mod_small; lia. }
  rewrite lookup_xorin by lia. rewrite lookup_xor_block by (simpl_len; lia).
  destruct (decide (j < 200)%nat) as [Hj|Hj].
  2: { rewrite (lookup_ge_None_2 a) by lia.
       rewrite (lookup_ge_None_2 a2) by (subst a1 a2; simpl_len; lia). by case_decide. }
  destruct (lookup_lt_is_Some_2 a j ltac:(lia)) as [x Hx]. rewrite Hx.
  case_decide as Hjl.
  - subst a1 a2. rewrite !list_lookup_insert_ne, Hx by lia. simpl.
    rewrite lookup_app_l, list_lookup_total_alt by lia.
    by destruct (lookup_lt_is_Some_2 rest j ltac:(lia)) as [y ->].
  - rewrite lookup_app_r by lia. rewrite <-Hl.
    unfold pad. rewrite Nat.mod_small by lia.
    destruct (decide (j = (rate - 1)%nat)) as [->|Hj1].
    + subst a2. rewrite list_lookup_insert_eq by (subst a1; simpl_len; lia).
      case_decide as Hq.
      * assert (len = rate - 1)%nat as -> by lia. rewrite Nat.sub_diag. simpl.
        subst a1. rewrite list_lookup_total_insert_eq by lia.
        rewrite (list_lookup_total_correct _ _ _ Hx). by rewrite Z.lxor_assoc.
      * subst a1. rewrite list_lookup_total_insert_ne by lia.
        rewrite (list_lookup_total_correct _ _ _ Hx).
        replace (rate - 1 - len)%nat with (S (rate - len - 2)) by lia. simpl.
        rewrite lookup_app_r by (simpl_len; lia). simpl_len. by rewrite Nat.sub_diag.
    + subst a2. rewrite list_lookup_insert_ne by lia.
      destruct (decide (j = len)) as [->|Hj2].
      * subst a1. rewrite list_lookup_insert_eq by lia. rewrite Nat.sub_diag.
        rewrite decide_False by lia. simpl. by rewrite (list_lookup_total_correct _ _ _ Hx).
      * subst a1. rewrite list_lookup_insert_ne, Hx by lia.
        destruct (decide (j < rate)%nat) as [Hjr|Hjr].
        -- rewrite decide_False by lia.
           replace (j - len)%nat with (S (j - len - 1)) by lia. simpl.
           rewrite lookup_app_l by (simpl_len; lia).
           rewrite lookup_replicate_2 by lia. by rewrite Z.lxor_0_r.
        -- unfold pad in Hp. rewrite Nat.mod_small in Hp by lia.
           rewrite lookup_ge_None_2; [done|]. rewrite Hp. lia.
Qed.

Lemma setout_blit src dst off len :
  (len <= length src)%nat -> (off + len <= length dst)%nat ->
  setout src dst off len = blit dst off (take len src).
Proof.
  intros Hs Hd. induction len as [|n IH]; [by rewrite take_0, blit_nil|].
  unfold setout in *. rewrite for_seq_S, IH by lia. simpl.
  destruct (lookup_lt_is_Some_2 src n ltac:(lia)) as [x Hx].
  rewrite (take_S_r _ _ x Hx), (list_lookup_total_correct _ _ _ Hx).
  assert (length (take n src) = n) as Hn by (simpl_len; lia).
  apply insert_blit; lia.
Qed.

Lemma foldP_squeeze_spec fuel rate a out off outlen :
  (0 < rate <= 200)%nat -> (outlen <= fuel)%nat -> (off + outlen <= length out)%nat ->
  sstate a ->
  exists a' out' off' olen',
    foldP_squeeze fuel rate a out off outlen = Some (a', out', off', olen') /\
    setout a' out' off' olen' = blit out off (spec_squeeze rate outlen a).
Proof.
  revert a out off outlen. induction fuel as [|fuel IH]; intros a out off outlen Hr Hf Ho Ha; simpl.
  - rewrite decide_False by lia. do 4 eexists. split; [done|].
    rewrite setout_blit by (destruct Ha; lia). by rewrite spec_squeeze_small by lia.
  - case_decide as Hd.
    + destruct (P_spec a Ha) as [HP HPs]. pose proof Ha as [Hal _].
      assert (length (take rate a) = rate) as Hla by (simpl_len; lia).
      destruct (IH (P a) (setout a out off rate) (off + rate)%nat (outlen - rate)%nat)
        as (a' & out' & off' & olen' & E & E'); [lia|lia| |done|].
      { rewrite setout_blit by lia. rewrite length_blit by (rewrite Hla; lia). lia. }
      do 4 eexists. split; [exact E|]. rewrite E', setout_blit by lia.
      rewrite (spec_squeeze_step _ outlen) by lia. rewrite <-HP.
      rewrite <-(blit_blit out off (take rate a)) by (rewrite Hla; lia). by rewrite Hla.
    + do 4 eexists. split; [done|].
      rewrite setout_blit by (destruct Ha; lia). by rewrite spec_squeeze_small by lia.
Qed.

Lemma pad_bytes rate delim len : is_byte delim -> bytes (pad rate delim len).
Proof.
  intros Hd. unfold pad. case_decide.
  - apply Forall_singleton. by apply is_word_lxor.
  - constructor; [done|]. apply Forall_app. split; [|by repeat constructor].
    by apply Forall_replicate.
Qed.

Lemma pad_mod rate delim len : pad rate delim (len mod rate) = pad rate delim len.
Proof. unfold pad. by rewrite Nat.Div0.mod_mod. Qed.

(** The state after the last block. *)
Lemma absorb_all rate delim m a rest len :
  (0 < rate < 200)%nat -> bytes m -> is_byte delim ->
  foldP_absorb (length m) rate (replicate 200 0) m (length m) = Some (a, rest, len) ->
  let a1 := <[len := (a !!! len) .^ delim]> a in
  let a2 := <[(rate - 1)%nat := (a1 !!! (rate - 1)%nat) .^ 0x80]> a1 in
  P (xorin a2 rest len) = spec_absorb rate delim m /\ sstate (P (xorin a2 rest len)).
Proof.
  intros Hr Hm Hd E a1 a2.
  destruct (foldP_absorb_spec (length m) rate (replicate 200 0) m (length m))
    as [E' Ha]; [lia|lia|lia| |done|].
  { split; [done|]. by apply Forall_replicate. }
  rewrite E' in E. simplify_eq. clear E'.
  pose proof (Nat.mod_upper_bound (length m) rate ltac:(lia)) as Hlt.
  pose proof (Nat.div_mod_eq (length m) rate) as Hdm.
  subst a1 a2. rewrite last_block; [|done|lia|simpl_len; lia].
  set (s := foldl _ _ _) in *.
  assert (sstate (xor_block s (drop (rate * (length m / rate)) m ++
     pad rate delim (length m mod rate)))) as Hx.
  { apply sstate_xor_block; [done| |].
    - apply Forall_app. split; [by apply Forall_drop|by apply pad_bytes].
    - simpl_len. rewrite length_pad, Nat.Div0.mod_mod by lia. lia. }
  destruct (P_spec _ Hx) as [HP HPs]. split; [|done]. rewrite HP.
  unfold spec_absorb. rewrite length_app, length_pad by lia.
  replace ((length m + (rate - length m mod rate)) / rate)%nat
    with (length m / rate + 1)%nat.
  2: { apply (Nat.div_unique _ _ _ 0); lia. }
  rewrite chunks_add, foldl_app, chunks_app_l by lia. fold s. cbn [chunks foldl].
  rewrite take_ge; [|simpl_len; rewrite length_pad by lia; lia].
  rewrite drop_app_le by lia. rewrite pad_mod. reflexivity.
Qed.

Lemma hash_ok out m outlen rate delim :
  (0 < rate < 200)%nat -> bytes m -> is_byte delim -> (outlen <= length out)%nat ->
  hash (Some out) outlen (Some m) (length m) rate delim =
    Some (0, Some (blit out 0 (spec_sponge rate delim m outlen))).
Proof.
  intros Hr Hm Hd Ho. unfold hash.
  rewrite decide_False by (unfold Plen; intros [[? _]|?]; [done|lia]).
  destruct (foldP_absorb_spec (length m) rate (replicate 200 0) m (length m))
    as [E _]; [lia|lia|lia| |done|].
  { split; [done|]. by apply Forall_replicate. }
  change Plen with 200%nat. cbn [default]. unfold id.
  destruct (absorb_all rate delim m _ _ _ Hr Hm Hd E) as [HP HPs].
  rewrite E. cbn [mbind option_bind]. rewrite HP in HPs |- *.
  destruct (foldP_squeeze_spec outlen rate (spec_absorb rate delim m) out 0 outlen)
    as (a' & out' & off' & olen' & E1 & E2); [lia|lia|lia|done|].
  rewrite E1. cbn [mbind option_bind]. by rewrite E2.
Qed.

(** At rate 0, which passes the check of the code, the loop does not end *)
Lemma hash_rate_zero out m outlen inlen delim : hash (Some out) outlen (Some m) inlen 0 delim = None.
Proof.
  unfold hash. rewrite decide_False by (intros [[? _]|Hp]; [done|unfold Plen in Hp; lia]).
  cbn [default]. unfold id.
  assert (E : forall fuel a l n, foldP_absorb fuel 0 a l n = None).
  { induction fuel as [|fuel IH]; intros a l n; cbn [foldP_absorb]; (rewrite decide_True by lia); [done|apply IH]. }
  by rewrite E.
Qed.

(** C36: For every rate from 1 to 199 bytes and every byte message, the sponge
    [hash] ends, returns 0 and writes to the output buffer exactly the first
    [outlen] bytes of the Keccak sponge (padding included), leaving the rest of
    the buffer as it was. *)
Theorem hash_correct out m outlen rate delim :
  (0 < rate < 200)%nat -> bytes m -> is_byte delim -> (outlen <= length out)%nat ->
  hash (Some out) outlen (Some m) (length m) rate delim =
    Some (0, Some (blit out 0 (spec_sponge rate delim m outlen))).
Proof. apply hash_ok. Qed.

Lemma hash_correct_witness :
  hash (Some [7; 8; 9; 10]) 3 (Some [97; 98; 99]) 3 136 1 =
    Some (0, Some (blit [7; 8; 9; 10] 0 (spec_sponge 136 1 [97; 98; 99] 3))) /\
  hash (Some [7; 8; 9; 10]) 3 (Some [97; 98; 99]) 3 136 1 =
    Some (0, Some [0x4e; 0x03; 0x65; 10]).
Proof.
  split; [|by vm_compute].
  apply (hash_correct [7; 8; 9; 10] [97; 98; 99] 3 136 1);
    [lia|by repeat constructor|done|simpl; lia].
Defined.

(** The digest of [bits] bits of the whole message. *)
Definition spec_keccak (bits : nat) (m : list Z) : list Z :=
  spec_sponge (200 - bits / 4) 0x01 m (bits / 8).

Lemma length_spec_squeeze rate outlen s :
  (outlen < rate <= length s)%nat -> length (spec_squeeze rate outlen s) = outlen.
Proof. intros. rewrite spec_squeeze_small by lia. simpl_len. lia. Qed.

Lemma spec_absorb_state rate delim m :
  (0 < rate < 200)%nat -> bytes m -> is_byte delim -> sstate (spec_absorb rate delim m).
Proof.
  intros Hr Hm Hd.
  destruct (foldP_absorb_spec (length m) rate (replicate 200 0) m (length m))
    as [E _]; [lia|lia|lia| |done|].
  { split; [done|]. by apply Forall_replicate. }
  destruct (absorb_all rate delim m _ _ _ Hr Hm Hd E) as [HP HPs].
  rewrite <-HP. exact HPs.
Qed.

Lemma spec_keccak_wf bits m :
  (8 <= bits)%nat -> (bits / 4 + bits / 8 < 200)%nat -> bytes m ->
  length (spec_keccak bits m) = (bits / 8)%nat /\ bytes (spec_keccak bits m).
Proof.
  intros Hb Hs Hm. unfold spec_keccak, spec_sponge.
  assert (2 <= bits / 4)%nat by (apply Nat.div_le_lower_bound; lia).
  destruct (spec_absorb_state (200 - bits / 4) 1 m) as [Hl Ha]; [lia|done|done|].
  split.
  - apply length_spec_squeeze. rewrite Hl. lia.
  - rewrite spec_squeeze_small by lia. by apply Forall_take.
Qed.

(** ** The wrappers of sha3.h *)

Lemma SHA3_into_spec bits ret data :
  (8 <= bits)%nat -> (bits / 4 + bits / 8 < 200)%nat -> bytes data ->
  (bits / 8 <= length ret)%nat ->
  SHA3_into bits ret data = blit ret 0 (spec_keccak bits data).
Proof.
  intros Hb Hs Hd Hl. unfold SHA3_into, defsha3. rewrite decide_False by lia.
  assert (2 <= bits / 4)%nat by (apply Nat.div_le_lower_bound; lia).
  rewrite hash_ok; [done|lia|done|done|done].
Qed.

Lemma SHA3_256_spec data : bytes data -> SHA3_256_code data = spec_keccak 256 data.
Proof.
  intros Hd. unfold SHA3_256_code. rewrite SHA3_into_spec; [|vm_compute; lia|vm_compute; lia|done|vm_compute; lia].
  apply blit_all. destruct (spec_keccak_wf 256 data) as [-> _]; [vm_compute; lia|vm_compute; lia|done|done].
Qed.
Lemma SHA3_512_spec data : bytes data -> SHA3_512_code data = spec_keccak 512 data.
Proof.
  intros Hd. unfold SHA3_512_code. rewrite SHA3_into_spec; [|vm_compute; lia|vm_compute; lia|done|vm_compute; lia].
  apply blit_all. destruct (spec_keccak_wf 512 data) as [-> _]; [vm_compute; lia|vm_compute; lia|done|done].
Qed.

Lemma SHA3_256_wf m :
  bytes m -> length (SHA3_256_code m) = 32%nat /\ bytes (SHA3_256_code m).
Proof.
  intros Hm. rewrite SHA3_256_spec by done.
  apply spec_keccak_wf; [vm_compute; lia|vm_compute; lia|done].
Qed.
Lemma SHA3_512_wf m :
  bytes m -> length (SHA3_512_code m) = 64%nat /\ bytes (SHA3_512_code m).
Proof.
  intros Hm. rewrite SHA3_512_spec by done.
  apply spec_keccak_wf; [vm_compute; lia|vm_compute; lia|done].
Qed.

(** sha3.c discharges the interface its clients use. *)
#[export] Instance sha3_api : Sha3Api :=
  {| SHA3_256 := SHA3_256_code; SHA3_512 := SHA3_512_code;
     SHA3_256_length m H := proj1 (SHA3_256_wf m H);
     SHA3_512_length m H := proj1 (SHA3_512_wf m H);
     SHA3_256_bytes m H := proj2 (SHA3_256_wf m H);
     SHA3_512_bytes m H := proj2 (SHA3_512_wf m H) |}.

Lemma defsha3_errors bits out outlen in_ inlen :
  ((bits / 8 < outlen)%nat \/ out = None \/ (in_ = None /\ inlen <> 0%nat)) ->
  defsha3 bits out outlen in_ inlen = Some (-1, out).
Proof.
  unfold defsha3, hash. case_decide; [done|]. intros [?|[->|?]]; [lia|done|].
  destruct out; [|done]. rewrite decide_True by by left. done.
Qed.

(** The error returns of sha3_256 and sha3_512: a request for more bytes than
    the digest has, a null output, or a null input with a nonzero length gives -1
    and leaves the output untouched; every other call with a large enough buffer
    returns 0. *)
Theorem sha3_errors bits out outlen data :
  bits = 256%nat \/ bits = 512%nat -> (outlen <= length out)%nat -> bytes data ->
  (forall in_ inlen, (bits / 8 < outlen)%nat ->
     defsha3 bits (Some out) outlen in_ inlen = Some (-1, Some out)) /\
  (forall in_ inlen, defsha3 bits None outlen in_ inlen = Some (-1, None)) /\
  (forall inlen, inlen <> 0%nat -> defsha3 bits (Some out) outlen None inlen = Some (-1, Some out)) /\
  ((outlen <= bits / 8)%nat ->
     exists out', defsha3 bits (Some out) outlen (Some data) (length data) = Some (0, Some out') /\
       length out' = length out /\ drop outlen out' = drop outlen out).
Proof.
  intros Hb Ho Hd.
  split_and!; [intros; apply defsha3_errors; auto..|]. intros Hle.
  exists (blit out 0 (spec_sponge (200 - bits / 4) 1 data outlen)).
  assert (200 - bits / 4 = 136 \/ 200 - bits / 4 = 72)%nat as Hr by (destruct Hb as [-> | ->]; [by left|by right]).
  assert (bits / 8 < 200 - bits / 4)%nat as Hq by (destruct Hb as [-> | ->]; vm_compute; lia).
  destruct (spec_absorb_state (200 - bits / 4) 1 data) as [Hl _]; [lia|done|done|].
  assert (length (spec_sponge (200 - bits / 4) 1 data outlen) = outlen) as Hlen.
  { apply length_spec_squeeze. rewrite Hl. lia. }
  unfold defsha3. rewrite decide_False by lia. rewrite hash_ok by (done || lia).
  split_and!; [done|rewrite length_blit; lia|].
  unfold blit. rewrite take_0. cbn [app]. rewrite drop_app_length' by done. by rewrite Hlen.
Qed.

Lemma sha3_errors_witness :
  defsha3 256 (Some [1; 2]) 33 None 0 = Some (-1, Some [1; 2]) /\
  exists out', defsha3 512 (Some [1; 2]) 1 (Some [5]) 1 = Some (0, Some out') /\
    length out' = 2%nat /\ drop 1 out' = [2].
Proof.
  split.
  - by vm_compute.
  - apply (sha3_errors 512 [1; 2] 1 [5]);
      [by right|simpl; lia|by repeat constructor|vm_compute; lia].
Defined.
