(* ===== verification/Ethash.v ===== *)
(** * libethash/internal.c: the ethash proof of work

    Cache generation, dataset items, the light and the full evaluation of the
    hash, seed hashes and the difficulty check (internal.c, internal.h, fnv.h).
    Everything is stated for any [Sha3Api]; [None] stands for undefined behaviour
    of the C code: an access out of bounds or a division by zero.  The machine is
    little-endian, so the fix_endian macros are the identity. *)

From S2P Require Import Prelude Words Sha3 EthashSizes.

(** ** Constants of ethash.h, internal.h and fnv.h *)

Definition ETHASH_MIX_BYTES : Z := 128.
Definition ETHASH_DATASET_PARENTS : nat := 256.
Definition ETHASH_CACHE_ROUNDS : nat := 3.
Definition ETHASH_ACCESSES : nat := 64.
Definition NODE_WORDS : nat := 16.
Definition MIX_WORDS : nat := 32.
Definition MIX_NODES : nat := 2.
Definition sizeof_node : Z := 64.
Definition FNV_PRIME : Z := 0x01000193.

Definition fnv_hash (x y : Z) : Z := u32 (x * FNV_PRIME) .^ y.

(** ** Data *)

(** A node is its 16 words; [node_bytes] is the [bytes] member of the union. *)
Abbreviation node := (list Z).
Definition node_bytes (n : node) : list Z := bytes_le 4 n.
Definition node_of_bytes (b : list Z) : node := words_le 4 NODE_WORDS b.

(** ethash_h256_t: 32 bytes. *)
Abbreviation h256 := (list Z).
Definition ethash_h256_get (h : h256) (i : nat) : Z := h !!! i.
Definition ethash_h256_set (h : h256) (i : nat) (v : Z) : h256 := <[i := v]> h.
Definition ethash_h256_reset : h256 := replicate 32 0.

Record ethash_light := mk_light {
  cache : list node;
  cache_size : Z;
  block_number : Z;
}.

Record ethash_return_value := mk_ret {
  result : h256;
  mix_hash : h256;
  success : bool;
}.

(** The indices of [for (uint32_t i = a; i != n; ++i)]: the counter wraps around. *)
Definition range_ne (a n : Z) : list nat := seq (Z.to_nat a) (Z.to_nat ((n - a) mod 2 ^ 32)).

(** A store to an array, undefined out of bounds. *)
Definition store {A} (l : list A) (i : nat) (x : A) : option (list A) :=
  if decide (i < length l)%nat then Some (<[i := x]> l) else None.

Section ethash.
Context `{Hsha : Sha3Api}.

(** ** The cache *)

(** SHA3_512 of the first [size] bytes of a node, into a node. *)
Definition sha3_node (b : list Z) : node := node_of_bytes (SHA3_512 b).

(** The chain nodes[i] = SHA3_512(nodes[i - 1]). *)
Definition cache_chain (num_nodes : Z) (seed : h256) (nodes : list node) : option (list node) :=
  nodes ← store nodes 0 (sha3_node seed);
  for_opt (range_ne 1 num_nodes) (fun i nodes =>
    prev ← nodes !! (i - 1)%nat;
    store nodes i (sha3_node (node_bytes prev))) nodes.

(** One step of the memo-hash rounds. *)
Definition cache_mix (num_nodes : Z) (i : nat) (nodes : list node) : option (list node) :=
  ni ← nodes !! i;
  let idx := (ni !!! 0%nat) mod num_nodes in
  data ← nodes !! Z.to_nat (u32 (num_nodes - 1 + Z.of_nat i) mod num_nodes);
  nidx ← nodes !! Z.to_nat idx;
  let data := for_ (seq 0 NODE_WORDS) (fun w data =>
    <[w := (data !!! w) .^ (nidx !!! w)]> data) data in
  store nodes i (sha3_node (node_bytes data)).

Definition ethash_compute_cache_nodes (nodes : list node) (cache_size : Z) (seed : h256)
    : option (bool * list node) :=
  if negb (cache_size mod sizeof_node =? 0) then Some (false, nodes)
  else
    let num_nodes := u32 (cache_size / sizeof_node) in
    nodes ← cache_chain num_nodes seed nodes;
    nodes ← for_opt (seq 0 ETHASH_CACHE_ROUNDS) (fun _ nodes =>
      for_opt (range_ne 0 num_nodes) (cache_mix num_nodes) nodes) nodes;
    Some (true, nodes).

(** ** Dataset items *)

Definition fnv_node (ret parent : node) : node :=
  for_ (seq 0 NODE_WORDS) (fun w ret => <[w := fnv_hash (ret !!! w) (parent !!! w)]> ret) ret.

Definition ethash_calculate_dag_item (node_index : Z) (light : ethash_light) : option node :=
  let num_parent_nodes := u32 (cache_size light / sizeof_node) in
  if num_parent_nodes =? 0 then None
  else
    init ← cache light !! Z.to_nat (node_index mod num_parent_nodes);
    let ret := <[0%nat := (init !!! 0%nat) .^ node_index]> init in
    let ret := sha3_node (node_bytes ret) in
    ret ← for_opt (seq 0 ETHASH_DATASET_PARENTS) (fun i ret =>
      let parent_index :=
        fnv_hash (node_index .^ Z.of_nat i) (ret !!! (i mod NODE_WORDS)%nat)
          mod num_parent_nodes in
      parent ← cache light !! Z.to_nat parent_index;
      Some (fnv_node ret parent)) ret;
    Some (sha3_node (node_bytes ret)).

(** A progress callback: the answer to the call at iteration [n], given the
    percentage it is passed; [percent] stands for the floating-point progress. *)
Definition callback_t := option (nat -> Z -> Z).

Definition callback_stops (percent : nat -> Z) (callback : callback_t) (max_n : Z) (n : nat)
    : option bool :=
  match callback with
  | None => Some false
  | Some cb =>
    if max_n / 100 =? 0 then None
    else if Z.of_nat n mod (max_n / 100) =? 0 then Some (negb (cb n (percent n) =? 0))
    else Some false
  end.

Fixpoint full_data_loop (percent : nat -> Z) (callback : callback_t) (max_n : Z)
    (light : ethash_light) (ns : list nat) (full_nodes : list node)
    : option (bool * list node) :=
  match ns with
  | [] => Some (true, full_nodes)
  | n :: ns =>
    stop ← callback_stops percent callback max_n n;
    if stop : bool then Some (false, full_nodes)
    else
      item ← ethash_calculate_dag_item (Z.of_nat n) light;
      full_nodes ← store full_nodes n item;
      full_data_loop percent callback max_n light ns full_nodes
  end.

Definition ethash_compute_full_data (percent : nat -> Z) (mem : list node) (full_size : Z)
    (light : ethash_light) (callback : callback_t) : option (bool * list node) :=
  if negb (full_size mod (4 * Z.of_nat MIX_WORDS) =? 0) || negb (full_size mod sizeof_node =? 0)
  then Some (false, mem)
  else
    let max_n := u32 (full_size / sizeof_node) in
    full_data_loop percent callback max_n light (range_ne 0 max_n) mem.

(** ** The hash *)

(** The dataset node [i]: read from the dataset, or computed from the cache when
    the dataset pointer is null. *)
Definition dag_node (full_nodes : option (list node)) (light : option ethash_light) (i : Z)
    : option node :=
  match full_nodes with
  | Some nodes => nodes !! Z.to_nat i
  | None => l ← light; ethash_calculate_dag_item i l
  end.

(** mix[n].words[w] = fnv_hash(mix[n].words[w], dag_node->words[w]) for every w *)
Definition mix_in (n : nat) (d : node) (mix : list Z) : list Z :=
  for_ (seq 0 NODE_WORDS) (fun w mix =>
    <[(n * NODE_WORDS + w)%nat := fnv_hash (mix !!! (n * NODE_WORDS + w)%nat) (d !!! w)]> mix) mix.

(** The access loop; [s] is s_mix[0], [mix] the 32 words after it. *)
Definition mix_rounds (full_nodes : option (list node)) (light : option ethash_light)
    (num_full_pages : Z) (s : node) (mix : list Z) : option (list Z) :=
  for_opt (seq 0 ETHASH_ACCESSES) (fun i mix =>
    if num_full_pages =? 0 then None
    else
      let index := fnv_hash ((s !!! 0%nat) .^ Z.of_nat i) (mix !!! (i mod MIX_WORDS)%nat)
        mod num_full_pages in
      for_opt (seq 0 MIX_NODES) (fun n mix =>
        d ← dag_node full_nodes light (u32 (Z.of_nat MIX_NODES * index + Z.of_nat n));
        Some (mix_in n d mix)) mix) mix.

Definition compress_mix (mix : list Z) : list Z :=
  for_ (rangestep 8 4) (fun w mix =>
    let reduction := mix !!! w in
    let reduction := u32 (reduction * FNV_PRIME) .^ (mix !!! (w + 1)%nat) in
    let reduction := u32 (reduction * FNV_PRIME) .^ (mix !!! (w + 2)%nat) in
    let reduction := u32 (reduction * FNV_PRIME) .^ (mix !!! (w + 3)%nat) in
    <[(w / 4)%nat := reduction]> mix) mix.

(** The result is the return value and what [ret] points to. *)
Definition ethash_hash (ret : ethash_return_value) (full_nodes : option (list node))
    (light : option ethash_light) (full_size : Z) (header_hash : h256) (nonce : Z)
    : option (bool * ethash_return_value) :=
  if negb (full_size mod Z.of_nat MIX_WORDS =? 0) then Some (false, ret)
  else
    let s := sha3_node (header_hash ++ le_to_bytes 8 nonce) in
    let mix := (fun w => s !!! (w mod NODE_WORDS)%nat) <$> seq 0 MIX_WORDS in
    let page_size := 4 * Z.of_nat MIX_WORDS in
    let num_full_pages := u32 (full_size / page_size) in
    mix ← mix_rounds full_nodes light num_full_pages s mix;
    let mix := compress_mix mix in
    let mh := take 32 (bytes_le 4 mix) in
    Some (true, mk_ret (SHA3_256 (node_bytes s ++ mh)) mh (success ret)).

Definition ethash_quick_hash (header_hash : h256) (nonce : Z) (mix_hash : h256) : h256 :=
  let buf := header_hash ++ le_to_bytes 8 nonce in
  let buf := SHA3_512 buf in
  SHA3_256 (buf ++ mix_hash).

(** The counter is a uint32_t compared with a uint64_t: the loop does not end
    from 2^32 epochs on ([None]). *)
Definition ethash_get_seedhash (block_number : Z) : option h256 :=
  let epochs := block_number / ETHASH_EPOCH_LENGTH in
  if epochs <? 2 ^ 32
  then Some (for_ (seq 0 (Z.to_nat epochs)) (fun _ ret => SHA3_256 ret) ethash_h256_reset)
  else None.

(** ** Difficulty *)

Fixpoint check_difficulty_from (is_ : list nat) (hash boundary : h256) : bool :=
  match is_ with
  | [] => true
  | i :: is_ =>
    if ethash_h256_get hash i =? ethash_h256_get boundary i
    then check_difficulty_from is_ hash boundary
    else ethash_h256_get hash i <? ethash_h256_get boundary i
  end.
Definition ethash_check_difficulty (hash boundary : h256) : bool :=
  check_difficulty_from (seq 0 32) hash boundary.

Definition ethash_quick_check_difficulty (header_hash : h256) (nonce : Z)
    (mix_hash boundary : h256) : bool :=
  ethash_check_difficulty (ethash_quick_hash header_hash nonce mix_hash) boundary.

(** ** Light client *)

(** [alloc] is the content of the cache memory malloc returned, [None] when an
    allocation fails; the result [Some None] is a null pointer. *)
Definition ethash_light_new_internal (alloc : option (list node)) (cache_size : Z) (seed : h256)
    : option (option ethash_light) :=
  match alloc with
  | None => Some None
  | Some nodes =>
    '(ok, nodes) ← ethash_compute_cache_nodes nodes cache_size seed;
    if ok : bool then Some (Some (mk_light nodes cache_size 0)) else Some None
  end.

(** A null pointer of ethash_light_new_internal is dereferenced. *)
Definition ethash_light_new (alloc : option (list node)) (block_number : Z) : option ethash_light :=
  seedhash ← ethash_get_seedhash block_number;
  size ← ethash_get_cachesize block_number;
  ret ← ethash_light_new_internal alloc size seedhash;
  ret ← ret;
  Some (mk_light (cache ret) (cache_size ret) block_number).

(** [ret0] is the uninitialised return value. *)
Definition ethash_light_compute_internal (ret0 : ethash_return_value) (light : ethash_light)
    (full_size : Z) (header_hash : h256) (nonce : Z) : option ethash_return_value :=
  let ret := mk_ret (result ret0) (mix_hash ret0) true in
  '(ok, ret) ← ethash_hash ret None (Some light) full_size header_hash nonce;
  Some (if ok : bool then ret else mk_ret (result ret) (mix_hash ret) false).

Definition ethash_light_compute (ret0 : ethash_return_value) (light : ethash_light)
    (header_hash : h256) (nonce : Z) : option ethash_return_value :=
  full_size ← ethash_get_datasize (block_number light);
  ethash_light_compute_internal ret0 light full_size header_hash nonce.

(** ** Full client: the dataset and its size *)

Record ethash_full := mk_full { file_size : Z; data : list node }.

Definition ethash_full_compute (ret0 : ethash_return_value) (full : ethash_full)
    (header_hash : h256) (nonce : Z) : option ethash_return_value :=
  let ret := mk_ret (result ret0) (mix_hash ret0) true in
  '(ok, ret) ← ethash_hash ret (Some (data full)) None (file_size full) header_hash nonce;
  Some (if ok : bool then ret else mk_ret (result ret) (mix_hash ret) false).

Definition ethash_full_dag (full : ethash_full) : list node := data full.
Definition ethash_full_dag_size (full : ethash_full) : Z := file_size full.

(** ** Well-formedness *)

Definition wf_node (n : node) : Prop := length n = NODE_WORDS /\ Forall is_u32 n.

Definition light_wf (l : ethash_light) : Prop :=
  let num := u32 (cache_size l / sizeof_node) in
  0 < num /\ num <= Z.of_nat (length (cache l)) /\ Forall wf_node (cache l).

Lemma sha3_node_wf b : bytes b -> wf_node (sha3_node b).
Proof.
  intros Hb. split; [by simpl_len|]. apply (words_le_range 4); [by apply SHA3_512_bytes|].
  by rewrite SHA3_512_length.
Qed.

Lemma node_bytes_sha3 b : bytes b -> node_bytes (sha3_node b) = SHA3_512 b.
Proof.
  intros Hb. apply bytes_words_le; [by apply SHA3_512_bytes|]. by rewrite SHA3_512_length.
Qed.

Lemma fnv_hash_range x y : is_u32 y -> is_u32 (fnv_hash x y).
Proof. intros. apply is_word_lxor; [lia|apply u32_range|done]. Qed.

(** A loop that writes one word of a node at each step keeps it a node. *)
Lemma wf_node_loop l f n :
  wf_node n -> (forall w n, Forall is_u32 n -> is_u32 (f w n)) ->
  wf_node (for_ l (fun w n => <[w := f w n]> n) n).
Proof.
  intros Hn Hf. apply for_ind; [done|]. intros w m _ [Hl Hm].
  split; [by rewrite length_insert|]. apply is_word_insert; auto.
Qed.

Lemma fnv_node_wf ret parent : wf_node ret -> wf_node parent -> wf_node (fnv_node ret parent).
Proof.
  intros Hr [_ Hp]. apply wf_node_loop; [done|]. intros w n Hn.
  apply fnv_hash_range. by apply is_word_lookup.
Qed.

(** A reduced index is inside the cache. *)
Lemma cache_index l x :
  light_wf l ->
  exists n, cache l !! Z.to_nat (x mod u32 (cache_size l / sizeof_node)) = Some n /\ wf_node n.
Proof.
  intros (Hn & Hl & Hc).
  pose proof (Z.mod_pos_bound x _ Hn) as Hx.
  destruct (lookup_lt_is_Some_2 (cache l) (Z.to_nat (x mod u32 (cache_size l / sizeof_node))))
    as [n E]; [lia|].
  exists n. split; [done|]. by eapply Forall_lookup_1.
Qed.

(** Every dataset item of a well-formed light client is computed without
    undefined behaviour and is a node. *)
Lemma dag_item_wf l i :
  light_wf l -> is_u32 i ->
  exists n, ethash_calculate_dag_item i l = Some n /\ wf_node n.
Proof.
  intros Hl Hi. unfold ethash_calculate_dag_item.
  replace (_ =? 0) with false by (destruct Hl; lia).
  destruct (cache_index l i Hl) as (init & -> & [Hil Hiw]). cbn [mbind option_bind].
  set (ret := sha3_node _).
  assert (wf_node ret) as Hr by apply sha3_node_wf, bytes_le_bytes.
  edestruct (for_opt_ind wf_node (seq 0 ETHASH_DATASET_PARENTS)) as (r & E & Hrw);
    [exact Hr| |rewrite E].
  - intros j s _ Hs. cbv beta.
    destruct (cache_index l (fnv_hash (i .^ Z.of_nat j) (s !!! (j mod NODE_WORDS)%nat)) Hl)
      as (p & -> & Hp). cbn [mbind option_bind].
    eexists. split; [done|]. by apply fnv_node_wf.
  - cbn [mbind option_bind]. eexists. split; [done|]. apply sha3_node_wf, bytes_le_bytes.
Qed.

(** ** Cache generation *)

Lemma store_ok {A} (l : list A) i x : (i < length l)%nat -> store l i x = Some (<[i := x]> l).
Proof. intros. unfold store. by rewrite decide_True. Qed.

(** The chain fills the cache from the front. *)
Definition chain_inv (k m : nat) (nodes : list node) : Prop :=
  length nodes = m /\ Forall wf_node (take k nodes).

Lemma chain_inv_step k m nodes n :
  (k < m)%nat -> chain_inv k m nodes -> wf_node n -> chain_inv (S k) m (<[k := n]> nodes).
Proof.
  intros Hk [Hl Hf] Hn. split; [by rewrite length_insert|].
  rewrite (take_S_r _ _ n) by (apply list_lookup_insert_eq; lia).
  rewrite take_insert_ge by lia. apply Forall_app. split; [done|]. by apply Forall_singleton.
Qed.

Lemma range_ne_seq a n : 0 <= a <= n -> n < 2 ^ 32 -> range_ne a n = seq (Z.to_nat a) (Z.to_nat (n - a)).
Proof. intros. unfold range_ne. rewrite Z.mod_small by lia. done. Qed.

Lemma cache_chain_wf num seed nodes :
  1 <= num < 2 ^ 32 -> num = Z.of_nat (length nodes) -> bytes seed ->
  exists nodes', cache_chain num seed nodes = Some nodes' /\
    length nodes' = length nodes /\ Forall wf_node nodes'.
Proof.
  intros Hn Hl Hs. unfold cache_chain. rewrite store_ok by lia. cbn [mbind option_bind].
  rewrite range_ne_seq by lia.
  destruct (for_opt_range_ind (fun k => chain_inv k (length nodes)) 1 (Z.to_nat (num - 1))
    (fun i nodes => prev ← nodes !! (i - 1)%nat; store nodes i (sha3_node (node_bytes prev)))
    (<[0%nat := sha3_node seed]> nodes)) as (nodes' & E & Hl' & Hf).
  - apply (chain_inv_step 0); [lia|by split|by apply sha3_node_wf].
  - intros i t Hi [Ht Hf].
    destruct (lookup_lt_is_Some_2 t (i - 1)) as [prev Hp]; [lia|]. rewrite Hp.
    cbn [mbind option_bind]. rewrite store_ok by lia. eexists. split; [done|].
    apply chain_inv_step; [lia|by split|]. apply sha3_node_wf, bytes_le_bytes.
  - exists nodes'. split; [exact E|]. split; [done|].
    rewrite take_ge in Hf by lia. done.
Qed.

Lemma cache_mix_wf num i nodes :
  num = Z.of_nat (length nodes) -> (i < length nodes)%nat -> Forall wf_node nodes ->
  exists nodes', cache_mix num i nodes = Some nodes' /\
    length nodes' = length nodes /\ Forall wf_node nodes'.
Proof.
  intros Hn Hi Hf. unfold cache_mix.
  assert (forall x, is_Some (nodes !! Z.to_nat (x mod num))) as Hlook.
  { intros x. apply lookup_lt_is_Some_2.
    pose proof (Z.mod_pos_bound x num ltac:(lia)). lia. }
  destruct (lookup_lt_is_Some_2 nodes i Hi) as [ni ->]. cbn [mbind option_bind].
  destruct (Hlook (u32 (num - 1 + Z.of_nat i))) as [d Hd]. rewrite Hd. cbn [mbind option_bind].
  destruct (Hlook (ni !!! 0%nat)) as [e He]. rewrite He. cbn [mbind option_bind].
  rewrite store_ok by done. eexists. split; [done|]. rewrite length_insert.
  split; [done|]. apply Forall_insert; [done|]. apply sha3_node_wf, bytes_le_bytes.
Qed.

Lemma cache_rounds_wf num n nodes :
  0 < num < 2 ^ 32 -> num = Z.of_nat (length nodes) -> Forall wf_node nodes ->
  exists nodes',
    for_opt (seq 0 n) (fun _ nodes => for_opt (range_ne 0 num) (cache_mix num) nodes) nodes
      = Some nodes' /\ length nodes' = length nodes /\ Forall wf_node nodes'.
Proof.
  intros Hn Hl Hf. rewrite range_ne_seq by lia.
  apply (for_opt_ind (fun t => length t = length nodes /\ Forall wf_node t)); [done|].
  intros _ t _ Ht.
  apply (for_opt_ind (fun t => length t = length nodes /\ Forall wf_node t)); [done|].
  intros i u Hi [Hu Hfu]. apply elem_of_seq in Hi. rewrite <-Hu.
  apply cache_mix_wf; [by rewrite Hu|lia|done].
Qed.

Lemma compute_cache_ok nodes size seed :
  bytes seed -> 0 < size -> size mod sizeof_node = 0 -> size / sizeof_node < 2 ^ 32 ->
  Z.of_nat (length nodes) = size / sizeof_node ->
  exists nodes', ethash_compute_cache_nodes nodes size seed = Some (true, nodes') /\
    light_wf (mk_light nodes' size 0) /\ length nodes' = length nodes.
Proof.
  intros Hs H0 Hm Hlt Hl. unfold ethash_compute_cache_nodes. rewrite Hm. cbn [negb Z.eqb].
  assert (0 < size / sizeof_node) as Hpos.
  { unfold sizeof_node in *. pose proof (Z.div_mod size 64 ltac:(lia)). lia. }
  rewrite u32_id by (unfold is_word; lia).
  destruct (cache_chain_wf (size / sizeof_node) seed nodes) as (n1 & -> & Hl1 & Hf1);
    [lia|lia|done|]. cbn [mbind option_bind].
  destruct (cache_rounds_wf (size / sizeof_node) ETHASH_CACHE_ROUNDS n1)
    as (n2 & E & Hl2 & Hf2); [lia|lia|done|]. rewrite E. cbn [mbind option_bind].
  exists n2. split; [done|]. split; [|lia]. split_and!; cbn [cache_size cache]; [| |done].
  all: rewrite u32_id by (unfold is_word; lia); lia.
Qed.

(** ** The dataset *)

(** [mem] holds the dataset items below [n]. *)
Definition holds_items (l : ethash_light) (n : nat) (mem : list node) : Prop :=
  forall j, (j < n)%nat -> exists d, ethash_calculate_dag_item (Z.of_nat j) l = Some d /\
    wf_node d /\ mem !! j = Some d.

Lemma full_data_loop_spec percent callback max_n l k a mem :
  light_wf l -> (forall n, callback_stops percent callback max_n n = Some false) ->
  (a + k <= length mem)%nat -> Z.of_nat (a + k) <= 2 ^ 32 -> holds_items l a mem ->
  exists mem', full_data_loop percent callback max_n l (seq a k) mem = Some (true, mem') /\
    length mem' = length mem /\ holds_items l (a + k) mem'.
Proof.
  intros Hl Hcb. revert a mem. induction k as [|k IH]; intros a mem Hm H32 Ha; simpl.
  - exists mem. by rewrite Nat.add_0_r.
  - rewrite Hcb. simpl.
    destruct (dag_item_wf l (Z.of_nat a) Hl) as (d & Hd & Hdw); [unfold is_word; lia|].
    rewrite Hd. simpl. rewrite store_ok by lia. simpl.
    destruct (IH (S a) (<[a := d]> mem)) as (mem' & E & Hlen & Hh).
    + rewrite length_insert. lia.
    + lia.
    + intros j Hj. destruct (decide (j = a)) as [->|].
      * exists d. split; [done|]. split; [done|]. apply list_lookup_insert_eq. lia.
      * rewrite list_lookup_insert_ne by done. apply Ha. lia.
    + exists mem'. split; [exact E|]. rewrite length_insert in Hlen. split; [done|].
      by replace (a + S k)%nat with (S a + k)%nat by lia.
Qed.

(** A callback that never asks to stop, for at least 100 nodes *)
Lemma callback_runs percent callback max_n :
  0 <= max_n < 2 ^ 32 -> (forall cb, callback = Some cb -> 100 <= max_n /\ forall n, cb n (percent n) = 0) ->
  forall n, callback_stops percent callback (u32 max_n) n = Some false.
Proof.
  intros Hn Hcb n. unfold callback_stops. destruct callback as [cb|]; [|done]. destruct (Hcb cb eq_refl) as [Hm Hz].
  rewrite u32_id by done. pose proof (Z.div_le_lower_bound max_n 100 1 ltac:(lia) ltac:(lia)).
  rewrite (proj2 (Z.eqb_neq (max_n / 100) 0)) by lia. rewrite Hz. by destruct (_ =? _).
Qed.

Lemma full_data_ok percent callback mem size l :
  light_wf l -> 0 < size -> size mod ETHASH_MIX_BYTES = 0 -> size / sizeof_node < 2 ^ 32 ->
  Z.of_nat (length mem) = size / sizeof_node ->
  (forall n, callback_stops percent callback (u32 (size / sizeof_node)) n = Some false) ->
  exists mem', ethash_compute_full_data percent mem size l callback = Some (true, mem') /\
    length mem' = length mem /\ holds_items l (length mem) mem'.
Proof.
  intros Hl H0 Hm H32 Hlen Hcb. unfold ethash_compute_full_data.
  change (4 * Z.of_nat MIX_WORDS) with ETHASH_MIX_BYTES.
  assert (size mod sizeof_node = 0) as Hm'.
  { unfold ETHASH_MIX_BYTES, sizeof_node in *.
    pose proof (Z.div_mod size 128 ltac:(lia)). rewrite Hm in H.
    replace size with (2 * (size / 128) * 64) by lia. apply Z.mod_mul. lia. }
  rewrite Hm, Hm'. cbn [negb orb Z.eqb].
  pose proof (Z.div_pos size sizeof_node ltac:(lia) ltac:(done)) as Hp.
  rewrite u32_id in * by (unfold is_word; lia). rewrite range_ne_seq by lia.
  destruct (full_data_loop_spec percent callback (size / sizeof_node) l (length mem) 0 mem)
    as (mem' & E & H1 & H2); [done|done|lia|lia| |].
  - intros j Hj. lia.
  - exists mem'. split; [|done]. rewrite <-E. do 2 f_equal. lia.
Qed.

(** ** Light and full evaluation agree *)

(** The node a page access asks for is inside the dataset. *)
Lemma page_node_bound size x n :
  0 < size -> size mod ETHASH_MIX_BYTES = 0 -> size / sizeof_node < 2 ^ 32 -> (n < MIX_NODES)%nat ->
  let pages := u32 (size / ETHASH_MIX_BYTES) in
  0 < pages /\
  0 <= u32 (Z.of_nat MIX_NODES * (x mod pages) + Z.of_nat n) < size / sizeof_node.
Proof.
  intros H0 Hm H32 Hn pages. unfold ETHASH_MIX_BYTES, sizeof_node, MIX_NODES in *.
  pose proof (Z.div_mod size 128 ltac:(lia)) as H. rewrite Hm in H.
  assert (size / 64 = 2 * (size / 128)) as H64.
  { replace size with (2 * (size / 128) * 64) at 1 by lia. apply Z.div_mul. lia. }
  assert (pages = size / 128) as ->.
  { apply u32_id. unfold is_word. split; [apply Z.div_pos; lia|]. lia. }
  assert (0 < size / 128) as Hp by lia.
  pose proof (Z.mod_pos_bound x _ Hp) as Hx. split; [done|].
  rewrite u32_id by (unfold is_word; lia). lia.
Qed.

Lemma dag_node_agree l mem size i :
  holds_items l (length mem) mem -> 0 <= i < size / sizeof_node ->
  Z.of_nat (length mem) = size / sizeof_node ->
  dag_node (Some mem) None i = dag_node None (Some l) i /\
  exists d, dag_node None (Some l) i = Some d /\ wf_node d.
Proof.
  intros Hh Hi Hlen. cbn [dag_node mbind option_bind].
  destruct (Hh (Z.to_nat i)) as (d & Hd & Hw & Hm); [lia|].
  rewrite Z2Nat.id in Hd by lia. rewrite Hm, Hd. split; [done|]. by exists d.
Qed.

(** The 32 words of the mix. *)
Definition wf_mix (mix : list Z) : Prop := length mix = MIX_WORDS /\ Forall is_u32 mix.

Lemma mix_in_wf n d mix : wf_node d -> wf_mix mix -> wf_mix (mix_in n d mix).
Proof.
  intros [_ Hd] Hm. unfold mix_in. apply for_ind; [done|]. intros w m _ [Hl Hf].
  split; [by rewrite length_insert|]. apply is_word_insert; [|done].
  apply fnv_hash_range. by apply is_word_lookup.
Qed.

Section agree.
Context (l : ethash_light) (mem : list node) (size : Z).
Context (Hl : light_wf l) (H0 : 0 < size) (Hm : size mod ETHASH_MIX_BYTES = 0).
Context (H32 : size / sizeof_node < 2 ^ 32).
Context (Hlen : Z.of_nat (length mem) = size / sizeof_node).
Context (Hh : holds_items l (length mem) mem).
Let pages := u32 (size / ETHASH_MIX_BYTES).

Lemma access_ok x mix :
  wf_mix mix ->
  let body full light n mix :=
    d ← dag_node full light (u32 (Z.of_nat MIX_NODES * (x mod pages) + Z.of_nat n));
    Some (mix_in n d mix) in
  for_opt (seq 0 MIX_NODES) (body (Some mem) None) mix =
    for_opt (seq 0 MIX_NODES) (body None (Some l)) mix /\
  exists mix', for_opt (seq 0 MIX_NODES) (body None (Some l)) mix = Some mix' /\ wf_mix mix'.
Proof.
  intros Hmix body.
  assert (forall n mix, (n < MIX_NODES)%nat -> wf_mix mix ->
    body (Some mem) None n mix = body None (Some l) n mix /\
    exists mix', body None (Some l) n mix = Some mix' /\ wf_mix mix') as Hb.
  { intros n t Hn Ht. destruct (page_node_bound size x n H0 Hm H32 Hn) as [_ Hi].
    destruct (dag_node_agree l mem size _ Hh Hi Hlen) as [E (d & Ed & Hd)].
    unfold body. unfold pages. rewrite E, Ed. split; [done|]. eexists. split; [done|].
    by apply mix_in_wf. }
  split.
  - apply (for_opt_ext wf_mix); [done|]. intros n t Hn Ht. apply elem_of_seq in Hn.
    destruct (Hb n t ltac:(lia) Ht) as [E (m & Em & Hw)]. split; [done|].
    intros s' Es. congruence.
  - apply for_opt_ind; [done|]. intros n t Hn Ht. apply elem_of_seq in Hn.
    apply Hb; [lia|done].
Qed.

Lemma mix_rounds_agree s mix :
  wf_mix mix ->
  mix_rounds (Some mem) None pages s mix = mix_rounds None (Some l) pages s mix /\
  exists mix', mix_rounds None (Some l) pages s mix = Some mix' /\ wf_mix mix'.
Proof.
  intros Hmix. destruct (page_node_bound size 0 0 H0 Hm H32 ltac:(unfold MIX_NODES; lia)) as [Hp _].
  unfold mix_rounds, pages in *. split.
  - apply (for_opt_ext wf_mix); [done|]. intros i t _ Ht.
    replace (_ =? 0) with false by lia.
    destruct (access_ok (fnv_hash ((s !!! 0%nat) .^ Z.of_nat i) (t !!! (i mod MIX_WORDS)%nat)) t Ht)
      as [E (m & Em & Hw)]. split; [exact E|]. intros s' Es.
    unfold pages in Em. rewrite Em in Es. by injection Es as <-.
  - apply for_opt_ind; [done|]. intros i t _ Ht. replace (_ =? 0) with false by lia.
    apply access_ok. done.
Qed.

Lemma hash_agree ret header nonce :
  bytes header ->
  ethash_hash ret (Some mem) None size header nonce =
    ethash_hash ret None (Some l) size header nonce /\
  exists r, ethash_hash ret None (Some l) size header nonce = Some (true, r).
Proof.
  intros Hb. unfold ethash_hash.
  assert (size mod Z.of_nat MIX_WORDS = 0) as ->.
  { unfold ETHASH_MIX_BYTES, MIX_WORDS in *.
    pose proof (Z.div_mod size 128 ltac:(lia)) as H. rewrite Hm in H.
    replace size with (4 * (size / 128) * 32) by lia. apply Z.mod_mul. lia. }
  cbn [negb Z.eqb]. change (4 * Z.of_nat MIX_WORDS) with ETHASH_MIX_BYTES.
  set (s := sha3_node _). set (mix := fmap _ _).
  assert (wf_mix mix) as Hmix.
  { split; [done|]. apply Forall_fmap, Forall_true. intros w.
    apply is_word_lookup; [lia|]. apply sha3_node_wf, Forall_app.
    split; [done|apply le_to_bytes_bytes]. }
  destruct (mix_rounds_agree s mix Hmix) as [E (m & Em & _)]. unfold pages in *.
  rewrite E, Em. cbn [mbind option_bind]. split; [done|]. by eexists.
Qed.
End agree.

(** ** Difficulty *)

(** Comparing byte strings from the front is comparing big-endian numbers. *)
Lemma be_of_bytes_cons b l :
  is_byte b -> bytes l ->
  be_of_bytes (b :: l) = b * 2 ^ (8 * Z.of_nat (length l)) + be_of_bytes l.
Proof.
  intros Hb Hl. unfold be_of_bytes. rewrite reverse_cons, le_of_bytes_app by by apply Forall_reverse.
  rewrite length_reverse, le_of_bytes_cons by done. simpl. lia.
Qed.

Lemma check_difficulty_app pre1 pre2 h b :
  length h = length b -> length pre1 = length pre2 -> bytes h -> bytes b ->
  check_difficulty_from (seq (length pre1) (length h)) (pre1 ++ h) (pre2 ++ b)
    = (be_of_bytes h <=? be_of_bytes b).
Proof.
  revert b pre1 pre2. induction h as [|x h IH]; intros [|y b] pre1 pre2 Hl Hp Hh Hb; try done.
  injection Hl as Hl. apply Forall_cons_1 in Hh as [Hx Hh], Hb as [Hy Hb].
  rewrite !be_of_bytes_cons, <-Hl by done. cbn [length seq check_difficulty_from].
  unfold ethash_h256_get. rewrite list_lookup_total_middle by done.
  rewrite (list_lookup_total_middle pre2 b y) by done.
  pose proof (be_of_bytes_range h Hh) as Rh. pose proof (be_of_bytes_range b Hb) as Rb.
  rewrite <-Hl in Rb. unfold is_word in Rh, Rb.
  destruct (Z.eqb_spec x y) as [->|Hne].
  - specialize (IH b (pre1 ++ [y]) (pre2 ++ [y]) Hl).
    rewrite !length_app, <-!app_assoc in IH. simpl in IH. rewrite Nat.add_1_r in IH.
    rewrite IH by (done || lia).
    apply eq_true_iff_eq. rewrite !Z.leb_le. lia.
  - apply eq_true_iff_eq. rewrite Z.ltb_lt, Z.leb_le.
    set (q := 2 ^ (8 * Z.of_nat (length h))) in *. nia.
Qed.

Lemma check_difficulty_be h b :
  length h = 32%nat -> length b = 32%nat -> bytes h -> bytes b ->
  ethash_check_difficulty h b = (be_of_bytes h <=? be_of_bytes b).
Proof.
  intros Hh Hb. intros. pose proof (check_difficulty_app [] [] h b) as H1.
  rewrite Hh in H1. apply H1; (done || lia).
Qed.

(** The result of the hash is the quick hash of its mix. *)
Lemma hash_quick ret full light size header nonce r :
  bytes header -> ethash_hash ret full light size header nonce = Some (true, r) ->
  result r = ethash_quick_hash header nonce (mix_hash r) /\
  success r = success ret /\ bytes (mix_hash r).
Proof.
  intros Hb. unfold ethash_hash. case_match; [done|].
  destruct (mix_rounds _ _ _ _ _) as [mix|]; [|done]. cbn [mbind option_bind].
  set (r' := mk_ret _ _ _). intros E. assert (r = r') as -> by congruence. clear E.
  unfold r'. cbn [result mix_hash success]. split_and!; [|done|].
  - unfold ethash_quick_hash. rewrite node_bytes_sha3; [done|].
    apply Forall_app. split; [done|apply le_to_bytes_bytes].
  - apply Forall_take, bytes_le_bytes.
Qed.

(** ** Seed hashes *)

Lemma seedhash_iter epochs :
  for_ (seq 0 epochs) (fun _ ret => SHA3_256 ret) ethash_h256_reset =
    Nat.iter epochs SHA3_256 ethash_h256_reset.
Proof. induction epochs as [|n IH]; [done|]. rewrite for_seq_S, IH. done. Qed.

Lemma seedhash_wf block h :
  ethash_get_seedhash block = Some h -> length h = 32%nat /\ bytes h.
Proof.
  unfold ethash_get_seedhash. case_match; [|done]. intros [= <-].
  apply for_ind; [split; [done|by apply Forall_replicate]|].
  intros _ s _ [Hl Hs]. split; [by apply SHA3_256_length|by apply SHA3_256_bytes].
Qed.

(** ** Sizes of the tabulated epochs *)

Lemma size_spec_bounds init growth unit block s :
  0 < unit -> 0 <= init -> 0 <= growth -> 0 <= block < 2048 * ETHASH_EPOCH_LENGTH ->
  size_spec init growth unit (block / ETHASH_EPOCH_LENGTH) s ->
  0 < s <= init + growth * 2047 /\ s mod unit = 0.
Proof.
  intros Hu Hi Hg Hb (p & -> & Hp & Hle & _).
  assert (2 <= p) as Hp2 by (destruct Hp; lia).
  assert (0 <= block / ETHASH_EPOCH_LENGTH <= 2047) as He.
  { split; [apply Z.div_pos; [lia|done]|]. apply Z.lt_succ_r, Z.div_lt_upper_bound; [done|].
    unfold ETHASH_EPOCH_LENGTH in *. lia. }
  pose proof (Z.mul_div_le (init + growth * (block / ETHASH_EPOCH_LENGTH)) unit Hu).
  split; [nia|]. rewrite Z.mul_comm. apply Z.mod_mul. lia.
Qed.

Lemma block_sizes block :
  0 <= block < 2048 * ETHASH_EPOCH_LENGTH ->
  exists cs ds, ethash_get_cachesize block = Some cs /\ ethash_get_datasize block = Some ds /\
    0 < cs /\ cs mod sizeof_node = 0 /\ cs / sizeof_node < 2 ^ 32 /\
    0 < ds /\ ds mod ETHASH_MIX_BYTES = 0 /\ ds / sizeof_node < 2 ^ 32.
Proof.
  intros Hb. destruct length_sizes as [Hld Hlc].
  destruct (get_size_spec _ _ _ _ block Hlc cache_sizes_ok Hb) as (cs & Ec & Hc).
  destruct (get_size_spec _ _ _ _ block Hld dag_sizes_ok Hb) as (ds & Ed & Hd).
  apply size_spec_bounds in Hc as [Hc1 Hc2]; [|lia..|done].
  apply size_spec_bounds in Hd as [Hd1 Hd2]; [|lia..|done].
  exists cs, ds. split_and!; [exact Ec|exact Ed|lia|done| |lia|done|].
  all: unfold sizeof_node; apply Z.div_lt_upper_bound; lia.
Qed.

Lemma light_new_ok nodes block :
  0 <= block < 2048 * ETHASH_EPOCH_LENGTH ->
  ethash_get_cachesize block = Some (sizeof_node * Z.of_nat (length nodes)) ->
  exists l, ethash_light_new (Some nodes) block = Some l /\ light_wf l /\ block_number l = block.
Proof.
  intros Hb Hsize. destruct (block_sizes block Hb) as (cs & ds & Ec & _ & H1 & H2 & H3 & _).
  rewrite Hsize in Ec. injection Ec as <-. unfold ethash_light_new. rewrite Hsize.
  destruct (ethash_get_seedhash block) as [seed|] eqn:Es.
  2: { unfold ethash_get_seedhash in Es. case_match eqn:E; [done|]. apply Z.ltb_ge in E.
       assert (block / ETHASH_EPOCH_LENGTH < 2048); [|lia].
       apply Z.div_lt_upper_bound; [done|lia]. }
  destruct (seedhash_wf _ _ Es) as [_ Hs]. cbn [mbind option_bind].
  destruct (compute_cache_ok nodes (sizeof_node * Z.of_nat (length nodes)) seed)
    as (nodes' & E & Hwf & _); [done|done|done|done| |].
  { rewrite Z.mul_comm, Z.div_mul by done. done. }
  unfold ethash_light_new_internal. rewrite E. cbn [mbind option_bind].
  eexists. split; [done|]. split; [exact Hwf|done].
Qed.

(** ** Theorems *)

(** C12: For a well-formed cache and a dataset size that is a
    positive multiple of the page size with a 32-bit number of nodes, generating
    the dataset succeeds, and then evaluating the hash on the dataset and
    recomputing the touched items from the cache give the same successful result
    for every header and nonce, without an access out of bounds.  Generation runs
    without a progress callback, or with one that never asks to stop; with a
    callback the dataset has at least 100 nodes, because below that the code
    divides by zero to find out when to call it. *)
Theorem light_full_equivalence percent callback mem size l ret0 header nonce :
  light_wf l -> 0 < size -> size mod ETHASH_MIX_BYTES = 0 -> size / sizeof_node < 2 ^ 32 ->
  Z.of_nat (length mem) = size / sizeof_node ->
  (forall cb, callback = Some cb -> 100 <= size / sizeof_node /\ forall n, cb n (percent n) = 0) ->
  bytes header ->
  exists mem' r,
    ethash_compute_full_data percent mem size l callback = Some (true, mem') /\
    ethash_full_compute ret0 (mk_full size mem') header nonce = Some r /\
    ethash_light_compute_internal ret0 l size header nonce = Some r /\
    success r = true.
Proof.
  intros Hl H0 Hm H32 Hlen Hcb Hb.
  assert (Hrun : forall n, callback_stops percent callback (u32 (size / sizeof_node)) n = Some false).
  { apply callback_runs; [|exact Hcb]. split; [|lia]. apply Z.div_pos; [lia|done]. }
  destruct (full_data_ok percent callback mem size l) as (mem' & E & Hlen' & Hh); [done..|].
  unfold ethash_full_compute, ethash_light_compute_internal. cbn [data file_size].
  set (ret := mk_ret _ _ true). rewrite <-Hlen' in Hh, Hlen.
  destruct (hash_agree l mem' size H0 Hm H32 Hlen Hh ret header nonce Hb) as [Ea [r Er]].
  exists mem', r. rewrite Ea, Er. cbn [mbind option_bind]. split_and!; [exact E|done|done|].
  by apply hash_quick in Er as (_ & -> & _).
Qed.

(** C31: For every block of the tabulated epochs, given memory of
    the tabulated sizes: ethash_light_new builds a light client, dataset
    generation from it succeeds, mining on the dataset and verifying with the light
    client agree on every header and nonce, and the pre-verification
    ethash_quick_check_difficulty of the reported mix accepts exactly the results
    not above the boundary as big-endian numbers. *)
Theorem epoch_end_to_end block nodes mem ds ret0 header nonce boundary :
  0 <= block < 2048 * ETHASH_EPOCH_LENGTH ->
  ethash_get_cachesize block = Some (sizeof_node * Z.of_nat (length nodes)) ->
  ethash_get_datasize block = Some ds -> ds = sizeof_node * Z.of_nat (length mem) ->
  bytes header -> length boundary = 32%nat -> bytes boundary ->
  exists l mem' r,
    ethash_light_new (Some nodes) block = Some l /\
    ethash_compute_full_data (fun _ => 0) mem ds l None = Some (true, mem') /\
    ethash_full_compute ret0 (mk_full ds mem') header nonce = Some r /\
    ethash_light_compute ret0 l header nonce = Some r /\
    success r = true /\
    ethash_quick_check_difficulty header nonce (mix_hash r) boundary =
      (be_of_bytes (result r) <=? be_of_bytes boundary).
Proof.
  intros Hb Hc Hd Hds Hh Hbl Hbb.
  destruct (light_new_ok nodes block Hb Hc) as (l & El & Hl & Hbn).
  destruct (block_sizes block Hb) as (cs & ds' & _ & Ed & _ & _ & _ & D1 & D2 & D3).
  rewrite Hd in Ed. injection Ed as <-.
  assert (Z.of_nat (length mem) = ds / sizeof_node) as Hlen.
  { rewrite Hds, Z.mul_comm, Z.div_mul by done. done. }
  destruct (full_data_ok (fun _ => 0) None mem ds l) as (mem' & E & Hlen' & Hi); [done..|].
  rewrite <-Hlen' in Hi, Hlen. set (ret := mk_ret (result ret0) (mix_hash ret0) true).
  destruct (hash_agree l mem' ds D1 D2 D3 Hlen Hi ret header nonce Hh) as [Ea [r Er]].
  destruct (hash_quick _ _ _ _ _ _ _ Hh Er) as (Hq & Hs & Hmb).
  exists l, mem', r. unfold ethash_full_compute, ethash_light_compute, ethash_light_compute_internal.
  cbn [data file_size]. fold ret. rewrite Hbn, Hd. cbn [mbind option_bind].
  rewrite Ea, Er. cbn [mbind option_bind].
  split_and!; [done|exact E|done|done|done|].
  unfold ethash_quick_check_difficulty. rewrite Hq.
  assert (bytes (SHA3_512 (header ++ le_to_bytes 8 nonce) ++ mix_hash r)) as Hbuf.
  { apply Forall_app. split; [|done]. apply SHA3_512_bytes, Forall_app.
    split; [done|apply le_to_bytes_bytes]. }
  apply check_difficulty_be; [by apply SHA3_256_length|done|by apply SHA3_256_bytes|done].
Qed.

(** The byte loop of ethash_check_difficulty decides
    whether the hash, read as a big-endian 256-bit number, is not above the
    boundary. *)
Theorem check_difficulty_spec h b :
  length h = 32%nat -> length b = 32%nat -> bytes h -> bytes b ->
  ethash_check_difficulty h b = true <-> be_of_bytes h <= be_of_bytes b.
Proof. intros. rewrite check_difficulty_be by done. apply Z.leb_le. Qed.

(** Whatever dataset source is used, a successful
    ethash_hash reports a result that ethash_quick_hash recomputes from the header,
    the nonce and the reported mix alone. *)
Theorem quick_hash_consistent ret full light size header nonce r :
  bytes header -> ethash_hash ret full light size header nonce = Some (true, r) ->
  result r = ethash_quick_hash header nonce (mix_hash r) /\
  length (result r) = 32%nat /\ bytes (mix_hash r).
Proof.
  intros Hb E. destruct (hash_quick _ _ _ _ _ _ _ Hb E) as (H1 & _ & H2).
  split_and!; [done| |done]. rewrite H1. apply SHA3_256_length, Forall_app.
  split; [|done]. apply SHA3_512_bytes, Forall_app. split; [done|apply le_to_bytes_bytes].
Qed.

(** ethash_compute_cache_nodes refuses a size that is not a
    multiple of the node size without touching the buffer; for every other
    positive size with a 32-bit number of nodes it fills exactly the buffer with
    nodes, all its accesses being in bounds; for size 0 its first store is out of
    bounds. *)
Theorem cache_generation nodes size seed :
  bytes seed -> 0 <= size -> size / sizeof_node < 2 ^ 32 ->
  Z.of_nat (length nodes) = size / sizeof_node ->
  (size mod sizeof_node <> 0 ->
     ethash_compute_cache_nodes nodes size seed = Some (false, nodes)) /\
  (size mod sizeof_node = 0 -> 0 < size ->
     exists nodes', ethash_compute_cache_nodes nodes size seed = Some (true, nodes') /\
       length nodes' = length nodes /\ Forall wf_node nodes') /\
  (size = 0 -> ethash_compute_cache_nodes nodes size seed = None).
Proof.
  intros Hs H0 H32 Hl. split_and!.
  - intros Hm. unfold ethash_compute_cache_nodes. by apply Z.eqb_neq in Hm as ->.
  - intros Hm Hpos. destruct (compute_cache_ok nodes size seed) as (n & E & (_ & _ & Hw) & Hn);
      [done..|]. by exists n.
  - intros ->. assert (nodes = []) as -> by (apply nil_length_inv; change (0 / sizeof_node) with 0 in Hl; lia).
    done.
Qed.

(** The seed hash depends only on the epoch; the first epoch has
    the zero hash and each next one the Keccak-256 of the previous one; every seed
    hash has 32 bytes. *)
Lemma seedhash_steps block :
  0 <= block < 2 ^ 32 * ETHASH_EPOCH_LENGTH - ETHASH_EPOCH_LENGTH ->
  exists h, ethash_get_seedhash block = Some h /\ length h = 32%nat /\ bytes h /\
    (block < ETHASH_EPOCH_LENGTH -> h = ethash_h256_reset) /\
    ethash_get_seedhash (block + ETHASH_EPOCH_LENGTH) = Some (SHA3_256 h) /\
    ethash_get_seedhash (block - block mod ETHASH_EPOCH_LENGTH) = Some h.
Proof.
  intros Hb. set (e := block / ETHASH_EPOCH_LENGTH).
  assert (0 <= e < 2 ^ 32 - 1) as He.
  { unfold e. split; [apply Z.div_pos; [lia|done]|]. apply Z.div_lt_upper_bound; [done|].
    unfold ETHASH_EPOCH_LENGTH in *. lia. }
  assert ((block + ETHASH_EPOCH_LENGTH) / ETHASH_EPOCH_LENGTH = e + 1) as E1.
  { rewrite <-(Z.mul_1_l ETHASH_EPOCH_LENGTH) at 1. by rewrite Z.div_add. }
  assert ((block - block mod ETHASH_EPOCH_LENGTH) / ETHASH_EPOCH_LENGTH = e) as E2.
  { pose proof (Z.div_mod block ETHASH_EPOCH_LENGTH ltac:(done)).
    replace (block - block mod ETHASH_EPOCH_LENGTH) with (e * ETHASH_EPOCH_LENGTH) by lia.
    by apply Z.div_mul. }
  assert (ethash_get_seedhash block =
    Some (Nat.iter (Z.to_nat e) SHA3_256 ethash_h256_reset)) as Eh.
  { unfold ethash_get_seedhash. fold e. rewrite seedhash_iter.
    by replace (e <? 2 ^ 32) with true by lia. }
  eexists. split; [exact Eh|]. destruct (seedhash_wf _ _ Eh) as [Hl Hw].
  split_and!; [done|done| | |].
  - intros Hlt. unfold e. by rewrite Z.div_small by lia.
  - unfold ethash_get_seedhash. rewrite E1, seedhash_iter.
    replace (e + 1 <? 2 ^ 32) with true by lia.
    by replace (Z.to_nat (e + 1)) with (S (Z.to_nat e)) by lia.
  - unfold ethash_get_seedhash. rewrite E2, seedhash_iter.
    by replace (e <? 2 ^ 32) with true by lia.
Qed.
End ethash.

(** ** Witnesses: the hypotheses hold with the hash functions of sha3.c *)

Definition demo_light : ethash_light :=
  mk_light (replicate 2 (replicate 16 7)) 128 0.
Lemma demo_light_wf : light_wf demo_light.
Proof.
  split_and!; [done|done|]. apply Forall_replicate. split; [done|]. by apply Forall_replicate.
Qed.
Definition zero_ret : ethash_return_value := mk_ret (replicate 32 0) (replicate 32 0) false.

Lemma light_full_equivalence_witness :
  exists mem' r,
    ethash_compute_full_data (fun _ => 0) (replicate 4 (replicate 16 0)) 256 demo_light None
      = Some (true, mem') /\
    ethash_full_compute zero_ret (mk_full 256 mem') (replicate 32 1) 42 = Some r /\
    ethash_light_compute_internal zero_ret demo_light 256 (replicate 32 1) 42 = Some r /\
    success r = true.
Proof.
  apply (light_full_equivalence (fun _ => 0) None (replicate 4 (replicate 16 0)) 256 demo_light
    zero_ret (replicate 32 1) 42); [exact demo_light_wf|done|done|done|done|done|].
  by apply Forall_replicate.
Defined.

Lemma epoch_end_to_end_witness :
  exists l mem' r,
    ethash_light_new (Some (replicate (Z.to_nat 262139) [])) 29999 = Some l /\
    ethash_compute_full_data (fun _ => 0) (replicate (Z.to_nat 16777186) []) 1073739904 l None
      = Some (true, mem') /\
    ethash_full_compute zero_ret (mk_full 1073739904 mem') (replicate 32 1) 42 = Some r /\
    ethash_light_compute zero_ret l (replicate 32 1) 42 = Some r /\
    success r = true /\
    ethash_quick_check_difficulty (replicate 32 1) 42 (mix_hash r) (replicate 32 255) =
      (be_of_bytes (result r) <=? be_of_bytes (replicate 32 255)).
Proof.
  apply (epoch_end_to_end 29999 (replicate (Z.to_nat 262139) [])
    (replicate (Z.to_nat 16777186) []) 1073739904 zero_ret (replicate 32 1) 42
    (replicate 32 255)).
  - unfold ETHASH_EPOCH_LENGTH. lia.
  - rewrite length_replicate, Z2Nat.id by done. reflexivity.
  - reflexivity.
  - rewrite length_replicate, Z2Nat.id by done. reflexivity.
  - by apply Forall_replicate.
  - done.
  - by apply Forall_replicate.
Defined.

Lemma check_difficulty_spec_witness :
  ethash_check_difficulty (0 :: replicate 31 9) (1 :: replicate 31 0) = true <->
    be_of_bytes (0 :: replicate 31 9) <= be_of_bytes (1 :: replicate 31 0).
Proof.
  apply (check_difficulty_spec (0 :: replicate 31 9) (1 :: replicate 31 0));
    [done|done|by repeat constructor|by repeat constructor].
Defined.

Lemma quick_hash_consistent_witness :
  exists r, ethash_hash zero_ret (Some (replicate 2 (replicate 16 3))) None 128 (replicate 32 1) 42
      = Some (true, r) /\
    result r = ethash_quick_hash (replicate 32 1) 42 (mix_hash r) /\
    length (result r) = 32%nat /\ bytes (mix_hash r).
Proof.
  eexists. split; [vm_compute; reflexivity|].
  apply (quick_hash_consistent zero_ret (Some (replicate 2 (replicate 16 3))) None 128
    (replicate 32 1) 42); [by apply Forall_replicate|vm_compute; reflexivity].
Defined.

Lemma cache_generation_witness :
  exists nodes', ethash_compute_cache_nodes (replicate 2 []) 128 (replicate 32 0)
      = Some (true, nodes') /\ length nodes' = 2%nat /\ Forall wf_node nodes'.
Proof.
  apply (cache_generation (replicate 2 []) 128 (replicate 32 0));
    [by apply Forall_replicate|done|done|done|done|done].
Defined.

Lemma seedhash_steps_witness :
  exists h, ethash_get_seedhash 0 = Some h /\ length h = 32%nat /\ bytes h /\
    (0 < ETHASH_EPOCH_LENGTH -> h = ethash_h256_reset) /\
    ethash_get_seedhash (0 + ETHASH_EPOCH_LENGTH) = Some (SHA3_256 h) /\
    ethash_get_seedhash (0 - 0 mod ETHASH_EPOCH_LENGTH) = Some h.
Proof. apply (seedhash_steps 0). done. Defined.
