(* ===== verification/EthashIo.v ===== *)
(** * libethash/io.c, io.h, io_posix.c and the full client of internal.c

    The DAG file: its name, its creation, the magic number that marks a complete
    file, and ethash_full_new_internal, which maps the file, reuses a complete one
    and generates a missing one.  The file system is a finite map from paths to
    contents; every system call that can fail does so when the [faults] record
    says so. *)

From stdpp Require Import gmap strings.
From S2P Require Import Prelude Words Sha3 EthashSizes Ethash.

(** ** C strings: lists of character codes without the terminating zero *)

Definition chars (s : string) : list Z := (fun a => Z.of_N (Ascii.N_of_ascii a)) <$> String.list_ascii_of_string s.

(** strncat within a buffer of [dest_size] bytes; [None] is the null result. *)
Definition ethash_strncat (dest : list Z) (dest_size : nat) (src : list Z) (count : nat)
    : option (list Z) :=
  if decide (length dest + count + 1 <= dest_size)%nat then Some (dest ++ take count src) else None.

(** dirname[dirlen] is the terminating zero of [dirname]. *)
Definition char_at (s : list Z) (i : nat) : Z := default 0 (s !! i).

(** The results of ethash_strncat are not tested: a refused call leaves [name]. *)
Definition ethash_io_create_filename (malloc_ok : bool) (dirname filename : list Z)
    (filename_length : nat) : option (list Z) :=
  let dirlen := length dirname in
  let dest_size := (dirlen + filename_length + 1)%nat in
  let dest_size := if char_at dirname dirlen =? 47 then dest_size else (dest_size + 1)%nat in
  if malloc_ok then
    let name := [] in
    let name := default name (ethash_strncat name dest_size dirname dirlen) in
    let name := if char_at dirname dirlen =? 47 then name
      else default name (ethash_strncat name dest_size (chars "/") 1) in
    let name := default name (ethash_strncat name dest_size filename filename_length) in
    Some name
  else None.

(** [home] is getenv("HOME"), [pw_dir] the home directory of the password entry
    when there is one (its pointer can be null too); the result is the return value
    and the buffer. *)
Definition ethash_get_default_dirname (home : option (list Z)) (pwd : option (option (list Z)))
    (buffsize : nat) : bool * list Z :=
  let home_dir :=
    match home with
    | Some (_ :: _) => home
    | _ => match pwd with Some pw_dir => pw_dir | None => home end
    end in
  match home_dir with
  | None => (false, [])
  | Some h =>
    let len := length h in
    match ethash_strncat [] buffsize h len with
    | None => (false, [])
    | Some strbuf =>
      match (if char_at h len =? 47 then Some strbuf
             else ethash_strncat strbuf buffsize (chars "/") 1) with
      | None => (false, strbuf)
      | Some strbuf =>
        match ethash_strncat strbuf buffsize (chars ".ethash/") 9 with
        | None => (false, strbuf)
        | Some strbuf => (true, strbuf)
        end
      end
    end
  end.

(** ** The file name: snprintf("full-R%u-%016" PRIx64) *)

Definition hexdigit (d : Z) : Z := if d <? 10 then 48 + d else 87 + d.
Fixpoint hex_digits (n : nat) (x : Z) : list Z :=
  match n with
  | O => []
  | S n => hex_digits n (x / 16) ++ [hexdigit (x mod 16)]
  end.
Fixpoint dec_digits (fuel : nat) (x : Z) : list Z :=
  match fuel with
  | O => []
  | S fuel => (if x <? 10 then [] else dec_digits fuel (x / 10)) ++ [48 + x mod 10]
  end.

Definition DAG_MUTABLE_NAME_MAX_SIZE : nat := 6 + 10 + 1 + 16 + 1.
Definition ETHASH_REVISION : Z := 23.
Definition ETHASH_DAG_MAGIC_NUM_SIZE : nat := 8.
Definition ETHASH_DAG_MAGIC_NUM : Z := 0xFEE1DEADBADDCAFE.

Definition ethash_swap_u64 (x : Z) : Z := be_of_bytes (le_to_bytes 8 x).

(** snprintf keeps at most size - 1 characters; 10 decimal digits are enough for
    a 32-bit number. *)
Definition ethash_io_mutable_name (revision : Z) (seed_hash : list Z) : list Z :=
  let hash := le_of_bytes (take 8 seed_hash) in
  let hash := ethash_swap_u64 hash in
  take (DAG_MUTABLE_NAME_MAX_SIZE - 1)
    (chars "full-R" ++ dec_digits 10 revision ++ chars "-" ++ hex_digits 16 hash).

(** ** Preparing the file *)

Inductive ethash_io_rc :=
| ETHASH_IO_FAIL
| ETHASH_IO_MEMO_SIZE_MISMATCH
| ETHASH_IO_MEMO_MISMATCH
| ETHASH_IO_MEMO_MATCH.
#[export] Instance ethash_io_rc_eq : EqDecision ethash_io_rc.
Proof. solve_decision. Defined.

(** The file system; an open FILE is the path it was opened with. *)
Abbreviation path := (list Z).
Abbreviation fs := (gmap (list Z) (list Z)).

(** Which system calls of ethash_io_prepare fail. *)
Record io_faults := mk_io_faults {
  f_mkdir : bool; f_malloc : bool; f_open_r : bool; f_stat : bool; f_read : bool;
  f_open_w : bool; f_seek : bool; f_putc : bool; f_flush : bool;
}.
Definition no_io_faults : io_faults :=
  mk_io_faults false false false false false false false false false.

(** The content after seeking to [off] in an empty file and writing a newline. *)
Definition sparse_file (off : Z) : list Z := replicate (Z.to_nat off) 0 ++ [10].

(** From "wb+" on: the file is truncated, then extended to its size. *)
Definition io_create (ft : io_faults) (m : fs) (tmpfile : path) (file_size : Z)
    : ethash_io_rc * option path * fs :=
  if f_open_w ft then (ETHASH_IO_FAIL, None, m)
  else
    let m := <[tmpfile := []]> m in
    if f_seek ft then (ETHASH_IO_FAIL, None, m)
    else if f_putc ft then (ETHASH_IO_FAIL, None, m)
    else if f_flush ft then (ETHASH_IO_FAIL, None, m)
    else
      let off := u64 (file_size + Z.of_nat ETHASH_DAG_MAGIC_NUM_SIZE - 1) in
      (ETHASH_IO_MEMO_MISMATCH, Some tmpfile, <[tmpfile := sparse_file off]> m).

(** The result is the return code, the file written to *output_file if any, and
    the file system. *)
Definition ethash_io_prepare (ft : io_faults) (m : fs) (dirname seedhash : list Z)
    (file_size : Z) (force_create : bool) : ethash_io_rc * option path * fs :=
  if f_mkdir ft then (ETHASH_IO_FAIL, None, m)
  else
    let mutable_name := ethash_io_mutable_name ETHASH_REVISION seedhash in
    match ethash_io_create_filename (negb (f_malloc ft)) dirname mutable_name (length mutable_name) with
    | None => (ETHASH_IO_FAIL, None, m)
    | Some tmpfile =>
      match (if force_create || f_open_r ft then None else m !! tmpfile) with
      | None => io_create ft m tmpfile file_size
      | Some content =>
        let found_size := Z.of_nat (length content) in
        if f_stat ft then (ETHASH_IO_FAIL, None, m)
        else if negb (file_size =? u64 (found_size - Z.of_nat ETHASH_DAG_MAGIC_NUM_SIZE))
        then (ETHASH_IO_MEMO_SIZE_MISMATCH, None, m)
        else if f_read ft || (length content <? ETHASH_DAG_MAGIC_NUM_SIZE)%nat
        then (ETHASH_IO_MEMO_SIZE_MISMATCH, None, m)
        else if negb (le_of_bytes (take ETHASH_DAG_MAGIC_NUM_SIZE content) =? ETHASH_DAG_MAGIC_NUM)
        then (ETHASH_IO_MEMO_SIZE_MISMATCH, None, m)
        else (ETHASH_IO_MEMO_MATCH, Some tmpfile, m)
      end
    end.

(** ** The mapped file *)

Fixpoint nodes_of_bytes (n : nat) (b : list Z) : list node :=
  match n with
  | O => []
  | S n => node_of_bytes (take 64 b) :: nodes_of_bytes n (drop 64 b)
  end.
Definition bytes_of_nodes (l : list node) : list Z := mjoin (node_bytes <$> l).

(** ret->data: the nodes behind the magic number. *)
Definition mapped_nodes (full_size : Z) (content : list Z) : list node :=
  nodes_of_bytes (Z.to_nat (full_size / sizeof_node)) (drop ETHASH_DAG_MAGIC_NUM_SIZE content).

(** The content after the nodes were written through the mapping. *)
Definition write_nodes (content : list Z) (mem : list node) : list Z :=
  blit content ETHASH_DAG_MAGIC_NUM_SIZE (bytes_of_nodes mem).

Definition magic_bytes : list Z := le_to_bytes ETHASH_DAG_MAGIC_NUM_SIZE ETHASH_DAG_MAGIC_NUM.

(** Which system calls of ethash_full_new_internal fail; when the flush fails the
    magic number can still reach the file through the fclose that follows. *)
Record full_faults := mk_full_faults {
  f_calloc : bool; f_mmap : bool; f_fseek : bool; f_fwrite : bool; f_fflush : option bool;
}.
Definition no_full_faults : full_faults := mk_full_faults false false false false None.

Section full.
Context `{Hsha : Sha3Api}.

(** From the dataset generation on, the file being mapped at [p]. *)
Definition full_generate (ft : full_faults) (percent : nat -> Z) (m : fs) (p : path)
    (content : list Z) (full_size : Z) (light : ethash_light) (callback : callback_t)
    : option (option ethash_full * fs) :=
  '(ok, mem) ← ethash_compute_full_data percent (mapped_nodes full_size content)
                 full_size light callback;
  let content := write_nodes content mem in
  let m := <[p := content]> m in
  if negb ok then Some (None, m)
  else if f_fseek ft then Some (None, m)
  else if f_fwrite ft then Some (None, m)
  else
    let m' := <[p := blit content 0 magic_bytes]> m in
    match f_fflush ft with
    | Some written => Some (None, if written : bool then m' else m)
    | None => Some (Some (mk_full full_size mem), m')
    end.

(** Opening the file: a file of another size is silently recreated.  A failure of
    either attempt is ETHASH_IO_FAIL. *)
Definition full_prepare (p1 p2 : io_faults) (m : fs) (dirname seed_hash : list Z) (full_size : Z)
    : ethash_io_rc * option path * fs :=
  let '(err, f, m) := ethash_io_prepare p1 m dirname seed_hash full_size false in
  if decide (err = ETHASH_IO_MEMO_SIZE_MISMATCH) then
    let '(err, f, m) := ethash_io_prepare p2 m dirname seed_hash full_size true in
    (if decide (err = ETHASH_IO_MEMO_MISMATCH) then err else ETHASH_IO_FAIL, f, m)
  else (err, f, m).

(** The result is the returned pointer and the file system. *)
Definition ethash_full_new_internal (p1 p2 : io_faults) (ft : full_faults) (percent : nat -> Z)
    (m : fs) (dirname seed_hash : list Z) (full_size : Z) (light : ethash_light)
    (callback : callback_t) : option (option ethash_full * fs) :=
  if f_calloc ft then Some (None, m)
  else
    let '(err, f, m) := full_prepare p1 p2 m dirname seed_hash full_size in
    if decide (err = ETHASH_IO_FAIL) then Some (None, m)
    else
      p ← f;
      content ← m !! p;
      if f_mmap ft then Some (None, m)
      else if decide (err = ETHASH_IO_MEMO_MATCH)
      then Some (Some (mk_full full_size (mapped_nodes full_size content)), m)
      else full_generate ft percent m p content full_size light callback.

(** [home], [pwd]: the environment of ethash_get_default_dirname. *)
Definition ethash_full_new (home : option (list Z)) (pwd : option (option (list Z)))
    (p1 p2 : io_faults) (ft : full_faults) (percent : nat -> Z) (m : fs)
    (light : ethash_light) (callback : callback_t) : option (option ethash_full * fs) :=
  match ethash_get_default_dirname home pwd 256 with
  | (false, _) => Some (None, m)
  | (true, strbuf) =>
    full_size ← ethash_get_datasize (block_number light);
    seedhash ← ethash_get_seedhash (block_number light);
    ethash_full_new_internal p1 p2 ft percent m strbuf seedhash full_size light callback
  end.
End full.

(** ** File names *)

Lemma char_at_length s : char_at s (length s) = 0.
Proof. unfold char_at. by rewrite lookup_ge_None_2. Qed.

Lemma strncat_fits dest size src count :
  (length dest + count + 1 <= size)%nat -> ethash_strncat dest size src count = Some (dest ++ take count src).
Proof. intros. unfold ethash_strncat. by rewrite decide_True. Qed.

Lemma create_filename_ok d f :
  ethash_io_create_filename true d f (length f) = Some (d ++ chars "/" ++ f).
Proof.
  unfold ethash_io_create_filename. rewrite char_at_length. cbn [Z.eqb].
  rewrite strncat_fits by (simpl; lia). rewrite firstn_all. cbn [default app]. unfold id.
  rewrite strncat_fits by lia. cbn [default]. unfold id.
  rewrite strncat_fits by (rewrite length_app; simpl; lia). cbn [default]. unfold id.
  rewrite firstn_all. by rewrite <-app_assoc.
Qed.

Lemma length_hex_digits n x : length (hex_digits n x) = n.
Proof. revert x. induction n; intros; simpl; [done|]. rewrite length_app, IHn. simpl. lia. Qed.

Lemma length_dec_digits n x : (length (dec_digits n x) <= n)%nat.
Proof.
  revert x. induction n as [|n IH]; intros x; simpl; [lia|]. rewrite length_app. simpl.
  case_match; simpl; [lia|]. specialize (IH (x / 10)). lia.
Qed.

Lemma hexdigit_inj a b :
  0 <= a < 16 -> 0 <= b < 16 -> hexdigit a = hexdigit b -> a = b.
Proof. unfold hexdigit. intros. destruct (Z.ltb_spec a 10), (Z.ltb_spec b 10); lia. Qed.

Lemma hex_digits_inj n x y :
  0 <= x < 16 ^ Z.of_nat n -> 0 <= y < 16 ^ Z.of_nat n ->
  hex_digits n x = hex_digits n y -> x = y.
Proof.
  revert x y. induction n as [|n IH]; intros x y Hx Hy E.
  - simpl in Hx, Hy. lia.
  - cbn [hex_digits] in E. apply app_inj_2 in E as [E1 E2]; [|done].
    injection E2 as E2. apply hexdigit_inj in E2; [|apply Z.mod_pos_bound; lia..].
    rewrite Nat2Z.inj_succ, Z.pow_succ_r in Hx, Hy by lia.
    apply IH in E1.
    + pose proof (Z.div_mod x 16). pose proof (Z.div_mod y 16). lia.
    + split; [apply Z.div_pos; lia|]. apply Z.div_lt_upper_bound; lia.
    + split; [apply Z.div_pos; lia|]. apply Z.div_lt_upper_bound; lia.
Qed.

Lemma swap_be b : bytes b -> length b = 8%nat -> ethash_swap_u64 (le_of_bytes b) = be_of_bytes b.
Proof. intros. unfold ethash_swap_u64. by rewrite le_to_of_bytes. Qed.

Lemma mutable_name_eq revision seed :
  bytes seed -> (8 <= length seed)%nat ->
  ethash_io_mutable_name revision seed =
    chars "full-R" ++ dec_digits 10 revision ++ chars "-" ++ hex_digits 16 (be_of_bytes (take 8 seed)).
Proof.
  intros Hb Hl. unfold ethash_io_mutable_name.
  rewrite swap_be by (try apply Forall_take; simpl_len; done || lia).
  apply take_ge. rewrite !length_app, length_hex_digits.
  pose proof (length_dec_digits 10 revision). unfold DAG_MUTABLE_NAME_MAX_SIZE.
  change (length (chars "full-R")) with 6%nat. change (length (chars "-")) with 1%nat. lia.
Qed.

Lemma mutable_name_inj revision s1 s2 :
  bytes s1 -> bytes s2 -> (8 <= length s1)%nat -> (8 <= length s2)%nat ->
  ethash_io_mutable_name revision s1 = ethash_io_mutable_name revision s2 ->
  take 8 s1 = take 8 s2.
Proof.
  intros H1 H2 L1 L2 E. rewrite !mutable_name_eq in E by done.
  apply app_inj_1 in E as [_ E]; [|done]. apply app_inj_1 in E as [_ E]; [|done].
  apply app_inj_1 in E as [_ E]; [|done].
  assert (forall s, bytes s -> (8 <= length s)%nat -> 0 <= be_of_bytes (take 8 s) < 16 ^ Z.of_nat 16)
    as Hr.
  { intros s Hs Hl. pose proof (be_of_bytes_range (take 8 s) (Forall_take _ _ _ Hs)) as H.
    rewrite length_take_le in H by done. exact H. }
  apply hex_digits_inj in E; [|by apply Hr..].
  unfold be_of_bytes in E. apply le_of_bytes_inj in E.
  - by apply (inj reverse).
  - rewrite !length_reverse, !length_take_le by done. done.
  - by apply Forall_reverse, Forall_take.
  - by apply Forall_reverse, Forall_take.
Qed.

(** The path of the DAG file of a seed. *)
Definition dag_path (dirname seed : list Z) : path :=
  dirname ++ chars "/" ++ ethash_io_mutable_name ETHASH_REVISION seed.

(** A complete DAG file: magic number and the right size. *)
Definition complete_file (size : Z) (c : list Z) : bool :=
  (Z.of_nat (length c) =? size + 8) && (le_of_bytes (take 8 c) =? ETHASH_DAG_MAGIC_NUM).

(** What ethash_io_prepare promises, without faults. *)
Definition prepare_spec (m : fs) (p : path) (size : Z) (force : bool)
    : ethash_io_rc * option path * fs :=
  match (if force then None else m !! p) with
  | None => (ETHASH_IO_MEMO_MISMATCH, Some p, <[p := sparse_file (size + 7)]> m)
  | Some c =>
    if complete_file size c then (ETHASH_IO_MEMO_MATCH, Some p, m)
    else (ETHASH_IO_MEMO_SIZE_MISMATCH, None, m)
  end.

Lemma found_size_ok size n :
  0 <= size < 2 ^ 64 - 8 -> Z.of_nat n < 2 ^ 64 ->
  (size =? u64 (Z.of_nat n - 8)) = (Z.of_nat n =? size + 8).
Proof.
  intros Hs Hn. apply eq_true_iff_eq. rewrite !Z.eqb_eq, u64_mod.
  destruct (decide (8 <= Z.of_nat n)).
  - rewrite Z.mod_small; lia.
  - rewrite <-(Z.mod_add _ 1), Z.mod_small; lia.
Qed.

Lemma prepare_ok m dirname seed size force :
  0 <= size < 2 ^ 64 - 8 ->
  (forall c, m !! dag_path dirname seed = Some c -> Z.of_nat (length c) < 2 ^ 64) ->
  ethash_io_prepare no_io_faults m dirname seed size force =
    prepare_spec m (dag_path dirname seed) size force.
Proof.
  intros Hs Hc. unfold ethash_io_prepare, prepare_spec. cbn [f_mkdir f_malloc f_open_r no_io_faults negb].
  rewrite create_filename_ok. fold (dag_path dirname seed). rewrite orb_false_r.
  assert (io_create no_io_faults m (dag_path dirname seed) size =
    (ETHASH_IO_MEMO_MISMATCH, Some (dag_path dirname seed),
     <[dag_path dirname seed := sparse_file (size + 7)]> m)) as Hcreate.
  { unfold io_create. cbn [f_open_w f_seek f_putc f_flush no_io_faults].
    rewrite u64_id by (unfold is_word, ETHASH_DAG_MAGIC_NUM_SIZE; lia).
    rewrite insert_insert_eq. repeat f_equal. unfold ETHASH_DAG_MAGIC_NUM_SIZE. lia. }
  destruct force; [exact Hcreate|]. destruct (m !! dag_path dirname seed) as [c|] eqn:E; [|exact Hcreate].
  unfold complete_file, ETHASH_DAG_MAGIC_NUM_SIZE. cbn [f_stat f_read no_io_faults orb].
  change (Z.of_nat 8) with 8.
  rewrite (found_size_ok size (length c)) by auto.
  destruct (Z.eqb_spec (Z.of_nat (length c)) (size + 8)) as [Hl|Hl]; cbn [negb andb]; [|done].
  replace (length c <? 8)%nat with false by (symmetry; apply Nat.ltb_ge; lia).
  by destruct (_ =? ETHASH_DAG_MAGIC_NUM).
Qed.

(** ** The mapped nodes *)

Lemma bytes_of_nodes_cons n l : bytes_of_nodes (n :: l) = node_bytes n ++ bytes_of_nodes l.
Proof. done. Qed.

Lemma length_bytes_of_nodes l :
  Forall wf_node l -> length (bytes_of_nodes l) = (64 * length l)%nat.
Proof.
  induction 1 as [|n l [Hn _] _ IH]; [done|]. rewrite bytes_of_nodes_cons.
  assert (length (node_bytes n) = 64%nat) as E.
  { unfold node_bytes. rewrite length_bytes_le, Hn. done. }
  rewrite length_app, E, IH. cbn [length]. lia.
Qed.

Lemma nodes_of_bytes_of l tail :
  Forall wf_node l -> nodes_of_bytes (length l) (bytes_of_nodes l ++ tail) = l.
Proof.
  induction 1 as [|n l [Hn Hw] Hl IH]; [done|]. rewrite bytes_of_nodes_cons.
  cbn [length nodes_of_bytes].
  assert (length (node_bytes n) = 64%nat) as E.
  { unfold node_bytes. rewrite length_bytes_le, Hn. done. }
  rewrite <-app_assoc, take_app_length', drop_app_length' by done. f_equal; [|exact IH].
  unfold node_of_bytes, node_bytes, NODE_WORDS in *. rewrite <-Hn. by apply (words_bytes_le 4).
Qed.

Lemma length_nodes_of_bytes n b : length (nodes_of_bytes n b) = n.
Proof. revert b. induction n; intros; simpl; auto. Qed.

Lemma take_write_nodes c mem :
  (8 <= length c)%nat -> take 8 (write_nodes c mem) = take 8 c.
Proof.
  intros Hc. unfold write_nodes, blit, ETHASH_DAG_MAGIC_NUM_SIZE.
  apply take_app_length'. simpl_len. lia.
Qed.

Lemma take_sparse off : 8 <= off -> take 8 (sparse_file off) = replicate 8 0.
Proof.
  intros. unfold sparse_file. rewrite take_app_le by (simpl_len; lia).
  rewrite take_replicate. f_equal. lia.
Qed.

Lemma length_sparse off : 0 <= off -> Z.of_nat (length (sparse_file off)) = off + 1.
Proof. intros. unfold sparse_file. simpl_len. simpl. lia. Qed.

(** The finished file: complete, and it maps back to the generated nodes. *)
Lemma finished_file size mem :
  0 < size -> size mod sizeof_node = 0 -> Z.of_nat (length mem) = size / sizeof_node ->
  Forall wf_node mem ->
  let c := blit (write_nodes (sparse_file (size + 7)) mem) 0 magic_bytes in
  complete_file size c = true /\ mapped_nodes size c = mem.
Proof.
  intros H0 Hm Hlen Hw c.
  pose proof (length_bytes_of_nodes mem Hw) as Hb.
  assert (size = sizeof_node * (size / sizeof_node)) as Hs.
  { pose proof (Z.div_mod size sizeof_node ltac:(done)). lia. }
  unfold sizeof_node in *.
  pose proof (length_sparse (size + 7) ltac:(lia)) as Hsp.
  assert (length (write_nodes (sparse_file (size + 7)) mem) = length (sparse_file (size + 7))) as Hwl.
  { apply length_blit. rewrite Hb. unfold ETHASH_DAG_MAGIC_NUM_SIZE. lia. }
  assert (length magic_bytes = 8%nat) as Hmb by done.
  assert (c = magic_bytes ++ bytes_of_nodes mem ++ drop (8 + length (bytes_of_nodes mem))
    (sparse_file (size + 7))) as ->.
  { unfold c. unfold blit at 1. rewrite take_0, Hmb. cbn [app plus].
    unfold write_nodes, blit, ETHASH_DAG_MAGIC_NUM_SIZE.
    rewrite drop_app_length' by (simpl_len; lia). done. }
  split.
  - unfold complete_file. rewrite take_app_length' by done.
    apply andb_true_iff. split; [|done]. apply Z.eqb_eq.
    rewrite !length_app, length_drop, Hmb, Hb. lia.
  - unfold mapped_nodes, ETHASH_DAG_MAGIC_NUM_SIZE. rewrite drop_app_length' by done.
    unfold sizeof_node. rewrite <-Hlen, Nat2Z.id. by apply nodes_of_bytes_of.
Qed.

(** ** A file is never taken for complete before its magic number is written *)

Definition incomplete (m : fs) (p : path) (size : Z) : Prop :=
  forall c, m !! p = Some c -> Z.of_nat (length c) < 2 ^ 64 /\ complete_file size c = false.

Lemma incomplete_insert m p size c :
  0 <= size < 2 ^ 64 - 8 -> Z.of_nat (length c) < 2 ^ 64 ->
  ((8 <= length c)%nat -> le_of_bytes (take 8 c) <> ETHASH_DAG_MAGIC_NUM) ->
  incomplete (<[p := c]> m) p size.
Proof.
  intros Hs Hl Hc c'. rewrite lookup_insert_eq. intros [= <-]. split; [done|].
  unfold complete_file. apply andb_false_iff.
  destruct (Z.eqb_spec (Z.of_nat (length c)) (size + 8)); [|by left].
  right. apply Z.eqb_neq, Hc. lia.
Qed.

Lemma incomplete_sparse m p size :
  1 <= size < 2 ^ 64 - 8 -> incomplete (<[p := sparse_file (size + 7)]> m) p size.
Proof.
  intros Hs. apply incomplete_insert; [lia|rewrite length_sparse; lia|].
  intros _. by rewrite take_sparse by lia.
Qed.

(** With any faults, preparing an incomplete file gives an incomplete one, blank
    when a handle is returned. *)
Lemma prepare_incomplete ft m dirname seed size force err f m' :
  1 <= size < 2 ^ 64 - 8 -> incomplete m (dag_path dirname seed) size ->
  ethash_io_prepare ft m dirname seed size force = (err, f, m') ->
  let p := dag_path dirname seed in
  incomplete m' p size /\ err <> ETHASH_IO_MEMO_MATCH /\
  (err = ETHASH_IO_MEMO_MISMATCH -> f = Some p /\ m' !! p = Some (sparse_file (size + 7))).
Proof.
  intros Hs Hi. unfold ethash_io_prepare.
  destruct (f_mkdir ft); [by intros [= <- <- <-]|].
  destruct (f_malloc ft); [by intros [= <- <- <-]|].
  cbn [negb]. rewrite create_filename_ok. fold (dag_path dirname seed).
  set (p := dag_path dirname seed) in *.
  assert (forall err f m', io_create ft m p size = (err, f, m') -> incomplete m' p size /\
    err <> ETHASH_IO_MEMO_MATCH /\
    (err = ETHASH_IO_MEMO_MISMATCH -> f = Some p /\ m' !! p = Some (sparse_file (size + 7)))) as Hcr.
  { intros err0 f0 m0. unfold io_create.
    destruct (f_open_w ft); [by intros [= <- <- <-]|].
    assert (incomplete (<[p := []]> m) p size) as He.
    { apply incomplete_insert; [lia|done|simpl; lia]. }
    destruct (f_seek ft); [by intros [= <- <- <-]|].
    destruct (f_putc ft); [by intros [= <- <- <-]|].
    destruct (f_flush ft); [by intros [= <- <- <-]|].
    rewrite u64_id by (unfold is_word, ETHASH_DAG_MAGIC_NUM_SIZE; lia).
    replace (size + Z.of_nat ETHASH_DAG_MAGIC_NUM_SIZE - 1) with (size + 7)
      by (unfold ETHASH_DAG_MAGIC_NUM_SIZE; lia).
    intros [= <- <- <-]. split; [by apply incomplete_sparse|]. split; [done|].
    intros _. by rewrite lookup_insert_eq. }
  destruct (if force || f_open_r ft then None else m !! p) as [c|] eqn:E; [|by apply Hcr].
  assert (m !! p = Some c) as Ec by (destruct (force || f_open_r ft); done).
  destruct (Hi c Ec) as [Hlc Hcc].
  destruct (f_stat ft); [by intros [= <- <- <-]|].
  unfold complete_file, ETHASH_DAG_MAGIC_NUM_SIZE in *. change (Z.of_nat 8) with 8.
  rewrite found_size_ok by lia.
  destruct (Z.of_nat (length c) =? size + 8); cbn [negb andb] in *; [|by intros [= <- <- <-]].
  rewrite Hcc. cbn [negb]. destruct (f_read ft || _); by intros [= <- <- <-].
Qed.

Lemma full_prepare_incomplete p1 p2 m dirname seed size err f m' :
  1 <= size < 2 ^ 64 - 8 -> incomplete m (dag_path dirname seed) size ->
  full_prepare p1 p2 m dirname seed size = (err, f, m') ->
  let p := dag_path dirname seed in
  incomplete m' p size /\
  (err = ETHASH_IO_FAIL \/
   err = ETHASH_IO_MEMO_MISMATCH /\ f = Some p /\ m' !! p = Some (sparse_file (size + 7))).
Proof.
  intros Hs Hi. unfold full_prepare.
  destruct (ethash_io_prepare p1 m dirname seed size false) as [[err1 f1] m1] eqn:E1.
  destruct (prepare_incomplete _ _ _ _ _ _ _ _ _ Hs Hi E1) as (Hi1 & Hnm & Hf1).
  case_decide as Hsm.
  - destruct (ethash_io_prepare p2 m1 dirname seed size true) as [[err2 f2] m2] eqn:E2.
    destruct (prepare_incomplete _ _ _ _ _ _ _ _ _ Hs Hi1 E2) as (Hi2 & _ & Hf2).
    case_decide; intros [= <- <- <-]; auto.
  - intros [= <- <- <-]. split; [done|]. destruct err1; auto; done.
Qed.

Section lifecycle.
Context `{Hsha : Sha3Api}.

Lemma full_data_loop_length percent cb max_n l ns mem ok mem' :
  full_data_loop percent cb max_n l ns mem = Some (ok, mem') -> length mem' = length mem.
Proof.
  revert mem. induction ns as [|n ns IH]; intros mem; simpl; [by intros [= <- <-]|].
  destruct (callback_stops _ _ _ _) as [[]|]; simpl; [by intros [= <- <-]| |done].
  destruct (ethash_calculate_dag_item _ _) as [d|]; simpl; [|done].
  unfold store. case_decide; simpl; [|done]. intros E. apply IH in E. by rewrite length_insert in E.
Qed.

Lemma generate_incomplete ft percent m p content size l cb m' :
  1 <= size < 2 ^ 64 - 8 -> content = sparse_file (size + 7) -> f_fflush ft <> Some true ->
  full_generate ft percent m p content size l cb = Some (None, m') ->
  forall c, m' !! p = Some c -> complete_file size c = false.
Proof.
  intros Hs Hcon Hft. unfold full_generate.
  destruct (ethash_compute_full_data _ _ _ _ _) as [[ok mem]|]; [|done]. cbn [mbind option_bind].
  set (c1 := write_nodes content mem).
  assert (complete_file size c1 = false) as Hc1.
  { unfold complete_file. apply andb_false_iff. right. apply Z.eqb_neq. unfold c1.
    pose proof (length_sparse (size + 7) ltac:(lia)).
    rewrite take_write_nodes by (subst; lia). subst content. by rewrite take_sparse by lia. }
  assert (forall c, <[p := c1]> m !! p = Some c -> complete_file size c = false) as Hm.
  { intros c. rewrite lookup_insert_eq. by intros [= <-]. }
  destruct ok; cbn [negb]; [|by intros [= <-]].
  destruct (f_fseek ft); [by intros [= <-]|]. destruct (f_fwrite ft); [by intros [= <-]|].
  destruct (f_fflush ft) as [[]|]; [done| |done]. by intros [= <-].
Qed.

Lemma holds_items_wf l mem : holds_items l (length mem) mem -> Forall wf_node mem.
Proof.
  intros H. apply Forall_lookup_2. intros i n Hi.
  destruct (H i) as (d & _ & Hd & E); [by apply lookup_lt_Some in Hi|].
  by simplify_eq.
Qed.

(** C23: A DAG file that is not complete stays so when its generation
    is interrupted: whatever system call fails and wherever the callback stops the
    computation, if ethash_full_new_internal returns null (and a failed final
    flush did not write after all) the file left behind does not pass for complete,
    so the next start regenerates it. *)
Theorem dag_crash_safe p1 p2 ft percent m dirname seed size l cb m' :
  1 <= size < 2 ^ 64 - 8 -> incomplete m (dag_path dirname seed) size ->
  f_fflush ft <> Some true ->
  ethash_full_new_internal p1 p2 ft percent m dirname seed size l cb = Some (None, m') ->
  forall c, m' !! dag_path dirname seed = Some c -> complete_file size c = false.
Proof.
  intros Hs Hi Hft. unfold ethash_full_new_internal.
  destruct (f_calloc ft); [intros [= <-] c Hc; by apply Hi|].
  destruct (full_prepare p1 p2 m dirname seed size) as [[err f] m1] eqn:E1.
  destruct (full_prepare_incomplete _ _ _ _ _ _ _ _ _ Hs Hi E1) as (Hi1 & [->|(-> & -> & Hc1)]).
  { rewrite decide_True by done. intros [= <-] c Hc. by apply Hi1. }
  rewrite decide_False by done. cbn [mbind option_bind]. rewrite Hc1. cbn [mbind option_bind].
  destruct (f_mmap ft); [intros [= <-] c Hc; by apply Hi1|]. rewrite decide_False by done.
  by apply generate_incomplete.
Qed.

Lemma full_prepare_fresh m dirname seed size :
  1 <= size < 2 ^ 64 - 8 -> incomplete m (dag_path dirname seed) size ->
  let p := dag_path dirname seed in
  full_prepare no_io_faults no_io_faults m dirname seed size =
    (ETHASH_IO_MEMO_MISMATCH, Some p, <[p := sparse_file (size + 7)]> m).
Proof.
  intros Hs Hi p. unfold full_prepare.
  rewrite !prepare_ok by (lia || (intros c Hc; by apply Hi)).
  unfold prepare_spec. fold p. destruct (m !! p) as [c|] eqn:E; [|done].
  destruct (Hi c E) as [Hlc ->]. rewrite decide_True by done.
  rewrite prepare_ok by (lia || (intros c' Hc; by apply Hi)). done.
Qed.

(** A complete file is mapped as it is, whatever light client and callback are
    passed. *)
Lemma full_new_match m dirname seed size l cb percent c :
  1 <= size < 2 ^ 64 - 8 -> m !! dag_path dirname seed = Some c -> complete_file size c = true ->
  ethash_full_new_internal no_io_faults no_io_faults no_full_faults percent m dirname seed size l cb
    = Some (Some (mk_full size (mapped_nodes size c)), m).
Proof.
  intros Hs Hc Hok.
  assert (Z.of_nat (length c) < 2 ^ 64) as Hlc.
  { unfold complete_file in Hok. apply andb_true_iff in Hok as [H%Z.eqb_eq _]. lia. }
  unfold ethash_full_new_internal, full_prepare. cbn [f_calloc no_full_faults].
  rewrite prepare_ok by (lia || (intros c' Hc'; simplify_eq; done)).
  unfold prepare_spec. rewrite Hc, Hok. rewrite !decide_False by done.
  cbn [mbind option_bind]. rewrite Hc. done.
Qed.

(** Starting from a missing or incomplete DAG file, without
    I/O faults and with a callback that does not stop, ethash_full_new_internal
    recreates the file, returns a dataset that holds every item of the light
    client, leaves a complete file on disk and all other files alone; any later
    call, with any light client and callback, maps the same dataset from the file
    without recomputing it. *)
Theorem dag_file_lifecycle percent m dirname seed size l cb :
  light_wf l -> 0 < size -> size mod ETHASH_MIX_BYTES = 0 -> size / sizeof_node < 2 ^ 32 ->
  (forall n, callback_stops percent cb (u32 (size / sizeof_node)) n = Some false) ->
  incomplete m (dag_path dirname seed) size ->
  exists full m',
    ethash_full_new_internal no_io_faults no_io_faults no_full_faults percent m dirname seed size l cb
      = Some (Some full, m') /\
    ethash_full_dag_size full = size /\
    Z.of_nat (length (ethash_full_dag full)) = size / sizeof_node /\
    holds_items l (length (data full)) (ethash_full_dag full) /\
    (forall q, q <> dag_path dirname seed -> m' !! q = m !! q) /\
    forall percent' l' cb',
      ethash_full_new_internal no_io_faults no_io_faults no_full_faults percent' m' dirname seed size l' cb'
        = Some (Some full, m').
Proof.
  intros Hl H0 Hm H32 Hcb Hi.
  assert (size < 2 ^ 64 - 8) as H64.
  { pose proof (Z.div_mod size sizeof_node ltac:(done)) as H.
    pose proof (Z.mod_pos_bound size sizeof_node ltac:(done)). unfold sizeof_node in *. lia. }
  set (p := dag_path dirname seed). set (c0 := sparse_file (size + 7)).
  pose proof (Z.div_pos size sizeof_node ltac:(lia) ltac:(done)) as Hp.
  destruct (full_data_ok percent cb (mapped_nodes size c0) size l) as (mem & E & Hlen & Hh);
    [done..| |done|].
  { unfold mapped_nodes. rewrite length_nodes_of_bytes. lia. }
  rewrite <-Hlen in Hh.
  assert (Z.of_nat (length mem) = size / sizeof_node) as Hlm.
  { rewrite Hlen. unfold mapped_nodes. rewrite length_nodes_of_bytes. lia. }
  assert (size mod sizeof_node = 0) as Hm64.
  { unfold sizeof_node, ETHASH_MIX_BYTES in *. pose proof (Z.div_mod size 128 ltac:(lia)).
    replace size with (2 * (size / 128) * 64) by lia. apply Z.mod_mul. lia. }
  destruct (finished_file size mem H0 Hm64 Hlm (holds_items_wf l mem Hh)) as [Hok Hmap].
  set (c1 := blit _ _ _) in Hok, Hmap.
  exists (mk_full size mem), (<[p := c1]> m). split_and!; [|done|done|exact Hh| |].
  - unfold ethash_full_new_internal. cbn [f_calloc f_mmap no_full_faults].
    rewrite full_prepare_fresh by (lia || done). fold p c0. rewrite decide_False by done.
    cbn [mbind option_bind]. rewrite lookup_insert_eq. cbn [mbind option_bind].
    rewrite decide_False by done. unfold full_generate. rewrite E.
    cbn [mbind option_bind negb f_fseek f_fwrite f_fflush no_full_faults].
    by rewrite !insert_insert_eq.
  - intros q Hq. by rewrite lookup_insert_ne.
  - intros percent' l' cb'. rewrite (full_new_match _ _ _ _ _ _ _ c1);
      [by rewrite Hmap|lia|by rewrite lookup_insert_eq|done].
Qed.
End lifecycle.

(** Without I/O faults ethash_io_prepare implements its
    specification: the file is matched exactly when it exists, has the DAG size
    plus the magic number and starts with it; an existing file that fails one of
    these is reported and left alone; a missing file, or any file when creation is
    forced, is replaced by a blank file of the right size. *)
Theorem io_prepare_refines m dirname seed size force :
  0 <= size < 2 ^ 64 - 8 ->
  (forall c, m !! dag_path dirname seed = Some c -> Z.of_nat (length c) < 2 ^ 64) ->
  ethash_io_prepare no_io_faults m dirname seed size force =
    prepare_spec m (dag_path dirname seed) size force.
Proof. apply prepare_ok. Qed.

(** The DAG file name never exceeds its buffer for any 32-bit
    revision, and two seed hashes share a name only when their first eight bytes
    agree. *)
Lemma dag_name_injective revision s1 s2 :
  is_u32 revision -> bytes s1 -> bytes s2 -> length s1 = 32%nat -> length s2 = 32%nat ->
  (length (ethash_io_mutable_name revision s1) < DAG_MUTABLE_NAME_MAX_SIZE)%nat /\
  (ethash_io_mutable_name revision s1 = ethash_io_mutable_name revision s2 <->
    take 8 s1 = take 8 s2).
Proof.
  intros Hr H1 H2 L1 L2. split.
  - rewrite mutable_name_eq by (done || lia). rewrite !length_app, length_hex_digits.
    pose proof (length_dec_digits 10 revision). unfold DAG_MUTABLE_NAME_MAX_SIZE.
    change (length (chars "full-R")) with 6%nat. change (length (chars "-")) with 1%nat. lia.
  - split; [apply mutable_name_inj; (done || lia)|].
    intros E. unfold ethash_io_mutable_name. by rewrite E.
Qed.

(** ** Witnesses *)

Lemma dag_crash_safe_witness : complete_file 128 (sparse_file 135) = false.
Proof.
  refine (dag_crash_safe no_io_faults no_io_faults (mk_full_faults false true false false None)
    (fun _ => 0) ∅ (chars "d") (replicate 32 0) 128 demo_light None
    (<[dag_path (chars "d") (replicate 32 0) := sparse_file 135]> (∅ : fs)) _ _ _ _ _ _).
  - lia.
  - intros c Hc. by rewrite lookup_empty in Hc.
  - done.
  - vm_compute. reflexivity.
  - apply lookup_insert_eq.
Defined.

Lemma dag_file_lifecycle_witness :
  exists full m',
    ethash_full_new_internal no_io_faults no_io_faults no_full_faults (fun _ => 0) ∅
      (chars "d") (replicate 32 0) 128 demo_light None = Some (Some full, m') /\
    ethash_full_dag_size full = 128 /\
    Z.of_nat (length (ethash_full_dag full)) = 128 / sizeof_node /\
    holds_items demo_light (length (data full)) (ethash_full_dag full) /\
    (forall q, q <> dag_path (chars "d") (replicate 32 0) -> m' !! q = (∅ : fs) !! q) /\
    forall percent' l' cb',
      ethash_full_new_internal no_io_faults no_io_faults no_full_faults percent' m' (chars "d")
        (replicate 32 0) 128 l' cb' = Some (Some full, m').
Proof.
  apply (dag_file_lifecycle (fun _ => 0) ∅ (chars "d") (replicate 32 0) 128 demo_light None);
    [exact demo_light_wf|done|done|done|done|].
  intros c Hc. by rewrite lookup_empty in Hc.
Defined.

Lemma io_prepare_refines_witness :
  ethash_io_prepare no_io_faults ∅ (chars "d") (replicate 32 0) 128 false =
    prepare_spec ∅ (dag_path (chars "d") (replicate 32 0)) 128 false.
Proof.
  apply (io_prepare_refines ∅ (chars "d") (replicate 32 0) 128 false); [lia|].
  intros c Hc. by rewrite lookup_empty in Hc.
Defined.

Lemma dag_name_injective_witness :
  (length (ethash_io_mutable_name 4294967295 (replicate 32 0%Z)) < DAG_MUTABLE_NAME_MAX_SIZE)%nat /\
  (ethash_io_mutable_name 4294967295 (replicate 32 0) =
     ethash_io_mutable_name 4294967295 (replicate 32 1) <->
   take 8 (replicate 32 0) = take 8 (replicate 32 1)).
Proof.
  apply (dag_name_injective 4294967295 (replicate 32 0) (replicate 32 1));
    [done|by apply Forall_replicate|by apply Forall_replicate|done|done].
Defined.
