(* ===== verification/B64.v ===== *)
(** * utils/libscrypt/b64.c: Base64

    The encoder with its target size checks and the four-state decoder with its
    optional target, whitespace skipping and padding rules.  A C string is a list
    of nonzero character codes; its terminating zero is the end of the list. *)

From stdpp Require Import strings.
From S2P Require Import Prelude Words.
#[local] Open Scope list_scope.

Definition Base64 : list Z :=
  Eval vm_compute in (fun a => Z.of_N (Ascii.N_of_ascii a)) <$> String.list_ascii_of_string
    "ABCDEFGHIJKLMNOPQRSTUVWXYZabcdefghijklmnopqrstuvwxyz0123456789+/"%string.
Definition Pad64 : Z := 61.

(** isspace of the C locale *)
Definition isspace (ch : Z) : bool := (ch =? 32) || ((9 <=? ch) && (ch <=? 13)).

(** strchr(Base64, ch) - Base64 *)
Definition strchr_Base64 (ch : Z) : option Z := (Z.of_nat ∘ fst) <$> list_find (fun c => c = ch) Base64.

(** ** Encoder *)

Definition sextets (i0 i1 i2 : Z) : list Z :=
  [i0 .>> 2; ((i0 .& 0x03) .<< 4) + (i1 .>> 4); ((i1 .& 0x0f) .<< 2) + (i2 .>> 6); i2 .& 0x3f].
Definition b64char (v : Z) : Z := Base64 !!! Z.to_nat v.

(** Four characters at [datalength]. *)
Definition put4 (target : list Z) (datalength : nat) (cs : list Z) : list Z :=
  for_ (seq 0 4) (fun k t => <[(datalength + k)%nat := cs !!! k]> t) target.

(** The result is the return value and the target; [src] is the rest of the input
    and its length is srclength. *)
Fixpoint b64_encode_from (src : list Z) (target : list Z) (datalength targsize : nat)
    : Z * list Z :=
  let finish target datalength :=
    if decide (targsize <= datalength)%nat then (-1, target)
    else (Z.of_nat datalength, <[datalength := 0]> target) in
  match src with
  | i0 :: i1 :: i2 :: src =>
    if decide (targsize < datalength + 4)%nat then (-1, target)
    else b64_encode_from src (put4 target datalength (b64char <$> sextets i0 i1 i2))
           (datalength + 4) targsize
  | [] => finish target datalength
  | i0 :: rest =>
    let i1 := default 0 (rest !! 0%nat) in
    let o := sextets i0 i1 0 in
    if decide (targsize < datalength + 4)%nat then (-1, target)
    else
      let c2 := if decide (rest = []) then Pad64 else b64char (o !!! 2%nat) in
      finish (put4 target datalength [b64char (o !!! 0%nat); b64char (o !!! 1%nat); c2; Pad64])
        (datalength + 4)%nat
  end.

Definition libscrypt_b64_encode (src target : list Z) (targsize : nat) : Z * list Z :=
  b64_encode_from src target 0 targsize.

(** ** Decoder *)

(** state, tarindex, target *)
Record b64st := mk_b64st { state : nat; tarindex : nat; tgt : option (list Z) }.

(** target[tarindex+1] = nextbyte, or an error when a nonzero byte does not fit. *)
Definition put_next (targsize i : nat) (nextbyte : Z) (t : list Z) : option (list Z) :=
  if decide (i + 1 < targsize)%nat then Some (<[(i + 1)%nat := nextbyte]> t)
  else if nextbyte =? 0 then Some t else None.

(** The switch on one character of the alphabet; [None] is return (-1). *)
Definition decode_char (targsize : nat) (v : Z) (st : b64st) : option b64st :=
  let i := tarindex st in
  match tgt st with
  | None =>
    Some (mk_b64st ((state st + 1) mod 4) (if decide (state st = 0%nat) then i else S i) None)
  | Some t =>
    if decide (targsize <= i)%nat then None
    else
      match state st with
      | 0%nat => Some (mk_b64st 1 i (Some (<[i := u8 (v .<< 2)]> t)))
      | 1%nat =>
        let t := <[i := (t !!! i) .| (v .>> 4)]> t in
        t ← put_next targsize i (u8 ((v .& 0x0f) .<< 4)) t;
        Some (mk_b64st 2 (S i) (Some t))
      | 2%nat =>
        let t := <[i := (t !!! i) .| (v .>> 2)]> t in
        t ← put_next targsize i (u8 ((v .& 0x03) .<< 6)) t;
        Some (mk_b64st 3 (S i) (Some t))
      | _ => Some (mk_b64st 0 (S i) (Some (<[i := (t !!! i) .| v]> t)))
      end
  end.

(** The while loop: an error, or the state and, when a pad character ended it,
    what follows that character. *)
Fixpoint decode_loop (targsize : nat) (src : list Z) (st : b64st)
    : option (b64st * option (list Z)) :=
  match src with
  | [] => Some (st, None)
  | ch :: src =>
    if isspace ch then decode_loop targsize src st
    else if ch =? Pad64 then Some (st, Some src)
    else
      pos ← strchr_Base64 ch;
      st ← decode_char targsize pos st;
      decode_loop targsize src st
  end.

Fixpoint skip_spaces (src : list Z) : list Z :=
  match src with
  | ch :: src' => if isspace ch then skip_spaces src' else src
  | [] => []
  end.

(** The checks after the loop: is the input accepted? *)
Definition decode_end (targsize : nat) (st : b64st) (rest : option (list Z)) : bool :=
  match rest with
  | None => bool_decide (state st = 0%nat)
  | Some src =>
    let slop_ok :=
      match tgt st with
      | Some t => negb (bool_decide (tarindex st < targsize)%nat && negb (t !!! tarindex st =? 0))
      | None => true
      end in
    match state st with
    | 2%nat =>
      match skip_spaces src with
      | ch :: src => (ch =? Pad64) && bool_decide (skip_spaces src = []) && slop_ok
      | [] => false
      end
    | 3%nat => bool_decide (skip_spaces src = []) && slop_ok
    | _ => false
    end
  end.

(** The return value and the target (which keeps what was written before an
    error; the model drops it then). *)
Definition libscrypt_b64_decode (src : list Z) (target : option (list Z)) (targsize : nat)
    : Z * option (list Z) :=
  match decode_loop targsize src (mk_b64st 0 0 target) with
  | None => (-1, None)
  | Some (st, rest) =>
    if decode_end targsize st rest then (Z.of_nat (tarindex st), tgt st) else (-1, None)
  end.

(** ** Reference encoding *)

Fixpoint b64 (src : list Z) : list Z :=
  match src with
  | [] => []
  | [a] => (b64char <$> take 2 (sextets a 0 0)) ++ [Pad64; Pad64]
  | [a; b] => (b64char <$> take 3 (sextets a b 0)) ++ [Pad64]
  | a :: b :: c :: src => (b64char <$> sextets a b c) ++ b64 src
  end.

(** Induction by groups of three, and of four, elements. *)
Lemma list_ind3 (P : list Z -> Prop) :
  P [] -> (forall a, P [a]) -> (forall a b, P [a; b]) ->
  (forall a b c l, P l -> P (a :: b :: c :: l)) -> forall l, P l.
Proof.
  intros H0 H1 H2 H3. fix IH 1. intros [|a [|b [|c l]]]; [done|done|done|]. apply H3, IH.
Qed.

Lemma length_b64 src : length (b64 src) = (4 * ((length src + 2) / 3))%nat.
Proof.
  induction src as [|a|a b|a b c l IH] using list_ind3; [done..|].
  cbn [b64]. rewrite length_app, IH. change (length (b64char <$> sextets a b c)) with 4%nat.
  change (length (a :: b :: c :: l)) with (3 + length l)%nat.
  replace (3 + length l + 2)%nat with ((length l + 2) + 1 * 3)%nat by lia.
  rewrite Nat.div_add by lia. lia.
Qed.

Lemma put4_blit target d c0 c1 c2 c3 :
  (d + 4 <= length target)%nat -> put4 target d [c0; c1; c2; c3] = blit target d [c0; c1; c2; c3].
Proof.
  intros H. unfold put4. cbn -[blit]. rewrite Nat.add_0_r.
  rewrite (insert_as_blit target) by lia. by rewrite !(insert_blit target d) by (simpl; lia).
Qed.

Lemma encode_from_spec src target d targsize :
  (targsize <= length target)%nat -> (d <= targsize)%nat ->
  if decide (d + length (b64 src) < targsize)%nat then
    b64_encode_from src target d targsize =
      (Z.of_nat (d + length (b64 src)), blit target d (b64 src ++ [0]))
  else fst (b64_encode_from src target d targsize) = -1.
Proof.
  intros Ht. revert target d Ht.
  induction src as [|a|a b|a b c l IH] using list_ind3; intros target d Ht Hd.
  - cbn [b64 b64_encode_from length app]. rewrite Nat.add_0_r. case_decide as H1.
    + rewrite decide_False by lia. by rewrite insert_as_blit by lia.
    + by rewrite decide_True by lia.
  - cbn [b64_encode_from]. case_decide as H1; simpl in H1.
    + rewrite decide_False by lia.
      destruct (decide (@nil Z = [])) as [_|]; [|done]. rewrite put4_blit by lia.
      rewrite decide_False by lia. rewrite insert_blit by (simpl; lia). done.
    + case_decide; [done|]. by rewrite decide_True by lia.
  - cbn [b64_encode_from]. case_decide as H1; simpl in H1.
    + rewrite decide_False by lia.
      destruct (decide ([b] = [])) as [|_]; [done|]. rewrite put4_blit by lia.
      rewrite decide_False by lia. rewrite insert_blit by (simpl; lia). done.
    + case_decide; [done|]. by rewrite decide_True by lia.
  - cbn [b64_encode_from b64]. rewrite length_app. cbn [sextets fmap list_fmap length app].
    case_decide as H1.
    + rewrite decide_False by lia. rewrite put4_blit by lia. set (q := [_; _; _; _]).
      specialize (IH (blit target d q) (d + 4)%nat).
      rewrite length_blit in IH by (simpl; lia). rewrite decide_True in IH by lia.
      rewrite IH by lia. f_equal; [lia|].
      change (d + 4)%nat with (d + length q)%nat. rewrite blit_blit by (simpl; lia). done.
    + case_decide; [done|]. rewrite put4_blit by lia. set (q := [_; _; _; _]).
      specialize (IH (blit target d q) (d + 4)%nat).
      rewrite length_blit in IH by (simpl; lia). rewrite decide_False in IH by lia.
      apply IH; lia.
Qed.

(** ** The alphabet *)

Lemma Base64_ok :
  Forall (fun v => strchr_Base64 (b64char (Z.of_nat v)) = Some (Z.of_nat v) /\
    isspace (b64char (Z.of_nat v)) = false /\ b64char (Z.of_nat v) <> Pad64) (seq 0 64).
Proof. repeat (constructor; [by vm_compute|]). constructor. Qed.

Lemma b64char_ok v :
  0 <= v < 64 ->
  strchr_Base64 (b64char v) = Some v /\ isspace (b64char v) = false /\ (b64char v =? Pad64) = false.
Proof.
  intros Hv. pose proof Base64_ok as H. rewrite list.Forall_forall in H.
  destruct (H (Z.to_nat v)) as (H1 & H2 & H3); [apply elem_of_seq; lia|].
  rewrite Z2Nat.id in H1, H2, H3 by lia. split_and!; [done|done|by apply Z.eqb_neq].
Qed.

Lemma strchr_inv ch v : strchr_Base64 ch = Some v -> 0 <= v < 64 /\ ch = b64char v.
Proof.
  unfold strchr_Base64. intros E. apply fmap_Some in E as ([i c] & E & ->).
  apply list_find_Some in E as (E & <- & _). cbn [fst compose].
  pose proof (lookup_lt_Some _ _ _ E) as Hl. change (length Base64) with 64%nat in Hl.
  split; [simpl; lia|]. unfold b64char. simpl. rewrite Nat2Z.id.
  by rewrite (list_lookup_total_correct _ _ _ E).
Qed.

(** ** Sextets as numbers *)

Lemma sextets_eq a b c :
  0 <= b -> 0 <= c -> sextets a b c = [a / 4; a mod 4 * 16 + b / 16; b mod 16 * 4 + c / 64; c mod 64].
Proof.
  intros Hb Hc. unfold sextets.
  rewrite !Z.shiftr_div_pow2, !Z.shiftl_mul_pow2 by lia.
  change 0x03 with (Z.ones 2). change 0x0f with (Z.ones 4). change 0x3f with (Z.ones 6).
  by rewrite !Z.land_ones by lia.
Qed.

(** The bytes a decoder assembles, checked on all pairs of sextets. *)
Definition all64 (f : Z -> Z -> bool) : bool :=
  forallb (fun u => forallb (fun v => f (Z.of_nat u) (Z.of_nat v)) (seq 0 64)) (seq 0 64).
Lemma all64_spec f u v : all64 f = true -> 0 <= u < 64 -> 0 <= v < 64 -> f u v = true.
Proof.
  intros H Hu Hv. unfold all64 in H. rewrite forallb_forall in H.
  specialize (H (Z.to_nat u) ltac:(apply in_seq; lia)). rewrite forallb_forall in H.
  specialize (H (Z.to_nat v) ltac:(apply in_seq; lia)). by rewrite !Z2Nat.id in H by lia.
Qed.

Lemma assemble u v :
  0 <= u < 64 -> 0 <= v < 64 ->
  u8 (u .<< 2) = 4 * u /\ ((4 * u) .| (v .>> 4)) = 4 * u + v / 16 /\
  u8 ((u .& 0x0f) .<< 4) = u mod 16 * 16 /\ ((u mod 16 * 16) .| (v .>> 2)) = u mod 16 * 16 + v / 4 /\
  u8 ((u .& 0x03) .<< 6) = u mod 4 * 64 /\ ((u mod 4 * 64) .| v) = u mod 4 * 64 + v.
Proof.
  intros Hu Hv.
  assert (all64 (fun u v =>
    (u8 (u .<< 2) =? 4 * u) && (((4 * u) .| (v .>> 4)) =? 4 * u + v / 16) &&
    (u8 ((u .& 0x0f) .<< 4) =? u mod 16 * 16) && (((u mod 16 * 16) .| (v .>> 2)) =? u mod 16 * 16 + v / 4) &&
    (u8 ((u .& 0x03) .<< 6) =? u mod 4 * 64) && (((u mod 4 * 64) .| v) =? u mod 4 * 64 + v)) = true) as H
    by (vm_compute; reflexivity).
  apply (all64_spec _ u v) in H; [|done..].
  rewrite !andb_true_iff, !Z.eqb_eq in H. tauto.
Qed.

(** ** One character of each state, the target being written from [i] on *)

Section decode.
Context (n : nat) (t : list Z) (Hn : (n <= length t)%nat).

Lemma decode0 v i :
  0 <= v < 64 -> (i < n)%nat ->
  decode_char n v (mk_b64st 0 i (Some t)) = Some (mk_b64st 1 i (Some (blit t i [4 * v]))).
Proof.
  intros Hv Hi. unfold decode_char. cbn [state tarindex tgt]. rewrite decide_False by lia.
  destruct (assemble v 0 Hv ltac:(lia)) as (-> & _). by rewrite insert_as_blit by lia.
Qed.

(** Assembling the byte at [i + k] and starting the next one. *)
Lemma put_pair i pre x y nb :
  (i + length pre < n)%nat ->
  let t1 := <[(i + length pre)%nat := (blit t i (pre ++ [x]) !!! (i + length pre)%nat) .| y]>
              (blit t i (pre ++ [x])) in
  put_next n (i + length pre) nb t1 =
    if decide (i + length pre + 1 < n)%nat then Some (blit t i (pre ++ [x .| y; nb]))
    else if nb =? 0 then Some (blit t i (pre ++ [x .| y])) else None.
Proof.
  intros Hi t1. assert (t1 = blit t i (pre ++ [x .| y])) as ->.
  { unfold t1. rewrite list_lookup_total_alt, lookup_blit by (simpl_len; simpl; lia).
    rewrite list_lookup_middle by done. cbn [default].
    rewrite (insert_in_blit t i _ (length pre)) by (simpl_len; simpl; lia).
    rewrite insert_app_r_alt by lia. by rewrite Nat.sub_diag. }
  unfold put_next. case_decide; [|done]. f_equal.
  rewrite insert_blit by (simpl_len; simpl; lia). by rewrite <-app_assoc.
Qed.

Lemma decode1 u v i :
  0 <= u < 64 -> 0 <= v < 64 -> (i < n)%nat ->
  decode_char n v (mk_b64st 1 i (Some (blit t i [4 * u]))) =
    if decide (i + 1 < n)%nat
    then Some (mk_b64st 2 (S i) (Some (blit t i [4 * u + v / 16; v mod 16 * 16])))
    else if v mod 16 * 16 =? 0
    then Some (mk_b64st 2 (S i) (Some (blit t i [4 * u + v / 16]))) else None.
Proof.
  intros Hu Hv Hi. unfold decode_char. cbn [state tarindex tgt]. rewrite decide_False by lia.
  pose proof (put_pair i [] (4 * u) (v .>> 4) (u8 ((v .& 0x0f) .<< 4))) as H.
  cbn [length app] in H. rewrite Nat.add_0_r in H. cbv zeta in H. rewrite H by lia. clear H.
  destruct (assemble u v Hu Hv) as (_ & -> & _).
  destruct (assemble v 0 Hv ltac:(lia)) as (_ & _ & -> & _).
  case_decide; [done|]. by destruct (v mod 16 * 16 =? 0).
Qed.

Lemma decode2 w u v i :
  0 <= u < 64 -> 0 <= v < 64 ->
  decode_char n v (mk_b64st 2 (S i) (Some (blit t i [w; u mod 16 * 16]))) =
    if decide (n <= i + 1)%nat then None
    else if decide (i + 2 < n)%nat
    then Some (mk_b64st 3 (S (S i)) (Some (blit t i [w; u mod 16 * 16 + v / 4; v mod 4 * 64])))
    else if v mod 4 * 64 =? 0
    then Some (mk_b64st 3 (S (S i)) (Some (blit t i [w; u mod 16 * 16 + v / 4]))) else None.
Proof.
  intros Hu Hv. unfold decode_char. cbn [state tarindex tgt].
  case_decide; [by rewrite decide_True by lia|]. rewrite decide_False by lia.
  pose proof (put_pair i [w] (u mod 16 * 16) (v .>> 2) (u8 ((v .& 0x03) .<< 6))) as H1.
  cbn [length app] in H1. rewrite Nat.add_1_r in H1. cbv zeta in H1. rewrite H1 by lia. clear H1.
  destruct (assemble u v Hu Hv) as (_ & _ & _ & -> & _).
  destruct (assemble v 0 Hv ltac:(lia)) as (_ & _ & _ & _ & -> & _).
  replace (S i + 1)%nat with (i + 2)%nat by lia. case_decide; [done|]. by destruct (v mod 4 * 64 =? 0).
Qed.

Lemma decode3 w x u v i :
  0 <= u < 64 -> 0 <= v < 64 ->
  decode_char n v (mk_b64st 3 (S (S i)) (Some (blit t i [w; x; u mod 4 * 64]))) =
    if decide (n <= i + 2)%nat then None
    else Some (mk_b64st 0 (i + 3) (Some (blit t i [w; x; u mod 4 * 64 + v]))).
Proof.
  intros Hu Hv. unfold decode_char. cbn [state tarindex tgt].
  case_decide; [by rewrite decide_True by lia|]. rewrite decide_False by lia.
  replace (S (S i)) with (i + 2)%nat by lia.
  rewrite list_lookup_total_alt, lookup_blit by (simpl; lia). cbn [lookup list_lookup default].
  rewrite (insert_in_blit t i _ 2) by (simpl; lia). cbn.
  destruct (assemble u v Hu Hv) as (_ & _ & _ & _ & _ & E). unfold id. rewrite E.
  do 3 f_equal. lia.
Qed.

End decode.

(** ** The loop *)

Lemma decode_loop_char n v s st :
  0 <= v < 64 ->
  decode_loop n (b64char v :: s) st = st' ← decode_char n v st; decode_loop n s st'.
Proof.
  intros Hv. destruct (b64char_ok v Hv) as (H1 & H2 & H3). cbn [decode_loop].
  by rewrite H2, H3, H1.
Qed.

Lemma decode_loop_inv n c s st r :
  isspace c = false -> decode_loop n (c :: s) st = Some r ->
  (c = Pad64 /\ r = (st, Some s)) \/
  exists v st', 0 <= v < 64 /\ c = b64char v /\ decode_char n v st = Some st' /\
    decode_loop n s st' = Some r.
Proof.
  intros Hs. cbn [decode_loop]. rewrite Hs. destruct (Z.eqb_spec c Pad64) as [->|Hp].
  - intros [= <-]. by left.
  - intros E. right. destruct (strchr_Base64 c) as [v|] eqn:Ev; [|done].
    apply strchr_inv in Ev as [Hv ->]. cbn [mbind option_bind] in E.
    destruct (decode_char n v st) as [st'|] eqn:Ed; [|done]. by exists v, st'.
Qed.

Ltac divmod := Z.div_mod_to_equations; lia.

(** What an accepted run leaves: the bytes [out] from [i] on. *)
Definition decoded (n i : nat) (t out : list Z) (st : b64st) (rest : option (list Z)) : Prop :=
  decode_end n st rest = true /\ tarindex st = (i + length out)%nat /\
  exists t', tgt st = Some t' /\ length t' = length t /\ take (i + length out) t' = take i t ++ out.

(** The final states of a run: after a pad in state 2 or 3, with the bytes [out]
    and possibly a zero byte behind them. *)
Lemma decoded_pad n i t out tl s rest :
  (n <= length t)%nat -> (i + length out <= n)%nat ->
  (tl = [] /\ (i + length out = n)%nat \/ tl = [0] /\ (i + length out < n)%nat) ->
  (s = 2%nat /\ rest = [Pad64] \/ s = 3%nat /\ rest = []) ->
  decoded n i t out (mk_b64st s (i + length out) (Some (blit t i (out ++ tl)))) (Some rest).
Proof.
  intros Hn Ho Htl Hs.
  assert (length (out ++ tl) <= length t - i)%nat as Hl.
  { rewrite length_app. destruct Htl as [[-> ?]|[-> ?]]; simpl; lia. }
  split_and!; [|done|].
  - assert (negb (bool_decide (i + length out < n)%nat &&
      negb (blit t i (out ++ tl) !!! (i + length out)%nat =? 0)) = true) as Hslop.
    { destruct Htl as [[-> H]|[-> H]]; [by rewrite bool_decide_false by lia|].
      rewrite list_lookup_total_alt, lookup_blit by (simpl_len; simpl; lia).
      rewrite list_lookup_middle by done. by rewrite bool_decide_true by lia. }
    unfold decode_end. cbn [tgt state tarindex].
    destruct Hs as [[-> ->]|[-> ->]]; cbn; rewrite Hslop; done.
  - eexists. split; [done|]. split; [apply length_blit; rewrite length_app in *; lia|].
    unfold blit. rewrite <-(app_assoc out). rewrite (app_assoc (take i t)).
    apply take_app_length'. simpl_len. lia.
Qed.

Lemma decoded_app n i t a b c out st rest :
  (n <= length t)%nat -> (i + 3 <= n)%nat ->
  decoded n (i + 3) (blit t i [a; b; c]) out st rest ->
  decoded n i t (a :: b :: c :: out) st rest.
Proof.
  intros Hn Hi (He & Hti & t' & Ht & Hl & Hk). split_and!; [done|simpl; lia|].
  exists t'. split; [done|]. rewrite length_blit in Hl by (simpl; lia). split; [done|].
  replace (i + length (a :: b :: c :: out))%nat with (i + 3 + length out)%nat by (simpl; lia).
  rewrite Hk. unfold blit. rewrite app_assoc. rewrite take_app_length' by (simpl_len; simpl; lia).
  by rewrite <-app_assoc.
Qed.

Ltac decode_step := rewrite decode_loop_char by divmod.

(** One quantum of each size. *)
Section quanta.
Context (n : nat) (t : list Z) (i : nat) (Hn : (n <= length t)%nat).

Lemma decode_one a :
  is_byte a -> (i + 1 <= n)%nat ->
  exists st rest, decode_loop n (b64 [a]) (mk_b64st 0 i (Some t)) = Some (st, rest) /\
    decoded n i t [a] st rest.
Proof.
  intros Ha Hi. cbn [b64]. rewrite sextets_eq by lia. unfold is_word in *. cbn [take fmap list_fmap app].
  decode_step. rewrite decode0 by (done || divmod). cbn [mbind option_bind].
  decode_step. rewrite decode1 by (done || divmod).
  replace (4 * (a / 4) + (a mod 4 * 16 + 0 / 16) / 16) with a by divmod.
  replace ((a mod 4 * 16 + 0 / 16) mod 16 * 16) with 0 by divmod.
  pose proof (decoded_pad n i t [a]) as H. cbn [length app] in H. rewrite Nat.add_1_r in H.
  case_decide; cbn [mbind option_bind Z.eqb]; do 2 eexists; (split; [reflexivity|]).
  - apply (H [0] 2%nat); auto with lia.
  - apply (H [] 2%nat); auto with lia.
Qed.

Lemma decode_two a b :
  is_byte a -> is_byte b -> (i + 2 <= n)%nat ->
  exists st rest, decode_loop n (b64 [a; b]) (mk_b64st 0 i (Some t)) = Some (st, rest) /\
    decoded n i t [a; b] st rest.
Proof.
  intros Ha Hb Hi. unfold is_word in *. cbn [b64]. rewrite sextets_eq by lia.
  cbn [take fmap list_fmap app].
  decode_step. rewrite decode0 by (done || divmod). cbn [mbind option_bind].
  decode_step. rewrite decode1 by (done || divmod). rewrite decide_True by lia. cbn [mbind option_bind].
  decode_step. rewrite decode2 by (done || divmod). rewrite decide_False by lia.
  replace (4 * (a / 4) + (a mod 4 * 16 + b / 16) / 16) with a by divmod.
  replace ((a mod 4 * 16 + b / 16) mod 16 * 16 + (b mod 16 * 4 + 0 / 64) / 4) with b by divmod.
  replace ((b mod 16 * 4 + 0 / 64) mod 4 * 64) with 0 by divmod.
  pose proof (decoded_pad n i t [a; b]) as H. cbn [length app] in H.
  replace (S (S i)) with (i + 2)%nat by lia.
  case_decide; cbn [mbind option_bind Z.eqb]; do 2 eexists; (split; [reflexivity|]).
  - apply (H [0] 3%nat); auto with lia.
  - apply (H [] 3%nat); auto with lia.
Qed.

Lemma decode_three a b c s :
  is_byte a -> is_byte b -> is_byte c -> (i + 3 <= n)%nat ->
  decode_loop n ((b64char <$> sextets a b c) ++ s) (mk_b64st 0 i (Some t)) =
    decode_loop n s (mk_b64st 0 (i + 3) (Some (blit t i [a; b; c]))).
Proof.
  intros Ha Hb Hc Hi. unfold is_word in *. rewrite sextets_eq by lia. cbn [fmap list_fmap app].
  decode_step. rewrite decode0 by (done || divmod). cbn [mbind option_bind].
  decode_step. rewrite decode1 by (done || divmod). rewrite decide_True by lia. cbn [mbind option_bind].
  decode_step. rewrite decode2 by (done || divmod). rewrite decide_False, decide_True by lia.
  cbn [mbind option_bind].
  decode_step. rewrite decode3 by (done || divmod). rewrite decide_False by lia. cbn [mbind option_bind].
  replace (4 * (a / 4) + (a mod 4 * 16 + b / 16) / 16) with a by divmod.
  replace ((a mod 4 * 16 + b / 16) mod 16 * 16 + (b mod 16 * 4 + c / 64) / 4) with b by divmod.
  by replace ((b mod 16 * 4 + c / 64) mod 4 * 64 + c mod 64) with c by divmod.
Qed.
End quanta.

Lemma decode_b64 n t i src :
  (n <= length t)%nat -> bytes src -> (i + length src <= n)%nat ->
  exists st rest, decode_loop n (b64 src) (mk_b64st 0 i (Some t)) = Some (st, rest) /\
    decoded n i t src st rest.
Proof.
  intros Hn Hb. revert t i Hn Hb.
  induction src as [|a|a b|a b c l IH] using list_ind3; intros t i Hn Hb Hi;
    cbn [length] in Hi; inv_Forall.
  - exists (mk_b64st 0 i (Some t)), None. split; [done|]. split_and!; [done|simpl; lia|].
    exists t. rewrite Nat.add_0_r, app_nil_r. done.
  - by apply decode_one.
  - by apply decode_two.
  - cbn [b64]. rewrite decode_three by (done || lia).
    destruct (IH (blit t i [a; b; c]) (i + 3)%nat) as (st & rest & E & Hd);
      [rewrite length_blit; simpl; lia|done|lia|].
    exists st, rest. split; [done|]. apply decoded_app; [done|lia|done].
Qed.

(** ** Accepted input is canonical *)

Abbreviation nospace := (Forall (fun c => isspace c = false)).

Lemma decode_full n v s i t : (n <= i)%nat -> decode_char n v (mk_b64st s i (Some t)) = None.
Proof. intros. unfold decode_char. cbn [tgt tarindex]. by rewrite decide_True. Qed.

Lemma skip_nospace s : nospace s -> skip_spaces s = s.
Proof. destruct 1 as [|c s Hc]; [done|]. simpl. by rewrite Hc. Qed.

(** The end of a run after a pad, for input without spaces. *)
Lemma end_pad2 n i t rest :
  nospace rest -> decode_end n (mk_b64st 2 i (Some t)) (Some rest) = true ->
  rest = [Pad64] /\ ((i < n)%nat -> t !!! i = 0).
Proof.
  intros Hr. unfold decode_end. cbn [state tgt tarindex]. rewrite skip_nospace by done.
  destruct Hr as [|c r Hc Hr]; [done|]. rewrite skip_nospace by done.
  rewrite !andb_true_iff, Z.eqb_eq, bool_decide_eq_true, negb_true_iff.
  intros ((-> & ->) & H). split; [done|]. intros Hi.
  rewrite bool_decide_true in H by done. apply negb_false_iff in H. by apply Z.eqb_eq.
Qed.

Lemma end_pad3 n i t rest :
  nospace rest -> decode_end n (mk_b64st 3 i (Some t)) (Some rest) = true ->
  rest = [] /\ ((i < n)%nat -> t !!! i = 0).
Proof.
  intros Hr. unfold decode_end. cbn [state tgt tarindex]. rewrite skip_nospace by done.
  rewrite !andb_true_iff, bool_decide_eq_true, negb_true_iff.
  intros (-> & H). split; [done|]. intros Hi.
  rewrite bool_decide_true in H by done. apply negb_false_iff in H. by apply Z.eqb_eq.
Qed.

(** The value behind the bytes of a write. *)
Lemma blit_after (t : list Z) i pre x k :
  k = (i + length pre)%nat -> (k < length t)%nat -> blit t i (pre ++ [x]) !!! k = x.
Proof.
  intros -> H. rewrite list_lookup_total_alt, lookup_blit by (simpl_len; simpl; lia).
  by rewrite list_lookup_middle.
Qed.

(** Runs that are accepted, from the middle of a quantum on. *)
Section canonical.
Context (n : nat) (t : list Z) (i : nat) (Hn : (n <= length t)%nat).
Implicit Types s : list Z.

Definition accepted (s : list Z) (st0 : b64st) : Prop :=
  nospace s /\ exists st rest, decode_loop n s st0 = Some (st, rest) /\ decode_end n st rest = true.

(** The first character: a pad, with the checks of the end, or one of the
    alphabet. *)
Lemma accepted_cons s st0 :
  accepted s st0 ->
  (s = [] /\ state st0 = 0%nat) \/
  (exists s', s = Pad64 :: s' /\ nospace s' /\ decode_end n st0 (Some s') = true) \/
  exists v s' st', 0 <= v < 64 /\ s = b64char v :: s' /\ decode_char n v st0 = Some st' /\
    accepted s' st'.
Proof.
  intros (Hs & st & rest & E & He). destruct Hs as [|c s Hc Hs].
  { injection E as <- <-. left. split; [done|]. by apply bool_decide_eq_true in He. }
  right. apply decode_loop_inv in E as [(-> & [= -> ->])|(v & st' & Hv & -> & Ed & E)]; [|..|done].
  - left. by exists s.
  - right. exists v, s, st'. repeat (split; [done|]). by exists st, rest.
Qed.

Lemma inv_state3 b0 b1 w s :
  0 <= w < 64 -> (i + 2 <= n)%nat ->
  accepted s (mk_b64st 3 (S (S i)) (Some (blit t i
    (if decide (i + 2 < n)%nat then [b0; b1; w mod 4 * 64] else [b0; b1])))) ->
  ((i + 2 < n)%nat \/ w mod 4 = 0) ->
  s = [Pad64] /\ w mod 4 = 0 \/
  exists x s', 0 <= x < 64 /\ s = b64char x :: s' /\ (i + 3 <= n)%nat /\
    accepted s' (mk_b64st 0 (i + 3) (Some (blit t i [b0; b1; w mod 4 * 64 + x]))).
Proof.
  intros Hw Hi Ha H0.
  apply accepted_cons in Ha as [[_ ?]|[(s' & -> & Hs & He)|(x & s' & st' & Hx & -> & Ed & Ha)]]; [done|..].
  - left. apply end_pad3 in He as [-> H]; [|done]. split; [done|].
    case_decide; [|lia]. specialize (H ltac:(lia)).
    pose proof (blit_after t i [b0; b1] (w mod 4 * 64) (S (S i))) as Hb. cbn [app] in Hb.
    rewrite Hb in H by (simpl; lia). lia.
  - right. exists x, s'. case_decide; [|by rewrite decode_full in Ed by lia].
    rewrite decode3 in Ed by done. rewrite decide_False in Ed by lia. injection Ed as <-.
    split_and!; (done || lia).
Qed.

Lemma inv_state2 b0 v s :
  0 <= v < 64 -> (i + 1 <= n)%nat ->
  accepted s (mk_b64st 2 (S i) (Some (blit t i
    (if decide (i + 1 < n)%nat then [b0; v mod 16 * 16] else [b0])))) ->
  ((i + 1 < n)%nat \/ v mod 16 = 0) ->
  s = [Pad64; Pad64] /\ v mod 16 = 0 \/
  exists w s', 0 <= w < 64 /\ s = b64char w :: s' /\ (i + 2 <= n)%nat /\
    ((i + 2 < n)%nat \/ w mod 4 = 0) /\
    accepted s' (mk_b64st 3 (S (S i)) (Some (blit t i
      (if decide (i + 2 < n)%nat then [b0; v mod 16 * 16 + w / 4; w mod 4 * 64]
       else [b0; v mod 16 * 16 + w / 4])))).
Proof.
  intros Hv Hi Ha H0.
  apply accepted_cons in Ha as [[_ ?]|[(s' & -> & Hs & He)|(x & s' & st' & Hx & -> & Ed & Ha)]]; [done|..].
  - left. apply end_pad2 in He as [-> H]; [|done]. split; [done|].
    case_decide; [|lia]. specialize (H ltac:(lia)).
    pose proof (blit_after t i [b0] (v mod 16 * 16) (S i)) as Hb. cbn [app] in Hb.
    rewrite Hb in H by (simpl; lia). lia.
  - right. exists x, s'. case_decide; [|by rewrite decode_full in Ed by lia].
    rewrite decode2 in Ed by done. rewrite decide_False in Ed by lia.
    destruct (decide (i + 2 < n)%nat).
    + injection Ed as <-. split_and!; auto with lia.
    + destruct (Z.eqb_spec (x mod 4 * 64) 0); [|done]. injection Ed as <-. split_and!; auto with lia.
Qed.

Lemma inv_state0 s :
  accepted s (mk_b64st 0 i (Some t)) ->
  s = [] \/
  exists u v s', 0 <= u < 64 /\ 0 <= v < 64 /\ s = b64char u :: b64char v :: s' /\ (i + 1 <= n)%nat /\
    ((i + 1 < n)%nat \/ v mod 16 = 0) /\
    accepted s' (mk_b64st 2 (S i) (Some (blit t i
      (if decide (i + 1 < n)%nat then [4 * u + v / 16; v mod 16 * 16] else [4 * u + v / 16])))).
Proof.
  intros Ha.
  apply accepted_cons in Ha as [[-> _]|[(s' & -> & Hs & He)|(u & s' & st' & Hu & -> & Ed & Ha)]];
    [by left|done|].
  right. destruct (decide (i < n)%nat); [|by rewrite decode_full in Ed by lia].
  rewrite decode0 in Ed by done. injection Ed as <-.
  apply accepted_cons in Ha as [[_ ?]|[(s2 & -> & Hs & He)|(v & s2 & st' & Hv & -> & Ed & Ha)]];
    [done|done|].
  exists u, v, s2. rewrite decode1 in Ed by done. destruct (decide (i + 1 < n)%nat).
  - injection Ed as <-. split_and!; auto with lia.
  - destruct (Z.eqb_spec (v mod 16 * 16) 0); [|done]. injection Ed as <-. split_and!; auto with lia.
Qed.

Lemma quantum_inv s :
  (i <= n)%nat -> accepted s (mk_b64st 0 i (Some t)) ->
  (exists out, s = b64 out /\ bytes out /\ (i + length out <= n)%nat) \/
  exists a b c s', bytes [a; b; c] /\ s = (b64char <$> sextets a b c) ++ s' /\ (i + 3 <= n)%nat /\
    accepted s' (mk_b64st 0 (i + 3) (Some (blit t i [a; b; c]))).
Proof.
  intros H0 Ha. apply inv_state0 in Ha as [->|(u & v & s' & Hu & Hv & -> & Hi & H1 & Ha)].
  { left. exists []. split_and!; [done|done|simpl; lia]. }
  apply inv_state2 in Ha as [[-> Hz]|(w & s2 & Hw & -> & Hi2 & H2 & Ha)]; [..|done|done|done].
  { left. exists [4 * u + v / 16]. cbn [b64]. rewrite sextets_eq by lia. split_and!.
    - cbn [take fmap list_fmap app]. repeat (apply (f_equal2 cons); [f_equal; divmod|]). done.
    - apply Forall_singleton. unfold is_word. divmod.
    - simpl. lia. }
  apply inv_state3 in Ha as [[-> Hz]|(x & s3 & Hx & -> & Hi3 & Ha)]; [..|done|done|done].
  { left. exists [4 * u + v / 16; v mod 16 * 16 + w / 4]. cbn [b64].
    rewrite sextets_eq by divmod. split_and!.
    - cbn [take fmap list_fmap app]. repeat (apply (f_equal2 cons); [f_equal; divmod|]). done.
    - repeat constructor; unfold is_word; divmod.
    - simpl. lia. }
  right. exists (4 * u + v / 16), (v mod 16 * 16 + w / 4), (w mod 4 * 64 + x), s3.
  split_and!; [repeat constructor; unfold is_word; divmod| |lia|done].
  rewrite sextets_eq by divmod. cbn [fmap list_fmap app].
  repeat (apply (f_equal2 cons); [f_equal; divmod|]). done.
Qed.
End canonical.

Lemma accepted_b64 n t i s :
  (n <= length t)%nat -> (i <= n)%nat -> accepted n s (mk_b64st 0 i (Some t)) ->
  exists out, s = b64 out /\ bytes out /\ (i + length out <= n)%nat.
Proof.
  intros Hn. remember (length s) as k eqn:Hk. revert t i s Hn Hk.
  induction k as [k IH] using lt_wf_ind. intros t i s Hn Hk Hi Ha.
  apply quantum_inv in Ha as [H|(a & b & c & s' & Hb & -> & Hi3 & Ha)]; [done|..|done|done].
  destruct (IH (length s') ltac:(rewrite Hk, length_app; simpl; lia)
    (blit t i [a; b; c]) (i + 3)%nat s') as (out & -> & Ho & Hl);
    [rewrite length_blit; simpl; lia|done|lia|done|].
  exists (a :: b :: c :: out). split_and!; [done| |simpl; lia].
  by apply (Forall_app_2 _ [a; b; c]).
Qed.

(** ** Whitespace *)

Definition strip (s : list Z) : list Z := List.filter (fun c => negb (isspace c)) s.

Lemma strip_nospace s : nospace (strip s).
Proof.
  apply list.Forall_forall. intros c Hc. apply list_elem_of_In, filter_In in Hc as [_ Hc].
  by apply negb_true_iff.
Qed.

Lemma decode_loop_strip n s st :
  decode_loop n (strip s) st = option_map (fun r => (fst r, option_map strip (snd r))) (decode_loop n s st).
Proof.
  revert st. induction s as [|c s IH]; intros st; [done|]. cbn [strip List.filter decode_loop].
  destruct (isspace c) eqn:Ec; cbn [negb]; [apply IH|]. cbn [decode_loop]. rewrite Ec.
  destruct (c =? Pad64); [done|]. destruct (strchr_Base64 c) as [v|]; [|done].
  cbn [mbind option_bind]. destruct (decode_char n v st); [|done]. apply IH.
Qed.

Lemma skip_strip s :
  strip s = match skip_spaces s with [] => [] | c :: r => c :: strip r end.
Proof.
  induction s as [|c s IH]; [done|]. cbn [strip List.filter skip_spaces].
  by destruct (isspace c) eqn:Ec.
Qed.

Lemma decode_end_strip n st rest : decode_end n st (option_map strip rest) = decode_end n st rest.
Proof.
  destruct rest as [s|]; [|done]. cbn [option_map]. unfold decode_end.
  rewrite (skip_nospace (strip s)) by apply strip_nospace.
  assert (bool_decide (strip s = []) = bool_decide (skip_spaces s = [])) as E.
  { rewrite skip_strip. by destruct (skip_spaces s). }
  rewrite E, skip_strip. destruct (skip_spaces s) as [|c r]; [done|].
  rewrite (skip_nospace (strip r)) by apply strip_nospace.
  assert (bool_decide (strip r = []) = bool_decide (skip_spaces r = [])) as ->; [|done].
  rewrite skip_strip. by destruct (skip_spaces r).
Qed.

Lemma decode_strip s target n :
  libscrypt_b64_decode (strip s) target n = libscrypt_b64_decode s target n.
Proof.
  unfold libscrypt_b64_decode. rewrite decode_loop_strip.
  destruct (decode_loop n s _) as [[st rest]|]; [|done]. simpl. by rewrite decode_end_strip.
Qed.

(** ** Theorems *)

(** For every input and every target that is as large as
    [targsize] says, libscrypt_b64_encode returns -1 exactly when the encoding and
    its terminating zero do not fit; otherwise it returns the length of the
    encoding, 4 characters for every group of up to 3 bytes, and writes exactly
    that text and the zero. *)
Lemma b64_encode_spec src target targsize :
  (targsize <= length target)%nat ->
  length (b64 src) = (4 * ((length src + 2) / 3))%nat /\
  (fst (libscrypt_b64_encode src target targsize) = -1 <-> (targsize <= length (b64 src))%nat) /\
  ((length (b64 src) < targsize)%nat ->
    libscrypt_b64_encode src target targsize =
      (Z.of_nat (length (b64 src)), blit target 0 (b64 src ++ [0]))).
Proof.
  intros Ht. split; [apply length_b64|]. unfold libscrypt_b64_encode.
  pose proof (encode_from_spec src target 0 targsize Ht ltac:(lia)) as H. cbn [plus] in H.
  case_decide; (split; [split|]); intros H2; try lia; try done.
  rewrite H in H2. simpl in H2. lia.
Qed.

Lemma b64_encode_spec_witness :
  fst (libscrypt_b64_encode [1; 2; 3; 4] (replicate 9 7) 9) = 8 /\
  (fst (libscrypt_b64_encode [1; 2; 3; 4] (replicate 9 7) 9) = -1 <->
     (9 <= length (b64 [1; 2; 3; 4]%Z))%nat).
Proof. split; [done|]. apply (b64_encode_spec [1; 2; 3; 4] (replicate 9 7) 9). done. Defined.

(** Decoding the text the encoder produced, with any whitespace
    inserted anywhere, into a target of at least the original length returns that
    length and the original bytes. *)
Theorem b64_roundtrip src text target targsize :
  bytes src -> strip text = b64 src -> (length src <= targsize <= length target)%nat ->
  exists target',
    libscrypt_b64_decode text (Some target) targsize = (Z.of_nat (length src), Some target') /\
    length target' = length target /\ take (length src) target' = src.
Proof.
  intros Hb Hs Ht. rewrite <-decode_strip, Hs. unfold libscrypt_b64_decode.
  destruct (decode_b64 targsize target 0 src) as (st & rest & -> & He & Hi & t' & Hst & Hl & Hk);
    [lia|done|lia|].
  rewrite He, Hi, Hst. exists t'. split_and!; [done|done|]. by rewrite take_0 in Hk.
Qed.

Lemma b64_roundtrip_witness :
  exists target',
    libscrypt_b64_decode [65; 81; 32; 73; 10; 61] (Some [9; 9; 9]) 2 = (2, Some target') /\
    length target' = 3%nat /\ take 2 target' = [1; 2].
Proof.
  apply (b64_roundtrip [1; 2] [65; 81; 32; 73; 10; 61] [9; 9; 9] 2);
    [by repeat constructor|done|simpl; lia].
Defined.

(** The decoder is not malleable: whenever it accepts a text for a
    non-null target, the text without its whitespace is exactly the encoding of the
    bytes it returned (no stray characters, no missing or extra padding, no nonzero
    slop bits), and it never writes more than [targsize] bytes. *)
Theorem b64_canonical text target targsize r target' :
  (targsize <= length target)%nat ->
  libscrypt_b64_decode text (Some target) targsize = (r, Some target') ->
  exists out, strip text = b64 out /\ bytes out /\ r = Z.of_nat (length out) /\
    (length out <= targsize)%nat /\ take (length out) target' = out /\
    length target' = length target.
Proof.
  intros Ht. rewrite <-decode_strip. unfold libscrypt_b64_decode.
  destruct (decode_loop _ _ _) as [[st rest]|] eqn:E; [|done].
  destruct (decode_end targsize st rest) eqn:He; [|done]. intros [= <- Hst].
  destruct (accepted_b64 targsize target 0 (strip text)) as (out & Hs & Hb & Hl); [done|lia| |].
  { split; [apply strip_nospace|]. by exists st, rest. }
  exists out. rewrite Hs in E.
  destruct (decode_b64 targsize target 0 out) as (st' & rest' & E' & _ & Hi & t' & Hst' & Hlt & Hk);
    [done|done|done|].
  rewrite E in E'. simplify_eq. rewrite take_0 in Hk. by rewrite Hi.
Qed.

Lemma b64_canonical_witness :
  exists out, strip [65; 81; 61; 32; 61] = b64 out /\ bytes out /\ 1 = Z.of_nat (length out) /\
    (length out <= 1)%nat /\ take (length out) [1] = out /\ length [1] = length [9].
Proof. apply (b64_canonical [65; 81; 61; 32; 61] [9] 1 1 [1]); done. Defined.
