(* ===== verification/Sha256.v ===== *)
(** * utils/libscrypt/sysendian.h, sha256.c: SHA-256, HMAC-SHA-256 and PBKDF2

    The compression function on a rotating working array, the streaming context
    with its two-word bit counter, HMAC over two contexts and PBKDF2, with the
    proofs that they compute FIPS 180-4, RFC 2104 and RFC 8018. Memory that the
    code clears at the end of a function (W, S, contexts) has no later reader and
    is not modelled. *)

From S2P Require Import Prelude Words.

(** ** sysendian.h: byte order conversions

    The eight conversions, as the code writes them, and the proof that they are
    the big- and little-endian codecs of Words.v.  A pointer argument is the list
    of bytes from it on; an encoder returns the bytes it stores. *)

Definition be32dec (p : list Z) : Z :=
  u32 ((p !!! 3%nat) + ((p !!! 2%nat) .<< 8) + ((p !!! 1%nat) .<< 16) + ((p !!! 0%nat) .<< 24)).

Definition be32enc (x : Z) : list Z :=
  [(x .>> 24) .& 0xff; (x .>> 16) .& 0xff; (x .>> 8) .& 0xff; x .& 0xff].

Definition be64dec (p : list Z) : Z :=
  u64 ((p !!! 7%nat) + ((p !!! 6%nat) .<< 8) + ((p !!! 5%nat) .<< 16) + ((p !!! 4%nat) .<< 24)
       + ((p !!! 3%nat) .<< 32) + ((p !!! 2%nat) .<< 40) + ((p !!! 1%nat) .<< 48)
       + ((p !!! 0%nat) .<< 56)).

Definition be64enc (x : Z) : list Z :=
  [(x .>> 56) .& 0xff; (x .>> 48) .& 0xff; (x .>> 40) .& 0xff; (x .>> 32) .& 0xff;
   (x .>> 24) .& 0xff; (x .>> 16) .& 0xff; (x .>> 8) .& 0xff; x .& 0xff].

Definition le32dec (p : list Z) : Z :=
  u32 ((p !!! 0%nat) + ((p !!! 1%nat) .<< 8) + ((p !!! 2%nat) .<< 16) + ((p !!! 3%nat) .<< 24)).

Definition le32enc (x : Z) : list Z :=
  [x .& 0xff; (x .>> 8) .& 0xff; (x .>> 16) .& 0xff; (x .>> 24) .& 0xff].

Definition le64dec (p : list Z) : Z :=
  u64 ((p !!! 0%nat) + ((p !!! 1%nat) .<< 8) + ((p !!! 2%nat) .<< 16) + ((p !!! 3%nat) .<< 24)
       + ((p !!! 4%nat) .<< 32) + ((p !!! 5%nat) .<< 40) + ((p !!! 6%nat) .<< 48)
       + ((p !!! 7%nat) .<< 56)).

Definition le64enc (x : Z) : list Z :=
  [x .& 0xff; (x .>> 8) .& 0xff; (x .>> 16) .& 0xff; (x .>> 24) .& 0xff;
   (x .>> 32) .& 0xff; (x .>> 40) .& 0xff; (x .>> 48) .& 0xff; (x .>> 56) .& 0xff].

(** ** They are the codecs *)

Ltac le_sum := rewrite !Z.shiftl_mul_pow2 by lia; rewrite !le_of_bytes_cons by done; simpl; lia.

Lemma le32dec_spec p : length p = 4%nat -> bytes p -> le32dec p = le_of_bytes p.
Proof.
  intros Hl Hb. pose proof (le_of_bytes_range p Hb) as Hr. rewrite Hl in Hr.
  destruct_list p Hl. inv_Forall. rewrite <-(u32_id (le_of_bytes _)) by exact Hr.
  unfold le32dec. f_equal. cbn [lookup_total list_lookup_total]. le_sum.
Qed.

Lemma le64dec_spec p : length p = 8%nat -> bytes p -> le64dec p = le_of_bytes p.
Proof.
  intros Hl Hb. pose proof (le_of_bytes_range p Hb) as Hr. rewrite Hl in Hr.
  destruct_list p Hl. inv_Forall. rewrite <-(u64_id (le_of_bytes _)) by exact Hr.
  unfold le64dec. f_equal. cbn [lookup_total list_lookup_total]. le_sum.
Qed.

Lemma be32dec_spec p : length p = 4%nat -> bytes p -> be32dec p = be_of_bytes p.
Proof.
  intros Hl Hb. unfold be_of_bytes. rewrite <-le32dec_spec; [|by rewrite length_reverse|by apply Forall_reverse].
  by destruct_list p Hl.
Qed.

Lemma be64dec_spec p : length p = 8%nat -> bytes p -> be64dec p = be_of_bytes p.
Proof.
  intros Hl Hb. unfold be_of_bytes. rewrite <-le64dec_spec; [|by rewrite length_reverse|by apply Forall_reverse].
  by destruct_list p Hl.
Qed.

Lemma le32enc_spec x : le32enc x = le_to_bytes 4 x.
Proof. cbn [le_to_bytes]. unfold le32enc, u8. by rewrite !Z.shiftr_shiftr by lia. Qed.
Lemma le64enc_spec x : le64enc x = le_to_bytes 8 x.
Proof. cbn [le_to_bytes]. unfold le64enc, u8. by rewrite !Z.shiftr_shiftr by lia. Qed.
Lemma be32enc_spec x : be32enc x = be_to_bytes 4 x.
Proof. unfold be_to_bytes. by rewrite <-le32enc_spec. Qed.
Lemma be64enc_spec x : be64enc x = be_to_bytes 8 x.
Proof. unfold be_to_bytes. by rewrite <-le64enc_spec. Qed.

(** ** Vectors *)

(** be32enc_vect(dst, src, len) *)
Definition be32enc_vect (dst src : list Z) (len : nat) : list Z :=
  for_ (seq 0 (len / 4)) (fun i dst => blit dst (i * 4) (be32enc (src !!! i))) dst.

(** be32dec_vect(dst, src, len) *)
Definition be32dec_vect (dst src : list Z) (len : nat) : list Z :=
  for_ (seq 0 (len / 4)) (fun i dst => <[i := be32dec (sub src (i * 4) 4)]> dst) dst.

(** ** The elementary functions *)

Definition Ch (x y z : Z) : Z := (x .& (y .^ z)) .^ z.
Definition Maj (x y z : Z) : Z := (x .& (y .| z)) .| (y .& z).
Definition SHR (x n : Z) : Z := x .>> n.
Definition ROTR (x n : Z) : Z := (x .>> n) .| u32 (x .<< (32 - n)).
Definition S0 (x : Z) : Z := ROTR x 2 .^ ROTR x 13 .^ ROTR x 22.
Definition S1 (x : Z) : Z := ROTR x 6 .^ ROTR x 11 .^ ROTR x 25.
Definition s0 (x : Z) : Z := ROTR x 7 .^ ROTR x 18 .^ SHR x 3.
Definition s1 (x : Z) : Z := ROTR x 17 .^ ROTR x 19 .^ SHR x 10.

(** RND on the elements of [S] at the eight given indices. *)
Definition RND (S : list Z) (a b c d e f g h : nat) (k : Z) : list Z :=
  let t0 := u32 ((S !!! h) + S1 (S !!! e) + Ch (S !!! e) (S !!! f) (S !!! g) + k) in
  let t1 := u32 (S0 (S !!! a) + Maj (S !!! a) (S !!! b) (S !!! c)) in
  let S := <[d := u32 ((S !!! d) + t0)]> S in
  <[h := u32 (t0 + t1)]> S.

Definition RNDr (S W : list Z) (i : nat) (k : Z) : list Z :=
  RND S ((64 - i) mod 8) ((65 - i) mod 8) ((66 - i) mod 8) ((67 - i) mod 8)
    ((68 - i) mod 8) ((69 - i) mod 8) ((70 - i) mod 8) ((71 - i) mod 8)
    (u32 ((W !!! i) + k)).

(** The 64 calls of RNDr: the round and its constant. *)
Definition K256 : list Z :=
  snd <$> [
   (0%nat, 0x428a2f98); (1%nat, 0x71374491); (2%nat, 0xb5c0fbcf); (3%nat, 0xe9b5dba5);
   (4%nat, 0x3956c25b); (5%nat, 0x59f111f1); (6%nat, 0x923f82a4); (7%nat, 0xab1c5ed5);
   (8%nat, 0xd807aa98); (9%nat, 0x12835b01); (10%nat, 0x243185be); (11%nat, 0x550c7dc3);
   (12%nat, 0x72be5d74); (13%nat, 0x80deb1fe); (14%nat, 0x9bdc06a7); (15%nat, 0xc19bf174);
   (16%nat, 0xe49b69c1); (17%nat, 0xefbe4786); (18%nat, 0x0fc19dc6); (19%nat, 0x240ca1cc);
   (20%nat, 0x2de92c6f); (21%nat, 0x4a7484aa); (22%nat, 0x5cb0a9dc); (23%nat, 0x76f988da);
   (24%nat, 0x983e5152); (25%nat, 0xa831c66d); (26%nat, 0xb00327c8); (27%nat, 0xbf597fc7);
   (28%nat, 0xc6e00bf3); (29%nat, 0xd5a79147); (30%nat, 0x06ca6351); (31%nat, 0x14292967);
   (32%nat, 0x27b70a85); (33%nat, 0x2e1b2138); (34%nat, 0x4d2c6dfc); (35%nat, 0x53380d13);
   (36%nat, 0x650a7354); (37%nat, 0x766a0abb); (38%nat, 0x81c2c92e); (39%nat, 0x92722c85);
   (40%nat, 0xa2bfe8a1); (41%nat, 0xa81a664b); (42%nat, 0xc24b8b70); (43%nat, 0xc76c51a3);
   (44%nat, 0xd192e819); (45%nat, 0xd6990624); (46%nat, 0xf40e3585); (47%nat, 0x106aa070);
   (48%nat, 0x19a4c116); (49%nat, 0x1e376c08); (50%nat, 0x2748774c); (51%nat, 0x34b0bcb5);
   (52%nat, 0x391c0cb3); (53%nat, 0x4ed8aa4a); (54%nat, 0x5b9cca4f); (55%nat, 0x682e6ff3);
   (56%nat, 0x748f82ee); (57%nat, 0x78a5636f); (58%nat, 0x84c87814); (59%nat, 0x8cc70208);
   (60%nat, 0x90befffa); (61%nat, 0xa4506ceb); (62%nat, 0xbef9a3f7); (63%nat, 0xc67178f2)].

(** ** SHA256_Transform *)

Definition message_schedule (block : list Z) : list Z :=
  let W := be32dec_vect (replicate 64 0) block 64 in
  for_ (seq 16 48) (fun i W =>
    <[i := u32 (s1 (W !!! (i - 2)%nat) + (W !!! (i - 7)%nat) + s0 (W !!! (i - 15)%nat)
                + (W !!! (i - 16)%nat))]> W) W.

Definition SHA256_Transform (state block : list Z) : list Z :=
  let W := message_schedule block in
  let S := state in
  let S := for_ (seq 0 64) (fun i S => RNDr S W i (K256 !!! i)) S in
  for_ (seq 0 8) (fun i state => <[i := u32 ((state !!! i) + (S !!! i))]> state) state.

(** ** The streaming interface *)

Record SHA256_CTX := mk_ctx { ctx_state : list Z; ctx_count : list Z; ctx_buf : list Z }.

Definition PAD : list Z := 0x80 :: replicate 63 0.

(** [buf0] is the uninitialised buffer of the context. *)
Definition libscrypt_SHA256_Init (buf0 : list Z) : SHA256_CTX :=
  mk_ctx [0x6A09E667; 0xBB67AE85; 0x3C6EF372; 0xA54FF53A; 0x510E527F; 0x9B05688C; 0x1F83D9AB; 0x5BE0CD19]
    [0; 0] buf0.

(** while (len >= 64): [len] bytes are left at [src]. *)
Fixpoint update_blocks (fuel : nat) (state src : list Z) (len : nat) : list Z * list Z * nat :=
  match fuel with
  | O => (state, src, len)
  | S fuel =>
    if decide (64 <= len)%nat
    then update_blocks fuel (SHA256_Transform state (take 64 src)) (drop 64 src) (len - 64)
    else (state, src, len)
  end.

(** [in_] has [len] bytes; the fuel is enough because the loop takes 64 of them a
    time. *)
Definition libscrypt_SHA256_Update (ctx : SHA256_CTX) (in_ : list Z) : SHA256_CTX :=
  let len := length in_ in
  let r := Z.to_nat (((ctx_count ctx !!! 1%nat) .>> 3) .& 0x3f) in
  let bitlen1 := u32 (u32 (Z.of_nat len) .<< 3) in
  let bitlen0 := u32 (Z.of_nat len .>> 29) in
  let c1 := u32 ((ctx_count ctx !!! 1%nat) + bitlen1) in
  let c0 := if c1 <? bitlen1 then u32 ((ctx_count ctx !!! 0%nat) + 1) else ctx_count ctx !!! 0%nat in
  let c0 := u32 (c0 + bitlen0) in
  if decide (len < 64 - r)%nat then
    mk_ctx (ctx_state ctx) [c0; c1] (blit (ctx_buf ctx) r in_)
  else
    let buf := blit (ctx_buf ctx) r (take (64 - r) in_) in
    let state := SHA256_Transform (ctx_state ctx) buf in
    let '(state, src, len) := update_blocks len state (drop (64 - r) in_) (len - (64 - r)) in
    mk_ctx state [c0; c1] (blit buf 0 (take len src)).

Definition SHA256_Pad (ctx : SHA256_CTX) : SHA256_CTX :=
  let len := be32enc_vect (replicate 8 0) (ctx_count ctx) 8 in
  let r := ((ctx_count ctx !!! 1%nat) .>> 3) .& 0x3f in
  let plen := if r <? 56 then 56 - r else 120 - r in
  let ctx := libscrypt_SHA256_Update ctx (take (Z.to_nat plen) PAD) in
  libscrypt_SHA256_Update ctx len.

(** The digest. *)
Definition libscrypt_SHA256_Final (ctx : SHA256_CTX) : list Z :=
  let ctx := SHA256_Pad ctx in
  be32enc_vect (replicate 32 0) (ctx_state ctx) 32.

(** ** HMAC *)

Record HMAC_SHA256_CTX := mk_hmac { ictx : SHA256_CTX; octx : SHA256_CTX }.

Definition xor_key (pad key : list Z) : list Z :=
  for_ (seq 0 (length key)) (fun i pad => <[i := (pad !!! i) .^ (key !!! i)]> pad) pad.

Definition libscrypt_HMAC_SHA256_Init (buf0 key : list Z) : HMAC_SHA256_CTX :=
  let key :=
    if decide (64 < length key)%nat
    then libscrypt_SHA256_Final (libscrypt_SHA256_Update (libscrypt_SHA256_Init buf0) key)
    else key in
  let ictx := libscrypt_SHA256_Update (libscrypt_SHA256_Init buf0) (xor_key (replicate 64 0x36) key) in
  let octx := libscrypt_SHA256_Update (libscrypt_SHA256_Init buf0) (xor_key (replicate 64 0x5c) key) in
  mk_hmac ictx octx.

Definition libscrypt_HMAC_SHA256_Update (ctx : HMAC_SHA256_CTX) (in_ : list Z) : HMAC_SHA256_CTX :=
  mk_hmac (libscrypt_SHA256_Update (ictx ctx) in_) (octx ctx).

Definition libscrypt_HMAC_SHA256_Final (ctx : HMAC_SHA256_CTX) : list Z :=
  let ihash := libscrypt_SHA256_Final (ictx ctx) in
  libscrypt_SHA256_Final (libscrypt_SHA256_Update (octx ctx) ihash).

(** ** PBKDF2 *)

(** The inner loop for (j = 2; j <= c; j++) on U and T. *)
Definition pbkdf2_step (buf0 passwd : list Z) (UT : list Z * list Z) : list Z * list Z :=
  let '(U, T) := UT in
  let hctx := libscrypt_HMAC_SHA256_Init buf0 passwd in
  let hctx := libscrypt_HMAC_SHA256_Update hctx U in
  let U := libscrypt_HMAC_SHA256_Final hctx in
  (U, for_ (seq 0 32) (fun k T => <[k := (T !!! k) .^ (U !!! k)]> T) T).
Definition pbkdf2_iterate (buf0 passwd : list Z) (c : Z) (U T : list Z) : list Z * list Z :=
  for_ (seq 2 (Z.to_nat (c - 1))) (fun _ UT => pbkdf2_step buf0 passwd UT) (U, T).

(** The number of iterations of for (i = 0; i * 32 < dkLen; i++) is dkLen / 32
    rounded up. *)
Definition libscrypt_PBKDF2_SHA256 (buf0 passwd salt : list Z) (c : Z) (buf : list Z)
    (dkLen : nat) : list Z :=
  let PShctx := libscrypt_HMAC_SHA256_Init buf0 passwd in
  let PShctx := libscrypt_HMAC_SHA256_Update PShctx salt in
  for_ (seq 0 ((dkLen + 31) / 32)) (fun i buf =>
    let ivec := be32enc (u32 (Z.of_nat i + 1)) in
    let hctx := libscrypt_HMAC_SHA256_Update PShctx ivec in
    let U := libscrypt_HMAC_SHA256_Final hctx in
    let '(_, T) := pbkdf2_iterate buf0 passwd c U U in
    let clen := (dkLen - i * 32)%nat in
    let clen := if decide (32 < clen)%nat then 32%nat else clen in
    blit buf (i * 32) (take clen T)) buf.

(** ** FIPS 180-4 *)

Definition rotr (x n : Z) : Z := rotl 32 x (32 - n).
Definition spec_Ch (x y z : Z) : Z := (x .& y) .^ Z.ldiff z x.
Definition spec_Maj (x y z : Z) : Z := (x .& y) .^ (x .& z) .^ (y .& z).
Definition spec_Sigma0 (x : Z) : Z := rotr x 2 .^ rotr x 13 .^ rotr x 22.
Definition spec_Sigma1 (x : Z) : Z := rotr x 6 .^ rotr x 11 .^ rotr x 25.
Definition spec_sigma0 (x : Z) : Z := rotr x 7 .^ rotr x 18 .^ (x .>> 3).
Definition spec_sigma1 (x : Z) : Z := rotr x 17 .^ rotr x 19 .^ (x .>> 10).

(** The first primes; the constants are the first 32 bits of the fractional parts
    of their cube roots and square roots. *)
Definition primes (n : nat) : list Z :=
  take n (List.filter (fun p => forallb (fun d => negb (p mod Z.of_nat d =? 0)) (seq 2 (Z.to_nat p - 2)))
            (Z.of_nat <$> seq 2 310)).

(** floor of the cube root, from its bits, below 2^n *)
Fixpoint cbrt (n : nat) (x r : Z) : Z :=
  match n with
  | O => r
  | S n => let r' := r + 2 ^ Z.of_nat n in cbrt n x (if r' * r' * r' <=? x then r' else r)
  end.
Definition spec_K : list Z := (fun p => cbrt 36 (p * 2 ^ 96) 0 mod 2 ^ 32) <$> primes 64.
Definition spec_H0 : list Z := (fun p => Z.sqrt (p * 2 ^ 64) mod 2 ^ 32) <$> primes 8.

(** The message schedule grows by one word a step. *)
Definition spec_schedule (n : nat) (ws : list Z) : list Z :=
  Nat.iter n (fun ws =>
    let t := length ws in
    ws ++ [(spec_sigma1 (ws !!! (t - 2)%nat) + (ws !!! (t - 7)%nat)
            + spec_sigma0 (ws !!! (t - 15)%nat) + (ws !!! (t - 16)%nat)) mod 2 ^ 32]) ws.

(** One round on the working variables a..h. *)
Definition spec_sha_round (kt wt : Z) (v : list Z) : list Z :=
  match v with
  | [a; b; c; d; e; f; g; h] =>
    let T1 := (h + spec_Sigma1 e + spec_Ch e f g + kt + wt) mod 2 ^ 32 in
    let T2 := (spec_Sigma0 a + spec_Maj a b c) mod 2 ^ 32 in
    [(T1 + T2) mod 2 ^ 32; a; b; c; (d + T1) mod 2 ^ 32; e; f; g]
  | _ => v
  end.

Definition spec_compress (H block : list Z) : list Z :=
  let W := spec_schedule 48 (words_be 4 16 block) in
  let v := for_ (seq 0 64) (fun t v => spec_sha_round (spec_K !!! t) (W !!! t) v) H in
  zip_with (fun x y => (x + y) mod 2 ^ 32) H v.

Definition spec_sha_pad (len : nat) : list Z :=
  0x80 :: replicate ((119 - len mod 64) mod 64) 0 ++ be_to_bytes 8 (8 * Z.of_nat len).

Definition spec_blocks (H m : list Z) (n : nat) : list Z := foldl spec_compress H (chunks 64 n m).

Definition spec_sha256 (m : list Z) : list Z :=
  let p := m ++ spec_sha_pad (length m) in
  bytes_be 4 (spec_blocks spec_H0 p (length p / 64)).

(** RFC 2104 and RFC 8018 *)

Definition hmac_key (key : list Z) : list Z :=
  let k := if decide (64 < length key)%nat then spec_sha256 key else key in
  k ++ replicate (64 - length k) 0.
Definition spec_hmac (key m : list Z) : list Z :=
  let xor_with c := (fun b => b .^ c) <$> hmac_key key in
  spec_sha256 (xor_with 0x5c ++ spec_sha256 (xor_with 0x36 ++ m)).

(** U_1 xor .. xor U_c *)
Fixpoint spec_F (passwd : list Z) (c : nat) (U T : list Z) : list Z :=
  match c with
  | O => T
  | S c => let U := spec_hmac passwd U in spec_F passwd c U (zip_with Z.lxor T U)
  end.
Definition spec_pbkdf2_block (passwd salt : list Z) (c : Z) (i : nat) : list Z :=
  let U := spec_hmac passwd (salt ++ be_to_bytes 4 (Z.of_nat i + 1)) in
  spec_F passwd (Z.to_nat (c - 1)) U U.
Definition spec_pbkdf2 (passwd salt : list Z) (c : Z) (dkLen : nat) : list Z :=
  take dkLen (mjoin (spec_pbkdf2_block passwd salt c <$> seq 0 ((dkLen + 31) / 32))).

#[local] Arguments spec_schedule : simpl never.
#[local] Arguments spec_sha_round : simpl never.

(** ** Vectors *)

Lemma be32dec_vect_spec dst src n :
  bytes src -> (4 * n <= length src)%nat -> (n <= length dst)%nat ->
  be32dec_vect dst src (4 * n) = words_be 4 n src ++ drop n dst.
Proof.
  intros Hb Hs Hd. unfold be32dec_vect. rewrite Nat.mul_comm, Nat.div_mul by lia.
  apply list_eq. intros j.
  pose (P := fun (k : nat) (d : list Z) => length d = length dst /\ forall j, d !! j =
    if decide (j < k)%nat then Some (be_of_bytes (sub src (j * 4) 4)) else dst !! j).
  assert (P n (for_ (seq 0 n) (fun i dst => <[i := be32dec (sub src (i * 4) 4)]> dst) dst)) as [_ ->].
  { apply for_range_ind; [done|]. intros i d Hi [Hl Hd']. split; [by rewrite length_insert|].
    intros k. destruct (decide (k = i)) as [->|Hk].
    - rewrite list_lookup_insert_eq, decide_True by lia.
      rewrite be32dec_spec; [done|rewrite length_sub; lia|by apply Forall_sub].
    - rewrite list_lookup_insert_ne, Hd' by done. repeat case_decide; (done || lia). }
  case_decide.
  - rewrite lookup_app_l by (simpl_len; lia). by rewrite lookup_words_be.
  - rewrite lookup_app_r by (simpl_len; lia). rewrite lookup_drop, length_words_be.
    f_equal. lia.
Qed.

Lemma be32enc_vect_spec dst src n :
  (n <= length src)%nat -> length dst = (4 * n)%nat ->
  be32enc_vect dst src (4 * n) = bytes_be 4 (take n src).
Proof.
  intros Hs Hd. unfold be32enc_vect. rewrite Nat.mul_comm, Nat.div_mul by lia.
  assert (forall k, (k <= n)%nat ->
    for_ (seq 0 k) (fun i dst => blit dst (i * 4) (be32enc (src !!! i))) dst =
      blit dst 0 (bytes_be 4 (take k src))) as H.
  { induction k as [|k IH]; intros Hk.
    - rewrite take_0. change (bytes_be 4 []) with (@nil Z). by rewrite blit_nil.
    - rewrite for_seq_S, IH by lia. cbn [plus].
      destruct (lookup_lt_is_Some_2 src k ltac:(lia)) as [x Hx].
      rewrite (take_S_r _ _ x Hx), (list_lookup_total_correct _ _ _ Hx), bytes_be_snoc.
      rewrite be32enc_spec.
      assert (k * 4 = 0 + length (bytes_be 4 (take k src)))%nat as ->.
      { rewrite length_bytes_be, length_take. lia. }
      apply blit_blit. rewrite length_bytes_be, length_take. lia. }
  rewrite H by lia. apply blit_all. rewrite length_bytes_be, length_take. lia.
Qed.

(** ** Elementary functions *)

Lemma ROTR_rotr x n : is_u32 x -> 0 <= n <= 32 -> ROTR x n = rotr x n.
Proof.
  intros Hx Hn. unfold ROTR, rotr, u32. rewrite Z.lor_comm.
  rewrite <-(rotl_shl_trunc 32) by (done || lia). by replace (32 - (32 - n)) with n by lia.
Qed.

Lemma Sigma_spec x :
  is_u32 x ->
  S0 x = spec_Sigma0 x /\ S1 x = spec_Sigma1 x /\ s0 x = spec_sigma0 x /\ s1 x = spec_sigma1 x.
Proof.
  intros Hx. unfold S0, S1, s0, s1, SHR. by rewrite !ROTR_rotr by (done || lia).
Qed.

Lemma Ch_spec x y z : Ch x y z = spec_Ch x y z.
Proof.
  unfold Ch, spec_Ch. bitwise. rewrite Z.ldiff_spec. bsolve.
Qed.
Lemma Maj_spec x y z : Maj x y z = spec_Maj x y z.
Proof. unfold Maj, spec_Maj. bitwise. bsolve. Qed.

Lemma K256_spec : K256 = spec_K.
Proof. by vm_compute. Qed.

(** ** The message schedule *)

Definition wstate (l : list Z) : Prop := length l = 8%nat /\ Forall is_u32 l.

Lemma spec_schedule_S n ws :
  spec_schedule (S n) ws =
    let ws := spec_schedule n ws in let t := length ws in
    ws ++ [(spec_sigma1 (ws !!! (t - 2)%nat) + (ws !!! (t - 7)%nat)
            + spec_sigma0 (ws !!! (t - 15)%nat) + (ws !!! (t - 16)%nat)) mod 2 ^ 32].
Proof. done. Qed.

Lemma spec_schedule_wf n ws :
  Forall is_u32 ws ->
  length (spec_schedule n ws) = (length ws + n)%nat /\ Forall is_u32 (spec_schedule n ws).
Proof.
  intros Hw. induction n as [|n [IH1 IH2]]; [by rewrite Nat.add_0_r|].
  rewrite spec_schedule_S. cbv zeta. split; [rewrite length_app, IH1; simpl; lia|].
  apply Forall_app. split; [done|]. apply Forall_singleton. by apply is_word_mod.
Qed.

Lemma message_schedule_spec block :
  bytes block -> length block = 64%nat ->
  message_schedule block = spec_schedule 48 (words_be 4 16 block).
Proof.
  intros Hb Hl. unfold message_schedule. change 64%nat with (4 * 16)%nat at 2.
  rewrite be32dec_vect_spec by (done || rewrite ?length_replicate; lia).
  set (ws := words_be 4 16 block).
  assert (Forall is_u32 ws) as Hws by (apply (words_be_range 4); [done|lia]).
  assert (length ws = 16%nat) as Hlw by apply length_words_be.
  assert (forall k, (k <= 48)%nat ->
    for_ (seq 16 k) (fun i W =>
      <[i := u32 (s1 (W !!! (i - 2)%nat) + (W !!! (i - 7)%nat) + s0 (W !!! (i - 15)%nat)
                + (W !!! (i - 16)%nat))]> W) (ws ++ drop 16 (replicate 64 0))
    = spec_schedule k ws ++ replicate (48 - k) 0) as H.
  { induction k as [|k IH]; intros Hk; [done|]. rewrite for_seq_S, IH by lia.
    destruct (spec_schedule_wf k ws Hws) as [Hlk Hk'].
    rewrite spec_schedule_S. cbv zeta. set (W := spec_schedule k ws) in *.
    rewrite !lookup_total_app_l by lia.
    destruct (Sigma_spec (W !!! (16 + k - 2)%nat)) as (_ & _ & _ & ->); [by apply is_word_lookup|].
    destruct (Sigma_spec (W !!! (16 + k - 15)%nat)) as (_ & _ & -> & _); [by apply is_word_lookup|].
    replace (16 + k)%nat with (length W + 0)%nat at 1 by lia. rewrite insert_app_r.
    replace (48 - k)%nat with (S (48 - S k)) by lia. cbn [replicate]. cbn.
    rewrite <-app_assoc, u32_mod, Hlk, Hlw. done. }
  rewrite H by lia. by rewrite app_nil_r.
Qed.

(** ** The rounds: the working variables rotate through the array *)

Definition view (i : nat) (S : list Z) : list Z := (fun k => S !!! ((64 - i + k) mod 8)%nat) <$> seq 0 8.

Lemma RNDr_round i S W k :
  (i < 64)%nat -> length S = 8%nat -> Forall is_u32 S ->
  view (Datatypes.S i) (RNDr S W i k) = spec_sha_round k (W !!! i) (view i S) /\
  length (RNDr S W i k) = 8%nat /\ Forall is_u32 (RNDr S W i k).
Proof.
  intros Hi Hl Hw. split.
  2: { unfold RNDr, RND. split; [by rewrite !length_insert|].
       apply is_word_insert; [apply u32_range|]. apply is_word_insert; [apply u32_range|done]. }
  assert (exists q r, (r < 8)%nat /\ i = (8 * q + r)%nat /\ (q < 8)%nat) as (q & r & Hr & -> & Hq).
  { exists (i / 8)%nat, (i mod 8)%nat. pose proof (Nat.div_mod_eq i 8).
    pose proof (Nat.mod_upper_bound i 8 ltac:(lia)). lia. }
  set (w := W !!! (8 * q + r)%nat). unfold RNDr. fold w.
  assert (forall c, (64 <= c <= 71)%nat ->
    ((c - (8 * q + r)) mod 8 = (c - r) mod 8)%nat) as Hmod.
  { intros c Hc. rewrite <-(Nat.Div0.mod_add (c - (8 * q + r)) q 8). f_equal. lia. }
  rewrite !Hmod by lia.
  assert (forall j (l : list Z), (j <= 1)%nat -> view (j + (8 * q + r)) l = view (j + r) l) as Hview.
  { intros j l Hj. unfold view. apply list_fmap_ext. intros k' x Hx. f_equal.
    rewrite <-(Nat.Div0.mod_add (64 - (j + (8 * q + r)) + x) q 8). f_equal.
    apply lookup_seq in Hx. lia. }
  rewrite (Hview 1%nat) by lia. pose proof (Hview 0%nat S ltac:(lia)) as Hv0. cbn [plus] in Hv0. rewrite Hv0.
  clear Hview Hmod Hv0 Hi Hq. destruct_list S Hl. inv_Forall.
  do 8 (destruct r as [|r]; [
    cbv -[Z.add S0 S1 Ch Maj u32 Z.modulo Z.pow spec_Sigma0 spec_Sigma1 spec_Ch spec_Maj is_word w];
    repeat match goal with |- context [S1 ?x] => rewrite (proj1 (proj2 (Sigma_spec x ltac:(done)))) end;
    repeat match goal with |- context [S0 ?x] => rewrite (proj1 (Sigma_spec x ltac:(done))) end;
    rewrite !Ch_spec, !Maj_spec, !u32_mod; rewrite !Zplus_mod_idemp_r;
    rewrite (Z.add_comm w k), !Z.add_assoc; reflexivity|]).
  lia.
Qed.

Lemma rounds_spec n S W :
  (n <= 64)%nat -> wstate S ->
  view n (for_ (seq 0 n) (fun i S => RNDr S W i (K256 !!! i)) S) =
    for_ (seq 0 n) (fun t v => spec_sha_round (spec_K !!! t) (W !!! t) v) S /\
  wstate (for_ (seq 0 n) (fun i S => RNDr S W i (K256 !!! i)) S).
Proof.
  intros Hn HS. induction n as [|n IH].
  - split; [|done]. destruct HS as [Hl _]. by destruct_list S Hl.
  - rewrite !for_seq_S. cbn [plus]. destruct IH as [IH1 [IH2 IH3]]; [lia|].
    destruct (RNDr_round n _ W (K256 !!! n) ltac:(lia) IH2 IH3) as (H1 & H2 & H3).
    rewrite H1, IH1. split; [by rewrite K256_spec|done].
Qed.

Lemma final_add state S :
  length state = 8%nat -> length S = 8%nat ->
  for_ (seq 0 8) (fun i state => <[i := u32 ((state !!! i) + (S !!! i))]> state) state =
    zip_with (fun x y => (x + y) mod 2 ^ 32) state S.
Proof.
  intros Hl HS. destruct_list state Hl. destruct_list S HS.
  cbv -[u32 Z.add Z.modulo Z.pow]. by rewrite !u32_mod.
Qed.

Lemma view_64 S : length S = 8%nat -> view 64 S = S.
Proof. intros H. by destruct_list S H. Qed.

Lemma transform_ok state block :
  wstate state -> bytes block -> length block = 64%nat ->
  SHA256_Transform state block = spec_compress state block /\
  wstate (SHA256_Transform state block).
Proof.
  intros [Hl Hw] Hb Hlb. unfold SHA256_Transform, spec_compress.
  rewrite message_schedule_spec by done.
  set (W := spec_schedule 48 _).
  destruct (rounds_spec 64 state W ltac:(lia) (conj Hl Hw)) as [HR [HRl HRw]].
  set (R := for_ (seq 0 64) (fun i S => RNDr S W i (K256 !!! i)) state) in *.
  rewrite view_64 in HR by done. rewrite final_add, <-HR by done. split; [done|].
  split; [rewrite length_zip_with; lia|].
  apply Forall_lookup_2. intros i x Hx. apply lookup_zip_with_Some in Hx as (a & b & -> & _).
  by apply is_word_mod.
Qed.

#[local] Arguments SHA256_Transform : simpl never.
#[local] Arguments spec_compress : simpl never.

(** ** The streaming context *)

(** The context after the message [m] was fed to it. *)
Definition ctx_repr (ctx : SHA256_CTX) (m : list Z) : Prop :=
  let bits := 8 * Z.of_nat (length m) in
  bytes m /\
  ctx_count ctx = [bits / 2 ^ 32 mod 2 ^ 32; bits mod 2 ^ 32] /\
  wstate (ctx_state ctx) /\
  ctx_state ctx = spec_blocks spec_H0 m (length m / 64) /\
  length (ctx_buf ctx) = 64%nat /\ bytes (ctx_buf ctx) /\
  take (length m mod 64) (ctx_buf ctx) = drop (64 * (length m / 64)) m.

Lemma init_repr buf0 : length buf0 = 64%nat -> bytes buf0 -> ctx_repr (libscrypt_SHA256_Init buf0) [].
Proof.
  intros Hl Hb. split_and!; [constructor|done|split; [done|by repeat constructor]|by vm_compute|done|done|done].
Qed.

(** The two-word counter with its carry counts bits modulo 2^64. *)
Lemma count_add a b :
  0 <= a -> 0 <= b ->
  let c1 := u32 (a mod 2 ^ 32 + b mod 2 ^ 32) in
  let c0 := if c1 <? b mod 2 ^ 32 then u32 (a / 2 ^ 32 mod 2 ^ 32 + 1) else a / 2 ^ 32 mod 2 ^ 32 in
  [u32 (c0 + b / 2 ^ 32 mod 2 ^ 32); c1] = [(a + b) / 2 ^ 32 mod 2 ^ 32; (a + b) mod 2 ^ 32].
Proof.
  intros Ha Hb c1 c0.
  assert (c1 = (a + b) mod 2 ^ 32) as H1 by (unfold c1; rewrite u32_mod; by rewrite <-Zplus_mod).
  apply (f_equal2 cons); [|by rewrite H1]. unfold c0. rewrite H1, !u32_mod.
  change (2 ^ 32) with 4294967296. case_match eqn:E; [apply Z.ltb_lt in E|apply Z.ltb_ge in E]; Z.div_mod_to_equations; lia.
Qed.

Lemma buffered_bytes (len : nat) :
  Z.to_nat ((((8 * Z.of_nat len) mod 2 ^ 32) .>> 3) .& 0x3f) = (len mod 64)%nat.
Proof.
  change 0x3f with (Z.ones 6). rewrite Z.land_ones, Z.shiftr_div_pow2 by lia.
  rewrite <-(Nat2Z.id (len mod 64)). f_equal. rewrite Nat2Z.inj_mod.
  change (2 ^ 32) with 4294967296. change (2 ^ 3) with 8. change (2 ^ 6) with 64.
  change (Z.of_nat 64) with 64. Z.div_mod_to_equations. lia.
Qed.

Lemma bitlen_spec (len : nat) :
  u32 (u32 (Z.of_nat len) .<< 3) = (8 * Z.of_nat len) mod 2 ^ 32 /\
  u32 (Z.of_nat len .>> 29) = 8 * Z.of_nat len / 2 ^ 32 mod 2 ^ 32.
Proof.
  rewrite !u32_mod, Z.shiftl_mul_pow2, Z.shiftr_div_pow2 by lia.
  change (2 ^ 32) with 4294967296. change (2 ^ 29) with 536870912. change (2 ^ 3) with 8.
  split; Z.div_mod_to_equations; lia.
Qed.

Lemma update_blocks_spec fuel state src len :
  wstate state -> bytes src -> length src = len -> (len / 64 <= fuel)%nat ->
  let state' := foldl spec_compress state (chunks 64 (len / 64) src) in
  update_blocks fuel state src len = (state', drop (64 * (len / 64)) src, (len mod 64)%nat) /\
  wstate state'.
Proof.
  revert state src len. induction fuel as [|fuel IH]; intros state src len Hs Hb Hl Hf; cbn [update_blocks].
  - assert (len / 64 = 0)%nat as E by lia. rewrite E. cbn [chunks foldl]. split; [|done].
    rewrite Nat.mul_0_r, drop_0. pose proof (Nat.div_mod_eq len 64).
    by replace (len mod 64)%nat with len by lia.
  - case_decide as Hd.
    + destruct (transform_ok state (take 64 src)) as [HT HTs];
        [done|by apply Forall_take|simpl_len; lia|].
      assert (len / 64 = S ((len - 64) / 64))%nat as Hq.
      { replace len with ((len - 64) + 1 * 64)%nat at 1 by lia. rewrite Nat.div_add by lia. lia. }
      destruct (IH (SHA256_Transform state (take 64 src)) (drop 64 src) (len - 64)%nat) as [E Hs'];
        [done|by apply Forall_drop|simpl_len; lia|lia|].
      rewrite E, Hq. cbn [chunks foldl]. rewrite <-HT. split; [|done].
      rewrite drop_drop, <-(Nat.Div0.mod_add (len - 64) 1 64).
      replace (len - 64 + 1 * 64)%nat with len by lia. do 2 f_equal. f_equal. lia.
    + rewrite Nat.div_small, Nat.mod_small by lia. by rewrite drop_0.
Qed.

(** Feeding [x] to the context of [m]: with fewer bytes than the buffer still
    takes, and with at least one full block. *)
Section update.
Context (ctx : SHA256_CTX) (m x : list Z).
Let q := (length m / 64)%nat.
Let r := (length m mod 64)%nat.

Lemma split_len : length m = (64 * q + r)%nat /\ (r < 64)%nat.
Proof. split; [apply Nat.div_mod_eq|apply Nat.mod_upper_bound; lia]. Qed.

Lemma update_small count :
  ctx_repr ctx m -> bytes x -> (length x < 64 - r)%nat ->
  count = [8 * Z.of_nat (length (m ++ x)) / 2 ^ 32 mod 2 ^ 32;
           (8 * Z.of_nat (length (m ++ x))) mod 2 ^ 32] ->
  ctx_repr (mk_ctx (ctx_state ctx) count (blit (ctx_buf ctx) r x)) (m ++ x).
Proof.
  intros (Hm & _ & Hs & Hst & Hbl & Hb & Ht) Hx Hd Hc. destruct split_len as [Hdm Hr].
  assert ((length (m ++ x)) / 64 = q /\ (length (m ++ x)) mod 64 = r + length x)%nat as [Eq Er].
  { rewrite length_app. split; symmetry.
    - apply (Nat.div_unique _ 64 q (r + length x)); lia.
    - apply (Nat.mod_unique _ 64 q); lia. }
  split_and!; cbn [ctx_count ctx_state ctx_buf];
    [by apply Forall_app|done|done| |rewrite length_blit; lia|by apply Forall_blit|].
  - rewrite Hst, Eq. unfold spec_blocks. by rewrite chunks_app_l by (fold q; lia).
  - fold q r in Ht. rewrite Eq, Er, drop_app_le, <-Ht by lia. unfold blit. rewrite app_assoc.
    apply take_app_length'. simpl_len. lia.
Qed.

Lemma update_large count :
  ctx_repr ctx m -> bytes x -> (64 - r <= length x)%nat ->
  count = [8 * Z.of_nat (length (m ++ x)) / 2 ^ 32 mod 2 ^ 32;
           (8 * Z.of_nat (length (m ++ x))) mod 2 ^ 32] ->
  let buf := blit (ctx_buf ctx) r (take (64 - r) x) in
  let '(state, src, len) := update_blocks (length x) (SHA256_Transform (ctx_state ctx) buf)
                              (drop (64 - r) x) (length x - (64 - r)) in
  ctx_repr (mk_ctx state count (blit buf 0 (take len src))) (m ++ x).
Proof.
  intros (Hm & _ & Hs & Hst & Hbl & Hb & Ht) Hx Hd Hc buf. destruct split_len as [Hdm Hr].
  fold q r in Ht, Hst.
  assert (buf = drop (64 * q) m ++ take (64 - r) x) as Hbuf.
  { unfold buf, blit. rewrite <-Ht, drop_ge, app_nil_r; [done|simpl_len; lia]. }
  assert (length buf = 64%nat) as Hlb by (rewrite Hbuf; simpl_len; lia).
  assert (bytes buf) as Hbb by (apply Forall_blit; [done|by apply Forall_take]).
  destruct (transform_ok (ctx_state ctx) buf Hs Hbb Hlb) as [HT HTs].
  set (src := drop (64 - r) x). set (len := (length x - (64 - r))%nat).
  destruct (update_blocks_spec (length x) (SHA256_Transform (ctx_state ctx) buf) src len)
    as [-> Hs']; [done|by apply Forall_drop|unfold src; by simpl_len
                 |apply Nat.Div0.div_le_upper_bound; lia|].
  pose proof (Nat.div_mod_eq len 64) as Hdl.
  pose proof (Nat.mod_upper_bound len 64 ltac:(lia)) as Hml.
  assert (length (m ++ x) / 64 = q + 1 + len / 64 /\ length (m ++ x) mod 64 = len mod 64)%nat as [Eq Er].
  { rewrite length_app. split; symmetry.
    - apply (Nat.div_unique _ 64 _ (len mod 64)); lia.
    - apply (Nat.mod_unique _ 64 (q + 1 + len / 64)); lia. }
  assert (drop (64 * (q + 1)) (m ++ x) = src) as Hdrop.
  { rewrite drop_app_ge by lia. unfold src. f_equal. lia. }
  split_and!; cbn [ctx_count ctx_state ctx_buf]; [by apply Forall_app|done|done| | | |].
  - rewrite Eq. unfold spec_blocks. rewrite !chunks_add, !foldl_app, Hdrop.
    rewrite chunks_app_l by lia. fold (spec_blocks spec_H0 m q). rewrite <-Hst.
    cbn [chunks foldl]. rewrite drop_app_le by lia. rewrite take_app.
    rewrite (take_ge (drop (64 * q) m)) by (simpl_len; lia).
    replace (64 - length (drop (64 * q) m))%nat with (64 - r)%nat by (simpl_len; lia).
    by rewrite <-Hbuf, HT.
  - rewrite length_blit; [done|]. simpl_len. lia.
  - apply Forall_blit; [done|]. by apply Forall_take, Forall_drop, Forall_drop.
  - rewrite Eq, Er. rewrite take_blit_0 by (unfold src; simpl_len; lia).
    replace (64 * (q + 1 + len / 64))%nat with (64 * (q + 1) + 64 * (len / 64))%nat by lia.
    rewrite <-drop_drop, Hdrop. apply take_ge. unfold src. simpl_len. lia.
Qed.
End update.

Lemma update_ok ctx m x :
  ctx_repr ctx m -> bytes x -> ctx_repr (libscrypt_SHA256_Update ctx x) (m ++ x).
Proof.
  intros HR Hx. pose proof HR as (_ & Hc & _). unfold libscrypt_SHA256_Update. rewrite Hc.
  cbn [lookup_total list_lookup_total]. rewrite buffered_bytes.
  destruct (bitlen_spec (length x)) as [-> ->]. rewrite count_add by lia.
  assert (8 * Z.of_nat (length m) + 8 * Z.of_nat (length x) = 8 * Z.of_nat (length (m ++ x))) as ->
    by (rewrite length_app; lia).
  case_decide as Hd; [by apply update_small|].
  pose proof (update_large ctx m x _ HR Hx ltac:(lia) eq_refl) as H. cbv zeta in H.
  destruct (update_blocks _ _ _ _) as [[state src] len]. exact H.
Qed.

(** ** Padding and the digest *)

Lemma pad_ok ctx m :
  ctx_repr ctx m -> ctx_repr (SHA256_Pad ctx) (m ++ spec_sha_pad (length m)).
Proof.
  intros HR. pose proof HR as (Hm & Hc & _). unfold SHA256_Pad. rewrite Hc.
  change 8%nat with (4 * 2)%nat at 2. rewrite be32enc_vect_spec by (simpl; lia).
  cbn [take lookup_total list_lookup_total].
  set (r := (_ .>> 3) .& 0x3f).
  assert (r = Z.of_nat (length m mod 64)) as Er.
  { rewrite <-buffered_bytes, Z2Nat.id; [done|]. apply Z.land_nonneg. by right. }
  pose proof (Nat.mod_upper_bound (length m) 64 ltac:(lia)) as Hlt.
  assert (take (Z.to_nat (if r <? 56 then 56 - r else 120 - r)) PAD =
    0x80 :: replicate ((119 - length m mod 64) mod 64) 0) as ->.
  { rewrite Er. set (k := (length m mod 64)%nat) in *.
    assert (Z.to_nat (if Z.of_nat k <? 56 then 56 - Z.of_nat k else 120 - Z.of_nat k) =
      S ((119 - k) mod 64)) as ->.
    { destruct (Z.ltb_spec (Z.of_nat k) 56).
      - replace (119 - k)%nat with ((55 - k) + 1 * 64)%nat by lia.
        rewrite Nat.Div0.mod_add, Nat.mod_small by lia. lia.
      - rewrite Nat.mod_small by lia. lia. }
    unfold PAD. cbn [take]. f_equal. rewrite take_replicate. f_equal.
    pose proof (Nat.mod_upper_bound (119 - k) 64). lia. }
  assert (bytes_be 4 [8 * Z.of_nat (length m) / 2 ^ 32 mod 2 ^ 32; (8 * Z.of_nat (length m)) mod 2 ^ 32] =
    be_to_bytes 8 (8 * Z.of_nat (length m))) as ->.
  { generalize (8 * Z.of_nat (length m)). intros b. rewrite !bytes_be_cons.
    change (bytes_be 4 []) with (@nil Z). rewrite app_nil_r, !(be_to_bytes_mod 4).
    change 8%nat with (4 + 4)%nat. rewrite be_to_bytes_add.
    by rewrite Z.shiftr_div_pow2. }
  unfold spec_sha_pad. change (0x80 :: ?a ++ ?b) with ((0x80 :: a) ++ b). rewrite app_assoc.
  apply update_ok; [|apply be_to_bytes_bytes]. apply update_ok; [done|].
  constructor; [done|]. by apply Forall_replicate.
Qed.

Lemma final_ok ctx m : ctx_repr ctx m -> libscrypt_SHA256_Final ctx = spec_sha256 m.
Proof.
  intros HR. destruct (pad_ok ctx m HR) as (_ & _ & [Hl _] & Hst & _). unfold libscrypt_SHA256_Final, spec_sha256.
  change 32%nat with (4 * 8)%nat at 2. rewrite be32enc_vect_spec by (rewrite ?length_replicate; lia).
  rewrite take_ge by lia. by rewrite Hst.
Qed.

(** The digest has 32 bytes for every message. *)
Lemma spec_sha256_wf m : bytes m -> length (spec_sha256 m) = 32%nat /\ bytes (spec_sha256 m).
Proof.
  intros Hm. split; [|apply bytes_be_bytes].
  assert (ctx_repr (libscrypt_SHA256_Update (libscrypt_SHA256_Init (replicate 64 0)) m) m) as HR.
  { apply (update_ok _ []); [|done]. apply init_repr; [done|by apply Forall_replicate]. }
  destruct (pad_ok _ m HR) as (_ & _ & [Hl _] & Hst & _).
  unfold spec_sha256. rewrite length_bytes_be, <-Hst, Hl. done.
Qed.

(** A context fed with the pieces of a message one after the other. *)
Definition update_all (ctx : SHA256_CTX) (pieces : list (list Z)) : SHA256_CTX :=
  foldl libscrypt_SHA256_Update ctx pieces.

Lemma update_all_ok ctx m pieces :
  ctx_repr ctx m -> Forall bytes pieces -> ctx_repr (update_all ctx pieces) (m ++ mjoin pieces).
Proof.
  intros HR Hp. revert ctx m HR. induction Hp as [|x pieces Hx Hp IH]; intros ctx m HR.
  - simpl. by rewrite app_nil_r.
  - cbn [update_all foldl mjoin list_join]. rewrite app_assoc. apply IH. by apply update_ok.
Qed.

(** ** HMAC *)

Lemma xor_key_spec c key :
  (length key <= 64)%nat ->
  xor_key (replicate 64 c) key = (fun b => b .^ c) <$> (key ++ replicate (64 - length key) 0).
Proof.
  intros Hl. unfold xor_key. apply list_eq. intros j.
  pose (P := fun (k : nat) (d : list Z) => length d = 64%nat /\ forall j, (j < 64)%nat -> d !! j =
    Some (if decide (j < k)%nat then c .^ (key !!! j) else c)).
  assert (P (length key) (for_ (seq 0 (length key))
    (fun i pad => <[i := (pad !!! i) .^ (key !!! i)]> pad) (replicate 64 c))) as [HL HP].
  { apply for_range_ind.
    - split; [done|]. intros k Hk. by rewrite lookup_replicate_2.
    - intros i d Hi [Hd HP]. split; [by rewrite length_insert|]. intros k Hk.
      destruct (decide (k = i)) as [->|Hne].
      + rewrite list_lookup_insert_eq, decide_True by lia.
        by rewrite list_lookup_total_alt, HP, decide_False by lia.
      + rewrite list_lookup_insert_ne, HP by done. do 2 case_decide; (done || lia). }
  rewrite list_lookup_fmap. destruct (decide (j < 64)%nat) as [Hj|Hj].
  - rewrite HP by done. case_decide as Hk.
    + rewrite lookup_app_l by done. destruct (lookup_lt_is_Some_2 key j Hk) as [x Hx].
      rewrite Hx, (list_lookup_total_correct _ _ _ Hx). simpl. by rewrite Z.lxor_comm.
    + rewrite lookup_app_r, lookup_replicate_2 by lia. done.
  - rewrite (lookup_ge_None_2 _ j) by lia. rewrite (lookup_ge_None_2 (key ++ _)); [done|].
    simpl_len. lia.
Qed.

Section hmac.
Context (buf0 : list Z) (Hbl : length buf0 = 64%nat) (Hbb : bytes buf0).

Lemma init_update_ok m :
  bytes m -> ctx_repr (libscrypt_SHA256_Update (libscrypt_SHA256_Init buf0) m) m.
Proof. intros. apply (update_ok _ []); [by apply init_repr|done]. Qed.

(** The HMAC context of [key] after the message [m]. *)
Definition hmac_repr (ctx : HMAC_SHA256_CTX) (key m : list Z) : Prop :=
  ctx_repr (ictx ctx) (((fun b => b .^ 0x36) <$> hmac_key key) ++ m) /\
  ctx_repr (octx ctx) ((fun b => b .^ 0x5c) <$> hmac_key key).

Lemma hmac_key_bytes key c : is_byte c -> bytes key -> bytes ((fun b => b .^ c) <$> hmac_key key).
Proof.
  intros Hc Hk. apply Forall_fmap. unfold hmac_key.
  assert (forall l, bytes l -> Forall (is_byte ∘ (fun b => b .^ c)) l) as H.
  { intros l Hl. eapply Forall_impl; [|exact Hl]. intros b Hb. by apply is_word_lxor. }
  apply H, Forall_app. split; [|by apply Forall_replicate].
  case_decide; [by apply spec_sha256_wf|done].
Qed.

Lemma hmac_init_ok key :
  bytes key -> hmac_repr (libscrypt_HMAC_SHA256_Init buf0 key) key [].
Proof.
  intros Hk. unfold libscrypt_HMAC_SHA256_Init, hmac_repr. cbn [ictx octx]. rewrite app_nil_r.
  rewrite (final_ok _ key) by by apply init_update_ok.
  set (k := if decide (64 < length key)%nat then spec_sha256 key else key).
  assert (length k <= 64)%nat as Hlk.
  { unfold k. case_decide; [|lia]. destruct (spec_sha256_wf key Hk) as [-> _]. lia. }
  rewrite !xor_key_spec by done.
  split; apply init_update_ok; by apply hmac_key_bytes.
Qed.

Lemma hmac_update_ok ctx key m x :
  hmac_repr ctx key m -> bytes x -> hmac_repr (libscrypt_HMAC_SHA256_Update ctx x) key (m ++ x).
Proof.
  intros [Hi Ho] Hx. split; [|done]. cbn [ictx libscrypt_HMAC_SHA256_Update].
  rewrite app_assoc. by apply update_ok.
Qed.

Lemma hmac_final_ok ctx key m :
  hmac_repr ctx key m -> libscrypt_HMAC_SHA256_Final ctx = spec_hmac key m.
Proof.
  intros [Hi Ho]. unfold libscrypt_HMAC_SHA256_Final, spec_hmac. rewrite (final_ok _ _ Hi).
  apply final_ok, update_ok; [done|]. apply spec_sha256_wf. apply Hi.
Qed.

Lemma spec_hmac_wf key m :
  bytes key -> bytes m -> length (spec_hmac key m) = 32%nat /\ bytes (spec_hmac key m).
Proof.
  intros Hk Hm. apply spec_sha256_wf, Forall_app. split; [by apply hmac_key_bytes|].
  apply spec_sha256_wf, Forall_app. split; [by apply hmac_key_bytes|done].
Qed.

Lemma hmac_once_ok key m :
  bytes key -> bytes m ->
  libscrypt_HMAC_SHA256_Final (libscrypt_HMAC_SHA256_Update (libscrypt_HMAC_SHA256_Init buf0 key) m)
    = spec_hmac key m.
Proof. intros. apply hmac_final_ok. apply (hmac_update_ok _ _ []); [by apply hmac_init_ok|done]. Qed.

(** ** PBKDF2 *)

Lemma xor_T T U :
  length T = 32%nat -> length U = 32%nat ->
  for_ (seq 0 32) (fun k T => <[k := (T !!! k) .^ (U !!! k)]> T) T = zip_with Z.lxor T U.
Proof. intros HT HU. destruct_list T HT. by destruct_list U HU. Qed.

Lemma zip_lxor_wf T U :
  length T = 32%nat -> bytes T -> length U = 32%nat -> bytes U ->
  length (zip_with Z.lxor T U) = 32%nat /\ bytes (zip_with Z.lxor T U).
Proof.
  intros HT HbT HU HbU. split; [rewrite length_zip_with; lia|].
  apply Forall_lookup_2. intros i x Hx. apply lookup_zip_with_Some in Hx as (a & b & -> & Ha & Hb).
  apply is_word_lxor; [lia|exact (Forall_lookup_1 _ _ _ _ HbT Ha)|exact (Forall_lookup_1 _ _ _ _ HbU Hb)].
Qed.

Lemma pbkdf2_steps_ok passwd a n U T :
  bytes passwd -> length U = 32%nat -> bytes U -> length T = 32%nat -> bytes T ->
  snd (for_ (seq a n) (fun _ UT => pbkdf2_step buf0 passwd UT) (U, T)) = spec_F passwd n U T /\
  length (spec_F passwd n U T) = 32%nat /\ bytes (spec_F passwd n U T).
Proof.
  intros Hp. revert a U T. induction n as [|n IH]; intros a U T HU HbU HT HbT; [done|].
  cbn [seq]. rewrite for_cons. unfold pbkdf2_step at 2. rewrite hmac_once_ok by done. cbn [spec_F].
  destruct (spec_hmac_wf passwd U Hp HbU) as [HU' HbU']. rewrite xor_T by done.
  destruct (zip_lxor_wf T (spec_hmac passwd U)) as [HT' HbT']; [done..|]. by apply IH.
Qed.

Lemma pbkdf2_block_ok passwd salt c i :
  bytes passwd -> bytes salt -> Z.of_nat i + 1 < 2 ^ 32 ->
  let hctx := libscrypt_HMAC_SHA256_Update
    (libscrypt_HMAC_SHA256_Update (libscrypt_HMAC_SHA256_Init buf0 passwd) salt)
    (be32enc (u32 (Z.of_nat i + 1))) in
  let U := libscrypt_HMAC_SHA256_Final hctx in
  snd (pbkdf2_iterate buf0 passwd c U U) = spec_pbkdf2_block passwd salt c i /\
  length (spec_pbkdf2_block passwd salt c i) = 32%nat /\ bytes (spec_pbkdf2_block passwd salt c i).
Proof.
  intros Hp Hs Hi hctx U. unfold spec_pbkdf2_block.
  assert (bytes (be_to_bytes 4 (Z.of_nat i + 1))) as Hv by apply be_to_bytes_bytes.
  assert (U = spec_hmac passwd (salt ++ be_to_bytes 4 (Z.of_nat i + 1))) as HU.
  { apply hmac_final_ok. unfold hctx. rewrite u32_id by (unfold is_word; lia).
    rewrite be32enc_spec. apply hmac_update_ok; [|done].
    apply (hmac_update_ok _ _ []); [by apply hmac_init_ok|done]. }
  rewrite <-HU. destruct (spec_hmac_wf passwd (salt ++ be_to_bytes 4 (Z.of_nat i + 1)))
    as [HlU HbU]; [done|by apply Forall_app|]. rewrite <-HU in HlU, HbU.
  by apply pbkdf2_steps_ok.
Qed.

Lemma pbkdf2_loop_ok passwd salt c buf dkLen k :
  bytes passwd -> bytes salt -> (dkLen <= length buf)%nat -> Z.of_nat dkLen <= 32 * (2 ^ 32 - 1) ->
  (k <= (dkLen + 31) / 32)%nat ->
  let PShctx := libscrypt_HMAC_SHA256_Update (libscrypt_HMAC_SHA256_Init buf0 passwd) salt in
  for_ (seq 0 k) (fun i buf =>
    let ivec := be32enc (u32 (Z.of_nat i + 1)) in
    let hctx := libscrypt_HMAC_SHA256_Update PShctx ivec in
    let U := libscrypt_HMAC_SHA256_Final hctx in
    let '(_, T) := pbkdf2_iterate buf0 passwd c U U in
    let clen := (dkLen - i * 32)%nat in
    let clen := if decide (32 < clen)%nat then 32%nat else clen in
    blit buf (i * 32) (take clen T)) buf =
  blit buf 0 (take dkLen (mjoin (spec_pbkdf2_block passwd salt c <$> seq 0 k))).
Proof.
  intros Hp Hs Hd H32 Hk PShctx. induction k as [|k IH].
  - cbn. by rewrite take_nil, blit_nil.
  - rewrite for_seq_S, IH by lia. cbn [plus].
    assert (32 * k < dkLen)%nat as Hlt.
    { pose proof (Nat.div_mod_eq (dkLen + 31) 32). pose proof (Nat.mod_upper_bound (dkLen + 31) 32). lia. }
    assert (forall i, (i <= k)%nat -> length (spec_pbkdf2_block passwd salt c i) = 32%nat) as Hlb.
    { intros i Hi. apply (pbkdf2_block_ok passwd salt c i); [done|done|lia]. }
    destruct (pbkdf2_block_ok passwd salt c k Hp Hs) as [E _]; [lia|].
    unfold PShctx. destruct (pbkdf2_iterate _ _ _ _ _) as [U T]. cbn [snd] in E. subst T.
    set (B := mjoin (spec_pbkdf2_block passwd salt c <$> seq 0 k)).
    assert (length B = (32 * k)%nat) as HB.
    { apply length_mjoin_seq. intros i Hi. apply Hlb. lia. }
    rewrite seq_S, fmap_app, join_app. fold B. cbn [plus fmap list_fmap mjoin list_join].
    rewrite app_nil_r, (take_ge B) by lia. rewrite take_app, HB, (take_ge B) by lia.
    replace (k * 32)%nat with (0 + length B)%nat by lia. rewrite blit_blit by lia.
    do 2 f_equal. case_decide; [|f_equal; lia].
    rewrite !take_ge by (rewrite Hlb; lia). done.
Qed.

Lemma pbkdf2_ok passwd salt c buf dkLen :
  bytes passwd -> bytes salt -> (dkLen <= length buf)%nat -> Z.of_nat dkLen <= 32 * (2 ^ 32 - 1) ->
  libscrypt_PBKDF2_SHA256 buf0 passwd salt c buf dkLen = blit buf 0 (spec_pbkdf2 passwd salt c dkLen) /\
  length (spec_pbkdf2 passwd salt c dkLen) = dkLen /\ bytes (spec_pbkdf2 passwd salt c dkLen).
Proof.
  intros Hp Hs Hd H32. split; [unfold libscrypt_PBKDF2_SHA256, spec_pbkdf2; by apply pbkdf2_loop_ok|].
  assert (forall i, (i < (dkLen + 31) / 32)%nat ->
    length (spec_pbkdf2_block passwd salt c i) = 32%nat /\ bytes (spec_pbkdf2_block passwd salt c i)) as Hb.
  { intros i Hi. pose proof (Nat.div_mod_eq (dkLen + 31) 32).
    apply (pbkdf2_block_ok passwd salt c i); [done|done|lia]. }
  unfold spec_pbkdf2. split.
  - rewrite length_take, (length_mjoin_seq _ 32) by (intros i Hi; apply Hb; lia).
    pose proof (Nat.div_mod_eq (dkLen + 31) 32). pose proof (Nat.mod_upper_bound (dkLen + 31) 32). lia.
  - apply Forall_take, Forall_join, Forall_fmap, list.Forall_forall. intros i Hi.
    apply elem_of_seq in Hi. apply Hb. lia.
Qed.
End hmac.

(** ** Theorems *)

(** On every state and block, the compression function with
    its in-place rotating working array, its 64 unrolled constants and its
    shortened Ch and Maj is the FIPS 180-4 compression, whose constants are derived
    from the cube roots of the first 64 primes; the initial state is derived from
    the square roots of the first 8. *)
Theorem sha256_transform_spec state block :
  length state = 8%nat -> Forall is_u32 state -> length block = 64%nat -> bytes block ->
  SHA256_Transform state block = spec_compress state block /\
  K256 = spec_K /\ ctx_state (libscrypt_SHA256_Init []) = spec_H0.
Proof.
  intros. split_and!; [by apply transform_ok|apply K256_spec|by vm_compute].
Qed.

Lemma sha256_transform_spec_witness :
  SHA256_Transform (replicate 8 1) (replicate 64 2) = spec_compress (replicate 8 1) (replicate 64 2) /\
  K256 = spec_K /\ ctx_state (libscrypt_SHA256_Init []) = spec_H0.
Proof.
  apply (sha256_transform_spec (replicate 8 1) (replicate 64 2));
    [done|by apply Forall_replicate|done|by apply Forall_replicate].
Defined.

(** However a message is cut into pieces, feeding them to a
    fresh context (whatever its buffer held) and finishing gives the SHA-256 of
    the whole message, 32 bytes; the two-word bit counter with its carry is exact
    modulo 2^64, as the standard's length field is. *)
Theorem sha256_streaming buf0 pieces :
  length buf0 = 64%nat -> bytes buf0 -> Forall bytes pieces ->
  libscrypt_SHA256_Final (update_all (libscrypt_SHA256_Init buf0) pieces) = spec_sha256 (mjoin pieces) /\
  length (libscrypt_SHA256_Final (update_all (libscrypt_SHA256_Init buf0) pieces)) = 32%nat.
Proof.
  intros Hl Hb Hp.
  pose proof (update_all_ok _ [] pieces (init_repr buf0 Hl Hb) Hp) as HR. cbn [app] in HR.
  rewrite (final_ok _ _ HR). split; [done|]. apply spec_sha256_wf. apply HR.
Qed.

Lemma sha256_streaming_witness :
  libscrypt_SHA256_Final (update_all (libscrypt_SHA256_Init (replicate 64 9)) [[97]; []; [98; 99]])
    = spec_sha256 [97; 98; 99] /\
  length (libscrypt_SHA256_Final (update_all (libscrypt_SHA256_Init (replicate 64 9)) [[97]; []; [98; 99]]))
    = 32%nat.
Proof.
  apply (sha256_streaming (replicate 64 9) [[97]; []; [98; 99]]);
    [done|by apply Forall_replicate|by repeat constructor].
Defined.

(** libscrypt_PBKDF2_SHA256 with its cached password and salt context
    writes exactly the first dkLen bytes of PBKDF2-HMAC-SHA-256 (RFC 8018) and
    nothing else, for every iteration count and every length the block counter
    allows; the HMAC contexts compute RFC 2104, long keys included. *)
Theorem pbkdf2_spec buf0 passwd salt c buf dkLen :
  length buf0 = 64%nat -> bytes buf0 -> bytes passwd -> bytes salt ->
  (dkLen <= length buf)%nat -> Z.of_nat dkLen <= 32 * (2 ^ 32 - 1) ->
  libscrypt_PBKDF2_SHA256 buf0 passwd salt c buf dkLen = blit buf 0 (spec_pbkdf2 passwd salt c dkLen) /\
  libscrypt_HMAC_SHA256_Final
    (libscrypt_HMAC_SHA256_Update (libscrypt_HMAC_SHA256_Init buf0 passwd) salt) = spec_hmac passwd salt.
Proof.
  intros Hl Hb Hp Hs Hd H32. split; [|by apply hmac_once_ok].
  by apply pbkdf2_ok.
Qed.

Lemma pbkdf2_spec_witness :
  libscrypt_PBKDF2_SHA256 (replicate 64 0) [1] [2] 1 (replicate 5 0) 4 =
    blit (replicate 5 0) 0 (spec_pbkdf2 [1] [2] 1 4) /\
  libscrypt_HMAC_SHA256_Final
    (libscrypt_HMAC_SHA256_Update (libscrypt_HMAC_SHA256_Init (replicate 64 0) [1]) [2])
    = spec_hmac [1] [2].
Proof.
  apply (pbkdf2_spec (replicate 64 0) [1] [2] 1 (replicate 5 0) 4);
    [done|by apply Forall_replicate|by repeat constructor|by repeat constructor|simpl; lia|lia].
Defined.
