(* ===== verification/Scrypt.v ===== *)
(** * utils/libscrypt/crypto_scrypt-nosse.c: scrypt

    Salsa20/8, BlockMix, SMix and libscrypt_scrypt with its parameter checks, its
    32-bit size arithmetic and its allocations.  Buffers of uint32_t are lists of
    words; the regions X, Y and Z of the array XY are disjoint and are kept as
    separate lists.  blkcpy and blkxor move size_t words of 8 bytes, two elements
    at a time.  The theorems show that the code computes RFC 7914. *)

From S2P Require Import Prelude Words Sha256.

(** ** Block operations *)

(** blkcpy(&D[doff], &S[soff], len) *)
Definition blkcpy (D : list Z) (doff : nat) (S : list Z) (soff len : nat) : list Z :=
  for_ (seq 0 (len / 8)) (fun i D =>
    let D := <[(doff + 2 * i)%nat := S !!! (soff + 2 * i)%nat]> D in
    <[(doff + (2 * i + 1))%nat := S !!! (soff + (2 * i + 1))%nat]> D) D.

(** blkxor(D, &S[soff], len) *)
Definition blkxor (D : list Z) (S : list Z) (soff len : nat) : list Z :=
  for_ (seq 0 (len / 8)) (fun i D =>
    let D := <[(2 * i)%nat := (D !!! (2 * i)%nat) .^ (S !!! (soff + 2 * i)%nat)]> D in
    <[(2 * i + 1)%nat := (D !!! (2 * i + 1)%nat) .^ (S !!! (soff + (2 * i + 1))%nat)]> D) D.

(** ** Salsa20/8 *)

Definition R (a b : Z) : Z := u32 (a .<< b) .| (a .>> (32 - b)).

(** The statements x[a] ^= R(x[b]+x[c], k) of a double round, in order. *)
Definition salsa_columns : list (nat * nat * nat * nat) :=
  [(4, 0, 12, 7); (8, 4, 0, 9); (12, 8, 4, 13); (0, 12, 8, 18);
   (9, 5, 1, 7); (13, 9, 5, 9); (1, 13, 9, 13); (5, 1, 13, 18);
   (14, 10, 6, 7); (2, 14, 10, 9); (6, 2, 14, 13); (10, 6, 2, 18);
   (3, 15, 11, 7); (7, 3, 15, 9); (11, 7, 3, 13); (15, 11, 7, 18)]%nat.
Definition salsa_rows : list (nat * nat * nat * nat) :=
  [(1, 0, 3, 7); (2, 1, 0, 9); (3, 2, 1, 13); (0, 3, 2, 18);
   (6, 5, 4, 7); (7, 6, 5, 9); (4, 7, 6, 13); (5, 4, 7, 18);
   (11, 10, 9, 7); (8, 11, 10, 9); (9, 8, 11, 13); (10, 9, 8, 18);
   (12, 15, 14, 7); (13, 12, 15, 9); (14, 13, 12, 13); (15, 14, 13, 18)]%nat.

Definition salsa_step (x : list Z) (st : nat * nat * nat * nat) : list Z :=
  let '(a, b, c, k) := st in
  <[a := (x !!! a) .^ R (u32 ((x !!! b) + (x !!! c))) (Z.of_nat k)]> x.

Definition salsa20_8 (B : list Z) : list Z :=
  let x := blkcpy (replicate 16 0) 0 B 0 64 in
  let x := for_ (seq 0 4) (fun _ x => foldl salsa_step x (salsa_columns ++ salsa_rows)) x in
  for_ (seq 0 16) (fun i B => <[i := u32 ((B !!! i) + (x !!! i))]> B) B.

(** ** BlockMix: the new Bout and X *)

Definition blockmix_salsa8 (Bin Bout X : list Z) (r : nat) : list Z * list Z :=
  let X := blkcpy X 0 Bin ((2 * r - 1) * 16) 64 in
  for_ (seq 0 r) (fun h st =>
    let i := (2 * h)%nat in
    let '(Bout, X) := st in
    let X := blkxor X Bin (i * 16) 64 in
    let X := salsa20_8 X in
    let Bout := blkcpy Bout (i * 8) X 0 64 in
    let X := blkxor X Bin (i * 16 + 16) 64 in
    let X := salsa20_8 X in
    let Bout := blkcpy Bout (i * 8 + r * 16) X 0 64 in
    (Bout, X)) (Bout, X).

Definition integerify (B : list Z) (r : nat) : Z :=
  let off := ((2 * r - 1) * 16)%nat in
  u64 (((B !!! (off + 1)%nat) .<< 32) + (B !!! off)).

(** ** SMix *)

(** The two loops of smix over i = 0, 2, .., each on the state (V, X, Y, Z). *)
Definition smix_fill (r : nat) (N : Z) (st : list Z * list Z * list Z * list Z)
    : list Z * list Z * list Z * list Z :=
  for_ (seq 0 (Z.to_nat ((N + 1) / 2))) (fun h st =>
    let i := (2 * h)%nat in
    let '(V, X, Y, Z) := st in
    let V := blkcpy V (i * (32 * r)) X 0 (128 * r) in
    let '(Y, Z) := blockmix_salsa8 X Y Z r in
    let V := blkcpy V ((i + 1) * (32 * r)) Y 0 (128 * r) in
    let '(X, Z) := blockmix_salsa8 Y X Z r in
    (V, X, Y, Z)) st.

Definition smix_mix (r : nat) (N : Z) (V : list Z) (st : list Z * list Z * list Z)
    : list Z * list Z * list Z :=
  for_ (seq 0 (Z.to_nat ((N + 1) / 2))) (fun _ st =>
    let '(X, Y, Z) := st in
    let j := Z.to_nat (integerify X r .& (N - 1)) in
    let X := blkxor X V (j * (32 * r)) (128 * r) in
    let '(Y, Z) := blockmix_salsa8 X Y Z r in
    let j := Z.to_nat (integerify Y r .& (N - 1)) in
    let Y := blkxor Y V (j * (32 * r)) (128 * r) in
    let '(X, Z) := blockmix_salsa8 Y X Z r in
    (X, Y, Z)) st.

(** smix(&B[off], r, N, V, XY); the result is B, V and XY. *)
Definition smix (B : list Z) (off r : nat) (N : Z) (V : list Z) (XYZ : list Z * list Z * list Z)
    : list Z * list Z * (list Z * list Z * list Z) :=
  let '(X, Y, Z) := XYZ in
  let X := for_ (seq 0 (32 * r)) (fun k X => <[k := le32dec (sub B (off + 4 * k) 4)]> X) X in
  let '(V, X, Y, Z) := smix_fill r N (V, X, Y, Z) in
  let '(X, Y, Z) := smix_mix r N V (X, Y, Z) in
  let B := for_ (seq 0 (32 * r)) (fun k B => blit B (off + 4 * k) (le32enc (X !!! k))) B in
  (B, V, (X, Y, Z)).

(** ** libscrypt_scrypt *)

Inductive errno := EFBIG | EINVAL | ENOMEM.
Inductive scrypt_result :=
| Scrypt_ok (buf : list Z)
| Scrypt_error (e : errno)
| Scrypt_alloc_error
| Scrypt_munmap_error (buf : list Z).

(** The memory the calls of malloc and mmap return: B and the words of XY and V. *)
Record scrypt_mem := mk_mem { mem_B : list Z; mem_XY : list Z; mem_V : list Z }.

Definition SIZE_MAX : Z := 2 ^ 64 - 1.

(** The sanity checks, in order (SIZE_MAX / 256 exceeds UINT32_MAX). *)
Definition scrypt_check (N r p : Z) (buflen : nat) : option errno :=
  if (2 ^ 32 - 1) * 32 <? Z.of_nat buflen then Some EFBIG
  else if 2 ^ 30 <=? r * p then Some EFBIG
  else if (r =? 0) || (p =? 0) then Some EINVAL
  else if negb ((N .& u64 (N - 1)) =? 0) || (N <? 2) then Some EINVAL
  else if (SIZE_MAX / 128 / p <? r) || (SIZE_MAX / 128 / r <? N) then Some ENOMEM
  else None.

(** The sizes passed to the allocations; r and p are 32-bit, N is 64-bit. *)
Definition size_B (r p : Z) : Z := u32 (128 * r * p).
Definition size_XY (r : Z) : Z := u32 (256 * r + 64).
Definition size_V (r N : Z) : Z := u64 (u32 (128 * r) * N).

(** [alloc] is the memory obtained for the three sizes, [None] when a call fails;
    [unmap_ok] is the result of munmap.  [None] is an access outside of B, XY or V. *)
Definition libscrypt_scrypt (buf0 : list Z) (alloc : option scrypt_mem) (unmap_ok : bool)
    (passwd salt : list Z) (N r p : Z) (buf : list Z) (buflen : nat) : option scrypt_result :=
  match scrypt_check N r p buflen with
  | Some e => Some (Scrypt_error e)
  | None =>
    match alloc with
    | None => Some Scrypt_alloc_error
    | Some mem =>
      let rn := Z.to_nat r in
      let XY := mem_XY mem in
      let XYZ := (sub XY 0 (32 * rn), sub XY (32 * rn) (32 * rn), sub XY (64 * rn) 16) in
      let Blen := Z.to_nat (u32 (p * 128 * r)) in
      let B := libscrypt_PBKDF2_SHA256 buf0 passwd salt 1 (mem_B mem) Blen in
      st ← for_opt (seq 0 (Z.to_nat p)) (fun i st =>
        let '(B, V, XYZ) := st in
        let off := Z.to_nat (u32 (Z.of_nat i * 128 * r)) in
        if bool_decide (off + 128 * rn <= length B /\ 64 * rn + 16 <= length XY)%nat
           && (32 * r * N <=? Z.of_nat (length V))
        then Some (smix B off rn N V XYZ)
        else None) (B, mem_V mem, XYZ);
      let '(B, _, _) := st in
      let buf := libscrypt_PBKDF2_SHA256 buf0 passwd (take Blen B) 1 buf buflen in
      Some (if unmap_ok then Scrypt_ok buf else Scrypt_munmap_error buf)
    end
  end.

(** ** RFC 7914 *)

Definition qadd (a b k : Z) : Z := rotl 32 ((a + b) mod 2 ^ 32) k.

(** The Salsa20 quarter round. *)
Definition quarterround (y0 y1 y2 y3 : Z) : Z * Z * Z * Z :=
  let z1 := y1 .^ qadd y0 y3 7 in
  let z2 := y2 .^ qadd z1 y0 9 in
  let z3 := y3 .^ qadd z2 z1 13 in
  let z0 := y0 .^ qadd z3 z2 18 in
  (z0, z1, z2, z3).

Definition rowround (y : list Z) : list Z :=
  match y with
  | [y0; y1; y2; y3; y4; y5; y6; y7; y8; y9; y10; y11; y12; y13; y14; y15] =>
    let '(z0, z1, z2, z3) := quarterround y0 y1 y2 y3 in
    let '(z5, z6, z7, z4) := quarterround y5 y6 y7 y4 in
    let '(z10, z11, z8, z9) := quarterround y10 y11 y8 y9 in
    let '(z15, z12, z13, z14) := quarterround y15 y12 y13 y14 in
    [z0; z1; z2; z3; z4; z5; z6; z7; z8; z9; z10; z11; z12; z13; z14; z15]
  | _ => y
  end.

(** The column round is the row round of the transposed matrix. *)
Definition transpose4 (y : list Z) : list Z :=
  (fun i => y !!! (4 * (i mod 4) + i / 4)%nat) <$> seq 0 16.
Definition columnround (y : list Z) : list Z := transpose4 (rowround (transpose4 y)).
Definition doubleround (y : list Z) : list Z := rowround (columnround y).
Definition spec_salsa20_8 (B : list Z) : list Z :=
  zip_with (fun a b => (a + b) mod 2 ^ 32) B (Nat.iter 4 doubleround B).

(** scryptBlockMix on 2r blocks of 16 words: [spec_X n] is X after [n] blocks. *)
Fixpoint spec_X (r : nat) (B : list Z) (n : nat) : list Z :=
  match n with
  | O => sub B ((2 * r - 1) * 16) 16
  | S n => spec_salsa20_8 (zip_with Z.lxor (spec_X r B n) (sub B (n * 16) 16))
  end.
Definition spec_Y (r : nat) (B : list Z) (i : nat) : list Z := spec_X r B (S i).
Definition spec_blockmix (r : nat) (B : list Z) : list Z :=
  mjoin ((fun j => spec_Y r B (2 * j)) <$> seq 0 r) ++ mjoin ((fun j => spec_Y r B (2 * j + 1)) <$> seq 0 r).

(** scryptROMix; Integerify is the last block as a little-endian number. *)
Definition spec_integerify (r : nat) (B : list Z) : Z :=
  le_of_bytes (bytes_le 4 (sub B ((2 * r - 1) * 16) 16)).
Definition spec_V (r : nat) (B : list Z) (i : nat) : list Z := Nat.iter i (spec_blockmix r) B.
Definition spec_mix_step (r : nat) (B : list Z) (N : Z) (X : list Z) : list Z :=
  let j := Z.to_nat (spec_integerify r X mod N) in
  spec_blockmix r (zip_with Z.lxor X (spec_V r B j)).
Definition spec_romix (r : nat) (B : list Z) (N : Z) : list Z :=
  Nat.iter (Z.to_nat N) (spec_mix_step r B N) (spec_V r B (Z.to_nat N)).

Definition spec_scrypt (passwd salt : list Z) (N : Z) (r p : nat) (dkLen : nat) : list Z :=
  let B := spec_pbkdf2 passwd salt 1 (p * 128 * r) in
  let mf i := bytes_le 4 (spec_romix r (words_le 4 (32 * r) (sub B (128 * r * i) (128 * r))) N) in
  spec_pbkdf2 passwd (mjoin (mf <$> seq 0 p)) 1 dkLen.

(** ** Block operations *)

Lemma blkcpy_spec D doff S soff n :
  (doff + 2 * n <= length D)%nat -> (soff + 2 * n <= length S)%nat ->
  blkcpy D doff S soff (8 * n) = blit D doff (sub S soff (2 * n)).
Proof.
  intros HD HS. unfold blkcpy. rewrite Nat.mul_comm, Nat.div_mul by lia.
  induction n as [|n IH]; [by rewrite sub_0, blit_nil|].
  rewrite for_seq_S, IH by lia. cbn [plus].
  destruct (lookup_lt_is_Some_2 S (soff + 2 * n) ltac:(lia)) as [a Ha].
  destruct (lookup_lt_is_Some_2 S (soff + (2 * n + 1)) ltac:(lia)) as [b Hb].
  rewrite (list_lookup_total_correct _ _ _ Ha), (list_lookup_total_correct _ _ _ Hb).
  replace (2 * Datatypes.S n)%nat with (Datatypes.S (Datatypes.S (2 * n))) by lia.
  rewrite (sub_S S _ (Datatypes.S (2 * n)) b) by (rewrite <-Hb; f_equal; lia).
  rewrite (sub_S S _ (2 * n) a) by done.
  assert (length (sub S soff (2 * n)) = 2 * n)%nat by (apply length_sub; lia).
  rewrite !insert_blit; [done|..]; rewrite ?length_app; cbn [length]; lia.
Qed.

Lemma blkxor_spec D S soff n :
  length D = (2 * n)%nat -> (soff + 2 * n <= length S)%nat ->
  blkxor D S soff (8 * n) = zip_with Z.lxor D (sub S soff (2 * n)).
Proof.
  intros HD HS. unfold blkxor. rewrite Nat.mul_comm, Nat.div_mul by lia.
  assert (forall k, (k <= n)%nat ->
    for_ (seq 0 k) (fun i D =>
      let D := <[(2 * i)%nat := (D !!! (2 * i)%nat) .^ (S !!! (soff + 2 * i)%nat)]> D in
      <[(2 * i + 1)%nat := (D !!! (2 * i + 1)%nat) .^ (S !!! (soff + (2 * i + 1))%nat)]> D) D =
    blit D 0 (zip_with Z.lxor D (sub S soff (2 * k)))) as H.
  { induction k as [|k IH]; intros Hk; [by rewrite sub_0, zip_with_nil_r, blit_nil|].
    rewrite for_seq_S, IH by lia. cbn [plus].
    set (P := zip_with Z.lxor D (sub S soff (2 * k))).
    assert (length P = 2 * k)%nat as HP by (unfold P; rewrite length_zip_with, length_sub; lia).
    destruct (lookup_lt_is_Some_2 S (soff + 2 * k) ltac:(lia)) as [a Ha].
    destruct (lookup_lt_is_Some_2 S (soff + (2 * k + 1)) ltac:(lia)) as [b Hb].
    destruct (lookup_lt_is_Some_2 D (2 * k) ltac:(lia)) as [c Hc].
    destruct (lookup_lt_is_Some_2 D (2 * k + 1) ltac:(lia)) as [d Hd].
    rewrite (list_lookup_total_correct _ _ _ Ha), (list_lookup_total_correct _ _ _ Hb).
    rewrite (list_lookup_total_correct (blit D 0 P) (2 * k) c) by (rewrite lookup_blit_ge by lia; done).
    rewrite insert_blit by lia.
    rewrite (list_lookup_total_correct (blit D 0 (P ++ _)) (2 * k + 1) d)
      by (rewrite lookup_blit_ge by (rewrite ?length_app; cbn [length]; lia); done).
    rewrite insert_blit by (rewrite ?length_app; cbn [length]; lia). f_equal.
    apply list_eq. intros j. rewrite <-app_assoc, lookup_zip_with.
    destruct (decide (j < 2 * k)%nat).
    - rewrite lookup_app_l by lia. unfold P. rewrite lookup_zip_with. by rewrite !lookup_sub by lia.
    - rewrite lookup_app_r, HP by lia.
      destruct (decide (j = 2 * k)%nat) as [->|]; [|destruct (decide (j = 2 * k + 1)%nat) as [->|]].
      + rewrite Nat.sub_diag, Hc, lookup_sub, Ha by lia. done.
      + replace (2 * k + 1 - 2 * k)%nat with 1%nat by lia. rewrite Hd, lookup_sub, Hb by lia. done.
      + rewrite (lookup_ge_None_2 (sub S soff _)) by (rewrite length_sub; lia).
        rewrite lookup_ge_None_2 by (cbn [app length]; lia). by destruct (D !! j). }
  rewrite H by lia. apply blit_all. rewrite length_zip_with, length_sub; lia.
Qed.

Lemma length_blkxor D S soff len : length (blkxor D S soff len) = length D.
Proof.
  unfold blkxor. apply (for_ind (fun D' => length D' = length D)); [done|].
  intros. by rewrite !length_insert.
Qed.

(** ** Salsa20/8 *)

Lemma R_qadd a b k : 0 <= k <= 32 -> R (u32 (a + b)) k = qadd a b k.
Proof.
  intros Hk. unfold R, qadd, u32 at 1. rewrite (rotl_shl_trunc 32) by (try apply u32_range; lia).
  by rewrite u32_mod.
Qed.

Lemma doubleround_spec x :
  length x = 16%nat -> foldl salsa_step x (salsa_columns ++ salsa_rows) = doubleround x.
Proof.
  intros H. destruct_list x H.
  cbv -[Z.lxor Z.add u32 R qadd]. by rewrite !R_qadd by lia.
Qed.

Lemma length_doubleround x : length x = 16%nat -> length (doubleround x) = 16%nat.
Proof. intros H. by destruct_list x H. Qed.

#[local] Arguments doubleround : simpl never.
#[local] Arguments spec_salsa20_8 : simpl never.
#[local] Arguments salsa20_8 : simpl never.

Lemma salsa20_8_spec B : length B = 16%nat -> salsa20_8 B = spec_salsa20_8 B.
Proof.
  intros H. unfold salsa20_8, spec_salsa20_8.
  change 64%nat with (8 * 8)%nat. rewrite blkcpy_spec by (simpl; lia).
  rewrite (sub_all B) by (simpl; lia). rewrite blit_all by done.
  assert (forall n, length (Nat.iter n doubleround B) = 16%nat /\
    for_ (seq 0 n) (fun _ x => foldl salsa_step x (salsa_columns ++ salsa_rows)) B =
      Nat.iter n doubleround B) as Hn.
  { induction n as [|n [IH1 IH2]]; [done|]. rewrite for_seq_S, IH2.
    split; [by apply length_doubleround|]. by apply doubleround_spec. }
  destruct (Hn 4%nat) as [Hl ->]. set (x := Nat.iter 4 doubleround B) in *. clearbody x.
  destruct_list B H. destruct_list x Hl. cbv -[u32 Z.add Z.modulo Z.pow]. by rewrite !u32_mod.
Qed.

Lemma spec_salsa_wf B :
  length B = 16%nat -> length (spec_salsa20_8 B) = 16%nat /\ Forall is_u32 (spec_salsa20_8 B).
Proof.
  intros H. unfold spec_salsa20_8.
  assert (forall n, length (Nat.iter n doubleround B) = 16%nat) as Hn.
  { induction n; [done|]. by apply length_doubleround. }
  split; [rewrite length_zip_with, Hn; lia|].
  apply Forall_lookup_2. intros i x Hx. apply lookup_zip_with_Some in Hx as (a & b & -> & _).
  by apply is_word_mod.
Qed.

(** ** BlockMix *)

Section blockmix.
Context (r : nat) (Hr : (0 < r)%nat) (B : list Z) (HB : length B = (32 * r)%nat).

Lemma spec_X_length n : (n <= 2 * r)%nat -> length (spec_X r B n) = 16%nat.
Proof.
  induction n as [|n IH]; intros Hn; cbn [spec_X].
  - apply length_sub. lia.
  - apply spec_salsa_wf. rewrite length_zip_with, IH, length_sub; lia.
Qed.

Lemma spec_Y_wf i : (i < 2 * r)%nat -> length (spec_Y r B i) = 16%nat /\ Forall is_u32 (spec_Y r B i).
Proof.
  intros Hi. unfold spec_Y. cbn [spec_X]. apply spec_salsa_wf.
  rewrite length_zip_with, spec_X_length, length_sub; lia.
Qed.

Definition evens (h : nat) : list Z := mjoin ((fun j => spec_Y r B (2 * j)) <$> seq 0 h).
Definition odds (h : nat) : list Z := mjoin ((fun j => spec_Y r B (2 * j + 1)) <$> seq 0 h).

Lemma length_evens h : (h <= r)%nat -> length (evens h) = (16 * h)%nat.
Proof. intros. apply length_mjoin_seq. intros. apply spec_Y_wf. lia. Qed.
Lemma length_odds h : (h <= r)%nat -> length (odds h) = (16 * h)%nat.
Proof. intros. apply length_mjoin_seq. intros. apply spec_Y_wf. lia. Qed.

(** One salsa step of the loop. *)
Lemma blockmix_step n :
  (n < 2 * r)%nat -> salsa20_8 (blkxor (spec_X r B n) B (n * 16) 64) = spec_Y r B n.
Proof.
  intros Hn. pose proof (spec_X_length n ltac:(lia)) as HX.
  change 64%nat with (8 * 8)%nat. rewrite blkxor_spec by lia.
  change (2 * 8)%nat with 16%nat. apply salsa20_8_spec.
  rewrite length_zip_with, HX, length_sub; lia.
Qed.

Lemma store_block D off X :
  length X = 16%nat -> (off + 16 <= length D)%nat -> blkcpy D off X 0 64 = blit D off X.
Proof.
  intros HX HD. change 64%nat with (8 * 8)%nat. rewrite blkcpy_spec by lia.
  by rewrite sub_all.
Qed.

Lemma load_block X off :
  length X = 16%nat -> (off + 16 <= length B)%nat -> blkcpy X 0 B off 64 = sub B off 16.
Proof.
  intros HX HD. change 64%nat with (8 * 8)%nat. rewrite blkcpy_spec by lia.
  apply blit_all. rewrite length_sub; lia.
Qed.

(** The output after [h] rounds of the loop: the even blocks so far, what is left
    of the first half, the odd blocks so far and what is left of the second half. *)
Definition bout (Bout : list Z) (h : nat) : list Z :=
  (evens h ++ sub Bout (16 * h) (16 * (r - h))) ++ (odds h ++ drop (16 * r + 16 * h) Bout).

Lemma bout_even Bout h :
  length Bout = (32 * r)%nat -> (h < r)%nat ->
  blit (bout Bout h) (16 * h) (spec_Y r B (2 * h)) =
    (evens (S h) ++ sub Bout (16 * S h) (16 * (r - S h))) ++ (odds h ++ drop (16 * r + 16 * h) Bout).
Proof.
  intros HBo Hh. unfold bout. rewrite <-!app_assoc.
  pose proof (length_evens h ltac:(lia)) as He.
  destruct (spec_Y_wf (2 * h) ltac:(lia)) as [HY _].
  assert (length (sub Bout (16 * h) (16 * (r - h))) = 16 * (r - h))%nat as Hs by (apply length_sub; lia).
  rewrite blit_app by (rewrite ?length_app; lia). rewrite HY, drop_app_le by lia.
  unfold evens at 2. rewrite mjoin_seq_S. fold (evens h). rewrite <-app_assoc. do 3 f_equal.
  unfold sub. rewrite skipn_firstn_comm, drop_drop. f_equal; [lia|f_equal; lia].
Qed.

Lemma bout_odd Bout h :
  length Bout = (32 * r)%nat -> (h < r)%nat ->
  blit ((evens (S h) ++ sub Bout (16 * S h) (16 * (r - S h))) ++ (odds h ++ drop (16 * r + 16 * h) Bout))
    (16 * h + r * 16) (spec_Y r B (2 * h + 1)) = bout Bout (S h).
Proof.
  intros HBo Hh. unfold bout. rewrite (app_assoc _ (odds h)).
  pose proof (length_evens (S h) ltac:(lia)) as He. pose proof (length_odds h ltac:(lia)) as Ho.
  destruct (spec_Y_wf (2 * h + 1) ltac:(lia)) as [HY _].
  assert (length (sub Bout (16 * S h) (16 * (r - S h))) = 16 * (r - S h))%nat as Hs by (apply length_sub; lia).
  rewrite blit_app by (rewrite ?length_app, ?length_drop; lia).
  rewrite HY, drop_drop. unfold odds at 2. rewrite mjoin_seq_S. fold (odds h).
  rewrite <-!app_assoc. by replace (16 * r + 16 * S h)%nat with (16 * r + 16 * h + 16)%nat by lia.
Qed.

Lemma length_bout Bout h :
  length Bout = (32 * r)%nat -> (h <= r)%nat -> length (bout Bout h) = (32 * r)%nat.
Proof.
  intros HBo Hh. unfold bout. rewrite !length_app, length_evens, length_odds, length_sub, length_drop by lia.
  lia.
Qed.

Lemma blockmix_ok Bout X :
  length Bout = (32 * r)%nat -> length X = 16%nat ->
  blockmix_salsa8 B Bout X r = (spec_blockmix r B, spec_X r B (2 * r)).
Proof.
  intros HBo HX. unfold blockmix_salsa8. rewrite load_block by lia.
  change (sub B ((2 * r - 1) * 16) 16) with (spec_X r B 0).
  assert (Bout = bout Bout 0) as HB0.
  { unfold bout, sub. rewrite drop_0, Nat.sub_0_r, Nat.add_0_r. symmetry. apply take_drop. }
  assert (spec_blockmix r B = bout Bout r) as HBr.
  { unfold bout. rewrite Nat.sub_diag, sub_0, app_nil_r, drop_ge, app_nil_r by lia. done. }
  rewrite HB0 at 1. rewrite HBr. rewrite <-(Nat.mul_0_r 2) at 4.
  apply (for_range_ind (fun h st => st = (bout Bout h, spec_X r B (2 * h)))); [done|].
  intros h st Hh ->. pose proof (length_bout Bout h HBo ltac:(lia)) as Hlb.
  destruct (spec_Y_wf (2 * h) ltac:(lia)) as [HY0 _].
  destruct (spec_Y_wf (2 * h + 1) ltac:(lia)) as [HY1 _].
  rewrite blockmix_step by lia. replace (2 * h * 8)%nat with (16 * h)%nat by lia.
  rewrite (store_block (bout Bout h)), bout_even by lia.
  replace (2 * h * 16 + 16)%nat with ((2 * h + 1) * 16)%nat by lia.
  assert (spec_Y r B (2 * h) = spec_X r B (2 * h + 1)) as -> by (unfold spec_Y; f_equal; lia).
  rewrite blockmix_step by lia. rewrite store_block, bout_odd by (try done;
    rewrite <-bout_even by lia; rewrite ?length_blit; lia).
  f_equal. unfold spec_Y. f_equal. lia.
Qed.

Lemma spec_blockmix_wf :
  length (spec_blockmix r B) = (32 * r)%nat /\ Forall is_u32 (spec_blockmix r B).
Proof.
  split.
  - change (spec_blockmix r B) with (evens r ++ odds r).
    rewrite length_app, length_evens, length_odds; lia.
  - apply Forall_app. split; apply Forall_join, Forall_fmap, list.Forall_forall;
      intros j Hj; apply elem_of_seq in Hj; apply spec_Y_wf; lia.
Qed.
End blockmix.

#[local] Arguments spec_blockmix : simpl never.

(** ** SMix *)

(** A power of two in the form the code tests. *)
Lemma power_of_two N :
  2 <= N < 2 ^ 64 -> (N .& u64 (N - 1)) = 0 -> exists k, 1 <= k < 64 /\ N = 2 ^ k.
Proof.
  intros HN H. rewrite u64_id in H by (unfold is_word; lia).
  set (k := Z.log2 N). pose proof (Z.log2_spec N ltac:(lia)) as Hk. fold k in Hk.
  assert (1 <= k) as Hk1 by (apply (Z.log2_le_mono 2 N); lia).
  assert (k < 64) as Hk2 by (apply (Z.log2_lt_pow2 N 64); lia).
  exists k. split; [lia|]. destruct (decide (N = 2 ^ k)); [done|exfalso].
  assert (Z.log2 (N - 1) = k) as Hl by (apply Z.log2_unique; lia).
  assert (Z.testbit (N .& (N - 1)) k = true) as Hb.
  { rewrite Z.land_spec. unfold k at 1. rewrite Z.bit_log2 by lia.
    rewrite <-Hl. rewrite Z.bit_log2 by lia. done. }
  by rewrite H, Z.testbit_0_l in Hb.
Qed.

(** The low 64 bits of the last block decide Integerify modulo N. *)
Lemma integerify_spec r X k :
  (0 < r)%nat -> length X = (32 * r)%nat -> Forall is_u32 X -> 0 <= k <= 64 ->
  integerify X r .& (2 ^ k - 1) = spec_integerify r X mod 2 ^ k.
Proof.
  intros Hr Hl Hw Hk. unfold integerify, spec_integerify.
  set (off := ((2 * r - 1) * 16)%nat).
  destruct (lookup_lt_is_Some_2 X off ltac:(lia)) as [a Ha].
  destruct (lookup_lt_is_Some_2 X (off + 1) ltac:(lia)) as [b Hb].
  rewrite (list_lookup_total_correct _ _ _ Ha), (list_lookup_total_correct _ _ _ Hb).
  assert (is_u32 a) as Ra by exact (Forall_lookup_1 _ _ _ _ Hw Ha).
  assert (is_u32 b) as Rb by exact (Forall_lookup_1 _ _ _ _ Hw Hb).
  assert (sub X off 16 = a :: b :: sub X (off + 2) 14) as ->.
  { change 16%nat with (2 + 14)%nat. rewrite sub_add.
    rewrite (sub_S X off 1 b), (sub_S X off 0 a) by (rewrite ?Nat.add_0_r; done). done. }
  cbn [bytes_le]. rewrite !le_of_bytes_app by apply le_to_bytes_bytes.
  rewrite !length_le_to_bytes, !le_of_to_bytes_id by done.
  set (rest := le_of_bytes _). rewrite Z.shiftl_mul_pow2 by lia.
  replace (2 ^ k - 1) with (Z.ones k) by (rewrite Z.ones_equiv; lia). rewrite Z.land_ones by lia.
  rewrite u64_mod, Z.mod_mod_divide by (exists (2 ^ (64 - k)); rewrite <-Z.pow_add_r; f_equal; lia).
  replace (a + 2 ^ (8 * Z.of_nat 4) * (b + 2 ^ (8 * Z.of_nat 4) * rest))
    with (b * 2 ^ 32 + a + rest * 2 ^ (64 - k) * 2 ^ k).
  - by rewrite Z.mod_add by lia.
  - rewrite <-Z.mul_assoc, <-Z.pow_add_r by lia. replace (64 - k + k) with 64 by lia.
    change (2 ^ (8 * Z.of_nat 4)) with (2 ^ 32). lia.
Qed.

Section smix.
Context (r : nat) (Hr : (0 < r)%nat) (B : list Z) (HB : length B = (32 * r)%nat).

Lemma spec_V_length i : length (spec_V r B i) = (32 * r)%nat.
Proof. induction i as [|i IH]; [done|]. by apply spec_blockmix_wf. Qed.

Lemma spec_V_range i : (0 < i)%nat -> Forall is_u32 (spec_V r B i).
Proof. destruct i as [|i]; [lia|]. intros _. apply spec_blockmix_wf; [done|]. apply spec_V_length. Qed.

Definition Vs (n : nat) : list Z := mjoin (spec_V r B <$> seq 0 n).
Lemma length_Vs n : length (Vs n) = (32 * r * n)%nat.
Proof. apply length_mjoin_seq. intros. apply spec_V_length. Qed.

(** Storing X as V_n. *)
Lemma store_V V n :
  (32 * r * S n <= length V)%nat ->
  blkcpy (blit V 0 (Vs n)) (n * (32 * r)) (spec_V r B n) 0 (128 * r) = blit V 0 (Vs (S n)).
Proof.
  intros HV. pose proof (spec_V_length n) as Hl. pose proof (length_Vs n) as HVs.
  replace (128 * r)%nat with (8 * (16 * r))%nat by lia.
  rewrite blkcpy_spec by (rewrite ?length_blit; lia). rewrite sub_all by lia.
  replace (n * (32 * r))%nat with (0 + length (Vs n))%nat by lia.
  rewrite blit_blit by lia. unfold Vs. by rewrite mjoin_seq_S.
Qed.

Lemma smix_fill_ok k V Y T :
  (1 <= k)%nat -> (32 * r * 2 ^ k <= length V)%nat -> length Y = (32 * r)%nat -> length T = 16%nat ->
  exists Y' T', smix_fill r (2 ^ Z.of_nat k) (V, B, Y, T) =
    (blit V 0 (Vs (2 ^ k)), spec_V r B (2 ^ k), Y', T') /\
    length Y' = (32 * r)%nat /\ length T' = 16%nat.
Proof.
  intros Hk HV HY HT. unfold smix_fill.
  assert (Z.to_nat ((2 ^ Z.of_nat k + 1) / 2) = 2 ^ (k - 1))%nat as ->.
  { replace (Z.of_nat k) with (1 + Z.of_nat (k - 1)) by lia.
    rewrite Z.pow_add_r, Z.pow_1_r, Z.mul_comm, Z.div_add_l by lia. change (1 / 2) with 0.
    rewrite Z.add_0_r, <-(Nat2Z.inj_pow 2). lia. }
  assert (2 ^ k = 2 * 2 ^ (k - 1))%nat as Hp by (rewrite <-Nat.pow_succ_r'; f_equal; lia).
  set (M := (2 ^ (k - 1))%nat) in *.
  pose (P := fun (h : nat) (st : list Z * list Z * list Z * list Z) => exists Y' T' : list Z,
    st = (blit V 0 (Vs (2 * h)), spec_V r B (2 * h), Y', T') /\
    length Y' = (32 * r)%nat /\ length T' = 16%nat).
  match goal with |- context [for_ ?l ?b ?s] => assert (P M (for_ l b s)) as HP end.
  { apply for_range_ind.
    - exists Y, T. split; [|done]. change (Vs (2 * 0)) with (@nil Z). by rewrite blit_nil.
    - intros h st Hh (Y' & T' & -> & HY' & HT'). cbv beta iota zeta.
      pose proof (spec_V_length (2 * h)) as Hl. pose proof (spec_V_length (S (2 * h))) as Hl1.
      rewrite store_V by nia. rewrite (blockmix_ok r Hr _ Hl) by done. cbv beta iota.
      change (spec_blockmix r (spec_V r B (2 * h))) with (spec_V r B (S (2 * h))).
      rewrite (blockmix_ok r Hr _ Hl1) by (try done; apply spec_X_length; lia). cbv beta iota.
      change (spec_blockmix r (spec_V r B (S (2 * h)))) with (spec_V r B (S (S (2 * h)))).
      replace (2 * h + 1)%nat with (S (2 * h)) by lia. rewrite store_V by nia.
      unfold P. replace (2 * S h)%nat with (S (S (2 * h))) by lia.
      do 2 eexists. split; [done|]. split; [done|]. apply spec_X_length; [done|lia|lia]. }
  destruct HP as (Y' & T' & -> & H). exists Y', T'. by rewrite Hp.
Qed.

(** One step of the second loop. *)
Lemma mix_step_ok k V X Y T :
  (k <= 64)%nat -> (32 * r * 2 ^ k <= length V)%nat -> length X = (32 * r)%nat -> Forall is_u32 X ->
  length Y = (32 * r)%nat -> length T = 16%nat ->
  exists T', blockmix_salsa8 (blkxor X (blit V 0 (Vs (2 ^ k)))
      (Z.to_nat (integerify X r .& (2 ^ Z.of_nat k - 1)) * (32 * r)) (128 * r)) Y T r =
    (spec_mix_step r B (2 ^ Z.of_nat k) X, T') /\ length T' = 16%nat /\
    length (spec_mix_step r B (2 ^ Z.of_nat k) X) = (32 * r)%nat /\
    Forall is_u32 (spec_mix_step r B (2 ^ Z.of_nat k) X).
Proof.
  intros Hk HV HX HXw HY HT. rewrite integerify_spec by (done || lia).
  unfold spec_mix_step. set (j := Z.to_nat (spec_integerify r X mod 2 ^ Z.of_nat k)).
  assert (j < 2 ^ k)%nat as Hj.
  { pose proof (Z.mod_pos_bound (spec_integerify r X) (2 ^ Z.of_nat k) ltac:(lia)) as H.
    change 2 with (Z.of_nat 2) in H at 3. rewrite <-Nat2Z.inj_pow in H. unfold j. lia. }
  pose proof (length_Vs (2 ^ k)) as HVs.
  replace (128 * r)%nat with (8 * (16 * r))%nat by lia.
  rewrite blkxor_spec by (rewrite ?length_blit; nia).
  assert (sub (blit V 0 (Vs (2 ^ k))) (j * (32 * r)) (2 * (16 * r)) = spec_V r B j) as ->.
  { replace (2 * (16 * r))%nat with (32 * r)%nat by lia. rewrite (Nat.mul_comm j).
    rewrite <-(sub_mjoin_seq (spec_V r B) (32 * r) (2 ^ k) j) by (intros; apply spec_V_length || done).
    unfold sub, blit. rewrite take_0. cbn [app]. fold (Vs (2 ^ k)).
    rewrite drop_app_le by nia. rewrite take_app_le by (rewrite length_drop; nia). done. }
  assert (length (zip_with Z.lxor X (spec_V r B j)) = (32 * r)%nat) as Hlz
    by (rewrite length_zip_with, spec_V_length; lia).
  rewrite (blockmix_ok r Hr _ Hlz) by done. eexists. split; [done|].
  split; [apply spec_X_length; [done|done|lia]|]. by apply spec_blockmix_wf.
Qed.

Lemma smix_mix_ok k V X Y T :
  (1 <= k <= 64)%nat -> (32 * r * 2 ^ k <= length V)%nat -> length X = (32 * r)%nat -> Forall is_u32 X ->
  length Y = (32 * r)%nat -> length T = 16%nat ->
  let N := 2 ^ Z.of_nat k in
  exists Y' T', smix_mix r N (blit V 0 (Vs (2 ^ k))) (X, Y, T) =
    (Nat.iter (2 ^ k) (spec_mix_step r B N) X, Y', T') /\
    length (Nat.iter (2 ^ k) (spec_mix_step r B N) X) = (32 * r)%nat /\
    Forall is_u32 (Nat.iter (2 ^ k) (spec_mix_step r B N) X) /\
    length Y' = (32 * r)%nat /\ length T' = 16%nat.
Proof.
  intros Hk HV HX HXw HY HT N. unfold smix_mix.
  assert (Z.to_nat ((N + 1) / 2) = 2 ^ (k - 1))%nat as ->.
  { unfold N. replace (Z.of_nat k) with (1 + Z.of_nat (k - 1)) by lia.
    rewrite Z.pow_add_r, Z.pow_1_r, Z.mul_comm, Z.div_add_l by lia. change (1 / 2) with 0.
    rewrite Z.add_0_r, <-(Nat2Z.inj_pow 2). lia. }
  assert (2 ^ k = 2 * 2 ^ (k - 1))%nat as Hp by (rewrite <-Nat.pow_succ_r'; f_equal; lia).
  remember (blit V 0 (Vs (2 ^ k))) as VV eqn:HVV. rewrite Hp.
  set (M := (2 ^ (k - 1))%nat) in *.
  apply (for_range_ind (fun h (st : list Z * list Z * list Z) => exists Y' T' : list Z,
    st = (Nat.iter (2 * h) (spec_mix_step r B N) X, Y', T') /\
    length (Nat.iter (2 * h) (spec_mix_step r B N) X) = (32 * r)%nat /\
    Forall is_u32 (Nat.iter (2 * h) (spec_mix_step r B N) X) /\
    length Y' = (32 * r)%nat /\ length T' = 16%nat)).
  - exists Y, T. done.
  - intros h st Hh (Y' & T' & -> & H1 & H2 & HY' & HT'). cbv beta iota zeta.
    set (X1 := Nat.iter (2 * h) (spec_mix_step r B N) X) in *.
    destruct (mix_step_ok k V X1 Y' T') as (T1 & E1 & HT1 & HX1 & HX1w); [lia|done..|].
    fold N in E1, HX1, HX1w. rewrite <-HVV in E1. rewrite E1. cbv beta iota.
    set (X1' := blkxor X1 _ _ _).
    assert (length X1' = (32 * r)%nat) as Hl1 by (unfold X1'; rewrite length_blkxor; done).
    destruct (mix_step_ok k V (spec_mix_step r B N X1) X1' T1) as (T2 & E2 & HT2 & HX2 & HX2w); [lia|done..|].
    fold N in E2, HX2, HX2w. rewrite <-HVV in E2. rewrite E2. cbv beta iota.
    replace (2 * S h)%nat with (S (S (2 * h))) by lia. cbn [Nat.iter nat_rect]. fold X1.
    do 2 eexists. split; [done|]. rewrite length_blkxor. done.
Qed.
End smix.

Lemma smix_ok Bb off r k V X Y T :
  (0 < r)%nat -> (1 <= k <= 64)%nat -> bytes Bb -> (off + 128 * r <= length Bb)%nat ->
  (32 * r * 2 ^ k <= length V)%nat ->
  length X = (32 * r)%nat -> length Y = (32 * r)%nat -> length T = 16%nat ->
  exists V' X' Y' T', smix Bb off r (2 ^ Z.of_nat k) V (X, Y, T) =
    (blit Bb off (bytes_le 4 (spec_romix r (words_le 4 (32 * r) (sub Bb off (128 * r))) (2 ^ Z.of_nat k))),
     V', (X', Y', T')) /\
    length V' = length V /\ length X' = (32 * r)%nat /\ length Y' = (32 * r)%nat /\ length T' = 16%nat /\
    length (spec_romix r (words_le 4 (32 * r) (sub Bb off (128 * r))) (2 ^ Z.of_nat k)) = (32 * r)%nat.
Proof.
  intros Hr Hk Hb Hoff HV HX HY HT. unfold smix.
  rewrite for_store by lia. rewrite drop_ge, app_nil_r by lia.
  set (B := words_le 4 (32 * r) (sub Bb off (128 * r))).
  assert (((fun j => le32dec (sub Bb (off + 4 * j) 4)) <$> seq 0 (32 * r)) = B) as ->.
  { unfold B. rewrite words_le_seq. apply list_fmap_ext. intros i j Hj. apply lookup_seq in Hj.
    rewrite le32dec_spec by (try apply length_sub; try apply Forall_sub; done || lia).
    f_equal. unfold sub. rewrite skipn_firstn_comm, drop_drop, take_take. f_equal; [lia|f_equal; lia]. }
  assert (length B = (32 * r)%nat) as HB by apply length_words_le.
  destruct (smix_fill_ok r Hr B HB k V Y T) as (Y1 & T1 & -> & HY1 & HT1); [lia|done..|].
  destruct (smix_mix_ok r Hr B HB k V (spec_V r B (2 ^ k)) Y1 T1)
    as (Y2 & T2 & -> & HX2 & HX2w & HY2 & HT2); [lia|done|by apply spec_V_length| |done|done|].
  { apply spec_V_range; [done|done|]. apply Nat.neq_0_lt_0, Nat.pow_nonzero. lia. }
  assert (Nat.iter (2 ^ k) (spec_mix_step r B (2 ^ Z.of_nat k)) (spec_V r B (2 ^ k)) =
    spec_romix r B (2 ^ Z.of_nat k)) as HR.
  { unfold spec_romix. assert (Z.to_nat (2 ^ Z.of_nat k) = 2 ^ k)%nat as -> by (rewrite <-(Nat2Z.inj_pow 2); lia).
    done. }
  rewrite HR in *. set (X2 := spec_romix r B (2 ^ Z.of_nat k)) in *.
  destruct (for_blit (fun j => le32enc (X2 !!! j)) 4 Bb off (32 * r)) as [-> _]; [done|lia|].
  assert (mjoin ((fun j => le32enc (X2 !!! j)) <$> seq 0 (32 * r)) = bytes_le 4 X2) as ->.
  { rewrite bytes_le_mjoin.
    transitivity (mjoin (le_to_bytes 4 <$> ((fun j => X2 !!! j) <$> seq 0 (length X2))));
      [|by rewrite list_seq_total].
    rewrite HX2, <-list_fmap_compose. f_equal. }
  do 4 eexists. split; [done|]. split_and!; [|done..].
  apply length_blit. rewrite length_Vs by done. lia.
Qed.

(** ** libscrypt_scrypt *)

(** Memory of the sizes the code asks for. *)
Definition mem_sized (N r p : Z) (mem : scrypt_mem) : Prop :=
  Z.of_nat (length (mem_B mem)) = size_B r p /\ bytes (mem_B mem) /\
  Z.of_nat (length (mem_XY mem)) = size_XY r / 4 /\
  Z.of_nat (length (mem_V mem)) = size_V r N / 4.

Lemma scrypt_check_ok N r p buflen :
  is_word 64 N -> is_u32 r -> is_u32 p -> scrypt_check N r p buflen = None ->
  Z.of_nat buflen <= 32 * (2 ^ 32 - 1) /\ 0 < r /\ 0 < p /\ r * p < 2 ^ 30 /\
  128 * r * N < 2 ^ 64 /\ exists k, (1 <= k < 64)%nat /\ N = 2 ^ Z.of_nat k.
Proof.
  unfold is_word, scrypt_check. intros HN Hr Hp.
  destruct (Z.ltb_spec ((2 ^ 32 - 1) * 32) (Z.of_nat buflen)); [done|].
  destruct (Z.leb_spec (2 ^ 30) (r * p)); [done|].
  destruct (Z.eqb_spec r 0); [done|]. destruct (Z.eqb_spec p 0); [done|]. cbn [orb].
  destruct (Z.eqb_spec (N .& u64 (N - 1)) 0) as [HNp|]; [|done].
  destruct (Z.ltb_spec N 2); [done|]. cbn [negb orb].
  destruct (Z.ltb_spec (SIZE_MAX / 128 / p) r); [done|].
  destruct (Z.ltb_spec (SIZE_MAX / 128 / r) N) as [|HNr]; [done|]. intros _.
  split_and!; [lia|lia|lia|lia| |].
  - assert (N * r <= SIZE_MAX / 128) as H5.
    { pose proof (Z.mul_div_le (SIZE_MAX / 128) r ltac:(lia)). nia. }
    change (SIZE_MAX / 128) with (2 ^ 57 - 1) in H5. lia.
  - destruct (power_of_two N ltac:(lia) HNp) as (k & Hk & ->). exists (Z.to_nat k).
    rewrite Z2Nat.id by lia. split; [lia|done].
Qed.

Section scrypt.
Context (buf0 : list Z) (Hbl : length buf0 = 64%nat) (Hbb : bytes buf0).

(** The loop over the p blocks, without 32-bit overflow. *)
Lemma scrypt_loop_ok r p k B V XY n :
  (0 < r)%nat -> (1 <= k <= 64)%nat -> Z.of_nat (128 * r * p) < 2 ^ 32 ->
  length B = (128 * r * p)%nat -> bytes B ->
  (64 * r + 16 <= length XY)%nat -> (32 * r * 2 ^ k <= length V)%nat -> (n <= p)%nat ->
  let N := 2 ^ Z.of_nat k in
  let mf i := bytes_le 4 (spec_romix r (words_le 4 (32 * r) (sub B (128 * r * i) (128 * r))) N) in
  exists V' X Y T,
    for_opt (seq 0 n) (fun i st =>
      let '(B, V, XYZ) := st in
      let off := Z.to_nat (u32 (Z.of_nat i * 128 * Z.of_nat r)) in
      if bool_decide (off + 128 * r <= length B /\ 64 * r + 16 <= length XY)%nat
         && (32 * Z.of_nat r * N <=? Z.of_nat (length V))
      then Some (smix B off r N V XYZ)
      else None) (B, V, (sub XY 0 (32 * r), sub XY (32 * r) (32 * r), sub XY (64 * r) 16))
    = Some (blit B 0 (mjoin (mf <$> seq 0 n)), V', (X, Y, T)) /\
    length (mjoin (mf <$> seq 0 n)) = (128 * r * n)%nat /\
    length V' = length V /\ length X = (32 * r)%nat /\ length Y = (32 * r)%nat /\ length T = 16%nat.
Proof.
  intros Hr Hk H32 HB Hbytes HXY HV Hn N mf.
  assert (forall i, (i < p)%nat -> length (mf i) = (128 * r)%nat) as Hmf.
  { intros i Hi. unfold mf. rewrite length_bytes_le.
    destruct (smix_ok B (128 * r * i) r k V (sub XY 0 (32 * r)) (sub XY (32 * r) (32 * r))
      (sub XY (64 * r) 16)) as (? & ? & ? & ? & _ & _ & _ & _ & _ & HL);
      [done|done|done|nia|done|apply length_sub; lia..|]. fold N in HL. rewrite HL. lia. }
  induction n as [|n IH].
  - exists V, (sub XY 0 (32 * r)), (sub XY (32 * r) (32 * r)), (sub XY (64 * r) 16).
    split; [cbn [seq for_opt]; change (mjoin (mf <$> [])) with (@nil Z); by rewrite blit_nil|].
    split_and!; [change (mjoin (mf <$> seq 0 0)) with (@nil Z); cbn [length]; lia|done|apply length_sub; lia..].
  - destruct IH as (V1 & X & Y & T & E & Hl & HV1 & HX & HY & HT); [lia|].
    rewrite seq_S, for_opt_app, E. cbn [mbind option_bind plus for_opt].
    set (done_ := mjoin (mf <$> seq 0 n)) in *.
    assert (length (blit B 0 done_) = (128 * r * p)%nat) as Hlb by (rewrite length_blit; nia).
    assert (Z.to_nat (u32 (Z.of_nat n * 128 * Z.of_nat r)) = 128 * r * n)%nat as ->.
    { rewrite u32_id by (unfold is_word; nia). lia. }
    rewrite bool_decide_true by (split; nia).
    replace (32 * Z.of_nat r * N <=? Z.of_nat (length V1)) with true.
    2: { symmetry. apply Z.leb_le. unfold N. rewrite <-(Nat2Z.inj_pow 2). lia. }
    cbn [andb]. destruct (smix_ok (blit B 0 done_) (128 * r * n) r k V1 X Y T)
      as (V2 & X2 & Y2 & T2 & E2 & HV2 & HX2 & HY2 & HT2 & _); try (done || lia || nia).
    { apply Forall_blit; [done|]. apply Forall_join, Forall_fmap, Forall_true. intros. apply bytes_le_bytes. }
    fold N in E2. rewrite E2. cbn [mbind option_bind].
    rewrite sub_blit_ge by lia. fold (mf n).
    rewrite <-(Nat.add_0_l (128 * r * n)), <-Hl, blit_blit by nia.
    assert (mjoin (mf <$> seq 0 n ++ [n]) = done_ ++ mf n) as ->.
    { rewrite fmap_app, join_app. change (mjoin (mf <$> [n])) with (mf n ++ []). by rewrite app_nil_r. }
    do 4 eexists. split; [done|].
    split_and!; [rewrite length_app, Hl, Hmf; lia|lia|done..].
Qed.

Lemma scrypt_ok mem unmap_ok passwd salt N r p buf buflen :
  is_word 64 N -> is_u32 r -> is_u32 p -> scrypt_check N r p buflen = None ->
  128 * r * p < 2 ^ 32 -> 256 * r + 64 < 2 ^ 32 -> mem_sized N r p mem ->
  bytes passwd -> bytes salt -> (buflen <= length buf)%nat ->
  let out := blit buf 0 (spec_scrypt passwd salt N (Z.to_nat r) (Z.to_nat p) buflen) in
  libscrypt_scrypt buf0 (Some mem) unmap_ok passwd salt N r p buf buflen =
    Some (if unmap_ok then Scrypt_ok out else Scrypt_munmap_error out).
Proof.
  intros HN Hr Hp Hc HB32 HXY32 (HB & HBb & HXY & HV) Hpw Hs Hbuf out. unfold libscrypt_scrypt. rewrite Hc.
  cbv zeta.
  destruct (scrypt_check_ok N r p buflen HN Hr Hp Hc) as (Hbl' & Hr0 & Hp0 & Hrp & HNr & k & Hk & HNk).
  unfold size_B, size_XY, size_V in *.
  rewrite u32_id in HB, HXY by (unfold is_word; nia).
  rewrite (u32_id (128 * r)), u64_id in HV by (unfold is_word; nia).
  set (rn := Z.to_nat r) in *. set (pn := Z.to_nat p) in *.
  assert (r = Z.of_nat rn) as Er by lia. assert (p = Z.of_nat pn) as Ep by lia.
  assert (Z.to_nat (u32 (p * 128 * r)) = 128 * rn * pn)%nat as EB.
  { rewrite u32_id by (unfold is_word; nia). nia. }
  rewrite EB. destruct (pbkdf2_ok buf0 Hbl Hbb passwd salt 1 (mem_B mem) (128 * rn * pn))
    as (-> & Hl1 & Hb1); [done|done|nia|nia|].
  rewrite blit_all by nia. set (B := spec_pbkdf2 passwd salt 1 (128 * rn * pn)) in *.
  assert (2 ^ Z.of_nat k = Z.of_nat (2 ^ k)) as Ek by (rewrite Nat2Z.inj_pow; done).
  assert (64 * rn + 16 <= length (mem_XY mem))%nat as HXYn.
  { change (256 * r + 64) with (4 * 64 * r + 4 * 16) in HXY.
    replace (4 * 64 * r + 4 * 16) with ((64 * r + 16) * 4) in HXY by lia.
    rewrite Z.div_mul in HXY by lia. lia. }
  assert (32 * rn * 2 ^ k <= length (mem_V mem))%nat as HVn.
  { replace (128 * r * N) with (32 * r * N * 4) in HV by lia. rewrite Z.div_mul in HV by lia. nia. }
  destruct (scrypt_loop_ok rn pn k B (mem_V mem) (mem_XY mem) pn) as (V' & X & Y & T & E & HJ & _);
    [lia|lia|nia|done|done|done|done|done|].
  rewrite <-Er, <-HNk in E. cbv zeta in E, HJ. rewrite E. cbn [mbind option_bind].
  rewrite <-HNk in HJ. set (J := mjoin _) in *. rewrite blit_all by lia. rewrite take_ge by lia.
  assert (bytes J) as HbJ.
  { apply Forall_join, Forall_fmap, Forall_true. intros. apply bytes_le_bytes. }
  destruct (pbkdf2_ok buf0 Hbl Hbb passwd J 1 buf buflen) as (-> & _); [done|done|done|lia|].
  unfold out, spec_scrypt. by replace (pn * 128 * rn)%nat with (128 * rn * pn)%nat by lia.
Qed.
End scrypt.

(** ** 32-bit sizes *)

Lemma smix_length B off r N V XYZ :
  (off + 128 * r <= length B)%nat -> length (fst (fst (smix B off r N V XYZ))) = length B.
Proof.
  intros Ho. unfold smix. destruct XYZ as [[X Y] T].
  destruct (smix_fill _ _ _) as [[[V1 X1] Y1] T1]. destruct (smix_mix _ _ _ _) as [[X2 Y2] T2].
  cbn [fst]. apply (for_ind (fun B' => length B' = length B)); [done|].
  intros k B' Hk HB'. apply elem_of_seq in Hk. rewrite length_blit; [done|].
  cbn [length le32enc]. lia.
Qed.

(** The loop over the blocks reaches a block outside of B. *)
Lemma loop_out_of_bounds (body : nat -> list Z * list Z * (list Z * list Z * list Z) ->
    option (list Z * list Z * (list Z * list Z * list Z))) n len i0 st :
  (i0 < n)%nat -> length (fst (fst st)) = len ->
  (forall i st st', length (fst (fst st)) = len -> body i st = Some st' -> length (fst (fst st')) = len) ->
  (forall st, length (fst (fst st)) = len -> body i0 st = None) ->
  for_opt (seq 0 n) body st = None.
Proof.
  intros Hi Hst Hkeep Hbad. replace n with (i0 + S (n - S i0))%nat by lia.
  rewrite seq_app, for_opt_app. cbn [plus].
  assert (forall l st, length (fst (fst st)) = len ->
    forall st', for_opt l body st = Some st' -> length (fst (fst st')) = len) as Hl.
  { induction l as [|i l IH]; intros s Hs st' E; cbn [for_opt] in E; [by simplify_eq|].
    destruct (body i s) as [s1|] eqn:E1; [|done]. cbn [mbind option_bind] in E. eapply IH; [|exact E].
    by eapply Hkeep. }
  destruct (for_opt (seq 0 i0) body st) as [st1|] eqn:E; [|done]. cbn [mbind option_bind seq for_opt].
  rewrite Hbad; [done|]. by eapply Hl.
Qed.

(** The sizes 128*r*p are computed in 32 bits while the sanity
    checks allow r*p up to 2^30: whenever the checks pass and 128*r*p does not fit,
    B is allocated too small and the block loop accesses memory outside of it. *)
Theorem scrypt_size_overflow buf0 mem unmap_ok passwd salt N r p buf buflen :
  length buf0 = 64%nat -> bytes buf0 -> bytes passwd -> bytes salt ->
  is_word 64 N -> is_u32 r -> is_u32 p -> scrypt_check N r p buflen = None ->
  2 ^ 32 <= 128 * r * p -> mem_sized N r p mem ->
  libscrypt_scrypt buf0 (Some mem) unmap_ok passwd salt N r p buf buflen = None.
Proof.
  intros Hbl Hbb Hpw Hs HN Hr Hp Hc Hov (HB & HBb & HXY & HV). unfold libscrypt_scrypt. rewrite Hc. cbv zeta.
  destruct (scrypt_check_ok N r p buflen HN Hr Hp Hc) as (_ & Hr0 & Hp0 & Hrp & _).
  unfold size_B in HB. unfold is_word in Hr, Hp.
  assert (u32 (p * 128 * r) = u32 (128 * r * p)) as -> by (f_equal; lia).
  pose proof (u32_range (128 * r * p)) as Hsz. unfold is_word in Hsz. rewrite <-HB, Nat2Z.id.
  set (len := length (mem_B mem)) in *.
  destruct (pbkdf2_ok buf0 Hbl Hbb passwd salt 1 (mem_B mem) len) as (-> & Hl1 & _);
    [done|done|done|lia|]. rewrite blit_all by done.
  assert (r < 2 ^ 25 \/ 2 ^ 25 <= r) as [Hsmall|Hbig] by lia.
  - rewrite (loop_out_of_bounds _ _ len (Z.to_nat (Z.of_nat len / (128 * r)))); [done| |done| |].
    + assert (Z.of_nat len / (128 * r) < p); [|lia]. apply Z.div_lt_upper_bound; lia.
    + intros i [[B V] XYZ] st' HlB E. cbv beta iota in E. destruct (_ && _) eqn:Eb; [|done].
      injection E as <-. apply andb_true_iff in Eb as [Eb _]. apply bool_decide_eq_true in Eb as [Eb _].
      cbn [fst] in HlB. by rewrite smix_length.
    + intros [[B V] XYZ] HlB. cbv beta iota. cbn [fst] in HlB.
      pose proof (Z.div_mod (Z.of_nat len) (128 * r) ltac:(lia)) as Hdm.
      pose proof (Z.mod_pos_bound (Z.of_nat len) (128 * r) ltac:(lia)) as Hmb.
      pose proof (Z.div_pos (Z.of_nat len) (128 * r) ltac:(lia) ltac:(lia)) as Hq0.
      rewrite u32_id by (unfold is_word; lia).
      rewrite bool_decide_false; [done|]. intros [H _]. lia.
  - rewrite (loop_out_of_bounds _ _ len 0%nat); [done|lia|done| |].
    + intros i [[B V] XYZ] st' HlB E. cbv beta iota in E. destruct (_ && _) eqn:Eb; [|done].
      injection E as <-. apply andb_true_iff in Eb as [Eb _]. apply bool_decide_eq_true in Eb as [Eb _].
      cbn [fst] in HlB. by rewrite smix_length.
    + intros [[B V] XYZ] HlB. cbv beta iota. cbn [fst] in HlB.
      rewrite bool_decide_false; [done|]. intros [H _]. lia.
Qed.

Lemma scrypt_size_overflow_witness :
  libscrypt_scrypt (replicate 64 0)
    (Some (mk_mem [] (replicate 528 0) (replicate 512 0))) true [] [] 2 8 4194304 [] 0 = None.
Proof.
  apply (scrypt_size_overflow (replicate 64 0) (mk_mem [] (replicate 528 0) (replicate 512 0)) true
    [] [] 2 8 4194304 [] 0);
    [done|by apply Forall_replicate|done|done|done|done|done|done|done|].
  split_and!; [done|done|by vm_compute|by vm_compute].
Defined.

(** ** Theorems *)

(** salsa20_8 is the Salsa20/8 core (row rounds and transposed row
    rounds of quarter rounds) and blockmix_salsa8, with its interleaved output
    offsets, is scryptBlockMix of RFC 7914, whatever the output buffer held. *)
Theorem blockmix_spec r B Bout X :
  (0 < r)%nat -> length B = (32 * r)%nat -> length Bout = (32 * r)%nat -> length X = 16%nat ->
  fst (blockmix_salsa8 B Bout X r) = spec_blockmix r B /\ salsa20_8 X = spec_salsa20_8 X.
Proof.
  intros Hr HB HBo HX. rewrite (blockmix_ok r Hr B HB) by done. split; [done|].
  by apply salsa20_8_spec.
Qed.

Lemma blockmix_spec_witness :
  fst (blockmix_salsa8 (replicate 32 1) (replicate 32 2) (replicate 16 3) 1)
    = spec_blockmix 1 (replicate 32 1) /\
  salsa20_8 (replicate 16 3) = spec_salsa20_8 (replicate 16 3).
Proof. apply (blockmix_spec 1 (replicate 32 1) (replicate 32 2) (replicate 16 3)); (done || lia). Defined.

(** C26: With parameters that pass the checks and sizes that fit in 32
    bits, libscrypt_scrypt writes exactly scrypt(P, S, N, r, p, buflen) of RFC 7914
    to the buffer and returns success; a failing munmap turns the return value into
    an error after the key was written. *)
Theorem scrypt_correct buf0 mem unmap_ok passwd salt N r p buf buflen :
  length buf0 = 64%nat -> bytes buf0 ->
  is_word 64 N -> is_u32 r -> is_u32 p -> scrypt_check N r p buflen = None ->
  128 * r * p < 2 ^ 32 -> 256 * r + 64 < 2 ^ 32 -> mem_sized N r p mem ->
  bytes passwd -> bytes salt -> (buflen <= length buf)%nat ->
  let out := blit buf 0 (spec_scrypt passwd salt N (Z.to_nat r) (Z.to_nat p) buflen) in
  libscrypt_scrypt buf0 (Some mem) unmap_ok passwd salt N r p buf buflen =
    Some (if unmap_ok then Scrypt_ok out else Scrypt_munmap_error out).
Proof. intros. by apply scrypt_ok. Qed.

Lemma scrypt_correct_witness :
  let out := blit (replicate 4 9) 0 (spec_scrypt [1] [2] 2 1 1 4) in
  libscrypt_scrypt (replicate 64 0)
    (Some (mk_mem (replicate 128 0) (replicate 80 0) (replicate 64 0))) true [1] [2] 2 1 1 (replicate 4 9) 4
    = Some (Scrypt_ok out).
Proof.
  apply (scrypt_correct (replicate 64 0) (mk_mem (replicate 128 0) (replicate 80 0) (replicate 64 0)) true
    [1] [2] 2 1 1 (replicate 4 9) 4);
    [done|by apply Forall_replicate|done|done|done|done|done|done| |by repeat constructor|by repeat constructor
    |simpl; lia].
  split_and!; [done|by apply Forall_replicate|done|done].
Defined.

(** The sanity checks accept exactly the parameters the
    interface documents: N a power of two greater than 1, r and p positive with
    r*p below 2^30, a key of at most 32*(2^32-1) bytes, and memory 128*r*N that a
    size_t can express; otherwise the call fails without touching memory. *)
Lemma scrypt_parameters N r p buflen :
  is_word 64 N -> is_u32 r -> is_u32 p ->
  scrypt_check N r p buflen = None <->
    Z.of_nat buflen <= 32 * (2 ^ 32 - 1) /\ 0 < r /\ 0 < p /\ r * p < 2 ^ 30 /\
    128 * r * N < 2 ^ 64 /\ exists k, (1 <= k < 64)%nat /\ N = 2 ^ Z.of_nat k.
Proof.
  intros HN Hr Hp. split; [by apply scrypt_check_ok|].
  intros (Hb & Hr0 & Hp0 & Hrp & HNr & k & Hk & ->). unfold is_word in *. unfold scrypt_check.
  replace ((2 ^ 32 - 1) * 32 <? Z.of_nat buflen) with false by lia.
  replace (2 ^ 30 <=? r * p) with false by lia.
  replace (r =? 0) with false by lia. replace (p =? 0) with false by lia. cbn [orb].
  assert (2 <= 2 ^ Z.of_nat k) as HN2.
  { change 2 with (2 ^ 1) at 1. apply Z.pow_le_mono_r; lia. }
  rewrite u64_id by (unfold is_word; lia).
  replace (2 ^ Z.of_nat k - 1) with (Z.ones (Z.of_nat k)) by (rewrite Z.ones_equiv; lia).
  rewrite Z.land_ones, Z.mod_same by lia. cbn [Z.eqb negb orb].
  replace (2 ^ Z.of_nat k <? 2) with false by lia.
  change (SIZE_MAX / 128) with (2 ^ 57 - 1).
  replace ((2 ^ 57 - 1) / p <? r) with false.
  2: { symmetry. apply Z.ltb_ge, Z.div_le_lower_bound; lia. }
  replace ((2 ^ 57 - 1) / r <? 2 ^ Z.of_nat k) with false; [done|].
  symmetry. apply Z.ltb_ge, Z.div_le_lower_bound; nia.
Qed.

Lemma scrypt_parameters_witness :
  scrypt_check 16384 8 1 64 = None <->
    Z.of_nat 64 <= 32 * (2 ^ 32 - 1) /\ 0 < 8 /\ 0 < 1 /\ 8 * 1 < 2 ^ 30 /\
    128 * 8 * 16384 < 2 ^ 64 /\ exists k, (1 <= k < 64)%nat /\ 16384 = 2 ^ Z.of_nat k.
Proof. apply (scrypt_parameters 16384 8 1 64); done. Defined.
