(* ===== verification/JumpUtil.v ===== *)
(** * The shared part of libjumphash

    wutil.h and the parts every w_*.c file repeats: the 64-byte union [hash_t]
    with its views [h1], [h4], [h8], the byte-swapping macros, the rotation
    macros, and the wrappers [X_scanHash_pre] and [X_scanHash_post] around the
    compression [X].  [JumpHash] is what a wrapper and the
    jump table rely on: a function from 64 bytes to 64 bytes. *)

From S2P Require Import Prelude Words.

(** ** Macros of wutil.h *)

Definition SPH_T32 (x : Z) : Z := u32 x.
Definition SPH_T64 (x : Z) : Z := u64 x.
(** [(x) << (n)] is computed in the type of [x]. *)
Definition SPH_ROTL32 (x n : Z) : Z := SPH_T32 (u32 (x .<< n) .| (x .>> (32 - n))).
Definition SPH_ROTR32 (x n : Z) : Z := SPH_ROTL32 x (32 - n).
Definition SPH_ROTL64 (x n : Z) : Z := SPH_T64 (u64 (x .<< n) .| (x .>> (64 - n))).
Definition SPH_ROTR64 (x n : Z) : Z := SPH_ROTL64 x (64 - n).

(** The statement [b[i] ^= b[j]; b[j] ^= b[i]; b[i] ^= b[j];]. *)
Definition xor_swap (i j : nat) (b : list Z) : list Z :=
  let b := <[i := b !!! i .^ b !!! j]> b in
  let b := <[j := b !!! j .^ b !!! i]> b in
  <[i := b !!! i .^ b !!! j]> b.

(** [SWAP4(x, y)] and [SWAP8(x, y)]: the value assigned to [y]. *)
Definition SWAP4 (x : Z) : Z :=
  le_of_bytes (xor_swap 1 2 (xor_swap 0 3 (le_to_bytes 4 x))).
Definition SWAP8 (x : Z) : Z :=
  le_of_bytes (xor_swap 3 4 (xor_swap 2 5 (xor_swap 1 6 (xor_swap 0 7 (le_to_bytes 8 x))))).

(** ** The union [hash_t]

    64 bytes; [h4] and [h8] read and write them as little-endian words. *)

Abbreviation hash_t := (list Z) (only parsing).

Definition h4 (h : hash_t) (i : nat) : Z := le_of_bytes (sub h (i * 4) 4).
Definition h8 (h : hash_t) (i : nat) : Z := le_of_bytes (sub h (i * 8) 8).
Definition set_h4 (h : hash_t) (i : nat) (x : Z) : hash_t := blit h (i * 4) (le_to_bytes 4 x).
Definition set_h8 (h : hash_t) (i : nat) (x : Z) : hash_t := blit h (i * 8) (le_to_bytes 8 x).

Definition is_hash (h : hash_t) : Prop := length h = 64%nat /\ bytes h.

(** ** The wrappers

    [hashdata] is a local variable that the first loop fills. *)

Definition load_hash (input hashdata : list Z) : hash_t :=
  for_ (seq 0 64) (fun i h => <[i := input !!! i]> h) hashdata.
Definition store_hash (hashdata output : list Z) : list Z :=
  for_ (seq 0 64) (fun i o => <[i := hashdata !!! i]> o) output.

(** The bytes of an uninitialised [hash_t]: the loop overwrites all of them, so
    the wrappers do not depend on the choice made here ([load_hash_spec]). *)
Definition hash_undef : hash_t := replicate 64 0.

Definition scanHash_post (X : hash_t -> hash_t) (input output : list Z) : list Z :=
  let hashdata := load_hash input hash_undef in
  store_hash (X hashdata) output.

Definition scanHash_pre (X : hash_t -> hash_t) (input output : list Z) (nonce : Z) : list Z :=
  let hashdata := load_hash input hash_undef in
  let hashdata := set_h4 hashdata 14 (h4 hashdata 14 .^ h4 hashdata 15) in
  let hashdata := set_h4 hashdata 15 nonce in
  store_hash (X hashdata) output.

(** What a compression function of the library promises. *)
Class JumpHash (X : hash_t -> hash_t) : Prop :=
  jumphash_closed : forall h, is_hash h -> is_hash (X h).

(** ** Facts on the macros *)

Lemma lxor_swap3 x y : ((x .^ y) .^ (y .^ (x .^ y))) = y.
Proof. rewrite Z.lxor_assoc, (Z.lxor_comm y), <-Z.lxor_assoc. bitwise. bsolve. Qed.
Lemma lxor_swap2 x y : (y .^ (x .^ y)) = x.
Proof. bitwise. bsolve. Qed.

(** Three exclusive ors exchange two bytes. *)
Lemma SWAP8_be x : SWAP8 x = be_of_bytes (le_to_bytes 8 x).
Proof.
  unfold SWAP8, be_of_bytes. generalize (length_le_to_bytes 8 x).
  generalize (le_to_bytes 8 x). intros l H. destruct_list l H.
  cbn [xor_swap insert list_insert lookup_total list_lookup_total reverse rev_append].
  unfold reverse. cbn [rev_append]. by rewrite !lxor_swap3, !lxor_swap2.
Qed.
Lemma SWAP4_be x : SWAP4 x = be_of_bytes (le_to_bytes 4 x).
Proof.
  unfold SWAP4, be_of_bytes. generalize (length_le_to_bytes 4 x).
  generalize (le_to_bytes 4 x). intros l H. destruct_list l H.
  cbn [xor_swap insert list_insert lookup_total list_lookup_total].
  unfold reverse. cbn [rev_append]. by rewrite !lxor_swap3, !lxor_swap2.
Qed.

Lemma SWAP8_range x : is_u64 (SWAP8 x).
Proof. rewrite SWAP8_be. apply (be_of_bytes_range (le_to_bytes 8 x)). word_range. Qed.
Lemma SWAP4_range x : is_u32 (SWAP4 x).
Proof. rewrite SWAP4_be. apply (be_of_bytes_range (le_to_bytes 4 x)). word_range. Qed.

Lemma land_lor_land x y m : (((x .& m) .| y) .& m) = ((x .| y) .& m).
Proof. bitwise. bsolve. Qed.
Lemma SPH_ROTL64_rotl x n : SPH_ROTL64 x n = rotl 64 x n.
Proof. apply land_lor_land. Qed.
Lemma SPH_ROTL32_rotl x n : SPH_ROTL32 x n = rotl 32 x n.
Proof. apply land_lor_land. Qed.
Lemma SPH_ROTL64_range x n : is_u64 (SPH_ROTL64 x n).
Proof. apply u64_range. Qed.
Lemma SPH_ROTL32_range x n : is_u32 (SPH_ROTL32 x n).
Proof. apply u32_range. Qed.
#[export] Hint Resolve SWAP8_range SWAP4_range SPH_ROTL64_range SPH_ROTL32_range : wrange.

(** ** Facts on the union *)

(** The bytes of every [k]-byte word of a buffer in the opposite order. *)
Definition byteswap (k n : nat) (l : list Z) : list Z :=
  mjoin ((fun i => reverse (sub l (i * k) k)) <$> seq 0 n).

(** A byte-swapped buffer has the big-endian words of the buffer as its
    little-endian words. *)
Lemma byteswap_le k n l :
  length l = (k * n)%nat -> bytes l -> byteswap k n l = bytes_le k (words_be k n l).
Proof.
  intros Hl Hb. unfold byteswap. rewrite bytes_le_mjoin, words_be_seq.
  rewrite <-list_fmap_compose. f_equal. apply list_fmap_ext. intros j i [-> Hi]%lookup_seq.
  unfold compose, be_of_bytes. symmetry. apply le_to_of_bytes.
  - rewrite length_reverse. apply length_sub. nia.
  - apply Forall_reverse. word_range.
Qed.

(** Byte-swapping the little-endian bytes of words gives their big-endian bytes. *)
Lemma byteswap_bytes_le k n ws : length ws = n -> byteswap k n (bytes_le k ws) = bytes_be k ws.
Proof.
  intros <-. unfold bytes_be, byteswap. f_equal.
  rewrite <-(list_seq_total ws) at 2. rewrite <-list_fmap_compose.
  apply list_fmap_ext. intros j i [-> Hi]%lookup_seq. cbn [plus]. unfold compose, be_to_bytes.
  f_equal. rewrite bytes_le_mjoin, <-(list_seq_total ws) at 1.
  rewrite <-list_fmap_compose, (Nat.mul_comm j).
  by rewrite (sub_mjoin_seq _ k) by (done || intros; apply length_le_to_bytes).
Qed.

Lemma swapped_read8 h i :
  is_hash h -> (i < 8)%nat -> SWAP8 (h8 h i) = be_of_bytes (sub h (i * 8) 8).
Proof.
  intros [Hl Hb] Hi. rewrite SWAP8_be. unfold h8. f_equal.
  apply le_to_of_bytes; [apply length_sub; lia|word_range].
Qed.
Lemma swapped_read4 h i :
  is_hash h -> (i < 16)%nat -> SWAP4 (h4 h i) = be_of_bytes (sub h (i * 4) 4).
Proof.
  intros [Hl Hb] Hi. rewrite SWAP4_be. unfold h4. f_equal.
  apply le_to_of_bytes; [apply length_sub; lia|word_range].
Qed.

Lemma le_bytes_SWAP8 x : is_u64 x -> le_to_bytes 8 (SWAP8 x) = be_to_bytes 8 x.
Proof.
  intros Hx. rewrite SWAP8_be. unfold be_of_bytes, be_to_bytes. apply le_to_of_bytes.
  - by simpl_len.
  - apply Forall_reverse. word_range.
Qed.
Lemma le_bytes_SWAP4 x : is_u32 x -> le_to_bytes 4 (SWAP4 x) = be_to_bytes 4 x.
Proof.
  intros Hx. rewrite SWAP4_be. unfold be_of_bytes, be_to_bytes. apply le_to_of_bytes.
  - by simpl_len.
  - apply Forall_reverse. word_range.
Qed.

(** Storing all the words of the union, first to last. *)
Definition store_words (k : nat) (ws : list Z) (h : hash_t) : hash_t :=
  for_ (seq 0 (length ws)) (fun i h => blit h (i * k) (le_to_bytes k (ws !!! i))) h.

Lemma store_words_all k ws h :
  length h = (k * length ws)%nat -> store_words k ws h = bytes_le k ws.
Proof.
  intros Hl. unfold store_words.
  destruct (for_blit (fun i => le_to_bytes k (ws !!! i)) k h 0 (length ws)) as [He Hj];
    [intros; by simpl_len|lia|].
  rewrite (for_ext (fun _ => True) _ _ (fun i h => blit h (0 + k * i) (le_to_bytes k (ws !!! i))));
    [|done|intros; split; [|done]; f_equal; lia].
  rewrite He, blit_all by lia. rewrite bytes_le_mjoin. f_equal.
  rewrite <-(list_seq_total ws) at 2. by rewrite <-list_fmap_compose.
Qed.

Lemma store_words_hash k ws h :
  length h = 64%nat -> (k * length ws)%nat = 64%nat -> is_hash (store_words k ws h).
Proof.
  intros. rewrite store_words_all by lia. split; [simpl_len; lia|word_range].
Qed.

Lemma words_be_swapped h :
  is_hash h ->
  words_be 8 8 h = [SWAP8 (h8 h 0); SWAP8 (h8 h 1); SWAP8 (h8 h 2); SWAP8 (h8 h 3);
                    SWAP8 (h8 h 4); SWAP8 (h8 h 5); SWAP8 (h8 h 6); SWAP8 (h8 h 7)].
Proof. intros Hh. rewrite !swapped_read8, words_be_seq by (done || lia). reflexivity. Qed.

(** The words stored at the end, byte-swapped: the big-endian bytes of the lanes. *)
Lemma store_swapped8 ws h :
  length h = 64%nat -> length ws = 8%nat -> Forall is_u64 ws ->
  store_words 8 (SWAP8 <$> ws) h = bytes_be 8 ws.
Proof.
  intros Hh Hl Hw. rewrite store_words_all by (simpl_len; lia).
  unfold bytes_be. rewrite bytes_le_mjoin, <-list_fmap_compose. f_equal.
  apply list_fmap_ext. intros i x Hx. apply le_bytes_SWAP8.
  by apply (Forall_lookup_1 _ _ _ _ Hw Hx).
Qed.

(** ** The wrappers compute the function on the first 64 bytes *)

Lemma load_hash_spec input hd :
  (64 <= length input)%nat -> length hd = 64%nat -> load_hash input hd = take 64 input.
Proof.
  intros Hi Hh. unfold load_hash. rewrite for_store by lia.
  rewrite drop_ge, app_nil_r by lia.
  rewrite <-(list_seq_total (take 64 input)). simpl_len.
  rewrite Nat.min_l by lia. apply list_fmap_ext. intros i x [-> Hx]%lookup_seq.
  by rewrite !list_lookup_total_alt, lookup_take_lt by done.
Qed.

Lemma store_hash_spec hd output :
  length hd = 64%nat -> (64 <= length output)%nat -> store_hash hd output = hd ++ drop 64 output.
Proof.
  intros Hh Ho. unfold store_hash. rewrite for_store by lia. f_equal.
  rewrite <-Hh. apply list_seq_total.
Qed.

(** The input with its last two words mixed with the nonce. *)
Definition nonce_mix (h : hash_t) (nonce : Z) : hash_t :=
  take 56 h ++ le_to_bytes 4 (h4 h 14 .^ h4 h 15) ++ le_to_bytes 4 nonce.

Lemma nonce_mix_spec h nonce :
  length h = 64%nat ->
  set_h4 (set_h4 h 14 (h4 h 14 .^ h4 h 15)) 15 nonce = nonce_mix h nonce.
Proof.
  intros Hl. unfold set_h4, nonce_mix. change (15 * 4)%nat with (14 * 4 + 4)%nat.
  rewrite <-(length_le_to_bytes 4 (h4 h 14 .^ h4 h 15)) at 1.
  rewrite blit_blit by (simpl_len; lia). unfold blit. simpl_len.
  by rewrite (drop_ge h), !app_nil_r by lia.
Qed.

Lemma nonce_mix_hash h nonce : is_hash h -> is_hash (nonce_mix h nonce).
Proof.
  intros [Hl Hb]. unfold nonce_mix. split; [simpl_len; lia|].
  rewrite !Forall_app. split_and!; [by apply Forall_take|word_range|word_range].
Qed.

Lemma take_hash input : (64 <= length input)%nat -> bytes input -> is_hash (take 64 input).
Proof. intros. split; [simpl_len; lia|by apply Forall_take]. Qed.

Section wrappers.
Context (X : hash_t -> hash_t) `{!JumpHash X}.
Context (input output : list Z).
Context (Hin : (64 <= length input)%nat) (Hb : bytes input) (Hout : (64 <= length output)%nat).

Lemma scanHash_post_spec :
  scanHash_post X input output = X (take 64 input) ++ drop 64 output.
Proof.
  unfold scanHash_post. rewrite (load_hash_spec input hash_undef) by (exact Hin || reflexivity).
  apply store_hash_spec; [|done]. by apply jumphash_closed, take_hash.
Qed.

Lemma scanHash_pre_spec nonce :
  scanHash_pre X input output nonce = X (nonce_mix (take 64 input) nonce) ++ drop 64 output.
Proof.
  unfold scanHash_pre. rewrite (load_hash_spec input hash_undef) by (exact Hin || reflexivity).
  rewrite nonce_mix_spec by (simpl_len; lia).
  apply store_hash_spec; [|done]. by apply jumphash_closed, nonce_mix_hash, take_hash.
Qed.
End wrappers.
