(* ===== verification/JumpKeccak.v ===== *)
(** * libjumphash/w_keccak.c

    Keccak-512 on one 64-byte block, as the miner code writes it: the 25 lanes
    are local variables [a00..a44], every round works on a renaming [P0..P23]
    of them instead of moving lanes (the pi step is implicit), and six lanes are
    kept complemented so that chi needs fewer negations.  The rounds are written
    for seven unroll counts; wutil.h selects the full unroll.

    [keccak_is_keccak512]: the function is the sponge of [KeccakSpec] with rate
    72 and domain byte 1 on the byte-swapped block.  [keccak_unroll]: every
    unroll count gives the same permutation. *)

From Stdlib Require Import Btauto.
From S2P Require Import Prelude Words KeccakSpec JumpUtil.

Definition RC : list Z :=
  [0x0000000000000001; 0x0000000000008082; 0x800000000000808A; 0x8000000080008000;
  0x000000000000808B; 0x0000000080000001; 0x8000000080008081; 0x8000000000008009;
  0x000000000000008A; 0x0000000000000088; 0x0000000080008009; 0x000000008000000A;
  0x000000008000808B; 0x800000000000008B; 0x8000000000008089; 0x8000000000008003;
  0x8000000000008002; 0x8000000000000080; 0x000000000000800A; 0x800000008000000A;
  0x8000000080008081; 0x8000000000008080; 0x0000000080000001; 0x8000000080008008].

(** ** Operations on 64-bit variables *)

Definition MOV64 (s : Z) : Z := s.
Definition XOR64 (a b : Z) : Z := a .^ b.
Definition AND64 (a b : Z) : Z := a .& b.
Definition OR64 (a b : Z) : Z := a .| b.
Definition NOT64 (s : Z) : Z := SPH_T64 (u64 (Z.lnot s)).
Definition ROL64 (v n : Z) : Z := SPH_ROTL64 v n.

(** ** The steps of a round, on the 25 variables a macro is given *)

(** The value [TH_ELT] assigns to its first argument. *)
Definition TH_ELT (c0 c1 c2 c3 c4 d0 d1 d2 d3 d4 : Z) : Z :=
  let tt0 := XOR64 d0 d1 in let tt1 := XOR64 d2 d3 in let tt0 := XOR64 tt0 d4 in
  let tt0 := XOR64 tt0 tt1 in let tt0 := ROL64 tt0 1 in let tt2 := XOR64 c0 c1 in
  let tt3 := XOR64 c2 c3 in let tt0 := XOR64 tt0 c4 in let tt2 := XOR64 tt2 tt3 in
  XOR64 tt0 tt2.

(** Column parities and their addition to every lane. *)
Definition THETA (b : list Z) : list Z :=
  match b with
  | [b00; b01; b02; b03; b04; b10; b11; b12; b13; b14; b20; b21; b22; b23; b24; b30; b31; b32;
     b33; b34; b40; b41; b42; b43; b44]
    =>
    let t0 := TH_ELT b40 b41 b42 b43 b44 b10 b11 b12 b13 b14 in
    let t1 := TH_ELT b00 b01 b02 b03 b04 b20 b21 b22 b23 b24 in
    let t2 := TH_ELT b10 b11 b12 b13 b14 b30 b31 b32 b33 b34 in
    let t3 := TH_ELT b20 b21 b22 b23 b24 b40 b41 b42 b43 b44 in
    let t4 := TH_ELT b30 b31 b32 b33 b34 b00 b01 b02 b03 b04 in let b00 := XOR64 b00 t0 in
    let b01 := XOR64 b01 t0 in let b02 := XOR64 b02 t0 in let b03 := XOR64 b03 t0 in
    let b04 := XOR64 b04 t0 in let b10 := XOR64 b10 t1 in let b11 := XOR64 b11 t1 in
    let b12 := XOR64 b12 t1 in let b13 := XOR64 b13 t1 in let b14 := XOR64 b14 t1 in
    let b20 := XOR64 b20 t2 in let b21 := XOR64 b21 t2 in let b22 := XOR64 b22 t2 in
    let b23 := XOR64 b23 t2 in let b24 := XOR64 b24 t2 in let b30 := XOR64 b30 t3 in
    let b31 := XOR64 b31 t3 in let b32 := XOR64 b32 t3 in let b33 := XOR64 b33 t3 in
    let b34 := XOR64 b34 t3 in let b40 := XOR64 b40 t4 in let b41 := XOR64 b41 t4 in
    let b42 := XOR64 b42 t4 in let b43 := XOR64 b43 t4 in let b44 := XOR64 b44 t4 in
    [b00; b01; b02; b03; b04; b10; b11; b12; b13; b14; b20; b21; b22; b23; b24; b30; b31; b32;
    b33; b34; b40; b41; b42; b43; b44]
  | _ => b
  end.

(** Rotation of every lane but the first. *)
Definition RHO (b : list Z) : list Z :=
  match b with
  | [b00; b01; b02; b03; b04; b10; b11; b12; b13; b14; b20; b21; b22; b23; b24; b30; b31; b32;
     b33; b34; b40; b41; b42; b43; b44]
    =>
    let b01 := ROL64 b01 36 in let b02 := ROL64 b02 3 in let b03 := ROL64 b03 41 in
    let b04 := ROL64 b04 18 in let b10 := ROL64 b10 1 in let b11 := ROL64 b11 44 in
    let b12 := ROL64 b12 10 in let b13 := ROL64 b13 45 in let b14 := ROL64 b14 2 in
    let b20 := ROL64 b20 62 in let b21 := ROL64 b21 6 in let b22 := ROL64 b22 43 in
    let b23 := ROL64 b23 15 in let b24 := ROL64 b24 61 in let b30 := ROL64 b30 28 in
    let b31 := ROL64 b31 55 in let b32 := ROL64 b32 25 in let b33 := ROL64 b33 21 in
    let b34 := ROL64 b34 56 in let b40 := ROL64 b40 27 in let b41 := ROL64 b41 20 in
    let b42 := ROL64 b42 39 in let b43 := ROL64 b43 8 in let b44 := ROL64 b44 14 in
    [b00; b01; b02; b03; b04; b10; b11; b12; b13; b14; b20; b21; b22; b23; b24; b30; b31; b32;
    b33; b34; b40; b41; b42; b43; b44]
  | _ => b
  end.

Definition KHI_XO (a b c : Z) : Z := let kt := OR64 b c in XOR64 a kt.
Definition KHI_XA (a b c : Z) : Z := let kt := AND64 b c in XOR64 a kt.

(** The nonlinear step on partly complemented lanes. *)
Definition KHI (b : list Z) : list Z :=
  match b with
  | [b00; b01; b02; b03; b04; b10; b11; b12; b13; b14; b20; b21; b22; b23; b24; b30; b31; b32;
     b33; b34; b40; b41; b42; b43; b44]
    =>
    let bnn := NOT64 b20 in let c0 := KHI_XO b00 b10 b20 in let c1 := KHI_XO b10 bnn b30 in
    let c2 := KHI_XA b20 b30 b40 in let c3 := KHI_XO b30 b40 b00 in
    let c4 := KHI_XA b40 b00 b10 in let b00 := MOV64 c0 in let b10 := MOV64 c1 in
    let b20 := MOV64 c2 in let b30 := MOV64 c3 in let b40 := MOV64 c4 in
    let bnn := NOT64 b41 in let c0 := KHI_XO b01 b11 b21 in let c1 := KHI_XA b11 b21 b31 in
    let c2 := KHI_XO b21 b31 bnn in let c3 := KHI_XO b31 b41 b01 in
    let c4 := KHI_XA b41 b01 b11 in let b01 := MOV64 c0 in let b11 := MOV64 c1 in
    let b21 := MOV64 c2 in let b31 := MOV64 c3 in let b41 := MOV64 c4 in
    let bnn := NOT64 b32 in let c0 := KHI_XO b02 b12 b22 in let c1 := KHI_XA b12 b22 b32 in
    let c2 := KHI_XA b22 bnn b42 in let c3 := KHI_XO bnn b42 b02 in
    let c4 := KHI_XA b42 b02 b12 in let b02 := MOV64 c0 in let b12 := MOV64 c1 in
    let b22 := MOV64 c2 in let b32 := MOV64 c3 in let b42 := MOV64 c4 in
    let bnn := NOT64 b33 in let c0 := KHI_XA b03 b13 b23 in let c1 := KHI_XO b13 b23 b33 in
    let c2 := KHI_XO b23 bnn b43 in let c3 := KHI_XA bnn b43 b03 in
    let c4 := KHI_XO b43 b03 b13 in let b03 := MOV64 c0 in let b13 := MOV64 c1 in
    let b23 := MOV64 c2 in let b33 := MOV64 c3 in let b43 := MOV64 c4 in
    let bnn := NOT64 b14 in let c0 := KHI_XA b04 bnn b24 in let c1 := KHI_XO bnn b24 b34 in
    let c2 := KHI_XA b24 b34 b44 in let c3 := KHI_XO b34 b44 b04 in
    let c4 := KHI_XA b44 b04 b14 in let b04 := MOV64 c0 in let b14 := MOV64 c1 in
    let b24 := MOV64 c2 in let b34 := MOV64 c3 in let b44 := MOV64 c4 in
    [b00; b01; b02; b03; b04; b10; b11; b12; b13; b14; b20; b21; b22; b23; b24; b30; b31; b32;
    b33; b34; b40; b41; b42; b43; b44]
  | _ => b
  end.

(** Positions of the local variables of [keccak]; [t_] is the temporary of the
    [Pn_TO_P0] macros. *)
Definition a00 : nat := 0.
Definition a01 : nat := 1.
Definition a02 : nat := 2.
Definition a03 : nat := 3.
Definition a04 : nat := 4.
Definition a10 : nat := 5.
Definition a11 : nat := 6.
Definition a12 : nat := 7.
Definition a13 : nat := 8.
Definition a14 : nat := 9.
Definition a20 : nat := 10.
Definition a21 : nat := 11.
Definition a22 : nat := 12.
Definition a23 : nat := 13.
Definition a24 : nat := 14.
Definition a30 : nat := 15.
Definition a31 : nat := 16.
Definition a32 : nat := 17.
Definition a33 : nat := 18.
Definition a34 : nat := 19.
Definition a40 : nat := 20.
Definition a41 : nat := 21.
Definition a42 : nat := 22.
Definition a43 : nat := 23.
Definition a44 : nat := 24.
Definition t_ : nat := 25.

Definition P0 : list nat :=
  [a00; a01; a02; a03; a04; a10; a11; a12; a13; a14; a20; a21; a22; a23; a24; a30; a31; a32;
  a33; a34; a40; a41; a42; a43; a44].
Definition P1 : list nat :=
  [a00; a30; a10; a40; a20; a11; a41; a21; a01; a31; a22; a02; a32; a12; a42; a33; a13; a43;
  a23; a03; a44; a24; a04; a34; a14].
Definition P2 : list nat :=
  [a00; a33; a11; a44; a22; a41; a24; a02; a30; a13; a32; a10; a43; a21; a04; a23; a01; a34;
  a12; a40; a14; a42; a20; a03; a31].
Definition P3 : list nat :=
  [a00; a23; a41; a14; a32; a24; a42; a10; a33; a01; a43; a11; a34; a02; a20; a12; a30; a03;
  a21; a44; a31; a04; a22; a40; a13].
Definition P4 : list nat :=
  [a00; a12; a24; a31; a43; a42; a04; a11; a23; a30; a34; a41; a03; a10; a22; a21; a33; a40;
  a02; a14; a13; a20; a32; a44; a01].
Definition P5 : list nat :=
  [a00; a21; a42; a13; a34; a04; a20; a41; a12; a33; a03; a24; a40; a11; a32; a02; a23; a44;
  a10; a31; a01; a22; a43; a14; a30].
Definition P6 : list nat :=
  [a00; a02; a04; a01; a03; a20; a22; a24; a21; a23; a40; a42; a44; a41; a43; a10; a12; a14;
  a11; a13; a30; a32; a34; a31; a33].
Definition P7 : list nat :=
  [a00; a10; a20; a30; a40; a22; a32; a42; a02; a12; a44; a04; a14; a24; a34; a11; a21; a31;
  a41; a01; a33; a43; a03; a13; a23].
Definition P8 : list nat :=
  [a00; a11; a22; a33; a44; a32; a43; a04; a10; a21; a14; a20; a31; a42; a03; a41; a02; a13;
  a24; a30; a23; a34; a40; a01; a12].
Definition P9 : list nat :=
  [a00; a41; a32; a23; a14; a43; a34; a20; a11; a02; a31; a22; a13; a04; a40; a24; a10; a01;
  a42; a33; a12; a03; a44; a30; a21].
Definition P10 : list nat :=
  [a00; a24; a43; a12; a31; a34; a03; a22; a41; a10; a13; a32; a01; a20; a44; a42; a11; a30;
  a04; a23; a21; a40; a14; a33; a02].
Definition P11 : list nat :=
  [a00; a42; a34; a21; a13; a03; a40; a32; a24; a11; a01; a43; a30; a22; a14; a04; a41; a33;
  a20; a12; a02; a44; a31; a23; a10].
Definition P12 : list nat :=
  [a00; a04; a03; a02; a01; a40; a44; a43; a42; a41; a30; a34; a33; a32; a31; a20; a24; a23;
  a22; a21; a10; a14; a13; a12; a11].
Definition P13 : list nat :=
  [a00; a20; a40; a10; a30; a44; a14; a34; a04; a24; a33; a03; a23; a43; a13; a22; a42; a12;
  a32; a02; a11; a31; a01; a21; a41].
Definition P14 : list nat :=
  [a00; a22; a44; a11; a33; a14; a31; a03; a20; a42; a23; a40; a12; a34; a01; a32; a04; a21;
  a43; a10; a41; a13; a30; a02; a24].
Definition P15 : list nat :=
  [a00; a32; a14; a41; a23; a31; a13; a40; a22; a04; a12; a44; a21; a03; a30; a43; a20; a02;
  a34; a11; a24; a01; a33; a10; a42].
Definition P16 : list nat :=
  [a00; a43; a31; a24; a12; a13; a01; a44; a32; a20; a21; a14; a02; a40; a33; a34; a22; a10;
  a03; a41; a42; a30; a23; a11; a04].
Definition P17 : list nat :=
  [a00; a34; a13; a42; a21; a01; a30; a14; a43; a22; a02; a31; a10; a44; a23; a03; a32; a11;
  a40; a24; a04; a33; a12; a41; a20].
Definition P18 : list nat :=
  [a00; a03; a01; a04; a02; a30; a33; a31; a34; a32; a10; a13; a11; a14; a12; a40; a43; a41;
  a44; a42; a20; a23; a21; a24; a22].
Definition P19 : list nat :=
  [a00; a40; a30; a20; a10; a33; a23; a13; a03; a43; a11; a01; a41; a31; a21; a44; a34; a24;
  a14; a04; a22; a12; a02; a42; a32].
Definition P20 : list nat :=
  [a00; a44; a33; a22; a11; a23; a12; a01; a40; a34; a41; a30; a24; a13; a02; a14; a03; a42;
  a31; a20; a32; a21; a10; a04; a43].
Definition P21 : list nat :=
  [a00; a14; a23; a32; a41; a12; a21; a30; a44; a03; a24; a33; a42; a01; a10; a31; a40; a04;
  a13; a22; a43; a02; a11; a20; a34].
Definition P22 : list nat :=
  [a00; a31; a12; a43; a24; a21; a02; a33; a14; a40; a42; a23; a04; a30; a11; a13; a44; a20;
  a01; a32; a34; a10; a41; a22; a03].
Definition P23 : list nat :=
  [a00; a13; a21; a34; a42; a02; a10; a23; a31; a44; a04; a12; a20; a33; a41; a01; a14; a22;
  a30; a43; a03; a11; a24; a32; a40].
Definition Ptab : list (list nat) :=
  [P0; P1; P2; P3; P4; P5; P6; P7; P8; P9; P10; P11; P12; P13; P14; P15; P16; P17; P18; P19;
   P20; P21; P22; P23].

(** The moves of the [Pn_TO_P0] macros, [MOV64(d, s)] as the pair [(d, s)]. *)
Definition P1_TO_P0 : list (nat * nat) :=
  [(t_, a01); (a01, a30); (a30, a33); (a33, a23); (a23, a12); (a12, a21); (a21, a02);
  (a02, a10); (a10, a11); (a11, a41); (a41, a24); (a24, a42); (a42, a04); (a04, a20);
  (a20, a22); (a22, a32); (a32, a43); (a43, a34); (a34, a03); (a03, a40); (a40, a44);
  (a44, a14); (a14, a31); (a31, a13); (a13, t_)].
Definition P2_TO_P0 : list (nat * nat) :=
  [(t_, a01); (a01, a33); (a33, a12); (a12, a02); (a02, a11); (a11, a24); (a24, a04);
  (a04, a22); (a22, a43); (a43, a03); (a03, a44); (a44, a31); (a31, t_); (t_, a10); (a10, a41);
  (a41, a42); (a42, a20); (a20, a32); (a32, a34); (a34, a40); (a40, a14); (a14, a13);
  (a13, a30); (a30, a23); (a23, a21); (a21, t_)].
Definition P4_TO_P0 : list (nat * nat) :=
  [(t_, a01); (a01, a12); (a12, a11); (a11, a04); (a04, a43); (a43, a44); (a44, t_); (t_, a02);
  (a02, a24); (a24, a22); (a22, a03); (a03, a31); (a31, a33); (a33, t_); (t_, a10); (a10, a42);
  (a42, a32); (a32, a40); (a40, a13); (a13, a23); (a23, t_); (t_, a14); (a14, a30); (a30, a21);
  (a21, a41); (a41, a20); (a20, a34); (a34, t_)].
Definition P6_TO_P0 : list (nat * nat) :=
  [(t_, a01); (a01, a02); (a02, a04); (a04, a03); (a03, t_); (t_, a10); (a10, a20); (a20, a40);
  (a40, a30); (a30, t_); (t_, a11); (a11, a22); (a22, a44); (a44, a33); (a33, t_); (t_, a12);
  (a12, a24); (a24, a43); (a43, a31); (a31, t_); (t_, a13); (a13, a21); (a21, a42); (a42, a34);
  (a34, t_); (t_, a14); (a14, a23); (a23, a41); (a41, a32); (a32, t_)].
Definition P8_TO_P0 : list (nat * nat) :=
  [(t_, a01); (a01, a11); (a11, a43); (a43, t_); (t_, a02); (a02, a22); (a22, a31); (a31, t_);
  (t_, a03); (a03, a33); (a33, a24); (a24, t_); (t_, a04); (a04, a44); (a44, a12); (a12, t_);
  (t_, a10); (a10, a32); (a32, a13); (a13, t_); (t_, a14); (a14, a21); (a21, a20); (a20, t_);
  (t_, a23); (a23, a42); (a42, a40); (a40, t_); (t_, a30); (a30, a41); (a41, a34); (a34, t_)].
Definition P12_TO_P0 : list (nat * nat) :=
  [(t_, a01); (a01, a04); (a04, t_); (t_, a02); (a02, a03); (a03, t_); (t_, a10); (a10, a40);
  (a40, t_); (t_, a11); (a11, a44); (a44, t_); (t_, a12); (a12, a43); (a43, t_); (t_, a13);
  (a13, a42); (a42, t_); (t_, a14); (a14, a41); (a41, t_); (t_, a20); (a20, a30); (a30, t_);
  (t_, a21); (a21, a34); (a34, t_); (t_, a22); (a22, a33); (a33, t_); (t_, a23); (a23, a32);
  (a32, t_); (t_, a24); (a24, a31); (a31, t_)].

(** ** Rounds

    The local variables are a list of 25 values.  A macro applied to the
    variables [P] reads them and writes them back. *)

Definition reads {A} `{!Inhabited A} (P : list nat) (st : list A) : list A :=
  (fun i => st !!! i) <$> P.
Definition writes (P : list nat) (v : list Z) (st : list Z) : list Z :=
  foldl (fun st '(i, x) => <[i := x]> st) st (zip P v).
Definition with_vars (F : list Z -> list Z) (P : list nat) (st : list Z) : list Z :=
  writes P (F (reads P st)) st.

Definition IOTA (r : Z) (st : list Z) : list Z := <[a00 := XOR64 (st !!! a00) r]> st.

Definition KF_ELT (r s : nat) (k : Z) (st : list Z) : list Z :=
  let st := with_vars THETA (Ptab !!! r) st in
  let st := with_vars RHO (Ptab !!! r) st in
  let st := with_vars KHI (Ptab !!! s) st in
  IOTA k st.

(** [MOV64]s, one after the other, on the variables and the temporary. *)
Definition run_moves (moves : list (nat * nat)) (st : list Z) : list Z :=
  take 25 (foldl (fun st '(d, s) => <[d := st !!! s]> st) (st ++ [0]) moves).

(** [for (j = 0; j < 24; j += n) { KF_ELT(0, 1, RC[j]); .. KF_ELT(n-1, n, RC[j+n-1]);
    Pn_TO_P0; }] *)
Definition unrolled (n : nat) (moves : list (nat * nat)) (st : list Z) : list Z :=
  for_ (rangestep (24 / n) n) (fun j st =>
    run_moves moves (for_ (seq 0 n) (fun i st => KF_ELT i (i + 1) (RC !!! (j + i)%nat) st) st)) st.

(** [KECCAK_F_1600_] for [SPH_KECCAK_UNROLL] = [unroll]; [None] is the [#error]. *)
Definition KECCAK_F_1600_ (unroll : nat) : option (list Z -> list Z) :=
  match unroll with
  | 1 => Some (unrolled 1 P1_TO_P0)
  | 2 => Some (unrolled 2 P2_TO_P0)
  | 4 => Some (unrolled 4 P4_TO_P0)
  | 6 => Some (unrolled 6 P6_TO_P0)
  | 8 => Some (unrolled 8 P8_TO_P0)
  | 12 => Some (unrolled 12 P12_TO_P0)
  | 0 => Some (fun st =>
      let st := for_ (seq 0 23) (fun i st => KF_ELT i (i + 1) (RC !!! i) st) st in
      KF_ELT 23 0 (RC !!! 23%nat) st)
  | _ => None
  end%nat.

(** wutil.h. *)
Definition SPH_KECCAK_UNROLL : nat := 0.
Definition KECCAK_F_1600 (st : list Z) : list Z :=
  match KECCAK_F_1600_ SPH_KECCAK_UNROLL with Some f => f st | None => st end.

Definition set_var (i : nat) (x : Z) (st : list Z) : list Z := <[i := x]> st.
Definition xor_var (i : nat) (x : Z) (st : list Z) : list Z := <[i := st !!! i .^ x]> st.

Definition keccak (hash : hash_t) : hash_t :=
  let st := replicate 25 0 in
  let st := set_var a10 0xFFFFFFFFFFFFFFFF st in
  let st := set_var a20 0xFFFFFFFFFFFFFFFF st in
  let st := set_var a31 0xFFFFFFFFFFFFFFFF st in
  let st := set_var a22 0xFFFFFFFFFFFFFFFF st in
  let st := set_var a23 0xFFFFFFFFFFFFFFFF st in
  let st := set_var a04 0xFFFFFFFFFFFFFFFF st in
  let tt0 := SWAP8 (h8 hash 0) in let tt1 := SWAP8 (h8 hash 1) in
  let tt2 := SWAP8 (h8 hash 2) in let tt3 := SWAP8 (h8 hash 3) in
  let tt4 := SWAP8 (h8 hash 4) in let tt5 := SWAP8 (h8 hash 5) in
  let tt6 := SWAP8 (h8 hash 6) in let tt7 := SWAP8 (h8 hash 7) in
  let st := xor_var a00 tt0 st in let st := xor_var a10 tt1 st in
  let st := xor_var a20 tt2 st in let st := xor_var a30 tt3 st in
  let st := xor_var a40 tt4 st in let st := xor_var a01 tt5 st in
  let st := xor_var a11 tt6 st in let st := xor_var a21 tt7 st in
  let st := xor_var a31 0x8000000000000001 st in
  let st := KECCAK_F_1600 st in
  let st := set_var a10 (u64 (Z.lnot (st !!! a10))) st in
  let st := set_var a20 (u64 (Z.lnot (st !!! a20))) st in
  store_words 8 [SWAP8 (st !!! a00); SWAP8 (st !!! a10); SWAP8 (st !!! a20); SWAP8 (st !!! a30);
                 SWAP8 (st !!! a40); SWAP8 (st !!! a01); SWAP8 (st !!! a11); SWAP8 (st !!! a21)] hash.

Definition keccak_scanHash_pre := scanHash_pre keccak.
Definition keccak_scanHash_post := scanHash_post keccak.

(** ** Renamed variables *)

(** [P] names each of the 25 variables once. *)
Definition renaming (P : list nat) : Prop :=
  length P = 25%nat /\ NoDup P /\ Forall (fun i => i < 25)%nat P.
#[global] Instance renaming_dec P : Decision (renaming P) := _.

Lemma length_reads {A} `{!Inhabited A} P (st : list A) : length (reads P st) = length P.
Proof. apply length_fmap. Qed.
#[export] Hint Rewrite @length_reads : len.

Lemma reads_insert P (st : list Z) i j x :
  NoDup P -> P !! j = Some i -> (i < length st)%nat ->
  reads P (<[i := x]> st) = <[j := x]> (reads P st).
Proof.
  intros HP Hj Hi. apply list_eq. intros k. unfold reads. rewrite list_lookup_fmap.
  destruct (decide (j = k)) as [<-|Hne].
  - rewrite list_lookup_insert_eq by (simpl_len; by eapply lookup_lt_Some).
    rewrite Hj. simpl. by rewrite list_lookup_total_insert_eq.
  - rewrite list_lookup_insert_ne, list_lookup_fmap by done.
    destruct (P !! k) as [i'|] eqn:Hk; [|done]. simpl. f_equal.
    apply list_lookup_total_insert_ne. intros <-. apply Hne. by eapply NoDup_lookup.
Qed.

Lemma length_writes P v (st : list Z) : length (writes P v st) = length st.
Proof.
  unfold writes. revert st. induction (zip P v) as [|[i x] l IH]; intros st; [done|].
  simpl. rewrite IH. apply length_insert.
Qed.

Lemma writes_other P v (st : list Z) i : i ∉ P -> writes P v st !! i = st !! i.
Proof.
  unfold writes. revert v st. induction P as [|p P IH]; intros v st Hi; [done|].
  destruct v as [|x v]; [done|]. simpl. apply not_elem_of_cons in Hi as [Hne Hi].
  rewrite IH by done. by apply list_lookup_insert_ne.
Qed.

Lemma reads_writes_gen P v (st : list Z) :
  NoDup P -> Forall (fun i => i < length st)%nat P -> length v = length P ->
  reads P (writes P v st) = v.
Proof.
  intros HP. revert v st. induction HP as [|p P Hp HP IH]; intros v st Hr Hl.
  - by destruct v.
  - destruct v as [|x v]; [done|]. apply Forall_cons_1 in Hr as [Hp' Hr].
    change (writes (p :: P) (x :: v) st) with (writes P v (<[p := x]> st)).
    unfold reads. rewrite fmap_cons. f_equal.
    + rewrite list_lookup_total_alt, writes_other by done.
      by rewrite list_lookup_insert_eq.
    + apply IH; [|simpl in Hl; lia]. by rewrite length_insert.
Qed.

Lemma reads_writes P v (st : list Z) :
  renaming P -> length st = 25%nat -> length v = 25%nat -> reads P (writes P v st) = v.
Proof. intros (Hl & Hn & Hr) Hs Hv. apply reads_writes_gen; [done| |congruence]. by rewrite Hs. Qed.

(** Reading through a renaming of a renaming. *)
Lemma reads_reads (Q P : list nat) (st : list Z) :
  Forall (fun i => i < length P)%nat Q -> reads (reads Q P) st = reads Q (reads P st).
Proof.
  intros HQ. unfold reads. rewrite <-list_fmap_compose. apply list_fmap_ext.
  intros k i Hk. destruct (lookup_lt_is_Some_2 P i) as [x Hx].
  { by apply (Forall_lookup_1 _ _ _ _ HQ Hk). }
  simpl. rewrite (list_lookup_total_correct P i x Hx).
  symmetry. apply list_lookup_total_correct. by rewrite list_lookup_fmap, Hx.
Qed.

(** Every table renames the variables, and the next one is the table P1 of the
    current one: round r leaves the lanes where table r+1 expects them. *)
Lemma Ptab_renaming r : (r < 24)%nat -> renaming (Ptab !!! r).
Proof.
  intros Hr. assert (Forall renaming Ptab) as H by (refine (bool_decide_unpack _ _); vm_compute; exact I).
  rewrite list.Forall_forall in H. apply H.
  apply list_elem_of_lookup_total_2. done.
Qed.

Lemma Ptab_next r : (r < 24)%nat -> Ptab !!! ((r + 1) mod 24)%nat = reads P1 (Ptab !!! r).
Proof. intros Hr. do 24 (destruct r as [|r]; [reflexivity|]). lia. Qed.

(** ** One round on the renamed variables *)

Definition logical_round (k : Z) (v : list Z) : list Z :=
  IOTA k (KHI (reads P1 (RHO (THETA v)))).

Lemma length_THETA v : length v = 25%nat -> length (THETA v) = 25%nat.
Proof. intros H. by destruct_list v H. Qed.
Lemma length_RHO v : length v = 25%nat -> length (RHO v) = 25%nat.
Proof. intros H. by destruct_list v H. Qed.
Lemma length_KHI v : length v = 25%nat -> length (KHI v) = 25%nat.
Proof. intros H. by destruct_list v H. Qed.
#[global] Opaque THETA RHO KHI.

Lemma length_KF_ELT r s k st : length (KF_ELT r s k st) = length st.
Proof. unfold KF_ELT, IOTA, with_vars. by rewrite length_insert, !length_writes. Qed.

Lemma reads_with_vars F P st :
  renaming P -> length st = 25%nat -> (forall v, length v = 25%nat -> length (F v) = 25%nat) ->
  reads P (with_vars F P st) = F (reads P st).
Proof.
  intros HP Hst HF. apply reads_writes; [done..|]. apply HF. rewrite length_reads. apply HP.
Qed.

Lemma length_with_vars F P st : length (with_vars F P st) = length st.
Proof. apply length_writes. Qed.

Lemma KF_ELT_round r k st :
  (r < 24)%nat -> length st = 25%nat ->
  reads (Ptab !!! ((r + 1) mod 24)%nat) (KF_ELT r ((r + 1) mod 24) k st) =
  logical_round k (reads (Ptab !!! r) st).
Proof.
  intros Hr Hst.
  assert (H0 : (Ptab !!! ((r + 1) mod 24)%nat) !! 0%nat = Some a00).
  { clear -Hr. do 24 (destruct r as [|r]; [reflexivity|]). lia. }
  pose proof (Ptab_renaming r Hr) as HP.
  pose proof (Ptab_renaming ((r + 1) mod 24) ltac:(by apply Nat.mod_upper_bound)) as HQ.
  pose proof (Ptab_next r Hr) as Hnext.
  unfold KF_ELT, logical_round. revert HP HQ Hnext H0.
  generalize (Ptab !!! ((r + 1) mod 24)%nat), (Ptab !!! r). intros Q P HP HQ Hnext H0.
  set (st1 := with_vars THETA P st). set (st2 := with_vars RHO P st1).
  set (st3 := with_vars KHI Q st2).
  assert (H3 : length st3 = 25%nat) by (unfold st3, st2, st1; by rewrite !length_with_vars).
  assert (Hv : reads Q st3 = KHI (reads P1 (RHO (THETA (reads P st))))).
  { unfold st3. rewrite reads_with_vars;
      [|done|unfold st2, st1; by rewrite !length_with_vars|exact length_KHI].
    rewrite Hnext, reads_reads by
      (rewrite (proj1 HP); refine (bool_decide_unpack _ _); vm_compute; exact I).
    unfold st2, st1. by rewrite !reads_with_vars;
      rewrite ?length_with_vars; auto using length_RHO, length_THETA. }
  unfold IOTA. rewrite reads_insert with (j := 0%nat); [|apply HQ|done|unfold a00; lia].
  rewrite Hv. f_equal. f_equal. rewrite <-Hv. symmetry. apply list_lookup_total_correct.
  unfold reads. rewrite list_lookup_fmap. change (Q !! a00) with (Q !! 0%nat). by rewrite H0.
Qed.

(** [n] rounds from table [r] on, in the code and on the renamed variables. *)
Lemma KF_ELTs_rounds n j st :
  (n < 24)%nat -> length st = 25%nat ->
  let st' := for_ (seq 0 n) (fun i st => KF_ELT i (i + 1) (RC !!! (j + i)%nat) st) st in
  reads (Ptab !!! n) st' =
    for_ (seq 0 n) (fun i v => logical_round (RC !!! (j + i)%nat) v) (reads P0 st) /\
  length st' = 25%nat.
Proof.
  intros Hn Hst. cbv zeta. revert Hn. induction n as [|n IH]; intros Hn; [done|].
  destruct IH as [IH1 IH2]; [lia|]. rewrite !for_seq_S. cbn [plus].
  rewrite length_KF_ELT. split; [|done].
  rewrite <-IH1, <-KF_ELT_round by (done || lia).
  by rewrite Nat.mod_small, Nat.add_1_r by lia.
Qed.

Lemma reads_P0 (st : list Z) : length st = 25%nat -> reads P0 st = st.
Proof. intros H. by destruct_list st H. Qed.

(** The moves that end an unrolled loop body bring every lane back to the
    variable named by the first table. *)
Lemma moves_to_P0 n moves st :
  (n, moves) ∈ [(1, P1_TO_P0); (2, P2_TO_P0); (4, P4_TO_P0); (6, P6_TO_P0); (8, P8_TO_P0);
                (12, P12_TO_P0)]%nat ->
  length st = 25%nat -> run_moves moves st = reads (Ptab !!! n) st.
Proof.
  intros Hn H. destruct_list st H.
  repeat (apply elem_of_cons in Hn as [[= -> ->]|Hn]; [reflexivity|]). by apply elem_of_nil in Hn.
Qed.

Lemma for_shift {A} c a n (f : nat -> A -> A) v :
  for_ (seq a n) (fun i v => f (c + i)%nat v) v = for_ (seq (c + a) n) f v.
Proof.
  revert a v. induction n as [|n IH]; intros a v; [done|].
  cbn [seq]. rewrite !for_cons, IH. by rewrite Nat.add_succ_r.
Qed.

Lemma unrolled_rounds n moves st :
  (n, moves) ∈ [(1, P1_TO_P0); (2, P2_TO_P0); (4, P4_TO_P0); (6, P6_TO_P0); (8, P8_TO_P0);
                (12, P12_TO_P0)]%nat ->
  length st = 25%nat ->
  unrolled n moves st = for_ (seq 0 24) (fun i v => logical_round (RC !!! i) v) st.
Proof.
  intros Hn Hst.
  assert (Hn' : (0 < n < 24 /\ 24 / n * n = 24)%nat).
  { clear Hst. repeat (apply elem_of_cons in Hn as [[= -> ->]|Hn]; [split; [lia|reflexivity]|]).
    by apply elem_of_nil in Hn. }
  destruct Hn' as [Hn1 Hn2].
  cut (forall m, for_ (rangestep m n) (fun j st =>
      run_moves moves (for_ (seq 0 n) (fun i st => KF_ELT i (i + 1) (RC !!! (j + i)%nat) st) st)) st =
    for_ (seq 0 (m * n)) (fun i v => logical_round (RC !!! i) v) st /\
    length (for_ (seq 0 (m * n)) (fun i v => logical_round (RC !!! i) v) st) = 25%nat).
  { intros H. unfold unrolled. rewrite (proj1 (H (24 / n)%nat)). by rewrite Hn2. }
  induction m as [|m [IH1 IH2]]; [done|].
  replace (S m * n)%nat with (m * n + n)%nat by lia. unfold rangestep.
  rewrite seq_S, fmap_app, for_app. fold (rangestep m n). rewrite IH1.
  cbn [fmap list_fmap plus]. rewrite for_cons, for_nil, seq_app, for_app.
  cbn [plus]. revert IH2. generalize (for_ (seq 0 (m * n)) (λ i v, logical_round (RC !!! i) v) st).
  intros v Hv. destruct (KF_ELTs_rounds n (m * n) v) as [H1 H2]; [lia|done|].
  rewrite reads_P0 in H1 by done. rewrite (moves_to_P0 n), H1 by done.
  assert (Hsh : for_ (seq 0 n) (fun i v => logical_round (RC !!! (m * n + i)%nat) v) v =
    for_ (seq (m * n) n) (fun i v => logical_round (RC !!! i) v) v).
  { etransitivity; [apply (for_shift (m * n) 0 n (fun i v => logical_round (RC !!! i) v))|].
    by rewrite Nat.add_0_r. }
  rewrite <-Hsh. split; [done|]. rewrite <-H1, length_reads. apply Ptab_renaming. lia.
Qed.

Lemma full_unroll_rounds st :
  length st = 25%nat ->
  KECCAK_F_1600 st = for_ (seq 0 24) (fun i v => logical_round (RC !!! i) v) st.
Proof.
  intros Hst. unfold KECCAK_F_1600, KECCAK_F_1600_, SPH_KECCAK_UNROLL.
  destruct (KF_ELTs_rounds 23 0 st) as [H1 H2]; [lia|done|].
  change (seq 0 24) with (seq 0 (23 + 1)). rewrite seq_app, for_app.
  rewrite reads_P0 in H1 by done.
  change (seq (0 + 23) 1) with [23%nat]. rewrite for_cons, for_nil.
  revert H1 H2. cbn [plus].
  generalize (for_ (seq 0 23) (fun i st => KF_ELT i (i + 1) (RC !!! i) st) st).
  generalize (for_ (seq 0 23) (fun i v => logical_round (RC !!! i) v) st).
  generalize (RC !!! 23%nat). intros k v st' <- Hl.
  pose proof (KF_ELT_round 23 k st' ltac:(lia) Hl) as H.
  change ((23 + 1) mod 24)%nat with 0%nat in H. rewrite <-H.
  symmetry. apply reads_P0. by rewrite length_KF_ELT.
Qed.

(** ** Complemented lanes

    [mask M v] complements the lanes of [v] that [M] marks.  The lanes are
    listed as the code names them, [a00 a01 .. a44]; [transpose] goes to the
    order of [KeccakSpec] and back. *)

Definition ones64 : Z := 0xFFFFFFFFFFFFFFFF.
Definition mask (M : list bool) (v : list Z) : list Z :=
  zip_with (fun (b : bool) x => if b then x .^ ones64 else x) M v.
Definition mask_of (l : list nat) : list bool := (fun i => bool_decide (i ∈ l)) <$> seq 0 25.

(** The comment above [KHI] in the source: complemented on output of a round,
    after theta, and on input of [KHI]. *)
Definition mask_round : list bool := mask_of [a04; a10; a20; a22; a23; a31].
Definition mask_theta : list bool :=
  mask_of [a00; a01; a02; a03; a10; a20; a22; a23; a30; a32; a33; a34].
Definition mask_khi : list bool :=
  mask_of [a00; a01; a02; a04; a13; a20; a21; a22; a30; a33; a34; a43].

Definition transpose (v : list Z) : list Z :=
  reads [0; 5; 10; 15; 20; 1; 6; 11; 16; 21; 2; 7; 12; 17; 22; 3; 8; 13; 18; 23;
         4; 9; 14; 19; 24]%nat v.

Abbreviation lanes v := (length v = 25%nat /\ Forall is_u64 v).

Lemma testbit_ones64 i : 0 <= i < 64 -> Z.testbit ones64 i = true.
Proof.
  intros. change ones64 with (Z.ones 64). rewrite Z.testbit_ones_nonneg by lia.
  apply Z.ltb_lt. lia.
Qed.
Lemma ones64_range : is_u64 ones64.
Proof. done. Qed.
#[export] Hint Resolve ones64_range : wrange.

Lemma testbit_NOT64 x i : 0 <= i < 64 -> Z.testbit (NOT64 x) i = negb (Z.testbit x i).
Proof.
  intros Hi. unfold NOT64, SPH_T64. rewrite u64_id by word_range. unfold u64. fold ones64.
  rewrite Z.land_spec, (testbit_ones64 i), andb_true_r by done. apply Z.lnot_spec. lia.
Qed.
Lemma NOT64_range x : is_u64 (NOT64 x).
Proof. apply u64_range. Qed.

Lemma ROL64_range x n : is_u64 (ROL64 x n).
Proof. apply SPH_ROTL64_range. Qed.

Lemma testbit_ROL64 x n i :
  is_u64 x -> 0 <= n <= 64 -> 0 <= i < 64 ->
  Z.testbit (ROL64 x n) i = Z.testbit x ((i - n) mod 64).
Proof. intros. unfold ROL64. rewrite SPH_ROTL64_rotl by done. by apply testbit_rotl_mod. Qed.

Lemma is_u64_land_r x y : is_u64 x -> is_u64 y -> is_u64 (x .& y).
Proof. intros Hx Hy. apply is_word_land_l; [lia|done|apply Hy]. Qed.

Ltac u64_range :=
  repeat first [assumption | apply ones64_range | apply NOT64_range | apply ROL64_range
    | apply (rotl_range 64); lia
    | apply (is_word_lxor 64); [lia| |] | apply (is_word_lor 64); [lia| |]
    | apply is_u64_land_r | apply (is_word_ldiff 64); [lia|]].

Ltac lane_bits :=
  apply (word_ext 64); [lia|u64_range|u64_range|];
  let i := fresh "i" in let Hi := fresh "Hi" in intros i Hi;
  repeat first [rewrite Z.lxor_spec | rewrite Z.land_spec | rewrite Z.lor_spec
    | rewrite Z.ldiff_spec | rewrite testbit_NOT64 by done];
  rewrite ?testbit_ones64 by done.

Lemma ROL64_compl x n : is_u64 x -> 0 <= n <= 64 -> ROL64 (x .^ ones64) n = ROL64 x n .^ ones64.
Proof.
  intros Hx Hn. lane_bits. rewrite !testbit_ROL64 by (done || u64_range).
  rewrite Z.lxor_spec, testbit_ones64; [done|]. apply Z.mod_pos_bound. lia.
Qed.

Lemma theta_elt c0 c1 c2 c3 c4 d0 d1 d2 d3 d4 :
  TH_ELT c0 c1 c2 c3 c4 d0 d1 d2 d3 d4 =
  (c0 .^ (c1 .^ (c2 .^ (c3 .^ c4)))) .^ ROL64 (d0 .^ (d1 .^ (d2 .^ (d3 .^ d4)))) 1.
Proof.
  unfold TH_ELT, XOR64.
  replace (((d0 .^ d1) .^ d4) .^ (d2 .^ d3)) with (d0 .^ (d1 .^ (d2 .^ (d3 .^ d4)))).
  2: { bitwise. btauto. }
  bitwise. btauto.
Qed.
#[global] Transparent THETA RHO KHI.

Ltac each_lane tac := repeat (apply (f_equal2 cons); [tac|]); try reflexivity.

Ltac theta_lane :=
  rewrite <-(SPH_ROTL64_rotl _ 1) by (lia || u64_range);
  match goal with |- context [SPH_ROTL64 ?x 1] => change (SPH_ROTL64 x 1) with (ROL64 x 1) end;
  lane_bits; rewrite !testbit_ROL64 by (lia || u64_range || done);
  match goal with |- context [?a mod 64] =>
    let H := fresh in pose proof (Z.mod_pos_bound a 64 ltac:(lia)) as H;
    generalize dependent (a mod 64); intros end;
  rewrite ?Z.lxor_spec, ?testbit_ones64 by done; btauto.

Lemma THETA_masked v :
  lanes v -> THETA (mask mask_round v) = mask mask_theta (transpose (spec_theta (transpose v))).
Proof.
  intros [Hl Hv]. destruct_list v Hl. inv_Forall.
  cbv -[Z.lxor TH_ELT rotl ones64 is_word]. rewrite !theta_elt, !Z.lxor_0_r.
  each_lane theta_lane.
Qed.

Lemma RHO_masked v :
  lanes v -> RHO (mask mask_theta v) = mask mask_theta (transpose (spec_rho (transpose v))).
Proof.
  intros [Hl Hv]. destruct_list v Hl. inv_Forall.
  cbv -[Z.lxor ROL64 rotl ones64 is_word]. rewrite !ROL64_compl by (done || lia).
  unfold ROL64. rewrite !SPH_ROTL64_rotl by (done || lia).
  rewrite !(rotl_0 64) by (done || lia). reflexivity.
Qed.

Lemma PI_masked v :
  lanes v -> reads P1 (mask mask_theta v) = mask mask_khi (transpose (spec_pi (transpose v))).
Proof. intros [Hl Hv]. by destruct_list v Hl. Qed.

Lemma KHI_masked v :
  lanes v -> KHI (mask mask_khi v) = mask mask_round (transpose (spec_chi (transpose v))).
Proof.
  intros [Hl Hv]. destruct_list v Hl. inv_Forall.
  cbv -[Z.lxor Z.land Z.lor Z.ldiff NOT64 ones64 is_word].
  each_lane ltac:(lane_bits; btauto).
Qed.
#[global] Opaque THETA RHO KHI.

(** ** The rounds compute Keccak-f *)

Lemma lanes_mk f : (forall x y, is_u64 (f x y)) -> lanes (mk_lanes f).
Proof. intros Hf. split; [apply length_mk_lanes|by apply mk_lanes_range]. Qed.

Lemma spec_theta_lanes a : lanes a -> lanes (spec_theta a).
Proof. intros [Hl Ha]. split; [done|by apply spec_theta_range]. Qed.
Lemma spec_rho_lanes a : lanes a -> lanes (spec_rho a).
Proof. intros [Hl Ha]. apply lanes_mk. intros x y. by apply rotl_range. Qed.
Lemma spec_pi_lanes a : lanes a -> lanes (spec_pi a).
Proof. intros [Hl Ha]. apply lanes_mk. intros x y. by apply is_u64_lane. Qed.
Lemma spec_chi_lanes a : lanes a -> lanes (spec_chi a).
Proof. intros [Hl Ha]. split; [done|by apply spec_chi_range]. Qed.

Lemma transpose_lanes a : lanes a -> lanes (transpose a).
Proof.
  intros [Hl Ha]. split; [done|]. apply Forall_lookup_2. intros i z Hz. unfold transpose, reads in Hz.
  apply list_lookup_fmap_Some_1 in Hz as (j & -> & _). by apply is_word_lookup.
Qed.
Lemma transpose_involutive a : length a = 25%nat -> transpose (transpose a) = a.
Proof. intros H. by destruct_list a H. Qed.

Lemma keccak_RC_spec i : (i < 24)%nat -> RC !!! i = spec_RC i.
Proof. intros Hi. do 24 (destruct i as [|i]; [vm_compute; reflexivity|]). lia. Qed.

Lemma IOTA_masked i v :
  (i < 24)%nat -> lanes v ->
  IOTA (RC !!! i) (mask mask_round v) = mask mask_round (transpose (spec_iota i (transpose v))).
Proof.
  intros Hi [Hl Hv]. rewrite keccak_RC_spec by done. unfold spec_iota. generalize (spec_RC i). intros k.
  by destruct_list v Hl.
Qed.

Lemma logical_round_spec i a :
  (i < 24)%nat -> lanes a ->
  logical_round (RC !!! i) (mask mask_round (transpose a)) =
  mask mask_round (transpose (spec_round i a)).
Proof.
  intros Hi Ha. unfold logical_round, spec_round.
  pose proof (spec_theta_lanes _ Ha) as H1. pose proof (spec_rho_lanes _ H1) as H2.
  pose proof (spec_pi_lanes _ H2) as H3. pose proof (spec_chi_lanes _ H3) as H4.
  rewrite (THETA_masked _ (transpose_lanes _ Ha)), (transpose_involutive _ (proj1 Ha)).
  rewrite (RHO_masked _ (transpose_lanes _ H1)), (transpose_involutive _ (proj1 H1)).
  rewrite (PI_masked _ (transpose_lanes _ H2)), (transpose_involutive _ (proj1 H2)).
  rewrite (KHI_masked _ (transpose_lanes _ H3)), (transpose_involutive _ (proj1 H3)).
  by rewrite (IOTA_masked _ _ Hi (transpose_lanes _ H4)), (transpose_involutive _ (proj1 H4)).
Qed.

Lemma spec_round_lanes i a : (i < 24)%nat -> lanes a -> lanes (spec_round i a).
Proof.
  intros Hi Ha. unfold spec_round, spec_iota.
  pose proof (spec_chi_lanes _ (spec_pi_lanes _ (spec_rho_lanes _ (spec_theta_lanes _ Ha)))) as [Hl Hr].
  split; [by rewrite length_insert|]. apply is_word_insert; [|done].
  apply is_word_lxor; [lia|by apply is_word_lookup|].
  rewrite <-keccak_RC_spec by done. apply is_word_lookup; [lia|].
  repeat constructor; done.
Qed.

Lemma KECCAK_F_1600_spec a :
  lanes a ->
  KECCAK_F_1600 (mask mask_round (transpose a)) = mask mask_round (transpose (spec_keccakf a)) /\
  lanes (spec_keccakf a).
Proof.
  intros Ha. rewrite full_unroll_rounds by done. unfold spec_keccakf.
  cut (forall n, (n <= 24)%nat ->
    for_ (seq 0 n) (fun i v => logical_round (RC !!! i) v) (mask mask_round (transpose a)) =
      mask mask_round (transpose (for_ (seq 0 n) spec_round a)) /\
    lanes (for_ (seq 0 n) spec_round a)); [intros H; by apply H|].
  induction n as [|n IH]; intros Hn; [done|]. destruct IH as [IH1 IH2]; [lia|].
  rewrite !for_seq_S, IH1. cbn [plus]. split.
  - apply logical_round_spec; [lia|done].
  - apply spec_round_lanes; [lia|done].
Qed.

(** ** The function *)

(** The block and its padding as lanes. *)
Definition keccak_block (ws : list Z) : list Z := ws ++ 0x8000000000000001 :: replicate 16 0.

Lemma xor_block_zero n blk :
  (length blk <= n)%nat -> xor_block (replicate n 0) blk = blk ++ replicate (n - length blk) 0.
Proof.
  intros Hl. unfold xor_block. rewrite drop_replicate. f_equal.
  rewrite take_replicate, Nat.min_l by lia. clear Hl.
  induction blk as [|b blk IH]; [done|]. cbn [length replicate zip_with]. by rewrite IH.
Qed.

Lemma length_spec_keccakf a : length a = 25%nat -> length (spec_keccakf a) = 25%nat.
Proof.
  intros Ha. unfold spec_keccakf. apply (for_ind (fun a => length a = 25%nat)); [done|].
  intros i a' _ _. unfold spec_round, spec_iota. by rewrite length_insert.
Qed.

(** One block of 64 bytes, absorbed at rate 72 and squeezed. *)
Lemma sponge_one_block ws :
  length ws = 8%nat -> Forall is_u64 ws ->
  spec_sponge 72 1 (bytes_le 8 ws) 64 = bytes_le 8 (take 8 (spec_keccakf (keccak_block ws))).
Proof.
  intros Hl Hw. unfold spec_sponge. rewrite spec_squeeze_small by lia.
  unfold spec_absorb. rewrite length_bytes_le, Hl.
  change (pad 72 1 (8 * 8)) with (bytes_le 8 [0x8000000000000001]).
  rewrite <-bytes_le_app. simpl_len. rewrite Hl. cbn [length]. change (8 * (8 + 1) / 72)%nat with 1%nat.
  cbn [chunks foldl]. rewrite (take_ge (bytes_le 8 _) 72) by (simpl_len; rewrite Hl; cbn; lia).
  rewrite xor_block_zero by (simpl_len; rewrite Hl; cbn; lia). simpl_len. rewrite Hl. cbn [length].
  change (replicate (200 - 8 * (8 + 1)) 0) with (bytes_le 8 (replicate 16 0)).
  rewrite <-bytes_le_app, <-app_assoc. unfold spec_P.
  change (ws ++ [0x8000000000000001] ++ replicate 16 0) with (keccak_block ws).
  assert (Hlen : length (keccak_block ws) = 25%nat) by (unfold keccak_block; simpl_len; by rewrite Hl).
  rewrite <-Hlen, words_bytes_le.
  2: { apply Forall_app. split; [done|]. repeat constructor; done. }
  rewrite <-(take_drop 8 (spec_keccakf (keccak_block ws))) at 1. rewrite bytes_le_app.
  apply take_app_length'. simpl_len. rewrite length_spec_keccakf by done. lia.
Qed.

Lemma mask_cancel x : is_u64 x -> u64 (Z.lnot (x .^ ones64)) = x.
Proof.
  intros Hx. apply (word_ext 64); [lia|apply u64_range|done|]. intros i Hi.
  unfold u64. fold ones64. rewrite Z.land_spec, Z.lnot_spec, Z.lxor_spec, !testbit_ones64 by lia.
  btauto.
Qed.

(** The lanes the code sets up for the block [ws]. *)
Lemma keccak_setup ws :
  length ws = 8%nat ->
  mask mask_round (transpose (keccak_block ws)) =
  match ws with
  | [tt0; tt1; tt2; tt3; tt4; tt5; tt6; tt7] =>
      xor_var a31 0x8000000000000001 (xor_var a21 tt7 (xor_var a11 tt6 (xor_var a01 tt5 (xor_var a40 tt4
        (xor_var a30 tt3 (xor_var a20 tt2 (xor_var a10 tt1 (xor_var a00 tt0
          (set_var a04 0xFFFFFFFFFFFFFFFF (set_var a23 0xFFFFFFFFFFFFFFFF
          (set_var a22 0xFFFFFFFFFFFFFFFF (set_var a31 0xFFFFFFFFFFFFFFFF
          (set_var a20 0xFFFFFFFFFFFFFFFF (set_var a10 0xFFFFFFFFFFFFFFFF
            (replicate 25 0)))))))))))))))
  | _ => []
  end.
Proof.
  intros H. destruct_list ws H. cbv -[Z.lxor ones64]. fold ones64.
  rewrite !(Z.lxor_comm ones64), !Z.lxor_0_l. reflexivity.
Qed.

(** C34: w_keccak.c's [keccak] is Keccak-512 (the sponge of
    [KeccakSpec] with rate 72 and domain byte 1) of the 64-byte block with the bytes of
    each 8-byte word reversed, its digest reversed the same way. *)
Theorem keccak_is_keccak512 (h : hash_t) :
  is_hash h ->
  keccak h = byteswap 8 8 (spec_sponge 72 1 (byteswap 8 8 h) 64).
Proof.
  intros Hh. rewrite (byteswap_le 8 8 h) by apply Hh.
  pose proof (words_be_range 8 8 h (proj2 Hh) ltac:(rewrite (proj1 Hh); done)) as Hw.
  rewrite sponge_one_block by (done || apply length_words_be).
  rewrite byteswap_bytes_le by done.
  pose proof (keccak_setup (words_be 8 8 h) (length_words_be 8 8 h)) as Hs.
  destruct (KECCAK_F_1600_spec (keccak_block (words_be 8 8 h))) as [HF [HL HR]].
  { split; [done|]. apply Forall_app. split; [done|]. repeat constructor; done. }
  rewrite Hs in HF. revert HF HL HR. generalize (spec_keccakf (keccak_block (words_be 8 8 h))).
  rewrite words_be_swapped by done. intros a HF HL HR.
  unfold keccak. cbv zeta. rewrite HF. clear -Hh HL HR. destruct_list a HL. inv_Forall.
  match goal with |- context [take 8 ?l] => set (v := take 8 l); cbn [take] in v end.
  rewrite <-(store_swapped8 v h (proj1 Hh) eq_refl)
    by (unfold v; repeat (apply Forall_cons_2; [assumption|]); constructor).
  refine (f_equal (fun l => store_words 8 l h) _). unfold v. cbv -[SWAP8 Z.lxor u64 Z.lnot ones64].
  by rewrite !mask_cancel by done.
Qed.

Lemma keccak_is_keccak512_witness :
  is_hash (replicate 64 7) /\
  keccak (replicate 64 7) = byteswap 8 8 (spec_sponge 72 1 (byteswap 8 8 (replicate 64 7)) 64).
Proof.
  assert (H : is_hash (replicate 64 7)) by (split; [done|repeat constructor; done]).
  exact (conj H (keccak_is_keccak512 _ H)).
Defined.

(** for every unroll count the source provides (1, 2, 4, 6, 8, 12
    and the full unroll) the macro [KECCAK_F_1600_] computes the same permutation
    of the 25 variables. *)
Theorem keccak_unroll (u : nat) (f : list Z -> list Z) (st : list Z) :
  KECCAK_F_1600_ u = Some f -> length st = 25%nat -> f st = KECCAK_F_1600 st.
Proof.
  intros Hf Hst. destruct u as [|u]; [apply (inj Some) in Hf; by subst f|].
  rewrite full_unroll_rounds by done.
  do 12 (destruct u as [|u]; [first [apply (inj Some) in Hf; subst f;
    apply unrolled_rounds; [repeat constructor|exact Hst] | discriminate Hf]|]).
  discriminate Hf.
Qed.

Lemma keccak_unroll_witness :
  exists f, KECCAK_F_1600_ 8 = Some f /\ f (replicate 25 1) = KECCAK_F_1600 (replicate 25 1).
Proof.
  eexists. split; [reflexivity|]. apply (keccak_unroll 8); reflexivity.
Defined.

#[global] Instance keccak_jumphash : JumpHash keccak.
Proof.
  intros h Hh. unfold keccak. apply store_words_hash; [apply Hh|done].
Qed.
