(* ===== verification/JumpBlake.v ===== *)
(** * libjumphash/w_blake.c

    One block of BLAKE-512 on the local variables [H0..H7], [V0..VF], [M0..MF].
    The block is that of an 80-byte message: the 64 bytes of the hash, its first
    12 bytes again, and the number 1024.

    The reference is BLAKE-512 for messages of any length, with its constants
    computed: the initial value from the square roots of the first primes and the
    round constants from the binary expansion of pi.  [blake_is_blake512] relates the
    two. *)

From S2P Require Import Prelude Words JumpUtil.

(** ** The code *)

(** [Z_ !!! r !!! i] is the macro [Zri]. *)
Definition Z_ : list (list nat) :=
  [[0; 1; 2; 3; 4; 5; 6; 7; 8; 9; 10; 11; 12; 13; 14; 15];
   [14; 10; 4; 8; 9; 15; 13; 6; 1; 12; 0; 2; 11; 7; 5; 3];
   [11; 8; 12; 0; 5; 2; 15; 13; 10; 14; 3; 6; 7; 1; 9; 4];
   [7; 9; 3; 1; 13; 12; 11; 14; 2; 6; 5; 10; 4; 0; 15; 8];
   [9; 0; 5; 7; 2; 4; 10; 15; 14; 1; 11; 12; 6; 8; 3; 13];
   [2; 12; 6; 10; 0; 11; 8; 3; 4; 13; 7; 5; 15; 14; 1; 9];
   [12; 5; 1; 15; 14; 13; 4; 10; 0; 7; 6; 3; 9; 2; 8; 11];
   [13; 11; 7; 14; 12; 1; 3; 9; 5; 0; 15; 4; 8; 6; 2; 10];
   [6; 15; 14; 9; 11; 3; 0; 8; 12; 2; 13; 7; 1; 4; 10; 5];
   [10; 2; 8; 4; 7; 6; 1; 5; 15; 11; 9; 14; 3; 12; 13; 0]]%nat.

Definition CB : list Z :=
  [0x243F6A8885A308D3; 0x13198A2E03707344; 0xA4093822299F31D0; 0x082EFA98EC4E6C89;
  0x452821E638D01377; 0xBE5466CF34E90C6C; 0xC0AC29B7C97C50DD; 0x3F84D5B5B5470917;
  0x9216D5D98979FB1B; 0xD1310BA698DFB5AC; 0x2FFD72DBD01ADFB7; 0xB8E1AFED6A267E96;
  0xBA7C9045F12C7F99; 0x24A19947B3916CF7; 0x0801F2E2858EFC16; 0x636920D871574E69].

Definition BLAKE_IV512 : list Z :=
  [0x6A09E667F3BCC908; 0xBB67AE8584CAA73B; 0x3C6EF372FE94F82B; 0xA54FF53A5F1D36F1;
  0x510E527FADE682D1; 0x9B05688C2B3E6C1F; 0x1F83D9ABFB41BD6B; 0x5BE0CD19137E2179].

(** The word and the constant that [Zri] selects. *)
Definition Mx (M : list Z) (r i : nat) : Z := M !!! ((Z_ !!! r) !!! i).
Definition CBx (r i : nat) : Z := CB !!! ((Z_ !!! r) !!! i).

(** [GB] on the values of its four variables; the sums wrap at 64 bits. *)
Definition GB (m0 m1 c0 c1 a b c d : Z) : Z * Z * Z * Z :=
  let a := SPH_T64 (a + b + (m0 .^ c1)) in
  let d := SPH_ROTR64 (d .^ a) 32 in
  let c := SPH_T64 (c + d) in
  let b := SPH_ROTR64 (b .^ c) 25 in
  let a := SPH_T64 (a + b + (m1 .^ c0)) in
  let d := SPH_ROTR64 (d .^ a) 16 in
  let c := SPH_T64 (c + d) in
  let b := SPH_ROTR64 (b .^ c) 11 in
  (a, b, c, d).

(** [ROUND_B(r)] on the variables [V0..VF], with the message words in [M]. *)
Definition ROUND_B (M : list Z) (r : nat) (V : list Z) : list Z :=
  match V with
  | [V0; V1; V2; V3; V4; V5; V6; V7; V8; V9; VA; VB; VC; VD; VE; VF] =>
      let '(V0, V4, V8, VC) := GB (Mx M r 0) (Mx M r 1) (CBx r 0) (CBx r 1) V0 V4 V8 VC in
      let '(V1, V5, V9, VD) := GB (Mx M r 2) (Mx M r 3) (CBx r 2) (CBx r 3) V1 V5 V9 VD in
      let '(V2, V6, VA, VE) := GB (Mx M r 4) (Mx M r 5) (CBx r 4) (CBx r 5) V2 V6 VA VE in
      let '(V3, V7, VB, VF) := GB (Mx M r 6) (Mx M r 7) (CBx r 6) (CBx r 7) V3 V7 VB VF in
      let '(V0, V5, VA, VF) := GB (Mx M r 8) (Mx M r 9) (CBx r 8) (CBx r 9) V0 V5 VA VF in
      let '(V1, V6, VB, VC) := GB (Mx M r 10) (Mx M r 11) (CBx r 10) (CBx r 11) V1 V6 VB VC in
      let '(V2, V7, V8, VD) := GB (Mx M r 12) (Mx M r 13) (CBx r 12) (CBx r 13) V2 V7 V8 VD in
      let '(V3, V4, V9, VE) := GB (Mx M r 14) (Mx M r 15) (CBx r 14) (CBx r 15) V3 V4 V9 VE in
      [V0; V1; V2; V3; V4; V5; V6; V7; V8; V9; VA; VB; VC; VD; VE; VF]
  | _ => V
  end.

(** [COMPRESS64]: the new values of [H0..H7]. *)
Definition COMPRESS64 (M H S : list Z) (T0 T1 : Z) : list Z :=
  match H, S with
  | [H0; H1; H2; H3; H4; H5; H6; H7], [S0; S1; S2; S3] =>
      let V := [H0; H1; H2; H3; H4; H5; H6; H7;
                S0 .^ CB !!! 0%nat; S1 .^ CB !!! 1%nat; S2 .^ CB !!! 2%nat; S3 .^ CB !!! 3%nat;
                T0 .^ CB !!! 4%nat; T0 .^ CB !!! 5%nat; T1 .^ CB !!! 6%nat; T1 .^ CB !!! 7%nat] in
      let V := for_ [0; 1; 2; 3; 4; 5; 6; 7; 8; 9; 0; 1; 2; 3; 4; 5]%nat (ROUND_B M) V in
      match V with
      | [V0; V1; V2; V3; V4; V5; V6; V7; V8; V9; VA; VB; VC; VD; VE; VF] =>
          [H0 .^ (S0 .^ V0 .^ V8); H1 .^ (S1 .^ V1 .^ V9); H2 .^ (S2 .^ V2 .^ VA);
           H3 .^ (S3 .^ V3 .^ VB); H4 .^ (S0 .^ V4 .^ VC); H5 .^ (S1 .^ V5 .^ VD);
           H6 .^ (S2 .^ V6 .^ VE); H7 .^ (S3 .^ V7 .^ VF)]
      | _ => H
      end
  | _, _ => H
  end.

(** The message words of the block. *)
Definition blake_message (hash : hash_t) : list Z :=
  let M0 := SWAP8 (h8 hash 0) in let M1 := SWAP8 (h8 hash 1) in
  let M2 := SWAP8 (h8 hash 2) in let M3 := SWAP8 (h8 hash 3) in
  let M4 := SWAP8 (h8 hash 4) in let M5 := SWAP8 (h8 hash 5) in
  let M6 := SWAP8 (h8 hash 6) in let M7 := SWAP8 (h8 hash 7) in
  let M8 := SWAP8 (h8 hash 0) in
  let M9 := SWAP8 (h8 hash 1) in
  let M9 := M9 .& 0xFFFFFFFF00000000 in
  let MB := SWAP4 1024 in
  let M9 := M9 .^ MB in
  let MA := 0x8000000000000000 in
  let MB := 0 in let MC := 0 in let MD := 1 in let ME := 0 in let MF := 0x280 in
  [M0; M1; M2; M3; M4; M5; M6; M7; M8; M9; MA; MB; MC; MD; ME; MF].

Definition blake (hash : hash_t) : hash_t :=
  let H := BLAKE_IV512 in
  let S := [0; 0; 0; 0] in
  let T0 := u64 (0xFFFFFFFFFFFFFC00 + u32 (80 .<< 3)) in
  let T1 := 0xFFFFFFFFFFFFFFFF in
  let T0 := SPH_T64 (T0 + 1024) in
  let T1 := if decide (T0 < 1024) then SPH_T64 (T1 + 1) else T1 in
  let M := blake_message hash in
  let H := COMPRESS64 M H S T0 T1 in
  store_words 8 H hash.

Definition blake_scanHash_pre := scanHash_pre blake.
Definition blake_scanHash_post := scanHash_post blake.

(** ** Reference: BLAKE-512 *)

Definition blake_sigma : list (list nat) :=
  [[0; 1; 2; 3; 4; 5; 6; 7; 8; 9; 10; 11; 12; 13; 14; 15];
   [14; 10; 4; 8; 9; 15; 13; 6; 1; 12; 0; 2; 11; 7; 5; 3];
   [11; 8; 12; 0; 5; 2; 15; 13; 10; 14; 3; 6; 7; 1; 9; 4];
   [7; 9; 3; 1; 13; 12; 11; 14; 2; 6; 5; 10; 4; 0; 15; 8];
   [9; 0; 5; 7; 2; 4; 10; 15; 14; 1; 11; 12; 6; 8; 3; 13];
   [2; 12; 6; 10; 0; 11; 8; 3; 4; 13; 7; 5; 15; 14; 1; 9];
   [12; 5; 1; 15; 14; 13; 4; 10; 0; 7; 6; 3; 9; 2; 8; 11];
   [13; 11; 7; 14; 12; 1; 3; 9; 5; 0; 15; 4; 8; 6; 2; 10];
   [6; 15; 14; 9; 11; 3; 0; 8; 12; 2; 13; 7; 1; 4; 10; 5];
   [10; 2; 8; 4; 7; 6; 1; 5; 15; 11; 9; 14; 3; 12; 13; 0]]%nat.

(** The arctangent of [1/x] in fixed point ([one] is 1), [n] terms of its series
    from term [k] on, [p] being [one / x^(2k+1)]. *)
Fixpoint arctan_inv (n : nat) (x k p : Z) : Z :=
  match n with
  | O => 0
  | S n => p / (2 * k + 1) - arctan_inv n x (k + 1) (p / (x * x))
  end.

(** Machin's formula for pi with 1024 fractional bits, computed with 64 guard bits. *)
Definition pi_1024 : Z :=
  let one := 2 ^ 1088 in
  (4 * (4 * arctan_inv 240 5 0 (one / 5) - arctan_inv 70 239 0 (one / 239))) / 2 ^ 64.

(** Constant [i]: the bits [64i .. 64i+63] of the fractional part of pi. *)
Definition blake_c (i : nat) : Z := (pi_1024 / 2 ^ (1024 - 64 * (Z.of_nat i + 1))) mod 2 ^ 64.

(** The first 64 bits of the fractional parts of the square roots of the first
    eight primes. *)
Definition blake_iv : list Z :=
  (fun p => Z.sqrt (p * 2 ^ 128) mod 2 ^ 64) <$> [2; 3; 5; 7; 11; 13; 17; 19].

Definition rotr64 (x n : Z) : Z := rotl 64 x (64 - n).

Definition blake_G (m0 m1 c0 c1 a b c d : Z) : Z * Z * Z * Z :=
  let a := (a + b + (m0 .^ c1)) mod 2 ^ 64 in
  let d := rotr64 (d .^ a) 32 in
  let c := (c + d) mod 2 ^ 64 in
  let b := rotr64 (b .^ c) 25 in
  let a := (a + b + (m1 .^ c0)) mod 2 ^ 64 in
  let d := rotr64 (d .^ a) 16 in
  let c := (c + d) mod 2 ^ 64 in
  let b := rotr64 (b .^ c) 11 in
  (a, b, c, d).

(** Step [i] of a round works on column [i] for [i < 4] and on diagonal [i - 4]
    afterwards. *)
Definition blake_positions (i : nat) : nat * nat * nat * nat :=
  if decide (i < 4)%nat then (i, 4 + i, 8 + i, 12 + i)%nat
  else (i - 4, 4 + (i - 3) mod 4, 8 + (i - 2) mod 4, 12 + (i - 1) mod 4)%nat.

(** The round over a step function, the message words and the constants in the
    order in which the round takes them. *)
Definition blake_step (G : Z -> Z -> Z -> Z -> Z -> Z -> Z -> Z -> Z * Z * Z * Z)
    (w k : nat -> Z) (i : nat) (v : list Z) : list Z :=
  let '(ia, ib, ic, id) := blake_positions i in
  let '(a, b, c, d) := G (w (2 * i)%nat) (w (2 * i + 1)%nat) (k (2 * i)%nat) (k (2 * i + 1)%nat)
    (v !!! ia) (v !!! ib) (v !!! ic) (v !!! id) in
  <[id := d]> (<[ic := c]> (<[ib := b]> (<[ia := a]> v))).
Definition blake_round G (w k : nat -> Z) (v : list Z) : list Z :=
  for_ (seq 0 8) (blake_step G w k) v.

(** Compression with salt zero; [t] counts message bits. *)
Definition blake_compress (h m : list Z) (t : Z) : list Z :=
  let t0 := t mod 2 ^ 64 in
  let t1 := t / 2 ^ 64 in
  let v := h ++ [blake_c 0; blake_c 1; blake_c 2; blake_c 3;
                 t0 .^ blake_c 4; t0 .^ blake_c 5; t1 .^ blake_c 6; t1 .^ blake_c 7] in
  let v := for_ (seq 0 16) (fun r =>
    let s j := (blake_sigma !!! (r mod 10)%nat) !!! j in
    blake_round blake_G (fun j => m !!! s j) (fun j => blake_c (s j))) v in
  (fun i => (h !!! i) .^ (v !!! i) .^ (v !!! (8 + i)%nat)) <$> seq 0 8.

(** A one bit, zeros up to 111 bytes modulo 128, a one bit, and the length in bits. *)
Definition blake_pad (len : nat) : list Z :=
  let n := (128 - (len + 16) mod 128)%nat in
  (if decide (n = 1%nat) then [0x81] else 0x80 :: replicate (n - 2) 0 ++ [0x01]) ++
  be_to_bytes 16 (8 * Z.of_nat len).

(** The counter of block [i]: the message bits up to its end, zero for a block of padding. *)
Definition blake_counter (len i : nat) : Z :=
  if decide (len <= 128 * i)%nat then 0 else 8 * Z.of_nat (len `min` (128 * (i + 1)))%nat.

Definition blake512 (m : list Z) : list Z :=
  let p := m ++ blake_pad (length m) in
  for_ (seq 0 (length p / 128)) (fun i h =>
    blake_compress h (words_be 8 16 (sub p (i * 128) 128)) (blake_counter (length m) i)) blake_iv.

(** ** Proofs *)

Lemma blake_iv_table : BLAKE_IV512 = blake_iv.
Proof. vm_compute. reflexivity. Qed.

Lemma blake_c_table : CB = blake_c <$> seq 0 16.
Proof.
  unfold blake_c. set (p := pi_1024). vm_compute in p. subst p. vm_compute. reflexivity.
Qed.

Lemma blake_c_lookup i : (i < 16)%nat -> CB !!! i = blake_c i.
Proof.
  intros Hi. rewrite blake_c_table. apply list_lookup_total_correct.
  rewrite list_lookup_fmap, lookup_seq_lt by done. done.
Qed.

Lemma GB_is_G m0 m1 c0 c1 a b c d : GB m0 m1 c0 c1 a b c d = blake_G m0 m1 c0 c1 a b c d.
Proof.
  unfold GB, blake_G, rotr64, SPH_ROTR64, SPH_T64. cbv zeta. rewrite !SPH_ROTL64_rotl, !u64_mod.
  reflexivity.
Qed.

(** The written-out round is the round over positions. *)
Lemma ROUND_B_positions m r v :
  length v = 16%nat -> ROUND_B m r v = blake_round GB (Mx m r) (CBx r) v.
Proof.
  intros Hv. destruct_list v Hv. unfold ROUND_B. generalize GB, (Mx m r), (CBx r).
  intros G w k. unfold blake_round. cbv [for_ foldl seq].
  do 8 (match goal with |- context [blake_step G w k ?i (?x :: ?l)] =>
      let t := eval cbv in (blake_step G w k i (x :: l)) in
      change (blake_step G w k i (x :: l)) with t end;
    match goal with |- context [G ?a ?b ?c ?d ?e ?f ?g ?h] => destruct (G a b c d e f g h) as [[[? ?] ?] ?] end).
  reflexivity.
Qed.

Lemma blake_step_ext G1 G2 w1 w2 k1 k2 i v :
  (forall m0 m1 c0 c1 a b c d, G1 m0 m1 c0 c1 a b c d = G2 m0 m1 c0 c1 a b c d) ->
  (forall j, (j < 16)%nat -> w1 j = w2 j) -> (forall j, (j < 16)%nat -> k1 j = k2 j) ->
  (i < 8)%nat -> blake_step G1 w1 k1 i v = blake_step G2 w2 k2 i v.
Proof.
  intros HG Hw Hk Hi. unfold blake_step. destruct (blake_positions i) as [[[? ?] ?] ?].
  by rewrite HG, !Hw, !Hk by lia.
Qed.

Lemma length_blake_round G w k v : length (blake_round G w k v) = length v.
Proof.
  unfold blake_round. apply (for_ind (fun v' => length v' = length v)); [done|].
  intros i v' _ <-. unfold blake_step. destruct (blake_positions i) as [[[? ?] ?] ?].
  destruct (G _ _ _ _ _ _ _ _) as [[[? ?] ?] ?]. by simpl_len.
Qed.

Lemma sigma_range r j : ((Z_ !!! r) !!! j < 16)%nat.
Proof.
  assert (H : Forall (Forall (fun x => x < 16)%nat) Z_).
  { refine (bool_decide_unpack _ _). vm_compute. exact I. }
  destruct (Z_ !! r) as [row|] eqn:Hrow.
  - rewrite (list_lookup_total_correct _ _ _ Hrow). pose proof (Forall_lookup_1 _ _ _ _ H Hrow) as Hf.
    destruct (row !! j) as [x|] eqn:Hx.
    + rewrite (list_lookup_total_correct _ _ _ Hx). by apply (Forall_lookup_1 _ _ _ _ Hf Hx).
    + rewrite list_lookup_total_alt, Hx. simpl. lia.
  - rewrite (list_lookup_total_alt Z_), Hrow. destruct j; simpl; lia.
Qed.

Lemma ROUND_B_spec m r v :
  length v = 16%nat ->
  ROUND_B m (r mod 10) v =
    blake_round blake_G (fun j => m !!! ((blake_sigma !!! (r mod 10)%nat) !!! j))
      (fun j => blake_c ((blake_sigma !!! (r mod 10)%nat) !!! j)) v.
Proof.
  intros Hv. rewrite ROUND_B_positions by done. unfold blake_round.
  apply (for_ext (fun _ => True)); [done|]. intros i v' Hi _. split; [|done].
  apply elem_of_seq in Hi. apply blake_step_ext; [apply GB_is_G|done| |lia].
  intros j Hj. unfold CBx. apply blake_c_lookup.
  apply sigma_range.
Qed.

Lemma COMPRESS64_spec m h t :
  length h = 8%nat -> 0 <= t ->
  COMPRESS64 m h [0; 0; 0; 0] (t mod 2 ^ 64) (t / 2 ^ 64) = blake_compress h m t.
Proof.
  intros Hh Ht. unfold blake_compress. destruct_list h Hh. unfold COMPRESS64.
  rewrite !(blake_c_lookup) by lia. rewrite !Z.lxor_0_l. cbn [app].
  match goal with |- context [for_ (seq 0 16) ?f ?v] => set (v0 := v); set (body := f) end.
  assert (Hv : forall n, length (for_ (seq 0 n) body v0) = 16%nat).
  { intros n. apply (for_ind (fun v => length v = 16%nat)); [done|].
    intros i v' _ Hv'. unfold body. by rewrite length_blake_round. }
  assert (He : for_ [0; 1; 2; 3; 4; 5; 6; 7; 8; 9; 0; 1; 2; 3; 4; 5]%nat (ROUND_B m) v0 =
    for_ (seq 0 16) body v0).
  { change [0; 1; 2; 3; 4; 5; 6; 7; 8; 9; 0; 1; 2; 3; 4; 5]%nat with ((fun i => i mod 10)%nat <$> seq 0 16).
    transitivity (for_ (seq 0 16) (fun r => ROUND_B m (r mod 10)) v0).
    - unfold for_. generalize v0. induction (seq 0 16) as [|i l IH]; intros v; [done|]. simpl. apply IH.
    - apply (for_ext (fun v => length v = 16%nat)); [done|]. intros i v' _ Hv'.
      rewrite ROUND_B_spec by done. unfold body. split; [done|]. by rewrite length_blake_round. }
  rewrite He. specialize (Hv 16%nat). clear He. revert Hv.
  generalize (for_ (seq 0 16) body v0). clear v0 body. intros v Hv. destruct_list v Hv.
  cbv -[Z.lxor]. by rewrite !Z.lxor_0_l, !Z.lxor_assoc.
Qed.

Lemma length_blake_compress h m t : length (blake_compress h m t) = 8%nat.
Proof. done. Qed.

Lemma be_of_bytes_app l1 l2 :
  bytes l2 ->
  be_of_bytes (l1 ++ l2) = be_of_bytes l2 + 2 ^ (8 * Z.of_nat (length l2)) * be_of_bytes l1.
Proof.
  intros Hb. unfold be_of_bytes. rewrite reverse_app, le_of_bytes_app by by apply Forall_reverse.
  by rewrite length_reverse.
Qed.

Lemma land_shiftl_low n a c : 0 <= n -> is_word n c -> ((a .<< n) .& c) = 0.
Proof.
  intros Hn Hc. apply Z.bits_inj'. intros i Hi. rewrite Z.land_spec, Z.shiftl_spec, Z.bits_0 by lia.
  destruct (decide (i < n)).
  - by rewrite Z.testbit_neg_r by lia.
  - rewrite (is_word_high n c) by (done || lia). apply andb_false_r.
Qed.

(** Clearing the low half of a big-endian word and inserting four bytes there. *)
Lemma replace_low_half l1 l2 x :
  bytes l2 -> length l2 = 4%nat -> bytes l1 -> length l1 = 4%nat -> is_u32 x ->
  (be_of_bytes (l1 ++ l2) .& 0xFFFFFFFF00000000) .^ x = be_of_bytes (l1 ++ be_to_bytes 4 x).
Proof.
  intros H2 L2 H1 L1 Hx. rewrite !be_of_bytes_app, length_be_to_bytes, L2 by (done || word_range).
  rewrite be_of_to_bytes_id by done. change (8 * Z.of_nat 4) with 32.
  pose proof (be_of_bytes_range l2 H2) as R2. rewrite L2 in R2. change (8 * Z.of_nat 4) with 32 in R2.
  pose proof (be_of_bytes_range l1 H1) as R1. rewrite L1 in R1. change (8 * Z.of_nat 4) with 32 in R1.
  generalize dependent (be_of_bytes l1). generalize dependent (be_of_bytes l2). clear -Hx.
  intros b Hb a Ha.
  assert (Hsplit : forall c, is_u32 c -> c + 2 ^ 32 * a = (a .<< 32) .| c).
  { intros c Hc. rewrite <-Z.lxor_lor, <-Z.add_nocarry_lxor.
    - rewrite Z.shiftl_mul_pow2 by lia. lia.
    - apply land_shiftl_low; [lia|done].
    - apply land_shiftl_low; [lia|done]. }
  rewrite !Hsplit by done. change 0xFFFFFFFF00000000 with (Z.ones 32 .<< 32).
  apply Z.bits_inj'. intros i Hi. rewrite !Z.lxor_spec, !Z.land_spec, !Z.lor_spec, !Z.shiftl_spec by lia.
  destruct (decide (i < 32)).
  - rewrite !(Z.testbit_neg_r _ (i - 32)) by lia. by rewrite andb_false_r.
  - rewrite (is_word_high 32 b), (is_word_high 32 x) by (done || lia).
    rewrite !orb_false_r, xorb_false_r, Z.testbit_ones_nonneg by lia.
    destruct (decide (i - 32 < 32)).
    + replace (i - 32 <? 32) with true by lia. apply andb_true_r.
    + by rewrite (is_word_high 32 a) by (done || lia).
Qed.

(** The message: the hash, its first 12 bytes, and 1024 as a little-endian word. *)
Definition blake_input (h : hash_t) : list Z := h ++ take 12 h ++ le_to_bytes 4 1024.

Lemma blake_message_spec h :
  is_hash h -> blake_message h = words_be 8 16 (blake_input h ++ blake_pad 80).
Proof.
  intros Hh. unfold blake_message. cbv zeta. rewrite !swapped_read8 by (done || lia).
  destruct Hh as [Hl Hb]. rewrite words_be_seq. cbn [seq fmap list_fmap].
  assert (H9 : (be_of_bytes (sub h (1 * 8) 8) .& 0xFFFFFFFF00000000) .^ SWAP4 1024 =
    be_of_bytes (sub (blake_input h ++ blake_pad 80) (9 * 8) 8)).
  { replace (sub h (1 * 8) 8) with (sub h 8 4 ++ sub h 12 4) by (symmetry; apply (sub_add h 8 4 4)).
    rewrite replace_low_half;
      [|word_range|apply length_sub; lia|word_range|apply length_sub; lia|apply SWAP4_range].
    f_equal. destruct_list h Hl. reflexivity. }
  rewrite H9. clear H9 Hb. destruct_list h Hl. reflexivity.
Qed.

(** C39: w_blake.c's [blake] computes the chaining value of BLAKE-512
    for the 80-byte message made of the hash, its first 12 bytes and the number 1024,
    stored as little-endian words. *)
Theorem blake_is_blake512 (h : hash_t) :
  is_hash h -> blake h = bytes_le 8 (blake512 (blake_input h)).
Proof.
  intros Hh. unfold blake512, blake. cbv zeta.
  assert (Hlen : length (blake_input h) = 80%nat)
    by (unfold blake_input; simpl_len; rewrite (proj1 Hh); reflexivity).
  rewrite length_app, Hlen. change ((80 + length (blake_pad 80)) / 128)%nat with 1%nat.
  cbn [seq]. rewrite for_cons, for_nil.
  change (blake_counter 80 0) with 640. rewrite sub_all by (rewrite length_app, Hlen; reflexivity).
  rewrite <-blake_message_spec, <-blake_iv_table by done.
  rewrite <-COMPRESS64_spec by done.
  apply store_words_all. rewrite COMPRESS64_spec, length_blake_compress by done. apply Hh.
Qed.

Lemma blake_is_blake512_witness :
  is_hash (replicate 64 1) /\
  blake (replicate 64 1) = bytes_le 8 (blake512 (blake_input (replicate 64 1))).
Proof.
  assert (H : is_hash (replicate 64 1)) by (split; [done|repeat constructor; done]).
  exact (conj H (blake_is_blake512 _ H)).
Defined.

#[global] Instance blake_jumphash : JumpHash blake.
Proof.
  intros h Hh. unfold blake. cbv zeta. apply store_words_hash; [apply Hh|].
  match goal with |- context [COMPRESS64 ?M ?H ?S ?T0 ?T1] =>
    change (COMPRESS64 M H S T0 T1) with (COMPRESS64 M H S (640 mod 2 ^ 64) (640 / 2 ^ 64)) end.
  by rewrite COMPRESS64_spec, length_blake_compress.
Qed.
