(* ===== verification/JumpCubehash.v ===== *)
(** * libjumphash/w_cubehash.c

    CubeHash16/32-512 of a 64-byte message.  The state is the 32 local variables
    [x0..xv]; the swaps of a round are not executed but built into the two macros
    [ROUND_EVEN] and [ROUND_ODD].

    The reference is CubeHash on words indexed by five bits, for messages of any
    length, with its initial state computed from the parameters.
    [cubehash_is_cubehash512] relates the two; [cubehash_rounds_swap] is the lemma on
    the two macros. *)

From S2P Require Import Prelude Words JumpUtil.

(** ** The code *)

Definition CUBEHASH_IV512 : list Z :=
  [0x2AEA2A61; 0x50F494D4; 0x2D538B8B; 0x4167D83E; 0x3FEE2313; 0xC701CF8C; 0xCC39968E;
  0x50AC5695; 0x4D42C787; 0xA647A8B3; 0x97CF0BEF; 0x825B4537; 0xEEF864D2; 0xF22090C4;
  0xD0E5CD33; 0xA23911AE; 0xFCD398D9; 0x148FE485; 0x1B017BEF; 0xB6444532; 0x6A536159;
  0x2FF5781C; 0x91FA7934; 0x0DBADEA9; 0xD65C8A2B; 0xA5A70E75; 0xB1C62456; 0xBC796576;
  0x1921C8F7; 0xE7989AF1; 0x7795D246; 0xD43E3B44].

Definition T32 (x : Z) : Z := SPH_T32 x.
Definition ROTL32 (x n : Z) : Z := SPH_ROTL32 x n.

(** The two kinds of rounds on the variables [x0..xv]: the second one finds the words
    where the first one leaves them. *)
Definition ROUND_EVEN (x : list Z) : list Z :=
  match x with
  | [x0; x1; x2; x3; x4; x5; x6; x7; x8; x9; xa; xb; xc; xd; xe; xf; xg; xh; xi; xj; xk; xl;
    xm; xn; xo; xp; xq; xr; xs; xt; xu; xv] =>
    let xg := T32 (x0 + xg) in let x0 := ROTL32 x0 7 in let xh := T32 (x1 + xh) in
    let x1 := ROTL32 x1 7 in let xi := T32 (x2 + xi) in let x2 := ROTL32 x2 7 in
    let xj := T32 (x3 + xj) in let x3 := ROTL32 x3 7 in let xk := T32 (x4 + xk) in
    let x4 := ROTL32 x4 7 in let xl := T32 (x5 + xl) in let x5 := ROTL32 x5 7 in
    let xm := T32 (x6 + xm) in let x6 := ROTL32 x6 7 in let xn := T32 (x7 + xn) in
    let x7 := ROTL32 x7 7 in let xo := T32 (x8 + xo) in let x8 := ROTL32 x8 7 in
    let xp := T32 (x9 + xp) in let x9 := ROTL32 x9 7 in let xq := T32 (xa + xq) in
    let xa := ROTL32 xa 7 in let xr := T32 (xb + xr) in let xb := ROTL32 xb 7 in
    let xs := T32 (xc + xs) in let xc := ROTL32 xc 7 in let xt := T32 (xd + xt) in
    let xd := ROTL32 xd 7 in let xu := T32 (xe + xu) in let xe := ROTL32 xe 7 in
    let xv := T32 (xf + xv) in let xf := ROTL32 xf 7 in let x8 := x8 .^ xg in
    let x9 := x9 .^ xh in let xa := xa .^ xi in let xb := xb .^ xj in let xc := xc .^ xk in
    let xd := xd .^ xl in let xe := xe .^ xm in let xf := xf .^ xn in let x0 := x0 .^ xo in
    let x1 := x1 .^ xp in let x2 := x2 .^ xq in let x3 := x3 .^ xr in let x4 := x4 .^ xs in
    let x5 := x5 .^ xt in let x6 := x6 .^ xu in let x7 := x7 .^ xv in
    let xi := T32 (x8 + xi) in let x8 := ROTL32 x8 11 in let xj := T32 (x9 + xj) in
    let x9 := ROTL32 x9 11 in let xg := T32 (xa + xg) in let xa := ROTL32 xa 11 in
    let xh := T32 (xb + xh) in let xb := ROTL32 xb 11 in let xm := T32 (xc + xm) in
    let xc := ROTL32 xc 11 in let xn := T32 (xd + xn) in let xd := ROTL32 xd 11 in
    let xk := T32 (xe + xk) in let xe := ROTL32 xe 11 in let xl := T32 (xf + xl) in
    let xf := ROTL32 xf 11 in let xq := T32 (x0 + xq) in let x0 := ROTL32 x0 11 in
    let xr := T32 (x1 + xr) in let x1 := ROTL32 x1 11 in let xo := T32 (x2 + xo) in
    let x2 := ROTL32 x2 11 in let xp := T32 (x3 + xp) in let x3 := ROTL32 x3 11 in
    let xu := T32 (x4 + xu) in let x4 := ROTL32 x4 11 in let xv := T32 (x5 + xv) in
    let x5 := ROTL32 x5 11 in let xs := T32 (x6 + xs) in let x6 := ROTL32 x6 11 in
    let xt := T32 (x7 + xt) in let x7 := ROTL32 x7 11 in let xc := xc .^ xi in
    let xd := xd .^ xj in let xe := xe .^ xg in let xf := xf .^ xh in let x8 := x8 .^ xm in
    let x9 := x9 .^ xn in let xa := xa .^ xk in let xb := xb .^ xl in let x4 := x4 .^ xq in
    let x5 := x5 .^ xr in let x6 := x6 .^ xo in let x7 := x7 .^ xp in let x0 := x0 .^ xu in
    let x1 := x1 .^ xv in let x2 := x2 .^ xs in let x3 := x3 .^ xt in
    [x0; x1; x2; x3; x4; x5; x6; x7; x8; x9; xa; xb; xc; xd; xe; xf; xg; xh; xi; xj; xk; xl;
    xm; xn; xo; xp; xq; xr; xs; xt; xu; xv]
  | _ => x
  end.

Definition ROUND_ODD (x : list Z) : list Z :=
  match x with
  | [x0; x1; x2; x3; x4; x5; x6; x7; x8; x9; xa; xb; xc; xd; xe; xf; xg; xh; xi; xj; xk; xl;
    xm; xn; xo; xp; xq; xr; xs; xt; xu; xv] =>
    let xj := T32 (xc + xj) in let xc := ROTL32 xc 7 in let xi := T32 (xd + xi) in
    let xd := ROTL32 xd 7 in let xh := T32 (xe + xh) in let xe := ROTL32 xe 7 in
    let xg := T32 (xf + xg) in let xf := ROTL32 xf 7 in let xn := T32 (x8 + xn) in
    let x8 := ROTL32 x8 7 in let xm := T32 (x9 + xm) in let x9 := ROTL32 x9 7 in
    let xl := T32 (xa + xl) in let xa := ROTL32 xa 7 in let xk := T32 (xb + xk) in
    let xb := ROTL32 xb 7 in let xr := T32 (x4 + xr) in let x4 := ROTL32 x4 7 in
    let xq := T32 (x5 + xq) in let x5 := ROTL32 x5 7 in let xp := T32 (x6 + xp) in
    let x6 := ROTL32 x6 7 in let xo := T32 (x7 + xo) in let x7 := ROTL32 x7 7 in
    let xv := T32 (x0 + xv) in let x0 := ROTL32 x0 7 in let xu := T32 (x1 + xu) in
    let x1 := ROTL32 x1 7 in let xt := T32 (x2 + xt) in let x2 := ROTL32 x2 7 in
    let xs := T32 (x3 + xs) in let x3 := ROTL32 x3 7 in let x4 := x4 .^ xj in
    let x5 := x5 .^ xi in let x6 := x6 .^ xh in let x7 := x7 .^ xg in let x0 := x0 .^ xn in
    let x1 := x1 .^ xm in let x2 := x2 .^ xl in let x3 := x3 .^ xk in let xc := xc .^ xr in
    let xd := xd .^ xq in let xe := xe .^ xp in let xf := xf .^ xo in let x8 := x8 .^ xv in
    let x9 := x9 .^ xu in let xa := xa .^ xt in let xb := xb .^ xs in
    let xh := T32 (x4 + xh) in let x4 := ROTL32 x4 11 in let xg := T32 (x5 + xg) in
    let x5 := ROTL32 x5 11 in let xj := T32 (x6 + xj) in let x6 := ROTL32 x6 11 in
    let xi := T32 (x7 + xi) in let x7 := ROTL32 x7 11 in let xl := T32 (x0 + xl) in
    let x0 := ROTL32 x0 11 in let xk := T32 (x1 + xk) in let x1 := ROTL32 x1 11 in
    let xn := T32 (x2 + xn) in let x2 := ROTL32 x2 11 in let xm := T32 (x3 + xm) in
    let x3 := ROTL32 x3 11 in let xp := T32 (xc + xp) in let xc := ROTL32 xc 11 in
    let xo := T32 (xd + xo) in let xd := ROTL32 xd 11 in let xr := T32 (xe + xr) in
    let xe := ROTL32 xe 11 in let xq := T32 (xf + xq) in let xf := ROTL32 xf 11 in
    let xt := T32 (x8 + xt) in let x8 := ROTL32 x8 11 in let xs := T32 (x9 + xs) in
    let x9 := ROTL32 x9 11 in let xv := T32 (xa + xv) in let xa := ROTL32 xa 11 in
    let xu := T32 (xb + xu) in let xb := ROTL32 xb 11 in let x0 := x0 .^ xh in
    let x1 := x1 .^ xg in let x2 := x2 .^ xj in let x3 := x3 .^ xi in let x4 := x4 .^ xl in
    let x5 := x5 .^ xk in let x6 := x6 .^ xn in let x7 := x7 .^ xm in let x8 := x8 .^ xp in
    let x9 := x9 .^ xo in let xa := xa .^ xr in let xb := xb .^ xq in let xc := xc .^ xt in
    let xd := xd .^ xs in let xe := xe .^ xv in let xf := xf .^ xu in
    [x0; x1; x2; x3; x4; x5; x6; x7; x8; x9; xa; xb; xc; xd; xe; xf; xg; xh; xi; xj; xk; xl;
    xm; xn; xo; xp; xq; xr; xs; xt; xu; xv]
  | _ => x
  end.

(** [SIXTEEN_ROUNDS] for [SPH_CUBEHASH_UNROLL] = [unroll]. *)
Definition two_rounds (x : list Z) : list Z := ROUND_ODD (ROUND_EVEN x).
Definition SIXTEEN_ROUNDS (unroll : nat) (x : list Z) : list Z :=
  match unroll with
  | 2 => for_ (seq 0 8) (fun _ x => two_rounds x) x
  | 4 => for_ (seq 0 4) (fun _ x => two_rounds (two_rounds x)) x
  | 8 => for_ (seq 0 2) (fun _ x => two_rounds (two_rounds (two_rounds (two_rounds x)))) x
  | _ => two_rounds (two_rounds (two_rounds (two_rounds
           (two_rounds (two_rounds (two_rounds (two_rounds x)))))))
  end%nat.

(** wutil.h. *)
Definition SPH_CUBEHASH_UNROLL : nat := 0.

(** [x0 ^= tt1; x1 ^= tt0; ...] with the words [base .. base + 7] of the hash in [tt0..tt7]. *)
Definition xor_message (hash : hash_t) (base : nat) (x : list Z) : list Z :=
  let tt1 := SWAP4 (h4 hash (base + 1)) in let tt0 := SWAP4 (h4 hash base) in
  let tt3 := SWAP4 (h4 hash (base + 3)) in let tt2 := SWAP4 (h4 hash (base + 2)) in
  let tt5 := SWAP4 (h4 hash (base + 5)) in let tt4 := SWAP4 (h4 hash (base + 4)) in
  let tt7 := SWAP4 (h4 hash (base + 7)) in let tt6 := SWAP4 (h4 hash (base + 6)) in
  let x := <[0%nat := (x !!! 0%nat) .^ tt1]> x in let x := <[1%nat := (x !!! 1%nat) .^ tt0]> x in
  let x := <[2%nat := (x !!! 2%nat) .^ tt3]> x in let x := <[3%nat := (x !!! 3%nat) .^ tt2]> x in
  let x := <[4%nat := (x !!! 4%nat) .^ tt5]> x in let x := <[5%nat := (x !!! 5%nat) .^ tt4]> x in
  let x := <[6%nat := (x !!! 6%nat) .^ tt7]> x in <[7%nat := (x !!! 7%nat) .^ tt6]> x.

(** The body of the loop over [i]. *)
Definition cubehash_step (hash : hash_t) (i : nat) (x : list Z) : list Z :=
  let x := SIXTEEN_ROUNDS SPH_CUBEHASH_UNROLL x in
  if decide (i = 0%nat) then xor_message hash 8 x
  else if decide (i = 1%nat) then <[0%nat := (x !!! 0%nat) .^ 0x80]> x
  else if decide (i = 2%nat) then <[31%nat := (x !!! 31%nat) .^ 1]> x
  else x.

Definition cubehash (hash : hash_t) : hash_t :=
  let x := CUBEHASH_IV512 in
  let x := xor_message hash 0 x in
  let x := for_ (seq 0 13) (cubehash_step hash) x in
  store_words 4 (take 16 x) hash.

Definition cubehash_scanHash_pre := scanHash_pre cubehash.
Definition cubehash_scanHash_post := scanHash_post cubehash.

(** ** Reference: CubeHash *)

(** The state with its word [i] replaced by [f i]. *)
Definition cube_words (f : nat -> Z) : list Z := f <$> seq 0 32.

(** [x_0jklm] is added into [x_1jklm]; [x_0jklm] is rotated; [x_1jklm] is xored
    into [x_0jklm]. *)
Definition cube_add (x : list Z) : list Z :=
  cube_words (fun i => if Nat.testbit i 4 then (x !!! (i - 16)%nat + x !!! i) mod 2 ^ 32 else x !!! i).
Definition cube_rot (n : Z) (x : list Z) : list Z :=
  cube_words (fun i => if Nat.testbit i 4 then x !!! i else rotl 32 (x !!! i) n).
Definition cube_xor (x : list Z) : list Z :=
  cube_words (fun i => if Nat.testbit i 4 then x !!! i else (x !!! i) .^ (x !!! (i + 16)%nat)).
(** Swap of the words of the half [b] whose indices differ in bit [k]. *)
Definition cube_swap (b : bool) (k : nat) (x : list Z) : list Z :=
  cube_words (fun i => if bool_decide (Nat.testbit i 4 = b) then x !!! (Nat.lxor i (2 ^ k)) else x !!! i).

Definition cube_round (x : list Z) : list Z :=
  let x := cube_swap true 1 (cube_xor (cube_swap false 3 (cube_rot 7 (cube_add x)))) in
  cube_swap true 0 (cube_xor (cube_swap false 2 (cube_rot 11 (cube_add x)))).

Definition cube_rounds (n : nat) (x : list Z) : list Z := Nat.iter n cube_round x.

(** The initial state for h = 512, b = 32, r = 16: the parameters, then 10r rounds. *)
Definition cube_iv : list Z := cube_rounds 160 (512 / 8 :: 32 :: 16 :: replicate 29 0).

(** Absorb a 32-byte block: xor it into the first 32 bytes, then r rounds. *)
Definition cube_absorb (x blk : list Z) : list Z :=
  zip_with Z.lxor (take 8 x) (words_le 4 8 blk) ++ drop 8 x.
Definition cube_block (x blk : list Z) : list Z := cube_rounds 16 (cube_absorb x blk).

Definition cube_pad (len : nat) : list Z := 0x80 :: replicate (31 - len mod 32) 0.

Definition cubehash512 (m : list Z) : list Z :=
  let p := m ++ cube_pad (length m) in
  let x := foldl cube_block cube_iv (chunks 32 (length p / 32) p) in
  let x := <[31%nat := (x !!! 31%nat) .^ 1]> x in
  bytes_le 4 (take 16 (cube_rounds 160 x)).

(** ** Proofs *)

Lemma cube_iv_table : CUBEHASH_IV512 = cube_iv.
Proof. vm_compute. reflexivity. Qed.

(** Where a single round of the code leaves the words: [x_i] is in variable
    [i xor 12] of the low half and [i xor 3] of the high half. *)
Definition cube_moved (x : list Z) : list Z :=
  cube_words (fun i => x !!! Nat.lxor i (if Nat.testbit i 4 then 3 else 12)%nat).

Ltac cube_symbolic :=
  cbv -[Z.lxor Z.add SPH_ROTL32 SPH_T32 rotl Z.modulo Z.pow];
  unfold SPH_T32; rewrite ?SPH_ROTL32_rotl, ?u32_mod; reflexivity.

Lemma ROUND_EVEN_moved x : length x = 32%nat -> ROUND_EVEN x = cube_moved (cube_round x).
Proof. intros H. destruct_list x H. cube_symbolic. Qed.

Lemma ROUND_ODD_moved x : length x = 32%nat -> ROUND_ODD (cube_moved x) = cube_round x.
Proof. intros H. destruct_list x H. cube_symbolic. Qed.

Lemma length_cube_round x : length (cube_round x) = 32%nat.
Proof. done. Qed.
Lemma length_cube_rounds n x : length x = 32%nat -> length (cube_rounds n x) = 32%nat.
Proof. intros H. by destruct n. Qed.
#[global] Opaque cube_round ROUND_EVEN ROUND_ODD.

Lemma two_rounds_spec x : length x = 32%nat -> two_rounds x = cube_rounds 2 x.
Proof.
  intros H. unfold two_rounds. rewrite ROUND_EVEN_moved by done.
  by rewrite ROUND_ODD_moved by apply length_cube_round.
Qed.

Lemma cube_rounds_add n k x : cube_rounds (n + k) x = cube_rounds n (cube_rounds k x).
Proof. apply Nat.iter_add. Qed.

Lemma cube_rounds_loop (f : list Z -> list Z) k n a x :
  (forall x, length x = 32%nat -> f x = cube_rounds k x) -> length x = 32%nat ->
  for_ (seq a n) (fun _ x => f x) x = cube_rounds (n * k) x.
Proof.
  intros Hf Hx. revert a. induction n as [|n IH]; intros a; [done|].
  rewrite for_seq_S, IH, Hf by by apply length_cube_rounds. symmetry. apply cube_rounds_add.
Qed.

(** Sixteen rounds, whatever the unroll count. *)
Lemma SIXTEEN_ROUNDS_spec u x : length x = 32%nat -> SIXTEEN_ROUNDS u x = cube_rounds 16 x.
Proof.
  intros Hx.
  assert (H4 : forall x, length x = 32%nat -> two_rounds (two_rounds x) = cube_rounds 4 x).
  { intros y Hy. by rewrite (two_rounds_spec y Hy), two_rounds_spec by by apply length_cube_rounds. }
  assert (H8 : forall x, length x = 32%nat ->
    two_rounds (two_rounds (two_rounds (two_rounds x))) = cube_rounds 8 x).
  { intros y Hy. by rewrite (H4 y Hy), H4 by by apply length_cube_rounds. }
  assert (H16 : two_rounds (two_rounds (two_rounds (two_rounds
      (two_rounds (two_rounds (two_rounds (two_rounds x))))))) = cube_rounds 16 x).
  { by rewrite (H8 x Hx), H8 by by apply length_cube_rounds. }
  unfold SIXTEEN_ROUNDS. do 9 (destruct u as [|u]; [first [exact H16
    | apply (cube_rounds_loop two_rounds 2); [apply two_rounds_spec|done]
    | apply (cube_rounds_loop (fun x => two_rounds (two_rounds x)) 4); [apply H4|done]
    | apply (cube_rounds_loop (fun x => two_rounds (two_rounds (two_rounds (two_rounds x)))) 8);
      [apply H8|done]]|]).
  exact H16.
Qed.

Lemma length_cube_absorb x blk : length x = 32%nat -> length (cube_absorb x blk) = 32%nat.
Proof. intros H. unfold cube_absorb. simpl_len. rewrite H. done. Qed.

Lemma xor_message_spec h base x :
  is_hash h -> base = 0%nat \/ base = 8%nat -> length x = 32%nat ->
  xor_message h base x = cube_absorb x (sub (byteswap 8 8 h) (base * 4) 32).
Proof.
  intros Hh Hb Hx. unfold xor_message. cbv zeta. rewrite !swapped_read4 by (done || lia).
  destruct Hh as [Hl _]. destruct_list x Hx. destruct_list h Hl.
  destruct Hb as [-> | ->]; reflexivity.
Qed.

Lemma xor_pad_spec x :
  length x = 32%nat -> <[0%nat := (x !!! 0%nat) .^ 0x80]> x = cube_absorb x (cube_pad 64).
Proof. intros H. destruct_list x H. cbv -[Z.lxor]. by rewrite !Z.lxor_0_r. Qed.

(** The steps of the loop after the first three only run rounds. *)
Lemma cubehash_step_spec h i x :
  is_hash h -> length x = 32%nat ->
  cubehash_step h i x =
    let y := cube_rounds 16 x in
    match i with
    | 0 => cube_absorb y (sub (byteswap 8 8 h) 32 32)
    | 1 => cube_absorb y (cube_pad 64)
    | 2 => <[31 := (y !!! 31) .^ 1]> y
    | _ => y
    end%nat.
Proof.
  intros Hh Hx. unfold cubehash_step. rewrite SIXTEEN_ROUNDS_spec by done.
  pose proof (length_cube_rounds 16 x Hx) as Hy. revert Hy. generalize (cube_rounds 16 x).
  intros y Hy. cbv zeta. destruct i as [|[|[|i]]]; [|by apply xor_pad_spec|done|].
  - by apply (xor_message_spec h 8); [|right|].
  - do 3 (rewrite decide_False by lia). done.
Qed.

Lemma cubehash_last_rounds h x :
  is_hash h -> length x = 32%nat -> for_ (seq 3 10) (cubehash_step h) x = cube_rounds 160 x.
Proof.
  intros Hh Hx.
  rewrite (for_ext (fun x => length x = 32%nat) _ _ (fun _ x => cube_rounds 16 x)).
  - by apply (cube_rounds_loop (cube_rounds 16) 16).
  - done.
  - intros i y Hi Hy. apply elem_of_seq in Hi. rewrite cubehash_step_spec by done.
    split; [|by apply length_cube_rounds]. by destruct i as [|[|[|i]]]; [lia..|].
Qed.

Lemma byteswap_blocks h :
  is_hash h ->
  chunks 32 ((64 + length (cube_pad 64)) / 32) (byteswap 8 8 h ++ cube_pad 64) =
  [sub (byteswap 8 8 h) 0 32; sub (byteswap 8 8 h) 32 32; cube_pad 64].
Proof.
  intros [Hl _]. destruct_list h Hl. reflexivity.
Qed.

(** w_cubehash.c's [cubehash] is CubeHash16/32-512 of the
    64-byte message obtained from the hash by reversing the bytes of each 8-byte word. *)
Theorem cubehash_is_cubehash512 (h : hash_t) :
  is_hash h -> cubehash h = cubehash512 (byteswap 8 8 h).
Proof.
  intros Hh. unfold cubehash512, cubehash. cbv zeta.
  assert (Hlen : length (byteswap 8 8 h) = 64%nat).
  { rewrite byteswap_le by apply Hh. simpl_len. done. }
  rewrite length_app, Hlen, byteswap_blocks, <-cube_iv_table by done.
  assert (H0 : length CUBEHASH_IV512 = 32%nat) by done.
  revert H0. generalize CUBEHASH_IV512. intros x0 H0.
  rewrite (xor_message_spec h 0) by (auto || done). cbn [foldl]. unfold cube_block.
  change (0 * 4)%nat with 0%nat. set (x1 := cube_absorb x0 (sub (byteswap 8 8 h) 0 32)).
  change (seq 0 13) with ([0; 1; 2]%nat ++ seq 3 10). rewrite for_app, !for_cons, for_nil.
  assert (H1 : length x1 = 32%nat) by by apply length_cube_absorb.
  rewrite (cubehash_step_spec h 0 x1) by done. cbv iota zeta.
  set (x2 := cube_absorb (cube_rounds 16 x1) (sub (byteswap 8 8 h) 32 32)).
  assert (H2 : length x2 = 32%nat) by by apply length_cube_absorb, length_cube_rounds.
  rewrite (cubehash_step_spec h 1 x2) by done. cbv iota zeta.
  set (x3 := cube_absorb (cube_rounds 16 x2) (cube_pad 64)).
  assert (H3 : length x3 = 32%nat) by by apply length_cube_absorb, length_cube_rounds.
  rewrite (cubehash_step_spec h 2 x3) by done. cbv iota zeta.
  rewrite cubehash_last_rounds by (done || by rewrite length_insert, length_cube_rounds).
  apply store_words_all. rewrite length_take, length_cube_rounds;
    [apply Hh|by rewrite length_insert, length_cube_rounds].
Qed.

Lemma cubehash_is_cubehash512_witness :
  is_hash (replicate 64 9) /\
  cubehash (replicate 64 9) = cubehash512 (byteswap 8 8 (replicate 64 9)).
Proof.
  assert (H : is_hash (replicate 64 9)) by (split; [done|repeat constructor; done]).
  exact (conj H (cubehash_is_cubehash512 _ H)).
Defined.

#[global] Instance cubehash_jumphash : JumpHash cubehash.
Proof.
  intros h Hh. unfold cubehash. cbv zeta. apply store_words_hash; [apply Hh|].
  rewrite length_take. set (x0 := xor_message h 0 CUBEHASH_IV512).
  assert (Hl : length (for_ (seq 0 13) (cubehash_step h) x0) = 32%nat); [|by rewrite Hl].
  apply (for_ind (fun x => length x = 32%nat)).
  - unfold x0. rewrite (xor_message_spec h 0); [by apply length_cube_absorb|done|by left|done].
  - intros i x _ Hx. rewrite cubehash_step_spec by done. cbv zeta.
    destruct i as [|[|[|i]]];
      rewrite ?length_insert; repeat apply length_cube_absorb; by apply length_cube_rounds.
Qed.
