(* ===== verification/JumpSkein.v ===== *)
(** * libjumphash/w_skein.c

    Skein-512-512 of a 64-byte message: two UBI calls (message and output) over
    Threefish-512, on the local variables [h0..h7], [m0..m7], [p0..p7]; subkey
    words and tweak words are selected by macro tables, and the word permutation of
    Threefish is a renaming of the macro arguments.

    The reference is Threefish-512, UBI and Skein-512-512 for messages of any length,
    with the initial value computed from the configuration block.
    [skein_is_skein512] relates the two. *)

From S2P Require Import Prelude Words JumpUtil.

(** ** The code *)

(** [M9 !!! s !!! i] is the macro [M9_s_i], and the same for [M3]. *)
Definition M9 : list (list nat) :=
  [[0; 1; 2; 3; 4; 5; 6; 7];
   [1; 2; 3; 4; 5; 6; 7; 8];
   [2; 3; 4; 5; 6; 7; 8; 0];
   [3; 4; 5; 6; 7; 8; 0; 1];
   [4; 5; 6; 7; 8; 0; 1; 2];
   [5; 6; 7; 8; 0; 1; 2; 3];
   [6; 7; 8; 0; 1; 2; 3; 4];
   [7; 8; 0; 1; 2; 3; 4; 5];
   [8; 0; 1; 2; 3; 4; 5; 6];
   [0; 1; 2; 3; 4; 5; 6; 7];
   [1; 2; 3; 4; 5; 6; 7; 8];
   [2; 3; 4; 5; 6; 7; 8; 0];
   [3; 4; 5; 6; 7; 8; 0; 1];
   [4; 5; 6; 7; 8; 0; 1; 2];
   [5; 6; 7; 8; 0; 1; 2; 3];
   [6; 7; 8; 0; 1; 2; 3; 4];
   [7; 8; 0; 1; 2; 3; 4; 5];
   [8; 0; 1; 2; 3; 4; 5; 6];
   [0; 1; 2; 3; 4; 5; 6; 7]]%nat.
Definition M3 : list (list nat) :=
  [[0; 1]; [1; 2]; [2; 0]; [0; 1]; [1; 2]; [2; 0]; [0; 1]; [1; 2]; [2; 0]; [0; 1];
   [1; 2]; [2; 0]; [0; 1]; [1; 2]; [2; 0]; [0; 1]; [1; 2]; [2; 0]; [0; 1]]%nat.

(** [SKBI(k, s, i)] and [SKBT(t, s, v)]. *)
Definition SKBI (k : list Z) (s i : nat) : Z := k !!! ((M9 !!! s) !!! i).
Definition SKBT (t : list Z) (s v : nat) : Z := t !!! ((M3 !!! s) !!! v).

(** [TFBIG_KINIT]: the values given to [k8] and [t2]. *)
Definition TFBIG_KINIT (k0 k1 k2 k3 k4 k5 k6 k7 t0 t1 : Z) : Z * Z :=
  let k8 := ((k0 .^ k1) .^ (k2 .^ k3)) .^ ((k4 .^ k5) .^ (k6 .^ k7)) .^ 0x1BD11BDAA9FC1A22 in
  let t2 := t0 .^ t1 in
  (k8, t2).

Definition TFBIG_ADDKEY (w k t : list Z) (s : nat) : list Z :=
  match w with
  | [w0; w1; w2; w3; w4; w5; w6; w7] =>
      [SPH_T64 (w0 + SKBI k s 0); SPH_T64 (w1 + SKBI k s 1); SPH_T64 (w2 + SKBI k s 2);
       SPH_T64 (w3 + SKBI k s 3); SPH_T64 (w4 + SKBI k s 4);
       SPH_T64 (w5 + SKBI k s 5 + SKBT t s 0); SPH_T64 (w6 + SKBI k s 6 + SKBT t s 1);
       SPH_T64 (w7 + SKBI k s 7 + Z.of_nat s)]
  | _ => w
  end.

(** [TFBIG_MIX] on the values of its two variables. *)
Definition TFBIG_MIX (x0 x1 rc : Z) : Z * Z :=
  let x0 := SPH_T64 (x0 + x1) in
  let x1 := SPH_ROTL64 x1 rc .^ x0 in
  (x0, x1).

(** Four rounds: [TFBIG_ADDKEY], then four [TFBIG_MIX8] whose arguments are renamed
    variables instead of permuted values. *)
Definition TFBIG_4e (h t : list Z) (s : nat) (p : list Z) : list Z :=
  match TFBIG_ADDKEY p h t s with
  | [p0; p1; p2; p3; p4; p5; p6; p7] =>
      let '(p0, p1) := TFBIG_MIX p0 p1 46 in
      let '(p2, p3) := TFBIG_MIX p2 p3 36 in
      let '(p4, p5) := TFBIG_MIX p4 p5 19 in
      let '(p6, p7) := TFBIG_MIX p6 p7 37 in
      let '(p2, p1) := TFBIG_MIX p2 p1 33 in
      let '(p4, p7) := TFBIG_MIX p4 p7 27 in
      let '(p6, p5) := TFBIG_MIX p6 p5 14 in
      let '(p0, p3) := TFBIG_MIX p0 p3 42 in
      let '(p4, p1) := TFBIG_MIX p4 p1 17 in
      let '(p6, p3) := TFBIG_MIX p6 p3 49 in
      let '(p0, p5) := TFBIG_MIX p0 p5 36 in
      let '(p2, p7) := TFBIG_MIX p2 p7 39 in
      let '(p6, p1) := TFBIG_MIX p6 p1 44 in
      let '(p0, p7) := TFBIG_MIX p0 p7 9 in
      let '(p2, p5) := TFBIG_MIX p2 p5 54 in
      let '(p4, p3) := TFBIG_MIX p4 p3 56 in
      [p0; p1; p2; p3; p4; p5; p6; p7]
  | _ => p
  end.
Definition TFBIG_4o (h t : list Z) (s : nat) (p : list Z) : list Z :=
  match TFBIG_ADDKEY p h t s with
  | [p0; p1; p2; p3; p4; p5; p6; p7] =>
      let '(p0, p1) := TFBIG_MIX p0 p1 39 in
      let '(p2, p3) := TFBIG_MIX p2 p3 30 in
      let '(p4, p5) := TFBIG_MIX p4 p5 34 in
      let '(p6, p7) := TFBIG_MIX p6 p7 24 in
      let '(p2, p1) := TFBIG_MIX p2 p1 13 in
      let '(p4, p7) := TFBIG_MIX p4 p7 50 in
      let '(p6, p5) := TFBIG_MIX p6 p5 10 in
      let '(p0, p3) := TFBIG_MIX p0 p3 17 in
      let '(p4, p1) := TFBIG_MIX p4 p1 25 in
      let '(p6, p3) := TFBIG_MIX p6 p3 29 in
      let '(p0, p5) := TFBIG_MIX p0 p5 39 in
      let '(p2, p7) := TFBIG_MIX p2 p7 43 in
      let '(p6, p1) := TFBIG_MIX p6 p1 8 in
      let '(p0, p7) := TFBIG_MIX p0 p7 35 in
      let '(p2, p5) := TFBIG_MIX p2 p5 56 in
      let '(p4, p3) := TFBIG_MIX p4 p3 22 in
      [p0; p1; p2; p3; p4; p5; p6; p7]
  | _ => p
  end.

Definition SKEIN_IV512 : list Z :=
  [0x4903ADFF749C51CE; 0x0D95DE399746DF03; 0x8FD1934127C79BCE; 0x9A255629FF352CB1;
   0x5DB62599DF6CA7B0; 0xEABE394CA9D5C3F4; 0x991112C71A75B523; 0xAE18A40B660FCC33].

(** [UBI_BIG(etype, extra)]: the new values of [h0..h7]. *)
Definition UBI_BIG (h m : list Z) (bcount etype extra : Z) : list Z :=
  match h with
  | [h0; h1; h2; h3; h4; h5; h6; h7] =>
      let p := m in
      let t0 := u64 (SPH_T64 (u64 (bcount .<< 6)) + extra) in
      let t1 := u64 ((bcount .>> 58) + u64 (etype .<< 55)) in
      let '(h8, t2) := TFBIG_KINIT h0 h1 h2 h3 h4 h5 h6 h7 t0 t1 in
      let k := [h0; h1; h2; h3; h4; h5; h6; h7; h8] in
      let t := [t0; t1; t2] in
      let p := TFBIG_4e k t 0 p in let p := TFBIG_4o k t 1 p in
      let p := TFBIG_4e k t 2 p in let p := TFBIG_4o k t 3 p in
      let p := TFBIG_4e k t 4 p in let p := TFBIG_4o k t 5 p in
      let p := TFBIG_4e k t 6 p in let p := TFBIG_4o k t 7 p in
      let p := TFBIG_4e k t 8 p in let p := TFBIG_4o k t 9 p in
      let p := TFBIG_4e k t 10 p in let p := TFBIG_4o k t 11 p in
      let p := TFBIG_4e k t 12 p in let p := TFBIG_4o k t 13 p in
      let p := TFBIG_4e k t 14 p in let p := TFBIG_4o k t 15 p in
      let p := TFBIG_4e k t 16 p in let p := TFBIG_4o k t 17 p in
      let p := TFBIG_ADDKEY p k t 18 in
      zip_with Z.lxor m p
  | _ => h
  end.

Definition skein (hash : hash_t) : hash_t :=
  let h := SKEIN_IV512 in
  let bcount := 0 in
  let m := [SWAP8 (h8 hash 0); SWAP8 (h8 hash 1); SWAP8 (h8 hash 2); SWAP8 (h8 hash 3);
            SWAP8 (h8 hash 4); SWAP8 (h8 hash 5); SWAP8 (h8 hash 6); SWAP8 (h8 hash 7)] in
  let h := UBI_BIG h m bcount 480 64 in
  let bcount := 0 in
  let m := [0; 0; 0; 0; 0; 0; 0; 0] in
  let h := UBI_BIG h m bcount 510 8 in
  store_words 8 (SWAP8 <$> h) hash.

Definition skein_scanHash_pre := scanHash_pre skein.
Definition skein_scanHash_post := scanHash_post skein.

(** ** Reference: Threefish-512, UBI, Skein-512-512 *)

Definition tf_rotations : list (list Z) :=
  [[46; 36; 19; 37]; [33; 27; 14; 42]; [17; 49; 36; 39]; [44; 9; 54; 56];
   [39; 30; 34; 24]; [13; 50; 10; 17]; [25; 29; 39; 43]; [8; 35; 56; 22]].
Definition tf_permutation : list nat := [2; 1; 4; 7; 6; 5; 0; 3]%nat.

(** Mix the four pairs of words, then permute the words. *)
Definition tf_mix (d : nat) (v : list Z) : list Z :=
  (fun i => let j := (i / 2)%nat in
     let y := (v !!! (2 * j)%nat + v !!! (2 * j + 1)%nat) mod 2 ^ 64 in
     if Nat.even i then y
     else rotl 64 (v !!! (2 * j + 1)%nat) ((tf_rotations !!! (d mod 8)%nat) !!! j) .^ y)
  <$> seq 0 8.
Definition tf_round (d : nat) (v : list Z) : list Z :=
  let v := tf_mix d v in (fun i => v !!! (tf_permutation !!! i)) <$> seq 0 8.

(** The extended key and tweak, and subkey [s]. *)
Definition tf_key (k : list Z) : list Z := k ++ [foldr Z.lxor 0x1BD11BDAA9FC1A22 k].
Definition tf_tweak (t0 t1 : Z) : list Z := [t0; t1; t0 .^ t1].
Definition tf_subkey (k t : list Z) (s : nat) : list Z :=
  (fun i => let ki := k !!! ((s + i) mod 9)%nat in
     if decide (i = 5%nat) then ki + t !!! (s mod 3)%nat
     else if decide (i = 6%nat) then ki + t !!! ((s + 1) mod 3)%nat
     else if decide (i = 7%nat) then ki + Z.of_nat s
     else ki) <$> seq 0 8.
Definition tf_add (v w : list Z) : list Z := zip_with (fun x y => (x + y) mod 2 ^ 64) v w.

(** 72 rounds, a subkey before every fourth round and at the end. *)
Definition threefish512 (k : list Z) (t0 t1 : Z) (p : list Z) : list Z :=
  let k := tf_key k in
  let t := tf_tweak t0 t1 in
  let v := for_ (seq 0 72) (fun d v =>
    let v := if decide (d mod 4 = 0)%nat then tf_add v (tf_subkey k t (d / 4)) else v in
    tf_round d v) p in
  tf_add v (tf_subkey k t 18).

(** UBI on a byte string: the tweak holds the position, the type and the flags of the
    first and the last block. *)
Definition ubi_tweak (len n i : nat) (type : Z) : Z :=
  Z.of_nat (len `min` (64 * (i + 1)))%nat + type .<< 120 +
  (if decide (i = 0%nat) then 2 ^ 126 else 0) + (if decide (i + 1 = n)%nat then 2 ^ 127 else 0).
Definition ubi (g m : list Z) (type : Z) : list Z :=
  let len := length m in
  let n := (1 `max` ((len + 63) / 64))%nat in
  let m := m ++ replicate (64 * n - len) 0 in
  for_ (seq 0 n) (fun i g =>
    let w := words_le 8 8 (sub m (i * 64) 64) in
    let t := ubi_tweak len n i type in
    zip_with Z.lxor (threefish512 g (t mod 2 ^ 64) (t / 2 ^ 64) w) w) g.

(** The configuration: "SHA3", version 1, 512 output bits, no tree. *)
Definition skein_config : list Z :=
  le_to_bytes 4 0x33414853 ++ le_to_bytes 2 1 ++ le_to_bytes 2 0 ++ le_to_bytes 8 512 ++
  replicate 16 0.

Definition skein512 (m : list Z) : list Z :=
  let g := ubi (replicate 8 0) skein_config 4 in
  let g := ubi g m 48 in
  bytes_le 8 (ubi g (le_to_bytes 8 0) 63).

(** ** Proofs *)

Example skein512_empty_vector :
  skein512 [] = be_to_bytes 64
    0xBC5B4C50925519C290CC634277AE3D6257212395CBA733BBAD37A4AF0FA06AF41FCA7903D06564FEA7A2D3730DBDB80C1F85562DFCC070334EA4D1D9E72CBA7A.
Proof. vm_compute. reflexivity. Qed.

Lemma skein_iv_config : SKEIN_IV512 = ubi (replicate 8 0) skein_config 4.
Proof. vm_compute. reflexivity. Qed.

(** The tables [M9] and [M3] are sums modulo 9 and 3, as their comments say. *)
Lemma M9_spec s i : (s <= 18)%nat -> (i < 8)%nat -> (M9 !!! s) !!! i = ((s + i) mod 9)%nat.
Proof.
  intros Hs Hi. assert (H : forallb (fun s => forallb (fun i =>
    Nat.eqb ((M9 !!! s) !!! i) ((s + i) mod 9)) (seq 0 8)) (seq 0 19) = true) by (vm_compute; reflexivity).
  rewrite forallb_forall in H. specialize (H s ltac:(apply in_seq; lia)). cbv beta in H.
  rewrite forallb_forall in H. apply Nat.eqb_eq, H, in_seq. lia.
Qed.
Lemma M3_spec s i : (s <= 18)%nat -> (i < 2)%nat -> (M3 !!! s) !!! i = ((s + i) mod 3)%nat.
Proof.
  intros Hs Hi. assert (H : forallb (fun s => forallb (fun i =>
    Nat.eqb ((M3 !!! s) !!! i) ((s + i) mod 3)) (seq 0 2)) (seq 0 19) = true) by (vm_compute; reflexivity).
  rewrite forallb_forall in H. specialize (H s ltac:(apply in_seq; lia)). cbv beta in H.
  rewrite forallb_forall in H. apply Nat.eqb_eq, H, in_seq. lia.
Qed.

Lemma ADDKEY_spec p k t s :
  length p = 8%nat -> (s <= 18)%nat -> TFBIG_ADDKEY p k t s = tf_add p (tf_subkey k t s).
Proof.
  intros Hp Hs. destruct_list p Hp. unfold TFBIG_ADDKEY, SKBI, SKBT.
  rewrite !M9_spec, !M3_spec by lia. unfold tf_subkey, SPH_T64. rewrite !u64_mod.
  cbn [seq fmap list_fmap tf_add zip_with decide]. rewrite ?Nat.add_0_r.
  rewrite <-!Z.add_assoc. reflexivity.
Qed.

(** Renaming the arguments of the four mixing steps is permuting the words: after four
    rounds the permutation is the identity. *)
Ltac tf_symbolic :=
  cbv -[Z.lxor Z.add SPH_ROTL64 u64 rotl Z.modulo Z.pow];
  rewrite ?SPH_ROTL64_rotl, ?u64_mod; reflexivity.

Lemma TFBIG_4e_spec k t s p :
  length p = 8%nat -> (s <= 18)%nat ->
  TFBIG_4e k t s p = tf_round 3 (tf_round 2 (tf_round 1 (tf_round 0 (tf_add p (tf_subkey k t s))))).
Proof.
  intros Hp Hs. unfold TFBIG_4e. rewrite ADDKEY_spec by done.
  assert (Hl : length (tf_add p (tf_subkey k t s)) = 8%nat) by (unfold tf_add; simpl_len; by rewrite Hp).
  revert Hl. generalize (tf_add p (tf_subkey k t s)). intros v Hv. destruct_list v Hv. tf_symbolic.
Qed.
Lemma TFBIG_4o_spec k t s p :
  length p = 8%nat -> (s <= 18)%nat ->
  TFBIG_4o k t s p = tf_round 7 (tf_round 6 (tf_round 5 (tf_round 4 (tf_add p (tf_subkey k t s))))).
Proof.
  intros Hp Hs. unfold TFBIG_4o. rewrite ADDKEY_spec by done.
  assert (Hl : length (tf_add p (tf_subkey k t s)) = 8%nat) by (unfold tf_add; simpl_len; by rewrite Hp).
  revert Hl. generalize (tf_add p (tf_subkey k t s)). intros v Hv. destruct_list v Hv. tf_symbolic.
Qed.

Lemma length_tf_round d v : length (tf_round d v) = 8%nat.
Proof. done. Qed.
Lemma length_tf_add v k t s : length v = 8%nat -> length (tf_add v (tf_subkey k t s)) = 8%nat.
Proof. intros H. unfold tf_add. simpl_len. by rewrite H. Qed.

(** Only [d mod 8] matters to a round. *)
Lemma tf_round_mod d j v : tf_round (8 * j + d) v = tf_round d v.
Proof.
  unfold tf_round, tf_mix. rewrite (Nat.mul_comm 8), Nat.add_comm, Nat.Div0.mod_add. done.
Qed.
#[global] Opaque tf_round TFBIG_4e TFBIG_4o.

(** The body of the reference's loop. *)
Definition tf_body (k t : list Z) (d : nat) (v : list Z) : list Z :=
  let v := if decide (d mod 4 = 0)%nat then tf_add v (tf_subkey k t (d / 4)) else v in tf_round d v.

(** Eight rounds of the loop are one even and one odd group of the code. *)
Lemma eight_rounds k t j v :
  length v = 8%nat -> (j < 9)%nat ->
  for_ (seq (8 * j) 8) (tf_body k t) v = TFBIG_4o k t (2 * j + 1) (TFBIG_4e k t (2 * j) v).
Proof.
  intros Hv Hj. rewrite TFBIG_4e_spec by (done || lia). rewrite TFBIG_4o_spec by (done || lia).
  assert (Hb : forall d v, (d < 8)%nat -> tf_body k t (8 * j + d) v =
    tf_round d (if decide (d mod 4 = 0)%nat then tf_add v (tf_subkey k t (2 * j + d / 4)) else v)).
  { intros d w Hd. unfold tf_body. rewrite tf_round_mod.
    replace ((8 * j + d) mod 4)%nat with (d mod 4)%nat.
    2: { replace (8 * j + d)%nat with (d + (2 * j) * 4)%nat by lia. by rewrite Nat.Div0.mod_add. }
    replace ((8 * j + d) / 4)%nat with (2 * j + d / 4)%nat; [done|].
    replace (8 * j + d)%nat with ((2 * j) * 4 + d)%nat by lia. by rewrite Nat.div_add_l. }
  replace (seq (8 * j) 8) with ((fun d => 8 * j + d)%nat <$> [0; 1; 2; 3; 4; 5; 6; 7]%nat).
  2: { cbn [fmap list_fmap seq]. repeat (f_equal; [lia|]). f_equal. lia. }
  cbn [fmap list_fmap]. unfold for_. cbn [foldl]. rewrite !Hb by lia.
  change (0 / 4)%nat with 0%nat. change (4 / 4)%nat with 1%nat. rewrite Nat.add_0_r.
  reflexivity.
Qed.

Lemma threefish_groups k t v :
  length v = 8%nat ->
  for_ (seq 0 72) (tf_body k t) v =
    for_ (seq 0 9) (fun j v => TFBIG_4o k t (2 * j + 1) (TFBIG_4e k t (2 * j) v)) v /\
  length (for_ (seq 0 72) (tf_body k t) v) = 8%nat.
Proof.
  intros Hv. split.
  - cut (forall n, (n <= 9)%nat -> for_ (seq 0 (8 * n)) (tf_body k t) v =
      for_ (seq 0 n) (fun j v => TFBIG_4o k t (2 * j + 1) (TFBIG_4e k t (2 * j) v)) v);
      [intros H; by apply (H 9%nat)|].
    induction n as [|n IH]; intros Hn; [done|].
    replace (8 * S n)%nat with (8 * n + 8)%nat by lia. rewrite (seq_S n), seq_app, !for_app, IH by lia.
    cbn [plus]. rewrite for_cons, for_nil. apply eight_rounds; [|lia]. rewrite <-IH by lia.
    apply (for_ind (fun v => length v = 8%nat)); [done|]. intros. apply length_tf_round.
  - apply (for_ind (fun v => length v = 8%nat)); [done|]. intros. apply length_tf_round.
Qed.

Lemma zip_with_lxor_comm l1 l2 : zip_with Z.lxor l1 l2 = zip_with Z.lxor l2 l1.
Proof.
  revert l2. induction l1 as [|x l1 IH]; intros [|y l2]; [done..|]. simpl. by rewrite IH, Z.lxor_comm.
Qed.

(** One UBI call on one block. *)
Lemma UBI_BIG_spec h m etype extra :
  length h = 8%nat -> length m = 8%nat -> is_u64 extra ->
  UBI_BIG h m 0 etype extra = zip_with Z.lxor (threefish512 h extra (u64 (etype .<< 55)) m) m.
Proof.
  intros Hh Hm He. destruct_list h Hh. unfold UBI_BIG, threefish512.
  rewrite Z.shiftl_0_l, Z.shiftr_0_l, Z.add_0_l. change (SPH_T64 (u64 0)) with 0. rewrite Z.add_0_l.
  rewrite (u64_id extra), (u64_id (u64 _)) by (done || apply u64_range).
  unfold TFBIG_KINIT. cbv iota zeta.
  match goal with |- context [TFBIG_4e ?k ?t 0 m] => set (kk := k); set (tt := t) end.
  match goal with |- context [tf_key ?l] => replace (tf_key l) with kk end.
  2: { unfold kk, tf_key. cbn [app foldr]. by rewrite !Z.lxor_assoc. }
  change (tf_tweak extra (u64 (etype .<< 55))) with tt.
  destruct (threefish_groups kk tt m Hm) as [Hg Hl].
  unfold tf_body in Hg at 1, Hl. cbv zeta in Hg, Hl.
  rewrite <-ADDKEY_spec by (done || lia). rewrite Hg. apply zip_with_lxor_comm.
Qed.

Lemma length_UBI_BIG h m etype extra :
  length h = 8%nat -> length m = 8%nat -> is_u64 extra -> length (UBI_BIG h m 0 etype extra) = 8%nat.
Proof.
  intros Hh Hm He. rewrite UBI_BIG_spec by done. unfold threefish512. simpl_len.
  rewrite Hm. fold (tf_body (tf_key h) (tf_tweak extra (u64 (etype .<< 55)))).
  destruct (threefish_groups (tf_key h) (tf_tweak extra (u64 (etype .<< 55))) m Hm) as [_ Hl].
  rewrite length_tf_add; [done|exact Hl].
Qed.

Lemma UBI_BIG_range h m etype extra :
  length h = 8%nat -> Forall is_u64 m -> length m = 8%nat -> is_u64 extra ->
  Forall is_u64 (UBI_BIG h m 0 etype extra).
Proof.
  intros Hh Hm Hl He. rewrite UBI_BIG_spec by done. unfold threefish512, tf_add.
  apply Forall_lookup_2. intros i x Hx.
  apply lookup_zip_with_Some in Hx as (a & b & -> & Ha & Hb).
  apply lookup_zip_with_Some in Ha as (c & d & -> & _ & _).
  apply is_word_lxor; [lia|by apply is_word_mod|]. by apply (Forall_lookup_1 _ _ _ _ Hm Hb).
Qed.

(** A UBI call of the reference on a single block. *)
Lemma ubi_one_block g m type :
  (0 < length m <= 64)%nat ->
  let t := Z.of_nat (length m) + type .<< 120 + 2 ^ 126 + 2 ^ 127 in
  let w := words_le 8 8 (m ++ replicate (64 - length m) 0) in
  ubi g m type = zip_with Z.lxor (threefish512 g (t mod 2 ^ 64) (t / 2 ^ 64) w) w.
Proof.
  intros Hm. cbv zeta. unfold ubi.
  replace (1 `max` ((length m + 63) / 64))%nat with 1%nat.
  2: { assert ((length m + 63) / 64 < 2)%nat by (apply Nat.Div0.div_lt_upper_bound; lia). lia. }
  cbn [seq]. rewrite for_cons, for_nil. cbv zeta. rewrite Nat.mul_1_r.
  rewrite sub_all by (simpl_len; lia).
  replace (ubi_tweak (length m) 1 0 type) with
    (Z.of_nat (length m) + type .<< 120 + 2 ^ 126 + 2 ^ 127); [done|].
  unfold ubi_tweak. rewrite !decide_True by done. do 3 f_equal. lia.
Qed.

(** C40: w_skein.c's [skein] is Skein-512-512 of the 64-byte message
    obtained from the hash by reversing the bytes of each 8-byte word, its digest reversed
    the same way. *)
Theorem skein_is_skein512 (h : hash_t) :
  is_hash h -> skein h = byteswap 8 8 (skein512 (byteswap 8 8 h)).
Proof.
  intros Hh. pose proof (words_be_range 8 8 h (proj2 Hh) ltac:(rewrite (proj1 Hh); done)) as Hw.
  unfold skein512. cbv zeta. rewrite <-skein_iv_config, (byteswap_le 8 8 h) by apply Hh.
  unfold skein. cbv zeta. rewrite <-words_be_swapped by done.
  pose proof (length_words_be 8 8 h) as Hlw.
  generalize dependent (words_be 8 8 h). intros ws Hws Hl.
  assert (Hlen : length (bytes_le 8 ws) = 64%nat) by (simpl_len; by rewrite Hl).
  rewrite (ubi_one_block SKEIN_IV512 (bytes_le 8 ws)) by (rewrite Hlen; lia).
  rewrite Hlen, Nat.sub_diag, app_nil_r.
  pose proof (words_bytes_le 8 ws Hws) as Hwb. rewrite Hl in Hwb. rewrite Hwb. clear Hwb.
  change ((Z.of_nat 64 + 48 .<< 120 + 2 ^ 126 + 2 ^ 127) mod 2 ^ 64) with 64.
  change ((Z.of_nat 64 + 48 .<< 120 + 2 ^ 126 + 2 ^ 127) / 2 ^ 64) with (u64 (480 .<< 55)).
  rewrite <-UBI_BIG_spec by done.
  pose proof (length_UBI_BIG SKEIN_IV512 ws 480 64 eq_refl Hl ltac:(done)) as Hg.
  generalize dependent (UBI_BIG SKEIN_IV512 ws 0 480 64). intros g Hg.
  rewrite ubi_one_block by (simpl; lia). rewrite length_le_to_bytes.
  change ((Z.of_nat 8 + 63 .<< 120 + 2 ^ 126 + 2 ^ 127) mod 2 ^ 64) with 8.
  change ((Z.of_nat 8 + 63 .<< 120 + 2 ^ 126 + 2 ^ 127) / 2 ^ 64) with (u64 (510 .<< 55)).
  change (words_le 8 8 (le_to_bytes 8 0 ++ replicate (64 - 8) 0)) with [0; 0; 0; 0; 0; 0; 0; 0].
  rewrite <-UBI_BIG_spec by done.
  assert (Hz : Forall is_u64 [0; 0; 0; 0; 0; 0; 0; 0]) by (repeat constructor; done).
  pose proof (UBI_BIG_range g _ 510 8 Hg Hz eq_refl ltac:(done)) as Hr.
  pose proof (length_UBI_BIG g [0; 0; 0; 0; 0; 0; 0; 0] 510 8 Hg eq_refl ltac:(done)) as Hl'.
  rewrite byteswap_bytes_le by done. apply store_swapped8; [apply Hh|done..].
Qed.

Lemma skein_is_skein512_witness :
  is_hash (replicate 64 3) /\
  skein (replicate 64 3) = byteswap 8 8 (skein512 (byteswap 8 8 (replicate 64 3))).
Proof.
  assert (H : is_hash (replicate 64 3)) by (split; [done|repeat constructor; done]).
  exact (conj H (skein_is_skein512 _ H)).
Defined.

#[global] Instance skein_jumphash : JumpHash skein.
Proof.
  intros h Hh. unfold skein. cbv zeta. apply store_words_hash; [apply Hh|].
  rewrite length_fmap, length_UBI_BIG; [done|by apply length_UBI_BIG|done..].
Qed.
