(* ===== verification/JumpHash.v ===== *)
(** * libjumphash: the wrappers called by the jump table

    Every w_*.c file exports its compression through two wrappers with the same
    body; [JumpUtil] models the body, and the functions of each file instantiate it.
    The wrappers are proved against the interface [JumpHash], which the instances of
    the modelled files discharge.  [Hex2Str] of jumphash.h prints a digest. *)

From S2P Require Import Prelude Words JumpUtil.
From S2P Require Import JumpKeccak JumpBlake JumpCubehash JumpSkein.

(** ** Hex2Str

    [sprintf(szTmp, "%02X", ..)] writes two upper-case digits. *)

Definition hex_upper (d : Z) : Z := if decide (d < 10) then 48 + d else 55 + d.
Definition sprintf_02X (b : Z) : list Z := [hex_upper (b .>> 4); hex_upper (b .& 15)].
Definition Hex2Str (sSrc sDest : list Z) (nSrcLen : nat) : list Z :=
  for_ (seq 0 nSrcLen) (fun i d => blit d (i * 2) (sprintf_02X (sSrc !!! i))) sDest.

(** Reading an upper-case digit. *)
Definition hex_value (c : Z) : Z := if decide (c < 58) then c - 48 else c - 55.
Fixpoint unhex (s : list Z) : list Z :=
  match s with
  | a :: b :: s => 16 * hex_value a + hex_value b :: unhex s
  | _ => []
  end.

Lemma hex_value_upper d : 0 <= d < 16 -> hex_value (hex_upper d) = d.
Proof. intros Hd. unfold hex_upper, hex_value. repeat case_decide; lia. Qed.

Lemma unhex_02X b s : is_byte b -> unhex (sprintf_02X b ++ s) = b :: unhex s.
Proof.
  intros Hb. cbn [sprintf_02X app unhex]. f_equal.
  unfold is_word in Hb. change 15 with (Z.ones 4).
  rewrite Z.shiftr_div_pow2, Z.land_ones by lia.
  rewrite !hex_value_upper by (Z.div_mod_to_equations; lia). Z.div_mod_to_equations; lia.
Qed.

Lemma Hex2Str_text src dest n :
  n = length src -> (2 * n <= length dest)%nat ->
  Hex2Str src dest n = mjoin (sprintf_02X <$> src) ++ drop (2 * n) dest.
Proof.
  intros -> Hd. unfold Hex2Str.
  rewrite (for_ext (fun _ => True) _ _ (fun i d => blit d (0 + 2 * i) (sprintf_02X (src !!! i))));
    [|done|intros; split; [|done]; f_equal; lia].
  destruct (for_blit (fun i => sprintf_02X (src !!! i)) 2 dest 0 (length src)) as [-> Hl]; [done|lia|].
  unfold blit. rewrite take_0, Hl. cbn [app]. f_equal.
  rewrite <-(list_seq_total src) at 2. by rewrite <-list_fmap_compose.
Qed.

(** [Hex2Str] writes two characters per byte, leaves the rest of
    the destination alone, and the text determines the bytes. *)
Lemma hex2str_roundtrip (src dest : list Z) :
  bytes src -> (2 * length src <= length dest)%nat ->
  let out := Hex2Str src dest (length src) in
  length out = length dest /\
  drop (2 * length src) out = drop (2 * length src) dest /\
  unhex (take (2 * length src) out) = src.
Proof.
  intros Hs Hd out. unfold out. rewrite Hex2Str_text by done.
  assert (Hl : length (mjoin (sprintf_02X <$> src)) = (2 * length src)%nat).
  { clear. induction src as [|b l IH]; [done|].
    change (length (sprintf_02X b ++ mjoin (sprintf_02X <$> l)) = (2 * length (b :: l))%nat).
    rewrite length_app, IH. simpl. lia. }
  split_and!.
  - rewrite length_app, Hl, length_drop. lia.
  - by rewrite drop_app_length' by done.
  - rewrite take_app_length' by done. clear Hd Hl out.
    induction Hs as [|b l Hb Hl IH]; [done|].
    change (unhex (sprintf_02X b ++ mjoin (sprintf_02X <$> l)) = b :: l).
    by rewrite unhex_02X, IH.
Qed.

Lemma hex2str_roundtrip_witness :
  bytes [0; 171; 255] /\
  unhex (take 6 (Hex2Str [0; 171; 255] (replicate 8 0) 3)) = [0; 171; 255].
Proof.
  assert (H : bytes [0; 171; 255]) by (repeat constructor; done).
  exact (conj H (proj2 (proj2 (hex2str_roundtrip [0; 171; 255] (replicate 8 0) H ltac:(simpl; lia))))).
Defined.

(** Around any compression [X] from 64 bytes to 64 bytes,
    [X_scanHash_post] writes [X] of the first 64 input bytes to the first 64 output bytes
    and nothing else; [X_scanHash_pre] does the same after xoring word 15 of the input into
    word 14 and replacing word 15 by the nonce. *)
Lemma scanhash_wrappers (X : hash_t -> hash_t) (HX : JumpHash X) (input output : list Z) (nonce : Z) :
  (64 <= length input)%nat -> bytes input -> (64 <= length output)%nat ->
  scanHash_post X input output = X (take 64 input) ++ drop 64 output /\
  scanHash_pre X input output nonce = X (nonce_mix (take 64 input) nonce) ++ drop 64 output /\
  length (scanHash_post X input output) = length output /\
  length (scanHash_pre X input output nonce) = length output.
Proof.
  intros Hi Hb Ho.
  pose proof (jumphash_closed _ (take_hash _ Hi Hb)) as [H1 _].
  pose proof (jumphash_closed _ (nonce_mix_hash _ nonce (take_hash _ Hi Hb))) as [H2 _].
  rewrite scanHash_post_spec, scanHash_pre_spec by done. rewrite !length_app, length_drop, H1, H2.
  split_and!; [done|done|lia|lia].
Qed.

Lemma scanhash_wrappers_witness :
  keccak_scanHash_post (replicate 64 5) (replicate 70 1) =
    keccak (replicate 64 5) ++ replicate 6 1 /\
  length (skein_scanHash_pre (replicate 64 5) (replicate 70 1) 77) = 70%nat.
Proof.
  assert (Hb : bytes (replicate 64 5)) by (repeat constructor; done).
  assert (Hi : (64 <= length (replicate 64 5%Z))%nat) by (simpl; lia).
  assert (Ho : (64 <= length (replicate 70 1%Z))%nat) by (simpl; lia).
  exact (conj (proj1 (scanhash_wrappers keccak _ _ _ 0 Hi Hb Ho))
    (proj2 (proj2 (proj2 (scanhash_wrappers skein _ _ _ 77 Hi Hb Ho))))).
Defined.
