(* ===== verification/Exn.v ===== *)
(** * State with exceptions

    The C++ code of the node reports errors by exceptions, and what was assigned before the
    throw stays assigned.  A computation over a state [S] is therefore a function that always
    returns a state, together with a value or with the exception that left the function.  A
    reference or iterator that the standard does not define is the exception
    [undefined_behaviour]: the theorems show that it is not reached.  Two byte strings with the
    same hash in one database are [hash_collision], and a call of exit is [process_exit]. *)

From S2P Require Import Prelude.
From stdpp Require Import gmap.

Inductive exn : Set :=
  | logic_error
  | out_of_range
  | overflow_error
  | NoEnoughProducers
  | InvalidSignature
  | InvalidProducer
  | InvlidRuningVersion
  | UnknownHardfork
  | HardforkApplyOutOfOrder
  | NotEnoughCash
  | InvalidAccountStartNonceInState
  | IncorrectAccountStartNonceInState
  | bad_lexical_cast
  | BadRLP
  | OversizeRLP
  | UndersizeRLP
  | BadCast
  | RLPException
  | RootNotFound
  | BadRoot
  | hash_collision
  | InvalidTransactionFormat
  | TransactionIsUnsigned
  | InvalidNonce
  | OutOfGasIntrinsic
  | OutOfGasBase
  | BlockGasLimitReached
  | AddressAlreadyUsed
  | BadInstruction
  | BadJumpDestination
  | OutOfGas
  | OutOfStack
  | StackUnderflow
  | RevertInstruction
  | VMException
  | process_exit
  | undefined_behaviour
  | out_of_fuel.

#[export] Instance exn_eq_dec : EqDecision exn.
Proof. solve_decision. Defined.

(** A result without a state *)
Definition res (A : Type) : Type := A + exn.
#[export] Instance res_ret : MRet res := fun _ a => inl a.
#[export] Instance res_bind : MBind res := fun _ _ k m =>
  match m with inl a => k a | inr e => inr e end.

Definition raise {A} (e : exn) : res A := inr e.

Definition M (S A : Type) : Type := S -> S * (A + exn).

#[export] Instance M_ret S : MRet (M S) := fun _ a s => (s, inl a).
#[export] Instance M_bind S : MBind (M S) := fun _ _ k m s =>
  match m s with
  | (s', inl a) => k a s'
  | (s', inr e) => (s', inr e)
  end.

Section Primitives.
Context {S : Type}.

Definition throw {A} (e : exn) : M S A := fun s => (s, inr e).
Definition get_st : M S S := fun s => (s, inl s).
Definition put_st (s' : S) : M S unit := fun _ => (s', inl tt).
Definition update_st (f : S -> S) : M S unit := fun s => (f s, inl tt).

(** A result that does not use the state *)
Definition lift {A} (r : res A) : M S A := fun s => (s, r).

(** [for (auto& x : l) f(x);] *)
Fixpoint for_each {A} (f : A -> M S unit) (l : list A) : M S unit :=
  match l with
  | [] => mret tt
  | x :: l => f x;; for_each f l
  end.

(** [try { m } catch (...) { h }], the handler starting from the state of the throw *)
Definition try_catch {A} (m : M S A) (h : exn -> M S A) : M S A := fun s =>
  match m s with
  | (s', inl a) => (s', inl a)
  | (s', inr e) => h e s'
  end.

(** The value of an outcome was returned *)
Definition returned {A} (r : A + exn) : Prop := exists a, r = inl a.

Lemma bind_inl {A B} (m : M S A) (k : A -> M S B) s s' a :
  m s = (s', inl a) -> (m ≫= k) s = k a s'.
Proof. intros H. unfold mbind, M_bind. by rewrite H. Qed.

Lemma bind_inr {A B} (m : M S A) (k : A -> M S B) s s' e :
  m s = (s', inr e) -> (m ≫= k) s = (s', inr e).
Proof. intros H. unfold mbind, M_bind. by rewrite H. Qed.

Lemma bind_assoc_st {A B C} (m : M S A) (k : A -> M S B) (h : B -> M S C) s :
  (m ≫= fun a => k a ≫= h) s = ((m ≫= k) ≫= h) s.
Proof. unfold mbind, M_bind. by destruct (m s) as [s' [a|e]]. Qed.

Lemma for_each_app {A} (f : A -> M S unit) l1 l2 s :
  for_each f (l1 ++ l2) s = (for_each f l1;; for_each f l2) s.
Proof.
  revert s. induction l1 as [|x l1 IH]; intros s; [done|]. cbn.
  unfold mbind, M_bind in *. destruct (f x s) as [s' [a|e]]; [apply IH|done].
Qed.

(** A property of the state that every step keeps is kept, whether or not a step throws *)
Definition preserves {A} (P : S -> Prop) (m : M S A) : Prop := forall s, P s -> P (m s).1.

Lemma preserves_ret {A} P (a : A) : preserves P (mret a).
Proof. by intros s. Qed.

Lemma preserves_throw {A} P e : preserves P (throw (A:=A) e).
Proof. by intros s. Qed.

Lemma preserves_get P : preserves P get_st.
Proof. by intros s. Qed.

Lemma preserves_bind {A B} P (m : M S A) (k : A -> M S B) :
  preserves P m -> (forall a, preserves P (k a)) -> preserves P (m ≫= k).
Proof.
  intros Hm Hk s Hs. specialize (Hm s Hs). unfold mbind, M_bind.
  destruct (m s) as [s' [a|e]]; [by apply Hk|done].
Qed.

Lemma preserves_for_each {A} P (f : A -> M S unit) l :
  (forall x, x ∈ l -> preserves P (f x)) -> preserves P (for_each f l).
Proof.
  induction l as [|x l IH]; intros Hf; [apply preserves_ret|].
  apply preserves_bind; [apply Hf, list_elem_of_here|].
  intros _. apply IH. intros y Hy. by apply Hf, list_elem_of_further.
Qed.

Lemma preserves_try {A} P (m : M S A) h :
  preserves P m -> (forall e, preserves P (h e)) -> preserves P (try_catch m h).
Proof.
  intros Hm Hh s Hs. specialize (Hm s Hs). unfold try_catch.
  destruct (m s) as [s' [a|e]]; [done|by apply Hh].
Qed.

(** What holds when the computation returns *)
Definition ensures {A} (P : S -> Prop) (m : M S A) (Q : A -> S -> Prop) : Prop :=
  forall s s' a, P s -> m s = (s', inl a) -> Q a s'.

Lemma ensures_bind {A B} P (m : M S A) R (k : A -> M S B) Q :
  ensures P m R -> (forall a, ensures (R a) (k a) Q) -> ensures P (m ≫= k) Q.
Proof.
  intros Hm Hk s s' b Hs. unfold mbind, M_bind. destruct (m s) as [s1 [a|e]] eqn:E; [|done].
  apply Hk. by eapply Hm.
Qed.

Lemma ensures_preserves {A} P (m : M S A) : preserves P m -> ensures P m (fun _ => P).
Proof. intros Hm s s' a Hs E. specialize (Hm s Hs). by rewrite E in Hm. Qed.

Lemma ensures_step {A B} P (m : M S A) (k : A -> M S B) Q :
  preserves P m -> (forall a, ensures P (k a) Q) -> ensures P (m ≫= k) Q.
Proof. intros Hm Hk. eapply ensures_bind; [by apply ensures_preserves|exact Hk]. Qed.

Lemma ensures_impl {A} (P P' : S -> Prop) (m : M S A) (Q Q' : A -> S -> Prop) :
  ensures P m Q -> (forall s, P' s -> P s) -> (forall a s, Q a s -> Q' a s) -> ensures P' m Q'.
Proof. intros Hm HP HQ s s' a Hs E. eapply HQ, Hm; eauto. Qed.
End Primitives.

Create HintDb preserves.
#[export] Hint Resolve preserves_ret preserves_throw preserves_get : preserves.
