(* ===== verification/Rlp.v ===== *)
(** * libdevcore/RLP.h, RLP.cpp: recursive length prefix

    The reader [RLP] is a view of bytes; a [bytesConstRef] is the list of the bytes it refers to.
    Sizes that are read from the data are integers, since they can exceed any list.  The flags
    of the conversions are the record [Strictness].  [assert] has no effect, and reading behind
    the data is [undefined_behaviour].  The writer [RLPStream] is a state with exceptions, its
    list stack with the back of the vector at the head. *)

From stdpp Require Import gmap.
From S2P Require Import Prelude Words Exn.

#[local] Open Scope Z_scope.

Definition c_rlpMaxLengthBytes : Z := 8.
Definition c_rlpDataImmLenStart : Z := 0x80.
Definition c_rlpListStart : Z := 0xc0.
Definition c_rlpDataImmLenCount : Z := c_rlpListStart - c_rlpDataImmLenStart - c_rlpMaxLengthBytes.
Definition c_rlpDataIndLenZero : Z := c_rlpDataImmLenStart + c_rlpDataImmLenCount - 1.
Definition c_rlpListImmLenCount : Z := 256 - c_rlpListStart - c_rlpMaxLengthBytes.
Definition c_rlpListIndLenZero : Z := c_rlpListStart + c_rlpListImmLenCount - 1.

(** AllowNonCanon, ThrowOnFail, FailIfTooBig, FailIfTooSmall *)
Record Strictness := mkStrictness {
  AllowNonCanon : bool; ThrowOnFail : bool; FailIfTooBig : bool; FailIfTooSmall : bool
}.
Definition Strict := mkStrictness false true true false.
Definition VeryStrict := mkStrictness false true true true.
Definition LaissezFaire := mkStrictness true false false false.
(** ThrowOnFail | FailIfTooSmall *)
Definition ThrowTooSmall := mkStrictness false true false true.

Definition len (d : list Z) : Z := Z.of_nat (length d).

(** vector_ref::cropped *)
Definition cropped (d : list Z) (begin count : Z) : list Z :=
  if decide (begin <= len d /\ count <= len d /\ begin + count <= len d)
  then sub d (Z.to_nat begin) (Z.to_nat count) else [].
Definition cropped_to_end (d : list Z) (begin : Z) : list Z :=
  if decide (begin <= len d) then drop (Z.to_nat begin) d else [].

(** ** Reading *)

(** [m_data[i]]; the byte is only read when it is there *)
Definition at_ (d : list Z) (i : nat) : Z := d !!! i.

Definition isNull (d : list Z) : bool := bool_decide (d = []).
Definition isEmpty (d : list Z) : bool :=
  negb (isNull d) && (bool_decide (at_ d 0 = c_rlpDataImmLenStart) || bool_decide (at_ d 0 = c_rlpListStart)).
Definition isData (d : list Z) : bool := negb (isNull d) && bool_decide (at_ d 0 < c_rlpListStart).
Definition isList (d : list Z) : bool := negb (isNull d) && bool_decide (c_rlpListStart <= at_ d 0).
Definition isSingleByte (d : list Z) : bool := negb (isNull d) && bool_decide (at_ d 0 < c_rlpDataImmLenStart).

Definition requireGood (d : list Z) : res unit :=
  if isNull d then raise BadRLP
  else if decide (at_ d 0 <> c_rlpDataImmLenStart + 1) then mret tt
  else if decide (len d < 2) then raise BadRLP
  else if decide (at_ d 1 < c_rlpDataImmLenStart) then raise BadRLP
  else mret tt.

Definition lengthSize (d : list Z) : Z :=
  if isData d && bool_decide (c_rlpDataIndLenZero < at_ d 0) then at_ d 0 - c_rlpDataIndLenZero
  else if isList d && bool_decide (c_rlpListIndLenZero < at_ d 0) then at_ d 0 - c_rlpListIndLenZero
  else 0.

Definition payloadOffset (d : list Z) : Z := if isSingleByte d then 0 else 1 + lengthSize d.

(** The loop that reads the size, in size_t *)
Definition read_length (d : list Z) (lengthSize : Z) : Z :=
  foldl (fun ret b => u64 (ret .<< 8) .| b) 0 (sub d 1 (Z.to_nat lengthSize)).

(** The last test of length: payloadOffset can be added without overflow *)
Definition checked_length (ret : Z) : res Z :=
  if decide (2 ^ 64 - 1 - 0x100 <= ret) then raise UndersizeRLP else mret ret.

(** The branch of a size with [ls] bytes that must be at least [least] *)
Definition long_length (d : list Z) (ls least : Z) : res Z :=
  if decide (len d <= ls) then raise BadRLP
  else if decide (1 < len d /\ at_ d 1 = 0) then raise BadRLP
  else if decide (8 < ls) then raise UndersizeRLP
  else if decide (at_ d 1 = 0) then raise BadRLP
  else
    let ret := read_length d ls in
    if decide (ret < least) then raise BadRLP else checked_length ret.

Definition rlp_length (d : list Z) : res Z :=
  if isNull d then mret 0
  else
    requireGood d;;
    let n := at_ d 0 in
    if decide (n < c_rlpDataImmLenStart) then mret 1
    else if decide (n <= c_rlpDataIndLenZero) then mret (n - c_rlpDataImmLenStart)
    else if decide (n < c_rlpListStart) then
      long_length d (n - c_rlpDataIndLenZero) (c_rlpListStart - c_rlpDataImmLenStart - c_rlpMaxLengthBytes)
    else if decide (n <= c_rlpListIndLenZero) then mret (n - c_rlpListStart)
    else long_length d (n - c_rlpListIndLenZero) (0x100 - c_rlpListStart - c_rlpMaxLengthBytes).

Definition payload (d : list Z) : res (list Z) :=
  l ← rlp_length d;
  if decide (len d < l) then raise BadRLP else mret (cropped d (payloadOffset d) l).

Definition actualSize (d : list Z) : res Z :=
  if isNull d then mret 0
  else if isSingleByte d then mret 1
  else if isData d || isList d then l ← rlp_length d; mret (payloadOffset d + l)
  else mret 0.

(** The constructor: the data of the new object *)
Definition RLP (d : list Z) (s : Strictness) : res (list Z) :=
  n ← (if FailIfTooBig s then actualSize d else mret (len d));
  m ← (if decide (n < len d) then if ThrowOnFail s then raise OversizeRLP else mret [] else mret d);
  k ← (if FailIfTooSmall s then actualSize m else mret 0);
  if decide (len d < k) then if ThrowOnFail s then raise UndersizeRLP else mret [] else mret m.

Definition sizeAsEncoded (d : list Z) : res Z := r ← RLP d ThrowTooSmall; actualSize r.

Definition isInt (d : list Z) : res bool :=
  if isNull d then mret false
  else
    requireGood d;;
    let n := at_ d 0 in
    if decide (n < c_rlpDataImmLenStart) then mret (bool_decide (n <> 0))
    else if decide (n = c_rlpDataImmLenStart) then mret true
    else if decide (n <= c_rlpDataIndLenZero) then
      if decide (len d <= 1) then raise BadRLP else mret (bool_decide (at_ d 1 <> 0))
    else if decide (n < c_rlpListStart) then
      if decide (len d <= 1 + n - c_rlpDataIndLenZero) then raise BadRLP
      else mret (bool_decide (at_ d (Z.to_nat (1 + n - c_rlpDataIndLenZero)) <> 0))
    else mret false.

(** The loop of items; every item has at least one byte *)
Fixpoint count_items (fuel : nat) (d : list Z) (i : Z) : res Z :=
  match d, fuel with
  | [], _ => mret i
  | _, O => raise out_of_fuel
  | _, S fuel => n ← sizeAsEncoded d; count_items fuel (cropped_to_end d n) (i + 1)
  end.

Definition items_ (d : list Z) : res Z :=
  if isList d then p ← payload d; count_items (length p) p 0 else mret 0.

Definition itemCount (d : list Z) : res Z := if isList d then items_ d else mret 0.
Definition size_ (d : list Z) : res Z := if isData d then rlp_length d else mret 0.

Definition toString (d : list Z) (s : Strictness) : res (list Z) :=
  if isData d then p ← payload d; l ← rlp_length d; mret (cropped p 0 l)
  else if ThrowOnFail s then raise BadCast else mret [].

(** [bytes(payload().data(), payload().data() + length())] *)
Definition toBytes (d : list Z) (s : Strictness) : res (list Z) :=
  if isData d then
    p ← payload d; l ← rlp_length d;
    if decide (len p < l) then raise undefined_behaviour else mret (take (Z.to_nat l) p)
  else if ThrowOnFail s then raise BadCast else mret [].

(** [toInt<_T>] for an integer type of [w] bytes *)
Definition toInt (w : Z) (d : list Z) (s : Strictness) : res Z :=
  requireGood d;;
  i ← isInt d;
  if (negb i && negb (AllowNonCanon s)) || isList d || isNull d then
    if ThrowOnFail s then raise BadCast else mret 0
  else
    p ← payload d;
    if bool_decide (w < len p) && FailIfTooBig s then if ThrowOnFail s then raise BadCast else mret 0
    else mret (be_of_bytes p mod 2 ^ (8 * w)).

(** [toHash<FixedHash<N>>] *)
Definition toHash (N : nat) (d : list Z) (s : Strictness) : res (list Z) :=
  requireGood d;;
  p ← payload d;
  if negb (isData d) || (bool_decide (N < length p)%nat && FailIfTooBig s)
     || (bool_decide (length p < N)%nat && FailIfTooSmall s)
  then if ThrowOnFail s then raise BadCast else mret (replicate N 0)
  else
    let k := Nat.min N (length p) in
    mret (replicate (N - k) 0 ++ take k p).

(** ** Lists *)

(** An RLP object with its cache of the last item that was read *)
Record RLPObject := mkRLP {
  m_data : list Z;
  m_lastIndex : Z;
  m_lastEnd : Z;
  m_lastItem : list Z
}.
Definition fresh (d : list Z) : RLPObject := mkRLP d (2 ^ 64 - 1) 0 [].

(** The loop of operator[] *)
Fixpoint subscript_loop (fuel : nat) (i : Z) (r : RLPObject) : res RLPObject :=
  if decide (m_lastIndex r < i /\ m_lastItem r <> []) then
    match fuel with
    | O => raise out_of_fuel
    | S fuel =>
        p ← payload (m_data r);
        let rest := cropped_to_end p (m_lastEnd r) in
        n ← sizeAsEncoded rest;
        let item := cropped rest 0 n in
        subscript_loop fuel i (mkRLP (m_data r) (m_lastIndex r + 1) (m_lastEnd r + len item) item)
    end
  else mret r.

Definition subscript (i : Z) (r : RLPObject) : res (RLPObject * list Z) :=
  r ← (if decide (i < m_lastIndex r) then
         p ← payload (m_data r);
         n ← sizeAsEncoded p;
         mret (mkRLP (m_data r) 0 n (cropped p 0 n))
       else mret r);
  r ← subscript_loop (length (m_data r)) i r;
  item ← RLP (m_lastItem r) ThrowTooSmall;
  mret (r, item).

(** [_r[i]] of a new object *)
Definition rlp_at (d : list Z) (i : Z) : res (list Z) :=
  r ← subscript i (fresh d); mret r.2.

(** The iterator: position of the current item in the data, its size, and what remains *)
Record iterator := mkIterator { it_pos : Z; it_size : Z; it_remaining : Z }.

Definition it_begin (d : list Z) : res iterator :=
  if isList d then
    p ← payload d;
    n ← sizeAsEncoded p;
    mret (mkIterator (payloadOffset d) n (len p - n))
  else mret (mkIterator (len d) 0 0).
Definition it_end (d : list Z) : iterator := mkIterator (len d) 0 0.

Definition it_next (d : list Z) (it : iterator) : res iterator :=
  let pos := it_pos it + it_size it in
  if decide (it_remaining it <> 0) then
    n ← sizeAsEncoded (cropped d pos (it_remaining it));
    mret (mkIterator pos n (it_remaining it - Z.min (it_remaining it) n))
  else mret (mkIterator pos 0 0).

(** [for (auto const& i: *this) ret.push_back(i);], the iterators compared as references; when
    bytes follow the list, the end is not met and the loop does not stop *)
Fixpoint collect (fuel : nat) (d : list Z) (it : iterator) : res (list (list Z)) :=
  if decide (it_pos it = len d /\ it_size it = 0) then mret []
  else match fuel with
  | O => raise out_of_fuel
  | S fuel =>
      x ← RLP (cropped d (it_pos it) (it_size it)) VeryStrict;
      it ← it_next d it;
      l ← collect fuel d it;
      mret (x :: l)
  end.

Definition toList (d : list Z) (s : Strictness) : res (list (list Z)) :=
  if isList d then it ← it_begin d; collect (length d) d it
  else if ThrowOnFail s then raise BadCast else mret [].

(** ** Writing *)

(** The bytes of a number, most significant first, as the loops [for (; i; i >>= 8)] give them *)
Fixpoint int_bytes_ (fuel : nat) (i : Z) (acc : list Z) : list Z :=
  match fuel with
  | O => acc
  | S fuel => if decide (i = 0) then acc else int_bytes_ fuel (i .>> 8) ((i .& 0xff) :: acc)
  end.
Definition int_bytes (i : Z) : list Z := int_bytes_ (S (Z.to_nat (Z.log2 i))) i [].
Definition bytesRequired (i : Z) : Z := len (int_bytes i).

Record RLPStream := mkStream {
  m_out : list Z;
  m_listStack : list (Z * nat)
}.
Definition new_stream : RLPStream := mkStream [] [].

Definition push_back (b : Z) (s : RLPStream) : RLPStream := mkStream (m_out s ++ [b]) (m_listStack s).
Definition push_bytes (l : list Z) (s : RLPStream) : RLPStream := mkStream (m_out s ++ l) (m_listStack s).
Definition set_listStack (l : list (Z * nat)) (s : RLPStream) : RLPStream := mkStream (m_out s) l.
Definition set_out (o : list Z) (s : RLPStream) : RLPStream := mkStream o (m_listStack s).

(** The bytes of the number at the end of [br] new bytes *)
Definition pushInt (i br : Z) (s : RLPStream) : RLPStream :=
  push_bytes (replicate (Z.to_nat (br - bytesRequired i)) 0 ++ int_bytes i) s.

Definition pushCount (count base : Z) : M RLPStream unit :=
  let br := bytesRequired count in
  if decide (0xff < br + base) then throw RLPException
  else update_st (push_back (u8 (br + base)));; update_st (pushInt count br).

(** The list that began at [p] is complete: its header is put in front of it *)
Definition close_list (p : nat) : M RLPStream unit :=
  st ← get_st;
  let s := len (m_out st) - Z.of_nat p in
  let brs := bytesRequired s in
  let encodeSize := Z.to_nat (if decide (s < c_rlpListImmLenCount) then 1 else 1 + brs) in
  let out := blit (m_out st ++ replicate encodeSize 0) (p + encodeSize) (drop p (m_out st)) in
  update_st (set_out out);;
  if decide (s < c_rlpListImmLenCount) then
    update_st (set_out (<[p := u8 (c_rlpListStart + s)]> out))
  else if decide (c_rlpListIndLenZero + brs <= 0xff) then
    update_st (set_out (blit (<[p := u8 (c_rlpListIndLenZero + brs)]> out) (p + 1) (int_bytes s)))
  else throw RLPException.

(** The loop of noteAppended; every turn but the last takes a list off the stack *)
Fixpoint note_loop (fuel : nat) (itemCount : Z) : M RLPStream unit :=
  match fuel with
  | O => throw out_of_fuel
  | S fuel =>
      s ← get_st;
      match m_listStack s with
      | [] => mret tt
      | (c, p) :: st =>
          if decide (c < itemCount) then throw RLPException
          else if decide (c - itemCount <> 0) then update_st (set_listStack ((c - itemCount, p) :: st))
          else
            update_st (set_listStack st);;
            close_list p;;
            note_loop fuel 1
      end
  end.

Definition noteAppended (itemCount : Z) : M RLPStream unit :=
  if decide (itemCount = 0) then mret tt
  else s ← get_st; note_loop (S (length (m_listStack s))) itemCount.

Definition appendRaw (d : list Z) (itemCount : Z) : M RLPStream unit :=
  update_st (push_bytes d);; noteAppended itemCount.

(** [appendList(bytesConstRef)] *)
Definition appendListBytes (d : list Z) : M RLPStream unit :=
  (if decide (len d < c_rlpListImmLenCount) then update_st (push_back (u8 (len d + c_rlpListStart)))
   else pushCount (len d) c_rlpListIndLenZero);;
  appendRaw d 1.

Definition appendList (n : Z) : M RLPStream unit :=
  if decide (n <> 0) then update_st (fun s => set_listStack ((n, length (m_out s)) :: m_listStack s) s)
  else appendListBytes [].

(** The leading zeroes that the compact form drops *)
Fixpoint skip_zeros (d : list Z) : list Z :=
  match d with
  | b :: d' => if decide (b = 0) then skip_zeros d' else d
  | [] => []
  end.

(** [append(bytesConstRef, _compact)] *)
Definition append (d : list Z) (compact : bool) : M RLPStream unit :=
  let d := if compact then skip_zeros d else d in
  (if decide (length d = 1%nat /\ at_ d 0 < c_rlpDataImmLenStart) then update_st (push_back (at_ d 0))
   else
     (if decide (len d < c_rlpDataImmLenCount) then update_st (push_back (u8 (len d + c_rlpDataImmLenStart)))
      else pushCount (len d) c_rlpDataIndLenZero);;
     appendRaw d 0);;
  noteAppended 1.

(** [append(bigint)], for numbers that are not negative *)
Definition append_int (i : Z) : M RLPStream unit :=
  (if decide (i = 0) then update_st (push_back c_rlpDataImmLenStart)
   else if decide (i < c_rlpDataImmLenStart) then update_st (push_back (u8 i))
   else
     let br := bytesRequired i in
     (if decide (br < c_rlpDataImmLenCount) then update_st (push_back (u8 (br + c_rlpDataImmLenStart)))
      else
        let brbr := bytesRequired br in
        if decide (0xff < c_rlpDataIndLenZero + brbr) then throw RLPException
        else update_st (push_back (u8 (c_rlpDataIndLenZero + brbr)));; update_st (pushInt br brbr));;
     update_st (pushInt i br));;
  noteAppended 1.

Definition out : M RLPStream (list Z) :=
  s ← get_st;
  match m_listStack s with [] => mret (m_out s) | _ => throw RLPException end.

(** The bytes that a sequence of operations on a new stream gives *)
Definition written (m : M RLPStream unit) : res (list Z) := snd ((m;; out) new_stream).
