(* ===== verification/RlpSpec.v ===== *)
(** * Reference encoding of RLP, and the reader on it

    A value is a byte string or a list of values.  [encode] is the canonical encoding; the
    functions of the reader are characterised on it, also when more bytes follow. *)

From stdpp Require Import gmap.
From S2P Require Import Prelude Words Exn Rlp.

#[local] Set Warnings "-register-all".

#[local] Open Scope Z_scope.

(** The induction principle that is generated has no hypothesis for the values of a list *)
#[local] Unset Elimination Schemes.
Inductive item := Str (s : list Z) | Lst (l : list item).
#[local] Set Elimination Schemes.

Section Induction.
Context (P : item -> Prop).
Hypothesis P_str : forall s, P (Str s).
Hypothesis P_lst : forall l, Forall P l -> P (Lst l).

Fixpoint item_ind (x : item) : P x :=
  match x with
  | Str s => P_str s
  | Lst l => P_lst l ((fix go l : Forall P l :=
      match l with [] => Forall_nil_2 P | x :: l => Forall_cons_2 P x l (item_ind x) (go l) end) l)
  end.
End Induction.

(** The header of [n] bytes: [base] is 0x80 for strings and 0xc0 for lists *)
Definition header (base n : Z) : list Z :=
  if decide (n < 56) then [base + n] else (base + 55 + bytesRequired n) :: int_bytes n.

Fixpoint encode (x : item) : list Z :=
  match x with
  | Str s =>
      match s with
      | [b] => if decide (b < 0x80) then [b] else header 0x80 1 ++ s
      | _ => header 0x80 (len s) ++ s
      end
  | Lst l =>
      let p := (fix go l := match l with [] => [] | x :: l => encode x ++ go l end) l in
      header 0xc0 (len p) ++ p
  end.

Definition encode_all (l : list item) : list Z := mjoin (encode <$> l).

Lemma encode_Lst l : encode (Lst l) = header 0xc0 (len (encode_all l)) ++ encode_all l.
Proof.
  cbn [encode]. assert (E : forall l, (fix go l := match l with [] => [] | x :: l => encode x ++ go l end) l = encode_all l).
  { clear l. induction l as [|x l IH]; [done|]. cbn. by rewrite IH. }
  by rewrite E.
Qed.

(** Values of bytes *)
Inductive item_ok : item -> Prop :=
  | ok_str s : bytes s -> item_ok (Str s)
  | ok_lst l : Forall item_ok l -> item_ok (Lst l).

(** Sizes that a reader accepts *)
Abbreviation max_size := (2 ^ 64 - 1 - 0x100).

(** ** Numbers *)

Lemma be_of_bytes_snoc l b : is_byte b -> be_of_bytes (l ++ [b]) = b + 256 * be_of_bytes l.
Proof. intros Hb. unfold be_of_bytes. rewrite reverse_snoc. by apply le_of_bytes_cons. Qed.

(** No superfluous zero at the front *)
Definition no_lead (l : list Z) : Prop := match l with [] => True | b :: _ => b <> 0 end.

Lemma int_bytes_fuel fuel i acc :
  0 <= i < 2 ^ Z.of_nat fuel -> exists l, int_bytes_ fuel i acc = l ++ acc /\ bytes l /\
    be_of_bytes l = i /\ no_lead l.
Proof.
  revert i acc. induction fuel as [|fuel IH]; intros i acc Hi; cbn [int_bytes_].
  { exists []. split_and!; [done|constructor|cbn in *; lia|done]. }
  case_decide as Ez; [exists []; split_and!; [done|constructor|by rewrite Ez|done]|].
  pose proof (Z.div_mod i 256 ltac:(done)) as Ed. pose proof (Z.mod_pos_bound i 256 ltac:(done)) as Em.
  assert (E8 : (i .>> 8) = i / 256) by (by rewrite Z.shiftr_div_pow2).
  assert (Eb : (i .& 0xff) = i mod 256) by (change 0xff with (Z.ones 8); by rewrite Z.land_ones).
  rewrite E8, Eb. destruct (IH (i / 256) (i mod 256 :: acc)) as (l & -> & Hl & Hv & Hn).
  { rewrite Nat2Z.inj_succ, Z.pow_succ_r in Hi by lia. lia. }
  assert (Hb : is_byte (i mod 256)) by (unfold is_word; lia).
  exists (l ++ [i mod 256]). split_and!.
  - by rewrite <-app_assoc.
  - apply Forall_app. split; [done|]. by apply Forall_singleton.
  - rewrite be_of_bytes_snoc by done. lia.
  - destruct l as [|b l]; [|done]. cbn in *. lia.
Qed.

Lemma int_bytes_spec i :
  0 <= i -> bytes (int_bytes i) /\ be_of_bytes (int_bytes i) = i /\ no_lead (int_bytes i).
Proof.
  intros Hi. unfold int_bytes.
  destruct (int_bytes_fuel (S (Z.to_nat (Z.log2 i))) i []) as (l & -> & ?).
  - split; [done|]. rewrite Nat2Z.inj_succ, Z2Nat.id by apply Z.log2_nonneg.
    destruct (decide (i = 0)) as [->|]; [done|]. apply Z.log2_spec. lia.
  - by rewrite app_nil_r.
Qed.

(** The size of a number without a leading zero *)
Lemma be_lower b l : bytes (b :: l) -> b <> 0 -> 2 ^ (8 * len l) <= be_of_bytes (b :: l).
Proof.
  intros [Hb Hl]%Forall_cons_1 Hn. unfold be_of_bytes. rewrite reverse_cons, le_of_bytes_app by by apply Forall_reverse.
  pose proof (le_of_bytes_range _ (proj2 (Forall_reverse _ _) Hl)) as [R _].
  rewrite length_reverse, (le_of_bytes_cons b []) by done. cbn [le_of_bytes]. unfold len, is_word in *.
  pose proof (Z.pow_pos_nonneg 2 (8 * Z.of_nat (length l)) ltac:(done) ltac:(lia)). nia.
Qed.

Lemma be_bound l k : bytes l -> no_lead l -> 0 <= k -> be_of_bytes l < 2 ^ (8 * k) <-> len l <= k.
Proof.
  intros Hl Hn Hk. split.
  - intros Hlt. destruct l as [|b l]; [unfold len; cbn; lia|].
    pose proof (be_lower b l Hl Hn). unfold len in *. cbn [length].
    assert (2 ^ (8 * Z.of_nat (length l)) < 2 ^ (8 * k)) as ?%Z.pow_lt_mono_r_iff by lia; lia.
  - intros Hle. pose proof (be_of_bytes_range l Hl) as [_ R].
    assert (2 ^ (8 * Z.of_nat (length l)) <= 2 ^ (8 * k)) by (apply Z.pow_le_mono_r; unfold len in *; lia). lia.
Qed.

Lemma int_bytes_unique l : bytes l -> no_lead l -> int_bytes (be_of_bytes l) = l.
Proof.
  intros Hl Hn. pose proof (be_of_bytes_range l Hl) as [R _]. remember (be_of_bytes l) as i eqn:Ei.
  destruct (int_bytes_spec i R) as (Hb & He & Hn').
  assert (E : len (int_bytes i) = len l).
  { apply Z.le_antisymm.
    - apply be_bound; [done|done|unfold len; lia|]. rewrite He, Ei. apply be_bound; [done|done|unfold len; lia|done].
    - apply be_bound; [done|done|unfold len; lia|]. rewrite <-Ei, <-He at 1. apply be_bound; [done|done|unfold len; lia|done]. }
  rewrite Ei in He at 2. unfold be_of_bytes in He.
  apply le_of_bytes_inj in He; [by apply (inj reverse)|rewrite !length_reverse; unfold len in E; lia|by apply Forall_reverse..].
Qed.

Lemma bytesRequired_bound i k : 0 <= i -> 0 <= k -> i < 2 ^ (8 * k) <-> bytesRequired i <= k.
Proof.
  intros Hi Hk. destruct (int_bytes_spec i Hi) as (Hb & He & Hn). unfold bytesRequired.
  rewrite <-(be_bound (int_bytes i) k) by done. by rewrite He.
Qed.

Lemma bytesRequired_pos i : 0 < i -> 0 < bytesRequired i.
Proof.
  intros Hi. pose proof (proj2 (bytesRequired_bound i 0 ltac:(lia) ltac:(done))) as H.
  destruct (decide (bytesRequired i <= 0)) as [Hle|]; [|lia]. specialize (H Hle).
  change (2 ^ (8 * 0)) with 1 in H. lia.
Qed.

(** ** The size that a header announces *)

Lemma len_app l1 l2 : len (l1 ++ l2) = len l1 + len l2.
Proof. unfold len. rewrite length_app. lia. Qed.

Lemma len_cons b l : len (b :: l) = 1 + len l.
Proof. unfold len. cbn [length]. lia. Qed.

Lemma len_nonneg l : 0 <= len l.
Proof. unfold len. lia. Qed.

Lemma read_bytes l : bytes l -> (length l <= 8)%nat -> foldl (fun ret b => u64 (ret .<< 8) .| b) 0 l = be_of_bytes l.
Proof.
  intros Hl. induction l as [|b l IH] using rev_ind; intros Hn; [done|].
  apply Forall_app in Hl as [Hl [Hb _]%Forall_cons_1]. rewrite length_app in Hn. cbn [length] in Hn.
  rewrite foldl_snoc, IH, be_of_bytes_snoc by (done || lia).
  pose proof (be_of_bytes_range l Hl) as [R0 R1].
  assert (2 ^ (8 * Z.of_nat (length l)) <= 2 ^ 56) by (apply Z.pow_le_mono_r; lia).
  rewrite u64_id, Z.lor_comm, lor_shiftl8_add; [done|done|].
  rewrite Z.shiftl_mul_pow2 by done. unfold is_word. lia.
Qed.

(** The first byte *)
Lemma at_cons b l : at_ (b :: l) 0 = b.
Proof. done. Qed.

(** A size with its bytes, followed by anything *)
Lemma long_length_spec b n rest least :
  56 <= n < max_size -> least = 56 ->
  long_length (b :: int_bytes n ++ rest) (bytesRequired n) least = inl n.
Proof.
  intros Hn ->. destruct (int_bytes_spec n ltac:(lia)) as (Hb & He & Hl).
  pose proof (bytesRequired_pos n ltac:(lia)) as Hp.
  assert (H8 : bytesRequired n <= 8) by (apply bytesRequired_bound; lia).
  unfold bytesRequired in *. destruct (int_bytes n) as [|c l] eqn:El; [unfold len in Hp; cbn in Hp; lia|].
  unfold long_length. rewrite len_cons, len_app. pose proof (len_nonneg rest).
  rewrite decide_False by lia. rewrite decide_False by (intros [_ ?]; by apply Hl). rewrite decide_False by lia.
  rewrite decide_False by done.
  assert (Er : read_length (b :: (c :: l) ++ rest) (len (c :: l)) = n).
  { unfold read_length, len. rewrite Nat2Z.id. unfold sub.
    change (drop 1 (b :: (c :: l) ++ rest)) with ((c :: l) ++ rest). rewrite take_app_length, read_bytes; [done|done|].
    unfold len in H8. lia. }
  rewrite Er, decide_False by lia. unfold checked_length. by rewrite decide_False by lia.
Qed.

(** ** The reader on an encoding with a suffix *)

Definition head_of (x : item) : list Z :=
  match x with
  | Str [b] => if decide (b < 0x80) then [] else header 0x80 1
  | Str s => header 0x80 (len s)
  | Lst l => header 0xc0 (len (encode_all l))
  end.
Definition payload_of (x : item) : list Z := match x with Str s => s | Lst l => encode_all l end.

Lemma encode_split x : encode x = head_of x ++ payload_of x.
Proof.
  destruct x as [[|b [|c s]]|l]; [done| |done|apply encode_Lst]. cbn. by case_decide.
Qed.

Lemma bytes_int n : 0 <= n -> bytes (int_bytes n).
Proof. intros. by apply int_bytes_spec. Qed.

Lemma header_bytes base n : base = 0x80 \/ base = 0xc0 -> 0 <= n < max_size -> bytes (header base n).
Proof.
  intros Hbase Hn. unfold header. case_decide.
  - apply Forall_singleton. unfold is_word. lia.
  - assert (bytesRequired n <= 8) by (apply bytesRequired_bound; lia). pose proof (bytesRequired_pos n ltac:(lia)).
    constructor; [unfold is_word; lia|apply bytes_int; lia].
Qed.

Lemma header_len base n : 0 <= n -> len (header base n) = if decide (n < 56) then 1 else 1 + bytesRequired n.
Proof. intros Hn. unfold header. case_decide; [done|]. by rewrite len_cons. Qed.

Lemma header_pos base n : 0 <= n -> 0 < len (header base n).
Proof.
  intros Hn. rewrite header_len by done. case_decide; [lia|]. pose proof (bytesRequired_pos n ltac:(lia)). lia.
Qed.

(** The tests on the first byte *)
Lemma first_byte b l :
  isNull (b :: l) = false /\ isData (b :: l) = bool_decide (b < 0xc0) /\
  isList (b :: l) = bool_decide (0xc0 <= b) /\ isSingleByte (b :: l) = bool_decide (b < 0x80).
Proof. done. Qed.

Ltac first_byte b l :=
  let H1 := fresh in let H2 := fresh in let H3 := fresh in let H4 := fresh in
  destruct (first_byte b l) as (H1 & H2 & H3 & H4); rewrite ?H1, ?H2, ?H3, ?H4; clear H1 H2 H3 H4.
Ltac decide_lia := repeat first [rewrite decide_True by lia | rewrite decide_False by lia
  | rewrite bool_decide_true by lia | rewrite bool_decide_false by lia]; cbn [andb orb negb].

(** A header that is read: a string of one byte has its header only when the byte needs one *)
Definition header_good (base n : Z) (rest : list Z) : Prop :=
  base = 0x80 -> n = 1 -> match rest with b :: _ => 0x80 <= b | [] => False end.

Lemma requireGood_header base n rest :
  base = 0x80 \/ base = 0xc0 -> 0 <= n < max_size -> header_good base n rest ->
  requireGood (header base n ++ rest) = inl tt.
Proof.
  intros Hbase Hn H1. unfold header, requireGood. case_decide as H56.
  - cbn [app]. first_byte (base + n) rest. rewrite !at_cons. unfold c_rlpDataImmLenStart.
    case_decide; [done|]. destruct rest as [|b rest]; [destruct H1; lia|].
    rewrite !len_cons. pose proof (len_nonneg rest). rewrite decide_False by lia.
    rewrite decide_False; [done|]. specialize (H1 ltac:(lia) ltac:(lia)).
    change (at_ (base + n :: b :: rest) 1) with b. cbn in H1. lia.
  - cbn [app]. pose proof (bytesRequired_pos n ltac:(lia)).
    first_byte (base + 55 + bytesRequired n) (int_bytes n ++ rest). rewrite !at_cons.
    unfold c_rlpDataImmLenStart. by rewrite decide_True by lia.
Qed.

Lemma header_first base n :
  exists b l, header base n = b :: l.
Proof. unfold header. case_decide; eauto. Qed.

Lemma read_header base n rest :
  base = 0x80 \/ base = 0xc0 -> 0 <= n < max_size -> header_good base n rest ->
  let d := header base n ++ rest in
  rlp_length d = inl n /\ payloadOffset d = len (header base n) /\
  isData d = bool_decide (base = 0x80) /\ isList d = bool_decide (base = 0xc0) /\ isNull d = false /\
  isSingleByte d = false.
Proof.
  intros Hbase Hn H1 d. assert (H8 : bytesRequired n <= 8) by (apply bytesRequired_bound; lia).
  pose proof (requireGood_header base n rest Hbase Hn H1) as Hg. fold d in Hg.
  unfold payloadOffset, rlp_length, lengthSize. rewrite Hg, header_len by lia.
  unfold d, header, c_rlpDataIndLenZero, c_rlpListIndLenZero, c_rlpDataImmLenCount, c_rlpListImmLenCount,
    c_rlpListStart, c_rlpDataImmLenStart, c_rlpMaxLengthBytes in *. cbn [mbind res_bind].
  case_decide as H56; cbn [app].
  - first_byte (base + n) rest. rewrite !at_cons.
    destruct Hbase as [-> | ->]; decide_lia; split_and!; try done; cbn; f_equal; lia.
  - pose proof (bytesRequired_pos n ltac:(lia)).
    first_byte (base + 55 + bytesRequired n) (int_bytes n ++ rest). rewrite !at_cons.
    destruct Hbase as [-> | ->]; decide_lia; split_and!; try done; try lia.
    all: match goal with |- long_length _ ?x _ = _ => replace x with (bytesRequired n) by lia end.
    all: apply long_length_spec; lia.
Qed.

Definition is_str (x : item) : bool := match x with Str _ => true | Lst _ => false end.

(** The value is readable: bytes, and a size that is not refused *)
Definition readable (x : item) : Prop := item_ok x /\ len (payload_of x) < max_size.

(** A byte alone, or a header in front *)
Lemma item_shape x rest :
  (exists b, x = Str [b] /\ b < 0x80) \/
  exists base, (base = 0x80 \/ base = 0xc0) /\ is_str x = bool_decide (base = 0x80) /\
    head_of x = header base (len (payload_of x)) /\ header_good base (len (payload_of x)) (payload_of x ++ rest).
Proof.
  destruct x as [s|l].
  - destruct s as [|b [|c s]]; [right; exists 0x80; split_and!; auto; by intros| |].
    + destruct (decide (b < 0x80)); [left; eauto|right; exists 0x80]. cbn. rewrite decide_False by done.
      split_and!; auto. intros _ _. lia.
    + right. exists 0x80. split_and!; auto. intros _. cbn [payload_of]. rewrite !len_cons.
      pose proof (len_nonneg s). lia.
  - right. exists 0xc0. split_and!; auto. by intros.
Qed.

Lemma read_item x rest :
  readable x ->
  let d := encode x ++ rest in
  rlp_length d = inl (len (payload_of x)) /\ payloadOffset d = len (head_of x) /\
  isData d = is_str x /\ isList d = negb (is_str x) /\ isNull d = false /\
  isSingleByte d = bool_decide (head_of x = []).
Proof.
  intros [Hok Hs]. pose proof (len_nonneg (payload_of x)). cbn zeta. rewrite encode_split, <-app_assoc.
  destruct (item_shape x rest) as [(b & -> & Hb)|(base & Hbase & -> & -> & Hg)].
  - assert (Eh : head_of (Str [b]) = []) by (cbn; by rewrite decide_True). rewrite Eh. cbn [payload_of app].
    unfold rlp_length, requireGood, payloadOffset. first_byte b rest. rewrite !at_cons.
    unfold c_rlpDataImmLenStart. decide_lia. cbn. decide_lia. done.
  - destruct (read_header base (len (payload_of x)) (payload_of x ++ rest)) as (? & ? & ? & ? & ? & ?); [done|lia|done|].
    split_and!; try done.
    + by destruct Hbase as [-> | ->].
    + destruct (header_first base (len (payload_of x))) as (? & ? & E). by rewrite E in *.
Qed.

Lemma actualSize_item x rest : readable x -> actualSize (encode x ++ rest) = inl (len (encode x)).
Proof.
  intros Hr. destruct (read_item x rest Hr) as (El & Eo & Ed & Ei & En & Es). unfold actualSize.
  rewrite En, Es, Ed, Ei, orb_negb_r, El, Eo. rewrite (encode_split x), len_app. case_bool_decide as Eh.
  - rewrite Eh. destruct (item_shape x rest) as [(b & -> & Hb)|(base & _ & _ & Eb & _)]; [done|].
    destruct (header_first base (len (payload_of x))) as (? & ? & E). congruence.
  - cbn. done.
Qed.

Lemma cropped_head l1 l2 : cropped (l1 ++ l2) 0 (len l1) = l1.
Proof.
  unfold cropped. pose proof (len_nonneg l1). pose proof (len_nonneg l2). rewrite len_app, decide_True by lia.
  unfold sub, len. by rewrite Nat2Z.id, drop_0, take_app_length.
Qed.

Lemma cropped_mid l1 l2 l3 : cropped (l1 ++ l2 ++ l3) (len l1) (len l2) = l2.
Proof.
  unfold cropped. pose proof (len_nonneg l1). pose proof (len_nonneg l2). pose proof (len_nonneg l3).
  rewrite !len_app, decide_True by lia.
  unfold sub, len. by rewrite !Nat2Z.id, drop_app_length, take_app_length.
Qed.

Lemma cropped_tail l1 l2 : cropped_to_end (l1 ++ l2) (len l1) = l2.
Proof.
  unfold cropped_to_end. pose proof (len_nonneg l2). rewrite len_app, decide_True by lia.
  unfold len. by rewrite Nat2Z.id, drop_app_length.
Qed.

Lemma payload_item x rest : readable x -> payload (encode x ++ rest) = inl (payload_of x).
Proof.
  intros Hr. destruct (read_item x rest Hr) as (El & Eo & _). unfold payload. rewrite El. cbn.
  rewrite Eo, encode_split, <-app_assoc, cropped_mid, !len_app.
  pose proof (len_nonneg (head_of x)). pose proof (len_nonneg rest). by rewrite decide_False by lia.
Qed.

Lemma RLP_item x rest s : readable x -> FailIfTooBig s = false -> RLP (encode x ++ rest) s = inl (encode x ++ rest).
Proof.
  intros Hr Es. unfold RLP. rewrite Es. cbn. rewrite decide_False by lia. cbn.
  destruct (FailIfTooSmall s); cbn; [rewrite actualSize_item by done; cbn; rewrite len_app|];
    rewrite decide_False; try done; [pose proof (len_nonneg rest)|pose proof (len_nonneg (encode x ++ rest))]; lia.
Qed.

(** The constructor that checks everything accepts exactly the encoding *)
Lemma RLP_exact x s : readable x -> RLP (encode x) s = inl (encode x).
Proof.
  intros Hr. pose proof (actualSize_item x [] Hr) as Ea. rewrite app_nil_r in Ea.
  unfold RLP. pose proof (len_nonneg (encode x)).
  destruct (FailIfTooBig s), (FailIfTooSmall s); cbn; rewrite ?Ea; cbn; decide_lia; cbn; rewrite ?Ea; cbn; decide_lia; done.
Qed.

Lemma sizeAsEncoded_item x rest : readable x -> sizeAsEncoded (encode x ++ rest) = inl (len (encode x)).
Proof. intros Hr. unfold sizeAsEncoded. rewrite RLP_item by done. cbn. by apply actualSize_item. Qed.

Lemma sizeAsEncoded_nil : sizeAsEncoded [] = inl 0.
Proof. done. Qed.

Lemma toBytes_item s rest f : readable (Str s) -> toBytes (encode (Str s) ++ rest) f = inl s.
Proof.
  intros Hr. unfold toBytes. destruct (read_item _ rest Hr) as (El & _ & -> & _).
  rewrite payload_item, El by done. cbn. rewrite decide_False by lia. unfold len.
  rewrite Nat2Z.id. by rewrite firstn_all.
Qed.

(** ** Lists of values *)

Lemma encode_all_cons x l : encode_all (x :: l) = encode x ++ encode_all l.
Proof. done. Qed.

Lemma encode_all_app l1 l2 : encode_all (l1 ++ l2) = encode_all l1 ++ encode_all l2.
Proof. unfold encode_all. by rewrite fmap_app, join_app. Qed.

Lemma encode_pos x : 0 < len (encode x).
Proof.
  rewrite encode_split, len_app. pose proof (len_nonneg (payload_of x)).
  destruct (item_shape x []) as [(b & -> & Hb)|(base & _ & _ & -> & _)]; [cbn; rewrite decide_True by done; cbn; unfold len; cbn; lia|].
  pose proof (header_pos base (len (payload_of x)) (len_nonneg _)). lia.
Qed.

Lemma encode_cons x : exists b l, encode x = b :: l.
Proof. pose proof (encode_pos x). destruct (encode x); [unfold len in *; cbn in *; lia|eauto]. Qed.

(** The values of a list whose size is accepted are accepted *)
Lemma readable_all l : Forall item_ok l -> len (encode_all l) < max_size -> Forall readable l.
Proof.
  intros Hl Hs. induction Hl as [|x l Hx Hl IH]; [done|].
  rewrite encode_all_cons, len_app in Hs. pose proof (len_nonneg (encode_all l)). pose proof (len_nonneg (encode x)).
  constructor; [split; [done|]|apply IH; lia].
  rewrite encode_split, len_app in Hs. pose proof (len_nonneg (head_of x)). lia.
Qed.

Lemma readable_list l : readable (Lst l) -> Forall readable l.
Proof. intros [Hok Hs]. inversion Hok; subst. by apply readable_all. Qed.

Lemma length_encode_all l : (length l <= length (encode_all l))%nat.
Proof.
  induction l as [|x l IH]; [done|]. rewrite encode_all_cons, length_app.
  destruct (encode_cons x) as (? & ? & ->). cbn [length]. lia.
Qed.

Lemma count_items_spec l fuel i :
  Forall readable l -> (length l <= fuel)%nat -> count_items fuel (encode_all l) i = inl (i + Z.of_nat (length l)).
Proof.
  intros Hl. revert fuel i. induction Hl as [|x l Hx Hl IH]; intros fuel i Hf.
  - destruct fuel; cbn; do 2 f_equal; lia.
  - destruct fuel as [|fuel]; [cbn in Hf; lia|]. rewrite encode_all_cons.
    destruct (encode_cons x) as (b & t & E). transitivity (n ← sizeAsEncoded (encode x ++ encode_all l);
      count_items fuel (cropped_to_end (encode x ++ encode_all l) n) (i + 1)); [by rewrite E|].
    rewrite sizeAsEncoded_item by done. cbn [mbind res_bind]. rewrite cropped_tail, IH by (cbn in Hf; lia).
    f_equal. cbn [length]. lia.
Qed.

Lemma itemCount_list l rest : readable (Lst l) -> itemCount (encode (Lst l) ++ rest) = inl (Z.of_nat (length l)).
Proof.
  intros Hr. unfold itemCount, items_. destruct (read_item _ rest Hr) as (_ & _ & _ & -> & _). cbn [is_str negb].
  rewrite payload_item by done. cbn [mbind res_bind payload_of]. rewrite count_items_spec; [done|by apply readable_list|].
  apply length_encode_all.
Qed.

(** ** The cache of the last item *)

Section Cache.
Context (l : list item) (rest : list Z).
Hypothesis Hr : readable (Lst l).

Definition item_at (k : nat) : list Z := default [] (encode <$> l !! k).

(** The object after it has read up to item [k]; behind the last item nothing is found *)
Definition cached (k : nat) : RLPObject :=
  mkRLP (encode (Lst l) ++ rest) (Z.of_nat k) (len (encode_all (take (S k) l))) (item_at k).

Lemma drop_item k : encode_all (drop k l) = item_at k ++ encode_all (drop (S k) l).
Proof.
  unfold item_at. destruct (l !! k) as [x|] eqn:E; cbn.
  - by rewrite (drop_S l x k).
  - apply lookup_ge_None in E. by rewrite !drop_ge by lia.
Qed.

Lemma take_item k : encode_all (take (S k) l) = encode_all (take k l) ++ item_at k.
Proof.
  unfold item_at. destruct (l !! k) as [x|] eqn:E; cbn [fmap option_fmap option_map default].
  - rewrite (take_S_r l k x), encode_all_app by done. by rewrite encode_all_cons, app_nil_r.
  - apply lookup_ge_None in E. by rewrite !take_ge, app_nil_r by lia.
Qed.

Lemma item_at_size k : sizeAsEncoded (encode_all (drop k l)) = inl (len (item_at k)).
Proof.
  rewrite drop_item. unfold item_at. destruct (l !! k) as [x|] eqn:E; cbn.
  - apply sizeAsEncoded_item. apply readable_list in Hr. by eapply Forall_lookup_1.
  - apply lookup_ge_None in E. by rewrite drop_ge by lia.
Qed.

Lemma item_at_nil k : item_at k = [] <-> (length l <= k)%nat.
Proof.
  unfold item_at. rewrite <-lookup_ge_None. destruct (l !! k) as [x|]; [|done]. cbn.
  destruct (encode_cons x) as (? & ? & ->). done.
Qed.

Lemma subscript_loop_spec i fuel k :
  (k <= length l)%nat -> (length l - k <= fuel)%nat -> Z.of_nat k <= Z.of_nat i ->
  subscript_loop fuel (Z.of_nat i) (cached k) = inl (cached (Nat.min i (length l))).
Proof.
  revert k. induction fuel as [|fuel IH]; intros k Hk Hf Hi; cbn [subscript_loop].
  all: change (m_lastIndex (cached k)) with (Z.of_nat k); change (m_lastItem (cached k)) with (item_at k).
  - rewrite decide_False; [by replace (Nat.min i (length l)) with k by lia|].
    rewrite item_at_nil. intros [_ []]. lia.
  - destruct (decide (k = Nat.min i (length l))) as [->|Hne].
    { rewrite decide_False; [done|]. intros [? []]. apply item_at_nil. lia. }
    rewrite decide_True by (split; [lia|]; intros E%item_at_nil; lia). change (m_data (cached k)) with (encode (Lst l) ++ rest).
    rewrite payload_item by done. cbn [mbind res_bind payload_of]. unfold cached. cbn [m_lastEnd].
    assert (Ec : cropped_to_end (encode_all l) (len (encode_all (take (S k) l))) = encode_all (drop (S k) l)).
    { rewrite <-(take_drop (S k) l) at 1. by rewrite encode_all_app, cropped_tail. }
    rewrite Ec, item_at_size. cbn [mbind res_bind]. rewrite drop_item, cropped_head, <-len_app, <-take_item.
    replace (Z.of_nat k + 1) with (Z.of_nat (S k)) by lia. apply IH; lia.
Qed.

(** What follows once the cache is at an item that is not behind the wanted one *)
Lemma subscript_finish i k :
  (k <= length l)%nat -> Z.of_nat k <= Z.of_nat i ->
  (r ← subscript_loop (length (m_data (cached k))) (Z.of_nat i) (cached k);
   item ← RLP (m_lastItem r) ThrowTooSmall; mret (r, item)) =
  (inl (cached (Nat.min i (length l)), item_at i) : res _).
Proof.
  intros Hk Hi. rewrite subscript_loop_spec; [|done| |done].
  2: { cbn [m_data cached]. rewrite length_app, encode_Lst, length_app. pose proof (length_encode_all l). lia. }
  cbn [mbind res_bind]. assert (Hm : m_lastItem (cached (Nat.min i (length l))) = item_at i).
  { cbn. destruct (decide (i <= length l)%nat); [by rewrite Nat.min_l by lia|].
    rewrite Nat.min_r by lia. rewrite (proj2 (item_at_nil (length l))), (proj2 (item_at_nil i)) by lia. done. }
  rewrite Hm. unfold item_at. destruct (l !! i) as [x|] eqn:E; [|done]. cbn [fmap option_fmap option_map default from_option]. unfold id.
  rewrite RLP_exact; [done|]. apply readable_list in Hr. by eapply Forall_lookup_1.
Qed.

Lemma subscript_reset i r :
  m_data r = encode (Lst l) ++ rest -> Z.of_nat i < m_lastIndex r ->
  subscript (Z.of_nat i) r = inl (cached (Nat.min i (length l)), item_at i).
Proof.
  intros Ed Hi. unfold subscript. rewrite decide_True, Ed, payload_item by done. cbn [mbind res_bind payload_of].
  pose proof (item_at_size 0) as E0. rewrite drop_0 in E0. rewrite E0. cbn [mbind res_bind].
  rewrite <-(drop_0 l) at 2. rewrite (drop_item 0), cropped_head.
  replace (len (item_at 0)) with (len (encode_all (take 1 l))) by by rewrite take_item.
  apply (subscript_finish i 0); lia.
Qed.

(** An access gives the item, whatever was read before *)
Lemma subscript_cached i k :
  (k <= length l)%nat ->
  subscript (Z.of_nat i) (cached k) = inl (cached (Nat.min i (length l)), item_at i).
Proof.
  intros Hk. destruct (decide (Z.of_nat i < Z.of_nat k)) as [Hi|Hi]; [by apply subscript_reset|].
  unfold subscript. change (m_lastIndex (cached k)) with (Z.of_nat k). rewrite decide_False by done.
  apply subscript_finish; lia.
Qed.

Definition cache_ok (r : RLPObject) : Prop :=
  r = fresh (encode (Lst l) ++ rest) \/ exists k, (k <= length l)%nat /\ r = cached k.

Lemma subscript_fresh i :
  Z.of_nat i < 2 ^ 64 ->
  exists r, subscript (Z.of_nat i) (fresh (encode (Lst l) ++ rest)) = inl (r, item_at i) /\ cache_ok r.
Proof.
  intros Hi. destruct (decide (Z.of_nat i = 2 ^ 64 - 1)) as [E|].
  - exists (fresh (encode (Lst l) ++ rest)). split; [|by left]. unfold subscript. cbn [m_lastIndex fresh]. rewrite E.
    rewrite decide_False by lia. cbn [mret res_ret mbind res_bind].
    assert (El : forall n, subscript_loop n (2 ^ 64 - 1) (fresh (encode (Lst l) ++ rest)) = inl (fresh (encode (Lst l) ++ rest))).
    { intros [|n]; cbn [subscript_loop m_lastIndex fresh]; rewrite decide_False by lia; done. }
    rewrite El. cbn. rewrite (proj2 (item_at_nil i)); [done|].
    pose proof (length_encode_all l). destruct Hr as [_ Hs]. cbn [payload_of] in Hs. unfold len in Hs. lia.
  - exists (cached (Nat.min i (length l))). split; [|right; exists (Nat.min i (length l)); split; [lia|done]].
    apply subscript_reset; [done|]. cbn [m_lastIndex fresh]. lia.
Qed.

Lemma subscript_ok i r :
  cache_ok r -> Z.of_nat i < 2 ^ 64 ->
  exists r', subscript (Z.of_nat i) r = inl (r', item_at i) /\ cache_ok r'.
Proof.
  intros [-> |(k & Hk & ->)] Hi; [by apply subscript_fresh|].
  eexists. split; [by apply subscript_cached|]. right. eexists. split; [|done]. lia.
Qed.

Lemma rlp_at_item i : Z.of_nat i < 2 ^ 64 -> rlp_at (encode (Lst l) ++ rest) (Z.of_nat i) = inl (item_at i).
Proof. intros Hi. unfold rlp_at. destruct (subscript_fresh i Hi) as (r & -> & _). done. Qed.
End Cache.

(** ** Iteration *)

Lemma len_nil_iff l : len l = 0 <-> l = [].
Proof. unfold len. destruct l; [done|]. cbn. split; [lia|done]. Qed.

(** The iterator in front of the values [l], after the bytes [pre] *)
Definition it_at (pre : list Z) (l : list item) : iterator :=
  let n := match l with x :: _ => len (encode x) | [] => 0 end in
  mkIterator (len pre) n (len (encode_all l) - n).

Lemma collect_items l fuel pre :
  Forall readable l -> (length l <= fuel)%nat ->
  collect fuel (pre ++ encode_all l) (it_at pre l) = inl (encode <$> l).
Proof.
  intros Hl. revert fuel pre. induction Hl as [|x l Hx Hl IH]; intros fuel pre Hf.
  - rewrite app_nil_r. destruct fuel; cbn; by rewrite decide_True.
  - destruct fuel as [|fuel]; [cbn in Hf; lia|]. pose proof (encode_pos x).
    cbn [collect it_pos it_size it_at]. rewrite decide_False by lia.
    rewrite encode_all_cons, cropped_mid, RLP_exact by done. cbn [mbind res_bind].
    assert (En : it_next (pre ++ encode x ++ encode_all l) (it_at pre (x :: l)) = inl (it_at (pre ++ encode x) l)).
    { unfold it_next. cbn [it_pos it_size it_remaining it_at]. rewrite encode_all_cons, len_app.
      replace (len (encode x) + len (encode_all l) - len (encode x)) with (len (encode_all l)) by lia.
      rewrite <-len_app, (app_assoc pre). 
      pose proof (cropped_mid (pre ++ encode x) (encode_all l) []) as Ec. rewrite app_nil_r in Ec. rewrite Ec.
      destruct l as [|y l]; [by rewrite decide_False by (intros []; done)|]. inversion Hl as [|? ? Hy Hl']; subst.
      rewrite encode_all_cons, sizeAsEncoded_item, len_app by done. pose proof (encode_pos y).
      pose proof (len_nonneg (encode_all l)). rewrite decide_True by lia. cbn. unfold it_at.
      unfold mret, res_ret. do 2 f_equal. rewrite encode_all_cons, len_app. lia. }
    rewrite En. cbn [mbind res_bind]. rewrite app_assoc, IH by (cbn in Hf; lia). done.
Qed.

Lemma toList_list l f : readable (Lst l) -> toList (encode (Lst l)) f = inl (encode <$> l).
Proof.
  intros Hr. pose proof (read_item (Lst l) [] Hr) as R. cbn zeta in R. rewrite app_nil_r in R.
  destruct R as (_ & Eo & _ & Ei & _). pose proof (payload_item (Lst l) [] Hr) as Ep. rewrite app_nil_r in Ep.
  pose proof (readable_list l Hr) as Hl. unfold toList, it_begin. rewrite Ei, Ep. cbn [is_str negb mbind res_bind payload_of].
  assert (Es : sizeAsEncoded (encode_all l) = inl (match l with x :: _ => len (encode x) | [] => 0 end)).
  { destruct Hl; [done|]. by apply sizeAsEncoded_item. }
  rewrite Es. cbn [mbind res_bind]. rewrite Eo, encode_Lst. apply collect_items; [done|].
  rewrite length_app. pose proof (length_encode_all l). lia.
Qed.
