(* ===== verification/RlpClaims.v ===== *)
(** * What RLP promises

    [decode] reads a whole value with the operations of the reader, [write] writes one with the
    operations of the stream.  The reader accepts exactly the encodings. *)

From stdpp Require Import gmap.
From S2P Require Import Prelude Words Exn Rlp RlpSpec.

#[local] Set Warnings "-register-all".

#[local] Open Scope Z_scope.

(** A client that reads a value, one [toList] or [toBytes] at a time *)
Fixpoint decode (fuel : nat) (d : list Z) : res item :=
  match fuel with
  | O => raise out_of_fuel
  | S fuel =>
      if isList d then l ← toList d Strict; xs ← mapM (decode fuel) l; mret (Lst xs)
      else s ← toBytes d Strict; mret (Str s)
  end.

Definition read_all (d : list Z) : res item := r ← RLP d VeryStrict; decode (length d) r.

(** ** Encodings are read *)

Lemma mapM_inl {A B} (f : A -> res B) (l : list A) (k : list B) :
  Forall2 (fun a b => f a = inl b) l k -> mapM f l = inl k.
Proof. induction 1 as [|a b l k E _ IH]; [done|]. cbn. rewrite E. cbn. by rewrite IH. Qed.

Lemma length_in_all x l : x ∈ l -> (length (encode x) <= length (encode_all l))%nat.
Proof.
  intros (l1 & l2 & ->)%list_elem_of_split. rewrite encode_all_app, encode_all_cons, !length_app. lia.
Qed.

Lemma decode_encode fuel x : readable x -> (length (encode x) <= fuel)%nat -> decode fuel (encode x) = inl x.
Proof.
  revert x. induction fuel as [|fuel IH]; intros x Hr Hf.
  { destruct (encode_cons x) as (? & ? & E). rewrite E in Hf. cbn in Hf. lia. }
  cbn [decode]. pose proof (read_item x [] Hr) as R. cbn zeta in R. rewrite app_nil_r in R.
  destruct R as (_ & _ & _ & -> & _). destruct x as [s|l]; cbn [is_str negb].
  - pose proof (toBytes_item s [] Strict Hr) as E. rewrite app_nil_r in E. by rewrite E.
  - rewrite toList_list by done. cbn [mbind res_bind].
    rewrite (mapM_inl _ _ l); [done|]. apply Forall2_fmap_l, Forall_Forall2_diag, list.Forall_forall.
    intros x Hx. apply IH; [by eapply list.Forall_forall in Hx; [|by apply readable_list]|].
    pose proof (length_in_all x l Hx). pose proof (header_pos 0xc0 (len (encode_all l)) (len_nonneg _)) as Hp.
    rewrite encode_Lst, length_app in Hf. unfold len at 1 in Hp. lia.
Qed.

(** ** Only encodings are read *)

Lemma read_length_sub d k : bytes d -> (k <= 8)%nat -> read_length d (Z.of_nat k) = be_of_bytes (sub d 1 k).
Proof.
  intros Hd Hk. unfold read_length. rewrite Nat2Z.id. apply read_bytes.
  - unfold sub. by apply Forall_take, Forall_drop.
  - unfold sub. rewrite length_take. lia.
Qed.

Lemma long_length_inv b t ls least n :
  bytes (b :: t) -> 0 < ls <= 8 -> least = 56 -> long_length (b :: t) ls least = inl n ->
  56 <= n < max_size /\ ls = bytesRequired n /\ exists rest, t = int_bytes n ++ rest.
Proof.
  intros Hd Hls -> H. unfold long_length in H. repeat (case_decide; [done|]).
  unfold checked_length in H. case_decide; [done|]. injection H as H.
  rewrite <-(Z2Nat.id ls) in H by lia. rewrite read_length_sub in H by (done || lia).
  rewrite len_cons in *. assert (El : length (take (Z.to_nat ls) t) = Z.to_nat ls).
  { rewrite length_take. unfold len in *. lia. }
  change (sub (b :: t) 1 (Z.to_nat ls)) with (take (Z.to_nat ls) t) in H.
  inversion Hd as [|? ? _ Ht]; subst.
  assert (E : int_bytes (be_of_bytes (take (Z.to_nat ls) t)) = take (Z.to_nat ls) t).
  { apply int_bytes_unique; [by apply Forall_take|]. destruct t as [|c t]; [unfold len in *; cbn in *; lia|].
    destruct (Z.to_nat ls); [done|]. cbn. done. }
  assert (Er : read_length (b :: t) ls = be_of_bytes (take (Z.to_nat ls) t)).
  { rewrite <-(Z2Nat.id ls) at 1 by lia. by rewrite read_length_sub by (done || lia). }
  rewrite Er in *. split_and!; [lia|lia|unfold bytesRequired, len; rewrite E; lia|].
  exists (drop (Z.to_nat ls) t). by rewrite E, take_drop.
Qed.

Lemma requireGood_inv b t base n rest :
  (base = 0x80 \/ base = 0xc0) -> b :: t = header base n ++ rest -> 0 <= n -> requireGood (b :: t) = inl tt ->
  header_good base n rest.
Proof.
  intros Hbase E Hn Hr -> ->. unfold header in E. rewrite decide_True in E by done. cbn in E.
  injection E as -> ->. unfold requireGood in Hr. revert Hr. first_byte (0x80 + 1) rest. rewrite at_cons.
  unfold c_rlpDataImmLenStart. rewrite decide_False by lia. destruct rest as [|c rest]; [done|].
  do 2 (case_decide; [done|]). change (at_ (0x80 + 1 :: c :: rest) 1) with c in *. lia.
Qed.

(** What has a size is a byte alone or has the canonical header *)
Definition headed (d : list Z) (n : Z) : Prop :=
  exists base rest, (base = 0x80 \/ base = 0xc0) /\ 0 <= n < max_size /\ d = header base n ++ rest /\
    header_good base n rest.

Lemma headed_short b t base n :
  requireGood (b :: t) = inl tt -> (base = 0x80 \/ base = 0xc0) -> 0 <= n < 56 -> b = base + n -> headed (b :: t) n.
Proof.
  intros Hg Hbase Hn ->. assert (E : base + n :: t = header base n ++ t).
  { unfold header. by rewrite decide_True by lia. }
  exists base, t. split_and!; [done|lia|lia|done|]. eapply requireGood_inv; [done|done|lia|done].
Qed.

Lemma headed_long b t base ls n :
  bytes (b :: t) -> requireGood (b :: t) = inl tt -> (base = 0x80 \/ base = 0xc0) -> b = base + 55 + ls ->
  0 < ls <= 8 -> long_length (b :: t) ls 56 = inl n -> headed (b :: t) n.
Proof.
  intros Hd Hg Hbase Eb Hls H. destruct (long_length_inv b t ls 56 n Hd Hls eq_refl H) as (Hn & -> & rest & ->).
  assert (E : b :: int_bytes n ++ rest = header base n ++ rest).
  { unfold header. rewrite decide_False by lia. by rewrite Eb. }
  exists base, rest. split_and!; [done|lia|lia|done|]. eapply requireGood_inv; [done|done|lia|done].
Qed.

Lemma rlp_length_inv b t n :
  bytes (b :: t) -> rlp_length (b :: t) = inl n -> (b < 0x80 /\ n = 1) \/ headed (b :: t) n.
Proof.
  intros Hd. pose proof (Forall_inv Hd) as Hb. unfold is_word in Hb. unfold rlp_length.
  destruct (requireGood (b :: t)) as [[]|e] eqn:Hg; [|done]. cbn [mbind res_bind]. first_byte b t. rewrite !at_cons.
  unfold c_rlpDataIndLenZero, c_rlpListIndLenZero, c_rlpDataImmLenCount, c_rlpListImmLenCount,
    c_rlpListStart, c_rlpDataImmLenStart, c_rlpMaxLengthBytes.
  repeat case_decide; intros En; [left; split; [done|by injection En as <-]|right..].
  - injection En as <-. apply (headed_short b t 0x80); [done|lia..].
  - apply (headed_long b t 0x80 (b - (0x80 + (0xc0 - 0x80 - 8) - 1))); [done|done|lia..|done].
  - injection En as <-. apply (headed_short b t 0xc0); [done|lia..].
  - apply (headed_long b t 0xc0 (b - (0xc0 + (256 - 0xc0 - 8) - 1))); [done|done|lia..|done].
Qed.

Lemma RLP_strict_inv d r : RLP d VeryStrict = inl r -> r = d /\ actualSize d = inl (len d).
Proof.
  unfold RLP. cbn. destruct (actualSize d) as [n|] eqn:E; [|done]. cbn. case_decide; [done|]. cbn.
  rewrite E. cbn. case_decide; [done|]. intros [= <-]. split; [done|]. f_equal. lia.
Qed.

(** Data that fills its size exactly: a byte alone, a string or a list *)
Lemma exact_inv d :
  bytes d -> d <> [] -> actualSize d = inl (len d) ->
  (isList d = false /\ exists s, d = encode (Str s) /\ readable (Str s)) \/
  (isList d = true /\ exists p, d = header 0xc0 (len p) ++ p /\ payload d = inl p /\ len p < max_size /\
    payloadOffset d = len (header 0xc0 (len p))).
Proof.
  intros Hd Hne Ha. destruct d as [|b t]; [done|]. unfold actualSize in Ha. revert Ha.
  assert (Hid : isData (b :: t) || isList (b :: t) = true).
  { first_byte b t. destruct (decide (b < 0xc0)); decide_lia; done. }
  rewrite Hid. destruct (first_byte b t) as (-> & _ & EL & ES). rewrite ES, EL. case_bool_decide as Hb.
  - rewrite len_cons. intros Ht%(inj inl). left. split; [by rewrite bool_decide_false by lia|]. exists [b].
    assert (t = []) as -> by (apply len_nil_iff; lia).
    split; [cbn; by rewrite decide_True|]. split; [by constructor|]. cbn. unfold len. cbn. lia.
  - destruct (rlp_length (b :: t)) as [n|] eqn:El; [|done]. cbn [mbind res_bind].
    destruct (rlp_length_inv b t n Hd El) as [?|(base & rest & Hbase & Hn & E & Hg)]; [lia|].
    destruct (read_header base n rest Hbase Hn Hg) as (_ & Eo & _ & Ei & _). rewrite <-E in Eo, Ei. rewrite Eo, E.
    intros Hl%(inj inl). rewrite len_app in Hl. assert (En : n = len rest) by lia. subst n.
    assert (Hrest : bytes rest) by (rewrite E in Hd; by apply Forall_app in Hd as [_ ?]).
    rewrite <-EL, Ei. destruct Hbase as [-> | ->].
    + left. split; [done|]. exists rest. split; [|split; [by apply ok_str|cbn; lia]].
      destruct rest as [|c [|c' rest]]; [done| |done]. cbn. by rewrite decide_False by (specialize (Hg eq_refl eq_refl); cbn in Hg; lia).
    + right. split; [done|]. exists rest. split_and!; [done| |lia|done]. rewrite <-E.
      unfold payload. rewrite El. cbn [mbind res_bind]. rewrite Eo, E, len_app.
      pose proof (header_pos 0xc0 (len rest) (len_nonneg _)). rewrite decide_False by lia.
      pose proof (cropped_mid (header 0xc0 (len rest)) rest []) as Ec. rewrite app_nil_r in Ec. by rewrite Ec.
Qed.

Lemma sizeAsEncoded_le d n : sizeAsEncoded d = inl n -> n <= len d.
Proof.
  unfold sizeAsEncoded, RLP. cbn. rewrite decide_False by lia. cbn.
  destruct (actualSize d) as [k|] eqn:E; [|done]. cbn. case_decide; [done|]. cbn. rewrite E. intros [= <-]. lia.
Qed.

Lemma actualSize_nonneg d n : bytes d -> actualSize d = inl n -> 0 <= n.
Proof.
  intros Hd. unfold actualSize. destruct d as [|b t]; [by intros [= <-]|]. first_byte b t.
  case_bool_decide; [by intros [= <-]|]. case_match; [|by intros [= <-]].
  destruct (rlp_length (b :: t)) as [m|] eqn:El; [|done]. cbn.
  destruct (rlp_length_inv b t m Hd El) as [?|(base & rest & Hbase & Hn & E & Hg)]; [lia|].
  destruct (read_header base m rest Hbase Hn Hg) as (_ & Eo & _). rewrite <-E in Eo. rewrite Eo.
  intros [= <-]. pose proof (len_nonneg (header base m)). lia.
Qed.

Lemma cropped_bytes d i n : bytes d -> bytes (cropped d i n).
Proof. intros. unfold cropped, sub. case_decide; [by apply Forall_take, Forall_drop|constructor]. Qed.

Lemma cropped_len d i n : 0 <= i -> 0 <= n -> i + n <= len d -> len (cropped d i n) = n.
Proof.
  intros. unfold cropped. rewrite decide_True by lia. unfold sub, len in *. rewrite length_take, length_drop. lia.
Qed.

Lemma cropped_drop d i n :
  0 <= i -> 0 <= n -> i + n <= len d -> cropped d i n ++ drop (Z.to_nat (i + n)) d = drop (Z.to_nat i) d.
Proof.
  intros. unfold cropped, sub. rewrite decide_True by lia. rewrite Z2Nat.inj_add, <-drop_drop by done. apply take_drop.
Qed.

Lemma sizeAsEncoded_range d n : bytes d -> sizeAsEncoded d = inl n -> 0 <= n <= len d.
Proof.
  intros Hd H. split; [|by apply sizeAsEncoded_le]. revert H. unfold sizeAsEncoded, RLP. cbn.
  rewrite decide_False by lia. cbn. destruct (actualSize d) as [k|] eqn:E; [|done]. cbn. case_decide; [done|]. cbn.
  rewrite E. intros [= <-]. by eapply actualSize_nonneg.
Qed.

(** The iterator in the data: what it has and what remains reach the end *)
Definition it_ok (d : list Z) (it : iterator) : Prop :=
  0 <= it_pos it /\ 0 <= it_size it /\ 0 <= it_remaining it /\ it_pos it + it_size it + it_remaining it = len d.

Lemma it_next_ok d it it' : bytes d -> it_ok d it -> it_next d it = inl it' -> it_ok d it' /\ it_pos it' = it_pos it + it_size it.
Proof.
  intros Hd (H1 & H2 & H3 & H4). unfold it_next. case_decide as Hz.
  - destruct (sizeAsEncoded _) as [n|] eqn:E; [|done]. intros [= <-]. cbn.
    apply sizeAsEncoded_range in E; [|by apply cropped_bytes]. rewrite cropped_len in E by lia. unfold it_ok. cbn. lia.
  - intros [= <-]. unfold it_ok. cbn. lia.
Qed.

(** The items that the iteration gives are what the data consists of, and each fills its size *)
Lemma collect_inv fuel d it xs :
  bytes d -> it_ok d it -> collect fuel d it = inl xs ->
  mjoin xs = drop (Z.to_nat (it_pos it)) d /\ Forall (fun x => bytes x /\ actualSize x = inl (len x)) xs.
Proof.
  intros Hd. revert it xs. induction fuel as [|fuel IH]; intros it xs Hi; cbn [collect]; case_decide as E.
  1,3: intros [= <-]; destruct E as [-> _]; unfold len; rewrite Nat2Z.id, drop_all; by split.
  { done. }
  destruct (RLP _ VeryStrict) as [x|] eqn:Ex; [|done]. cbn [mbind res_bind].
  apply RLP_strict_inv in Ex as [-> Ea].
  destruct (it_next d it) as [it'|] eqn:En; [|done]. cbn [mbind res_bind].
  destruct (collect fuel d it') as [l|] eqn:Ec; [|done]. intros [= <-].
  apply it_next_ok in En as [Hi' Ep]; [|done..]. destruct (IH it' l Hi' Ec) as [E1 E2].
  destruct Hi as (H1 & H2 & H3 & H4). split.
  - change (cropped d (it_pos it) (it_size it) ++ mjoin l = drop (Z.to_nat (it_pos it)) d).
    rewrite E1, Ep. apply cropped_drop; lia.
  - constructor; [|done]. split; [by apply cropped_bytes|done].
Qed.

Lemma mapM_inl_inv {A B} (f : A -> res B) (l : list A) (k : list B) :
  mapM f l = inl k -> Forall2 (fun a b => f a = inl b) l k.
Proof.
  revert k. induction l as [|a l IH]; intros k; cbn; [by intros [= <-]|].
  destruct (f a) as [b|] eqn:E; [|done]. cbn. destruct (mapM f l) as [k'|] eqn:E'; [|done]. cbn.
  intros [= <-]. constructor; [done|by apply IH].
Qed.

Lemma decode_inv fuel d x :
  bytes d -> actualSize d = inl (len d) -> decode fuel d = inl x -> d = encode x /\ readable x.
Proof.
  revert d x. induction fuel as [|fuel IH]; intros d x Hd Ha; [done|]. cbn [decode].
  destruct (decide (d = [])) as [->|Hne]; [done|].
  destruct (exact_inv d Hd Hne Ha) as [(-> & s & -> & Hr)|(Hl & p & Ed & Ep & Hp & Eo)].
  - pose proof (toBytes_item s [] Strict Hr) as E. rewrite app_nil_r in E. rewrite E. intros [= <-]. done.
  - rewrite Hl. unfold toList. rewrite Hl. unfold it_begin. rewrite Hl, Ep. cbn [mbind res_bind].
    assert (Hpb : bytes p) by (rewrite Ed in Hd; by apply Forall_app in Hd as [_ ?]).
    destruct (sizeAsEncoded p) as [n|] eqn:En; [|done]. cbn [mret res_ret mbind res_bind].
    destruct (collect _ _ _) as [xs|] eqn:Ec; [|done]. cbn [mbind res_bind].
    destruct (mapM (decode fuel) xs) as [ys|] eqn:Em; [|done]. intros [= <-].
    apply sizeAsEncoded_range in En; [|done]. pose proof (len_nonneg (header 0xc0 (len p))).
    apply collect_inv in Ec as [Ej Hall]; [|done|].
    2: { unfold it_ok. cbn [it_pos it_size it_remaining]. rewrite Eo, Ed, len_app. lia. }
    cbn [it_pos] in Ej. rewrite Eo, Ed in Ej. unfold len in Ej at 1. rewrite Nat2Z.id, drop_app_length in Ej.
    apply mapM_inl_inv in Em. assert (E2 : Forall2 (fun x y => x = encode y /\ readable y) xs ys).
    { clear Ej. induction Em; [constructor|]. inversion Hall as [|? ? [? ?] ?]; subst. constructor; [by eapply IH|auto]. }
    assert (Ex : xs = encode <$> ys) by (clear -E2; induction E2 as [|? ? ? ? [-> _]]; cbn; by f_equal).
    assert (Hy : Forall item_ok ys) by (clear -E2; induction E2 as [|? ? ? ? [_ [? _]]]; by constructor).
    assert (Ej' : encode_all ys = p) by (unfold encode_all; by rewrite <-Ex).
    rewrite encode_Lst, Ej'. split; [done|]. split; [by apply ok_lst|]. cbn. by rewrite Ej'.
Qed.

(** C21: reading a whole value with the checks of RLP(bytes, VeryStrict), toList and toBytes
    succeeds exactly on the canonical encodings and gives the value that was encoded, so that every
    value has one encoding and no bytes that are not an encoding are accepted. *)
Theorem rlp_bijection (d : list Z) (x : item) :
  bytes d -> read_all d = inl x <-> readable x /\ d = encode x.
Proof.
  intros Hd. unfold read_all. split.
  - destruct (RLP d VeryStrict) as [r|] eqn:E; [|done]. apply RLP_strict_inv in E as [-> Ha]. cbn.
    intros H. destruct (decode_inv _ _ _ Hd Ha H) as [? ?]. done.
  - intros [Hr ->]. rewrite RLP_exact by done. cbn. by apply decode_encode.
Qed.

(** ** Access in any order *)

Fixpoint accesses (js : list Z) (r : RLPObject) : res (list (list Z)) :=
  match js with
  | [] => mret []
  | i :: js => p ← subscript i r; l ← accesses js p.1; mret (p.2 :: l)
  end.

Lemma accesses_spec l rest js r :
  readable (Lst l) -> cache_ok l rest r -> Forall (fun i => 0 <= i < 2 ^ 64) js ->
  accesses js r = inl ((fun i => item_at l (Z.to_nat i)) <$> js).
Proof.
  intros Hr Hc His. revert r Hc. induction His as [|i js Hi _ IH]; intros r Hc; [done|]. cbn [accesses].
  destruct (subscript_ok l rest Hr (Z.to_nat i) r Hc) as (r' & E & Hc'); [lia|].
  rewrite Z2Nat.id in E by lia. rewrite E. cbn [mbind res_bind]. rewrite IH by done. done.
Qed.

(** operator[] keeps the last item it found in the object; whatever the order in
    which the items of a list are read, each access gives the item at its index, and nothing for an
    index behind the end. *)
Theorem subscript_cache (l : list item) (rest : list Z) (js : list Z) :
  readable (Lst l) -> Forall (fun i => 0 <= i < 2 ^ 64) js ->
  accesses js (fresh (encode (Lst l) ++ rest)) = inl ((fun i => default [] (encode <$> l !! Z.to_nat i)) <$> js).
Proof. intros Hr His. apply (accesses_spec l rest); [done|by left|done]. Qed.

(** ** Writing *)

Fixpoint write (x : item) : M RLPStream unit :=
  match x with
  | Str s => append s false
  | Lst l =>
      appendList (Z.of_nat (length l));;
      (fix go l := match l with [] => mret tt | x :: l => write x;; go l end) l
  end.

Lemma write_Lst l : write (Lst l) = (appendList (Z.of_nat (length l));; for_each write l).
Proof.
  cbn [write]. f_equal. assert (E : forall l, (fix go l := match l with [] => mret tt | x :: l => write x;; go l end) l = for_each write l).
  { clear l. induction l as [|x l IH]; [done|]. cbn. by rewrite IH. }
  by rewrite E.
Qed.

Lemma u8_small x : 0 <= x < 256 -> u8 x = x.
Proof. intros. apply u8_id. unfold is_word. lia. Qed.

Lemma pushInt_exact i s : pushInt i (bytesRequired i) s = push_bytes (int_bytes i) s.
Proof. unfold pushInt. by rewrite Z.sub_diag. Qed.

Lemma push_push l1 l2 s : push_bytes l2 (push_bytes l1 s) = push_bytes (l1 ++ l2) s.
Proof. unfold push_bytes. cbn. by rewrite app_assoc. Qed.

Lemma push_back_bytes b s : push_back b s = push_bytes [b] s.
Proof. done. Qed.

(** The header as the stream writes it *)
Lemma push_header base n s :
  base = 0x80 \/ base = 0xc0 -> 0 <= n < max_size ->
  (if decide (n < 56) then update_st (push_back (u8 (n + base))) else pushCount n (base + 55)) s =
  (push_bytes (header base n) s, inl tt).
Proof.
  intros Hbase Hn. unfold header. case_decide.
  - unfold update_st. by rewrite u8_small, Z.add_comm by lia.
  - unfold pushCount. assert (bytesRequired n <= 8) by (apply bytesRequired_bound; lia).
    pose proof (bytesRequired_pos n ltac:(lia)). rewrite decide_False by lia. unfold mbind, M_bind, update_st.
    rewrite u8_small, pushInt_exact, push_back_bytes, push_push by lia. cbn [app]. do 3 f_equal. lia.
Qed.

Lemma append_spec s st : readable (Str s) -> append s false st = noteAppended 1 (push_bytes (encode (Str s)) st).
Proof.
  intros [_ Hs]. cbn [payload_of] in Hs. unfold append. pose proof (len_nonneg s).
  destruct (item_shape (Str s) []) as [(b & [= ->] & Hb)|(base & Hbase & Eb & Eh & Hg)].
  - rewrite decide_True by (split; [done|by rewrite at_cons]). cbn [encode]. by rewrite decide_True.
  - destruct Hbase as [-> | ->]; [|done]. cbn [payload_of] in *. rewrite encode_split, Eh. cbn [payload_of].
    rewrite decide_False.
    2: { intros [E1 E2]. destruct s as [|b [|]]; [done| |done]. rewrite at_cons in E2.
         specialize (Hg eq_refl eq_refl). cbn in Hg. unfold c_rlpDataImmLenStart in E2. lia. }
    unfold mbind at 1, M_bind at 1. unfold mbind at 1, M_bind at 1.
    pose proof (push_header 0x80 (len s) st ltac:(by left) ltac:(lia)) as E.
    change (c_rlpDataImmLenCount) with 56. change c_rlpDataImmLenStart with 0x80. change c_rlpDataIndLenZero with (0x80 + 55).
    rewrite E. unfold appendRaw, noteAppended at 1. rewrite decide_True by done.
    unfold mbind, M_bind, update_st, mret, M_ret. by rewrite push_push.
Qed.

(** resize and memmove: room of [e] bytes after [pre] *)
Lemma make_room (pre body : list Z) e :
  exists junk : list Z, length junk = e /\
    blit ((pre ++ body) ++ replicate e 0) (length pre + e) body = pre ++ junk ++ body.
Proof.
  exists (take e (body ++ replicate e 0)). split; [rewrite length_take, length_app, length_replicate; lia|].
  unfold blit. rewrite <-app_assoc, take_app_add, drop_ge, app_nil_r, <-app_assoc; [done|].
  rewrite !length_app, length_replicate. lia.
Qed.

(** The header in front of the bytes since [length pre] *)
Lemma close_list_spec pre body stack :
  len body < max_size ->
  close_list (length pre) (mkStream (pre ++ body) stack) =
  (mkStream (pre ++ header 0xc0 (len body) ++ body) stack, inl tt).
Proof.
  intros Hs. pose proof (len_nonneg body). unfold close_list, mbind, M_bind, get_st, update_st, set_out, throw. cbn [m_out m_listStack].
  replace (len (pre ++ body) - Z.of_nat (length pre)) with (len body) by (rewrite len_app; unfold len; lia).
  rewrite drop_app_length. change c_rlpListImmLenCount with 56. change c_rlpListIndLenZero with (0xc0 + 55).
  change c_rlpListStart with 0xc0.
  pose proof (make_room pre body) as Hb.
  unfold header. case_decide as H56.
  - destruct (Hb 1%nat) as (junk & Hj & E). change (Z.to_nat 1) with 1%nat. rewrite E.
    destruct junk as [|j [|]]; try done. rewrite u8_small by lia. cbn [app].
    by rewrite insert_app_r_alt, Nat.sub_diag by lia.
  - assert (H8 : bytesRequired (len body) <= 8) by (apply bytesRequired_bound; lia).
    pose proof (bytesRequired_pos (len body) ltac:(lia)).
    destruct (Hb (S (length (int_bytes (len body))))) as (junk & Hj & E).
    replace (Z.to_nat (1 + bytesRequired (len body))) with (S (length (int_bytes (len body)))) by (unfold bytesRequired; unfold len at 2; lia).
    rewrite E, decide_True by lia. destruct junk as [|j junk]; [done|]. injection Hj as Hj.
    rewrite u8_small by lia. set (h := 0xc0 + 55 + bytesRequired (len body)).
    assert (Ei : <[length pre := h]> (pre ++ (j :: junk) ++ body) = (pre ++ [h]) ++ junk ++ body).
    { rewrite insert_app_r_alt, Nat.sub_diag, <-app_assoc by lia. done. }
    rewrite Ei. replace (length pre + 1)%nat with (length (pre ++ [h])) by (rewrite length_app; done).
    unfold blit. rewrite take_app_length, <-Hj, drop_app_add, drop_app_length, <-app_assoc. done.
Qed.

(** noteAppended when a list is on the stack *)
Lemma note_more out c p st :
  1 < c -> noteAppended 1 (mkStream out ((c, p) :: st)) = (mkStream out ((c - 1, p) :: st), inl tt).
Proof.
  intros Hc. unfold noteAppended. rewrite decide_False by done. unfold mbind, M_bind, get_st. cbn [m_listStack length note_loop].
  unfold mbind, M_bind, get_st. cbn [m_listStack]. rewrite decide_False, decide_True by lia. done.
Qed.

Lemma note_last pre body st :
  len body < max_size ->
  noteAppended 1 (mkStream (pre ++ body) ((1, length pre) :: st)) =
  noteAppended 1 (mkStream (pre ++ header 0xc0 (len body) ++ body) st).
Proof.
  intros Hs. unfold noteAppended at 1. rewrite decide_False by done.
  unfold mbind, M_bind, get_st. cbn [m_listStack length]. cbn [note_loop]. unfold mbind, M_bind, get_st.
  cbn [m_listStack]. rewrite decide_False, decide_False by lia. unfold update_st, set_listStack. cbn [m_out].
  rewrite close_list_spec by done. unfold noteAppended. rewrite decide_False by done. done.
Qed.

(** The values of a list, the first of which is written with all of them counted *)
Lemma write_items l pre body st :
  l <> [] -> len (body ++ encode_all l) < max_size ->
  Forall (fun x => forall s, write x s = noteAppended 1 (push_bytes (encode x) s)) l ->
  for_each write l (mkStream (pre ++ body) ((Z.of_nat (length l), length pre) :: st)) =
  noteAppended 1 (mkStream (pre ++ header 0xc0 (len (body ++ encode_all l)) ++ body ++ encode_all l) st).
Proof.
  intros Hne Hs Hl. revert body Hs Hne. induction Hl as [|x l Hx Hl IH]; intros body Hs Hne; [done|].
  cbn [for_each]. unfold mbind, M_bind. rewrite Hx. unfold push_bytes. cbn [m_out m_listStack].
  rewrite encode_all_cons, (app_assoc body) in *. rewrite <-(app_assoc pre). destruct l as [|y l].
  - cbn [encode_all] in *. change (encode_all []) with (@nil Z) in *. rewrite app_nil_r in *. cbn [length].
    change (Z.of_nat 1) with 1. rewrite note_last by done. cbn [for_each].
    by destruct (noteAppended 1 _) as [s' [[]|e]].
  - rewrite note_more by (cbn [length]; lia).
    replace (Z.of_nat (length (x :: y :: l)) - 1) with (Z.of_nat (length (y :: l))) by (cbn [length]; lia).
    by rewrite IH.
Qed.

Lemma write_spec x : readable x -> forall s, write x s = noteAppended 1 (push_bytes (encode x) s).
Proof.
  induction x as [s|l IH] using item_ind; intros Hr st; [by apply append_spec|].
  rewrite write_Lst. pose proof (readable_list l Hr) as Hl. destruct Hr as [_ Hs]. cbn [payload_of] in Hs.
  destruct (decide (l = [])) as [->|Hne].
  - unfold appendList. rewrite decide_False by (intros []; done). unfold mbind, M_bind. cbn [for_each].
    change (encode (Lst [])) with [0xc0]. unfold appendListBytes. rewrite decide_True by done.
    unfold mbind, M_bind, update_st, appendRaw. unfold mbind, M_bind, update_st. rewrite push_back_bytes, push_push.
    cbn [app]. change (u8 (len [] + c_rlpListStart)) with 0xc0. by destruct (noteAppended 1 _) as [s' [[]|e]].
  - unfold appendList. rewrite decide_True by (destruct l; [done|cbn [length]; lia]).
    unfold mbind, M_bind, update_st, set_listStack. destruct st as [out st]. cbn [m_out m_listStack].
    rewrite <-(app_nil_r out) at 1. rewrite (write_items l out [] st); [|done|done|].
    + unfold push_bytes. cbn [app m_out m_listStack]. by rewrite encode_Lst.
    + apply list.Forall_forall. intros x Hx. eapply (list.Forall_forall _ _) in IH; [|done]. apply IH.
      by eapply list.Forall_forall in Hl.
Qed.

(** the operations of RLPStream, appendList(n) before n values and append for each
    string, give the canonical encoding of the value, with the header of every list put in front of
    it when its last value has been written; and what is written is read back. *)
Theorem stream_encodes (x : item) :
  readable x -> written (write x) = inl (encode x) /\ (d ← written (write x); read_all d) = inl x.
Proof.
  intros Hr. assert (E : written (write x) = inl (encode x)).
  { unfold written, mbind, M_bind. rewrite write_spec by done. done. }
  rewrite E. split; [done|]. unfold read_all. cbn [mbind res_bind]. rewrite RLP_exact by done. cbn [mbind res_bind].
  by apply decode_encode.
Qed.

(** ** Numbers *)

Lemma int_readable i : 0 <= i < 2 ^ 8192 -> readable (Str (int_bytes i)) /\ bytesRequired i <= 1024.
Proof.
  intros Hi. assert (bytesRequired i <= 1024) by (apply bytesRequired_bound; [lia|done|]; apply Hi).
  split; [|done]. split; [apply ok_str, bytes_int; lia|]. cbn [payload_of]. unfold bytesRequired in *. lia.
Qed.

Lemma int_bytes_small i : 0 < i < 256 -> int_bytes i = [i].
Proof.
  intros Hi. rewrite <-(int_bytes_unique [i]).
  - f_equal. unfold be_of_bytes. cbn [reverse rev_append]. rewrite (le_of_bytes_cons i []) by (unfold is_word; lia). cbn. lia.
  - apply Forall_singleton. unfold is_word. lia.
  - cbn. lia.
Qed.

Lemma append_int_spec i s :
  0 <= i < 2 ^ 8192 -> append_int i s = noteAppended 1 (push_bytes (encode (Str (int_bytes i))) s).
Proof.
  intros Hi. destruct (int_readable i Hi) as [[_ Hr] Hb]. cbn [payload_of] in Hr.
  unfold append_int. change c_rlpDataImmLenStart with 0x80.
  destruct (decide (i = 0)) as [->|Hz]; [done|]. destruct (decide (i < 0x80)) as [Hs|Hs].
  - unfold mbind, M_bind, update_st. rewrite int_bytes_small, u8_small by lia. cbn [encode]. by rewrite decide_True.
  - unfold mbind at 1, M_bind at 1. pose proof (bytesRequired_pos i ltac:(lia)).
    pose proof (push_header 0x80 (bytesRequired i) s ltac:(by left) ltac:(lia)) as E. unfold pushCount in E.
    change c_rlpDataImmLenCount with 56. change c_rlpDataIndLenZero with (0x80 + 55).
    rewrite (Z.add_comm (bytesRequired (bytesRequired i)) (0x80 + 55)) in E.
    unfold mbind at 1, M_bind at 1. rewrite E. unfold update_st. rewrite pushInt_exact, push_push.
    f_equal. f_equal. rewrite encode_split. cbn [payload_of]. f_equal.
    destruct (int_bytes_spec i ltac:(lia)) as (? & Hv & _).
    unfold bytesRequired. destruct (int_bytes i) as [|b [|]]; try done. cbn [head_of]. rewrite decide_False; [done|].
    unfold be_of_bytes in Hv. cbn [reverse rev_append] in Hv. rewrite (le_of_bytes_cons b []) in Hv by (by apply Forall_singleton).
    cbn in Hv. lia.
Qed.

(** The first byte of the number, behind the header *)
Lemma isInt_encode i : 0 <= i < 2 ^ 8192 -> isInt (encode (Str (int_bytes i))) = inl true.
Proof.
  intros Hi. destruct (int_readable i Hi) as [Hr Hb]. destruct (int_bytes_spec i ltac:(lia)) as (Hby & Hv & Hn).
  pose proof (item_shape (Str (int_bytes i)) []) as Sh. rewrite app_nil_r in Sh. destruct Sh as [(b & [= E] & Hlt)|(base & Hbase & Eb & Eh & Hg)].
  - rewrite E in *. cbn [encode]. rewrite decide_True by done. unfold isInt, requireGood. first_byte b (@nil Z). rewrite at_cons.
    unfold c_rlpDataImmLenStart. decide_lia. cbn [mret res_ret mbind res_bind].
    by rewrite bool_decide_true.
  - destruct Hbase as [-> | ->]; [|done]. cbn [payload_of] in *. rewrite encode_split, Eh. cbn [payload_of].
    pose proof (requireGood_header 0x80 (len (int_bytes i)) (int_bytes i) ltac:(by left)) as G.
    pose proof (len_nonneg (int_bytes i)). unfold bytesRequired in Hb. specialize (G ltac:(lia) Hg).
    unfold isInt. rewrite G. cbn [mbind res_bind]. unfold header, c_rlpDataIndLenZero, c_rlpDataImmLenCount,
      c_rlpListStart, c_rlpDataImmLenStart, c_rlpMaxLengthBytes in *. case_decide as H56; cbn [app].
    + first_byte (0x80 + len (int_bytes i)) (int_bytes i). rewrite !at_cons. rewrite decide_False by lia.
      destruct (int_bytes i) as [|b l]; [done|]. rewrite !len_cons in *. pose proof (len_nonneg l).
      rewrite decide_False, decide_True, decide_False by lia. by rewrite bool_decide_true.
    + pose proof (bytesRequired_pos (len (int_bytes i)) ltac:(lia)).
      assert (bytesRequired (len (int_bytes i)) <= 8) by (apply bytesRequired_bound; lia).
      first_byte (0x80 + 55 + bytesRequired (len (int_bytes i))) (int_bytes (len (int_bytes i)) ++ int_bytes i).
      rewrite !at_cons. do 3 (rewrite decide_False by lia). rewrite decide_True by lia.
      replace (1 + (0x80 + 55 + bytesRequired (len (int_bytes i))) - (0x80 + (0xc0 - 0x80 - 8) - 1))
        with (Z.of_nat (S (length (int_bytes (len (int_bytes i)))))) by (unfold bytesRequired; unfold len at 2; lia).
      rewrite len_cons, len_app, decide_False by (unfold len at 1; lia). rewrite Nat2Z.id. unfold at_.
      set (n := int_bytes (len (int_bytes i))). assert (Ex : int_bytes i !! 0%nat = Some (int_bytes i !!! 0%nat)).
      { apply list_lookup_lookup_total_lt. unfold len in *. lia. }
      rewrite (list_lookup_total_correct _ _ (int_bytes i !!! 0%nat)).
      2: { rewrite lookup_cons. cbn. by rewrite lookup_app_r, Nat.sub_diag by lia. }
      destruct (int_bytes i) as [|b l]; [done|]. cbn. by rewrite bool_decide_true.
Qed.

(** A number that fits the integer type is written by append(bigint) as the string of
    its bytes without leading zeroes, and toInt with the flags of Strict gives it back. *)
Theorem int_roundtrip (i w : Z) :
  0 <= w <= 1024 -> 0 <= i < 2 ^ (8 * w) ->
  written (append_int i) = inl (encode (Str (int_bytes i))) /\
  (d ← written (append_int i); toInt w d Strict) = inl i.
Proof.
  intros Hw Hi. assert (Hi' : 0 <= i < 2 ^ 8192).
  { split; [lia|]. eapply Z.lt_le_trans; [apply Hi|]. apply Z.pow_le_mono_r; lia. }
  assert (E : written (append_int i) = inl (encode (Str (int_bytes i)))).
  { unfold written, mbind, M_bind. rewrite append_int_spec by done. done. }
  rewrite E. split; [done|]. cbn [mbind res_bind]. destruct (int_readable i Hi') as [Hr _].
  pose proof (read_item _ [] Hr) as R. cbn zeta in R. rewrite app_nil_r in R. destruct R as (_ & _ & _ & El & En & _).
  pose proof (payload_item _ [] Hr) as Ep. rewrite app_nil_r in Ep. pose proof (isInt_encode i Hi') as Ei.
  assert (G : requireGood (encode (Str (int_bytes i))) = inl tt).
  { unfold isInt in Ei. rewrite En in Ei. by destruct (requireGood _) as [[]|]. }
  unfold toInt. rewrite G. cbn [mbind res_bind]. rewrite Ei. cbn [mbind res_bind]. rewrite El, En, Ep.
  cbn [is_str negb andb orb mbind res_bind payload_of FailIfTooBig Strict].
  destruct (int_bytes_spec i ltac:(lia)) as (_ & Hv & _). rewrite bool_decide_false.
  - cbn [andb]. by rewrite Hv, Z.mod_small.
  - pose proof (proj1 (bytesRequired_bound i w ltac:(lia) ltac:(lia)) (proj2 Hi)) as Hlt. unfold bytesRequired in Hlt. lia.
Qed.

(** ** Witnesses *)

(** ["cat", [], [0x05, 60 bytes of 0xff], ""] *)
Definition demo_item : item :=
  Lst [Str [0x63; 0x61; 0x74]; Lst []; Lst [Str [5]; Str (replicate 60 0xff)]; Str []].

Lemma demo_readable : readable demo_item.
Proof.
  split; [|by vm_compute]. repeat constructor; unfold is_word; lia.
Qed.

Lemma rlp_bijection_witness :
  bytes (encode demo_item) /\ (read_all (encode demo_item) = inl demo_item <->
    readable demo_item /\ encode demo_item = encode demo_item).
Proof.
  assert (H : bytes (encode demo_item)) by (apply (bool_decide_unpack (Forall (fun x => 0 <= x < 256) _)); by vm_compute).
  split; [exact H|]. apply (rlp_bijection (encode demo_item) demo_item). exact H.
Defined.

Lemma subscript_cache_witness :
  accesses [2; 0; 7; 1] (fresh (encode demo_item ++ [1; 2])) =
    inl [encode (Lst [Str [5]; Str (replicate 60 0xff)]); [0x83; 0x63; 0x61; 0x74]; []; [0xc0]].
Proof.
  apply (subscript_cache [Str [0x63; 0x61; 0x74]; Lst []; Lst [Str [5]; Str (replicate 60 0xff)]; Str []] [1; 2] [2; 0; 7; 1]).
  - apply demo_readable.
  - repeat constructor; lia.
Defined.

Lemma stream_encodes_witness :
  written (write demo_item) = inl (encode demo_item) /\ (d ← written (write demo_item); read_all d) = inl demo_item.
Proof. apply (stream_encodes demo_item). apply demo_readable. Defined.

Lemma int_roundtrip_witness :
  written (append_int 1000) = inl (encode (Str (int_bytes 1000))) /\
  (d ← written (append_int 1000); toInt 4 d Strict) = inl 1000.
Proof. apply (int_roundtrip 1000 4); [lia|]. split; [lia|by vm_compute]. Defined.

(** The comment of operator[] promises an empty value when the object is not a list; the code reads
    the bytes of a string as if they were the values of a list. *)
Example subscript_of_string : rlp_at [0x83; 1; 2; 3] 1 = inl [2] /\ isList [0x83; 1; 2; 3] = false.
Proof. split; vm_compute; reflexivity. Qed.
