(* ===== verification/TrieCommon.v ===== *)
(** * libdevcore/TrieCommon.h, TrieCommon.cpp: keys as nibbles

    A [NibbleSlice] refers to bytes from a nibble on.  Reading a nibble behind the data is
    [undefined_behaviour] where the code does not test for the end. *)

From stdpp Require Import gmap.
From S2P Require Import Prelude Words Exn Rlp.

#[local] Open Scope Z_scope.

Definition nibble (data : list Z) (i : nat) : Z :=
  if Nat.odd i then at_ data (i / 2) .& 15 else at_ data (i / 2) .>> 4.

(** The loop of sharedNibbles; the first range bounds the number of turns *)
Fixpoint shared_loop (fuel : nat) (first : list Z) (beginFirst endFirst : nat)
    (second : list Z) (beginSecond endSecond : nat) (ret : nat) : nat :=
  match fuel with
  | O => ret
  | S fuel =>
      if decide (beginFirst < endFirst /\ beginSecond < endSecond)%nat then
        if decide (nibble first beginFirst = nibble second beginSecond) then
          shared_loop fuel first (S beginFirst) endFirst second (S beginSecond) endSecond (S ret)
        else ret
      else ret
  end.

Definition sharedNibbles (first : list Z) (beginFirst endFirst : nat)
    (second : list Z) (beginSecond endSecond : nat) : nat :=
  shared_loop (endFirst - beginFirst) first beginFirst endFirst second beginSecond endSecond 0.

Record NibbleSlice := mkSlice { data : list Z; offset : nat }.

Definition slice_size (s : NibbleSlice) : nat := 2 * length (data s) - offset s.
Definition slice_at (s : NibbleSlice) (i : nat) : res Z :=
  if decide (offset s + i < 2 * length (data s))%nat then mret (nibble (data s) (offset s + i))
  else raise undefined_behaviour.
Definition mid (s : NibbleSlice) (i : nat) : NibbleSlice := mkSlice (data s) (offset s + i).
Definition shared (s k : NibbleSlice) : nat :=
  sharedNibbles (data s) (offset s) (offset s + slice_size s) (data k) (offset k) (offset k + slice_size k).
Definition contains (s k : NibbleSlice) : bool := bool_decide (shared s k = slice_size k).
Definition slice_eqb (s k : NibbleSlice) : bool :=
  bool_decide (slice_size k = slice_size s) && bool_decide (shared s k = slice_size k).

(** The loop of isEarlierThan *)
Fixpoint earlier_loop (fuel : nat) (s k : NibbleSlice) (i : nat) : bool :=
  match fuel with
  | O => bool_decide (i < slice_size k)%nat
  | S fuel =>
      if decide (i < slice_size k /\ i < slice_size s)%nat then
        let a := nibble (data s) (offset s + i) in
        let b := nibble (data k) (offset k + i) in
        if decide (a < b) then true
        else if decide (b < a) then false
        else earlier_loop fuel s k (S i)
      else bool_decide (i < slice_size k)%nat
  end.
Definition isEarlierThan (s k : NibbleSlice) : bool := earlier_loop (slice_size k) s k 0.

(** [ret.back() |= n] *)
Definition or_back (n : Z) (ret : list Z) : list Z :=
  match reverse ret with
  | b :: l => reverse (b .| n :: l)
  | [] => ret
  end.

(** The flags in the first byte *)
Definition hp_flags (leaf odd : bool) : Z := ((if leaf then 2 else 0) .| (if odd then 1 else 0)) * 16.

(** The loop over the nibbles from [i] on, [d] counting where the next nibble goes *)
Fixpoint hp_loop (n : nat) (data : list Z) (i : nat) (d : nat) (ret : list Z) : nat * list Z :=
  match n with
  | O => (d, ret)
  | S n =>
      let x := nibble data i in
      hp_loop n data (S i) (S d) (if Nat.odd d then or_back x ret else ret ++ [u8 (x .<< 4)])
  end.

(** [hexPrefixEncode(_data, _leaf, _beginNibble, _endNibble, _offset)] *)
Definition hexPrefixEncode (data : list Z) (leaf : bool) (beginNibble endNibble : Z) (offset : nat) : list Z :=
  let begin := (Z.to_nat beginNibble + offset)%nat in
  let count : Z := if decide (endNibble < 0) then Z.of_nat (2 * length data - offset) + 1 + endNibble else endNibble in
  let end_ := (Z.to_nat count + offset)%nat in
  let odd := Nat.odd (end_ - begin) in
  (hp_loop (end_ - begin) data begin (if odd then 1 else 2) [hp_flags leaf odd]).2.

(** [hexPrefixEncode(NibbleSlice, _leaf, _begin, _end)] *)
Definition hexPrefixSlice (s : NibbleSlice) (leaf : bool) (begin end_ : Z) : list Z :=
  hexPrefixEncode (data s) leaf begin end_ (offset s).

(** [hexPrefixEncode(_d1, _o1, _d2, _o2, _leaf)] *)
Definition hexPrefixEncode2 (d1 : list Z) (o1 : nat) (d2 : list Z) (o2 : nat) (leaf : bool) : list Z :=
  let end1 := (2 * length d1)%nat in
  let end2 := (2 * length d2)%nat in
  let odd := Nat.odd (end1 - o1 + (end2 - o2)) in
  let '(d, ret) := hp_loop (end1 - o1) d1 o1 (if odd then 1 else 2) [hp_flags leaf odd] in
  (hp_loop (end2 - o2) d2 o2 d ret).2.

(** [hexPrefixEncode(NibbleSlice, NibbleSlice, _leaf)] *)
Definition hexPrefixSlice2 (s1 s2 : NibbleSlice) (leaf : bool) : list Z :=
  hexPrefixEncode2 (data s1) (offset s1) (data s2) (offset s2) leaf.

(** [hexPrefixEncode(_hexVector, _leaf, _begin, _end)]: the key has a nibble in each byte *)
Fixpoint hp_pairs (l : list Z) : list Z :=
  match l with
  | a :: b :: l => u8 (a * 16 + b) :: hp_pairs l
  | _ => []
  end.
Definition hexPrefixVector (hexVector : list Z) (leaf : bool) (begin end_ : Z) : list Z :=
  let b := Z.to_nat begin in
  let e := Z.to_nat (if decide (end_ < 0) then Z.of_nat (length hexVector) + 1 + end_ else end_) in
  let odd := Nat.odd (e - b) in
  if odd then (hp_flags leaf odd .| (hexVector !!! b)) :: hp_pairs (sub hexVector (S b) (e - S b))
  else hp_flags leaf odd :: hp_pairs (sub hexVector b (e - b)).

Definition isLeaf (twoItem : list Z) : res bool :=
  r ← rlp_at twoItem 0;
  pl ← payload r;
  match pl with
  | b :: _ => mret (bool_decide (b .& 0x20 <> 0))
  | [] => raise undefined_behaviour
  end.

Definition keyOf_bytes (hpe : list Z) : NibbleSlice :=
  match hpe with
  | [] => mkSlice hpe 0
  | b :: _ => if decide (b .& 0x10 <> 0) then mkSlice hpe 1 else mkSlice hpe 2
  end.
Definition keyOf (twoItem : list Z) : res NibbleSlice :=
  r ← rlp_at twoItem 0;
  pl ← payload r;
  mret (keyOf_bytes pl).

(** The loop of uniqueInUse, for the indices [is] *)
Fixpoint unique_loop (orig : list Z) (except : Z) (js : list nat) (used : Z) : res Z :=
  match js with
  | [] => mret used
  | i :: js =>
      x ← (if decide (Z.of_nat i <> except) then r ← rlp_at orig (Z.of_nat i); mret (negb (isEmpty r)) else mret false);
      if x : bool then if decide (used = 255) then unique_loop orig except js (Z.of_nat i) else mret 255
      else unique_loop orig except js used
  end.
Definition uniqueInUse (orig : list Z) (except : Z) : res Z := unique_loop orig except (seq 0 17) 255.
