(* ===== verification/MemoryDB.v ===== *)
(** * libdevcore/MemoryDB.h, MemoryDB.cpp, OverlayDB.h, OverlayDB.cpp: the databases of the tries

    A hash is the list of its 32 bytes.  [m_main] keeps a node with its reference counter, an
    unsigned of 32 bits.  The database on disk is the class [LevelDB], of which the code uses
    Get and Write; the locks are not modelled.  [Backend] is what a trie uses of its database. *)

From stdpp Require Import gmap.
From S2P Require Import Prelude Words Exn Rlp.

#[local] Open Scope Z_scope.

Abbreviation h256 := (list Z).

Record MemoryDB := mkMemoryDB {
  m_main : gmap h256 (list Z * Z);
  m_aux : gmap h256 (list Z * bool);
  m_enforceRefs : bool
}.
Definition new_MemoryDB : MemoryDB := mkMemoryDB ∅ ∅ false.

Definition set_main (m : gmap h256 (list Z * Z)) (db : MemoryDB) : MemoryDB :=
  mkMemoryDB m (m_aux db) (m_enforceRefs db).
Definition set_aux (m : gmap h256 (list Z * bool)) (db : MemoryDB) : MemoryDB :=
  mkMemoryDB (m_main db) m (m_enforceRefs db).

Module Mem.
(** The entry is visible: counters are not looked at unless they are enforced *)
Definition visible (db : MemoryDB) (refs : Z) : bool := negb (m_enforceRefs db) || bool_decide (0 < refs).

Definition get (db : MemoryDB) : gmap h256 (list Z) :=
  omap (fun x => if visible db x.2 then Some x.1 else None) (m_main db).

(** operator=: the flag is not copied *)
Definition assign (c db : MemoryDB) : MemoryDB := mkMemoryDB (m_main c) (m_aux c) (m_enforceRefs db).

Definition clear (db : MemoryDB) : MemoryDB := mkMemoryDB ∅ ∅ (m_enforceRefs db).

Definition lookup (db : MemoryDB) (h : h256) : list Z :=
  match m_main db !! h with
  | Some (v, refs) => if visible db refs then v else []
  | None => []
  end.

Definition exists_ (db : MemoryDB) (h : h256) : bool :=
  match m_main db !! h with
  | Some (_, refs) => visible db refs
  | None => false
  end.

Definition insert (h : h256) (v : list Z) (db : MemoryDB) : MemoryDB :=
  set_main (match m_main db !! h with
            | Some (_, refs) => <[h := (v, u32 (refs + 1))]> (m_main db)
            | None => <[h := (v, 1)]> (m_main db)
            end) db.

Definition kill (h : h256) (db : MemoryDB) : bool * MemoryDB :=
  match m_main db !! h with
  | Some (v, refs) => if decide (0 < refs) then (true, set_main (<[h := (v, refs - 1)]> (m_main db)) db) else (false, db)
  | None => (false, db)
  end.

Definition lookupAux (db : MemoryDB) (h : h256) : list Z :=
  match m_aux db !! h with
  | Some (v, b) => if negb (m_enforceRefs db) || b then v else []
  | None => []
  end.

(** [m_aux[_h].second = false] makes an entry when there is none *)
Definition removeAux (h : h256) (db : MemoryDB) : MemoryDB :=
  set_aux (<[h := ((default ([], false) (m_aux db !! h)).1, false)]> (m_aux db)) db.
Definition insertAux (h : h256) (v : list Z) (db : MemoryDB) : MemoryDB :=
  set_aux (<[h := (v, true)]> (m_aux db)) db.

Definition purge (db : MemoryDB) : MemoryDB :=
  mkMemoryDB (filter (fun x => x.2.2 <> 0) (m_main db)) (filter (fun x => x.2.2 = true) (m_aux db)) (m_enforceRefs db).

(** EnforceRefs: its constructor, and its destructor with the old flag *)
Definition enforce (r : bool) (db : MemoryDB) : MemoryDB := mkMemoryDB (m_main db) (m_aux db) r.

Definition keys (db : MemoryDB) : gset h256 := dom (filter (fun x => x.2.2 <> 0) (m_main db)).
End Mem.

(** The database on disk: Get leaves the string empty when the key is not found, Write applies
    the puts of a batch or reports an error *)
Class LevelDB := {
  ldb : Type;
  ldb_get : ldb -> list Z -> list Z;
  ldb_write : ldb -> list (list Z * list Z) -> ldb * bool;
}.

(** What the code relies on: the puts of a batch are made in their order, nothing else changes, and
    a failed Write leaves the contents *)
Class LevelDBLaws (L : LevelDB) := {
  ldb_written : forall d batch d', ldb_write d batch = (d', true) ->
    forall k, ldb_get d' k = default (ldb_get d k) ((list_to_map (reverse batch) : gmap (list Z) (list Z)) !! k);
  ldb_failed : forall d batch d', ldb_write d batch = (d', false) -> forall k, ldb_get d' k = ldb_get d k;
}.

Record OverlayDB {L : LevelDB} := mkOverlayDB {
  o_mem : MemoryDB;
  m_db : option ldb
}.
Arguments OverlayDB : clear implicits.
Arguments mkOverlayDB {L}.

Module Overlay.
Section Overlay.
Context {L : LevelDB}.

(** The key of the auxiliary data on disk *)
Definition aux_key (h : h256) : list Z := h ++ [255].

Definition disk_get (db : OverlayDB L) (k : list Z) : list Z :=
  match m_db db with Some d => ldb_get d k | None => [] end.

Definition lookup (db : OverlayDB L) (h : h256) : list Z :=
  let ret := Mem.lookup (o_mem db) h in
  if decide (ret = []) then match m_db db with Some d => ldb_get d h | None => ret end else ret.

Definition lookupAux (db : OverlayDB L) (h : h256) : list Z :=
  let ret := Mem.lookupAux (o_mem db) h in
  if decide (ret <> [] \/ m_db db = None) then ret else disk_get db (aux_key h).

Definition exists_ (db : OverlayDB L) (h : h256) : bool :=
  if Mem.exists_ (o_mem db) h then true else bool_decide (disk_get db h <> []).

Definition insert (h : h256) (v : list Z) (db : OverlayDB L) : OverlayDB L :=
  mkOverlayDB (Mem.insert h v (o_mem db)) (m_db db).

(** Only the message depends on the disk *)
Definition kill (h : h256) (db : OverlayDB L) : OverlayDB L :=
  mkOverlayDB (Mem.kill h (o_mem db)).2 (m_db db).

Definition rollback (db : OverlayDB L) : OverlayDB L := mkOverlayDB (set_main ∅ (o_mem db)) (m_db db).

Definition batch (db : OverlayDB L) : list (list Z * list Z) :=
  ((fun x => (x.1, x.2.1)) <$> filter (fun x => x.2.2 <> 0) (map_to_list (m_main (o_mem db)))) ++
  ((fun x => (aux_key x.1, x.2.1)) <$> filter (fun x => x.2.2 = true) (map_to_list (m_aux (o_mem db)))).

(** The loop of ten attempts *)
Fixpoint write_loop (attempts : nat) (b : list (list Z * list Z)) : M (OverlayDB L) unit :=
  db ← get_st;
  match m_db db with
  | None => mret tt
  | Some d =>
      let '(d', ok) := ldb_write d b in
      put_st (mkOverlayDB (o_mem db) (Some d'));;
      if ok : bool then mret tt
      else match attempts with
      | O => throw process_exit
      | S attempts => write_loop attempts b
      end
  end.

Definition commit : M (OverlayDB L) unit :=
  db ← get_st;
  match m_db db with
  | None => mret tt
  | Some _ =>
      write_loop 9 (batch db);;
      update_st (fun db => mkOverlayDB (set_aux ∅ (set_main ∅ (o_mem db))) (m_db db))
  end.
End Overlay.
End Overlay.

(** ** What a trie uses of its database *)

Class Backend (DB : Type) := {
  db_lookup : DB -> h256 -> list Z;
  db_exists : DB -> h256 -> bool;
  db_insert : h256 -> list Z -> DB -> DB;
  db_kill : h256 -> DB -> DB;
  db_refs : DB -> h256 -> Z;
  db_insertAux : h256 -> list Z -> DB -> DB;
  db_lookupAux : DB -> h256 -> list Z;
}.

(** The promises: a node that was inserted is found, as long as another one does not take its
    place; killing takes a reference, and does not hide the node; the auxiliary data are apart *)
Class BackendLaws (DB : Type) {B : Backend DB} := {
  db_valid : DB -> Prop;
  valid_insert : forall h v db, db_valid db -> db_valid (db_insert h v db);
  valid_kill : forall h db, db_valid db -> db_valid (db_kill h db);
  db_lookup_insert : forall h v db h', db_valid db -> v <> [] ->
    db_lookup (db_insert h v db) h' = if decide (h = h') then v else db_lookup db h';
  db_lookup_kill : forall h db h', db_valid db -> db_lookup (db_kill h db) h' = db_lookup db h';
  db_exists_lookup : forall db h, db_valid db -> db_lookup db h <> [] -> db_exists db h = true;
  db_refs_range : forall db h, db_valid db -> is_u32 (db_refs db h);
  db_refs_insert : forall h v db h', db_valid db ->
    db_refs (db_insert h v db) h' = if decide (h = h') then u32 (db_refs db h + 1) else db_refs db h';
  db_refs_kill : forall h db h', db_valid db ->
    db_refs (db_kill h db) h' = if decide (h = h') then Z.max 0 (db_refs db h - 1) else db_refs db h';
  valid_insertAux : forall h v db, db_valid db -> db_valid (db_insertAux h v db);
  db_lookup_insertAux : forall h v db h', db_lookup (db_insertAux h v db) h' = db_lookup db h';
  db_refs_insertAux : forall h v db h', db_refs (db_insertAux h v db) h' = db_refs db h';
  db_lookupAux_insertAux : forall h v db h', db_valid db -> (h = h' -> v <> []) ->
    db_lookupAux (db_insertAux h v db) h' = if decide (h = h') then v else db_lookupAux db h';
  db_lookupAux_insert : forall h v db h', db_lookupAux (db_insert h v db) h' = db_lookupAux db h';
  db_lookupAux_kill : forall h db h', db_lookupAux (db_kill h db) h' = db_lookupAux db h';
}.

Definition mem_refs (db : MemoryDB) (h : h256) : Z := match m_main db !! h with Some (_, n) => n | None => 0 end.

#[export] Instance memory_backend : Backend MemoryDB := {
  db_lookup := Mem.lookup;
  db_exists := Mem.exists_;
  db_insert := Mem.insert;
  db_kill := fun h db => (Mem.kill h db).2;
  db_refs := mem_refs;
  db_insertAux := Mem.insertAux;
  db_lookupAux := Mem.lookupAux;
}.

#[export] Instance overlay_backend {L : LevelDB} : Backend (OverlayDB L) := {
  db_lookup := Overlay.lookup;
  db_exists := Overlay.exists_;
  db_insert := Overlay.insert;
  db_kill := Overlay.kill;
  db_refs := fun db h => mem_refs (o_mem db) h;
  db_insertAux := fun h v db => mkOverlayDB (Mem.insertAux h v (o_mem db)) (m_db db);
  db_lookupAux := Overlay.lookupAux;
}.

(** Counters are in range and not enforced *)
Definition mem_valid (db : MemoryDB) : Prop :=
  m_enforceRefs db = false /\ map_Forall (fun _ x => is_u32 x.2) (m_main db).

Lemma mem_valid_insert h v db : mem_valid db -> mem_valid (Mem.insert h v db).
Proof.
  intros [He Hm]. split; [done|]. unfold Mem.insert. cbn. destruct (m_main db !! h) as [[w n]|] eqn:E.
  - apply map_Forall_insert_2; [|done]. cbn [snd]. apply u32_range.
  - apply map_Forall_insert_2; [|done]. cbn. unfold is_word. lia.
Qed.

Lemma mem_kill_valid h db : mem_valid db -> mem_valid (Mem.kill h db).2.
Proof.
  intros [He Hm]. unfold Mem.kill. destruct (m_main db !! h) as [[w n]|] eqn:E; [|by split].
  case_decide; [|by split]. split; [done|]. apply map_Forall_insert_2; [|done].
  specialize (Hm _ _ E). cbn in *. unfold is_word in *. lia.
Qed.

Lemma mem_lookup_insert h v db h' :
  mem_valid db -> Mem.lookup (Mem.insert h v db) h' = if decide (h = h') then v else Mem.lookup db h'.
Proof.
  intros [He _]. unfold Mem.lookup, Mem.insert, Mem.visible. cbn [m_main set_main m_enforceRefs]. rewrite He. cbn [negb orb].
  case_decide; destruct (m_main db !! h) as [[w n]|] eqn:E; subst.
  1,2: by rewrite lookup_insert_eq. all: by rewrite lookup_insert_ne.
Qed.

Lemma mem_lookup_kill h db h' : mem_valid db -> Mem.lookup (Mem.kill h db).2 h' = Mem.lookup db h'.
Proof.
  intros [He _]. unfold Mem.kill. destruct (m_main db !! h) as [[w n]|] eqn:E; [|done]. case_decide; [|done].
  unfold Mem.lookup, Mem.visible. cbn [snd m_main set_main m_enforceRefs]. rewrite He. cbn [negb orb].
  destruct (decide (h = h')) as [<-|]; [by rewrite lookup_insert_eq, E|by rewrite lookup_insert_ne].
Qed.

Lemma mem_exists_lookup db h : Mem.lookup db h <> [] -> Mem.exists_ db h = true.
Proof. unfold Mem.lookup, Mem.exists_. destruct (m_main db !! h) as [[w n]|]; [|done]. by destruct (Mem.visible db n). Qed.

Lemma mem_refs_range db h : mem_valid db -> is_u32 (mem_refs db h).
Proof.
  intros [_ Hm]. unfold mem_refs. destruct (m_main db !! h) as [[w n]|] eqn:E; [by apply (Hm _ _ E)|].
  unfold is_word. lia.
Qed.

Lemma mem_refs_insert h v db h' :
  mem_valid db -> mem_refs (Mem.insert h v db) h' = if decide (h = h') then u32 (mem_refs db h + 1) else mem_refs db h'.
Proof.
  intros _. unfold mem_refs, Mem.insert. cbn [m_main set_main].
  case_decide; destruct (m_main db !! h) as [[w n]|] eqn:E; subst.
  1,2: by rewrite lookup_insert_eq. all: by rewrite lookup_insert_ne.
Qed.

Lemma mem_refs_kill h db h' :
  mem_valid db -> mem_refs (Mem.kill h db).2 h' = if decide (h = h') then Z.max 0 (mem_refs db h - 1) else mem_refs db h'.
Proof.
  intros Hv. pose proof (mem_refs_range db h Hv) as R. unfold is_word in R.
  unfold Mem.kill, mem_refs in *. destruct (m_main db !! h) as [[w n]|] eqn:E.
  - case_decide as Hn; cbn [snd m_main set_main].
    + case_decide; subst; [rewrite lookup_insert_eq; lia|by rewrite lookup_insert_ne].
    + case_decide; subst; [rewrite E; lia|done].
  - cbn. case_decide; subst; [by rewrite E|done].
Qed.

Lemma mem_kill_aux h db : m_aux (Mem.kill h db).2 = m_aux db /\ m_enforceRefs (Mem.kill h db).2 = m_enforceRefs db.
Proof. unfold Mem.kill. destruct (m_main db !! h) as [[w n]|]; [|done]. by case_decide. Qed.

Lemma mem_lookupAux_kill h db h' : Mem.lookupAux (Mem.kill h db).2 h' = Mem.lookupAux db h'.
Proof. destruct (mem_kill_aux h db) as [E1 E2]. unfold Mem.lookupAux. by rewrite E1, E2. Qed.

Lemma mem_lookupAux_insertAux h v db h' :
  mem_valid db -> Mem.lookupAux (Mem.insertAux h v db) h' = if decide (h = h') then v else Mem.lookupAux db h'.
Proof.
  intros [He _]. unfold Mem.lookupAux, Mem.insertAux. cbn. rewrite He. cbn.
  case_decide; [subst; by rewrite lookup_insert_eq|by rewrite lookup_insert_ne].
Qed.

#[export] Program Instance memory_laws : BackendLaws MemoryDB := { db_valid := mem_valid }.
Next Obligation. apply mem_valid_insert. Qed.
Next Obligation. apply mem_kill_valid. Qed.
Next Obligation. intros. by apply mem_lookup_insert. Qed.
Next Obligation. apply mem_lookup_kill. Qed.
Next Obligation. intros. by apply mem_exists_lookup. Qed.
Next Obligation. apply mem_refs_range. Qed.
Next Obligation. apply mem_refs_insert. Qed.
Next Obligation. apply mem_refs_kill. Qed.
Next Obligation. done. Qed.
Next Obligation. done. Qed.
Next Obligation. done. Qed.
Next Obligation. intros. by apply mem_lookupAux_insertAux. Qed.
Next Obligation. done. Qed.
Next Obligation. apply mem_lookupAux_kill. Qed.

#[export] Program Instance overlay_laws {L : LevelDB} : BackendLaws (OverlayDB L) := { db_valid := fun db => mem_valid (o_mem db) }.
Next Obligation. intros. by apply mem_valid_insert. Qed.
Next Obligation. intros. by apply mem_kill_valid. Qed.
Next Obligation.
  intros L h v db h' Hv Hne. cbn. unfold Overlay.lookup. cbn. rewrite mem_lookup_insert by done.
  destruct (decide (h = h')); [by rewrite decide_False|done].
Qed.
Next Obligation. intros L h db h' Hv. cbn. unfold Overlay.lookup. cbn. by rewrite mem_lookup_kill. Qed.
Next Obligation.
  intros L db h Hv Hl. cbn in *. unfold Overlay.lookup, Overlay.exists_, Overlay.disk_get in *.
  destruct (Mem.exists_ (o_mem db) h) eqn:E; [done|]. apply bool_decide_eq_true_2. case_decide as Em.
  - destruct (m_db db); [done|]. by rewrite Em in Hl.
  - by rewrite (mem_exists_lookup _ _ Em) in E.
Qed.
Next Obligation. intros. by apply mem_refs_range. Qed.
Next Obligation. intros. by apply mem_refs_insert. Qed.
Next Obligation. intros. by apply mem_refs_kill. Qed.
Next Obligation. done. Qed.
Next Obligation. done. Qed.
Next Obligation. done. Qed.
Next Obligation.
  intros L h v db h' Hv Hne. cbn. unfold Overlay.lookupAux, Overlay.disk_get. cbn. rewrite mem_lookupAux_insertAux by done.
  destruct (decide (h = h')); [|done]. rewrite decide_True; [done|]. left. by apply Hne.
Qed.
Next Obligation. done. Qed.
Next Obligation. intros L h db h'. cbn. unfold Overlay.lookupAux, Overlay.disk_get. cbn. by rewrite mem_lookupAux_kill. Qed.
