(* ===== verification/TrieDB.v ===== *)
(** * libdevcore/TrieDB.h: GenericTrieDB, the Merkle Patricia trie on a database

    The trie is a state over any database of the class [Backend].  Nodes are bytes, read and
    written with the operations of RLP.  A local RLPStream is a value that the operations of the
    stream replace.  The recursion of at, mergeAt and deleteAt is bounded by a fuel; every two
    calls take at least one nibble off the key or meet a smaller node, so [trie_fuel] is enough
    (TrieClaims).  [m_fault] is a history variable without influence: it records that a hash
    was already the name of other bytes in the database, or that a reference counter was full. *)

From stdpp Require Import gmap.
From S2P Require Import Prelude Words Exn Rlp TrieCommon MemoryDB.

#[local] Open Scope Z_scope.

(** ** Local streams *)

Definition on_stream (m : M RLPStream unit) (s : RLPStream) : res RLPStream :=
  match m s with
  | (s', inl _) => inl s'
  | (_, inr e) => inr e
  end.

(** [RLPStream s(n)] *)
Definition stream_list (n : Z) : res RLPStream := on_stream (appendList n) new_stream.
(** [s << rlp], [s.appendRaw(bytes)] *)
Definition append_item (d : list Z) (s : RLPStream) : res RLPStream := on_stream (appendRaw d 1) s.
(** [s << string], [s << bytes], [s << hash] *)
Definition append_str (d : list Z) (s : RLPStream) : res RLPStream := on_stream (append d false) s.
Definition stream_out (s : RLPStream) : res (list Z) := (out s).2.

(** [rlpList(a, b)] *)
Definition rlpList2 (a b : RLPStream -> res RLPStream) : res (list Z) :=
  s ← stream_list 2; s ← a s; s ← b s; stream_out s.

Definition RLPNull : list Z := [0x80].

Record GenericTrieDB {DB : Type} := mkTrie {
  t_db : DB;
  m_root : h256;
  m_rootCache : list h256;
  m_fault : bool
}.
Arguments GenericTrieDB : clear implicits.
Arguments mkTrie {DB}.

Inductive Verification := Skip | Normal.

Section Trie.
Context {DB : Type} {B : Backend DB} {Api : Sha3Api}.

Abbreviation T := (M (GenericTrieDB DB)).

Definition EmptyTrie : h256 := SHA3_256 RLPNull.

Definition set_db (db : DB) (s : GenericTrieDB DB) := mkTrie db (m_root s) (m_rootCache s) (m_fault s).
Definition set_root (r : h256) (s : GenericTrieDB DB) := mkTrie (t_db s) r (m_rootCache s) (m_fault s).
Definition set_rootCache (c : list h256) (s : GenericTrieDB DB) := mkTrie (t_db s) (m_root s) c (m_fault s).

(** [a && b], [b] evaluated when [a] holds *)
Definition and_also (a : bool) (b : T bool) : T bool := if a then b else mret false.
Definition or_else (a : bool) (b : T bool) : T bool := if a then mret true else b.

(** ** Nodes in the database *)

Definition node (h : h256) : T (list Z) := s ← get_st; mret (db_lookup (t_db s) h).

(** The name is taken by other bytes, or the counter is full *)
Definition insert_fault (db : DB) (h : h256) (v : list Z) : bool :=
  bool_decide ((db_lookup db h <> [] /\ db_lookup db h <> v) \/ db_refs db h = 2 ^ 32 - 1).

Definition forceInsertNode (v : list Z) : T h256 :=
  let h := SHA3_256 v in
  update_st (fun s => mkTrie (db_insert h v (t_db s)) (m_root s) (m_rootCache s)
                             (m_fault s || insert_fault (t_db s) h v));;
  mret h.

Definition forceKillNode (h : h256) : T unit := update_st (fun s => set_db (db_kill h (t_db s)) s).

Definition killNode (d : list Z) (h : h256) : T unit :=
  if decide (32 <= length d)%nat then forceKillNode h else mret tt.
(** [killNode(_d)] *)
Definition killNode_ (d : list Z) : T unit := killNode d (SHA3_256 d).

Definition streamNode (s : RLPStream) (b : list Z) : T RLPStream :=
  if decide (length b < 32)%nat then lift (append_item b s)
  else h ← forceInsertNode b; lift (append_str h s).

(** The node that an item refers to: the item itself or the hash of it *)
Definition deref (n : list Z) : T (list Z) :=
  if isList n then mret n else h ← lift (toHash 32 n Strict); node h.

(** [r.isList() ? r : RLP(node(r.toHash<h256>()))] *)
Definition follow (n : list Z) : T (list Z) :=
  if isList n then mret n else h ← lift (toHash 32 n Strict); s ← node h; lift (RLP s VeryStrict).

Definition isTwoItemNode (n : list Z) : T bool :=
  a ← (if isData n then h ← lift (toHash 32 n Strict); s ← node h; r ← lift (RLP s VeryStrict);
         c ← lift (itemCount r); mret (bool_decide (c = 2))
       else mret false);
  or_else a (and_also (isList n) (c ← lift (itemCount n); mret (bool_decide (c = 2)))).

(** [for (i in js) r << _orig[i]] with [f] in place of the append where it is given *)
Fixpoint stream_items (f : nat -> option (RLPStream -> T RLPStream)) (orig : list Z) (js : list nat)
    (r : RLPStream) : T RLPStream :=
  match js with
  | [] => mret r
  | i :: js =>
      r ← match f i with
          | Some g => g r
          | None => x ← lift (rlp_at orig (Z.of_nat i)); lift (append_item x r)
          end;
      stream_items f orig js r
  end.
Definition no_change : nat -> option (RLPStream -> T RLPStream) := fun _ => None.
Definition change_at (n : Z) (g : RLPStream -> T RLPStream) : nat -> option (RLPStream -> T RLPStream) :=
  fun i => if decide (Z.of_nat i = n) then Some g else None.

(** ** Rewriting nodes *)

Definition place (orig : list Z) (k : NibbleSlice) (s : list Z) : T (list Z) :=
  killNode_ orig;;
  if isEmpty orig then lift (rlpList2 (append_str (hexPrefixSlice k true 0 (-1))) (append_str s))
  else
    c ← lift (itemCount orig);
    if decide (c = 2) then o ← lift (rlp_at orig 0); lift (rlpList2 (append_item o) (append_str s))
    else
      r ← lift (stream_list 17);
      r ← stream_items no_change orig (seq 0 16) r;
      r ← lift (append_str s r);
      lift (stream_out r).

(** [remove(RLP const&)] *)
Definition remove_ (orig : list Z) : T (list Z) :=
  killNode_ orig;;
  c ← lift (itemCount orig);
  if decide (c = 2) then mret RLPNull
  else
    r ← lift (stream_list 17);
    r ← stream_items no_change orig (seq 0 16) r;
    r ← lift (append_str [] r);
    lift (stream_out r).

Definition cleve (orig : list Z) (s : nat) : T (list Z) :=
  killNode_ orig;;
  k ← lift (keyOf orig);
  leaf ← lift (isLeaf orig);
  o1 ← lift (rlp_at orig 1);
  bottom ← lift (rlpList2 (append_str (hexPrefixSlice k leaf (Z.of_nat s) (-1))) (append_item o1));
  top ← lift (stream_list 2);
  top ← lift (append_str (hexPrefixSlice k false 0 (Z.of_nat s)) top);
  top ← streamNode top bottom;
  lift (stream_out top).

Definition graft (orig : list Z) : T (list Z) :=
  o1 ← lift (rlp_at orig 1);
  n ← (if isList o1 then mret o1
       else
         lh ← lift (toHash 32 o1 Strict);
         s ← node lh;
         forceKillNode lh;;
         lift (RLP s VeryStrict));
  k1 ← lift (keyOf orig);
  k2 ← lift (keyOf n);
  leaf ← lift (isLeaf n);
  n1 ← lift (rlp_at n 1);
  lift (rlpList2 (append_str (hexPrefixSlice2 k1 k2 leaf)) (append_item n1)).

Definition merge (orig : list Z) (i : Z) : T (list Z) :=
  s ← lift (stream_list 2);
  s ← lift (if decide (i <> 16) then append_str (hexPrefixEncode [i] false 1 2 0) s
            else append_str (hexPrefixVector [] true 0 (-1)) s);
  x ← lift (rlp_at orig i);
  s ← lift (append_item x s);
  lift (stream_out s).

(** The items of the new branch; [x] is what stands at the first nibble of the key *)
Fixpoint branch_items (b : Z) (x : RLPStream -> T RLPStream) (js : list nat) (r : RLPStream) : T RLPStream :=
  match js with
  | [] => mret r
  | i :: js =>
      r ← (if decide (Z.of_nat i = b) then x r else lift (append_str [] r));
      branch_items b x js r
  end.

Definition branch (orig : list Z) : T (list Z) :=
  killNode_ orig;;
  k ← lift (keyOf orig);
  r ← lift (stream_list 17);
  r ← (if decide (slice_size k = 0%nat) then
         r ← branch_items 255 (fun r => mret r) (seq 0 16) r;
         o1 ← lift (rlp_at orig 1);
         lift (append_item o1 r)
       else
         b ← lift (slice_at k 0);
         r ← branch_items b (fun r =>
               leaf ← lift (isLeaf orig);
               o1 ← lift (rlp_at orig 1);
               if (leaf : bool) || bool_decide (1 < slice_size k)%nat then
                 n ← lift (rlpList2 (append_str (hexPrefixSlice (mid k 1) leaf 0 (-1))) (append_item o1));
                 streamNode r n
               else lift (append_item o1 r)) (seq 0 16) r;
         lift (append_str [] r));
  lift (stream_out r).

(** ** at *)

Fixpoint atAux (fuel : nat) (here : list Z) (key : NibbleSlice) : T (list Z) :=
  match fuel with
  | O => throw out_of_fuel
  | S fuel =>
      if isEmpty here || isNull here then mret []
      else
        c ← lift (itemCount here);
        if decide (c = 2) then
          k ← lift (keyOf here);
          us ← and_also (slice_eqb key k) (lift (isLeaf here));
          if us : bool then r ← lift (rlp_at here 1); lift (toString r LaissezFaire)
          else
            down ← and_also (contains key k) (b ← lift (isLeaf here); mret (negb b));
            if down : bool then
              r ← lift (rlp_at here 1);
              n ← follow r;
              atAux fuel n (mid key (slice_size k))
            else mret []
        else if decide (slice_size key = 0%nat) then r ← lift (rlp_at here 16); lift (toString r LaissezFaire)
        else
          b ← lift (slice_at key 0);
          n ← lift (rlp_at here b);
          if isEmpty n then mret []
          else m ← follow n; atAux fuel m (mid key 1)
  end.

(** ** insert *)

(** [recur] is [mergeAt(_orig, _k, _v, _inLine)] *)
Definition mergeAtAux (recur : list Z -> NibbleSlice -> bool -> T (list Z))
    (out : RLPStream) (orig : list Z) (k : NibbleSlice) : T RLPStream :=
  p ← (if negb (isList orig) && negb (isEmpty orig) then
         h ← lift (toHash 32 orig Strict);
         s ← node h;
         r ← lift (RLP s VeryStrict);
         mret (r, true)
       else mret (orig, false));
  let '(r, isRemovable) := p : list Z * bool in
  b ← recur r k (negb isRemovable);
  streamNode out b.

Fixpoint mergeAt (fuel : nat) (orig : list Z) (origHash : h256) (k : NibbleSlice) (v : list Z)
    (inLine : bool) : T (list Z) :=
  match fuel with
  | O => throw out_of_fuel
  | S fuel =>
      let recur orig k inLine := mergeAt fuel orig (SHA3_256 orig) k v inLine in
      if isEmpty orig then place orig k v
      else
        c ← lift (itemCount orig);
        if decide (c = 2) then
          ok ← lift (keyOf orig);
          exact ← and_also (slice_eqb ok k) (lift (isLeaf orig));
          if exact : bool then place orig k v
          else
            down ← and_also (contains k ok) (b ← lift (isLeaf orig); mret (negb b));
            if down : bool then
              (if inLine then mret tt else killNode orig origHash);;
              s ← lift (stream_list 2);
              o0 ← lift (rlp_at orig 0);
              s ← lift (append_item o0 s);
              o1 ← lift (rlp_at orig 1);
              s ← mergeAtAux recur s o1 (mid k (slice_size ok));
              lift (stream_out s)
            else
              let sh := shared k ok in
              if decide (sh <> 0%nat) then
                cleved ← cleve orig sh;
                r ← lift (RLP cleved VeryStrict);
                recur r k true
              else
                branched ← branch orig;
                r ← lift (RLP branched VeryStrict);
                recur r k true
        else if decide (slice_size k = 0%nat) then place orig k v
        else
          (if inLine then mret tt else killNode orig origHash);;
          n ← lift (slice_at k 0);
          r ← lift (stream_list 17);
          r ← stream_items (change_at n (fun r => x ← lift (rlp_at orig n); mergeAtAux recur r x (mid k 1)))
                orig (seq 0 17) r;
          lift (stream_out r)
  end.

(** Two calls for each nibble of the key, and two at the end *)
Definition trie_fuel (key : list Z) : nat := 4 * length key + 2.

Definition at_key (key : list Z) : T (list Z) :=
  s ← get_st;
  n ← node (m_root s);
  r ← lift (RLP n VeryStrict);
  atAux (trie_fuel key) r (mkSlice key 0).

Definition insert (key value : list Z) : T unit :=
  s ← get_st;
  rootValue ← node (m_root s);
  r ← lift (RLP rootValue VeryStrict);
  b ← mergeAt (trie_fuel key) r (m_root s) (mkSlice key 0) value false;
  (if decide (length rootValue < 32)%nat then forceKillNode (m_root s) else mret tt);;
  h ← forceInsertNode b;
  update_st (set_root h).

(** ** remove *)

(** No node when the key did not turn up; [recur] is [deleteAt] *)
Definition deleteAtAux (recur : list Z -> NibbleSlice -> T (list Z)) (out : RLPStream) (orig : list Z)
    (k : NibbleSlice) : T (option RLPStream) :=
  b ← (if isEmpty orig then mret [] else n ← follow orig; recur n k);
  if decide (b = []) then mret None
  else r ← streamNode out b; mret (Some r).

(** The loop over the items of a branch, left when the key did not turn up *)
Fixpoint delete_items (n : Z) (g : RLPStream -> T (option RLPStream)) (orig : list Z) (js : list nat)
    (r : RLPStream) : T (option RLPStream) :=
  match js with
  | [] => mret (Some r)
  | i :: js =>
      o ← (if decide (Z.of_nat i = n) then g r
           else x ← lift (rlp_at orig (Z.of_nat i)); r ← lift (append_item x r); mret (Some r));
      match o with
      | Some r => delete_items n g orig js r
      | None => mret None
      end
  end.

(** The item that is left goes up into its parent *)
Definition merge_up (orig : list Z) (used : Z) : T (list Z) :=
  x ← lift (rlp_at orig used);
  two ← isTwoItemNode x;
  if two : bool then
    merged ← merge orig used;
    r ← lift (RLP merged VeryStrict);
    graft r
  else merge orig used.

Fixpoint deleteAt (fuel : nat) (orig : list Z) (k : NibbleSlice) : T (list Z) :=
  match fuel with
  | O => throw out_of_fuel
  | S fuel =>
      if isEmpty orig then mret []
      else
        c ← lift (itemCount orig);
        if decide (c = 2) then
          ok ← lift (keyOf orig);
          exact ← and_also (slice_eqb ok k) (lift (isLeaf orig));
          if exact : bool then killNode_ orig;; mret RLPNull
          else if contains k ok then
            s ← lift (stream_list 2);
            o0 ← lift (rlp_at orig 0);
            s ← lift (append_item o0 s);
            o1 ← lift (rlp_at orig 1);
            o ← deleteAtAux (deleteAt fuel) s o1 (mid k (slice_size ok));
            match o with
            | None => mret []
            | Some s =>
                killNode_ orig;;
                d ← lift (stream_out s);
                r ← lift (RLP d VeryStrict);
                r1 ← lift (rlp_at r 1);
                two ← isTwoItemNode r1;
                if two : bool then graft r else mret d
            end
          else mret []
        else
          o16 ← (if decide (slice_size k = 0%nat) then lift (rlp_at orig 16) else mret RLPNull);
          if negb (isEmpty o16) then
            killNode_ orig;;
            used ← lift (uniqueInUse orig 16);
            if decide (used <> 255) then merge_up orig used
            else
              r ← lift (stream_list 17);
              r ← stream_items no_change orig (seq 0 16) r;
              r ← lift (append_str [] r);
              lift (stream_out r)
          else
            r ← lift (stream_list 17);
            n ← lift (slice_at k 0);
            o ← delete_items n (fun r => x ← lift (rlp_at orig n); deleteAtAux (deleteAt fuel) r x (mid k 1))
                  orig (seq 0 17) r;
            match o with
            | None => mret []
            | Some r =>
                killNode_ orig;;
                d ← lift (stream_out r);
                rlp ← lift (RLP d VeryStrict);
                used ← lift (uniqueInUse rlp 255);
                if decide (used = 255) then mret d else merge_up rlp used
            end
  end.

Definition remove (key : list Z) : T unit :=
  s ← get_st;
  rv ← node (m_root s);
  r ← lift (RLP rv VeryStrict);
  b ← deleteAt (trie_fuel key) r (mkSlice key 0);
  if decide (b <> []) then
    (if decide (length rv < 32)%nat then forceKillNode (m_root s) else mret tt);;
    h ← forceInsertNode b;
    update_st (set_root h)
  else mret tt.

Definition contains_key (key : list Z) : T bool := v ← at_key key; mret (bool_decide (v <> [])).

(** ** Opening *)

(** init and setRoot call each other; the second call finds the root *)
Fixpoint setRoot (fuel : nat) (root : h256) (v : Verification) : T unit :=
  match fuel with
  | O => throw out_of_fuel
  | S fuel =>
      update_st (set_root root);;
      match v with
      | Skip => mret tt
      | Normal =>
          s ← get_st;
          (if bool_decide (root = EmptyTrie) && negb (db_exists (t_db s) root) then
             h ← forceInsertNode RLPNull; setRoot fuel h Normal
           else mret tt);;
          s ← get_st;
          n ← node (m_root s);
          if decide (n = []) then throw RootNotFound else mret tt
      end
  end.
Definition init : T unit := h ← forceInsertNode RLPNull; setRoot 2 h Normal.

Definition isNull_ : T bool := s ← get_st; n ← node (m_root s); mret (bool_decide (n = [])).
Definition isEmpty_ : T bool :=
  s ← get_st; and_also (bool_decide (m_root s = EmptyTrie)) (n ← node (m_root s); mret (bool_decide (n <> []))).
Definition root : T h256 :=
  s ← get_st; n ← node (m_root s); if decide (n = []) then throw BadRoot else mret (m_root s).

(** ** Insertion below the 16 children of the root *)

(** The loop of prepareForMultiThread: the hashes of the children *)
Fixpoint cache_children (root : list Z) (js : list nat) : T bool :=
  match js with
  | [] => mret true
  | i :: js =>
      x ← lift (rlp_at root (Z.of_nat i));
      n ← (if isData x then lift (size_ x) else mret 0);
      if decide (n = 32) then
        h ← lift (toBytes x LaissezFaire);
        update_st (fun s => set_rootCache (m_rootCache s ++ [h]) s);;
        cache_children root js
      else update_st (set_rootCache []);; mret false
  end.

Definition prepareForMultiThread : T bool :=
  update_st (set_rootCache []);;
  s ← get_st;
  rootContent ← node (m_root s);
  r ← lift (RLP rootContent VeryStrict);
  c ← lift (itemCount r);
  if decide (c = 17) then
    ok ← cache_children r (seq 0 16);
    if ok : bool then x ← lift (rlp_at r 16); mret (isEmpty x) else mret false
  else mret true.

Definition insertAtBranch (key value : list Z) : T unit :=
  s ← get_st;
  match key with
  | [] => throw undefined_behaviour
  | b :: _ =>
      let branchNum := Z.to_nat (b .>> 4) in
      match m_rootCache s !! branchNum with
      | None => throw undefined_behaviour
      | Some h =>
          branchRootValue ← node h;
          r ← lift (RLP branchRootValue VeryStrict);
          n ← mergeAt (trie_fuel key) r h (mkSlice key 1) value false;
          h' ← forceInsertNode n;
          update_st (fun s => set_rootCache (<[branchNum := h']> (m_rootCache s)) s)
      end
  end.

Fixpoint append_hashes (l : list h256) (s : RLPStream) : res RLPStream :=
  match l with
  | [] => mret s
  | h :: l => s ← append_str h s; append_hashes l s
  end.

Definition finishMultiThread : T unit :=
  s ← get_st;
  if decide (length (m_rootCache s) < 16)%nat then throw undefined_behaviour
  else
    r ← lift (stream_list 17);
    r ← lift (append_hashes (take 16 (m_rootCache s)) r);
    r ← lift (append_str [] r);
    forceKillNode (m_root s);;
    b ← lift (stream_out r);
    h ← forceInsertNode b;
    update_st (set_root h).

(** ** Hashed keys: HashedGenericTrieDB, and FatGenericTrieDB, which keeps the keys *)

Definition hashed_at (key : list Z) : T (list Z) := at_key (SHA3_256 key).
Definition hashed_contains (key : list Z) : T bool := contains_key (SHA3_256 key).
Definition hashed_insert (key value : list Z) : T unit := insert (SHA3_256 key) value.
Definition hashed_remove (key : list Z) : T unit := remove (SHA3_256 key).

Definition insertAux (h : h256) (v : list Z) : T unit := update_st (fun s => set_db (db_insertAux h v (t_db s)) s).

Definition fat_at (key : list Z) : T (list Z) := at_key (SHA3_256 key).
Definition fat_contains (key : list Z) : T bool := contains_key (SHA3_256 key).
Definition fat_insert (key value : list Z) : T unit :=
  let hash := SHA3_256 key in
  insert hash value;;
  insertAux hash key.
Definition fat_insertAtBranch (key value : list Z) : T unit :=
  let hash := SHA3_256 key in
  insertAtBranch hash value;;
  insertAux hash key.
Definition fat_remove (key : list Z) : T unit := remove (SHA3_256 key).
End Trie.
