(* ===== verification/TrieKeys.v ===== *)
(** * Keys as lists of nibbles

    A slice stands for the list of its nibbles, and the hex-prefix forms are one function [hp] of
    that list and the leaf flag, from which the key and the flag are read back. *)

From stdpp Require Import gmap.
From S2P Require Import Prelude Words Exn Rlp RlpSpec TrieCommon.

#[local] Set Warnings "-register-all".

#[local] Open Scope Z_scope.

Abbreviation nibs := (Forall (fun x : Z => 0 <= x < 16)).

Definition nibbles (d : list Z) : list Z := d ≫= fun b => [b .>> 4; b .& 15].
Definition slice_nibs (s : NibbleSlice) : list Z := drop (offset s) (nibbles (data s)).

(** The number of leading elements that agree *)
Fixpoint lcp (a b : list Z) : nat :=
  match a, b with
  | x :: a, y :: b => if decide (x = y) then S (lcp a b) else 0
  | _, _ => 0
  end.

(** ** Nibbles of bytes *)

Lemma length_nibbles d : length (nibbles d) = (2 * length d)%nat.
Proof. unfold nibbles. induction d; cbn in *; lia. Qed.

Lemma nibbles_cons b d : nibbles (b :: d) = b .>> 4 :: b .& 15 :: nibbles d.
Proof. done. Qed.

Lemma nibbles_app d1 d2 : nibbles (d1 ++ d2) = nibbles d1 ++ nibbles d2.
Proof. unfold nibbles. by rewrite bind_app. Qed.

Lemma byte_nibbles b : is_byte b -> 0 <= b .>> 4 < 16 /\ 0 <= b .& 15 < 16 /\ b = 16 * (b .>> 4) + (b .& 15).
Proof.
  intros Hb. unfold is_word in Hb. rewrite Z.shiftr_div_pow2 by done. change 15 with (Z.ones 4). rewrite Z.land_ones by done.
  change (2 ^ 4) with 16. pose proof (Z.div_mod b 16 ltac:(done)). pose proof (Z.mod_pos_bound b 16 ltac:(done)). lia.
Qed.

Lemma nibbles_nibs d : bytes d -> nibs (nibbles d).
Proof.
  induction 1 as [|b d Hb Hd IH]; [constructor|]. rewrite nibbles_cons. destruct (byte_nibbles b Hb) as (? & ? & _).
  constructor; [done|]. by constructor.
Qed.

Lemma nibble_lookup d i : (i < 2 * length d)%nat -> nibbles d !! i = Some (nibble d i).
Proof.
  revert i. induction d as [|b d IH]; intros i Hi; [cbn in Hi; lia|]. rewrite nibbles_cons.
  destruct i as [|[|i]]; [done..|]. cbn [lookup list_lookup]. rewrite IH by (cbn in Hi; lia). f_equal.
  unfold nibble. change (Nat.odd (S (S i))) with (Nat.odd i).
  replace (S (S i) / 2)%nat with (S (i / 2)) by (change (S (S i)) with (1 * 2 + i)%nat; by rewrite Nat.div_add_l).
  done.
Qed.

(** ** Slices *)

Lemma slice_size_nibs s : slice_size s = length (slice_nibs s).
Proof. unfold slice_size, slice_nibs. by rewrite length_drop, length_nibbles. Qed.

Lemma mid_nibs s i : slice_nibs (mid s i) = drop i (slice_nibs s).
Proof. unfold slice_nibs, mid. cbn. by rewrite drop_drop. Qed.

Lemma slice_at_nibs s i x : slice_nibs s !! i = Some x -> slice_at s i = inl x.
Proof.
  unfold slice_nibs, slice_at. rewrite lookup_drop. intros H.
  pose proof (lookup_lt_Some _ _ _ H) as Hl. rewrite length_nibbles in Hl. rewrite decide_True by done.
  rewrite nibble_lookup in H by done. by injection H as ->.
Qed.

Lemma drop_nibble d i x l : drop i (nibbles d) = x :: l -> (i < 2 * length d)%nat /\ nibble d i = x /\ drop (S i) (nibbles d) = l.
Proof.
  intros H. assert (Hl : nibbles d !! i = Some x) by (rewrite <-(Nat.add_0_r i), <-lookup_drop, H; done).
  pose proof (lookup_lt_Some _ _ _ Hl) as Hlt. rewrite length_nibbles in Hlt. split_and!; [done| |].
  - rewrite nibble_lookup in Hl by done. by injection Hl.
  - apply drop_S in Hl. rewrite H in Hl. by injection Hl.
Qed.

Lemma shared_loop_spec fuel d1 b1 d2 b2 ret :
  (2 * length d1 - b1 <= fuel)%nat ->
  shared_loop fuel d1 b1 (2 * length d1) d2 b2 (2 * length d2) ret =
    (ret + lcp (drop b1 (nibbles d1)) (drop b2 (nibbles d2)))%nat.
Proof.
  revert b1 b2 ret. induction fuel as [|fuel IH]; intros b1 b2 ret Hf; cbn [shared_loop].
  - rewrite drop_ge by (rewrite length_nibbles; lia). cbn. lia.
  - case_decide as Hb.
    + destruct (drop b1 (nibbles d1)) as [|x l1] eqn:E1.
      { apply (f_equal length) in E1. rewrite length_drop, length_nibbles in E1. cbn in E1. lia. }
      destruct (drop b2 (nibbles d2)) as [|y l2] eqn:E2.
      { apply (f_equal length) in E2. rewrite length_drop, length_nibbles in E2. cbn in E2. lia. }
      apply drop_nibble in E1 as (? & -> & E1). apply drop_nibble in E2 as (? & -> & E2). cbn [lcp]. case_decide; [|lia].
      rewrite IH by lia. rewrite E1, E2. lia.
    + destruct (decide (b1 < 2 * length d1)%nat).
      * rewrite (drop_ge (nibbles d2)) by (rewrite length_nibbles; lia). by destruct (drop b1 (nibbles d1)).
      * rewrite drop_ge by (rewrite length_nibbles; lia). cbn. lia.
Qed.

(** A slice that starts in its data *)
Definition slice_ok (s : NibbleSlice) : Prop := (offset s <= 2 * length (data s))%nat /\ bytes (data s).

Lemma slice_nibs_nibs s : slice_ok s -> nibs (slice_nibs s).
Proof. intros [_ Hb]. by apply Forall_drop, nibbles_nibs. Qed.

Lemma mid_ok s i : slice_ok s -> (i <= length (slice_nibs s))%nat -> slice_ok (mid s i).
Proof.
  intros [Ho Hb] Hi. split; [|done]. cbn. unfold slice_nibs in Hi. rewrite length_drop, length_nibbles in Hi. lia.
Qed.

Lemma shared_nibs s k : slice_ok s -> slice_ok k -> shared s k = lcp (slice_nibs s) (slice_nibs k).
Proof.
  intros [Hs _] [Hk _]. unfold shared, sharedNibbles, slice_size.
  replace (offset s + (2 * length (data s) - offset s))%nat with (2 * length (data s))%nat by lia.
  replace (offset k + (2 * length (data k) - offset k))%nat with (2 * length (data k))%nat by lia.
  by rewrite shared_loop_spec.
Qed.

Lemma lcp_prefix a b : lcp a b = length b <-> b `prefix_of` a.
Proof.
  split.
  - revert a. induction b as [|y b IH]; intros a H; [apply prefix_nil|].
    destruct a as [|x a]; [done|]. cbn in H. case_decide; [|done]. subst. apply prefix_cons, IH. lia.
  - intros [k ->]. induction b as [|y b IH]; cbn; [by destruct k|]. rewrite decide_True by done. lia.
Qed.

Lemma contains_nibs s k : slice_ok s -> slice_ok k -> contains s k = bool_decide (slice_nibs k `prefix_of` slice_nibs s).
Proof.
  intros Hs Hk. unfold contains. rewrite shared_nibs, slice_size_nibs by done.
  apply bool_decide_ext. apply lcp_prefix.
Qed.

Lemma slice_eqb_nibs s k : slice_ok s -> slice_ok k -> slice_eqb s k = bool_decide (slice_nibs s = slice_nibs k).
Proof.
  intros Hs Hk. unfold slice_eqb. rewrite shared_nibs, !slice_size_nibs by done. apply eq_true_iff_eq.
  rewrite andb_true_iff, !bool_decide_eq_true, lcp_prefix. split.
  - intros [Hl [l E]]. rewrite E in *. rewrite length_app in Hl. destruct l; [by rewrite app_nil_r|cbn in Hl; lia].
  - intros ->. split; [done|]. done.
Qed.

Lemma lcp_take a b n : (n <= lcp a b)%nat -> take n a = take n b.
Proof.
  revert a b. induction n as [|n IH]; intros a b Hn; [done|].
  destruct a as [|x a], b as [|y b]; cbn in *; try lia; try done. case_decide; [|lia]. subst. f_equal. apply IH. lia.
Qed.

Lemma lcp_split a b : exists p a' b', a = p ++ a' /\ b = p ++ b' /\ length p = lcp a b /\
  match a', b' with x :: _, y :: _ => x <> y | _, _ => True end.
Proof.
  revert b. induction a as [|x a IH]; intros b; [exists [], [], b; done|]. destruct b as [|y b]; [exists [], (x :: a), []; done|].
  cbn. case_decide as E; [|exists [], (x :: a), (y :: b); done]. subst.
  destruct (IH b) as (p & a' & b' & -> & -> & <- & H). by exists (y :: p), a', b'.
Qed.

(** ** Hex prefix *)

Lemma lor_shiftl4_add x y : 0 <= x < 16 -> (x .| (y .<< 4)) = x + 16 * y.
Proof.
  intros Hx. assert (Ez : (x .& (y .<< 4)) = 0).
  { bitwise. destruct (decide (i < 4)).
    - rewrite (Z.testbit_neg_r y) by lia. apply andb_false_r.
    - by rewrite (is_word_high 4 x) by (done || lia). }
  rewrite <-Z.lxor_lor, <-Z.add_nocarry_lxor by done. rewrite Z.shiftl_mul_pow2 by lia. lia.
Qed.

(** The loop as a function of the nibbles that it reads *)
Fixpoint pack (d : nat) (ret ks : list Z) : nat * list Z :=
  match ks with
  | [] => (d, ret)
  | x :: ks => pack (S d) (if Nat.odd d then or_back x ret else ret ++ [u8 (x .<< 4)]) ks
  end.

Lemma hp_loop_pack n data i d ret :
  (i + n <= 2 * length data)%nat -> hp_loop n data i d ret = pack d ret (take n (drop i (nibbles data))).
Proof.
  revert i d ret. induction n as [|n IH]; intros i d ret Hn; [done|]. cbn [hp_loop].
  destruct (drop i (nibbles data)) as [|x l] eqn:E.
  { apply (f_equal length) in E. rewrite length_drop, length_nibbles in E. cbn in E. lia. }
  apply drop_nibble in E as (? & -> & E). rewrite IH by lia. by rewrite E.
Qed.

Lemma pack_app d ret k1 k2 : pack d ret (k1 ++ k2) = let '(d, ret) := pack d ret k1 in pack d ret k2.
Proof. revert d ret. induction k1 as [|x k1 IH]; intros d ret; [done|]. cbn. apply IH. Qed.

(** The hex-prefix form of a list of nibbles *)
Definition hp (leaf : bool) (ks : list Z) : list Z :=
  let odd := Nat.odd (length ks) in
  match ks with
  | x :: ks' => if odd then (hp_flags leaf odd .| x) :: hp_pairs ks' else hp_flags leaf odd :: hp_pairs ks
  | [] => [hp_flags leaf odd]
  end.

Lemma or_back_snoc l b n : or_back n (l ++ [b]) = l ++ [b .| n].
Proof. unfold or_back. rewrite reverse_snoc, reverse_cons, reverse_involutive. done. Qed.

Lemma pack_pairs d ret ks :
  Nat.even d -> Nat.even (length ks) -> nibs ks -> (pack d ret ks).2 = ret ++ hp_pairs ks.
Proof.
  revert d ret. remember (length ks) as n eqn:En. revert ks En.
  induction n as [n IH] using (well_founded_induction lt_wf). intros ks -> d ret Hd He Hk.
  destruct ks as [|x [|y ks]]; [by rewrite app_nil_r|done|]. cbn [pack hp_pairs].
  apply Forall_cons_1 in Hk as [Hx [Hy Hks]%Forall_cons_1].
  assert (Ed : Nat.odd d = false) by (rewrite <-Nat.negb_even; destruct (Nat.even d); done).
  assert (Ed' : Nat.odd (S d) = true) by (rewrite Nat.odd_succ; by destruct (Nat.even d)).
  rewrite Ed, Ed', or_back_snoc.
  rewrite (IH (length ks)); [|cbn; lia|done|by rewrite Nat.even_succ_succ|done|done].
  rewrite <-app_assoc. cbn [app]. do 2 f_equal.
  rewrite !u8_id.
  - rewrite Z.lor_comm. rewrite lor_shiftl4_add by lia. lia.
  - unfold is_word; lia.
  - unfold is_word. rewrite Z.shiftl_mul_pow2 by done. lia.
Qed.

Lemma hp_flags_value leaf odd : hp_flags leaf odd = 16 * ((if leaf then 2 else 0) + (if odd then 1 else 0)).
Proof. by destruct leaf, odd. Qed.

Lemma pack_hp leaf ks :
  nibs ks -> (pack (if Nat.odd (length ks) then 1 else 2) [hp_flags leaf (Nat.odd (length ks))] ks).2 = hp leaf ks.
Proof.
  intros Hk. unfold hp. destruct (Nat.odd (length ks)) eqn:Eo.
  - destruct ks as [|x ks]; [done|]. cbn [pack]. change (Nat.odd 1) with true. cbn [fst].
    inversion Hk; subst. rewrite pack_pairs; [|done| |done].
    + change [hp_flags leaf true] with ([] ++ [hp_flags leaf true]). by rewrite or_back_snoc.
    + cbn [length] in Eo. rewrite Nat.odd_succ in Eo. by rewrite Eo.
  - assert (He : Nat.even (length ks)) by (rewrite <-Nat.negb_odd, Eo; done).
    rewrite pack_pairs by done. by destruct ks.
Qed.

Lemma hp_eq leaf ks n : n = length ks -> nibs ks ->
  (pack (if Nat.odd n then 1 else 2) [hp_flags leaf (Nat.odd n)] ks).2 = hp leaf ks.
Proof. intros ->. apply pack_hp. Qed.

Lemma hexPrefixSlice_nibs s leaf b (e : nat) :
  slice_ok s -> (b <= e <= length (slice_nibs s))%nat ->
  hexPrefixSlice s leaf (Z.of_nat b) (Z.of_nat e) = hp leaf (take (e - b) (drop b (slice_nibs s))).
Proof.
  intros Hs Hb. pose proof (slice_nibs_nibs s Hs) as Hn. destruct Hs as [Ho Hd]. unfold slice_nibs in Hb.
  rewrite length_drop, length_nibbles in Hb. unfold hexPrefixSlice, hexPrefixEncode.
  rewrite decide_False, !Nat2Z.id by lia. replace (e + offset s - (b + offset s))%nat with (e - b)%nat by lia.
  rewrite hp_loop_pack by lia. unfold slice_nibs. rewrite drop_drop, (Nat.add_comm b). apply hp_eq.
  - rewrite length_take, length_drop, length_nibbles. lia.
  - by apply Forall_take, Forall_drop, nibbles_nibs.
Qed.

(** To the end of the slice *)
Lemma hexPrefixSlice_end s leaf b :
  slice_ok s -> (b <= length (slice_nibs s))%nat ->
  hexPrefixSlice s leaf (Z.of_nat b) (-1) = hp leaf (drop b (slice_nibs s)).
Proof.
  intros Hs Hb. pose proof (hexPrefixSlice_nibs s leaf b (length (slice_nibs s)) Hs) as H.
  rewrite take_ge in H by (rewrite length_drop; lia). rewrite <-H by lia.
  unfold hexPrefixSlice, hexPrefixEncode. rewrite decide_True, decide_False by lia.
  rewrite <-slice_size_nibs. unfold slice_size.
  by replace (Z.of_nat (2 * length (data s) - offset s) + 1 + -1) with (Z.of_nat (2 * length (data s) - offset s)) by lia.
Qed.

Lemma hexPrefixSlice_all s leaf : slice_ok s -> hexPrefixSlice s leaf 0 (-1) = hp leaf (slice_nibs s).
Proof. intros Hs. rewrite <-(drop_0 (slice_nibs s)). apply (hexPrefixSlice_end s leaf 0); [done|lia]. Qed.

Lemma hexPrefixSlice_front s leaf e :
  slice_ok s -> (e <= length (slice_nibs s))%nat -> hexPrefixSlice s leaf 0 (Z.of_nat e) = hp leaf (take e (slice_nibs s)).
Proof.
  intros Hs He. rewrite <-(drop_0 (slice_nibs s)). rewrite <-(Nat.sub_0_r e) at 2. apply (hexPrefixSlice_nibs s leaf 0); [done|lia].
Qed.

Lemma hexPrefixSlice2_nibs s1 s2 leaf :
  slice_ok s1 -> slice_ok s2 -> hexPrefixSlice2 s1 s2 leaf = hp leaf (slice_nibs s1 ++ slice_nibs s2).
Proof.
  intros H1 H2. unfold hexPrefixSlice2, hexPrefixEncode2. destruct H1 as [Ho1 Hb1], H2 as [Ho2 Hb2].
  rewrite hp_loop_pack by lia. rewrite (take_ge (drop _ _)) by (rewrite length_drop, length_nibbles; lia).
  destruct (pack _ _ (drop (offset s1) (nibbles (data s1)))) as [d ret] eqn:E.
  rewrite hp_loop_pack by lia. rewrite (take_ge (drop _ _)) by (rewrite length_drop, length_nibbles; lia).
  rewrite <-(hp_eq leaf (slice_nibs s1 ++ slice_nibs s2)
    (2 * length (data s1) - offset s1 + (2 * length (data s2) - offset s2))).
  - rewrite pack_app. unfold slice_nibs at 1. by rewrite E.
  - rewrite length_app, <-!slice_size_nibs. done.
  - apply Forall_app. split; apply slice_nibs_nibs; by split.
Qed.

Lemma hexPrefixVector_nibs ks leaf b e :
  (b <= e <= length ks)%nat -> hexPrefixVector ks leaf (Z.of_nat b) (Z.of_nat e) = hp leaf (take (e - b) (drop b ks)).
Proof.
  intros Hb. unfold hexPrefixVector, hp. rewrite decide_False, !Nat2Z.id by lia.
  rewrite length_take, length_drop, Nat.min_l by lia. unfold sub. destruct (Nat.odd (e - b)) eqn:Eo.
  - destruct (e - b)%nat as [|n] eqn:En; [done|]. destruct (drop b ks) as [|x l] eqn:Ed.
    { apply (f_equal length) in Ed. rewrite length_drop in Ed. cbn in Ed. lia. }
    cbn [take]. assert (Hx : ks !! b = Some x) by (rewrite <-(Nat.add_0_r b), <-lookup_drop, Ed; done).
    rewrite (list_lookup_total_correct _ _ _ Hx). rewrite (drop_S ks x b Hx) in Ed. injection Ed as <-.
    replace (e - S b)%nat with n by lia. done.
  - destruct (take (e - b) (drop b ks)); done.
Qed.

Lemma length_hp_pairs ks : length (hp_pairs ks) = (length ks / 2)%nat.
Proof.
  remember (length ks) as n eqn:En. revert ks En. induction n as [n IH] using (well_founded_induction lt_wf).
  intros ks ->. destruct ks as [|x [|y ks]]; [done..|]. cbn [hp_pairs length].
  rewrite (IH (length ks)) by (cbn; lia || done). change (S (S (length ks))) with (1 * 2 + length ks)%nat.
  rewrite Nat.div_add_l by done. done.
Qed.

Lemma hp_pairs_bytes ks : bytes (hp_pairs ks).
Proof.
  remember (length ks) as n eqn:En. revert ks En. induction n as [n IH] using (well_founded_induction lt_wf).
  intros ks ->. destruct ks as [|x [|y ks]]; [constructor..|]. cbn [hp_pairs]. constructor; [apply u8_range|].
  apply (IH (length ks)); [cbn; lia|done].
Qed.

Lemma nibbles_hp_pairs ks : nibs ks -> Nat.even (length ks) -> nibbles (hp_pairs ks) = ks.
Proof.
  remember (length ks) as n eqn:En. revert ks En. induction n as [n IH] using (well_founded_induction lt_wf).
  intros ks -> Hk He. destruct ks as [|x [|y ks]]; [done..|]. cbn [hp_pairs]. rewrite nibbles_cons.
  apply Forall_cons_1 in Hk as [Hx [Hy Hks]%Forall_cons_1].
  assert (Hb : is_byte (x * 16 + y)) by (unfold is_word; lia). rewrite u8_id by done.
  destruct (byte_nibbles _ Hb) as (? & ? & ?). rewrite (IH (length ks)) by (cbn; lia || done).
  f_equal; [|f_equal]; lia.
Qed.

(** The first byte of an odd key *)
Lemma hp_first leaf x :
  0 <= x < 16 ->
  let b := hp_flags leaf true .| x in
  is_byte b /\ bool_decide (b .& 0x20 <> 0) = leaf /\ b .& 0x10 <> 0 /\ b .& 15 = x.
Proof.
  intros Hx. assert (H : Forall (fun x => 0 <= (hp_flags leaf true .| x) < 256 /\
    bool_decide ((hp_flags leaf true .| x) .& 0x20 <> 0) = leaf /\ (hp_flags leaf true .| x) .& 0x10 <> 0 /\
    (hp_flags leaf true .| x) .& 15 = x) (seqZ 0 16)).
  { apply (bool_decide_unpack _). destruct leaf; vm_compute; exact I. }
  rewrite list.Forall_forall in H. apply H, elem_of_seqZ. lia.
Qed.

Definition key_leaf (h : list Z) : bool := match h with b :: _ => bool_decide (b .& 0x20 <> 0) | [] => false end.

Lemma hp_spec leaf ks :
  nibs ks -> bytes (hp leaf ks) /\ hp leaf ks <> [] /\ key_leaf (hp leaf ks) = leaf /\
    slice_nibs (keyOf_bytes (hp leaf ks)) = ks /\ slice_ok (keyOf_bytes (hp leaf ks)).
Proof.
  intros Hk. assert (Hflag : forall l, bytes l -> bytes (hp_flags leaf false :: l)).
  { intros l Hl. constructor; [by destruct leaf|done]. }
  assert (Heven : forall l, keyOf_bytes (hp_flags leaf false :: l) = mkSlice (hp_flags leaf false :: l) 2) by by destruct leaf.
  unfold hp. destruct (Nat.odd (length ks)) eqn:Eo.
  - destruct ks as [|x ks]; [done|]. apply Forall_cons_1 in Hk as [Hx Hk].
    destruct (hp_first leaf x Hx) as (Hb & Hl & Ho & Hn). pose proof (hp_pairs_bytes ks) as Hp.
    assert (He : Nat.even (length ks)) by (cbn [length] in Eo; rewrite Nat.odd_succ in Eo; by rewrite Eo).
    assert (Ek : keyOf_bytes ((hp_flags leaf true .| x) :: hp_pairs ks) = mkSlice ((hp_flags leaf true .| x) :: hp_pairs ks) 1).
    { unfold keyOf_bytes. by rewrite decide_True. }
    rewrite Ek. split_and!; [by constructor|done|done| |split; [cbn; lia|by constructor]].
    unfold slice_nibs. cbn [data offset]. rewrite nibbles_cons, nibbles_hp_pairs by done. cbn [drop]. by rewrite Hn.
  - assert (He : Nat.even (length ks)) by (rewrite <-Nat.negb_odd, Eo; done).
    assert (E : match ks with [] => [hp_flags leaf false] | _ :: _ => hp_flags leaf false :: hp_pairs ks end
      = hp_flags leaf false :: hp_pairs ks) by by destruct ks.
    rewrite E, Heven. pose proof (hp_pairs_bytes ks) as Hp.
    split_and!; [by apply Hflag|done|by destruct leaf| |split; [cbn; lia|by apply Hflag]].
    unfold slice_nibs. cbn [data offset]. by rewrite nibbles_cons, nibbles_hp_pairs.
Qed.

Lemma length_hp leaf ks : (length (hp leaf ks) <= 1 + length ks)%nat.
Proof.
  assert (H : forall l : list Z, (length (hp_pairs l) <= length l)%nat).
  { intros l. rewrite length_hp_pairs. apply Nat.div_le_upper_bound; lia. }
  unfold hp. destruct ks as [|x ks]; [cbn; lia|]. destruct (Nat.odd _); cbn [length].
  - specialize (H ks). lia.
  - specialize (H (x :: ks)). cbn [length] in H. lia.
Qed.
