(* ===== verification/TrieSpec.v ===== *)
(** * Tries as trees

    A node is empty, a leaf, an extension or a branch; a child of less than 32 bytes stands in its
    parent, a larger one is named by its hash.  Keys are lists of nibbles of one length, so that a
    branch has no value of its own.  The operations on trees here are what the operations of
    TrieDB are shown to compute. *)

From stdpp Require Import gmap.
From S2P Require Import Prelude Words Exn Rlp RlpSpec TrieKeys.

#[local] Set Warnings "-register-all".

#[local] Open Scope Z_scope.

#[local] Unset Elimination Schemes.
Inductive tree := Empty | Leaf (k v : list Z) | Ext (k : list Z) (c : tree) | Branch (cs : list tree).
#[local] Set Elimination Schemes.

Section Induction.
Context (P : tree -> Prop).
Hypothesis P_empty : P Empty.
Hypothesis P_leaf : forall k v, P (Leaf k v).
Hypothesis P_ext : forall k c, P c -> P (Ext k c).
Hypothesis P_branch : forall cs, Forall P cs -> P (Branch cs).

Fixpoint tree_ind (t : tree) : P t :=
  match t with
  | Empty => P_empty
  | Leaf k v => P_leaf k v
  | Ext k c => P_ext k c (tree_ind c)
  | Branch cs => P_branch cs ((fix go l : Forall P l :=
      match l with [] => Forall_nil_2 P | x :: l => Forall_cons_2 P x l (tree_ind x) (go l) end) cs)
  end.
End Induction.

(** ** Contents *)

Fixpoint tget (t : tree) (k : list Z) : option (list Z) :=
  match t with
  | Empty => None
  | Leaf k' v => if decide (k = k') then Some v else None
  | Ext k' c => if decide (k' `prefix_of` k) then tget c (drop (length k') k) else None
  | Branch cs =>
      match k with
      | [] => None
      | i :: k =>
          (fix go cs j := match cs, j with
            | [], _ => None
            | c :: _, O => tget c k
            | _ :: cs, S j => go cs j
            end) cs (Z.to_nat i)
      end
  end.

Lemma tget_branch cs i k : tget (Branch cs) (i :: k) = (cs !! Z.to_nat i) ≫= fun c => tget c k.
Proof.
  cbn [tget]. generalize (Z.to_nat i) as j. by induction cs as [|c cs IH]; intros [|j]; cbn; try apply IH.
Qed.

(** ** Insertion *)

Definition wrap (p : list Z) (t : tree) : tree := if decide (p = []) then t else Ext p t.

Definition no_children : list tree := replicate 16 Empty.

(** A key that leaves the node with the key [k']; [rest] is the node behind a part of its key *)
Definition fork (k' k v : list Z) (rest : list Z -> tree) : tree :=
  let n := lcp k k' in
  match drop n k', drop n k with
  | x :: k1, y :: k2 => wrap (take n k') (Branch (<[Z.to_nat y := Leaf k2 v]> (<[Z.to_nat x := rest k1]> no_children)))
  | _, _ => Empty
  end.

Fixpoint ins (t : tree) (k v : list Z) : tree :=
  match t with
  | Empty => Leaf k v
  | Leaf k' v' => if decide (k' = k) then Leaf k v else fork k' k v (fun k1 => Leaf k1 v')
  | Ext k' c => if decide (k' `prefix_of` k) then Ext k' (ins c (drop (length k') k) v)
                else fork k' k v (fun k1 => wrap k1 c)
  | Branch cs =>
      match k with
      | [] => t
      | i :: k =>
          Branch ((fix go cs j := match cs, j with
            | [], _ => []
            | c :: cs, O => ins c k v :: cs
            | c :: cs, S j => c :: go cs j
            end) cs (Z.to_nat i))
      end
  end.

Lemma ins_branch cs i k v :
  ins (Branch cs) (i :: k) v = Branch (alter (fun c => ins c k v) (Z.to_nat i) cs).
Proof.
  cbn [ins]. f_equal. generalize (Z.to_nat i) as j. induction cs as [|c cs IH]; intros [|j]; try done. cbn. by rewrite IH.
Qed.

(** ** Removal *)

(** A key in front of a node: a leaf or an extension takes it into its own *)
Definition prepend (p : list Z) (t : tree) : tree :=
  match t with
  | Leaf k v => Leaf (p ++ k) v
  | Ext k c => Ext (p ++ k) c
  | _ => Ext p t
  end.

Definition is_empty (t : tree) : bool := match t with Empty => true | _ => false end.

(** The children in use, with their places *)
Definition in_use (cs : list tree) : list (nat * tree) := filter (fun x => is_empty x.2 = false) (imap pair cs).

(** A branch with one child left goes up *)
Definition rejig (cs : list tree) : tree :=
  match in_use cs with
  | [(i, c)] => prepend [Z.of_nat i] c
  | _ => Branch cs
  end.

(** No tree when the key is not there *)
Fixpoint del (t : tree) (k : list Z) : option tree :=
  match t with
  | Empty => None
  | Leaf k' v => if decide (k' = k) then Some Empty else None
  | Ext k' c => if decide (k' `prefix_of` k) then prepend k' <$> del c (drop (length k') k) else None
  | Branch cs =>
      match k with
      | [] => None
      | i :: k =>
          rejig <$> (fix go cs j := match cs, j with
            | [], _ => None
            | c :: cs, O => (fun c => c :: cs) <$> del c k
            | c :: cs, S j => (fun cs => c :: cs) <$> go cs j
            end) cs (Z.to_nat i)
      end
  end.

Lemma del_branch cs i k :
  del (Branch cs) (i :: k) = c ← cs !! Z.to_nat i; c' ← del c k; Some (rejig (<[Z.to_nat i := c']> cs)).
Proof.
  cbn [del]. match goal with |- rejig <$> ?f cs _ = _ => set (go := f) end.
  assert (E : forall cs j, go cs j = c ← cs !! j; c' ← del c k; Some (<[j := c']> cs)).
  { clear. induction cs as [|c cs IH]; intros [|j]; try done. cbn. fold go. rewrite IH.
    change ((c :: cs) !! S j) with (cs !! j). destruct (cs !! j) as [c'|]; [|done]. cbn. by destruct (del c' k). }
  rewrite E. destruct (cs !! Z.to_nat i) as [c|]; [|done]. cbn. by destruct (del c k).
Qed.

(** ** Encoding *)

Section Encoding.
Context {Api : Sha3Api}.

Definition ref_item (x : item) : item :=
  if decide (length (encode x) < 32)%nat then x else Str (SHA3_256 (encode x)).

Fixpoint item_of (t : tree) : item :=
  match t with
  | Empty => Str []
  | Leaf k v => Lst [Str (hp true k); Str v]
  | Ext k c => Lst [Str (hp false k); ref_item (item_of c)]
  | Branch cs => Lst (map (fun c => ref_item (item_of c)) cs ++ [Str []])
  end.

Definition enc (t : tree) : list Z := encode (item_of t).
Definition ref (t : tree) : item := ref_item (item_of t).

(** The bytes that the database keeps for a child, and for the nodes below a node *)
Definition own (t : tree) : list (list Z) := if decide (length (enc t) < 32)%nat then [] else [enc t].
Fixpoint below (t : tree) : list (list Z) :=
  match t with
  | Empty | Leaf _ _ => []
  | Ext _ c => own c ++ below c
  | Branch cs => mjoin (map (fun c => own c ++ below c) cs)
  end.
Definition nodes (t : tree) : list (list Z) := own t ++ below t.

Lemma below_branch cs : below (Branch cs) = cs ≫= nodes.
Proof.
  cbn [below]. induction cs as [|c cs IH]; [done|].
  transitivity ((own c ++ below c) ++ mjoin (map (fun c => own c ++ below c) cs)); [done|]. by rewrite IH.
Qed.
End Encoding.

(** ** Well-formed trees *)

Definition value_ok (v : list Z) : Prop := bytes v /\ len v < 2 ^ 62.
Definition key_ok (k : list Z) : Prop := nibs k /\ len k < 2 ^ 62.

(** Trees for keys of [n] nibbles, without the conditions that make them unique *)
Inductive ww : nat -> tree -> Prop :=
  | ww_empty n : ww n Empty
  | ww_leaf k v : key_ok k -> value_ok v -> ww (length k) (Leaf k v)
  | ww_ext n k c : key_ok k -> k <> [] -> c <> Empty -> ww n c -> ww (length k + n) (Ext k c)
  | ww_branch n cs : length cs = 16%nat -> Forall (ww n) cs -> ww (S n) (Branch cs).

Definition is_branch (t : tree) : bool := match t with Branch _ => true | _ => false end.

(** An extension leads to a branch, and a branch has at least two children *)
Fixpoint canonical (t : tree) : Prop :=
  match t with
  | Empty | Leaf _ _ => True
  | Ext _ c => is_branch c = true /\ canonical c
  | Branch cs => (2 <= length (in_use cs))%nat /\ foldr (fun c P => canonical c /\ P) True cs
  end.

Definition wf (n : nat) (t : tree) : Prop := ww n t /\ canonical t.

Lemma canonical_branch cs : canonical (Branch cs) <-> (2 <= length (in_use cs))%nat /\ Forall canonical cs.
Proof.
  cbn [canonical]. assert (E : foldr (fun c P => canonical c /\ P) True cs <-> Forall canonical cs); [|tauto].
  induction cs as [|c cs IH]; cbn; [split; constructor|]. rewrite list.Forall_cons. tauto.
Qed.

(** ** Sizes *)

Lemma len_int_bytes_small n : 0 <= n < max_size -> len (int_bytes n) <= 8.
Proof. intros Hn. apply (bytesRequired_bound n 8); lia. Qed.

Lemma len_header base n : 0 <= n < max_size -> len (header base n) <= 9.
Proof. intros Hn. rewrite header_len by lia. case_decide; [lia|]. pose proof (len_int_bytes_small n Hn). unfold bytesRequired. lia. Qed.

Lemma len_encode x : readable x -> len (encode x) <= 9 + len (payload_of x).
Proof.
  intros [_ Hr]. pose proof (len_nonneg (payload_of x)). rewrite encode_split, len_app.
  destruct (item_shape x []) as [(b & -> & Hb)|(base & _ & _ & -> & _)].
  - cbn. rewrite decide_True by done. unfold len. cbn. lia.
  - pose proof (len_header base (len (payload_of x)) ltac:(lia)). lia.
Qed.

Lemma encode_item_bytes x : readable x -> bytes (encode x).
Proof.
  induction x as [s|l IH] using item_ind; intros Hr; rewrite encode_split.
  - destruct Hr as [Hok Hs]. inversion Hok; subst. apply Forall_app. split; [|done].
    destruct (item_shape (Str s) []) as [(b & [= ->] & Hb)|(base & Hbase & _ & -> & _)]; [cbn; by rewrite decide_True|].
    apply header_bytes; [done|]. pose proof (len_nonneg (payload_of (Str s))). lia.
  - pose proof (readable_list l Hr) as Hl. destruct Hr as [_ Hs]. apply Forall_app. split.
    + apply header_bytes; [by right|]. pose proof (len_nonneg (encode_all l)). cbn in Hs. lia.
    + cbn [payload_of]. clear Hs. induction l as [|x l IHl]; [constructor|]. rewrite encode_all_cons.
      inversion IH; inversion Hl; subst. apply Forall_app. split; auto.
Qed.

Lemma readable_str s : bytes s -> len s < max_size -> readable (Str s).
Proof. intros. split; [by apply ok_str|done]. Qed.

Section Sizes.
Context {Api : Sha3Api}.

Lemma hash_readable d : bytes d -> readable (Str (SHA3_256 d)) /\ len (encode (Str (SHA3_256 d))) <= 33.
Proof.
  intros Hd. pose proof (SHA3_256_length d Hd) as El. pose proof (SHA3_256_bytes d Hd) as Hb.
  split; [apply readable_str; [done|unfold len; lia]|].
  destruct (SHA3_256 d) as [|a [|b l]] eqn:E; try done.
  assert (En : len (a :: b :: l) = 32) by (unfold len; by rewrite El). cbn [encode]. rewrite len_app, En. by vm_compute.
Qed.

Lemma ref_readable x : readable x -> readable (ref_item x) /\ len (encode (ref_item x)) <= 33.
Proof.
  intros Hr. unfold ref_item. case_decide; [split; [done|unfold len; lia]|]. by apply hash_readable, encode_item_bytes.
Qed.

Lemma encode_all_bound l b : Forall (fun x => len (encode x) <= b) l -> len (encode_all l) <= b * Z.of_nat (length l).
Proof.
  induction 1 as [|x l Hx Hl IH]; [unfold len; cbn; lia|]. rewrite encode_all_cons, len_app. cbn [length]. lia.
Qed.

Lemma readable_list_of l : Forall readable l -> len (encode_all l) < max_size -> readable (Lst l).
Proof.
  intros Hl Hs. split; [|done]. apply ok_lst. apply (list.Forall_impl _ _ _ Hl). by intros x [? _].
Qed.

Lemma hp_readable leaf k : key_ok k -> readable (Str (hp leaf k)) /\ len (encode (Str (hp leaf k))) <= 10 + len k.
Proof.
  intros [Hk Hl]. destruct (hp_spec leaf k Hk) as (Hb & _). pose proof (length_hp leaf k).
  assert (Hr : readable (Str (hp leaf k))) by (apply readable_str; [done|unfold len in *; lia]).
  split; [done|]. pose proof (len_encode _ Hr). cbn [payload_of] in *. unfold len in *. lia.
Qed.

Lemma two_readable leaf k x : key_ok k -> readable x -> len (encode x) <= 2 ^ 62 + 9 -> readable (Lst [Str (hp leaf k); x]).
Proof.
  intros Hk Hx Hs. destruct (hp_readable leaf k Hk) as [Hr He]. destruct Hk as [_ Hk].
  apply readable_list_of; [apply Forall_cons_2; [done|]; apply Forall_cons_2; [done|]; by apply Forall_nil_2|]. rewrite encode_all_cons, encode_all_cons, !len_app.
  change (len (encode_all [])) with 0. lia.
Qed.

Lemma ww_readable n t : ww n t -> readable (item_of t).
Proof.
  revert n. induction t as [|k v|k c IH|cs IH] using tree_ind; intros n Hw.
  - apply readable_str; [constructor|unfold len; cbn; lia].
  - inversion Hw as [|? ? Hk [Hv Hl]| |]; subst. assert (Hr : readable (Str v)) by (apply readable_str; [done|lia]).
    apply two_readable; [done|done|]. pose proof (len_encode _ Hr). cbn [payload_of] in *. lia.
  - inversion Hw; subst. destruct (ref_readable (item_of c)) as [Hc1 Hc2]; [eauto|].
    apply two_readable; [done|done|]. etransitivity; [exact Hc2|lia].
  - inversion Hw as [| | |m ? Hl Hcs]; subst.
    assert (Hr : Forall (fun x => readable x /\ len (encode x) <= 33) (map (fun c => ref_item (item_of c)) cs ++ [Str []])).
    { apply Forall_app. split.
      - apply List.Forall_map, list.Forall_forall. intros c Hc. apply ref_readable.
        eapply list.Forall_forall in IH; [|done]. eapply list.Forall_forall in Hcs; [|done]. eauto.
      - apply Forall_singleton. split; [apply readable_str; [by apply Forall_nil_2|by vm_compute]|by vm_compute]. }
    apply readable_list_of; [apply (list.Forall_impl _ _ _ Hr); by intros ? [? _]|].
    pose proof (encode_all_bound _ 33 (list.Forall_impl _ _ _ Hr (fun x H => proj2 H))) as Hb.
    eapply Z.le_lt_trans; [exact Hb|]. rewrite length_app, length_map, Hl. by vm_compute.
Qed.

Lemma enc_bytes n t : ww n t -> bytes (enc t).
Proof. intros Hw. by eapply encode_item_bytes, ww_readable. Qed.

Lemma enc_cons t : exists b l, enc t = b :: l.
Proof. apply encode_cons. Qed.

Lemma enc_ne t : enc t <> [].
Proof. destruct (enc_cons t) as (? & ? & ->). done. Qed.
End Sizes.
