(* ===== verification/TrieTree.v ===== *)
(** * The operations on trees

    Insertion and removal change one key, keep trees well formed, and well-formed trees with the
    same contents are equal. *)

From stdpp Require Import gmap.
From S2P Require Import Prelude Words Exn Rlp TrieKeys TrieSpec.

#[local] Set Warnings "-register-all".

#[local] Open Scope Z_scope.

(** Keys of [n] nibbles *)
Definition full (n : nat) (k : list Z) : Prop := length k = n /\ nibs k.

Lemma full_cons n i k : full (S n) (i :: k) <-> 0 <= i < 16 /\ full n k.
Proof. unfold full. rewrite list.Forall_cons. cbn. split; [intros [? [? ?]]; split_and!; auto with lia|intros [? [? ?]]; split_and!; auto with lia]. Qed.

Lemma full_app n p k : full n (p ++ k) -> full (n - length p) k /\ nibs p /\ (length p <= n)%nat.
Proof. intros [<- Hn]. rewrite length_app. apply Forall_app in Hn as [? ?]. unfold full. split_and!; [lia|done..|lia]. Qed.

Lemma nib_inj x y : 0 <= x < 16 -> 0 <= y < 16 -> Z.to_nat x = Z.to_nat y -> x = y.
Proof. lia. Qed.

(** ** Branches *)

Lemma no_children_lookup i : (i < 16)%nat -> no_children !! i = Some Empty.
Proof. intros. by apply lookup_replicate_2. Qed.

Lemma fork_lookup x y A C z :
  0 <= x < 16 -> 0 <= y < 16 -> 0 <= z < 16 ->
  <[Z.to_nat y := A]> (<[Z.to_nat x := C]> no_children) !! Z.to_nat z =
    Some (if decide (z = y) then A else if decide (z = x) then C else Empty).
Proof.
  intros Hx Hy Hz. assert (Hl : length no_children = 16%nat) by done. case_decide as E1; subst.
  - rewrite list_lookup_insert_eq; [done|]. rewrite length_insert, Hl. lia.
  - rewrite list_lookup_insert_ne by lia. case_decide as E2; subst.
    + rewrite list_lookup_insert_eq; [done|]. rewrite Hl. lia.
    + rewrite list_lookup_insert_ne by lia. apply no_children_lookup. lia.
Qed.

Lemma elem_of_in_use i c cs : (i, c) ∈ in_use cs <-> cs !! i = Some c /\ c <> Empty.
Proof.
  unfold in_use. rewrite list_elem_of_filter, elem_of_lookup_imap. cbn. split.
  - intros [He (j & d & [= -> ->] & H)]. split; [done|]. by intros ->.
  - intros [H Hne]. split; [by destruct c|]. by exists i, c.
Qed.

Lemma in_use_NoDup cs : NoDup (in_use cs).*1.
Proof.
  unfold in_use. assert (H : NoDup (imap pair cs).*1).
  { rewrite fmap_imap. apply NoDup_alt. intros i j x. rewrite !list_lookup_imap.
    destruct (cs !! i), (cs !! j); cbn; congruence. }
  revert H. generalize (imap pair cs) as l. induction l as [|[i c] l IH]; [done|].
  cbn [fmap list_fmap]. intros [Hn Hl]%list.NoDup_cons. rewrite filter_cons. case_decide; [|by apply IH].
  cbn. apply list.NoDup_cons. split; [|by apply IH]. contradict Hn.
  apply list_elem_of_fmap in Hn as (y & Ey & [_ Hy]%list_elem_of_filter). apply list_elem_of_fmap. by exists y.
Qed.

Lemma two_in_use cs :
  (2 <= length (in_use cs))%nat <->
  exists i j c d, i <> j /\ cs !! i = Some c /\ cs !! j = Some d /\ c <> Empty /\ d <> Empty.
Proof.
  pose proof (in_use_NoDup cs) as Hn. split.
  - destruct (in_use cs) as [|[i c] [|[j d] l]] eqn:E; [cbn; lia..|]. intros _.
    assert ((i, c) ∈ in_use cs) as [? ?]%elem_of_in_use by (rewrite E; left).
    assert ((j, d) ∈ in_use cs) as [? ?]%elem_of_in_use by (rewrite E; right; left).
    exists i, j, c, d. split_and!; try done. cbn in Hn. apply list.NoDup_cons in Hn as [Hn _]. intros ->. apply Hn. left.
  - intros (i & j & c & d & Hij & Hi & Hj & Hc & Hd).
    assert (H1 : (i, c) ∈ in_use cs) by (by apply elem_of_in_use).
    assert (H2 : (j, d) ∈ in_use cs) by (by apply elem_of_in_use).
    destruct (in_use cs) as [|x [|y l]]; [by apply not_elem_of_nil in H1| |cbn; lia].
    apply list_elem_of_singleton in H1, H2. congruence.
Qed.

(** ** Contents behind a key *)

Lemma tget_wrap p t k : tget (wrap p t) k = if decide (p `prefix_of` k) then tget t (drop (length p) k) else None.
Proof.
  unfold wrap. case_decide as E; [|done]. subst. rewrite decide_True by apply prefix_nil. done.
Qed.

Lemma drop_prefix (p k : list Z) : drop (length p) (p ++ k) = k.
Proof. apply drop_app_length. Qed.

Lemma prefix_split (p k : list Z) : p `prefix_of` k -> k = p ++ drop (length p) k.
Proof. intros [q ->]. by rewrite drop_prefix. Qed.

Lemma tget_prepend p t k :
  t <> Empty -> tget (prepend p t) k = if decide (p `prefix_of` k) then tget t (drop (length p) k) else None.
Proof.
  intros Ht. destruct t as [|k' v|k' c|cs]; [done| | |done]; cbn [prepend tget].
  - case_decide as E1.
    + subst. rewrite decide_True by (by exists k'). by rewrite drop_prefix, decide_True.
    + case_decide as E2; [|done]. rewrite decide_False; [done|]. intros E. apply E1.
      rewrite (prefix_split _ _ E2) at 1. by rewrite E.
  - rewrite length_app. case_decide as E1.
    + destruct E1 as [q ->]. rewrite <-!app_assoc. rewrite decide_True by (by exists (k' ++ q)).
      rewrite drop_prefix, decide_True by (by exists q). rewrite drop_prefix.
      rewrite app_assoc, <-length_app. by rewrite drop_prefix.
    + case_decide as E2; [|done]. rewrite decide_False; [done|]. intros [q E]. apply E1. exists q.
      rewrite (prefix_split _ _ E2), E. by rewrite app_assoc.
Qed.

(** ** Insertion *)

Lemma fork_shape k' k v rest :
  ~ k' `prefix_of` k -> (length k' <= length k)%nat ->
  exists p x k1 y k2, k' = p ++ x :: k1 /\ k = p ++ y :: k2 /\ x <> y /\ length p = lcp k k' /\
    fork k' k v rest = wrap p (Branch (<[Z.to_nat y := Leaf k2 v]> (<[Z.to_nat x := rest k1]> no_children))).
Proof.
  intros Hp Hl. destruct (lcp_split k k') as (p & a & b & -> & -> & Ep & Hab). unfold fork. rewrite <-Ep, !drop_prefix, take_app_length.
  rewrite !length_app in Hl. destruct b as [|x k1]; [destruct Hp; rewrite app_nil_r; by exists a|].
  destruct a as [|y k2]; [cbn in Hl; lia|]. exists p, x, k1, y, k2. split_and!; done.
Qed.

Lemma prefix_same_length (a b : list Z) : length a = length b -> a `prefix_of` b -> a = b.
Proof. intros Hl [q ->]. rewrite length_app in Hl. destruct q; [by rewrite app_nil_r|cbn in Hl; lia]. Qed.

(** What is found in a fork *)
Lemma tget_fork p x y k2 v t k' :
  0 <= x < 16 -> 0 <= y < 16 -> x <> y -> nibs k' -> length k' = (length p + S (length k2))%nat ->
  tget (wrap p (Branch (<[Z.to_nat y := Leaf k2 v]> (<[Z.to_nat x := t]> no_children)))) k' =
    if decide (p ++ y :: k2 = k') then Some v
    else if decide ((p ++ [x]) `prefix_of` k') then tget t (drop (length p + 1) k') else None.
Proof.
  intros Hx Hy Hxy Hn Hl. rewrite tget_wrap. case_decide as Hp.
  - destruct Hp as [q ->]. rewrite length_app in Hl. rewrite drop_prefix. apply Forall_app in Hn as [_ Hq].
    destruct q as [|z q]; [cbn in Hl; lia|]. apply Forall_cons_1 in Hq as [Hz Hq].
    rewrite tget_branch, fork_lookup by done. cbn [mbind option_bind]. rewrite <-drop_drop, drop_prefix. cbn [drop].
    destruct (decide (z = y)) as [->|Hzy].
    + rewrite (decide_False (P := (p ++ [x]) `prefix_of` (p ++ y :: q))).
      2: { intros [r E]. rewrite <-app_assoc in E. apply app_inv_head in E. by injection E. }
      cbn [tget]. destruct (decide (q = k2)) as [->|Hne]; [by rewrite decide_True|].
      rewrite decide_False; [done|]. intros E%app_inv_head. by injection E.
    + rewrite (decide_False (P := p ++ y :: k2 = p ++ z :: q)) by (intros E%app_inv_head; by injection E).
      destruct (decide (z = x)) as [->|Hzx].
      * rewrite decide_True; [done|]. exists q. by rewrite <-app_assoc.
      * rewrite decide_False; [done|]. intros [r E]. rewrite <-app_assoc in E. apply app_inv_head in E. by injection E.
  - rewrite decide_False by (intros <-; apply Hp; by exists (y :: k2)).
    rewrite decide_False; [done|]. intros [r ->]. apply Hp. exists (x :: r). by rewrite <-app_assoc.
Qed.

Lemma ww_ext_inv n k c : ww n (Ext k c) ->
  key_ok k /\ k <> [] /\ c <> Empty /\ (length k <= n)%nat /\ ww (n - length k) c.
Proof.
  intros H. inversion H; subst. split_and!; try done; [lia|]. by rewrite Nat.add_sub_swap, Nat.sub_diag.
Qed.

Lemma tget_ins n t k v k' :
  ww n t -> full n k -> full n k' -> tget (ins t k v) k' = if decide (k = k') then Some v else tget t k'.
Proof.
  revert n k k'. induction t as [|k0 v0|k0 c IH|cs IH] using tree_ind; intros n k k' Hw [Hk Hkn] [Hk' Hkn'].
  - cbn. by repeat case_decide; subst.
  - cbn [ins]. inversion Hw as [|? ? [Hn0 _] _| |]; subst. case_decide as E; [subst; cbn; by repeat case_decide; subst|].
    destruct (fork_shape k0 k v (fun k1 => Leaf k1 v0)) as (p & x & k1 & y & k2 & -> & -> & Hxy & _ & ->);
      [by intros ?%prefix_same_length|lia|].
    apply Forall_app in Hn0 as [_ [Hx _]%Forall_cons_1]. apply Forall_app in Hkn as [_ [Hy _]%Forall_cons_1].
    rewrite tget_fork; [|done..|rewrite Hk', length_app; cbn; lia].
    case_decide; [done|]. cbn [tget]. case_decide as Hp.
    + destruct Hp as [q ->]. replace (length p + 1)%nat with (length (p ++ [x])) by (rewrite length_app; done).
      rewrite drop_prefix, <-app_assoc. cbn [app]. apply decide_ext.
      split; [by intros ->|intros E'%app_inv_head; by injection E'].
    + rewrite decide_False; [done|]. intros ->. apply Hp. exists k1. by rewrite <-app_assoc.
  - cbn [ins tget]. apply ww_ext_inv in Hw as ([Hn0 _] & _ & _ & Hl & Hc). case_decide as E.
    + destruct E as [q ->]. cbn [tget]. rewrite drop_prefix. rewrite length_app in Hk. apply Forall_app in Hkn as [_ Hq].
      case_decide as E'.
      * destruct E' as [q' ->]. rewrite drop_prefix. rewrite length_app in Hk'. apply Forall_app in Hkn' as [_ Hq'].
        rewrite (IH (n - length k0)%nat) by (done || (split; [lia|done])).
        apply decide_ext. split; [by intros ->|by intros ?%app_inv_head].
      * rewrite decide_False; [done|]. intros <-. apply E'. by exists q.
    + destruct (fork_shape k0 k v (fun k1 => wrap k1 c)) as (p & x & k1 & y & k2 & -> & -> & Hxy & _ & ->); [done|lia|].
      apply Forall_app in Hn0 as [_ [Hx _]%Forall_cons_1]. apply Forall_app in Hkn as [_ [Hy _]%Forall_cons_1].
      rewrite tget_fork; [|done..|rewrite Hk', <-Hk, length_app; cbn; lia].
      case_decide; [done|]. rewrite tget_wrap. case_decide as Hp.
      * destruct Hp as [q ->]. rewrite <-app_assoc. replace (length p + 1)%nat with (length (p ++ [x])) by (rewrite length_app; done).
        rewrite app_assoc, drop_prefix. rewrite <-app_assoc. cbn [app]. case_decide as E1.
        -- destruct E1 as [r ->]. rewrite drop_prefix. rewrite decide_True by (exists r; by rewrite <-app_assoc).
           replace (p ++ x :: k1 ++ r) with ((p ++ x :: k1) ++ r) by (by rewrite <-app_assoc). by rewrite drop_prefix.
        -- rewrite decide_False; [done|]. intros [r Er]. apply E1. exists r. rewrite <-app_assoc in Er.
           apply app_inv_head in Er. by injection Er.
      * rewrite decide_False; [done|]. intros [r ->]. apply Hp. exists (k1 ++ r). by rewrite <-!app_assoc.
  - inversion Hw as [| | |m ? Hl Hcs]; subst.
    destruct k as [|i k]; [done|]. destruct k' as [|j k']; [done|]. rewrite ins_branch, !tget_branch.
    apply Forall_cons_1 in Hkn as [Hi Hkn], Hkn' as [Hj Hkn']. destruct (decide (i = j)) as [->|Hij].
    + destruct (cs !! Z.to_nat j) as [c|] eqn:Ec; [|apply lookup_ge_None in Ec; lia].
      rewrite list_lookup_alter_eq, Ec. cbn [fmap option_fmap option_map mbind option_bind].
      eapply list.Forall_forall in IH; [|by eapply list_elem_of_lookup_2].
      eapply list.Forall_forall in Hcs; [|by eapply list_elem_of_lookup_2].
      rewrite (IH m) by (done || (split; [cbn in *; lia|done])).
      apply decide_ext. split; [by intros ->|by intros [= ->]].
    + rewrite list_lookup_alter_ne by (intros ?%nib_inj; done). rewrite decide_False; [done|]. congruence.
Qed.

Lemma key_ok_app p k : key_ok (p ++ k) -> key_ok p /\ key_ok k.
Proof.
  intros [Hn Hl]. apply Forall_app in Hn as [? ?]. unfold len in Hl. rewrite length_app in Hl.
  unfold key_ok, len. split_and!; done || lia.
Qed.

Lemma key_ok_cons x k : key_ok (x :: k) -> 0 <= x < 16 /\ key_ok k.
Proof. intros [[? ?]%Forall_cons_1 Hl]. unfold key_ok, len in *. cbn [length] in Hl. split_and!; done || lia. Qed.

Lemma ww_no_children n : Forall (ww n) no_children.
Proof. apply Forall_replicate. constructor. Qed.

Lemma ww_wrap n p t : key_ok p -> t <> Empty -> ww n t -> ww (length p + n) (wrap p t).
Proof. intros. unfold wrap. case_decide; [by subst|]. by constructor. Qed.

Lemma ww_fork n k' k v rest :
  key_ok k' -> key_ok k -> value_ok v -> length k = n -> (length k' <= n)%nat -> ~ k' `prefix_of` k ->
  (forall p x k1, k' = p ++ x :: k1 -> ww (n - length p - 1) (rest k1)) ->
  ww n (fork k' k v rest) /\ fork k' k v rest <> Empty.
Proof.
  intros Hk' Hk Hv Hl Hl' Hp Hr.
  destruct (fork_shape k' k v rest Hp) as (p & x & k1 & y & k2 & -> & -> & Hxy & _ & ->); [lia|].
  specialize (Hr p x k1 eq_refl). apply key_ok_app in Hk as [Hkp [Hy Hk2]%key_ok_cons]. rewrite length_app in Hl. cbn in Hl.
  split; [|unfold wrap; by case_decide].
  replace n with (length p + S (length k2))%nat by lia. apply ww_wrap; [done|done|]. constructor.
  - by rewrite !length_insert.
  - apply Forall_insert; [|by constructor]. apply Forall_insert; [apply ww_no_children|].
    by replace (length k2) with (n - length p - 1)%nat by lia.
Qed.

Lemma ww_ins n t k v : ww n t -> key_ok k -> length k = n -> value_ok v -> ww n (ins t k v) /\ ins t k v <> Empty.
Proof.
  revert n k. induction t as [|k0 v0|k0 c IH|cs IH] using tree_ind; intros n k Hw Hk Hl Hv.
  - subst. split; [by constructor|done].
  - inversion Hw as [|? ? Hk0 Hv0| |]; subst. cbn [ins]. case_decide; [subst; split; [by constructor|done]|].
    apply ww_fork; try done; [by intros ?%prefix_same_length|].
    intros p x k1 ->. apply key_ok_app in Hk0 as [_ [_ ?]%key_ok_cons]. rewrite length_app. cbn [length].
    replace (length p + S (length k1) - length p - 1)%nat with (length k1) by lia. by constructor.
  - apply ww_ext_inv in Hw as (Hk0 & Hne & Hce & Hl0 & Hc). cbn [ins]. case_decide as E.
    + destruct E as [q ->]. rewrite drop_prefix. apply key_ok_app in Hk as [_ Hq]. rewrite length_app in Hl.
      destruct (IH (n - length k0)%nat q) as [? ?]; [done|done|lia|done|]. split; [|done].
      replace n with (length k0 + (n - length k0))%nat by lia. by constructor.
    + apply ww_fork; try done. intros p x k1 ->. apply key_ok_app in Hk0 as [_ [_ ?]%key_ok_cons].
      rewrite length_app in *. cbn [length] in *.
      replace (n - length p - 1)%nat with (length k1 + (n - (length p + S (length k1))))%nat by lia. by apply ww_wrap.
  - inversion Hw as [| | |m ? Hl16 Hcs]; subst. destruct k as [|i k]; [done|]. rewrite ins_branch. split; [|done].
    apply key_ok_cons in Hk as [Hi Hk]. constructor; [by rewrite length_alter|].
    apply Forall_lookup_2. intros j c Hj. destruct (decide (j = Z.to_nat i)) as [->|Hne].
    + rewrite list_lookup_alter_eq in Hj. apply fmap_Some in Hj as (d & Hd & ->).
      eapply list.Forall_forall in IH; [|by eapply list_elem_of_lookup_2].
      eapply list.Forall_forall in Hcs; [|by eapply list_elem_of_lookup_2].
      apply IH; [done|done|cbn in *; lia|done].
    + rewrite list_lookup_alter_ne in Hj by done. by eapply Forall_lookup_1 in Hcs.
Qed.

Lemma ins_nonempty t k v n : ww n t -> length k = n -> is_branch t = true -> is_branch (ins t k v) = true.
Proof. intros Hw Hl Ht. destruct t as [| | |cs]; try done. inversion Hw; subst. by destruct k. Qed.

Lemma canonical_wrap p t : is_branch t = true -> canonical t -> canonical (wrap p t).
Proof. intros. unfold wrap. by case_decide. Qed.

Lemma canonical_fork k' k v rest :
  ~ k' `prefix_of` k -> (length k' <= length k)%nat -> nibs k' -> nibs k ->
  (forall p x k1, k' = p ++ x :: k1 -> canonical (rest k1) /\ rest k1 <> Empty) ->
  canonical (fork k' k v rest).
Proof.
  intros Hp Hl Hn' Hn Hr. destruct (fork_shape k' k v rest Hp) as (p & x & k1 & y & k2 & -> & -> & Hxy & _ & ->); [lia|].
  destruct (Hr p x k1 eq_refl) as [Hc Hne].
  apply Forall_app in Hn' as [_ [Hx _]%Forall_cons_1]. apply Forall_app in Hn as [_ [Hy _]%Forall_cons_1].
  apply canonical_wrap; [done|]. apply canonical_branch. split.
  - apply two_in_use. exists (Z.to_nat x), (Z.to_nat y), (rest k1), (Leaf k2 v). split_and!.
    + by intros ?%nib_inj.
    + rewrite fork_lookup by done. rewrite decide_False, decide_True by done. done.
    + rewrite fork_lookup by done. by rewrite decide_True.
    + done.
    + done.
  - apply Forall_insert; [|done]. apply Forall_insert; [|done]. by apply Forall_replicate.
Qed.

Lemma canonical_ins n t k v : ww n t -> key_ok k -> length k = n -> value_ok v -> canonical t -> canonical (ins t k v).
Proof.
  revert n k. induction t as [|k0 v0|k0 c IH|cs IH] using tree_ind; intros n k Hw Hk Hl Hv Hc.
  - done.
  - inversion Hw as [|? ? Hk0 Hv0| |]; subst. cbn [ins]. case_decide; [done|].
    apply canonical_fork; [by intros ?%prefix_same_length|lia|by destruct Hk0|by destruct Hk|done].
  - apply ww_ext_inv in Hw as (Hk0 & Hne & Hce & Hl0 & Hw). destruct Hc as [Hb Hc]. cbn [ins]. case_decide as E.
    + destruct E as [q ->]. rewrite drop_prefix. apply key_ok_app in Hk as [_ Hq]. rewrite length_app in Hl.
      split; [eapply ins_nonempty; [done|lia|done]|]. eapply IH; [done|done|lia|done|done].
    + apply canonical_fork; [done|lia|by destruct Hk0|by destruct Hk|].
      intros p x k1 _. split; [by apply canonical_wrap|]. unfold wrap. by case_decide.
  - inversion Hw as [| | |m ? Hl16 Hcs]; subst. destruct k as [|i k]; [done|]. rewrite ins_branch.
    apply key_ok_cons in Hk as [Hi Hk]. apply canonical_branch in Hc as [Hu Hc]. apply canonical_branch. split.
    + apply two_in_use. apply two_in_use in Hu as (a & b & ca & cb & Hab & Ha & Hb & Hca & Hcb).
      assert (Hin : forall a ca, cs !! a = Some ca -> ca <> Empty ->
        exists c, alter (fun c => ins c k v) (Z.to_nat i) cs !! a = Some c /\ c <> Empty).
      { intros j d Hj Hd. destruct (decide (j = Z.to_nat i)) as [->|].
        - rewrite list_lookup_alter_eq, Hj. eexists. split; [done|].
          eapply list.Forall_forall in Hcs; [|by eapply list_elem_of_lookup_2].
          eapply ww_ins; [done|done|cbn in *; lia|done].
        - rewrite list_lookup_alter_ne by done. eauto. }
      destruct (Hin a ca Ha Hca) as (ca' & ? & ?), (Hin b cb Hb Hcb) as (cb' & ? & ?). by exists a, b, ca', cb'.
    + apply Forall_lookup_2. intros j c Hj. destruct (decide (j = Z.to_nat i)) as [->|Hne].
      * rewrite list_lookup_alter_eq in Hj. apply fmap_Some in Hj as (d & Hd & ->).
        eapply list.Forall_forall in IH; [|by eapply list_elem_of_lookup_2].
        eapply list.Forall_forall in Hcs; [|by eapply list_elem_of_lookup_2].
        eapply list.Forall_forall in Hc; [|by eapply list_elem_of_lookup_2].
        eapply IH; [done|done|cbn in *; lia|done|done].
      * rewrite list_lookup_alter_ne in Hj by done. by eapply Forall_lookup_1 in Hc.
Qed.

(** The ways in which insertion first rearranges a node *)

(** The node behind a part of its key *)
Definition node_rest (t : tree) (k1 : list Z) : tree :=
  match t with Leaf _ v => Leaf k1 v | Ext _ c => wrap k1 c | _ => t end.
Definition node_key (t : tree) : list Z := match t with Leaf k _ | Ext k _ => k | _ => [] end.

Lemma lcp_app p a b : lcp (p ++ a) (p ++ b) = (length p + lcp a b)%nat.
Proof. induction p as [|x p IH]; [done|]. cbn. rewrite decide_True by done. by rewrite IH. Qed.

Lemma fork_app p k' k v rest : p <> [] -> lcp k k' = 0%nat -> k' <> [] -> k <> [] ->
  fork (p ++ k') (p ++ k) v rest = Ext p (fork k' k v rest).
Proof.
  intros Hp H0 Hk' Hk. unfold fork. rewrite lcp_app, H0, Nat.add_0_r, !drop_prefix, take_app_length. cbn [drop take].
  destruct k', k; try done. cbn [drop take]. unfold wrap. rewrite decide_False by done. by rewrite decide_True.
Qed.

(** Split off the part of the key that is shared *)
Lemma ins_cleve t p k' k v :
  (exists w, t = Leaf (p ++ k') w) \/ (exists c, t = Ext (p ++ k') c) ->
  p <> [] -> k' <> [] -> k <> [] -> lcp k k' = 0%nat ->
  ins t (p ++ k) v = ins (Ext p (node_rest t k')) (p ++ k) v.
Proof.
  intros Ht Hp Hk' Hk H0. assert (Hpre : ~ k' `prefix_of` k) by (intros E%lcp_prefix; rewrite H0 in E; by destruct k').
  cbn [ins]. rewrite decide_True by (by exists k). rewrite drop_prefix.
  destruct Ht as [[w ->]|[c ->]]; cbn [ins node_rest].
  - rewrite decide_False by (intros E%app_inv_head; subst; by apply Hpre).
    rewrite decide_False by (intros ->; by apply Hpre). by apply fork_app.
  - rewrite decide_False by (intros [q E]; rewrite <-app_assoc in E; apply app_inv_head in E; apply Hpre; by exists q).
    unfold wrap at 2. rewrite decide_False by done. cbn [ins]. rewrite decide_False by done. by apply fork_app.
Qed.

(** Turn the node into a branch *)
Lemma ins_branched t x k1 y k2 v :
  (exists w, t = Leaf (x :: k1) w) \/ (exists c, t = Ext (x :: k1) c) ->
  x <> y -> 0 <= x < 16 -> 0 <= y < 16 ->
  ins t (y :: k2) v = ins (Branch (<[Z.to_nat x := node_rest t k1]> no_children)) (y :: k2) v.
Proof.
  intros Ht Hxy Hx Hy. rewrite ins_branch.
  assert (E : ins t (y :: k2) v = fork (x :: k1) (y :: k2) v (node_rest t)).
  { destruct Ht as [[w ->]|[c ->]]; cbn [ins]; rewrite decide_False; try done; [congruence|].
    intros [q E]. cbn in E. congruence. }
  rewrite E. unfold fork. cbn [lcp]. rewrite decide_False by done. cbn [drop take]. unfold wrap. rewrite decide_True by done.
  f_equal. apply list_eq. intros j. destruct (decide (j = Z.to_nat y)) as [->|Hne].
  - rewrite list_lookup_alter_eq, list_lookup_insert_eq by (rewrite length_insert; cbn; lia).
    rewrite list_lookup_insert_ne by lia. rewrite no_children_lookup by lia. done.
  - rewrite list_lookup_alter_ne by done. by rewrite list_lookup_insert_ne.
Qed.
