(* ===== verification/TrieCanon.v ===== *)
(** * Removal from trees, and the uniqueness of well-formed trees *)

From stdpp Require Import gmap.
From S2P Require Import Prelude Words Exn Rlp TrieKeys TrieSpec TrieTree.

#[local] Set Warnings "-register-all".

#[local] Open Scope Z_scope.

(** ** Removal *)

Lemma prepend_ne p t : prepend p t <> Empty.
Proof. by destruct t. Qed.

Lemma len_app_keys p k : len (p ++ k) = len p + len k.
Proof. unfold len. rewrite length_app. lia. Qed.

(** Keys of a tree of [n] nibbles below a key *)
Lemma ww_prepend n p t :
  nibs p -> p <> [] -> len p + Z.of_nat n < 2 ^ 62 -> t <> Empty -> ww n t -> ww (length p + n) (prepend p t).
Proof.
  intros Hp Hne Hs Ht Hw. destruct t as [|k v|k c|cs]; [done| | |]; cbn [prepend].
  - inversion Hw as [|? ? [Hk Hl] Hv| |]; subst. rewrite <-length_app. constructor; [|done].
    split; [by apply Forall_app|]. rewrite len_app_keys. unfold len in *. lia.
  - inversion Hw as [| |m ? ? [Hk Hl] Hkn Hc Hwc|]; subst. rewrite Nat.add_assoc, <-length_app. constructor; [|by destruct p|done|done].
    split; [by apply Forall_app|]. rewrite len_app_keys. unfold len in *. lia.
  - constructor; [|done|done|done]. split; [done|]. unfold len in *. lia.
Qed.

Lemma canonical_prepend p t : t <> Empty -> canonical t -> canonical (prepend p t).
Proof. intros. by destruct t. Qed.

Lemma tget_rejig cs k :
  in_use cs <> [] -> length cs = 16%nat -> (exists i k', k = i :: k' /\ 0 <= i < 16) -> tget (rejig cs) k = tget (Branch cs) k.
Proof.
  intros Hu Hl (i & k' & -> & Hi). unfold rejig. destruct (in_use cs) as [|[j c] [|]] eqn:E; [done| |done].
  assert (Hj : (j, c) ∈ in_use cs) by (rewrite E; left). apply elem_of_in_use in Hj as [Hj Hc].
  rewrite tget_prepend by done. rewrite tget_branch. case_decide as Hp.
  - destruct Hp as [q [= -> ->]]. rewrite Nat2Z.id, Hj. done.
  - destruct (cs !! Z.to_nat i) as [d|] eqn:Ed; [|done]. cbn.
    assert (d = Empty) as ->; [|done]. destruct (decide (is_empty d = true)) as [Hd|Hd]; [by destruct d|].
    assert (Hin : (Z.to_nat i, d) ∈ in_use cs) by (apply elem_of_in_use; split; [done|by intros ->]).
    rewrite E in Hin. apply list_elem_of_singleton in Hin. injection Hin as <- <-. destruct Hp. exists k'.
    rewrite Z2Nat.id by lia. done.
Qed.

(** A branch in which one of its children changed still has a child *)
Lemma in_use_left cs i c' : (2 <= length (in_use cs))%nat -> in_use (<[i := c']> cs) <> [].
Proof.
  intros (a & b & ca & cb & Hab & Ha & Hb & Hca & Hcb)%two_in_use.
  assert (exists j d, j <> i /\ cs !! j = Some d /\ d <> Empty) as (j & d & Hj & Hjd & Hd).
  { destruct (decide (a = i)); [exists b, cb; split_and!; [lia|done|done]|by exists a, ca]. }
  intros E. assert (Hin : (j, d) ∈ in_use (<[i := c']> cs)); [|rewrite E in Hin; by apply not_elem_of_nil in Hin].
  apply elem_of_in_use. split; [|done]. by rewrite list_lookup_insert_ne.
Qed.

Lemma del_spec n t k t' :
  wf n t -> full n k -> Z.of_nat n < 2 ^ 62 -> del t k = Some t' ->
  wf n t' /\ (is_branch t = true -> t' <> Empty) /\
  (forall k', full n k' -> tget t' k' = if decide (k = k') then None else tget t k').
Proof.
  revert n k t'. induction t as [|k0 v0|k0 c IH|cs IH] using tree_ind; intros n k t' [Hw Hc] Hk Hs Hd.
  - done.
  - cbn [del] in Hd. case_decide; [|done]. injection Hd as <-. subst. split; [split; [constructor|done]|]. split; [done|].
    intros k' Hk'. cbn. case_decide as E; [done|]. rewrite decide_False; [done|congruence].
  - apply ww_ext_inv in Hw as (Hk0 & Hne & Hce & Hl & Hw). destruct Hc as [Hb Hc]. cbn [del] in Hd. case_decide as Hp; [|done].
    apply fmap_Some in Hd as (c' & Hd & ->). destruct Hp as [q ->]. rewrite drop_prefix in Hd.
    destruct Hk as [Hkl Hkn]. rewrite length_app in Hkl. apply Forall_app in Hkn as [_ Hq].
    destruct (IH (n - length k0)%nat q c') as ([Hw' Hc'] & Hne' & Hg); [done|split; [lia|done]|lia|done|]. specialize (Hne' Hb).
    split; [|split; [done|]].
    + split; [|by apply canonical_prepend]. replace n with (length k0 + (n - length k0))%nat by lia.
      apply ww_prepend; [by destruct Hk0|done|unfold len; lia|done|done].
    + intros k' [Hk' Hkn']. rewrite tget_prepend by done. cbn [tget]. case_decide as Hp.
      * destruct Hp as [q' ->]. rewrite drop_prefix. rewrite length_app in Hk'. apply Forall_app in Hkn' as [_ Hq'].
        rewrite Hg by (split; [lia|done]). apply decide_ext. split; [by intros ->|by intros ?%app_inv_head].
      * rewrite decide_False; [done|]. intros <-. apply Hp. by exists q.
  - inversion Hw as [| | |m ? Hl Hcs]; subst. destruct k as [|i k]; [done|]. apply full_cons in Hk as [Hi Hk].
    rewrite del_branch in Hd. destruct (cs !! Z.to_nat i) as [c|] eqn:Ec; [|done]. cbn in Hd.
    destruct (del c k) as [c'|] eqn:Ed; [|done]. injection Hd as <-.
    apply canonical_branch in Hc as [Hu Hc].
    pose proof (Forall_lookup_1 _ _ _ _ Hcs Ec) as Hwc. pose proof (Forall_lookup_1 _ _ _ _ Hc Ec) as Hcc.
    eapply list.Forall_forall in IH; [|by eapply list_elem_of_lookup_2].
    destruct (IH m k c') as ([Hw' Hc'] & _ & Hg); [done|done|lia|done|].
    set (cs' := <[Z.to_nat i := c']> cs). assert (Hl' : length cs' = 16%nat) by (unfold cs'; by rewrite length_insert).
    assert (Hcs' : Forall (ww m) cs') by (by apply Forall_insert).
    assert (Hcn' : Forall canonical cs') by (by apply Forall_insert).
    pose proof (in_use_left cs (Z.to_nat i) c' Hu) as Hu'. fold cs' in Hu'.
    assert (Hget : forall k', full (S m) k' -> tget (rejig cs') k' = if decide (i :: k = k') then None else tget (Branch cs) k').
    { intros k' Hk'. destruct k' as [|j k']; [by destruct Hk'|]. apply full_cons in Hk' as [Hj Hk'].
      rewrite tget_rejig, !tget_branch by eauto. unfold cs'. destruct (decide (i = j)) as [->|Hij].
      - rewrite list_lookup_insert_eq, Ec by lia. cbn. rewrite Hg by done. apply decide_ext. split; [by intros ->|by intros [= ->]].
      - rewrite list_lookup_insert_ne by (intros ?%nib_inj; done). rewrite decide_False; [done|]. congruence. }
    split; [|split; [intros _; unfold rejig; by repeat case_match; try apply prepend_ne|done]].
    unfold rejig. destruct (in_use cs') as [|[j d] [|y l]] eqn:E; [done| |].
    + assert (Hj : (j, d) ∈ in_use cs') by (rewrite E; left). apply elem_of_in_use in Hj as [Hj Hd].
      pose proof (lookup_lt_Some _ _ _ Hj). split.
      * change (S m) with (length [Z.of_nat j] + m)%nat. apply ww_prepend; [|done|unfold len; cbn [length]; lia|done|by eapply Forall_lookup_1].
        apply Forall_singleton. lia.
      * apply canonical_prepend; [done|]. by eapply Forall_lookup_1 in Hcn'.
    + split; [by constructor|]. apply canonical_branch. split; [rewrite E; cbn; lia|done].
Qed.

Lemma del_none n t k : ww n t -> full n k -> del t k = None <-> tget t k = None.
Proof.
  revert n k. induction t as [|k0 v0|k0 c IH|cs IH] using tree_ind; intros n k Hw Hk.
  - done.
  - cbn [del tget]. destruct (decide (k0 = k)) as [->|]; [by rewrite decide_True|rewrite decide_False by congruence; done].
  - cbn [del tget]. case_decide as Hp; [|done]. rewrite fmap_None. apply ww_ext_inv in Hw as (_ & _ & _ & Hl & Hw).
    destruct Hp as [q ->]. rewrite drop_prefix. destruct Hk as [Hk Hn]. rewrite length_app in Hk. apply Forall_app in Hn as [_ Hq].
    apply (IH (n - length k0)%nat); [done|split; [lia|done]].
  - inversion Hw as [| | |m ? Hl Hcs]; subst. destruct k as [|i k]; [done|]. apply full_cons in Hk as [Hi Hk].
    rewrite del_branch, tget_branch.
    destruct (cs !! Z.to_nat i) as [c|] eqn:Ec; [|done]. cbn.
    eapply list.Forall_forall in IH; [|by eapply list_elem_of_lookup_2]. rewrite <-(IH m) by (done || by eapply Forall_lookup_1).
    by destruct (del c k).
Qed.

(** ** Uniqueness *)

Lemma wf_ext n k c : wf n (Ext k c) -> nibs k /\ k <> [] /\ is_branch c = true /\ (length k <= n)%nat /\ wf (n - length k) c.
Proof.
  intros [Hw [Hb Hc]]. apply ww_ext_inv in Hw as ([Hk _] & Hne & _ & Hl & Hw). done.
Qed.

Lemma wf_branch n cs : wf n (Branch cs) ->
  exists m, n = S m /\ length cs = 16%nat /\ Forall (wf m) cs /\ (2 <= length (in_use cs))%nat.
Proof.
  intros [Hw Hc]. inversion Hw as [| | |m ? Hl Hcs]; subst. apply canonical_branch in Hc as [Hu Hc].
  exists m. split_and!; [done|done| |done]. apply list.Forall_forall. intros c Hin.
  split; [by eapply list.Forall_forall in Hcs|by eapply list.Forall_forall in Hc].
Qed.

Lemma full_join n p k : nibs p -> (length p <= n)%nat -> full (n - length p) k -> full n (p ++ k).
Proof. intros Hp Hl [Hk Hn]. split; [rewrite length_app; lia|by apply Forall_app]. Qed.

Lemma some_key n t : wf n t -> t <> Empty -> exists k, full n k /\ tget t k <> None.
Proof.
  revert n. induction t as [|k v|k c IH|cs IH] using tree_ind; intros n Hw Hne; [done| | |].
  - destruct Hw as [Hw _]. inversion Hw as [|? ? [Hk _]| |]; subst. exists k. split; [done|]. cbn. by rewrite decide_True.
  - apply wf_ext in Hw as (Hk & _ & Hb & Hl & Hc). destruct (IH _ Hc) as (q & Hq & Hg); [by destruct c|].
    exists (k ++ q). split; [by apply full_join|]. cbn. rewrite decide_True by (by exists q). by rewrite drop_prefix.
  - apply wf_branch in Hw as (m & -> & Hl & Hcs & Hu). apply two_in_use in Hu as (i & _ & c & _ & _ & Hi & _ & Hc & _).
    pose proof (lookup_lt_Some _ _ _ Hi). eapply list.Forall_forall in IH; [|by eapply list_elem_of_lookup_2].
    destruct (IH m) as (k & Hk & Hg); [by eapply Forall_lookup_1|done|]. exists (Z.of_nat i :: k).
    split; [apply full_cons; split; [lia|done]|]. by rewrite tget_branch, Nat2Z.id, Hi.
Qed.

(** A branch has keys with different first nibbles *)
Lemma two_keys n cs :
  wf n (Branch cs) -> exists x y k1 k2, x <> y /\ full n (x :: k1) /\ full n (y :: k2) /\
    tget (Branch cs) (x :: k1) <> None /\ tget (Branch cs) (y :: k2) <> None.
Proof.
  intros (m & -> & Hl & Hcs & Hu)%wf_branch. apply two_in_use in Hu as (i & j & c & d & Hij & Hi & Hj & Hc & Hd).
  pose proof (lookup_lt_Some _ _ _ Hi). pose proof (lookup_lt_Some _ _ _ Hj).
  destruct (some_key m c) as (k1 & Hk1 & Hg1); [by eapply Forall_lookup_1|done|].
  destruct (some_key m d) as (k2 & Hk2 & Hg2); [by eapply Forall_lookup_1|done|].
  exists (Z.of_nat i), (Z.of_nat j), k1, k2. split; [lia|]. split; [apply full_cons; split; [lia|done]|].
  split; [apply full_cons; split; [lia|done]|]. rewrite !tget_branch, !Nat2Z.id, Hi, Hj. done.
Qed.

Definition same (n : nat) (t1 t2 : tree) : Prop := forall k, full n k -> tget t1 k = tget t2 k.

Lemma tget_ext k c q : tget (Ext k c) (k ++ q) = tget c q.
Proof. cbn [tget]. rewrite decide_True by (by exists q). by rewrite drop_prefix. Qed.

Lemma ext_keys k c q : tget (Ext k c) q <> None -> k `prefix_of` q.
Proof. cbn. by case_decide. Qed.

(** The keys of an extension do not part before its end *)
Lemma ext_longer n k1 k2 cs c :
  wf n (Ext k1 (Branch cs)) -> same n (Ext k1 (Branch cs)) (Ext k2 c) -> k2 `prefix_of` k1.
Proof.
  intros Hw Hs. apply wf_ext in Hw as (Hk & _ & _ & Hl & Hc).
  destruct (two_keys _ _ Hc) as (x & y & q1 & q2 & Hxy & Hf1 & Hf2 & Hg1 & Hg2).
  assert (H : forall q, full (n - length k1) q -> tget (Branch cs) q <> None -> k2 `prefix_of` k1 ++ q).
  { intros q Hq Hg. apply (ext_keys _ c). rewrite <-Hs by (by apply full_join). cbn.
    rewrite decide_True by (by exists q). by rewrite drop_prefix. }
  pose proof (H _ Hf1 Hg1) as H1. pose proof (H _ Hf2 Hg2) as H2.
  destruct (lcp_split k2 k1) as (p & a & b & Ea & Eb & _ & Hab). subst. destruct b as [|b0 b].
  - rewrite app_nil_r in *. destruct a as [|a0 a]; [by rewrite app_nil_r|]. exfalso.
    destruct H1 as [r1 H1], H2 as [r2 H2]. rewrite <-app_assoc in H1, H2. apply app_inv_head in H1, H2.
    cbn in H1, H2. congruence.
  - destruct a as [|a0 a]; [rewrite app_nil_r; by exists (b0 :: b)|]. exfalso.
    destruct H1 as [r1 H1]. rewrite <-!app_assoc in H1. apply app_inv_head in H1. cbn in H1. congruence.
Qed.

Lemma ext_branch n k c cs : wf n (Ext k c) -> wf n (Branch cs) -> ~ same n (Ext k c) (Branch cs).
Proof.
  intros Hw Hb Hs. destruct (two_keys _ _ Hb) as (x & y & q1 & q2 & Hxy & Hf1 & Hf2 & Hg1 & Hg2).
  rewrite <-Hs in Hg1, Hg2 by done. apply ext_keys in Hg1 as [r1 E1], Hg2 as [r2 E2].
  apply wf_ext in Hw as (_ & Hne & _). destruct k; [done|]. cbn in *. congruence.
Qed.

Lemma leaf_other n k v t : wf n (Leaf k v) -> wf n t -> same n (Leaf k v) t -> t = Leaf k v.
Proof.
  intros Hw Ht Hs. assert (H1 : forall q, full n q -> tget t q <> None -> q = k).
  { intros q Hq Hg. rewrite <-Hs in Hg by done. cbn in Hg. by case_decide. }
  destruct Hw as [Hw _]. inversion Hw as [|? ? [Hk _]| |]; subst.
  assert (Hk' : tget t k = Some v) by (rewrite <-Hs by done; cbn; by rewrite decide_True).
  destruct t as [|k' v'|k' c|cs]; [done| | |].
  - cbn in Hk'. case_decide; [|done]. congruence.
  - exfalso. apply wf_ext in Ht as (Hk0 & _ & Hb & Hl & Hc). destruct c as [| | |cs]; try done.
    destruct (two_keys _ _ Hc) as (x & y & q1 & q2 & Hxy & Hf1 & Hf2 & Hg1 & Hg2).
    assert (E1 : k' ++ x :: q1 = k).
    { apply H1; [by apply full_join|]. cbn [tget]. rewrite decide_True by (by eexists). by rewrite drop_prefix. }
    assert (E2 : k' ++ y :: q2 = k).
    { apply H1; [by apply full_join|]. cbn [tget]. rewrite decide_True by (by eexists). by rewrite drop_prefix. }
    rewrite <-E1 in E2. apply app_inv_head in E2. congruence.
  - exfalso. destruct (two_keys _ _ Ht) as (x & y & q1 & q2 & Hxy & Hf1 & Hf2 & Hg1 & Hg2).
    apply H1 in Hg1, Hg2; [congruence|done|done].
Qed.

(** Two well-formed trees with the same contents are one tree *)
Lemma wf_unique n t1 t2 : wf n t1 -> wf n t2 -> same n t1 t2 -> t1 = t2.
Proof.
  revert n t2. induction t1 as [|k v|k c IH|cs IH] using tree_ind; intros n t2 H1 H2 Hs.
  - destruct (decide (is_empty t2 = true)) as [He|He]; [by destruct t2|].
    destruct (some_key n t2 H2) as (k & Hk & Hg); [by intros ->|]. by rewrite <-Hs in Hg.
  - symmetry. by eapply leaf_other.
  - assert (Hs' : same n t2 (Ext k c)) by (intros q Hq; by rewrite Hs). destruct t2 as [|k2 v2|k2 c2|cs2].
    + destruct (some_key n (Ext k c) H1) as (q & Hq & Hg); [done|]. by rewrite Hs in Hg.
    + by eapply leaf_other.
    + pose proof (wf_ext _ _ _ H1) as (Hk & Hne & Hb & Hl & Hc). pose proof (wf_ext _ _ _ H2) as (Hk2 & _ & Hb2 & Hl2 & Hc2).
      destruct c as [| | |cs]; try done. destruct c2 as [| | |cs2]; try done.
      assert (E : k = k2).
      { apply ext_longer in Hs; [|done]. apply ext_longer in Hs'; [|done]. by apply (anti_symm prefix). }
      subst k2. f_equal. apply (IH (n - length k)%nat); [done|done|]. intros q Hq.
      specialize (Hs (k ++ q) ltac:(by apply full_join)). by rewrite !tget_ext in Hs.
    + exfalso. by apply (ext_branch n k c cs2).
  - destruct t2 as [|k2 v2|k2 c2|cs2].
    + destruct (some_key n (Branch cs) H1) as (q & Hq & Hg); [done|]. by rewrite Hs in Hg.
    + eapply leaf_other; [done|done|]. intros q Hq. by rewrite Hs.
    + exfalso. apply (ext_branch n k2 c2 cs); [done|done|]. intros q Hq. by rewrite Hs.
    + f_equal. apply wf_branch in H1 as (m & -> & Hl & Hcs & _). apply wf_branch in H2 as (m2 & [= <-] & Hl2 & Hcs2 & _).
      apply list_eq_same_length with 16%nat; [done|done|]. intros i x y Hi Hx Hy.
      eapply list.Forall_forall in IH; [|by eapply list_elem_of_lookup_2].
      apply (IH m); [exact (Forall_lookup_1 _ _ _ _ Hcs Hx)|exact (Forall_lookup_1 _ _ _ _ Hcs2 Hy)|]. intros q Hq.
      specialize (Hs (Z.of_nat i :: q)). rewrite !tget_branch, !Nat2Z.id, Hx, Hy in Hs. apply Hs, full_cons. split; [lia|done].
Qed.
