(* ===== verification/TrieRead.v ===== *)
(** * Nodes and streams

    What the operations of RLP give on the encoding of a node of a tree, and the state of a stream
    that has taken some items of a list. *)

From stdpp Require Import gmap.
From S2P Require Import Prelude Words Exn Rlp RlpSpec RlpClaims TrieCommon MemoryDB TrieDB.
From S2P Require Import TrieKeys TrieSpec TrieTree.

#[local] Set Warnings "-register-all".

#[local] Open Scope Z_scope.

(** ** Streams *)

(** A list of [n] items of which [xs] are written *)
Definition building (n : nat) (xs : list item) : RLPStream :=
  if decide (length xs < n)%nat then mkStream (encode_all xs) [(Z.of_nat (n - length xs), 0%nat)]
  else mkStream (encode (Lst xs)) [].

(** The operation writes the item *)
Definition writes (m : M RLPStream unit) (x : item) : Prop :=
  forall s, m s = noteAppended 1 (push_bytes (encode x) s).

Lemma append_writes s : readable (Str s) -> writes (append s false) (Str s).
Proof. intros Hr st. by apply append_spec. Qed.

Lemma appendRaw_writes x : writes (appendRaw (encode x) 1) x.
Proof. intros st. done. Qed.

Lemma stream_list_building n : (0 < n)%nat -> stream_list (Z.of_nat n) = inl (building n []).
Proof.
  intros Hn. unfold stream_list, on_stream, appendList. rewrite decide_True by lia. cbn -[Z.of_nat]. unfold building.
  rewrite decide_True by (cbn; lia). cbn -[Z.of_nat]. by rewrite Nat.sub_0_r.
Qed.

Lemma building_step n xs x m :
  writes m x -> (length xs < n)%nat -> len (encode_all (xs ++ [x])) < max_size ->
  on_stream m (building n xs) = inl (building n (xs ++ [x])).
Proof.
  intros Hm Hn Hs. unfold on_stream. rewrite Hm. unfold building at 1. rewrite decide_True by done.
  unfold push_bytes. cbn [m_out m_listStack].
  assert (Ea : encode_all xs ++ encode x = encode_all (xs ++ [x])).
  { rewrite encode_all_app, encode_all_cons. by rewrite app_nil_r. }
  rewrite Ea. unfold building. rewrite length_app. cbn [length]. destruct (decide (length xs + 1 < n)%nat) as [Hlt|Hge].
  - rewrite note_more by lia. do 4 f_equal. lia.
  - replace (Z.of_nat (n - length xs)) with 1 by lia.
    pose proof (note_last [] (encode_all (xs ++ [x])) [] Hs) as E. cbn [app length] in E. rewrite E, <-encode_Lst. done.
Qed.

Lemma building_out n xs : length xs = n -> stream_out (building n xs) = inl (encode (Lst xs)).
Proof. intros Hn. unfold stream_out, building. by rewrite decide_False by lia. Qed.

Lemma rlpList2_spec (a b : M RLPStream unit) x y :
  writes a x -> writes b y -> readable (Lst [x; y]) ->
  rlpList2 (on_stream a) (on_stream b) = inl (encode (Lst [x; y])).
Proof.
  intros Ha Hb [_ Hr]. cbn [payload_of] in Hr. unfold rlpList2. change 2 with (Z.of_nat 2) at 1.
  rewrite stream_list_building by lia. cbn [mbind res_bind].
  assert (H1 : len (encode_all [x]) < max_size).
  { rewrite encode_all_cons, len_app in *. pose proof (len_nonneg (encode_all [y])). change (len (encode_all [])) with 0. lia. }
  rewrite (building_step 2 [] x) by (done || (cbn; lia)). cbn [mbind res_bind app].
  rewrite (building_step 2 [x] y) by (done || (cbn; lia)). cbn [mbind res_bind app]. by apply building_out.
Qed.

(** ** Items *)

Lemma isEmpty_encode x : readable x -> isEmpty (encode x) = bool_decide (payload_of x = []).
Proof.
  intros [_ Hr]. unfold isEmpty. rewrite encode_split.
  destruct (item_shape x []) as [(b & -> & Hb)|(base & Hbase & _ & -> & _)].
  - cbn [payload_of]. cbn [head_of]. rewrite decide_True by done. cbn [app]. first_byte b (@nil Z). rewrite at_cons.
    unfold c_rlpDataImmLenStart, c_rlpListStart. by rewrite !bool_decide_false by (done || lia).
  - pose proof (len_nonneg (payload_of x)). unfold header, c_rlpDataImmLenStart, c_rlpListStart. case_decide as H56; cbn [app].
    + first_byte (base + len (payload_of x)) (payload_of x). rewrite at_cons. cbn [negb andb].
      destruct (decide (payload_of x = [])) as [->|Hne].
      * rewrite (bool_decide_true (_ = [])) by done. change (len []) with 0.
        destruct Hbase as [-> | ->]; [by rewrite bool_decide_true by lia|by rewrite orb_comm, bool_decide_true by lia].
      * rewrite (bool_decide_false (_ = [])) by done. rewrite <-len_nil_iff in Hne.
        destruct Hbase as [-> | ->]; by rewrite !bool_decide_false by lia.
    + assert (bytesRequired (len (payload_of x)) <= 8) by (apply bytesRequired_bound; lia).
      pose proof (bytesRequired_pos (len (payload_of x)) ltac:(lia)).
      first_byte (base + 55 + bytesRequired (len (payload_of x))) (int_bytes (len (payload_of x)) ++ payload_of x).
      rewrite at_cons. cbn [negb andb]. rewrite (bool_decide_false (_ = [])) by (intros E; rewrite E in *; unfold len in *; cbn in *; lia).
      destruct Hbase as [-> | ->]; by rewrite !bool_decide_false by lia.
Qed.

Lemma read_whole x : readable x ->
  isData (encode x) = is_str x /\ isList (encode x) = negb (is_str x) /\ isNull (encode x) = false /\
  payload (encode x) = inl (payload_of x).
Proof.
  intros Hr. pose proof (read_item x [] Hr) as R. cbn zeta in R. rewrite app_nil_r in R. destruct R as (_ & _ & ? & ? & ? & _).
  pose proof (payload_item x [] Hr) as Hp. rewrite app_nil_r in Hp. done.
Qed.

Lemma rlp_at_list l i x : readable (Lst l) -> l !! i = Some x -> (i < 17)%nat ->
  rlp_at (encode (Lst l)) (Z.of_nat i) = inl (encode x).
Proof.
  intros Hr Hi H17. pose proof (rlp_at_item l [] Hr i ltac:(lia)) as E. rewrite app_nil_r in E. rewrite E. unfold item_at.
  by rewrite Hi.
Qed.

Lemma requireGood_item x : readable x -> requireGood (encode x) = inl tt.
Proof.
  intros Hr. pose proof (read_item x [] Hr) as R. cbn zeta in R. rewrite app_nil_r in R. destruct R as (El & _ & _ & _ & En & _).
  unfold rlp_length in El. rewrite En in El. by destruct (requireGood (encode x)) as [[]|].
Qed.

Lemma toHash_item h : length h = 32%nat -> bytes h -> toHash 32 (encode (Str h)) Strict = inl h.
Proof.
  intros Hl Hb. assert (Hr : readable (Str h)) by (apply readable_str; [done|unfold len; lia]).
  destruct (read_whole _ Hr) as (Ed & _ & _ & Ep). unfold toHash. rewrite requireGood_item, Ep by done.
  cbn [mbind res_bind payload_of]. rewrite Ed, Hl. cbn [is_str negb orb andb Strict FailIfTooBig FailIfTooSmall ThrowOnFail].
  rewrite bool_decide_false by lia. cbn [andb orb]. rewrite Nat.min_id, Nat.sub_diag, take_ge by lia. done.
Qed.

Lemma toString_item s f : readable (Str s) -> toString (encode (Str s)) f = inl s.
Proof.
  intros Hr. destruct (read_whole _ Hr) as (Ed & _ & _ & Ep). pose proof (read_item _ [] Hr) as R. cbn zeta in R.
  rewrite app_nil_r in R. destruct R as (El & _). unfold toString. rewrite Ed, Ep, El. cbn.
  pose proof (cropped_head s []) as E. rewrite app_nil_r in E. by rewrite E.
Qed.

Section Nodes.
Context {Api : Sha3Api}.

Lemma enc_RLP n t s : ww n t -> RLP (enc t) s = inl (enc t).
Proof. intros Hw. by eapply RLP_exact, ww_readable. Qed.

Lemma enc_isEmpty n t : ww n t -> isEmpty (enc t) = is_empty t.
Proof.
  intros Hw. unfold enc. rewrite isEmpty_encode by by eapply ww_readable. destruct t as [|k v|k c|cs]; cbn [item_of payload_of is_empty].
  - done.
  - rewrite bool_decide_false; [done|]. destruct (encode_cons (Str (hp true k))) as (? & ? & E). rewrite encode_all_cons, E. done.
  - rewrite bool_decide_false; [done|]. destruct (encode_cons (Str (hp false k))) as (? & ? & E). rewrite encode_all_cons, E. done.
  - rewrite bool_decide_false; [done|]. inversion Hw; subst. destruct cs as [|c cs]; [done|]. cbn [map app].
    destruct (encode_cons (ref_item (item_of c))) as (? & ? & E). rewrite encode_all_cons, E. done.
Qed.

Lemma enc_isNull n t : ww n t -> isNull (enc t) = false.
Proof. intros Hw. by eapply read_whole, ww_readable. Qed.

Lemma enc_isList n t : ww n t -> isList (enc t) = negb (is_empty t).
Proof.
  intros Hw. destruct (read_whole (item_of t)) as (_ & E & _); [by eapply ww_readable|]. unfold enc. rewrite E. by destruct t.
Qed.

Lemma count_list l : readable (Lst l) -> itemCount (encode (Lst l)) = inl (Z.of_nat (length l)).
Proof. intros Hr. pose proof (itemCount_list l [] Hr) as E. by rewrite app_nil_r in E. Qed.

(** The two items of a leaf or an extension *)
Definition two (t : tree) (leaf : bool) (k : list Z) (x : item) : Prop := item_of t = Lst [Str (hp leaf k); x].

Lemma two_read n t leaf k x :
  ww n t -> two t leaf k x -> key_ok k ->
  itemCount (enc t) = inl 2 /\ rlp_at (enc t) 0 = inl (encode (Str (hp leaf k))) /\ rlp_at (enc t) 1 = inl (encode x) /\
  isLeaf (enc t) = inl leaf /\ exists sl, keyOf (enc t) = inl sl /\ slice_ok sl /\ slice_nibs sl = k.
Proof.
  intros Hw H2 Hk. pose proof (ww_readable n t Hw) as Hr. unfold enc, two in *. rewrite H2 in *.
  assert (E0 : rlp_at (encode (Lst [Str (hp leaf k); x])) 0 = inl (encode (Str (hp leaf k)))) by (apply (rlp_at_list _ 0); [done|done|lia]).
  destruct (hp_readable leaf k Hk) as [Hh _]. destruct Hk as [Hk _]. destruct (hp_spec leaf k Hk) as (_ & Hne & Hl & Hs & Ho).
  destruct (read_whole _ Hh) as (_ & _ & _ & Ep). split_and!.
  - by rewrite count_list.
  - done.
  - apply (rlp_at_list _ 1); [done|done|lia].
  - unfold isLeaf. rewrite E0. cbn [mbind res_bind]. rewrite Ep. cbn [mbind res_bind payload_of].
    unfold key_leaf in Hl. destruct (hp leaf k) as [|b l]; [done|]. by rewrite Hl.
  - rewrite ?H2. unfold keyOf. rewrite E0. cbn [mbind res_bind]. rewrite Ep. cbn [mbind res_bind payload_of]. eauto.
Qed.

Lemma branch_read n cs :
  ww n (Branch cs) -> itemCount (enc (Branch cs)) = inl 17 /\
  (forall i c, cs !! i = Some c -> rlp_at (enc (Branch cs)) (Z.of_nat i) = inl (encode (ref c))) /\
  rlp_at (enc (Branch cs)) 16 = inl RLPNull.
Proof.
  intros Hw. pose proof (ww_readable n _ Hw) as Hr. inversion Hw as [| | |m ? Hl Hcs]; subst. unfold enc. cbn [item_of] in *.
  assert (Hlen : length (map (fun c => ref_item (item_of c)) cs ++ [Str []]) = 17%nat) by (rewrite length_app, length_map, Hl; done).
  split_and!.
  - by rewrite count_list, Hlen.
  - intros i c Hi. pose proof (lookup_lt_Some _ _ _ Hi). apply rlp_at_list; [done| |lia].
    rewrite lookup_app_l by (rewrite length_map; lia). by rewrite list_lookup_fmap, Hi.
  - change RLPNull with (encode (Str [])). apply (rlp_at_list _ 16); [done| |lia].
    rewrite lookup_app_r by (rewrite length_map; lia). by rewrite length_map, Hl.
Qed.

(** ** References *)

Lemma ref_inline t : (length (enc t) < 32)%nat -> encode (ref t) = enc t.
Proof. intros Hl. unfold ref, ref_item. by rewrite decide_True. Qed.

Lemma ref_hash t : ~ (length (enc t) < 32)%nat -> ref t = Str (SHA3_256 (enc t)).
Proof. intros Hl. unfold ref, ref_item. by rewrite decide_False. Qed.

Lemma empty_inline : (length (enc Empty) < 32)%nat.
Proof. change (enc Empty) with [0x80]. cbn. lia. Qed.

(** What is seen of a reference: the node itself, or a hash *)
Lemma ref_read n t :
  ww n t ->
  isEmpty (encode (ref t)) = is_empty t /\
  ((length (enc t) < 32)%nat /\ encode (ref t) = enc t /\ isList (encode (ref t)) = negb (is_empty t) /\
     isData (encode (ref t)) = is_empty t \/
   (~ (length (enc t) < 32)%nat /\ is_empty t = false /\ isList (encode (ref t)) = false /\
    isData (encode (ref t)) = true /\ toHash 32 (encode (ref t)) Strict = inl (SHA3_256 (enc t)))).
Proof.
  intros Hw. pose proof (ww_readable n t Hw) as Hr. destruct (decide (length (enc t) < 32)%nat) as [Hl|Hl].
  - rewrite ref_inline by done. split; [by eapply enc_isEmpty|]. left. split_and!; [done|done|by eapply enc_isList|].
    destruct (read_whole _ Hr) as (Ed & _). unfold enc. rewrite Ed. by destruct t.
  - rewrite ref_hash by done. pose proof (enc_bytes n t Hw) as Hb. pose proof (SHA3_256_length _ Hb) as Hsl.
    pose proof (SHA3_256_bytes _ Hb) as Hsb. destruct (hash_readable _ Hb) as [Hh _].
    destruct (read_whole _ Hh) as (Ed & El & _). assert (He : is_empty t = false).
    { destruct t; try done. pose proof empty_inline. lia. }
    split.
    + rewrite isEmpty_encode by done. rewrite He, bool_decide_false; [done|]. cbn [payload_of]. intros E. by rewrite E in Hsl.
    + right. split_and!; try done. by apply toHash_item.
Qed.
End Nodes.
