(* ===== verification/TrieWp.v ===== *)
(** * Reasoning about the trie

    [wp m s Q]: the computation returns a value and a state for which [Q] holds, unless it ran into
    two byte strings with one hash or a full reference counter.  [Inv X rt ca L s]: the database
    keeps the nodes [L], the counters of the hashes in [X] count the nodes of [L], and the root and
    the cache of the root's children are [rt] and [ca]. *)

From stdpp Require Import gmap.
From S2P Require Import Prelude Words Exn Rlp RlpSpec RlpClaims TrieCommon MemoryDB TrieDB.
From S2P Require Import TrieKeys TrieSpec TrieTree TrieRead.

#[local] Set Warnings "-register-all".

#[local] Open Scope Z_scope.

(** ** How often a hash is referenced *)

Definition occ (h : h256) (l : list h256) : Z := Z.of_nat (length (filter (eq h) l)).

Lemma occ_nil h : occ h [] = 0.
Proof. done. Qed.

Lemma occ_cons h x l : occ h (x :: l) = (if decide (h = x) then 1 else 0) + occ h l.
Proof. unfold occ. rewrite filter_cons. case_decide; cbn [length]; lia. Qed.

Lemma occ_app h l1 l2 : occ h (l1 ++ l2) = occ h l1 + occ h l2.
Proof. unfold occ. rewrite list.filter_app, length_app. lia. Qed.

Lemma occ_nonneg h l : 0 <= occ h l.
Proof. unfold occ. lia. Qed.

#[export] Instance occ_perm : Proper (eq ==> Permutation ==> eq) occ.
Proof. intros h ? <- l1 l2 Hp. unfold occ. by rewrite Hp. Qed.

Lemma occ_elem h l : h ∈ l <-> 0 < occ h l.
Proof.
  induction l as [|x l IH]; [unfold occ; cbn; split; [by intros ?%not_elem_of_nil|lia]|].
  rewrite occ_cons, elem_of_cons, IH. pose proof (occ_nonneg h l). case_decide as E.
  - split; [lia|by left].
  - split; [intros [?|?]; [done|lia]|right; lia].
Qed.

(** Two lists with the same counts are permutations *)
Lemma occ_Permutation (l1 l2 : list h256) : (forall h, occ h l1 = occ h l2) -> l1 ≡ₚ l2.
Proof.
  revert l2. induction l1 as [|x l1 IH]; intros l2 H.
  - destruct l2 as [|y l2]; [done|]. specialize (H y). rewrite occ_cons, decide_True in H by done. rewrite occ_nil in H.
    pose proof (occ_nonneg y l2). lia.
  - assert (Hx : x ∈ l2).
    { apply occ_elem. rewrite <-H, occ_cons, decide_True by done. pose proof (occ_nonneg x l1). lia. }
    apply list_elem_of_split in Hx as (a & b & ->). rewrite <-Permutation_middle. constructor. apply IH. intros h.
    specialize (H h). rewrite occ_cons, occ_app, occ_cons in H. rewrite occ_app. lia.
Qed.

Ltac perm := apply occ_Permutation; intros; repeat first [rewrite occ_app | rewrite occ_cons | rewrite occ_nil]; lia.

Section Wp.
Context {DB : Type} {B : Backend DB} {BL : BackendLaws DB} {Api : Sha3Api}.

Abbreviation St := (GenericTrieDB DB).

Definition wp {A} (m : M St A) (s : St) (Q : A -> St -> Prop) : Prop :=
  m_fault (m s).1 = true \/ exists a, (m s).2 = inl a /\ Q a (m s).1.

(** A property of states that the steps of the trie keep: nodes inserted or killed, another root *)
Record closed (P : St -> Prop) : Prop := {
  closed_insert : forall v s, P s -> P (forceInsertNode v s).1;
  closed_kill : forall h s, P s -> P (forceKillNode h s).1;
  closed_root : forall h s, P s -> P (set_root h s)
}.

Lemma insert_run v (s : St) : forceInsertNode v s =
  (mkTrie (db_insert (SHA3_256 v) v (t_db s)) (m_root s) (m_rootCache s)
     (m_fault s || insert_fault (t_db s) (SHA3_256 v) v), inl (SHA3_256 v)).
Proof. done. Qed.

(** A fault stays recorded *)
Lemma closed_fault : closed (fun s => m_fault s = true).
Proof. constructor; [|done..]. intros v s Hs. rewrite insert_run. cbn [fst m_fault]. by rewrite Hs. Qed.

(** The computation consists of such steps *)
Class Mono {A} (m : M St A) : Prop := mono : forall P, closed P -> forall s, P s -> P (m s).1.

#[export] Instance mono_ret {A} (a : A) : Mono (mret a).
Proof. by intros P HP s. Qed.
#[export] Instance mono_throw {A} e : Mono (throw (A := A) e).
Proof. by intros P HP s. Qed.
#[export] Instance mono_lift {A} (r : res A) : Mono (lift r).
Proof. by intros P HP s. Qed.
#[export] Instance mono_get : Mono get_st.
Proof. by intros P HP s. Qed.
Lemma mono_bind {A C} (m : M St A) (k : A -> M St C) : Mono m -> (forall a, Mono (k a)) -> Mono (m ≫= k).
Proof.
  intros Hm Hk P HP s Hs. unfold mbind, M_bind. specialize (Hm P HP s Hs).
  destruct (m s) as [s' [a|e]]; cbn in *; [by apply Hk|done].
Qed.
#[export] Instance mono_node h : Mono (node h).
Proof. apply mono_bind; apply _. Qed.
#[export] Instance mono_insert v : Mono (forceInsertNode v).
Proof. intros P HP s Hs. by apply closed_insert. Qed.
#[export] Instance mono_kill h : Mono (forceKillNode h).
Proof. intros P HP s Hs. by apply closed_kill. Qed.
#[export] Instance mono_root h : Mono (update_st (set_root h)).
Proof. intros P HP s Hs. exact (closed_root _ HP h s Hs). Qed.

Lemma mono_and_also a (b : M St bool) : Mono b -> Mono (and_also a b).
Proof. unfold and_also. intros. destruct a; apply _. Qed.
Lemma mono_or_else a (b : M St bool) : Mono b -> Mono (or_else a b).
Proof. unfold or_else. intros. destruct a; apply _. Qed.

Lemma wp_bind {A C} (m : M St A) (k : A -> M St C) s Q :
  (forall a, Mono (k a)) -> wp m s (fun a s' => wp (k a) s' Q) -> wp (m ≫= k) s Q.
Proof.
  intros Hk Hw. unfold wp, mbind, M_bind in *. destruct (m s) as [s' [a|e]]; cbn in *.
  - destruct Hw as [Hf|(b & [= <-] & Hw)]; [left; by apply (Hk a _ closed_fault)|done].
  - destruct Hw as [Hf|(b & [=] & _)]. by left.
Qed.

Lemma wp_ret {A} (a : A) s (Q : A -> St -> Prop) : Q a s -> wp (mret a) s Q.
Proof. intros H. right. by exists a. Qed.

Lemma wp_lift {A} (r : res A) a s (Q : A -> St -> Prop) : r = inl a -> Q a s -> wp (lift r) s Q.
Proof. intros -> H. right. by exists a. Qed.

(** A step that returns at once *)
Lemma wp_lift_bind {A C} (r : res A) a (k : A -> M St C) s Q : r = inl a -> wp (k a) s Q -> wp (lift r ≫= k) s Q.
Proof. intros -> H. done. Qed.

Lemma wp_ret_bind {A C} (a : A) (k : A -> M St C) s Q : wp (k a) s Q -> wp (mret a ≫= k) s Q.
Proof. done. Qed.

Lemma wp_get_bind {C} (k : St -> M St C) s Q : wp (k s) s Q -> wp (get_st ≫= k) s Q.
Proof. done. Qed.

Lemma wp_wand {A} (m : M St A) s (Q Q' : A -> St -> Prop) : wp m s Q -> (forall a s', Q a s' -> Q' a s') -> wp m s Q'.
Proof. intros [Hf|(a & Ha & Hq)] HQ; [by left|right; exists a; auto]. Qed.

(** A fault stays recorded by other computations too *)
Definition keeps_fault {A} (m : M St A) : Prop := forall s, m_fault s = true -> m_fault (m s).1 = true.

Lemma keeps_mono {A} (m : M St A) : Mono m -> keeps_fault m.
Proof. intros Hm s. by apply (Hm _ closed_fault). Qed.

Lemma keeps_bind {A C} (m : M St A) (k : A -> M St C) : keeps_fault m -> (forall a, keeps_fault (k a)) -> keeps_fault (m ≫= k).
Proof.
  intros Hm Hk s Hs. unfold mbind, M_bind. specialize (Hm s Hs). destruct (m s) as [s' [a|e]]; cbn in *; [by apply Hk|done].
Qed.

Lemma wp_keeps {A C} (m : M St A) (k : A -> M St C) s Q :
  (forall a, keeps_fault (k a)) -> wp m s (fun a s' => wp (k a) s' Q) -> wp (m ≫= k) s Q.
Proof.
  intros Hk Hw. unfold wp, mbind, M_bind in *. destruct (m s) as [s' [a|e]]; cbn in *.
  - destruct Hw as [Hf|(b & [= <-] & Hw)]; [left; by apply (Hk a)|done].
  - destruct Hw as [Hf|(b & [=] & _)]. by left.
Qed.

(** What the steps keep *)
Lemma wp_closed {A} (m : M St A) `{!Mono m} P s Q : closed P -> P s -> wp m s Q -> wp m s (fun a s' => Q a s' /\ P s').
Proof.
  intros HP Hs Hw. pose proof (mono P HP s Hs) as Hc. destruct Hw as [Hf|(a & E & HQ)]; [by left|]. right. exists a. done.
Qed.

(** ** The database *)

Section Inv.
Context (X : h256 -> Prop) (rt : h256) (ca : list h256).

Record Inv (L : list (list Z)) (s : St) : Prop := {
  inv_valid : db_valid (t_db s);
  inv_fault : m_fault s = false;
  inv_root : m_root s = rt;
  inv_cache : m_rootCache s = ca;
  inv_stored : forall e, e ∈ L -> e <> [] /\ db_lookup (t_db s) (SHA3_256 e) = e;
  inv_refs : forall h, X h -> db_refs (t_db s) h = occ h (SHA3_256 <$> L)
}.

#[export] Instance Inv_perm : Proper (Permutation ==> eq ==> iff) Inv.
Proof.
  assert (H : forall L L' s, L ≡ₚ L' -> Inv L s -> Inv L' s).
  { intros L L' s Hp [? ? ? ? Hs Hr]. constructor; try done.
    - intros e He. apply Hs. by rewrite Hp.
    - intros h HX. by rewrite Hr, Hp. }
  intros L L' Hp s ? <-. split; by apply H.
Qed.

Lemma wp_node e L s : Inv L s -> e ∈ L -> wp (node (SHA3_256 e)) s (fun v s' => v = e /\ s' = s).
Proof.
  intros HI He. right. exists e. split; [|done].
  change (inl (db_lookup (t_db s) (SHA3_256 e)) = inl e :> res _). f_equal. by apply (inv_stored _ _ HI).
Qed.

Lemma wp_insert e L s :
  Inv L s -> e <> [] -> wp (forceInsertNode e) s (fun h s' => h = SHA3_256 e /\ Inv (e :: L) s').
Proof.
  intros [Hv Hf Hrt Hca Hs Hr] He. unfold wp. rewrite insert_run. cbn [fst snd m_fault]. rewrite Hf. cbn [orb]. unfold insert_fault. case_bool_decide as Hc; [by left|].
  right. exists (SHA3_256 e). split; [done|]. split; [done|].
  assert (Hold : db_lookup (t_db s) (SHA3_256 e) = [] \/ db_lookup (t_db s) (SHA3_256 e) = e).
  { destruct (decide (db_lookup (t_db s) (SHA3_256 e) = [])); [by left|].
    destruct (decide (db_lookup (t_db s) (SHA3_256 e) = e)); [by right|]. destruct Hc. by left. }
  constructor; cbn; try done.
  - by apply valid_insert.
  - intros x [->|Hx]%elem_of_cons; [split; [done|]; by rewrite db_lookup_insert, decide_True|].
    destruct (Hs x Hx) as [Hne Hl]. split; [done|]. rewrite db_lookup_insert by done. case_decide as E; [|done].
    rewrite E in Hold. rewrite Hl in Hold. destruct Hold as [?|?]; [done|by subst].
  - intros h HX. rewrite db_refs_insert by done. specialize (Hr h HX). rewrite occ_cons.
    pose proof (db_refs_range (t_db s) (SHA3_256 e) Hv) as R. unfold is_word in R. case_decide as E.
    + subst h. rewrite decide_True by done. rewrite u32_id; [rewrite Hr; lia|]. unfold is_word.
      assert (db_refs (t_db s) (SHA3_256 e) <> 2 ^ 32 - 1) by (intros E; destruct Hc; by right). lia.
    + rewrite decide_False by congruence. rewrite Hr. lia.
Qed.

Lemma wp_kill e L s : Inv (e :: L) s -> wp (forceKillNode (SHA3_256 e)) s (fun _ s' => Inv L s').
Proof.
  intros [Hv Hf Hrt Hca Hs Hr]. right. exists tt. split; [done|]. constructor; cbn; try done.
  - by apply valid_kill.
  - intros x Hx. destruct (Hs x) as [? ?]; [by right|]. split; [done|]. by rewrite db_lookup_kill.
  - intros h HX. rewrite db_refs_kill by done. specialize (Hr h HX). rewrite fmap_cons, occ_cons in Hr. case_decide as E.
    + subst h. rewrite decide_True by done. pose proof (occ_nonneg (SHA3_256 e) (SHA3_256 <$> L)). lia.
    + rewrite decide_False by congruence. lia.
Qed.

Lemma wp_killNode t L s : Inv (own t ++ L) s -> wp (killNode (enc t) (SHA3_256 (enc t))) s (fun _ s' => Inv L s').
Proof.
  intros HI. unfold killNode, own in *. destruct (decide (length (enc t) < 32)%nat) as [Hl|Hl].
  - rewrite decide_False by lia. by apply wp_ret.
  - rewrite decide_True by lia. by apply wp_kill.
Qed.

(** A node that was written is there, or stands in its parent *)
Lemma wp_streamNode n t m xs L s :
  Inv L s -> ww n t -> (length xs < m)%nat -> len (encode_all (xs ++ [ref t])) < max_size ->
  wp (streamNode (building m xs) (enc t)) s (fun st s' => st = building m (xs ++ [ref t]) /\ Inv (own t ++ L) s').
Proof.
  intros HI Hw Hm Hs. unfold streamNode, own, ref, ref_item in *. fold (enc t) in *. case_decide as Hl.
  - eapply wp_lift; [|done]. apply building_step; [apply appendRaw_writes|done|done].
  - apply wp_bind; [apply _|]. eapply wp_wand; [apply wp_insert; [done|apply enc_ne]|]. intros h s' [-> HI'].
    eapply wp_lift; [|done]. apply building_step; [|done|done]. apply append_writes. by eapply hash_readable, enc_bytes.
Qed.

(** The node behind a reference *)
Lemma wp_follow n t L s :
  Inv L s -> ww n t -> is_empty t = false -> (forall e, e ∈ own t -> e ∈ L) ->
  wp (follow (encode (ref t))) s (fun r s' => r = enc t /\ s' = s).
Proof.
  intros HI Hw He Hin. unfold follow. destruct (ref_read n t Hw) as [_ [(Hl & -> & -> & _)|(Hl & _ & -> & _ & Eh)]].
  - rewrite He. cbn [negb]. by apply wp_ret.
  - rewrite Eh. apply (wp_lift_bind _ _ _ _ _ eq_refl). apply wp_bind; [apply _|].
    eapply wp_wand; [eapply wp_node; [done|]|].
    + apply Hin. unfold own. rewrite decide_False by done. left.
    + intros v s' [-> ->]. eapply wp_lift; [by eapply enc_RLP|done].
Qed.
End Inv.
End Wp.

Arguments wp {DB A} m s Q : simpl never.

(** Monotonicity of a computation, by its structure *)
Ltac solve_mono :=
  intros;
  repeat first
    [ progress intros
    | apply _
    | apply mono_bind
    | apply mono_and_also
    | apply mono_or_else
    | match goal with |- Mono (match ?x with _ => _ end) => destruct x end ].
