(* ===== verification/TrieInsert.v ===== *)
(** * at and insert of the trie compute look-up and insertion of the tree *)

From stdpp Require Import gmap.
From S2P Require Import Prelude Words Exn Rlp RlpSpec RlpClaims TrieCommon MemoryDB TrieDB.
From S2P Require Import TrieKeys TrieSpec TrieTree TrieRead TrieWp.

#[local] Set Warnings "-register-all".

#[local] Open Scope Z_scope.

Section Monotone.
Context {DB : Type} {B : Backend DB} {BL : BackendLaws DB} {Api : Sha3Api}.

Abbreviation St := (GenericTrieDB DB).

(** ** Faults stay recorded *)

#[export] Instance mono_killNode d h : Mono (DB := DB) (killNode d h).
Proof. unfold killNode. solve_mono. Qed.
#[export] Instance mono_killNode_ d : Mono (DB := DB) (killNode_ d).
Proof. apply _. Qed.
#[export] Instance mono_streamNode st b : Mono (DB := DB) (streamNode st b).
Proof. unfold streamNode. solve_mono. Qed.
#[export] Instance mono_follow n : Mono (DB := DB) (follow n).
Proof. unfold follow. solve_mono. Qed.
#[export] Instance mono_isTwoItemNode n : Mono (DB := DB) (isTwoItemNode n).
Proof. unfold isTwoItemNode. solve_mono. Qed.
Lemma mono_stream_items f orig js r : (forall i g r, f i = Some g -> Mono (DB := DB) (g r)) -> Mono (stream_items f orig js r).
Proof.
  intros Hf. revert r. induction js as [|i js IH]; intros r; cbn [stream_items]; [apply _|].
  apply mono_bind; [|done]. destruct (f i) eqn:E; [by eapply Hf|solve_mono].
Qed.
#[export] Instance mono_no_change orig js r : Mono (DB := DB) (stream_items no_change orig js r).
Proof. by apply mono_stream_items. Qed.
Lemma mono_change_at n g orig js r : (forall r, Mono (DB := DB) (g r)) -> Mono (stream_items (change_at n g) orig js r).
Proof. intros Hg. apply mono_stream_items. unfold change_at. intros i h r' E. case_decide; [|done]. by injection E as <-. Qed.
#[export] Instance mono_place orig k s : Mono (DB := DB) (place orig k s).
Proof. unfold place. solve_mono. Qed.
#[export] Instance mono_cleve orig s : Mono (DB := DB) (cleve orig s).
Proof. unfold cleve. solve_mono. Qed.
#[export] Instance mono_graft orig : Mono (DB := DB) (graft orig).
Proof. unfold graft. solve_mono. Qed.
#[export] Instance mono_merge orig i : Mono (DB := DB) (merge orig i).
Proof. unfold merge. solve_mono. Qed.
Lemma mono_branch_items b x js r : (forall r, Mono (DB := DB) (x r)) -> Mono (branch_items b x js r).
Proof.
  intros Hx. revert r. induction js as [|i js IH]; intros r; cbn [branch_items]; [apply _|].
  apply mono_bind; [|done]. case_decide; [done|apply _].
Qed.
#[export] Instance mono_branch orig : Mono (DB := DB) (branch orig).
Proof.
  unfold branch. apply mono_bind; [apply _|]. intros. apply mono_bind; [apply _|]. intros k. apply mono_bind; [apply _|]. intros.
  apply mono_bind; [|apply _]. case_decide.
  - apply mono_bind; [apply mono_branch_items; apply _|]. solve_mono.
  - apply mono_bind; [apply _|]. intros. apply mono_bind; [|apply _]. apply mono_branch_items. solve_mono.
Qed.
#[export] Instance mono_atAux fuel here key : Mono (DB := DB) (atAux fuel here key).
Proof. revert here key. induction fuel as [|fuel IH]; intros; cbn [atAux]; solve_mono. Qed.
Lemma mono_mergeAtAux recur out orig k : (forall o k b, Mono (DB := DB) (recur o k b)) -> Mono (mergeAtAux recur out orig k).
Proof. intros. unfold mergeAtAux. apply mono_bind; [solve_mono|]. intros [r i]. solve_mono. Qed.
#[export] Instance mono_mergeAt fuel orig h k v i : Mono (DB := DB) (mergeAt fuel orig h k v i).
Proof.
  revert orig h k i. induction fuel as [|fuel IH]; intros orig h k i; cbn [mergeAt]; [apply _|].
  destruct (isEmpty orig); [apply _|]. apply mono_bind; [apply _|]. intros c. case_decide.
  - apply mono_bind; [apply _|]. intros ok. apply mono_bind; [solve_mono|]. intros []; [apply _|].
    apply mono_bind; [apply mono_and_also; solve_mono|]. intros [].
    + apply mono_bind; [solve_mono|]. intros. do 4 (apply mono_bind; [apply _|]; intros).
      apply mono_bind; [apply mono_mergeAtAux; intros; apply IH|solve_mono].
    + case_decide; solve_mono.
  - case_decide; [apply _|]. apply mono_bind; [solve_mono|]. intros. do 2 (apply mono_bind; [apply _|]; intros).
    apply mono_bind; [|apply _]. apply mono_change_at. intros. apply mono_bind; [apply _|]. intros.
    apply mono_mergeAtAux. intros. apply IH.
Qed.

End Monotone.

Ltac mono_all :=
  repeat first
    [ progress intros
    | apply _
    | apply mono_and_also
    | apply mono_or_else
    | apply mono_branch_items
    | apply mono_change_at
    | apply mono_mergeAtAux
    | apply mono_bind
    | match goal with |- Mono (match ?x with _ => _ end) => destruct x end ].

Section Insert.
Context {DB : Type} {B : Backend DB} {BL : BackendLaws DB} {Api : Sha3Api}.

Abbreviation St := (GenericTrieDB DB).

(** ** at *)

Section Spec.
Context (X : h256 -> Prop) (rt : h256) (ca : list h256).
Abbreviation I := (Inv (DB := DB) X rt ca).

Lemma elem_of_below_branch cs i c e : cs !! i = Some c -> e ∈ nodes c -> e ∈ below (Branch cs).
Proof.
  intros Hc He. rewrite below_branch. apply list_elem_of_bind. exists c. split; [done|]. by eapply list_elem_of_lookup_2.
Qed.

Lemma ww_leaf_inv n k v : ww n (Leaf k v) -> key_ok k /\ value_ok v /\ length k = n.
Proof. intros H. by inversion H. Qed.

Lemma value_readable v : value_ok v -> readable (Str v) /\ len (encode (Str v)) <= 2 ^ 62 + 9.
Proof.
  intros [Hv Hl]. assert (Hr : readable (Str v)) by (apply readable_str; [done|lia]). split; [done|].
  pose proof (len_encode _ Hr). cbn [payload_of] in *. lia.
Qed.

(** [a && isLeaf(..)] and [a && !isLeaf(..)] *)
Lemma wp_and_lift {C} a (r : res bool) b (k : bool -> M St C) s Q :
  r = inl b -> wp (k (a && b)) s Q -> wp (and_also a (lift r) ≫= k) s Q.
Proof. intros ->. by destruct a, b. Qed.
Lemma wp_and_not {C} a (r : res bool) b (k : bool -> M St C) s Q :
  r = inl b -> wp (k (a && negb b)) s Q -> wp (and_also a (x ← lift r; mret (negb x)) ≫= k) s Q.
Proof. intros ->. by destruct a, b. Qed.

Lemma wp_lift2_bind {A C D} (r : res A) (f : A -> res C) a b (k : C -> M St D) s Q :
  r = inl a -> f a = inl b -> wp (k b) s Q -> wp ((x ← lift r; lift (f x)) ≫= k) s Q.
Proof. intros -> E H. unfold wp, mbind, M_bind, lift in *. by rewrite E. Qed.

Lemma atAux_spec fuel n t key L s :
  I L s -> ww n t -> (forall e, e ∈ below t -> e ∈ L) -> slice_ok key -> length (slice_nibs key) = n -> (n < fuel)%nat ->
  wp (atAux fuel (enc t) key) s (fun v s' => v = default [] (tget t (slice_nibs key)) /\ s' = s).
Proof.
  revert n t key. induction fuel as [|fuel IH]; intros n t key HI Hw Hin Hk Hn Hf; [lia|]. cbn [atAux].
  rewrite (enc_isEmpty n t Hw), (enc_isNull n t Hw), orb_false_r. destruct t as [|k v|k c|cs]; cbn [is_empty].
  - by apply wp_ret.
  - apply ww_leaf_inv in Hw as Hw'. destruct Hw' as (Hk0 & Hv & Hl).
    destruct (two_read n (Leaf k v) true k (Str v) Hw eq_refl Hk0) as (-> & _ & E1 & -> & sl & -> & Hsl & Hsn).
    apply (wp_lift_bind _ _ _ _ _ eq_refl). rewrite decide_True by done. apply (wp_lift_bind _ _ _ _ _ eq_refl).
    apply (wp_and_lift _ _ _ _ _ _ eq_refl). rewrite slice_eqb_nibs, Hsn, andb_true_r by done. cbn [tget].
    case_bool_decide as E.
    + rewrite decide_True by done. apply (wp_lift_bind _ _ _ _ _ E1). eapply wp_lift; [apply toString_item; by apply value_readable|done].
    + rewrite decide_False by done. apply (wp_and_not _ _ _ _ _ _ eq_refl). rewrite andb_false_r. by apply wp_ret.
  - apply ww_ext_inv in Hw as Hw'. destruct Hw' as (Hk0 & Hne & Hce & Hl & Hc).
    destruct (two_read n (Ext k c) false k (ref c) Hw eq_refl Hk0) as (-> & _ & E1 & -> & sl & -> & Hsl & Hsn).
    apply (wp_lift_bind _ _ _ _ _ eq_refl). rewrite decide_True by done. apply (wp_lift_bind _ _ _ _ _ eq_refl).
    apply (wp_and_lift _ _ _ _ _ _ eq_refl). rewrite andb_false_r. apply (wp_and_not _ _ _ _ _ _ eq_refl).
    rewrite andb_true_r, contains_nibs, Hsn by done. cbn [tget]. case_bool_decide as Hp.
    + rewrite decide_True by done. apply (wp_lift_bind _ _ _ _ _ E1). apply wp_bind; [apply _|].
      eapply wp_wand; [apply (wp_follow X rt ca (n - length k) c L); [done|done|by destruct c|]|].
      * intros e He. apply Hin. cbn [below]. apply elem_of_app. by left.
      * intros r s' [-> ->]. rewrite slice_size_nibs, Hsn.
        eapply wp_wand; [apply (IH (n - length k)%nat c); [done|done| |by apply mid_ok; [done|lia]| |]|].
        -- intros e He. apply Hin. cbn [below]. apply elem_of_app. by right.
        -- rewrite mid_nibs, length_drop. lia.
        -- assert (0 < length k)%nat by (destruct k; [done|cbn; lia]). lia.
        -- intros v s' [-> ->]. by rewrite mid_nibs.
    + rewrite decide_False by done. by apply wp_ret.
  - destruct (branch_read n cs Hw) as (-> & Hat & _). inversion Hw as [| | |m ? Hl16 Hcs]; subst.
    apply (wp_lift_bind _ _ _ _ _ eq_refl). rewrite decide_False by done. rewrite slice_size_nibs.
    destruct (slice_nibs key) as [|i ks] eqn:Ek; [done|]. rewrite decide_False by done.
    apply (wp_lift_bind _ _ _ _ _ (slice_at_nibs key 0 i ltac:(by rewrite Ek))).
    pose proof (slice_nibs_nibs key Hk) as Hnk. rewrite Ek in Hnk. apply Forall_cons_1 in Hnk as [Hi Hks].
    destruct (cs !! Z.to_nat i) as [c|] eqn:Ec; [|apply lookup_ge_None in Ec; lia].
    pose proof (Hat _ _ Ec) as Ea. rewrite Z2Nat.id in Ea by lia. apply (wp_lift_bind _ _ _ _ _ Ea).
    pose proof (Forall_lookup_1 _ _ _ _ Hcs Ec) as Hc. destruct (ref_read m c Hc) as [-> _]. rewrite tget_branch, Ec. cbn [mbind option_bind].
    destruct (is_empty c) eqn:He; [destruct c; try done; by apply wp_ret|].
    apply wp_bind; [apply _|]. eapply wp_wand; [apply (wp_follow X rt ca m c L); [done|done|done|]|].
    + intros e Hoe. apply Hin. eapply elem_of_below_branch; [done|]. apply elem_of_app. by left.
    + intros r s' [-> ->]. eapply wp_wand; [apply (IH m c); [done|done| |apply mid_ok; [done|by rewrite Ek; cbn; lia]| |lia]|].
      * intros e Hbe. apply Hin. eapply elem_of_below_branch; [done|]. apply elem_of_app. by right.
      * rewrite mid_nibs, Ek. change (drop 1 (i :: ks)) with ks. cbn [length] in *. congruence.
      * intros v s' [-> ->]. by rewrite mid_nibs, Ek.
Qed.

(** ** Rewriting a node *)

Lemma wp_killNode_ t L s : I (own t ++ L) s -> wp (killNode_ (enc t)) s (fun _ s' => I L s').
Proof. apply wp_killNode. Qed.

Lemma own_empty : own Empty = [].
Proof. unfold own. by rewrite decide_True by apply empty_inline. Qed.

Lemma leaf_of k v : key_ok k -> value_ok v ->
  rlpList2 (append_str (hp true k)) (append_str v) = inl (enc (Leaf k v)).
Proof.
  intros Hk Hv. destruct (value_readable v Hv) as [Hr Hs].
  apply (rlpList2_spec _ _ (Str (hp true k)) (Str v)); [by apply append_writes, hp_readable|by apply append_writes|by apply two_readable].
Qed.

Lemma place_empty k v L s :
  I L s -> slice_ok k -> key_ok (slice_nibs k) -> value_ok v ->
  wp (place (enc Empty) k v) s (fun b s' => b = enc (Leaf (slice_nibs k) v) /\ I L s').
Proof.
  intros HI Hk Hkn Hv. unfold place. apply wp_bind; [solve_mono|].
  eapply wp_wand; [apply wp_killNode_; by rewrite own_empty|]. intros [] s' HI'.
  rewrite (enc_isEmpty 0 Empty) by constructor. cbn [is_empty].
  eapply wp_lift; [|done]. rewrite hexPrefixSlice_all by done. by apply leaf_of.
Qed.

Lemma place_leaf n k0 v0 k v L s :
  I (own (Leaf k0 v0) ++ L) s -> ww n (Leaf k0 v0) -> value_ok v ->
  wp (place (enc (Leaf k0 v0)) k v) s (fun b s' => b = enc (Leaf k0 v) /\ I L s').
Proof.
  intros HI Hw Hv. unfold place. apply wp_bind; [solve_mono|].
  eapply wp_wand; [by apply wp_killNode_|]. intros [] s' HI'. apply ww_leaf_inv in Hw as Hw'. destruct Hw' as (Hk0 & Hv0 & _).
  rewrite (enc_isEmpty n _ Hw). cbn [is_empty].
  destruct (two_read n (Leaf k0 v0) true k0 (Str v0) Hw eq_refl Hk0) as (-> & E0 & _).
  apply (wp_lift_bind _ _ _ _ _ eq_refl). rewrite decide_True by done. apply (wp_lift_bind _ _ _ _ _ E0).
  eapply wp_lift; [|done]. destruct (value_readable v Hv) as [Hr Hs].
  apply (rlpList2_spec _ _ (Str (hp true k0)) (Str v)); [apply appendRaw_writes|by apply append_writes|by apply two_readable].
Qed.

(** A leaf or an extension, with its key *)
Inductive pair_node : tree -> bool -> list Z -> item -> Prop :=
  | pair_leaf k v : pair_node (Leaf k v) true k (Str v)
  | pair_ext k c : pair_node (Ext k c) false k (ref c).

Lemma pair_two t leaf k x : pair_node t leaf k x -> two t leaf k x.
Proof. by destruct 1. Qed.

Lemma pair_key n t leaf k x : pair_node t leaf k x -> ww n t -> key_ok k /\ readable x /\ len (encode x) <= 2 ^ 62 + 9.
Proof.
  destruct 1 as [k v|k c]; intros Hw.
  - apply ww_leaf_inv in Hw as (Hk & Hv & _). split; [done|by apply value_readable].
  - apply ww_ext_inv in Hw as (Hk & _ & _ & _ & Hc). split; [done|].
    destruct (ref_readable (item_of c)) as [? ?]; [by eapply ww_readable|]. split; [done|]. unfold ref. lia.
Qed.

Lemma pair_len n t leaf k x : pair_node t leaf k x -> ww n t -> (length k <= n)%nat.
Proof.
  destruct 1 as [k v|k c]; intros Hw; [apply ww_leaf_inv in Hw as (_ & _ & <-); lia|].
  by apply ww_ext_inv in Hw as (_ & _ & _ & ? & _).
Qed.

(** The node behind a part of the key *)
Lemma pair_rest n t leaf p k' x :
  pair_node t leaf (p ++ k') x -> ww n t -> (leaf = true \/ k' <> []) ->
  ww (n - length p) (node_rest t k') /\ two (node_rest t k') leaf k' x /\ below (node_rest t k') = below t /\ node_rest t k' <> Empty.
Proof.
  intros Hp Hw Hne. inversion Hp as [k v|k c]; subst.
  - apply ww_leaf_inv in Hw as (Hk & Hv & Hl). apply key_ok_app in Hk as [_ Hk]. cbn [node_rest]. rewrite length_app in Hl.
    split; [|done]. replace (n - length p)%nat with (length k') by lia. by constructor.
  - apply ww_ext_inv in Hw as (Hk & _ & Hce & Hl & Hc). apply key_ok_app in Hk as [_ Hk]. destruct Hne as [[=]|Hne].
    cbn [node_rest]. unfold wrap. rewrite decide_False by done. rewrite length_app in *. split; [|done].
    replace (n - length p)%nat with (length k' + (n - (length p + length k')))%nat by lia. by constructor.
Qed.

Lemma cleve_spec n t leaf p k' x L s :
  pair_node t leaf (p ++ k') x -> ww n t -> p <> [] -> k' <> [] -> I (own t ++ below t ++ L) s ->
  wp (cleve (enc t) (length p)) s (fun b s' => b = enc (Ext p (node_rest t k')) /\ I (nodes (node_rest t k') ++ L) s').
Proof.
  intros Hp Hw Hpn Hkn HI. destruct (pair_key n _ _ _ _ Hp Hw) as (Hk & Hx & Hxs).
  destruct (two_read n t leaf (p ++ k') x Hw (pair_two _ _ _ _ Hp) Hk) as (_ & _ & E1 & E2 & sl & E3 & Hsl & Hsn).
  destruct (pair_rest n t leaf p k' x Hp Hw (or_intror Hkn)) as (Hwr & Hr2 & Hb & Hre).
  apply key_ok_app in Hk as [Hkp Hk'].
  assert (Hl : (length p <= length (slice_nibs sl))%nat) by (rewrite Hsn, length_app; lia).
  unfold cleve. apply wp_bind; [solve_mono|]. eapply wp_wand; [by apply wp_killNode_|]. intros [] s1 HI1.
  apply (wp_lift_bind _ _ _ _ _ E3). apply (wp_lift_bind _ _ _ _ _ E2). apply (wp_lift_bind _ _ _ _ _ E1).
  assert (Ebot : rlpList2 (append_str (hexPrefixSlice sl leaf (Z.of_nat (length p)) (-1))) (append_item (encode x)) = inl (enc (node_rest t k'))).
  { rewrite hexPrefixSlice_end by done. rewrite Hsn, drop_app_length. unfold enc. rewrite Hr2.
    apply rlpList2_spec; [by apply append_writes, hp_readable|apply appendRaw_writes|by apply two_readable]. }
  apply (wp_lift_bind _ _ _ _ _ Ebot).
  assert (Ht : len (encode_all [Str (hp false p)]) < max_size).
  { destruct (hp_readable false p Hkp) as [_ Hs]. rewrite encode_all_cons, len_app. change (len (encode_all [])) with 0. destruct Hkp as [_ ?]. lia. }
  apply (wp_lift_bind _ _ _ _ _ (stream_list_building 2 ltac:(lia))).
  assert (Es : append_str (hexPrefixSlice sl false 0 (Z.of_nat (length p))) (building 2 []) = inl (building 2 [Str (hp false p)])).
  { rewrite hexPrefixSlice_front, Hsn, take_app_length by done.
    apply (building_step 2 [] (Str (hp false p))); [by apply append_writes, hp_readable|cbn; lia|done]. }
  apply (wp_lift_bind _ _ _ _ _ Es).
  assert (Hwe : ww (length p + (n - length p)) (Ext p (node_rest t k'))) by by constructor.
  pose proof (ww_readable _ _ Hwe) as [_ Hsz]. cbn [item_of payload_of] in Hsz.
  apply wp_bind; [apply _|]. eapply wp_wand; [apply (wp_streamNode X rt ca (n - length p)); [done|done|cbn; lia|done]|].
  intros st s2 [-> HI2]. eapply wp_lift; [by apply building_out|]. split; [done|].
  unfold nodes. rewrite Hb, <-app_assoc. done.
Qed.

(** ** Branches *)

Definition small (x : item) : Prop := len (encode x) <= 33.

Lemma small_all xs : Forall small xs -> (length xs <= 17)%nat -> len (encode_all xs) < max_size.
Proof. intros Hx Hl. pose proof (encode_all_bound xs 33 Hx). lia. Qed.

Lemma small_ref n t : ww n t -> small (ref t).
Proof. intros Hw. by eapply ref_readable, ww_readable. Qed.

Lemma small_null : small (Str []).
Proof. by vm_compute. Qed.

Lemma small_refs n cs : Forall (ww n) cs -> Forall small (map ref cs).
Proof. intros Hc. apply List.Forall_map. apply (list.Forall_impl _ _ _ Hc). intros t. apply small_ref. Qed.

Lemma building_small m xs x f : writes f x -> Forall small xs -> small x -> (length xs < m <= 17)%nat ->
  on_stream f (building m xs) = inl (building m (xs ++ [x])).
Proof.
  intros Hf Hx Hs Hl. apply building_step; [done|lia|]. apply small_all; [apply Forall_app; by split; [|apply Forall_singleton]|].
  rewrite length_app. cbn. lia.
Qed.

Lemma null_writes : writes (append [] false) (Str []).
Proof. apply append_writes, readable_str; [by apply Forall_nil_2|by vm_compute]. Qed.

Lemma branch_items_app b x l1 l2 r (s : St) :
  branch_items b x (l1 ++ l2) r s = (branch_items b x l1 r ≫= branch_items b x l2) s.
Proof.
  revert r s. induction l1 as [|i l1 IH]; intros r s; [done|]. cbn [branch_items app]. rewrite <-bind_assoc_st.
  unfold mbind, M_bind in *. destruct (_ s) as [s' [a|e]]; [|done]. apply IH.
Qed.

Lemma wp_branch_items_app b x l1 l2 r (s : St) Q :
  wp (branch_items b x l1 r ≫= branch_items b x l2) s Q -> wp (branch_items b x (l1 ++ l2) r) s Q.
Proof. unfold wp. by rewrite branch_items_app. Qed.

Lemma branch_items_null b x a m xs (s : St) :
  (forall i, (a <= i < a + m)%nat -> Z.of_nat i <> b) -> Forall small xs -> (length xs + m <= 17)%nat ->
  wp (branch_items b x (seq a m) (building 17 xs)) s
    (fun r s' => r = building 17 (xs ++ replicate m (Str [])) /\ s' = s).
Proof.
  revert a xs. induction m as [|m IH]; intros a xs Hb Hx Hl.
  - apply wp_ret. by rewrite app_nil_r.
  - cbn [seq branch_items]. rewrite decide_False by (apply Hb; lia).
    apply (wp_lift_bind _ _ _ _ _ (building_small 17 xs (Str []) _ null_writes Hx small_null ltac:(lia))).
    eapply wp_wand; [apply IH|].
    + intros i Hi. apply Hb. lia.
    + apply Forall_app. split; [done|]. apply Forall_singleton, small_null.
    + rewrite length_app. cbn. lia.
    + intros r s' [-> ->]. by rewrite <-app_assoc.
Qed.

Lemma seq_split i : (i < 16)%nat -> seq 0 16 = seq 0 i ++ i :: seq (S i) (15 - i).
Proof. intros Hi. replace 16%nat with (i + S (15 - i))%nat at 1 by lia. by rewrite seq_app. Qed.

Lemma one_child i u : (i < 16)%nat ->
  map ref (<[i := u]> no_children) = replicate i (Str []) ++ ref u :: replicate (15 - i) (Str []).
Proof.
  intros Hi. unfold no_children. replace 16%nat with (i + S (15 - i))%nat by lia. rewrite replicate_add.
  rewrite insert_app_r_alt by (rewrite length_replicate; lia). rewrite length_replicate, Nat.sub_diag. cbn [replicate].
  rewrite map_app. cbn [list_insert insert map]. assert (E : forall m, map ref (replicate m Empty) = replicate m (Str [])).
  { induction m as [|m IH]; [done|]. cbn. by rewrite IH. }
  change (map ref (replicate i Empty) ++ ref u :: map ref (replicate (15 - i) Empty) = replicate i (Str []) ++ ref u :: replicate (15 - i) (Str [])).
  by rewrite !E.
Qed.

Lemma pair_rest_ww n t leaf x k1 y : pair_node t leaf (x :: k1) y -> ww n t -> exists m, ww m (node_rest t k1).
Proof.
  intros Hp Hw. destruct (decide (leaf = true \/ k1 <> [])) as [Hlk|Hlk].
  - destruct (pair_rest n t leaf [x] k1 y Hp Hw Hlk) as (? & _). eauto.
  - inversion Hp as [|k c]; subst; [destruct Hlk; by left|]. apply ww_ext_inv in Hw as (_ & _ & _ & _ & Hc).
    destruct k1; [|destruct Hlk; by right]. eauto.
Qed.

(** The child of a new branch: the pair without its first nibble *)
Lemma branch_child n m t leaf x k1 y sl i L s :
  pair_node t leaf (x :: k1) y -> ww n t -> ww m (node_rest t k1) -> slice_ok sl -> slice_nibs sl = x :: k1 -> (i < 16)%nat ->
  I (below t ++ L) s ->
  wp (leaf0 ← lift (isLeaf (enc t)); o1 ← lift (rlp_at (enc t) 1);
      if (leaf0 : bool) || bool_decide (1 < length (x :: k1))%nat then
        n0 ← lift (rlpList2 (append_str (hexPrefixSlice (mid sl 1) leaf0 0 (-1))) (append_item o1)); streamNode (building 17 (replicate i (Str []))) n0
      else lift (append_item o1 (building 17 (replicate i (Str []))))) s
    (fun r s' => r = building 17 (replicate i (Str []) ++ [ref (node_rest t k1)]) /\ I (nodes (node_rest t k1) ++ L) s').
Proof.
  intros Hp Hw Hu Hsl Hsn Hi HI1. destruct (pair_key n _ _ _ _ Hp Hw) as (Hk & Hy & Hys).
  destruct (two_read n t leaf (x :: k1) y Hw (pair_two _ _ _ _ Hp) Hk) as (_ & _ & E1 & E2 & _).
  apply key_ok_cons in Hk as [Hx Hk1]. set (u := node_rest t k1) in *.
  assert (Hsm : Forall small (replicate i (Str []))) by apply Forall_replicate, small_null.
  apply (wp_lift_bind _ _ _ _ _ E2). apply (wp_lift_bind _ _ _ _ _ E1).
  assert (Hlen : len (encode_all (replicate i (Str []) ++ [ref u])) < max_size).
  { apply small_all; [apply Forall_app; split; [done|]; apply Forall_singleton; by eapply small_ref|].
    rewrite length_app, length_replicate. cbn. lia. }
  destruct (leaf || bool_decide (1 < length (x :: k1))%nat) eqn:Elk.
  - assert (Hlk : leaf = true \/ k1 <> []).
    { apply orb_true_iff in Elk as [->|Hl]; [by left|]. apply bool_decide_eq_true in Hl. right. intros ->. cbn in Hl. lia. }
    destruct (pair_rest n t leaf [x] k1 y Hp Hw Hlk) as (Hwr & Hr2 & Hb & _).
    assert (En : rlpList2 (append_str (hexPrefixSlice (mid sl 1) leaf 0 (-1))) (append_item (encode y)) = inl (enc u)).
    { rewrite hexPrefixSlice_all by (apply mid_ok; [done|rewrite Hsn; cbn; lia]). rewrite mid_nibs, Hsn. unfold enc, u. rewrite Hr2.
      apply rlpList2_spec; [by apply append_writes, hp_readable|apply appendRaw_writes|by apply two_readable]. }
    apply (wp_lift_bind _ _ _ _ _ En).
    eapply wp_wand; [apply (wp_streamNode X rt ca m); [exact HI1|done|rewrite length_replicate; lia|done]|].
    intros r s' [-> HI']. split; [done|]. unfold nodes, u. rewrite Hb, <-app_assoc. done.
  - apply orb_false_iff in Elk as [-> Hl]. apply bool_decide_eq_false in Hl. destruct k1; [|cbn in Hl; lia].
    inversion Hp as [|k c]; subst. assert (Eu : u = c) by done.
    eapply wp_lift; [apply building_small; [apply appendRaw_writes|done|rewrite <-Eu; by eapply small_ref|rewrite length_replicate; lia]|].
    rewrite Eu. split; [done|]. cbn [below] in HI1. unfold nodes. done.
Qed.

Lemma branch_spec n t leaf x k1 y L s :
  pair_node t leaf (x :: k1) y -> ww n t -> I (own t ++ below t ++ L) s ->
  wp (branch (enc t)) s (fun b s' => b = enc (Branch (<[Z.to_nat x := node_rest t k1]> no_children)) /\
    I (nodes (node_rest t k1) ++ L) s').
Proof.
  intros Hp Hw HI. destruct (pair_key n _ _ _ _ Hp Hw) as (Hk & Hy & Hys).
  destruct (two_read n t leaf (x :: k1) y Hw (pair_two _ _ _ _ Hp) Hk) as (_ & _ & E1 & E2 & sl & E3 & Hsl & Hsn).
  apply key_ok_cons in Hk as [Hx Hk1]. unfold branch. apply wp_bind; [mono_all|].
  eapply wp_wand; [by apply wp_killNode_|]. intros [] s1 HI1. apply (wp_lift_bind _ _ _ _ _ E3).
  apply (wp_lift_bind _ _ _ _ _ (stream_list_building 17 ltac:(lia))). rewrite slice_size_nibs, Hsn, decide_False by done.
  destruct (pair_rest_ww n t leaf x k1 y Hp Hw) as [mu Hu].
  set (u := node_rest t k1) in *. set (i := Z.to_nat x). assert (Hi : (i < 16)%nat) by lia.
  apply wp_bind; [apply _|]. apply (wp_lift_bind _ _ _ _ _ (slice_at_nibs sl 0 x ltac:(by rewrite Hsn))).
  apply wp_bind; [apply _|]. rewrite (seq_split i Hi). apply wp_branch_items_app. apply wp_bind; [intros; apply mono_branch_items; mono_all|].
  eapply wp_wand; [apply branch_items_null; [intros j Hj; lia|by apply Forall_nil_2|cbn; lia]|]. intros r s2 [-> ->].
  cbn [branch_items app]. rewrite decide_True by lia. apply wp_bind; [intros; apply mono_branch_items; mono_all|].
  assert (Hsm : Forall small (replicate i (Str []))) by apply Forall_replicate, small_null.
  eapply wp_wand; [by apply (branch_child n mu t leaf x k1 y sl i L)|]. fold u. intros r s2 [-> HI2].
  assert (Hsm2 : Forall small (replicate i (Str []) ++ [ref u])).
  { apply Forall_app. split; [done|]. apply Forall_singleton. by eapply small_ref. }
  eapply wp_wand; [apply branch_items_null; [intros j Hj; lia|done|rewrite length_app, length_replicate; cbn; lia]|].
  intros r s3 [-> ->]. rewrite <-app_assoc. change ([ref u] ++ replicate (15 - i) (Str [])) with (ref u :: replicate (15 - i) (Str [])).
  rewrite <-(one_child i u Hi). assert (Hsm3 : Forall small (map ref (<[i := u]> no_children))).
  { rewrite one_child by done. apply Forall_app. split; [done|]. apply Forall_cons_2; [by eapply small_ref|apply Forall_replicate, small_null]. }
  assert (Hl16 : length (map ref (<[i := u]> no_children)) = 16%nat) by (by rewrite length_map, length_insert).
  eapply wp_lift; [apply (building_small 17 _ (Str [])); [apply null_writes|done|apply small_null|lia]|].
  eapply wp_lift; [apply building_out; by rewrite length_app, Hl16|]. done.
Qed.

Lemma stream_items_app f orig l1 l2 r (s : St) :
  stream_items f orig (l1 ++ l2) r s = (stream_items f orig l1 r ≫= stream_items f orig l2) s.
Proof.
  revert r s. induction l1 as [|i l1 IH]; intros r s; [done|]. cbn [stream_items app]. rewrite <-bind_assoc_st.
  unfold mbind, M_bind in *. destruct (_ s) as [s' [a|e]]; [|done]. apply IH.
Qed.

Lemma wp_stream_items_app f orig l1 l2 r (s : St) Q :
  wp (stream_items f orig l1 r ≫= stream_items f orig l2) s Q -> wp (stream_items f orig (l1 ++ l2) r) s Q.
Proof. unfold wp. by rewrite stream_items_app. Qed.

(** The items of a branch that are copied *)
Lemma stream_items_copy f n cs a m xs (s : St) :
  ww n (Branch cs) -> (forall i, (a <= i < a + m)%nat -> f i = None) -> (a + m <= 16)%nat ->
  Forall small xs -> (length xs + m <= 17)%nat ->
  wp (stream_items f (enc (Branch cs)) (seq a m) (building 17 xs)) s
    (fun r s' => r = building 17 (xs ++ map ref (take m (drop a cs))) /\ s' = s).
Proof.
  intros Hw. destruct (branch_read n cs Hw) as (_ & Hat & _). inversion Hw as [| | |mm ? Hl16 Hcs]; subst.
  revert a xs. induction m as [|m IH]; intros a xs Hf Ha Hx Hl.
  - apply wp_ret. by rewrite take_0, app_nil_r.
  - cbn [seq stream_items]. rewrite Hf by lia. destruct (lookup_lt_is_Some_2 cs a ltac:(lia)) as [c Hc].
    assert (Hsc : small (ref c)) by (eapply small_ref; by eapply Forall_lookup_1).
    apply (wp_lift2_bind _ _ _ _ _ _ _ (Hat a c Hc)
      (building_small 17 xs (ref c) _ (appendRaw_writes _) Hx Hsc ltac:(lia))).
    eapply wp_wand; [apply IH|].
    + intros i Hi. apply Hf. lia.
    + lia.
    + apply Forall_app. split; [done|]. by apply Forall_singleton.
    + rewrite length_app. cbn. lia.
    + intros r s' [-> ->]. by rewrite <-app_assoc, (drop_S cs c a Hc).
Qed.

(** The last item of a branch *)
Lemma stream_items_last f n cs xs (s : St) :
  ww n (Branch cs) -> f 16%nat = None -> Forall small xs -> length xs = 16%nat ->
  wp (stream_items f (enc (Branch cs)) [16%nat] (building 17 xs)) s
    (fun r s' => r = building 17 (xs ++ [Str []]) /\ s' = s).
Proof.
  intros Hw Hf Hx Hl. destruct (branch_read n cs Hw) as (_ & _ & Ha). cbn [stream_items]. rewrite Hf.
  apply (wp_lift2_bind _ _ _ _ _ _ _ Ha (building_small 17 xs (Str []) _ (appendRaw_writes _) Hx small_null ltac:(lia))).
  by apply wp_ret.
Qed.

Lemma map_app_one x l : map ref (x :: l) = [ref x] ++ map ref l.
Proof. done. Qed.

(** ** mergeAt *)

(** The node is not taken apart: only its parts are changed *)
Definition quiet (t : tree) (k : list Z) : bool :=
  match t with
  | Ext k' _ => bool_decide (k' `prefix_of` k)
  | Branch _ => true
  | _ => false
  end.

(** A node that stands in its parent, or that was just made, is not in the database *)
Definition inline_ok (inLine : bool) (t : tree) (k : list Z) : Prop :=
  inLine = true -> (length (enc t) < 32)%nat \/ quiet t k = true.

Definition merge_spec (recur : list Z -> NibbleSlice -> bool -> M St (list Z)) (v : list Z) (n : nat) : Prop :=
  forall t k inLine L s,
    ww n t -> slice_ok k -> key_ok (slice_nibs k) -> length (slice_nibs k) = n -> inline_ok inLine t (slice_nibs k) ->
    I ((if inLine then [] else own t) ++ below t ++ L) s ->
    wp (recur (enc t) k inLine) s
      (fun b s' => b = enc (ins t (slice_nibs k) v) /\ I (below (ins t (slice_nibs k) v) ++ L) s').

Lemma mergeAtAux_spec recur v n t k m xs L s :
  merge_spec recur v n -> (forall o k b, Mono (recur o k b)) -> value_ok v ->
  ww n t -> slice_ok k -> key_ok (slice_nibs k) -> length (slice_nibs k) = n ->
  I (nodes t ++ L) s -> (length xs < m)%nat -> len (encode_all (xs ++ [ref (ins t (slice_nibs k) v)])) < max_size ->
  wp (mergeAtAux recur (building m xs) (encode (ref t)) k) s
    (fun r s' => r = building m (xs ++ [ref (ins t (slice_nibs k) v)]) /\ I (nodes (ins t (slice_nibs k) v) ++ L) s').
Proof.
  intros Hrec Hmono Hv Hw Hk Hkn Hn HI Hm Hs. set (t' := ins t (slice_nibs k) v) in *.
  assert (Hw' : ww n t') by (by apply ww_ins).
  assert (Hend : forall inLine s1, inline_ok inLine t (slice_nibs k) -> I ((if inLine then [] else own t) ++ below t ++ L) s1 ->
    wp (b ← recur (enc t) k inLine; streamNode (building m xs) b) s1
      (fun r s' => r = building m (xs ++ [ref t']) /\ I (nodes t' ++ L) s')).
  { intros inLine s1 Hio HI1. apply wp_bind; [apply _|]. eapply wp_wand; [by apply Hrec|]. intros b s2 [-> HI2].
    eapply wp_wand; [by apply (wp_streamNode X rt ca n)|]. intros r s3 [-> HI3]. split; [done|].
    unfold nodes. by rewrite <-app_assoc. }
  unfold mergeAtAux. destruct (ref_read n t Hw) as [He [(Hl & Er & El & _)|(Hl & Hne & El & _ & Eh)]]; rewrite He, El.
  - rewrite Er. assert (Eb : negb (negb (is_empty t)) && negb (is_empty t) = false) by (by destruct (is_empty t)).
    rewrite Eb. apply wp_ret_bind. cbn [negb]. apply Hend; [intros _; by left|].
    unfold nodes, own in HI. rewrite decide_True in HI by done. done.
  - rewrite Hne. cbn [negb andb].
    assert (HI' : I (own t ++ below t ++ L) s) by (unfold nodes in HI; by rewrite <-app_assoc in HI).
    assert (Hin : enc t ∈ own t ++ below t ++ L) by (unfold own; rewrite decide_False by done; left).
    assert (Hp : wp (h ← lift (toHash 32 (encode (ref t)) Strict); s ← node h; r ← lift (RLP s VeryStrict); mret (r, true)) s
      (fun p s' => p = (enc t, true) /\ s' = s)).
    { apply (wp_lift_bind _ _ _ _ _ Eh). apply wp_bind; [mono_all|].
      eapply wp_wand; [eapply (wp_node X rt ca); [exact HI'|exact Hin]|]. intros w s' [-> ->].
      apply (wp_lift_bind _ _ _ _ _ (enc_RLP n t VeryStrict Hw)). by apply wp_ret. }
    apply wp_bind; [intros [? ?]; mono_all|]. eapply wp_wand; [exact Hp|]. intros p s' [-> ->]. cbn [negb]. apply Hend; [done|]. done.
Qed.

(** The nodes below a branch: those of one child and the others *)
Definition others (cs : list tree) (i : nat) : list (list Z) := (take i cs ++ drop (S i) cs) ≫= nodes.

Lemma below_insert cs i c : (i < length cs)%nat -> below (Branch (<[i := c]> cs)) ≡ₚ nodes c ++ others cs i.
Proof.
  intros Hi. rewrite below_branch. unfold others. rewrite insert_take_drop by done.
  rewrite !bind_app. cbn [mbind list_bind]. fold (mbind (M := list) nodes (drop (S i) cs)). perm.
Qed.

Lemma below_child cs i c : cs !! i = Some c -> below (Branch cs) ≡ₚ nodes c ++ others cs i.
Proof.
  intros Hi. rewrite <-(list_insert_id cs i c Hi) at 1. apply below_insert. by eapply lookup_lt_Some.
Qed.

Lemma wp_kill_unless (inLine : bool) t L s :
  I ((if inLine then [] else own t) ++ L) s ->
  wp (if inLine then mret tt else killNode (enc t) (SHA3_256 (enc t))) s (fun _ s' => I L s').
Proof. intros HI. destruct inLine; [by apply wp_ret|by apply wp_killNode]. Qed.

Lemma merge_ext recur v n k' c k (inLine : bool) L s :
  merge_spec recur v (n - length k') -> (forall o k b, Mono (recur o k b)) -> value_ok v ->
  ww n (Ext k' c) -> slice_ok k -> key_ok (slice_nibs k) -> length (slice_nibs k) = n -> k' `prefix_of` slice_nibs k ->
  I ((if inLine then [] else own (Ext k' c)) ++ below (Ext k' c) ++ L) s ->
  wp ((if inLine then mret tt else killNode (enc (Ext k' c)) (SHA3_256 (enc (Ext k' c))));;
      s ← lift (stream_list 2);
      o0 ← lift (rlp_at (enc (Ext k' c)) 0);
      s ← lift (append_item o0 s);
      o1 ← lift (rlp_at (enc (Ext k' c)) 1);
      s ← mergeAtAux recur s o1 (mid k (length k'));
      lift (stream_out s)) s
    (fun b s' => b = enc (ins (Ext k' c) (slice_nibs k) v) /\ I (below (ins (Ext k' c) (slice_nibs k) v) ++ L) s').
Proof.
  intros Hrec Hmono Hv Hw Hk Hkn Hn Hp HI. apply ww_ext_inv in Hw as Hw'. destruct Hw' as (Hk' & Hne & Hce & Hl & Hc).
  destruct (two_read n (Ext k' c) false k' (ref c) Hw eq_refl Hk') as (_ & E0 & E1 & _).
  destruct (ww_ins n (Ext k' c) (slice_nibs k) v Hw Hkn Hn Hv) as [Hwi _]. pose proof (ww_readable _ _ Hwi) as [_ Hsz].
  cbn [ins] in *. rewrite decide_True in * by done. rewrite <-mid_nibs in *. cbn [item_of payload_of below] in *.
  apply wp_bind; [mono_all|]. eapply wp_wand; [by apply wp_kill_unless|]. intros [] s1 HI1.
  apply (wp_lift_bind _ _ _ _ _ (stream_list_building 2 ltac:(lia))). apply (wp_lift_bind _ _ _ _ _ E0).
  assert (Hs1 : len (encode_all [Str (hp false k')]) < max_size).
  { destruct (hp_readable false k' Hk') as [_ Hs]. destruct Hk' as [_ ?]. rewrite encode_all_cons, len_app. change (len (encode_all [])) with 0. lia. }
  apply (wp_lift_bind _ _ _ _ _ (building_step 2 [] (Str (hp false k')) _ (appendRaw_writes _) ltac:(cbn; lia) Hs1)).
  apply (wp_lift_bind _ _ _ _ _ E1).
  assert (Hmk : slice_ok (mid k (length k'))) by (apply mid_ok; [done|lia]).
  apply wp_bind; [mono_all|]. eapply wp_wand; [apply (mergeAtAux_spec recur v (n - length k') c); try done|].
  - rewrite mid_nibs. destruct Hp as [q Hq]. rewrite Hq in *. rewrite drop_app_length. by apply key_ok_app in Hkn as [_ ?].
  - rewrite mid_nibs, length_drop. lia.
  - cbn. lia.
  - intros r s2 [-> HI2]. eapply wp_lift; [by apply building_out|]. split; [done|]. done.
Qed.

Lemma merge_branch recur v m cs i ks k (inLine : bool) L s :
  merge_spec recur v m -> (forall o k b, Mono (recur o k b)) -> value_ok v ->
  ww (S m) (Branch cs) -> slice_ok k -> key_ok (slice_nibs k) -> length (slice_nibs k) = S m -> slice_nibs k = i :: ks ->
  I ((if inLine then [] else own (Branch cs)) ++ below (Branch cs) ++ L) s ->
  wp ((if inLine then mret tt else killNode (enc (Branch cs)) (SHA3_256 (enc (Branch cs))));;
      n ← lift (slice_at k 0);
      r ← lift (stream_list 17);
      r ← stream_items (change_at n (fun r => x ← lift (rlp_at (enc (Branch cs)) n); mergeAtAux recur r x (mid k 1)))
            (enc (Branch cs)) (seq 0 17) r;
      lift (stream_out r)) s
    (fun b s' => b = enc (ins (Branch cs) (i :: ks) v) /\ I (below (ins (Branch cs) (i :: ks) v) ++ L) s').
Proof.
  intros Hrec Hmono Hv Hw Hk Hkn Hn Ek HI. destruct (branch_read (S m) cs Hw) as (_ & Hat & _).
  inversion Hw as [| | |mm ? Hl16 Hcs]; subst mm. rewrite Ek in Hkn. apply key_ok_cons in Hkn as [Hi Hks].
  set (j := Z.to_nat i). assert (Hj : (j < 16)%nat) by lia. assert (Hij : i = Z.of_nat j) by lia.
  destruct (lookup_lt_is_Some_2 cs j ltac:(lia)) as [c Hc]. pose proof (Forall_lookup_1 _ _ _ _ Hcs Hc) as Hwc.
  assert (Hmk : slice_nibs (mid k 1) = ks) by (by rewrite mid_nibs, Ek).
  assert (Hlk : length ks = m) by (rewrite Ek in Hn; by injection Hn). subst ks.
  rewrite ins_branch. fold j. set (ks := slice_nibs (mid k 1)) in *. set (c' := ins c ks v). assert (Ea : alter (fun c => ins c ks v) j cs = <[j := c']> cs).
  { apply list_eq. intros q. destruct (decide (q = j)) as [->|]; [|by rewrite list_lookup_alter_ne, list_lookup_insert_ne].
    rewrite list_lookup_alter_eq, Hc, list_lookup_insert_eq by lia. done. }
  rewrite Ea. assert (Hwc' : ww m c') by (by apply ww_ins).
  apply wp_bind; [mono_all|]. eapply wp_wand; [by apply wp_kill_unless|]. intros [] s1 HI1.
  apply (wp_lift_bind _ _ _ _ _ (slice_at_nibs k 0 i ltac:(by rewrite Ek))).
  apply (wp_lift_bind _ _ _ _ _ (stream_list_building 17 ltac:(lia))).
  set (f := change_at i _). assert (Hf : forall i', i' <> j -> f i' = None) by (intros i' Hi'; unfold f, change_at; rewrite decide_False by lia; done).
  assert (Hmf : forall a r js, Mono (DB := DB) (stream_items f a js r)) by (intros; unfold f; mono_all).
  assert (Hs1 : Forall small (map ref (take j cs))) by (by eapply small_refs, Forall_take).
  assert (Hlt : length (map ref (take j cs)) = j) by (rewrite length_map, length_take; lia).
  assert (Hs2 : Forall small (map ref (take j cs) ++ [ref c'])).
  { apply Forall_app. split; [done|]. apply Forall_singleton. by eapply small_ref. }
  apply wp_bind; [apply _|]. replace (seq 0 17) with (seq 0 j ++ j :: seq (S j) (15 - j) ++ [16%nat]).
  2: { replace 17%nat with (j + S (15 - j + 1))%nat by lia. rewrite seq_app. cbn [seq]. rewrite seq_app. do 3 f_equal. cbn. f_equal. lia. }
  apply wp_stream_items_app. apply wp_bind; [done|].
  eapply wp_wand; [eapply (stream_items_copy f (S m) cs 0 j []); [done|intros; apply Hf; lia|lia|by apply Forall_nil_2|cbn; lia]|].
  intros r s2 [-> ->]. rewrite drop_0. cbn [app stream_items]. assert (Ef : exists g, f j = Some g /\ g = fun r => x ← lift (rlp_at (enc (Branch cs)) i); mergeAtAux recur r x (mid k 1)).
  { unfold f, change_at. rewrite decide_True by lia. eauto. }
  destruct Ef as (g & -> & ->). apply wp_bind; [done|]. pose proof (Hat j c Hc) as Ei. rewrite <-Hij in Ei.
  apply (wp_lift_bind _ _ _ _ _ Ei).
  assert (HI2 : I (nodes c ++ others cs j ++ L) s1) by (rewrite (below_child cs j c Hc), <-app_assoc in HI1; exact HI1).
  eapply wp_wand; [apply (mergeAtAux_spec recur v m c); try done|].
  { apply mid_ok; [done|]. rewrite Ek. cbn. lia. }
  { rewrite Hlt. lia. }
  { apply small_all; [done|]. rewrite length_app, Hlt. cbn. lia. }
  fold c'. intros r s2 [-> HI3]. apply wp_stream_items_app. apply wp_bind; [done|].
  eapply wp_wand; [eapply (stream_items_copy f (S m) cs (S j) (15 - j)); [done|intros; apply Hf; lia|lia|done|rewrite length_app, Hlt; cbn; lia]|].
  intros r s3 [-> ->]. rewrite (take_ge (drop (S j) cs)) by (rewrite length_drop; lia).
  rewrite <-app_assoc, <-map_app_one, <-map_app, <-insert_take_drop by lia.
  eapply wp_wand; [eapply (stream_items_last f (S m) cs); [done|apply Hf; lia|eapply small_refs; by apply Forall_insert|by rewrite length_map, length_insert]|].
  intros r s3 [-> ->]. eapply wp_lift; [apply building_out; by rewrite length_app, length_map, length_insert, Hl16|].
  split; [done|]. rewrite below_insert by lia. by rewrite <-app_assoc.
Qed.

(** Enough fuel: two calls for a nibble of the key *)
Definition cost (t : tree) (k : list Z) : nat := 2 * length k + (if quiet t k then 1 else 2).

Lemma own_or_inline inLine t k L s :
  inline_ok inLine t k -> quiet t k = false -> I ((if inLine then [] else own t) ++ L) s -> I (own t ++ L) s.
Proof.
  intros Hi Hq HI. destruct inLine; [|done]. destruct (Hi eq_refl) as [Hl|Hl]; [|congruence].
  unfold own. by rewrite decide_True.
Qed.

(** A leaf or an extension that the key leaves: it is taken apart first *)
Lemma merge_apart (recur : list Z -> NibbleSlice -> bool -> M St (list Z)) n t leaf k' x k v L s :
  (forall t' L s, ww n t' -> quiet t' (slice_nibs k) = true -> I (below t' ++ L) s ->
    wp (recur (enc t') k true) s (fun b s' => b = enc (ins t' (slice_nibs k) v) /\ I (below (ins t' (slice_nibs k) v) ++ L) s')) ->
  (forall o k b, Mono (recur o k b)) ->
  pair_node t leaf k' x -> ww n t -> slice_ok k -> key_ok (slice_nibs k) -> length (slice_nibs k) = n ->
  ~ k' `prefix_of` slice_nibs k -> I (own t ++ below t ++ L) s ->
  wp (if decide (lcp (slice_nibs k) k' <> 0%nat) then
        cleved ← cleve (enc t) (lcp (slice_nibs k) k'); r ← lift (RLP cleved VeryStrict); recur r k true
      else branched ← branch (enc t); r ← lift (RLP branched VeryStrict); recur r k true) s
    (fun b s' => b = enc (ins t (slice_nibs k) v) /\ I (below (ins t (slice_nibs k) v) ++ L) s').
Proof.
  intros Hrec Hmono Hp Hw Hk Hkn Hn Hpre HI. destruct (pair_key n _ _ _ _ Hp Hw) as (Hk' & _).
  pose proof (pair_len n _ _ _ _ Hp Hw) as Hl'.
  destruct (fork_shape k' (slice_nibs k) v (node_rest t) Hpre) as (p & y & k1 & z & k2 & E' & Ek & Hyz & Hlp & _); [lia|].
  rewrite Ek in Hkn. apply key_ok_app in Hkn as [Hkp [Hz Hk2]%key_ok_cons].
  rewrite E' in Hk'. apply key_ok_app in Hk' as [_ [Hy Hk1]%key_ok_cons].
  assert (Hsh : (exists w, t = Leaf (p ++ y :: k1) w) \/ (exists c, t = Ext (p ++ y :: k1) c)).
  { inversion Hp; subst; [left|right]; by eexists. }
  rewrite <-Hlp. destruct (decide (p = [])) as [->|Hpn].
  - rewrite decide_False by (intros []; done). cbn [app] in *. rewrite E' in Hp.
    assert (Hwb : ww n (Branch (<[Z.to_nat y := node_rest t k1]> no_children))).
    { destruct (decide (leaf = true \/ k1 <> [])) as [Hlk|Hlk].
      - destruct (pair_rest n t leaf [y] k1 x Hp Hw Hlk) as (Hwr & _). rewrite <-Hn, Ek. cbn [length]. constructor; [by rewrite length_insert|].
        apply Forall_insert; [apply ww_no_children|]. rewrite <-Hn, Ek in Hwr. cbn [length] in Hwr. by rewrite Nat.sub_1_r in Hwr.
      - inversion Hp as [|k0 c]; subst; [destruct Hlk; by left|]. destruct k1; [|destruct Hlk; by right].
        apply ww_ext_inv in Hw as (_ & _ & _ & _ & Hc). rewrite Ek in *. cbn [length] in *. constructor; [by rewrite length_insert|].
        apply Forall_insert; [apply ww_no_children|]. by rewrite Nat.sub_1_r in Hc. }
    apply wp_bind; [mono_all|]. eapply wp_wand; [by eapply (branch_spec n t leaf y k1 x)|]. intros b s1 [-> HI1].
    apply (wp_lift_bind _ _ _ _ _ (enc_RLP n _ VeryStrict Hwb)).
    eapply wp_wand; [apply (Hrec _ L); [done|done|]|].
    + rewrite below_insert by (cbn; lia). assert (En : others no_children (Z.to_nat y) = []).
      { unfold others, no_children. rewrite take_replicate, drop_replicate, <-replicate_add. generalize (Z.to_nat y `min` 16 + (16 - S (Z.to_nat y)))%nat as q.
        induction q as [|q IH]; [done|]. cbn in *. unfold nodes at 1. by rewrite own_empty. }
      rewrite En, app_nil_r. exact HI1.
    + intros b s2 [-> HI2]. rewrite Ek in *. rewrite (ins_branched t y k1 z k2 v) by done. done.
  - rewrite decide_True by (destruct p; [done|cbn; lia]). rewrite E' in Hp.
    destruct (pair_rest n t leaf p (y :: k1) x Hp Hw ltac:(by right)) as (Hwr & _ & _ & Hre).
    assert (Hwe : ww n (Ext p (node_rest t (y :: k1)))).
    { assert (length p <= n)%nat by (rewrite <-Hn, Ek, length_app; lia).
      replace n with (length p + (n - length p))%nat by lia. by constructor. }
    apply wp_bind; [mono_all|]. eapply wp_wand; [by eapply (cleve_spec n t leaf p (y :: k1) x)|]. intros b s1 [-> HI1].
    apply (wp_lift_bind _ _ _ _ _ (enc_RLP n _ VeryStrict Hwe)).
    eapply wp_wand; [apply Hrec; [done|cbn [quiet]; rewrite Ek; by apply bool_decide_eq_true_2; eexists|exact HI1]|].
    intros b s2 [-> HI2]. rewrite Ek in *. rewrite (ins_cleve t p (y :: k1) (z :: k2) v); [done|done|done|done|done|].
    cbn. rewrite decide_False by congruence. done.
Qed.

Lemma mergeAt_spec fuel v n t k inLine h L s :
  value_ok v -> ww n t -> slice_ok k -> key_ok (slice_nibs k) -> length (slice_nibs k) = n -> inline_ok inLine t (slice_nibs k) ->
  h = SHA3_256 (enc t) -> (cost t (slice_nibs k) <= fuel)%nat -> I ((if inLine then [] else own t) ++ below t ++ L) s ->
  wp (mergeAt fuel (enc t) h k v inLine) s
    (fun b s' => b = enc (ins t (slice_nibs k) v) /\ I (below (ins t (slice_nibs k) v) ++ L) s').
Proof.
  intros Hv. revert n t k inLine h L s. induction fuel as [|fuel IH]; intros n t k inLine h L s Hw Hk Hkn Hn Hio -> Hc HI.
  { unfold cost in Hc. destruct (quiet _ _); lia. }
  assert (Hrec : forall m, (2 * m + 2 <= fuel)%nat -> merge_spec (fun o k i => mergeAt fuel o (SHA3_256 o) k v i) v m).
  { intros m Hm t' k' i L' s' Hw' Hk' Hkn' Hn' Hio' HI'. eapply IH; try done. unfold cost. destruct (quiet _ _); lia. }
  assert (Hq : quiet t (slice_nibs k) = false -> forall t' L s, ww n t' -> quiet t' (slice_nibs k) = true -> I (below t' ++ L) s ->
    wp (mergeAt fuel (enc t') (SHA3_256 (enc t')) k v true) s
      (fun b s' => b = enc (ins t' (slice_nibs k) v) /\ I (below (ins t' (slice_nibs k) v) ++ L) s')).
  { intros Hqf t' L' s' Hw' Hq' HI'. eapply IH; try done; [intros _; by right|]. unfold cost in *. rewrite Hq', Hqf in *. lia. }
  cbn [mergeAt]. rewrite (enc_isEmpty n t Hw). destruct t as [|k' v'|k' c|cs]; cbn [is_empty].
  - apply own_or_inline with (k := slice_nibs k) in HI; [|done|done]. rewrite own_empty in HI. by apply place_empty.
  - apply own_or_inline with (k := slice_nibs k) in HI; [|done|done]. apply ww_leaf_inv in Hw as Hw'. destruct Hw' as (Hk' & Hv' & Hl').
    destruct (two_read n (Leaf k' v') true k' (Str v') Hw eq_refl Hk') as (-> & _ & _ & E2 & sl & E3 & Hsl & Hsn).
    apply (wp_lift_bind _ _ _ _ _ eq_refl). rewrite decide_True by done. apply (wp_lift_bind _ _ _ _ _ E3).
    apply (wp_and_lift _ _ _ _ _ _ E2). rewrite slice_eqb_nibs, Hsn, andb_true_r by done.
    case_bool_decide as E.
    + assert (Ei : ins (Leaf k' v') (slice_nibs k) v = Leaf k' v) by (cbn [ins]; rewrite decide_True by done; by rewrite E).
      rewrite Ei. eapply wp_wand; [by eapply place_leaf|]. done.
    + apply (wp_and_not _ _ _ _ _ _ E2). rewrite andb_false_r. rewrite shared_nibs, Hsn by done.
      apply (merge_apart (fun o k i => mergeAt fuel o (SHA3_256 o) k v i) n _ _ _ _ k v L s (Hq eq_refl) ltac:(intros; apply _) (pair_leaf k' v') Hw Hk Hkn Hn); [|done].
      intros ?%prefix_same_length; [done|lia].
  - apply ww_ext_inv in Hw as Hw'. destruct Hw' as (Hk' & Hne & Hce & Hl' & Hcw).
    destruct (two_read n (Ext k' c) false k' (ref c) Hw eq_refl Hk') as (-> & _ & _ & E2 & sl & E3 & Hsl & Hsn).
    apply (wp_lift_bind _ _ _ _ _ eq_refl). rewrite decide_True by done. apply (wp_lift_bind _ _ _ _ _ E3).
    apply (wp_and_lift _ _ _ _ _ _ E2). rewrite andb_false_r. apply (wp_and_not _ _ _ _ _ _ E2). rewrite andb_true_r, contains_nibs, Hsn by done.
    case_bool_decide as Hp.
    + rewrite slice_size_nibs, Hsn. apply (merge_ext (fun o k i => mergeAt fuel o (SHA3_256 o) k v i) v n); try done; [|intros; apply _].
      apply Hrec. unfold cost in Hc. cbn [quiet] in Hc. rewrite bool_decide_eq_true_2 in Hc by done.
      assert (0 < length k')%nat by (destruct k'; [done|cbn; lia]). lia.
    + rewrite shared_nibs, Hsn by done. assert (Hqf : quiet (Ext k' c) (slice_nibs k) = false) by (cbn; by apply bool_decide_eq_false_2).
      apply own_or_inline with (k := slice_nibs k) in HI; [|done|done].
      by apply (merge_apart (fun o k i => mergeAt fuel o (SHA3_256 o) k v i) n _ _ _ _ k v L s (Hq Hqf) ltac:(intros; apply _) (pair_ext k' c) Hw Hk Hkn Hn).
  - destruct (branch_read n cs Hw) as (-> & _ & _). apply (wp_lift_bind _ _ _ _ _ eq_refl). rewrite decide_False by done.
    inversion Hw as [| | |m ? Hl16 Hcs]; subst n. rewrite slice_size_nibs. rewrite decide_False by lia.
    destruct (slice_nibs k) as [|i ks] eqn:Ek; [done|].
    apply (merge_branch (fun o k i => mergeAt fuel o (SHA3_256 o) k v i) v m cs i ks k inLine); try done.
    + apply Hrec. unfold cost in Hc. cbn [quiet length] in *. lia.
    + intros. apply _.
    + by rewrite H.
    + by rewrite Ek.
    + by rewrite Ek.
Qed.
End Spec.
End Insert.
