(* ===== verification/TrieRemove.v ===== *)
(** * remove of the trie computes removal of the tree *)

From stdpp Require Import gmap.
From S2P Require Import Prelude Words Exn Rlp RlpSpec RlpClaims TrieCommon MemoryDB TrieDB.
From S2P Require Import TrieKeys TrieSpec TrieTree TrieCanon TrieRead TrieWp TrieInsert.

#[local] Set Warnings "-register-all".

#[local] Open Scope Z_scope.

(** ** The children in use *)

Fixpoint used_from (a : nat) (l : list tree) : list nat :=
  match l with
  | [] => []
  | c :: l => if is_empty c then used_from (S a) l else a :: used_from (S a) l
  end.

Lemma in_use_from a l :
  (filter (fun x => is_empty x.2 = false) (imap (fun i c => (a + i, c)%nat) l)).*1 = used_from a l.
Proof.
  revert a. induction l as [|c l IH]; intros a; [done|]. rewrite imap_cons, filter_cons. cbn [used_from snd].
  assert (E : forall l : list tree, imap ((fun i c => (a + i, c)%nat) ∘ S) l = imap (fun i c => (S a + i, c)%nat) l).
  { intros l'. apply imap_ext. intros i x _. cbn. f_equal. lia. }
  rewrite E. destruct (is_empty c) eqn:He.
  - rewrite decide_False by done. apply IH.
  - rewrite decide_True by done. cbn [fmap list_fmap fst]. rewrite Nat.add_0_r. f_equal. apply IH.
Qed.

Lemma in_use_indices cs : (in_use cs).*1 = used_from 0 cs.
Proof. apply (in_use_from 0). Qed.

Section Unique.
Context {Api : Sha3Api}.

Lemma unique_loop_spec n cs a used :
  ww n (Branch cs) -> (a <= 16)%nat -> (used = 255 \/ 0 <= used < 16) ->
  unique_loop (enc (Branch cs)) 255 (seq a (16 - a) ++ [16%nat]) used =
    inl (match used_from a (drop a cs) with
         | [] => used
         | [i] => if decide (used = 255) then Z.of_nat i else 255
         | _ => 255
         end).
Proof.
  intros Hw. destruct (branch_read n cs Hw) as (_ & Hat & H16). inversion Hw as [| | |m ? Hl Hcs]; subst.
  remember (16 - a)%nat as d eqn:Ed. revert a used Ed. induction d as [|d IH]; intros a used Ed Ha Hu.
  - rewrite drop_ge by lia. cbn [seq app unique_loop used_from]. rewrite (decide_True (P := Z.of_nat 16 <> 255)) by lia. cbn [mbind res_bind].
    change (Z.of_nat 16) with 16. rewrite H16. done.
  - cbn [seq app unique_loop]. destruct (lookup_lt_is_Some_2 cs a ltac:(lia)) as [c Hc].
    rewrite (decide_True (P := Z.of_nat a <> 255)) by lia. rewrite (Hat a c Hc). cbn [mret res_ret mbind res_bind].
    destruct (ref_read m c (Forall_lookup_1 _ _ _ _ Hcs Hc)) as [-> _]. rewrite (drop_S cs c a Hc). cbn [used_from].
    destruct (is_empty c) eqn:He; cbn [negb].
    + apply IH; [lia|lia|done].
    + destruct Hu as [->|Hu].
      * rewrite decide_True by done. rewrite IH by lia.
        destruct (used_from (S a) (drop (S a) cs)) as [|i [|]]; [done| |done]. rewrite decide_False by lia. done.
      * rewrite decide_False by lia. destruct (used_from (S a) (drop (S a) cs)) as [|i l]; [rewrite decide_False by lia; done|done].
Qed.

(** The child that is left, or 255 *)
Lemma uniqueInUse_spec n cs :
  ww n (Branch cs) ->
  uniqueInUse (enc (Branch cs)) 255 = inl (match in_use cs with [(i, _)] => Z.of_nat i | _ => 255 end).
Proof.
  intros Hw. unfold uniqueInUse. change (seq 0 17) with (seq 0 (16 - 0) ++ [16%nat]).
  rewrite (unique_loop_spec n) by (done || lia || by left). rewrite drop_0, <-in_use_indices.
  destruct (in_use cs) as [|[i c] [|[j d] l]]; done.
Qed.
End Unique.

Section Remove.
Context {DB : Type} {B : Backend DB} {BL : BackendLaws DB} {Api : Sha3Api}.

Abbreviation St := (GenericTrieDB DB).

Lemma mono_deleteAtAux recur out orig k :
  (forall o k, Mono (DB := DB) (recur o k)) -> Mono (deleteAtAux recur out orig k).
Proof. intros. unfold deleteAtAux. mono_all. Qed.
Lemma mono_delete_items n g orig js r : (forall r, Mono (DB := DB) (g r)) -> Mono (delete_items n g orig js r).
Proof.
  intros Hg. revert r. induction js as [|i js IH]; intros r; cbn [delete_items]; [apply _|].
  apply mono_bind; [case_decide; mono_all|]. intros [r'|]; [apply IH|apply _].
Qed.
#[export] Instance mono_merge_up orig used : Mono (DB := DB) (merge_up orig used).
Proof. unfold merge_up. mono_all. Qed.
#[export] Instance mono_deleteAt fuel orig k : Mono (DB := DB) (deleteAt fuel orig k).
Proof.
  revert orig k. induction fuel as [|fuel IH]; intros orig k; cbn [deleteAt]; [apply _|].
  destruct (isEmpty orig); [apply _|]. apply mono_bind; [apply _|]. intros c. case_decide.
  - apply mono_bind; [apply _|]. intros ok. apply mono_bind; [mono_all|]. intros []; [mono_all|].
    destruct (contains k ok); [|apply _]. do 4 (apply mono_bind; [apply _|]; intros).
    apply mono_bind; [apply mono_deleteAtAux; intros; apply IH|]. mono_all.
  - apply mono_bind; [mono_all|]. intros o. destruct (negb (isEmpty o)); [mono_all|].
    do 2 (apply mono_bind; [apply _|]; intros).
    apply mono_bind; [apply mono_delete_items; intros; apply mono_bind; [apply _|]; intros; apply mono_deleteAtAux; intros; apply IH|].
    mono_all.
Qed.

Section Spec.
Context (X : h256 -> Prop) (rt : h256) (ca : list h256).
Abbreviation I := (Inv (DB := DB) X rt ca).

Definition is_pair (t : tree) : bool := match t with Leaf _ _ | Ext _ _ => true | _ => false end.

Lemma count_node n t : ww n t -> is_empty t = false -> itemCount (enc t) = inl (if is_pair t then 2 else 17).
Proof.
  intros Hw He. destruct t as [|k v|k c|cs]; [done| | |by apply (branch_read n)].
  - pose proof (ww_leaf_inv _ _ _ Hw) as (Hk & _). by apply (two_read n (Leaf k v) true k (Str v)).
  - pose proof (ww_ext_inv _ _ _ Hw) as (Hk & _). by apply (two_read n (Ext k c) false k (ref c)).
Qed.

Lemma isTwoItemNode_spec n t L s :
  I (own t ++ L) s -> ww n t -> is_empty t = false ->
  wp (isTwoItemNode (encode (ref t))) s (fun b s' => b = is_pair t /\ s' = s).
Proof.
  intros HI Hw He. unfold isTwoItemNode.
  destruct (ref_read n t Hw) as [_ [(Hl & Er & El & Ed)|(Hl & _ & El & Ed & Eh)]]; rewrite Ed, El, ?Er, ?He.
  - apply wp_ret_bind. cbn [or_else and_also negb]. apply (wp_lift_bind _ _ _ _ _ (count_node n t Hw He)).
    apply wp_ret. split; [|done]. by destruct (is_pair t).
  - assert (Hin : enc t ∈ own t ++ L) by (unfold own; rewrite decide_False by done; left).
    assert (Hp : wp (h ← lift (toHash 32 (encode (ref t)) Strict); s ← node h; r ← lift (RLP s VeryStrict);
        c ← lift (itemCount r); mret (bool_decide (c = 2))) s (fun b s' => b = is_pair t /\ s' = s)).
    { apply (wp_lift_bind _ _ _ _ _ Eh). apply wp_bind; [mono_all|].
      eapply wp_wand; [eapply (wp_node X rt ca); [exact HI|exact Hin]|]. intros w s' [-> ->].
      apply (wp_lift_bind _ _ _ _ _ (enc_RLP n t VeryStrict Hw)). apply (wp_lift_bind _ _ _ _ _ (count_node n t Hw He)).
      apply wp_ret. split; [|done]. by destruct (is_pair t). }
    apply wp_bind; [mono_all|]. eapply wp_wand; [exact Hp|]. intros b s' [-> ->].
    destruct (is_pair t); cbn [or_else and_also]; by apply wp_ret.
Qed.

Lemma below_prepend p t : is_pair t = true -> below (prepend p t) = below t.
Proof. by destruct t. Qed.

Lemma pair_item t : is_pair t = true -> exists leaf k x, pair_node t leaf k x /\ forall p, item_of (prepend p t) = Lst [Str (hp leaf (p ++ k)); x].
Proof. destruct t as [|k v|k c|]; try done; intros _; [exists true, k, (Str v)|exists false, k, (ref c)]; by split; [constructor|]. Qed.

Lemma graft_spec n p c L s :
  I (nodes c ++ L) s -> ww n (Ext p c) -> is_pair c = true -> key_ok p -> Z.of_nat n < 2 ^ 62 ->
  wp (graft (enc (Ext p c))) s (fun b s' => b = enc (prepend p c) /\ I (below (prepend p c) ++ L) s').
Proof.
  intros HI Hw Hc Hp Hn. apply ww_ext_inv in Hw as Hw'. destruct Hw' as (_ & Hpn & Hce & Hl & Hwc).
  destruct (two_read n (Ext p c) false p (ref c) Hw eq_refl Hp) as (_ & _ & E1 & _ & sl1 & E3 & Hsl1 & Hsn1).
  destruct (pair_item c Hc) as (leaf & k & x & Hpair & Hitem). destruct (pair_key _ _ _ _ _ Hpair Hwc) as (Hk & Hx & Hxs).
  destruct (two_read _ c leaf k x Hwc (pair_two _ _ _ _ Hpair) Hk) as (_ & _ & F1 & F2 & sl2 & F3 & Hsl2 & Hsn2).
  rewrite below_prepend by done. unfold graft. apply (wp_lift_bind _ _ _ _ _ E1).
  assert (Hend : forall s1, I (below c ++ L) s1 ->
    wp (k1 ← lift (keyOf (enc (Ext p c))); k2 ← lift (keyOf (enc c)); leaf ← lift (isLeaf (enc c)); n1 ← lift (rlp_at (enc c) 1);
        lift (rlpList2 (append_str (hexPrefixSlice2 k1 k2 leaf)) (append_item n1))) s1
      (fun b s' => b = enc (prepend p c) /\ I (below c ++ L) s')).
  { intros s1 HI1. apply (wp_lift_bind _ _ _ _ _ E3). apply (wp_lift_bind _ _ _ _ _ F3). apply (wp_lift_bind _ _ _ _ _ F2).
    apply (wp_lift_bind _ _ _ _ _ F1). eapply wp_lift; [|done]. rewrite hexPrefixSlice2_nibs, Hsn1, Hsn2 by done.
    unfold enc. rewrite Hitem. pose proof (pair_len _ _ _ _ _ Hpair Hwc).
    assert (Hpk : key_ok (p ++ k)).
    { destruct Hp as [? ?], Hk as [? ?]. split; [by apply Forall_app|]. rewrite len_app_keys. unfold len in *. lia. }
    apply rlpList2_spec; [by apply append_writes, hp_readable|apply appendRaw_writes|by apply two_readable]. }
  destruct (ref_read _ c Hwc) as [_ [(Hlt & Er & El & _)|(Hlt & _ & El & _ & Eh)]]; rewrite El.
  - assert (He : is_empty c = false) by (by destruct c). rewrite He, Er. cbn [negb]. apply wp_ret_bind. apply Hend.
    unfold nodes, own in HI. rewrite decide_True in HI by done. done.
  - assert (HI' : I (enc c :: below c ++ L) s) by (unfold nodes, own in HI; rewrite decide_False in HI by done; done).
    assert (Hn' : wp (lh ← lift (toHash 32 (encode (ref c)) Strict); s ← node lh; forceKillNode lh;; lift (RLP s VeryStrict)) s
      (fun r s' => r = enc c /\ I (below c ++ L) s')).
    { apply (wp_lift_bind _ _ _ _ _ Eh). apply wp_bind; [mono_all|].
      eapply wp_wand; [eapply (wp_node X rt ca); [exact HI'|left]|]. intros w s' [-> ->].
      apply wp_bind; [mono_all|]. eapply wp_wand; [by apply wp_kill|]. intros [] s1 HI1.
      eapply wp_lift; [by eapply enc_RLP|done]. }
    apply wp_bind; [mono_all|]. eapply wp_wand; [exact Hn'|]. intros r s1 [-> HI1]. by apply Hend.
Qed.

Lemma key_one i : (i < 16)%nat -> key_ok [Z.of_nat i].
Proof. intros. split; [apply Forall_singleton; lia|unfold len; cbn; lia]. Qed.

Lemma merge_one n cs i c s :
  ww n (Branch cs) -> cs !! i = Some c -> c <> Empty ->
  wp (merge (enc (Branch cs)) (Z.of_nat i)) s (fun b s' => b = enc (Ext [Z.of_nat i] c) /\ s' = s :> St) /\
  ww n (Ext [Z.of_nat i] c).
Proof.
  intros Hw Hc Hce. destruct (branch_read n cs Hw) as (_ & Hat & _). inversion Hw as [| | |m ? Hl Hcs]; subst.
  pose proof (lookup_lt_Some _ _ _ Hc). pose proof (key_one i ltac:(lia)) as Hk.
  pose proof (Forall_lookup_1 _ _ _ _ Hcs Hc) as Hwc.
  assert (Hwe : ww (S m) (Ext [Z.of_nat i] c)) by (change (S m) with (length [Z.of_nat i] + m)%nat; by constructor).
  split; [|done]. unfold merge. apply (wp_lift_bind _ _ _ _ _ (stream_list_building 2 ltac:(lia))).
  rewrite decide_True by lia.
  assert (Eh : hexPrefixEncode [Z.of_nat i] false 1 2 0 = hp false [Z.of_nat i]).
  { assert (Hso : slice_ok (mkSlice [Z.of_nat i] 0)) by (split; [cbn; lia|apply Forall_singleton; unfold is_word; lia]).
    assert (En : slice_nibs (mkSlice [Z.of_nat i] 0) = [Z.of_nat i .>> 4; Z.of_nat i .& 15]) by done.
    pose proof (hexPrefixSlice_nibs (mkSlice [Z.of_nat i] 0) false 1 2 Hso ltac:(rewrite En; cbn; lia)) as E.
    rewrite En in E. cbn [Nat.sub drop take] in E. unfold hexPrefixSlice in E. cbn [data offset] in E.
    change (Z.of_nat 1) with 1 in E. change (Z.of_nat 2) with 2 in E. rewrite E. do 2 f_equal.
    destruct (byte_nibbles (Z.of_nat i)) as (? & ? & ?); [unfold is_word; lia|]. lia. }
  destruct (hp_readable false [Z.of_nat i] Hk) as [Hr Hs]. destruct Hk as [_ Hk].
  assert (Hs1 : len (encode_all [Str (hp false [Z.of_nat i])]) < max_size).
  { rewrite encode_all_cons, len_app. change (len (encode_all [])) with 0. lia. }
  rewrite Eh. apply (wp_lift_bind _ _ _ _ _ (building_step 2 [] (Str (hp false [Z.of_nat i])) _ (append_writes _ Hr) ltac:(cbn; lia) Hs1)).
  apply (wp_lift_bind _ _ _ _ _ (Hat i c Hc)). pose proof (ww_readable _ _ Hwe) as [_ Hsz]. cbn [item_of payload_of] in Hsz.
  apply (wp_lift_bind _ _ _ _ _ (building_step 2 [Str (hp false [Z.of_nat i])] (ref c) _ (appendRaw_writes _) ltac:(cbn; lia) Hsz)).
  eapply wp_lift; [by apply building_out|done].
Qed.

Lemma merge_up_spec n cs i c L s :
  I (nodes c ++ L) s -> ww n (Branch cs) -> cs !! i = Some c -> c <> Empty -> Z.of_nat n < 2 ^ 62 ->
  wp (merge_up (enc (Branch cs)) (Z.of_nat i)) s
    (fun b s' => b = enc (prepend [Z.of_nat i] c) /\ I (below (prepend [Z.of_nat i] c) ++ L) s').
Proof.
  intros HI Hw Hc Hce Hn. destruct (branch_read n cs Hw) as (_ & Hat & _).
  assert (Hi : (i < 16)%nat) by (inversion Hw; subst; apply lookup_lt_Some in Hc; lia).
  assert (He : is_empty c = false) by (by destruct c).
  assert (Hwc : exists m, ww m c) by (inversion Hw; subst; eexists; by eapply Forall_lookup_1). destruct Hwc as [m Hwc].
  destruct (merge_one n cs i c s Hw Hc Hce) as [Hm Hwe]. unfold merge_up. apply (wp_lift_bind _ _ _ _ _ (Hat i c Hc)).
  apply wp_bind; [mono_all|].
  eapply wp_wand; [apply (isTwoItemNode_spec m c (below c ++ L)); [unfold nodes in HI; by rewrite <-app_assoc in HI|done|done]|].
  intros b s' [-> ->]. destruct (is_pair c) eqn:Ep.
  - apply wp_bind; [mono_all|]. eapply wp_wand; [exact Hm|]. intros b s' [-> ->].
    apply (wp_lift_bind _ _ _ _ _ (enc_RLP n _ VeryStrict Hwe)). apply graft_spec with n; [done|done|done|by apply key_one|done].
  - eapply wp_wand; [exact Hm|]. intros b s' [-> ->]. destruct c; done.
Qed.

(** ** deleteAt *)

Definition delete_post (t : tree) (k : list Z) (L : list (list Z)) (b : list Z) (s : St) : Prop :=
  match del t k with
  | None => b = [] /\ I (nodes t ++ L) s
  | Some t' => b = enc t' /\ I (below t' ++ L) s
  end.

Definition delete_spec (recur : list Z -> NibbleSlice -> M St (list Z)) (n : nat) : Prop :=
  forall t k L s, wf n t -> slice_ok k -> full n (slice_nibs k) -> I (nodes t ++ L) s ->
    wp (recur (enc t) k) s (delete_post t (slice_nibs k) L).

Lemma deleteAtAux_spec recur n t k m xs L s :
  delete_spec recur n -> (forall o k, Mono (recur o k)) -> wf n t -> slice_ok k -> full n (slice_nibs k) -> Z.of_nat n < 2 ^ 62 ->
  I (nodes t ++ L) s -> (length xs < m)%nat ->
  (forall t', del t (slice_nibs k) = Some t' -> len (encode_all (xs ++ [ref t'])) < max_size) ->
  wp (deleteAtAux recur (building m xs) (encode (ref t)) k) s
    (fun o s' => match del t (slice_nibs k) with
                 | None => o = None /\ I (nodes t ++ L) s'
                 | Some t' => o = Some (building m (xs ++ [ref t'])) /\ I (nodes t' ++ L) s'
                 end).
Proof.
  intros Hrec Hmono Hwf Hk Hf Hn HI Hm Hs. pose proof Hwf as [Hw Hcan]. destruct (ref_read n t Hw) as [He _].
  unfold deleteAtAux. rewrite He. destruct (is_empty t) eqn:Ee.
  - destruct t; try done. apply wp_ret_bind. rewrite decide_True by done. by apply wp_ret.
  - assert (Hb : wp (n ← follow (encode (ref t)); recur n k) s (delete_post t (slice_nibs k) L)).
    { apply wp_bind; [mono_all|]. eapply wp_wand; [apply (wp_follow X rt ca n t (nodes t ++ L)); [done|done|done|]|].
      - intros e Ho. apply elem_of_app. left. apply elem_of_app. by left.
      - intros r s' [-> ->]. by apply Hrec. }
    apply wp_bind; [mono_all|]. eapply wp_wand; [exact Hb|]. unfold delete_post. intros b s1 Hp.
    destruct (del t (slice_nibs k)) as [t'|] eqn:Ed.
    + destruct Hp as [-> HI1]. rewrite decide_False by apply enc_ne.
      destruct (del_spec n t (slice_nibs k) t' Hwf Hf Hn Ed) as ([Hw' _] & _).
      apply wp_bind; [mono_all|]. eapply wp_wand; [apply (wp_streamNode X rt ca n); [exact HI1|done|done|by apply Hs]|].
      intros r s2 [-> HI2]. apply wp_ret. split; [done|]. unfold nodes. by rewrite <-app_assoc.
    + destruct Hp as [-> HI1]. rewrite decide_True by done. by apply wp_ret.
Qed.

Lemma delete_ext recur n k' c k L s :
  delete_spec recur (n - length k') -> (forall o k, Mono (recur o k)) ->
  wf n (Ext k' c) -> slice_ok k -> full n (slice_nibs k) -> k' `prefix_of` slice_nibs k -> Z.of_nat n < 2 ^ 62 ->
  I (nodes (Ext k' c) ++ L) s ->
  wp (s ← lift (stream_list 2);
      o0 ← lift (rlp_at (enc (Ext k' c)) 0);
      s ← lift (append_item o0 s);
      o1 ← lift (rlp_at (enc (Ext k' c)) 1);
      o ← deleteAtAux recur s o1 (mid k (length k'));
      match o with
      | None => mret []
      | Some s =>
          killNode_ (enc (Ext k' c));;
          d ← lift (stream_out s);
          r ← lift (RLP d VeryStrict);
          r1 ← lift (rlp_at r 1);
          two ← isTwoItemNode r1;
          if two : bool then graft r else mret d
      end) s (delete_post (Ext k' c) (slice_nibs k) L).
Proof.
  intros Hrec Hmono Hwf Hk [Hf Hfn] Hp Hn HI. pose proof Hwf as [Hw _]. apply ww_ext_inv in Hw as Hw'. destruct Hw' as (Hk' & Hne & Hce & Hl & Hc).
  apply wf_ext in Hwf as (_ & _ & Hb & _ & Hwc).
  destruct (two_read n (Ext k' c) false k' (ref c) Hw eq_refl Hk') as (_ & E0 & E1 & _).
  apply (wp_lift_bind _ _ _ _ _ (stream_list_building 2 ltac:(lia))). apply (wp_lift_bind _ _ _ _ _ E0).
  assert (Hs1 : len (encode_all [Str (hp false k')]) < max_size).
  { destruct (hp_readable false k' Hk') as [_ Hs]. destruct Hk' as [_ ?]. rewrite encode_all_cons, len_app. change (len (encode_all [])) with 0. lia. }
  apply (wp_lift_bind _ _ _ _ _ (building_step 2 [] (Str (hp false k')) _ (appendRaw_writes _) ltac:(cbn; lia) Hs1)).
  apply (wp_lift_bind _ _ _ _ _ E1).
  assert (Hmk : slice_ok (mid k (length k'))) by (apply mid_ok; [done|lia]).
  assert (Hmf : full (n - length k') (slice_nibs (mid k (length k')))).
  { rewrite mid_nibs. split; [rewrite length_drop; lia|by apply Forall_drop]. }
  assert (Hnew : forall c', del c (slice_nibs (mid k (length k'))) = Some c' -> c' <> Empty /\ ww n (Ext k' c')).
  { intros c' Hd. destruct (del_spec _ _ _ _ Hwc Hmf ltac:(lia) Hd) as ([Hw' _] & Hne' & _). split; [by apply Hne'|].
    replace n with (length k' + (n - length k'))%nat by lia. constructor; [done|done|by apply Hne'|done]. }
  assert (HI' : I (nodes c ++ own (Ext k' c) ++ L) s).
  { unfold nodes at 1 in HI. cbn [below] in HI. fold (nodes c) in HI.
    assert (Hperm : nodes c ++ own (Ext k' c) ++ L ≡ₚ (own (Ext k' c) ++ nodes c) ++ L) by perm. by rewrite Hperm. }
  apply wp_bind; [mono_all|]. eapply wp_wand; [apply (deleteAtAux_spec recur (n - length k') c _ 2 _ (own (Ext k' c) ++ L)); try done; [lia|cbn; lia|]|].
  { intros c' Hd. destruct (Hnew c' Hd) as [_ Hwe]. pose proof (ww_readable _ _ Hwe) as [_ Hsz]. done. }
  unfold delete_post. cbn [del]. rewrite decide_True by done. rewrite <-mid_nibs.
  destruct (del c (slice_nibs (mid k (length k')))) as [c'|] eqn:Ed; cbn [fmap option_fmap option_map]; intros o s1 [-> HI1].
  - destruct (Hnew c' eq_refl) as [Hce' Hwe]. destruct (del_spec _ _ _ _ Hwc Hmf ltac:(lia) Ed) as ([Hw' _] & _ & _).
    destruct (two_read n (Ext k' c') false k' (ref c') Hwe eq_refl Hk') as (_ & _ & F1 & _).
    assert (He' : is_empty c' = false) by (by destruct c').
    assert (HI2 : I (own (Ext k' c) ++ nodes c' ++ L) s1).
    { assert (Hperm : own (Ext k' c) ++ nodes c' ++ L ≡ₚ nodes c' ++ own (Ext k' c) ++ L) by perm. by rewrite Hperm. }
    apply wp_bind; [mono_all|]. eapply wp_wand; [by apply wp_killNode_|]. intros [] s2 HI3.
    apply (wp_lift_bind _ _ _ _ _ (building_out 2 [Str (hp false k'); ref c'] eq_refl)).
    change (encode (Lst [Str (hp false k'); ref c'])) with (enc (Ext k' c')).
    apply (wp_lift_bind _ _ _ _ _ (enc_RLP n _ VeryStrict Hwe)). apply (wp_lift_bind _ _ _ _ _ F1).
    apply wp_bind; [mono_all|]. eapply wp_wand; [apply (isTwoItemNode_spec (n - length k') c' (below c' ++ L)); [by rewrite app_assoc|done|done]|].
    intros b s' [-> ->]. destruct (is_pair c') eqn:Epc.
    + by apply graft_spec with n.
    + apply wp_ret. destruct c'; done.
  - apply wp_ret. split; [done|]. unfold nodes at 1. cbn [below]. fold (nodes c).
    assert (Hperm : (own (Ext k' c) ++ nodes c) ++ L ≡ₚ nodes c ++ own (Ext k' c) ++ L) by perm. by rewrite Hperm.
Qed.

(** Items that are copied *)
Lemma delete_items_skip n g orig l1 l2 r (s : St) :
  (forall i, i ∈ l1 -> Z.of_nat i <> n) ->
  delete_items n g orig (l1 ++ l2) r s = (stream_items no_change orig l1 r ≫= delete_items n g orig l2) s.
Proof.
  revert r s. induction l1 as [|i l1 IH]; intros r s Hi; [done|]. cbn [stream_items delete_items app].
  rewrite decide_False by (apply Hi; left). cbn [no_change]. unfold lift.
  unfold mbind, M_bind in *. destruct (rlp_at orig (Z.of_nat i)) as [x|]; [|done]. destruct (append_item x r) as [r'|]; [|done].
  apply IH. intros j Hj. apply Hi. by right.
Qed.

Lemma wp_delete_items_skip n g orig l1 l2 r (s : St) Q :
  (forall i, i ∈ l1 -> Z.of_nat i <> n) ->
  wp (stream_items no_change orig l1 r ≫= delete_items n g orig l2) s Q -> wp (delete_items n g orig (l1 ++ l2) r) s Q.
Proof. intros Hi. unfold wp. by rewrite delete_items_skip. Qed.

Lemma delete_items_all n g orig l r (s : St) Q :
  (forall i, i ∈ l -> Z.of_nat i <> n) ->
  wp (stream_items no_change orig l r) s (fun r s' => Q (Some r) s') -> wp (delete_items n g orig l r) s Q.
Proof.
  intros Hi Hw. rewrite <-(app_nil_r l). apply wp_delete_items_skip; [done|]. apply wp_bind; [intros; apply _|].
  eapply wp_wand; [exact Hw|]. intros r' s' H. by apply wp_ret.
Qed.

(** The items of a branch, with the child [j] after the removal *)
Lemma delete_items_spec recur m cs j c k L s :
  delete_spec recur m -> (forall o k, Mono (recur o k)) -> Forall (wf m) cs -> ww (S m) (Branch cs) -> cs !! j = Some c ->
  slice_ok k -> full m (slice_nibs k) -> Z.of_nat m < 2 ^ 62 -> I (nodes c ++ L) s ->
  wp (delete_items (Z.of_nat j) (fun r => x ← lift (rlp_at (enc (Branch cs)) (Z.of_nat j)); deleteAtAux recur r x k)
        (enc (Branch cs)) (seq 0 17) (building 17 [])) s
    (fun o s' => match del c (slice_nibs k) with
                 | None => o = None /\ I (nodes c ++ L) s'
                 | Some c' => o = Some (building 17 (map ref (<[j := c']> cs) ++ [Str []])) /\ I (nodes c' ++ L) s'
                 end).
Proof.
  intros Hrec Hmono Hcs Hw Hc Hk Hf Hm HI. destruct (branch_read (S m) cs Hw) as (_ & Hat & _).
  inversion Hw as [| | |mm ? Hl16 Hcw]; subst mm. pose proof (lookup_lt_Some _ _ _ Hc) as Hj. rewrite Hl16 in Hj.
  pose proof (Forall_lookup_1 _ _ _ _ Hcs Hc) as Hwc.
  assert (Hs1 : Forall small (map ref (take j cs))) by (by eapply small_refs, Forall_take).
  assert (Hlt : length (map ref (take j cs)) = j) by (rewrite length_map, length_take; lia).
  assert (Hnew : forall c', del c (slice_nibs k) = Some c' -> ww m c').
  { intros c' Hd. by destruct (del_spec _ _ _ _ Hwc Hf Hm Hd) as ([? _] & _). }
  replace (seq 0 17) with (seq 0 j ++ j :: seq (S j) (15 - j) ++ [16%nat]).
  2: { replace 17%nat with (j + S (15 - j + 1))%nat by lia. rewrite seq_app. cbn [seq]. rewrite seq_app. do 3 f_equal. cbn. f_equal. lia. }
  set (g := fun r => x ← lift (rlp_at (enc (Branch cs)) (Z.of_nat j)); deleteAtAux recur r x k).
  assert (Hmg : forall r js, Mono (DB := DB) (delete_items (Z.of_nat j) g (enc (Branch cs)) js r)).
  { intros. apply mono_delete_items. intros. apply mono_bind; [apply _|]. intros. by apply mono_deleteAtAux. }
  apply wp_delete_items_skip; [intros i Hi%elem_of_seq; lia|]. apply wp_bind; [done|].
  eapply wp_wand; [eapply (stream_items_copy no_change (S m) cs 0 j []); [done|done|lia|by apply Forall_nil_2|cbn; lia]|].
  intros r s2 [-> ->]. rewrite drop_0. cbn [app delete_items]. rewrite decide_True by done.
  apply wp_bind; [intros []; [apply Hmg|apply _]|]. unfold g at 1. apply (wp_lift_bind _ _ _ _ _ (Hat j c Hc)).
  eapply wp_wand; [apply (deleteAtAux_spec recur m c k 17 _ L); try done; [rewrite Hlt; lia|]|].
  { intros c' Hd. apply small_all; [|rewrite length_app, Hlt; cbn; lia]. apply Forall_app. split; [done|].
    apply Forall_singleton. eapply small_ref. by apply Hnew. }
  destruct (del c (slice_nibs k)) as [c'|]; [|intros o s' [-> HI']; by apply wp_ret].
  intros o s' [-> HI']. pose proof (Hnew c' eq_refl) as Hw'.
  assert (Hs2 : Forall small (map ref (take j cs) ++ [ref c'])).
  { apply Forall_app. split; [done|]. apply Forall_singleton. by eapply small_ref. }
  apply delete_items_all.
  { intros i [Hi%elem_of_seq|Hi%list_elem_of_singleton]%elem_of_app; lia. }
  apply wp_stream_items_app. apply wp_bind; [mono_all|].
  eapply wp_wand; [eapply (stream_items_copy no_change (S m) cs (S j) (15 - j)); [done|done|lia|done|rewrite length_app, Hlt; cbn; lia]|].
  intros r s3 [-> ->]. rewrite (take_ge (drop (S j) cs)) by (rewrite length_drop; lia).
  rewrite <-app_assoc, <-map_app_one, <-map_app, <-insert_take_drop by lia.
  eapply wp_wand; [eapply (stream_items_last no_change (S m) cs); [done|done|eapply small_refs; by apply Forall_insert|by rewrite length_map, length_insert]|].
  by intros r s3 [-> ->].
Qed.

(** The nodes below a branch with one child are those of the child *)
Lemma others_empty cs q d : in_use cs = [(q, d)] -> others cs q = [].
Proof.
  intros Eu. unfold others. assert (He : Forall (fun c => nodes c = []) (take q cs ++ drop (S q) cs)).
  { assert (H : forall p c, cs !! p = Some c -> p <> q -> nodes c = []).
    { intros p c Hp Hne. destruct c as [| | |]; [unfold nodes; by rewrite own_empty| | |];
        match type of Hp with _ = Some ?c => assert (Hin : (p, c) ∈ in_use cs) by (by apply elem_of_in_use) end;
        rewrite Eu in Hin; apply list_elem_of_singleton in Hin; congruence. }
    apply Forall_app. split; apply Forall_lookup_2; intros p c Hp.
    - apply lookup_take_Some in Hp as [Hp Hlt]. apply (H p); [done|lia].
    - rewrite lookup_drop in Hp. apply (H _ _ Hp). lia. }
  induction He as [|c l Hc _ IH]; [done|]. cbn [mbind list_bind]. by rewrite Hc.
Qed.

Lemma delete_branch recur m cs i ks k L s :
  delete_spec recur m -> (forall o k, Mono (recur o k)) ->
  wf (S m) (Branch cs) -> slice_ok k -> full (S m) (slice_nibs k) -> slice_nibs k = i :: ks -> Z.of_nat (S m) < 2 ^ 62 ->
  I (nodes (Branch cs) ++ L) s ->
  wp (r ← lift (stream_list 17);
      n ← lift (slice_at k 0);
      o ← delete_items n (fun r => x ← lift (rlp_at (enc (Branch cs)) n); deleteAtAux recur r x (mid k 1))
            (enc (Branch cs)) (seq 0 17) r;
      match o with
      | None => mret []
      | Some r =>
          killNode_ (enc (Branch cs));;
          d ← lift (stream_out r);
          rlp ← lift (RLP d VeryStrict);
          used ← lift (uniqueInUse rlp 255);
          if decide (used = 255) then mret d else merge_up rlp used
      end) s (delete_post (Branch cs) (slice_nibs k) L).
Proof.
  intros Hrec Hmono Hwf Hk Hf Ek Hn HI. pose proof Hwf as [Hw _]. apply wf_branch in Hwf as (m' & [= <-] & Hl16 & Hcs & Hu).
  rewrite Ek in Hf. apply full_cons in Hf as [Hi Hks]. assert (Hmk : slice_nibs (mid k 1) = ks) by (by rewrite mid_nibs, Ek).
  set (j := Z.to_nat i). assert (Hj : (j < 16)%nat) by lia. assert (Hij : i = Z.of_nat j) by lia.
  destruct (lookup_lt_is_Some_2 cs j ltac:(lia)) as [c Hc]. pose proof (Forall_lookup_1 _ _ _ _ Hcs Hc) as Hwc.
  assert (Hmg : forall orig n js r, Mono (DB := DB) (delete_items n (fun r => x ← lift (rlp_at orig n); deleteAtAux recur r x (mid k 1)) orig js r)).
  { intros. apply mono_delete_items. intros. apply mono_bind; [apply _|]. intros. by apply mono_deleteAtAux. }
  apply (wp_lift_bind _ _ _ _ _ (stream_list_building 17 ltac:(lia))).
  apply (wp_lift_bind _ _ _ _ _ (slice_at_nibs k 0 i ltac:(by rewrite Ek))). rewrite Hij.
  assert (HI1 : I (nodes c ++ own (Branch cs) ++ others cs j ++ L) s).
  { assert (Hperm : nodes c ++ own (Branch cs) ++ others cs j ++ L ≡ₚ own (Branch cs) ++ (nodes c ++ others cs j) ++ L) by perm.
    rewrite Hperm, <-(below_child cs j c Hc). by rewrite app_assoc. }
  apply wp_bind; [mono_all|]. eapply wp_wand; [apply (delete_items_spec recur m cs j c (mid k 1) (own (Branch cs) ++ others cs j ++ L)); try done|].
  { apply mid_ok; [done|]. rewrite Ek. cbn. lia. }
  { by rewrite Hmk. }
  { lia. }
  rewrite Hmk. unfold delete_post. rewrite Ek, del_branch. fold j. rewrite Hc. cbn [mbind option_bind].
  destruct (del c ks) as [c'|] eqn:Ed; intros o s1 [-> HI2]; cbn [mbind option_bind].
  - destruct (del_spec m c ks c' Hwc Hks ltac:(lia) Ed) as ([Hw' _] & _ & _).
    set (cs' := <[j := c']> cs) in *.
    assert (Hws : ww (S m) (Branch cs')).
    { constructor; [unfold cs'; by rewrite length_insert|]. apply Forall_insert; [|done]. apply (list.Forall_impl _ _ _ Hcs). by intros ? []. }
    assert (HI3 : I (own (Branch cs) ++ below (Branch cs') ++ L) s1).
    { unfold cs'. rewrite below_insert by lia.
      assert (Hperm : own (Branch cs) ++ (nodes c' ++ others cs j) ++ L ≡ₚ nodes c' ++ own (Branch cs) ++ others cs j ++ L) by perm. by rewrite Hperm. }
    apply wp_bind; [mono_all|]. eapply wp_wand; [by apply wp_killNode_|]. intros [] s2 HI4.
    apply (wp_lift_bind _ _ _ _ _ (building_out 17 (map ref cs' ++ [Str []]) ltac:(unfold cs'; by rewrite length_app, length_map, length_insert, Hl16))).
    change (encode (Lst (map ref cs' ++ [Str []]))) with (enc (Branch cs')).
    apply (wp_lift_bind _ _ _ _ _ (enc_RLP (S m) _ VeryStrict Hws)). apply (wp_lift_bind _ _ _ _ _ (uniqueInUse_spec (S m) cs' Hws)).
    unfold rejig. destruct (in_use cs') as [|[q d] [|y l]] eqn:Eu; [by apply wp_ret| |by apply wp_ret].
    assert (Hq : (q, d) ∈ in_use cs') by (rewrite Eu; left). apply elem_of_in_use in Hq as [Hq Hd].
    pose proof (lookup_lt_Some _ _ _ Hq) as Hql. unfold cs' in Hql. rewrite length_insert in Hql. rewrite decide_False by lia.
    rewrite (below_child cs' q d Hq), (others_empty cs' q d Eu), app_nil_r in HI4. by apply merge_up_spec with (S m).
  - apply wp_ret. split; [done|]. unfold nodes at 1. rewrite (below_child cs j c Hc).
    assert (Hperm : (own (Branch cs) ++ nodes c ++ others cs j) ++ L ≡ₚ nodes c ++ own (Branch cs) ++ others cs j ++ L) by perm. by rewrite Hperm.
Qed.

Lemma delete_leaf n k' v k L s :
  wf n (Leaf k' v) -> full n (slice_nibs k) -> I (nodes (Leaf k' v) ++ L) s ->
  wp (if bool_decide (k' = slice_nibs k) then killNode_ (enc (Leaf k' v));; mret RLPNull else mret []) s
    (delete_post (Leaf k' v) (slice_nibs k) L).
Proof.
  intros [Hw _] [Hk _] HI. unfold delete_post. cbn [del]. case_bool_decide as E.
  - rewrite decide_True by done. apply wp_bind; [mono_all|]. unfold nodes in HI. cbn [below] in HI. rewrite app_nil_r in HI.
    eapply wp_wand; [by apply wp_killNode_|]. intros [] s1 HI1. by apply wp_ret.
  - rewrite decide_False by done. by apply wp_ret.
Qed.

Lemma deleteAt_spec fuel n : (n < fuel)%nat -> Z.of_nat n < 2 ^ 62 -> delete_spec (deleteAt fuel) n.
Proof.
  revert n. induction fuel as [|fuel IH]; intros n Hfu Hn t k L s Hwf Hk Hf HI; [lia|]. pose proof Hwf as [Hw _].
  cbn [deleteAt]. rewrite (enc_isEmpty n t Hw). destruct t as [|k' v'|k' c|cs]; cbn [is_empty].
  - by apply wp_ret.
  - apply ww_leaf_inv in Hw as Hw'. destruct Hw' as (Hk' & _ & Hl').
    destruct (two_read n (Leaf k' v') true k' (Str v') Hw eq_refl Hk') as (-> & _ & _ & E2 & sl & E3 & Hsl & Hsn).
    apply (wp_lift_bind _ _ _ _ _ eq_refl). rewrite decide_True by done. apply (wp_lift_bind _ _ _ _ _ E3).
    apply (wp_and_lift _ _ _ _ _ _ E2). rewrite slice_eqb_nibs, Hsn, andb_true_r by done.
    pose proof (delete_leaf n k' v' k L s Hwf Hf HI) as Hd. case_bool_decide as E; [done|].
    rewrite contains_nibs, Hsn by done. rewrite bool_decide_eq_false_2; [done|].
    destruct Hf as [Hf _]. intros ?%prefix_same_length; [done|lia].
  - apply ww_ext_inv in Hw as Hw'. destruct Hw' as (Hk' & Hne & Hce & Hl' & Hcw).
    destruct (two_read n (Ext k' c) false k' (ref c) Hw eq_refl Hk') as (-> & _ & _ & E2 & sl & E3 & Hsl & Hsn).
    apply (wp_lift_bind _ _ _ _ _ eq_refl). rewrite decide_True by done. apply (wp_lift_bind _ _ _ _ _ E3).
    apply (wp_and_lift _ _ _ _ _ _ E2). rewrite andb_false_r, contains_nibs, Hsn by done. case_bool_decide as Hp.
    + rewrite slice_size_nibs, Hsn. apply delete_ext with n; try done; [|intros; apply _]. apply IH; [|lia].
      assert (0 < length k')%nat by (destruct k'; [done|cbn; lia]). lia.
    + apply wp_ret. unfold delete_post. cbn [del]. by rewrite decide_False.
  - destruct (branch_read n cs Hw) as (-> & _ & _). apply (wp_lift_bind _ _ _ _ _ eq_refl). rewrite decide_False by done.
    inversion Hw as [| | |m ? Hl16 Hcs]; subst n. pose proof Hf as [Hlk _]. rewrite slice_size_nibs. rewrite decide_False by lia.
    apply wp_ret_bind. change (isEmpty RLPNull) with true. cbn [negb].
    destruct (slice_nibs k) as [|i ks] eqn:Ek; [done|]. rewrite <-Ek in *.
    apply (delete_branch (deleteAt fuel) m cs i ks); try done; [|intros; apply _]. apply IH; lia.
Qed.
End Spec.
End Remove.
