(* ===== verification/TrieTop.v ===== *)
(** * The operations of the trie on its state

    [Rep X n t L s]: the trie of state [s] is the tree [t] for keys of [n] nibbles, in a database
    that keeps its nodes and the nodes [L] of others.  Sequences of operations on an empty trie
    and the finite map that they stand for. *)

From stdpp Require Import gmap.
From S2P Require Import Prelude Words Exn Rlp RlpSpec RlpClaims TrieCommon MemoryDB TrieDB.
From S2P Require Import TrieKeys TrieSpec TrieTree TrieCanon TrieRead TrieWp TrieInsert TrieRemove.

#[local] Set Warnings "-register-all".

#[local] Open Scope Z_scope.

(** ** Keys *)

Definition key_of (w : nat) (k : list Z) : Prop := bytes k /\ length k = w.

Lemma nibbles_inj k1 k2 : bytes k1 -> bytes k2 -> nibbles k1 = nibbles k2 -> k1 = k2.
Proof.
  intros H. revert k2. induction H as [|b k1 Hb Hk IH]; intros k2 H2 E; destruct H2 as [|c k2 Hc H2]; try done.
  rewrite !nibbles_cons in E. injection E as E1 E2 E. destruct (byte_nibbles b Hb) as (_ & _ & ->), (byte_nibbles c Hc) as (_ & _ & ->).
  rewrite E1, E2. f_equal. by apply IH.
Qed.

Lemma full_nibbles w k : key_of w k -> full (2 * w) (nibbles k).
Proof. intros [Hb <-]. split; [apply length_nibbles|by apply nibbles_nibs]. Qed.

Lemma full_key w ks : full (2 * w) ks -> exists k, key_of w k /\ nibbles k = ks.
Proof.
  intros [Hl Hn]. exists (hp_pairs ks). split; [|apply nibbles_hp_pairs; [done|]].
  - split; [apply hp_pairs_bytes|]. rewrite length_hp_pairs, Hl, Nat.mul_comm. by apply Nat.div_mul.
  - rewrite Hl. rewrite Nat.even_mul. done.
Qed.

Lemma slice_whole k : bytes k -> slice_ok (mkSlice k 0) /\ slice_nibs (mkSlice k 0) = nibbles k.
Proof. intros Hk. split; [|done]. split; [cbn; lia|done]. Qed.

(** The tree has the contents of the map *)
Definition holds (w : nat) (t : tree) (m : gmap (list Z) (list Z)) : Prop := forall k, key_of w k -> tget t (nibbles k) = m !! k.

Lemma holds_unique w t1 t2 m : wf (2 * w) t1 -> wf (2 * w) t2 -> holds w t1 m -> holds w t2 m -> t1 = t2.
Proof.
  intros H1 H2 Hh1 Hh2. apply (wf_unique (2 * w)); [done|done|]. intros ks (k & Hk & <-)%full_key. by rewrite Hh1, Hh2.
Qed.

Section Top.
Context {DB : Type} {B : Backend DB} {BL : BackendLaws DB} {Api : Sha3Api}.

Abbreviation St := (GenericTrieDB DB).

(** ** Reading changes nothing *)

Class Reads {A} (m : M St A) : Prop := reads : forall s, (m s).1 = s.
#[export] Instance reads_ret {A} (a : A) : Reads (mret a).
Proof. by intros s. Qed.
#[export] Instance reads_throw {A} e : Reads (throw (A := A) e).
Proof. by intros s. Qed.
#[export] Instance reads_lift {A} (r : res A) : Reads (lift r).
Proof. by intros s. Qed.
#[export] Instance reads_get : Reads get_st.
Proof. by intros s. Qed.
Lemma reads_bind {A C} (m : M St A) (k : A -> M St C) : Reads m -> (forall a, Reads (k a)) -> Reads (m ≫= k).
Proof.
  intros Hm Hk s. unfold mbind, M_bind. specialize (Hm s). destruct (m s) as [s' [a|e]]; cbn in *; [by rewrite Hk|done].
Qed.
Lemma reads_and_also a (b : M St bool) : Reads b -> Reads (and_also a b).
Proof. unfold and_also. intros. destruct a; apply _. Qed.
#[export] Instance reads_node h : Reads (node h).
Proof. apply reads_bind; apply _. Qed.

Ltac solve_reads :=
  repeat first
    [ progress intros
    | apply _
    | apply reads_bind
    | apply reads_and_also
    | match goal with |- Reads (match ?x with _ => _ end) => destruct x end ].

#[export] Instance reads_atAux fuel here key : Reads (atAux fuel here key).
Proof. revert here key. induction fuel as [|fuel IH]; intros; cbn [atAux]; unfold follow; solve_reads. Qed.
#[export] Instance reads_at_key k : Reads (at_key k).
Proof. unfold at_key. solve_reads. Qed.

(** ** The tree of a state *)

Section Rep.
Context (X : h256 -> Prop) (n : nat).

Definition Rep (t : tree) (L : list (list Z)) (s : St) : Prop :=
  wf n t /\ Inv X (SHA3_256 (enc t)) (m_rootCache s) (enc t :: below t ++ L) s.

Lemma Inv_set_root rt ca L h s : Inv X rt ca L s -> Inv X h ca L (set_root h s).
Proof. intros [? ? ? ? ? ?]. by constructor. Qed.

(** The root is in the database, also when it is short *)
Lemma root_own t L rt ca s :
  Inv X rt ca (enc t :: below t ++ L) s ->
  Inv X rt ca (own t ++ below t ++ (if decide (length (enc t) < 32)%nat then [enc t] else []) ++ L) s.
Proof.
  intros HI. unfold own. case_decide; [|done]. assert (E : [] ++ below t ++ [enc t] ++ L ≡ₚ enc t :: below t ++ L) by perm. by rewrite E.
Qed.

(** The old root goes, the new one is written *)
Lemma new_root t t' L rt ca s :
  wf n t' -> Inv X rt ca (below t' ++ (if decide (length (enc t) < 32)%nat then [enc t] else []) ++ L) s -> rt = SHA3_256 (enc t) ->
  wp ((if decide (length (enc t) < 32)%nat then forceKillNode rt else mret tt);;
      h ← forceInsertNode (enc t');
      update_st (set_root h)) s (fun _ s' => Rep t' L s').
Proof.
  intros Hwf HI ->. apply wp_bind; [mono_all|].
  eapply (wp_wand _ _ (fun _ s' => Inv X (SHA3_256 (enc t)) ca (below t' ++ L) s')).
  - case_decide; [|by apply wp_ret]. apply wp_kill. assert (E : enc t :: below t' ++ L ≡ₚ below t' ++ [enc t] ++ L) by perm. by rewrite E.
  - intros [] s1 HI1. apply wp_bind; [mono_all|]. eapply wp_wand; [apply wp_insert; [done|apply enc_ne]|].
    intros h s2 [-> HI2]. right. exists tt. split; [done|]. split; [done|].
    apply (Inv_set_root _ _ _ (SHA3_256 (enc t'))) in HI2.
    change (update_st (set_root (SHA3_256 (enc t'))) s2).1 with (set_root (SHA3_256 (enc t')) s2).
    by rewrite (inv_cache _ _ _ _ _ HI2).
Qed.

Lemma insert_rep t L k v s :
  Rep t L s -> bytes k -> n = (2 * length k)%nat -> Z.of_nat n < 2 ^ 62 -> value_ok v ->
  wp (insert k v) s (fun _ s' => Rep (ins t (nibbles k) v) L s').
Proof.
  intros [[Hw Hc] HI] Hk Hnk Hn Hv. rewrite Hnk in Hw, Hn. destruct (slice_whole k Hk) as [Hso Hsn].
  assert (Hko : key_ok (nibbles k)) by (split; [by apply nibbles_nibs|unfold len; rewrite length_nibbles; lia]).
  assert (Hwf : wf (2 * length k) (ins t (nibbles k) v)).
  { split; [apply ww_ins; [done|done|apply length_nibbles|done]|eapply canonical_ins; [done|done|apply length_nibbles|done|done]]. }
  unfold insert. apply wp_get_bind. rewrite (inv_root _ _ _ _ _ HI). apply wp_bind; [mono_all|].
  eapply wp_wand; [eapply wp_node; [exact HI|left]|]. intros r s' [-> ->].
  apply (wp_lift_bind _ _ _ _ _ (enc_RLP _ _ VeryStrict Hw)). apply wp_bind; [mono_all|].
  eapply wp_wand; [apply (mergeAt_spec X (SHA3_256 (enc t)) (m_rootCache s) (trie_fuel k) v (2 * length k) t (mkSlice k 0) false (SHA3_256 (enc t))); try done|].
  - by rewrite Hsn, length_nibbles.
  - unfold cost, trie_fuel. rewrite Hsn, length_nibbles. destruct (quiet _ _); lia.
  - by apply root_own.
  - rewrite Hsn. intros b s1 [-> HI1]. eapply new_root; [by rewrite Hnk|done|done].
Qed.

Lemma remove_rep t L k s :
  Rep t L s -> bytes k -> n = (2 * length k)%nat -> Z.of_nat n < 2 ^ 62 ->
  wp (remove k) s (fun _ s' => Rep (default t (del t (nibbles k))) L s').
Proof.
  intros [Hwf HI] Hk Hnk Hn. unfold Rep. rewrite Hnk in Hwf, Hn. pose proof Hwf as [Hw _]. destruct (slice_whole k Hk) as [Hso Hsn].
  assert (Hf : full (2 * length k) (nibbles k)) by (by apply full_nibbles).
  unfold remove. apply wp_get_bind. rewrite (inv_root _ _ _ _ _ HI). apply wp_bind; [mono_all|].
  eapply wp_wand; [eapply wp_node; [exact HI|left]|]. intros r s' [-> ->].
  apply (wp_lift_bind _ _ _ _ _ (enc_RLP _ _ VeryStrict Hw)). apply wp_bind; [mono_all|].
  eapply wp_wand; [apply (deleteAt_spec X (SHA3_256 (enc t)) (m_rootCache s) (trie_fuel k) (2 * length k) ltac:(unfold trie_fuel; lia) Hn t (mkSlice k 0)); try done|].
  - unfold nodes. rewrite <-app_assoc. by apply root_own.
  - unfold delete_post. rewrite Hsn. intros b s1. destruct (del t (nibbles k)) as [t'|] eqn:Ed; cbn [default].
    + intros [-> HI1]. rewrite decide_True by apply enc_ne. eapply new_root; [|done|done]. rewrite Hnk.
      by destruct (del_spec _ _ _ _ Hwf Hf Hn Ed) as (? & _).
    + intros [-> HI1]. rewrite decide_False by (intros []; done). apply wp_ret. split; [by rewrite Hnk|].
      rewrite (inv_cache _ _ _ _ _ HI1). unfold nodes, own in HI1. case_decide; [|done].
      assert (E : enc t :: below t ++ L ≡ₚ ([] ++ below t) ++ [enc t] ++ L) by perm. by rewrite E.
Qed.

Lemma at_rep t L k s :
  Rep t L s -> bytes k -> n = (2 * length k)%nat -> at_key k s = (s, inl (default [] (tget t (nibbles k)))).
Proof.
  intros [[Hw _] HI] Hk Hnk. rewrite Hnk in Hw. destruct (slice_whole k Hk) as [Hso Hsn].
  assert (Hwp : wp (at_key k) s (fun v s' => v = default [] (tget t (nibbles k)) /\ s' = s)).
  { unfold at_key. apply wp_get_bind. rewrite (inv_root _ _ _ _ _ HI). apply wp_bind; [mono_all|].
    eapply wp_wand; [eapply wp_node; [exact HI|left]|]. intros r s' [-> ->].
    apply (wp_lift_bind _ _ _ _ _ (enc_RLP _ _ VeryStrict Hw)).
    apply (atAux_spec X _ _ _ (2 * length k) t (mkSlice k 0) _ _ HI); [done| |done|by rewrite Hsn, length_nibbles|unfold trie_fuel; lia].
    intros e He. right. apply elem_of_app. by left. }
  pose proof (reads_at_key k s) as Hr. destruct (at_key k s) as [s' r] eqn:E. cbn in Hr. subst s'.
  destruct Hwp as [Hf|(a & Ha & -> & _)]; rewrite E in *; cbn in *; [by rewrite (inv_fault _ _ _ _ _ HI) in Hf|by rewrite Ha].
Qed.

Lemma init_rep rt ca L s : Inv X rt ca L s -> wp init s (fun _ s' => Rep Empty L s').
Proof.
  intros HI. unfold init. apply wp_bind; [unfold setRoot; mono_all|].
  eapply wp_wand; [apply wp_insert; [exact HI|done]|]. intros h s1 [-> HI1].
  apply (Inv_set_root _ _ _ (SHA3_256 RLPNull)) in HI1.
  destruct (inv_stored _ _ _ _ _ HI1 RLPNull ltac:(left)) as [_ Hl]. cbn [setRoot].
  right. exists tt. unfold mbind, M_bind, update_st, get_st, node. cbn [fst snd t_db set_root m_root] in *.
  rewrite (db_exists_lookup (t_db s1) (SHA3_256 RLPNull)); [|exact (inv_valid _ _ _ _ _ HI1)|by rewrite Hl].
  rewrite andb_false_r. cbn -[SHA3_256]. unfold mbind, M_bind, get_st. cbn -[SHA3_256].
  rewrite Hl. rewrite decide_False by done. cbn. split; [done|]. split; [by split; [constructor|]|].
  rewrite <-(inv_cache _ _ _ _ _ HI1) in HI1. exact HI1.
Qed.
End Rep.

(** ** Sequences of operations *)

Inductive op := Put (k v : list Z) | Del (k : list Z).

Definition op_ok (w : nat) (o : op) : Prop :=
  match o with
  | Put k v => key_of w k /\ value_ok v
  | Del k => key_of w k
  end.

Definition run_op (o : op) : M St unit := match o with Put k v => insert k v | Del k => remove k end.
Fixpoint run (ops : list op) : M St unit :=
  match ops with
  | [] => mret tt
  | o :: ops => run_op o;; run ops
  end.
End Top.

Definition apply_op (m : gmap (list Z) (list Z)) (o : op) : gmap (list Z) (list Z) :=
  match o with Put k v => <[k := v]> m | Del k => delete k m end.

(** The map that the operations make of an empty one *)
Definition contents (ops : list op) : gmap (list Z) (list Z) := foldl apply_op ∅ ops.

Definition op_tree (t : tree) (o : op) : tree :=
  match o with Put k v => ins t (nibbles k) v | Del k => default t (del t (nibbles k)) end.

Lemma holds_op w t m o :
  wf (2 * w) t -> Z.of_nat (2 * w) < 2 ^ 62 -> op_ok w o -> holds w t m -> holds w (op_tree t o) (apply_op m o).
Proof.
  intros Hwf Hw Ho Hh k' Hk'. pose proof (full_nibbles w k' Hk') as Hf'. pose proof Hwf as [Hww _].
  destruct o as [k v|k]; cbn [op_tree apply_op op_ok] in *.
  - destruct Ho as [Hk Hv]. pose proof (full_nibbles w k Hk) as [Hl Hn].
    rewrite (tget_ins (2 * w)); [|done|done..]. rewrite lookup_insert, Hh by done. apply decide_ext.
    split; [intros E; apply nibbles_inj; [by destruct Hk|by destruct Hk'|done]|by intros ->].
  - pose proof (full_nibbles w k Ho) as Hf. rewrite lookup_delete. destruct (del t (nibbles k)) as [t'|] eqn:Ed; cbn.
    + destruct (del_spec _ _ _ _ Hwf Hf Hw Ed) as (_ & _ & Hg). rewrite Hg, Hh by done. apply decide_ext.
      split; [intros E; apply nibbles_inj; [by destruct Ho|by destruct Hk'|done]|by intros ->].
    + rewrite Hh by done. case_decide as E; [|done]. subst k'. rewrite (del_none (2 * w)), Hh in Ed by done. done.
Qed.

Section Runs.
Context {DB : Type} {B : Backend DB} {BL : BackendLaws DB} {Api : Sha3Api}.

Abbreviation St := (GenericTrieDB DB).

#[export] Instance mono_insert_key k v : Mono (DB := DB) (insert k v).
Proof. unfold insert. mono_all. Qed.
#[export] Instance mono_remove_key k : Mono (DB := DB) (remove k).
Proof. unfold remove. mono_all. Qed.
#[export] Instance mono_init : Mono (DB := DB) init.
Proof. unfold init, setRoot. mono_all. Qed.
#[export] Instance mono_run_op o : Mono (DB := DB) (run_op o).
Proof. destruct o; apply _. Qed.
#[export] Instance mono_run ops : Mono (DB := DB) (run ops).
Proof. induction ops as [|o ops IH]; cbn [run]; mono_all. Qed.

Lemma run_op_rep X w o t m L (s : St) :
  Rep X (2 * w) t L s -> holds w t m -> op_ok w o -> Z.of_nat (2 * w) < 2 ^ 62 ->
  wp (run_op o) s (fun _ s' => exists t', Rep X (2 * w) t' L s' /\ holds w t' (apply_op m o)).
Proof.
  intros HR Hh Ho Hw. pose proof HR as [Hwf _]. pose proof (holds_op w t m o Hwf Hw Ho Hh) as Hh'.
  eapply (wp_wand _ _ (fun _ s' => Rep X (2 * w) (op_tree t o) L s')); [|intros [] s' HR'; by eexists].
  destruct o as [k v|k]; cbn [op_ok run_op op_tree] in *.
  - destruct Ho as [[Hk <-] Hv]. by apply insert_rep.
  - destruct Ho as [Hk <-]. by apply remove_rep.
Qed.

Lemma run_rep X w ops t m L (s : St) :
  Rep X (2 * w) t L s -> holds w t m -> Forall (op_ok w) ops -> Z.of_nat (2 * w) < 2 ^ 62 ->
  wp (run ops) s (fun _ s' => exists t', Rep X (2 * w) t' L s' /\ holds w t' (foldl apply_op m ops)).
Proof.
  intros HR Hh Ho Hw. revert t m s HR Hh. induction Ho as [|o ops Ho _ IH]; intros t m s HR Hh; cbn [run foldl].
  - apply wp_ret. by exists t.
  - apply wp_bind; [apply _|]. eapply wp_wand; [by eapply run_op_rep|]. intros [] s1 (t1 & HR1 & Hh1). by eapply IH.
Qed.

(** The hashes that the database did not count at first *)
Definition fresh (s : St) (h : h256) : Prop := db_refs (t_db s) h = 0.

Lemma start_rep w ops (s : St) :
  db_valid (t_db s) -> m_fault s = false -> Forall (op_ok w) ops -> Z.of_nat (2 * w) < 2 ^ 62 ->
  wp (init;; run ops) s (fun _ s' => exists t, Rep (fresh s) (2 * w) t [] s' /\ holds w t (contents ops)).
Proof.
  intros Hv Hf Ho Hw. apply wp_bind; [apply _|]. eapply wp_wand; [apply (init_rep (fresh s) (2 * w) (m_root s) (m_rootCache s) [])|].
  - constructor; try done. intros e He. by apply not_elem_of_nil in He.
  - intros [] s1 HR. eapply run_rep; [exact HR| |done|done]. intros k Hk. by rewrite lookup_empty.
Qed.
End Runs.
