(* ===== verification/TrieSecure.v ===== *)
(** * Tries with hashed keys

    FatGenericTrieDB, the type of the state trie and of the storage tries: keys of any length are
    hashed, and the database keeps them beside the nodes. *)

From stdpp Require Import gmap.
From S2P Require Import Prelude Words Exn Rlp RlpSpec RlpClaims TrieCommon MemoryDB TrieDB.
From S2P Require Import TrieKeys TrieSpec TrieTree TrieCanon TrieRead TrieWp TrieInsert TrieRemove TrieTop.

#[local] Set Warnings "-register-all".

#[local] Open Scope Z_scope.

Definition op_key (o : op) : list Z := match o with Put k _ | Del k => k end.

Section Secure.
Context {DB : Type} {B : Backend DB} {BL : BackendLaws DB} {Api : Sha3Api}.

Abbreviation St := (GenericTrieDB DB).

(** The operation on the trie below *)
Definition hash_op (o : op) : op := match o with Put k v => Put (SHA3_256 k) v | Del k => Del (SHA3_256 k) end.

Definition fat_ok (o : op) : Prop :=
  match o with
  | Put k v => bytes k /\ value_ok v
  | Del k => bytes k
  end.

Lemma fat_op_ok o : fat_ok o -> op_ok 32 (hash_op o).
Proof.
  destruct o as [k v|k]; cbn.
  - intros [Hk Hv]. repeat split; [by apply SHA3_256_bytes|by apply SHA3_256_length|by destruct Hv..].
  - intros Hk. split; [by apply SHA3_256_bytes|by apply SHA3_256_length].
Qed.

Definition fat_run_op (o : op) : M St unit := match o with Put k v => fat_insert k v | Del k => fat_remove k end.
Fixpoint fat_run (ops : list op) : M St unit :=
  match ops with
  | [] => mret tt
  | o :: ops => fat_run_op o;; fat_run ops
  end.

Lemma keeps_insertAux h v : keeps_fault (DB := DB) (insertAux h v).
Proof. by intros s. Qed.
Lemma keeps_fat_run_op o : keeps_fault (DB := DB) (fat_run_op o).
Proof.
  destruct o as [k v|k]; cbn [fat_run_op].
  - apply keeps_bind; [apply keeps_mono; apply _|]. intros. apply keeps_insertAux.
  - apply keeps_mono. unfold fat_remove. apply _.
Qed.
Lemma keeps_fat_run ops : keeps_fault (DB := DB) (fat_run ops).
Proof.
  induction ops as [|o ops IH]; cbn [fat_run]; [apply keeps_mono; apply _|]. apply keeps_bind; [apply keeps_fat_run_op|done].
Qed.

Lemma Inv_aux X rt ca L h v (s : St) : Inv X rt ca L s -> Inv X rt ca L (set_db (db_insertAux h v (t_db s)) s).
Proof.
  intros [Hv Hf Hrt Hca Hs Hr]. constructor; try done; cbn [t_db set_db].
  - by apply valid_insertAux.
  - intros e He. destruct (Hs e He) as [Hne Hl]. split; [done|]. by rewrite db_lookup_insertAux.
  - intros h' Hx. rewrite db_refs_insertAux. by apply Hr.
Qed.

(** ** The keys beside the nodes *)

(** The keys that were inserted are found by their hashes *)
Definition preimages (ks : list (list Z)) (s : St) : Prop :=
  forall k, k ∈ ks -> k <> [] -> db_lookupAux (t_db s) (SHA3_256 k) = k.

Lemma closed_preimages ks : closed (preimages ks).
Proof.
  constructor; [| |done].
  - intros v s Hs k Hk Hne. rewrite insert_run. cbn [fst t_db]. rewrite db_lookupAux_insert. by apply Hs.
  - intros h s Hs k Hk Hne. cbn. rewrite db_lookupAux_kill. by apply Hs.
Qed.

Definition put_keys (ops : list op) : list (list Z) := omap (fun o => match o with Put k _ => Some k | Del _ => None end) ops.

(** No two of the keys have one hash *)
Definition apart (ks : list (list Z)) : Prop := forall k1 k2, k1 ∈ ks -> k2 ∈ ks -> SHA3_256 k1 = SHA3_256 k2 -> k1 = k2.

Lemma preimages_insert ks k (s : St) :
  db_valid (t_db s) -> apart (k :: ks) -> preimages ks s -> preimages (k :: ks) (set_db (db_insertAux (SHA3_256 k) k (t_db s)) s).
Proof.
  intros Hv Ha Hp k' Hk' Hne. cbn [t_db set_db].
  assert (E : SHA3_256 k = SHA3_256 k' -> k = k') by (intros E; apply Ha; [left|done|done]).
  rewrite db_lookupAux_insertAux by (done || intros ->%E; done). case_decide as Eh; [by apply E|].
  apply elem_of_cons in Hk' as [->|Hk']; [done|]. by apply Hp.
Qed.

(** ** Runs *)

Lemma fat_run_op_rep X ks o t m L (s : St) :
  Rep X 64 t L s -> holds 32 t m -> fat_ok o -> preimages ks s -> apart (op_key o :: ks) ->
  wp (fat_run_op o) s (fun _ s' => (exists t', Rep X 64 t' L s' /\ holds 32 t' (apply_op m (hash_op o))) /\
    preimages (put_keys [o] ++ ks) s').
Proof.
  intros HR Hh Ho Hp Ha. pose proof (run_op_rep X 32 (hash_op o) t m L s HR Hh (fat_op_ok o Ho) ltac:(lia)) as Hw.
  apply (wp_closed _ _ _ _ (closed_preimages ks) Hp) in Hw. destruct o as [k v|k]; cbn [fat_run_op run_op hash_op put_keys omap list_omap app] in *.
  - unfold fat_insert. apply wp_keeps; [intros; apply keeps_insertAux|]. eapply wp_wand; [exact Hw|].
    intros [] s1 [(t' & [Hwf HI] & Hh') Hp']. right. exists tt. split; [done|]. split.
    + exists t'. split; [|done]. split; [done|]. by apply (Inv_aux X _ _ _ (SHA3_256 k) k) in HI.
    + apply preimages_insert; [exact (inv_valid _ _ _ _ _ HI)|done|done].
  - exact Hw.
Qed.

Lemma apart_sub ks ks' : apart ks' -> ks ⊆ ks' -> apart ks.
Proof. intros Ha Hs k1 k2 H1 H2. apply Ha; by apply Hs. Qed.

Lemma fat_run_rep X ks ops t m L (s : St) :
  Rep X 64 t L s -> holds 32 t m -> Forall fat_ok ops -> preimages ks s -> apart ((op_key <$> ops) ++ ks) ->
  wp (fat_run ops) s (fun _ s' => (exists t', Rep X 64 t' L s' /\ holds 32 t' (foldl apply_op m (hash_op <$> ops))) /\
    preimages (put_keys ops ++ ks) s').
Proof.
  intros HR Hh Ho. revert ks t m s HR Hh. induction Ho as [|o ops Ho _ IH]; intros ks t m s HR Hh Hp Ha; cbn [fat_run foldl fmap list_fmap].
  - apply wp_ret. split; [by exists t|done].
  - apply wp_keeps; [intros; apply keeps_fat_run|].
    eapply wp_wand; [apply (fat_run_op_rep X ks o t m L s HR Hh Ho Hp); eapply apart_sub; [exact Ha|set_solver]|].
    intros [] s1 [(t1 & HR1 & Hh1) Hp1]. eapply wp_wand; [eapply IH; [exact HR1|exact Hh1|exact Hp1|]|].
    + eapply apart_sub; [exact Ha|]. destruct o as [k v|k]; cbn; set_solver.
    + intros [] s2 [Hr Hp2]. split; [done|]. intros k Hk. apply Hp2. revert Hk. destruct o as [k' v|k']; cbn; set_solver.
Qed.

(** The map of the hashes is the map of the keys *)
Lemma contents_hash ops k :
  apart (k :: (op_key <$> ops)) -> contents (hash_op <$> ops) !! SHA3_256 k = contents ops !! k.
Proof.
  unfold contents. intros Ha.
  assert (H : forall m m' : gmap (list Z) (list Z), m' !! SHA3_256 k = m !! k ->
    foldl apply_op m' (hash_op <$> ops) !! SHA3_256 k = foldl apply_op m ops !! k); [|by apply H].
  induction ops as [|o ops IH]; intros m m' Hm; [done|]. cbn [fmap list_fmap foldl]. apply IH.
  - eapply apart_sub; [exact Ha|]. cbn. set_solver.
  - assert (E : SHA3_256 (op_key o) = SHA3_256 k <-> op_key o = k) by (split; [intros; apply Ha; [cbn; set_solver|cbn; set_solver|done]|by intros ->]).
    destruct o as [k' v|k']; cbn [hash_op apply_op op_key] in *.
    + rewrite !lookup_insert, Hm. by apply decide_ext.
    + rewrite !lookup_delete, Hm. by apply decide_ext.
Qed.

Lemma fat_start_rep ops (s : St) :
  db_valid (t_db s) -> m_fault s = false -> Forall fat_ok ops -> apart (op_key <$> ops) ->
  wp (init;; fat_run ops) s (fun _ s' =>
    (exists t, Rep (fresh s) 64 t [] s' /\ holds 32 t (contents (hash_op <$> ops))) /\ preimages (put_keys ops) s').
Proof.
  intros Hv Hf Ho Ha. apply wp_keeps; [intros; apply keeps_fat_run|].
  eapply wp_wand; [apply (init_rep (fresh s) 64 (m_root s) (m_rootCache s) [])|].
  - constructor; try done. intros e He. by apply not_elem_of_nil in He.
  - intros [] s1 HR. pose proof (fat_run_rep (fresh s) [] ops Empty ∅ [] s1 HR) as H. rewrite !app_nil_r in H.
    apply H; [|done|by intros k Hk%not_elem_of_nil|done]. intros k Hk. by rewrite lookup_empty.
Qed.
End Secure.
