(* ===== verification/TrieCommit.v ===== *)
(** * A trie over OverlayDB: operations, commit and rollback

    The trie has hashed keys and keeps them (FatGenericTrieDB), as the state trie of Block does.
    The nodes of a trie are in memory or on disk.  commit writes the nodes that are still
    referenced, and rollback forgets the ones in memory, after which the root is set back to the
    root of the last commit, as Block does. *)

From stdpp Require Import gmap.
From S2P Require Import Prelude Words Exn Rlp RlpSpec RlpClaims TrieCommon MemoryDB TrieDB.
From S2P Require Import TrieKeys TrieSpec TrieTree TrieCanon TrieRead TrieWp TrieInsert TrieRemove TrieTop TrieSecure.

#[local] Set Warnings "-register-all".

#[local] Open Scope Z_scope.

Section Commit.
Context {L : LevelDB} {LL : LevelDBLaws L} {Api : Sha3Api}.

Abbreviation St := (GenericTrieDB (OverlayDB L)).

(** ** The database on disk while the trie works *)

Definition agrees (d : ldb) (db : OverlayDB L) : Prop :=
  m_db db = Some d /\ map_Forall (fun h _ => length h = 32%nat) (m_aux (o_mem db)) /\ m_enforceRefs (o_mem db) = false /\
  map_Forall (fun h x => ldb_get d h = [] \/ ldb_get d h = x.1) (m_main (o_mem db)).

Lemma lookup_mem d db h :
  agrees d db -> Overlay.lookup db h = match m_main (o_mem db) !! h with
    | Some ([], _) | None => ldb_get d h
    | Some (v, _) => v
    end.
Proof.
  intros (Hd & _ & He & _). unfold Overlay.lookup, Mem.lookup, Mem.visible. rewrite Hd, He. cbn [negb orb].
  destruct (m_main (o_mem db) !! h) as [[[|b v] n]|]; [by rewrite decide_True|by rewrite decide_False|by rewrite decide_True].
Qed.

Lemma agrees_insert d db v :
  agrees d db -> insert_fault db (SHA3_256 v) v = false -> agrees d (db_insert (SHA3_256 v) v db).
Proof.
  intros Ha Hf. pose proof (lookup_mem d db (SHA3_256 v) Ha) as El. destruct Ha as (Hd & Hx & He & Hm).
  apply bool_decide_eq_false in Hf. split_and!; [done|done|done|]. cbn. unfold Mem.insert. cbn [m_main set_main].
  assert (Hv : ldb_get d (SHA3_256 v) = [] \/ ldb_get d (SHA3_256 v) = v).
  { assert (Ho : Overlay.lookup db (SHA3_256 v) = [] \/ Overlay.lookup db (SHA3_256 v) = v).
    { destruct (decide (Overlay.lookup db (SHA3_256 v) = [])); [by left|].
      destruct (decide (Overlay.lookup db (SHA3_256 v) = v)); [by right|]. destruct Hf. by left. }
    rewrite El in Ho. destruct (m_main (o_mem db) !! SHA3_256 v) as [[[|b w] n]|] eqn:E; [done| |done].
    destruct Ho as [?|<-]; [done|]. by apply (Hm _ _ E). }
  destruct (m_main (o_mem db) !! SHA3_256 v) as [[w n]|]; by apply map_Forall_insert_2.
Qed.

Lemma agrees_insertAux d db h v : length h = 32%nat -> agrees d db -> agrees d (db_insertAux h v db).
Proof. intros Hh (Hd & Hx & He & Hm). split_and!; [done| |done|done]. by apply map_Forall_insert_2. Qed.

Lemma agrees_kill d db h : agrees d db -> agrees d (db_kill h db).
Proof.
  intros (Hd & Hx & He & Hm). cbn. unfold Overlay.kill, Mem.kill. destruct (m_main (o_mem db) !! h) as [[w n]|] eqn:E; [|done].
  case_decide; [|done]. split_and!; [done|done|done|]. cbn. apply map_Forall_insert_2; [|done]. by apply (Hm _ _ E).
Qed.

Lemma closed_agrees d : closed (fun s : St => m_fault s = true \/ agrees d (t_db s)).
Proof.
  constructor; [| |done].
  - intros v s Hs. rewrite insert_run. cbn [fst m_fault t_db]. destruct Hs as [->|Ha]; [by left|].
    destruct (m_fault s); [by left|]. destruct (insert_fault (t_db s) (SHA3_256 v) v) eqn:E; [by left|]. right. by apply agrees_insert.
  - intros h s [Hs|Ha]; [by left|]. right. by apply agrees_kill.
Qed.

(** Operations leave the disk as it is *)
Lemma wp_agrees {A} (m : M St A) `{!Mono m} d s Q :
  agrees d (t_db s) -> wp m s Q -> wp m s (fun a s' => Q a s' /\ agrees d (t_db s')).
Proof.
  intros Ha Hw. destruct (wp_closed m _ s Q (closed_agrees d) (or_intror Ha) Hw) as [Hf|(a & E & HQ & [Hf|Ha'])]; [by left|by left|].
  right. exists a. done.
Qed.

(** ** Commit *)

(** The puts of the nodes; those of the keys have longer names *)
Lemma batch_lookup d db k :
  agrees d db -> length k = 32%nat ->
  (list_to_map (reverse (Overlay.batch db)) : gmap (list Z) (list Z)) !! k =
    match m_main (o_mem db) !! k with Some (v, n) => if decide (n <> 0) then Some v else None | None => None end.
Proof.
  intros (_ & Hx & _) Hk. unfold Overlay.batch. rewrite reverse_app, list_to_map_app, lookup_union_r.
  2: { apply not_elem_of_list_to_map_1. intros ([k' v'] & -> & Hin)%list_elem_of_fmap. rewrite elem_of_reverse in Hin.
    apply list_elem_of_fmap in Hin as ([h x] & [= -> ->] & Hin). apply list_elem_of_filter in Hin as [_ Hin%elem_of_map_to_list].
    specialize (Hx _ _ Hin). cbn in *. unfold Overlay.aux_key in Hk. rewrite length_app in Hk. cbn in *. lia. }
  set (f := fun x : list Z * (list Z * Z) => (x.1, x.2.1)). set (l := filter _ _).
  assert (Ef : (f <$> l).*1 = l.*1) by (rewrite <-list_fmap_compose; by apply list_fmap_ext).
  assert (Hnd : NoDup (f <$> l).*1).
  { rewrite Ef. unfold l. eapply sublist_NoDup; [apply (NoDup_fst_map_to_list (m_main (o_mem db)))|]. apply fmap_sublist, sublist_filter. }
  rewrite (list_to_map_proper _ (f <$> l)); [|by rewrite reverse_Permutation|by rewrite reverse_Permutation].
  destruct (m_main (o_mem db) !! k) as [[v n]|] eqn:E.
  - case_decide as Hn.
    + apply elem_of_list_to_map; [done|]. apply list_elem_of_fmap. exists (k, (v, n)). split; [done|].
      apply list_elem_of_filter. split; [done|]. by apply elem_of_map_to_list.
    + apply not_elem_of_list_to_map. rewrite Ef. intros ([k' [v' n']] & -> & Hin)%list_elem_of_fmap.
      apply list_elem_of_filter in Hin as [Hn' Hin%elem_of_map_to_list]. cbn in *. rewrite E in Hin. congruence.
  - apply not_elem_of_list_to_map. rewrite Ef. intros ([k' [v' n']] & -> & Hin)%list_elem_of_fmap.
    apply list_elem_of_filter in Hin as [Hn' Hin%elem_of_map_to_list]. cbn in *. by rewrite E in Hin.
Qed.

Lemma write_loop_spec attempts b db d :
  m_db db = Some d ->
  exists d' r, Overlay.write_loop attempts b db = (mkOverlayDB (o_mem db) (Some d'), r) /\
    (r = inr process_exit \/
     r = inl tt /\ forall k, ldb_get d' k = default (ldb_get d k) ((list_to_map (reverse b) : gmap (list Z) (list Z)) !! k)).
Proof.
  revert db d. induction attempts as [|n IH]; intros db d Hd; cbn [Overlay.write_loop].
  - unfold mbind, M_bind, get_st. rewrite Hd. destruct (ldb_write d b) as [d' [|]] eqn:E; cbn.
    + exists d', (inl tt). split; [done|]. right. split; [done|]. by apply ldb_written.
    + eexists d', _. split; [done|]. by left.
  - unfold mbind, M_bind, get_st. rewrite Hd. destruct (ldb_write d b) as [d' [|]] eqn:E; cbn.
    + exists d', (inl tt). split; [done|]. right. split; [done|]. by apply ldb_written.
    + destruct (IH (mkOverlayDB (o_mem db) (Some d')) d' eq_refl) as (d2 & r & -> & Hr). exists d2, r. split; [done|].
      destruct Hr as [->|[-> Hr]]; [by left|]. right. split; [done|]. intros k. rewrite Hr. by erewrite ldb_failed.
Qed.

(** What was referenced is on disk, and the memory is empty *)
Lemma commit_spec db d :
  agrees d db ->
  exists d' r, (Overlay.commit db).2 = r /\
    (r = inr process_exit \/
     r = inl tt /\ (Overlay.commit db).1 = mkOverlayDB new_MemoryDB (Some d') /\
     forall k, length k = 32%nat -> ldb_get d' k = match m_main (o_mem db) !! k with
       | Some (v, n) => if decide (n <> 0) then v else ldb_get d k
       | None => ldb_get d k
       end).
Proof.
  intros Ha. pose proof Ha as (Hd & Hx & He & _).
  destruct (write_loop_spec 9 (Overlay.batch db) db d Hd) as (d' & r & Ew & Hr).
  unfold Overlay.commit, mbind, M_bind, get_st. rewrite Hd, Ew. destruct Hr as [->|[-> Hr]].
  - exists d', (inr process_exit). split; [done|by left].
  - exists d', (inl tt). split; [done|]. right. split; [done|]. split.
    + cbn. unfold set_main, set_aux, new_MemoryDB. cbn. by rewrite He.
    + intros k Hk. rewrite Hr, (batch_lookup d db k Ha Hk).
      destruct (m_main (o_mem db) !! k) as [[v n]|]; [by case_decide|done].
Qed.

(** ** A trie on disk *)

(** The hashes that are not on disk: their nodes are in memory, and counted *)
Definition not_on_disk (d : ldb) (h : h256) : Prop := ldb_get d h = [].

Definition stored (d : ldb) (es : list (list Z)) : Prop := forall e, e ∈ es -> e <> [] /\ ldb_get d (SHA3_256 e) = e.

Lemma stored_inv d rt ca es aux s :
  stored d es -> map_Forall (fun h _ => length h = 32%nat) aux -> t_db s = mkOverlayDB (mkMemoryDB ∅ aux false) (Some d) -> m_fault s = false -> m_root s = rt -> m_rootCache s = ca ->
  Inv (not_on_disk d) rt ca es s /\ agrees d (t_db s).
Proof.
  intros Hs Hx Ed Hf Hr Hc. split; [|rewrite Ed; split_and!; [done|done|done|apply map_Forall_empty]].
  constructor; try done; rewrite Ed.
  - split; [done|apply map_Forall_empty].
  - intros e He. destruct (Hs e He) as [Hne Hg]. split; [done|]. exact Hg.
  - intros h Hh. transitivity 0; [done|]. destruct (decide (0 < occ h (SHA3_256 <$> es))) as [Ho|Ho].
    + apply occ_elem, list_elem_of_fmap in Ho as (e & -> & He). destruct (Hs e He) as [Hne Hg]. unfold not_on_disk in Hh. congruence.
    + pose proof (occ_nonneg h (SHA3_256 <$> es)). lia.
Qed.

Lemma nodes_bytes n t : ww n t -> Forall bytes (enc t :: below t).
Proof.
  revert n. induction t as [|k v|k c IH|cs IH] using tree_ind; intros n Hw; pose proof (enc_bytes _ _ Hw) as He.
  - by apply Forall_singleton.
  - by apply Forall_singleton.
  - apply ww_ext_inv in Hw as (_ & _ & _ & _ & Hc). specialize (IH _ Hc). apply Forall_cons_2; [done|]. cbn [below]. unfold own.
    inversion IH; subst. case_decide; [done|]. by apply Forall_cons_2.
  - apply Forall_cons_2; [done|]. rewrite below_branch. inversion Hw as [| | |m ? _ Hcs]; subst.
    apply list.Forall_forall. intros e (c & He' & Hc)%list_elem_of_bind. eapply list.Forall_forall in IH; [|exact Hc].
    eapply list.Forall_forall in Hcs; [|exact Hc]. specialize (IH _ Hcs). eapply list.Forall_forall in IH; [exact IH|].
    unfold nodes, own in He'. case_decide; [by right|done].
Qed.

Lemma committed_stored d d' rt ca es s :
  Inv (not_on_disk d) rt ca es s -> agrees d (t_db s) -> Forall bytes es ->
  (forall k, length k = 32%nat -> ldb_get d' k = match m_main (o_mem (t_db s)) !! k with
       | Some (v, n) => if decide (n <> 0) then v else ldb_get d k
       | None => ldb_get d k
       end) -> stored d' es.
Proof.
  intros HI Ha Hb Hd' e He. destruct (inv_stored _ _ _ _ _ HI e He) as [Hne Hl]. split; [done|].
  rewrite Hd' by (apply SHA3_256_length; by eapply list.Forall_forall in Hb).
  change (Overlay.lookup (t_db s) (SHA3_256 e) = e) in Hl. rewrite (lookup_mem d _ _ Ha) in Hl. destruct Ha as (_ & _ & _ & Hm).
  assert (Ho : ldb_get d (SHA3_256 e) = [] -> mem_refs (o_mem (t_db s)) (SHA3_256 e) <> 0).
  { intros Hn. pose proof (inv_refs _ _ _ _ _ HI (SHA3_256 e) Hn) as Hr. cbn in Hr. rewrite Hr.
    assert (0 < occ (SHA3_256 e) (SHA3_256 <$> es)); [|lia]. apply occ_elem. by apply list_elem_of_fmap_2. }
  unfold mem_refs in Ho. destruct (m_main (o_mem (t_db s)) !! SHA3_256 e) as [[v n]|] eqn:E; [|done].
  specialize (Hm _ _ E). cbn in Hm. case_decide as Hn.
  - destruct v; [|done]. destruct Hm as [Hm|Hm]; congruence.
  - destruct Hm as [Hm|Hm]; [by destruct (Ho Hm)|]. rewrite Hm. destruct v; [congruence|done].
Qed.

(** ** Transactions *)

Inductive tx := Do (o : op) | Commit | Rollback.

Definition on_db {A} (m : M (OverlayDB L) A) : M St A := fun s =>
  let '(db, r) := m (t_db s) in (set_db db s, r).

(** [saved] is the root at the last commit *)
Fixpoint run_tx (saved : h256) (txs : list tx) : M St unit :=
  match txs with
  | [] => mret tt
  | Do o :: txs => fat_run_op o;; run_tx saved txs
  | Commit :: txs => on_db Overlay.commit;; s ← get_st; run_tx (m_root s) txs
  | Rollback :: txs => update_st (fun s => set_root saved (set_db (Overlay.rollback (t_db s)) s));; run_tx saved txs
  end.

(** The maps at the last commit and now *)
Definition apply_tx (p : gmap (list Z) (list Z) * gmap (list Z) (list Z)) (x : tx) : gmap (list Z) (list Z) * gmap (list Z) (list Z) :=
  match x with
  | Do o => (p.1, apply_op p.2 o)
  | Commit => (p.2, p.2)
  | Rollback => (p.1, p.1)
  end.

Definition hash_tx (x : tx) : tx := match x with Do o => Do (hash_op o) | x => x end.

Definition tx_ok (x : tx) : Prop := match x with Do o => fat_ok o | _ => True end.

Definition Tx (saved : h256) (p : gmap (list Z) (list Z) * gmap (list Z) (list Z)) (s : St) : Prop :=
  exists d tc t,
    agrees d (t_db s) /\
    wf 64 tc /\ holds 32 tc p.1 /\ saved = SHA3_256 (enc tc) /\ stored d (enc tc :: below tc) /\
    Rep (not_on_disk d) 64 t [] s /\ holds 32 t p.2.

Lemma fat_op_agrees d o t m s :
  agrees d (t_db s) -> Rep (not_on_disk d) 64 t [] s -> holds 32 t m -> fat_ok o ->
  wp (fat_run_op o) s (fun _ s' => (exists t', Rep (not_on_disk d) 64 t' [] s' /\ holds 32 t' (apply_op m (hash_op o))) /\ agrees d (t_db s')).
Proof.
  intros Ha HR Hh Ho.
  pose proof (run_op_rep _ 32 (hash_op o) t m [] s HR Hh (fat_op_ok o Ho) ltac:(lia)) as Hw.
  apply (wp_agrees _ _ _ _ Ha) in Hw.
  destruct o as [k v|k]; [|exact Hw]. cbn [fat_run_op]. unfold fat_insert. apply wp_keeps; [intros; apply keeps_insertAux|].
  eapply wp_wand; [exact Hw|]. intros [] s1 [(t' & [Hwf HI] & Hh') Ha']. right. exists tt. split; [done|]. split.
  - exists t'. split; [|done]. split; [done|]. by apply (Inv_aux _ _ _ _ (SHA3_256 k) k) in HI.
  - destruct Ho as [Hk _]. apply agrees_insertAux; [by apply SHA3_256_length|done].
Qed.

Lemma commit_tx d t m s :
  agrees d (t_db s) -> Rep (not_on_disk d) 64 t [] s -> holds 32 t m ->
  let r := on_db Overlay.commit s in
  r.2 = inr process_exit \/ r.2 = inl tt /\ Tx (m_root r.1) (m, m) r.1.
Proof.
  intros Ha HR Ht. pose proof HR as [Hwf HI]. pose proof Hwf as [Hw _]. rewrite app_nil_r in HI. cbn zeta. unfold on_db.
  destruct (commit_spec (t_db s) d Ha) as (d' & r & Er & Hr). destruct (Overlay.commit (t_db s)) as [db' r'] eqn:E. cbn in *. subst r'.
  destruct Hr as [->|(-> & -> & Hd')]; [by left|]. right. split; [done|].
  pose proof (committed_stored d d' _ _ _ s HI Ha (nodes_bytes _ _ Hw) Hd') as Hs.
  destruct (stored_inv d' (m_root s) (m_rootCache s) _ ∅ (set_db (mkOverlayDB new_MemoryDB (Some d')) s) Hs) as [HI' Ha'];
    [apply map_Forall_empty|done|exact (inv_fault _ _ _ _ _ HI)|done|done|].
  exists d', t, t. rewrite (inv_root _ _ _ _ _ HI) in *. split_and!; try done. split; [done|]. by rewrite app_nil_r.
Qed.

Lemma rollback_tx saved p s :
  Tx saved p s -> Tx saved (p.1, p.1) (set_root saved (set_db (Overlay.rollback (t_db s)) s)).
Proof.
  intros (d & tc & t & (Hd & Hx & He & _) & Hwc & Hc & -> & Hs & [_ HI] & _).
  assert (Ed : Overlay.rollback (t_db s) = mkOverlayDB (mkMemoryDB ∅ (m_aux (o_mem (t_db s))) false) (Some d)).
  { unfold Overlay.rollback, set_main. by rewrite Hd, He. }
  rewrite Ed. set (s' := set_root _ _). destruct (stored_inv d (SHA3_256 (enc tc)) (m_rootCache s) _ _ s' Hs Hx) as [HI' Ha'];
    [done|exact (inv_fault _ _ _ _ _ HI)|done|done|].
  exists d, tc, tc. split_and!; try done. split; [done|]. by rewrite app_nil_r.
Qed.

Lemma run_tx_fault saved txs s : m_fault s = true -> m_fault (run_tx saved txs s).1 = true.
Proof.
  revert saved s. induction txs as [|[o| |] txs IH]; intros saved s Hf; cbn [run_tx]; [done|..]; unfold mbind, M_bind.
  - pose proof (keeps_fat_run_op o s Hf) as H. destruct (fat_run_op o s) as [s1 [[]|]]; cbn in *; [by apply IH|done].
  - unfold on_db. destruct (Overlay.commit (t_db s)) as [db' [[]|]]; cbn; [by apply IH|done].
  - cbn. by apply IH.
Qed.

Lemma run_tx_spec saved p txs s :
  Tx saved p s -> Forall tx_ok txs ->
  let r := run_tx saved txs s in
  m_fault r.1 = true \/ r.2 = inr process_exit \/ r.2 = inl tt /\ exists saved', Tx saved' (foldl apply_tx p (hash_tx <$> txs)) r.1.
Proof.
  intros HT Ho. revert saved p s HT. induction Ho as [|x txs Hx _ IH]; intros saved p s HT; cbn [run_tx foldl fmap list_fmap].
  - right. right. split; [done|]. by exists saved.
  - destruct x as [o| |]; cbn zeta.
    + pose proof HT as (d & tc & t & Ha & Hwc & Hc & Hsv & Hs & HR & Ht).
      pose proof (fat_op_agrees d o t p.2 s Ha HR Ht Hx) as [Hf|([] & E & (t' & HR' & Ht') & Ha')].
      * left. unfold mbind, M_bind. destruct (fat_run_op o s) as [s1 [[]|]]; cbn in *; [|done].
        by apply run_tx_fault.
      * unfold mbind, M_bind. destruct (fat_run_op o s) as [s1 r]. cbn in *. subst r. apply IH.
        exists d, tc, t'. done.
    + pose proof HT as (d & _ & t & Ha & _ & _ & _ & _ & HR & Ht).
      pose proof (commit_tx d t p.2 s Ha HR Ht) as H. unfold mbind, M_bind. destruct (on_db Overlay.commit s) as [s1 r]. cbn in *.
      destruct H as [->|[-> H]]; [right; by left|]. by apply IH.
    + unfold mbind, M_bind. cbn. apply IH. by apply rollback_tx.
Qed.

(** From an empty trie, written to disk *)
Definition start_tx (txs : list tx) : M St unit :=
  init;; on_db Overlay.commit;; s ← get_st; run_tx (m_root s) txs.

Lemma start_tx_spec txs d rt ca :
  Forall tx_ok txs ->
  let r := start_tx txs (mkTrie (mkOverlayDB new_MemoryDB (Some d)) rt ca false) in
  m_fault r.1 = true \/ r.2 = inr process_exit \/ r.2 = inl tt /\ exists saved', Tx saved' (foldl apply_tx (∅, ∅) (hash_tx <$> txs)) r.1.
Proof.
  intros Ho. set (s := mkTrie _ _ _ _). cbn zeta. unfold start_tx.
  destruct (stored_inv d rt ca [] ∅ s) as [HI Ha]; [by intros e He%not_elem_of_nil|apply map_Forall_empty|done..|].
  pose proof (wp_agrees init d s _ Ha (init_rep _ 64 rt ca [] s HI)) as [Hf|([] & E & HR & Ha')].
  - left. unfold mbind at 1, M_bind at 1. destruct (init s) as [s1 [[]|]]; cbn in *; [|done].
    unfold mbind, M_bind, on_db. destruct (Overlay.commit (t_db s1)) as [db' [[]|]]; cbn; [by apply run_tx_fault|done].
  - unfold mbind, M_bind. destruct (init s) as [s1 r]. cbn in E, HR, Ha'. subst r.
    assert (Hh : holds 32 Empty ∅) by (intros k Hk; by rewrite lookup_empty).
    pose proof (commit_tx d Empty ∅ s1 Ha' HR Hh) as H. cbn zeta in H.
    destruct (on_db Overlay.commit s1) as [s2 r]. cbn [fst snd] in H.
    destruct H as [->|[-> H]]; [right; by left|]. by apply run_tx_spec.
Qed.

(** ** The map of the keys *)

Definition tx_keys (txs : list tx) : list (list Z) := omap (fun x => match x with Do o => Some (op_key o) | _ => None end) txs.

Lemma tx_hash txs k :
  apart (k :: tx_keys txs) -> (foldl apply_tx (∅, ∅) (hash_tx <$> txs)).2 !! SHA3_256 k = (foldl apply_tx (∅, ∅) txs).2 !! k.
Proof.
  intros Ha. assert (H : forall p p', p'.1 !! SHA3_256 k = p.1 !! k -> p'.2 !! SHA3_256 k = p.2 !! k ->
    (foldl apply_tx p' (hash_tx <$> txs)).2 !! SHA3_256 k = (foldl apply_tx p txs).2 !! k); [|by apply H].
  induction txs as [|x txs IH]; intros p p' H1 H2; [done|]. cbn [fmap list_fmap foldl]. apply IH.
  - eapply apart_sub; [exact Ha|]. destruct x; cbn; set_solver.
  - by destruct x.
  - destruct x as [o| |]; [|done|done]. cbn [hash_tx apply_tx fst snd].
    assert (E : SHA3_256 (op_key o) = SHA3_256 k <-> op_key o = k) by (split; [intros; apply Ha; [cbn; set_solver|cbn; set_solver|done]|by intros ->]).
    destruct o as [k' v|k']; cbn [hash_op apply_op op_key] in *.
    + rewrite !lookup_insert, H2. by apply decide_ext.
    + rewrite !lookup_delete, H2. by apply decide_ext.
Qed.
End Commit.
