(* ===== verification/TrieMulti.v ===== *)
(** * Insertion below the 16 children of the root

    prepareForMultiThread keeps the hashes of the children of a root that is a branch,
    insertAtBranch inserts below one of them, and finishMultiThread builds the new root.  Values
    of at least 32 bytes, as accounts are, make every new child a node of the database. *)

From stdpp Require Import gmap.
From S2P Require Import Prelude Words Exn Rlp RlpSpec RlpClaims TrieCommon MemoryDB TrieDB.
From S2P Require Import TrieKeys TrieSpec TrieTree TrieCanon TrieRead TrieWp TrieInsert TrieRemove TrieTop.

#[local] Set Warnings "-register-all".

#[local] Open Scope Z_scope.

Section Sizes.
Context {Api : Sha3Api}.

(** The node has a hash in its parent *)
Definition big (t : tree) : Prop := ~ (length (enc t) < 32)%nat.

Lemma encode_payload x : (length (payload_of x) <= length (encode x))%nat.
Proof. rewrite encode_split, length_app. lia. Qed.

Lemma encode_elem x l : x ∈ l -> (length (encode x) <= length (encode_all l))%nat.
Proof.
  induction 1 as [x l|x y l _ IH]; rewrite encode_all_cons, length_app; lia.
Qed.

Lemma big_item t l x : item_of t = Lst l -> x ∈ l -> (32 <= length (encode x))%nat -> big t.
Proof.
  intros E Hx Hl. unfold big, enc. rewrite E. pose proof (encode_payload (Lst l)). cbn [payload_of] in *.
  pose proof (encode_elem x l Hx). lia.
Qed.

Lemma big_str s : (32 <= length s)%nat -> (32 <= length (encode (Str s)))%nat.
Proof. intros Hs. pose proof (encode_payload (Str s)). cbn [payload_of] in *. lia. Qed.

Lemma big_ref n t : ww n t -> big t -> (32 <= length (encode (ref t)))%nat.
Proof. intros Hw Hb. rewrite ref_hash by done. apply big_str. rewrite SHA3_256_length; [done|by eapply enc_bytes]. Qed.

Lemma big_leaf k v : (32 <= length v)%nat -> big (Leaf k v).
Proof. intros Hv. eapply (big_item _ [Str (hp true k); Str v]); [done|right; left|by apply big_str]. Qed.

Lemma big_ext n k c : ww n c -> big c -> big (Ext k c).
Proof. intros Hw Hb. eapply (big_item _ [Str (hp false k); ref c]); [done|right; left|by eapply big_ref]. Qed.

Lemma big_branch n cs i c : cs !! i = Some c -> ww n c -> big c -> big (Branch cs).
Proof.
  intros Hi Hw Hb. eapply (big_item _ (map ref cs ++ [Str []]) (ref c)); [done| |by eapply big_ref].
  apply elem_of_app. left. apply list_elem_of_fmap_2. by eapply list_elem_of_lookup_2.
Qed.

Lemma big_wrap n p t : ww n t -> big t -> big (wrap p t).
Proof. intros Hw Hb. unfold wrap. case_decide; [done|]. by eapply big_ext. Qed.

Lemma big_fork k' k v rest n :
  ~ k' `prefix_of` k -> (length k' <= length k)%nat -> key_ok k' -> key_ok k -> value_ok v -> (32 <= length v)%nat ->
  ww n (fork k' k v rest) -> big (fork k' k v rest).
Proof.
  intros Hp Hl Hk' Hk Hv Hlv Hw. destruct (fork_shape k' k v rest Hp Hl) as (p & x & k1 & y & k2 & -> & -> & Hxy & _ & E).
  rewrite E in *. apply key_ok_app in Hk as [_ [Hy Hk2]%key_ok_cons].
  assert (Hlf : (<[Z.to_nat y:=Leaf k2 v]> (<[Z.to_nat x:=rest k1]> no_children)) !! Z.to_nat y = Some (Leaf k2 v)).
  { rewrite list_lookup_insert_eq; [done|]. rewrite length_insert. cbn. lia. }
  assert (Hb : big (Branch (<[Z.to_nat y:=Leaf k2 v]> (<[Z.to_nat x:=rest k1]> no_children)))).
  { eapply big_branch; [exact Hlf|by constructor|by apply big_leaf]. }
  unfold wrap in *. case_decide; [done|]. apply ww_ext_inv in Hw as (_ & _ & _ & _ & Hw). by eapply big_ext.
Qed.

Lemma big_ins n t k v :
  ww n t -> key_ok k -> length k = n -> value_ok v -> (32 <= length v)%nat -> big (ins t k v).
Proof.
  revert n k. induction t as [|k0 v0|k0 c IH|cs IH] using tree_ind; intros n k Hw Hk Hl Hv Hlv;
    destruct (ww_ins n _ k v Hw Hk Hl Hv) as [Hwi _].
  - by apply big_leaf.
  - inversion Hw as [|? ? Hk0 Hv0| |]; subst. cbn [ins] in *. case_decide; [by apply big_leaf|].
    eapply big_fork; [by intros ?%prefix_same_length|lia|done|done|done|done|done].
  - apply ww_ext_inv in Hw as (Hk0 & Hne & Hce & Hl0 & Hw). cbn [ins] in *. case_decide as E.
    + destruct E as [q ->]. rewrite drop_prefix in *. apply key_ok_app in Hk as [_ Hq]. rewrite length_app in Hl.
      eapply big_ext; [eapply ww_ins; [done|done|lia|done]|]. eapply IH; [done|done|lia|done|done].
    + eapply big_fork; [done|lia|done|done|done|done|done].
  - inversion Hw as [| | |m ? Hl16 Hcs]; subst. destruct k as [|i k]; [done|]. rewrite ins_branch.
    apply key_ok_cons in Hk as [Hi Hk]. destruct (lookup_lt_is_Some_2 cs (Z.to_nat i) ltac:(lia)) as [c Hc].
    pose proof (Forall_lookup_1 _ _ _ _ Hcs Hc) as Hwc. eapply list.Forall_forall in IH; [|by eapply list_elem_of_lookup_2].
    eapply (big_branch m _ (Z.to_nat i) (ins c k v)); [by rewrite list_lookup_alter_eq, Hc| |].
    + eapply ww_ins; [done|done|cbn in *; lia|done].
    + eapply IH; [done|done|cbn in *; lia|done|done].
Qed.
End Sizes.

Section Multi.
Context {DB : Type} {B : Backend DB} {BL : BackendLaws DB} {Api : Sha3Api}.

Abbreviation St := (GenericTrieDB DB).

(** The insertions of the threads, in the order in which they come *)
Fixpoint insert_all (f : list Z -> list Z -> M St unit) (kvs : list (list Z * list Z)) : M St unit :=
  match kvs with
  | [] => mret tt
  | (k, v) :: kvs => f k v;; insert_all f kvs
  end.

Definition multi_insert (kvs : list (list Z * list Z)) : M St bool :=
  ok ← prepareForMultiThread;
  if ok : bool then insert_all insertAtBranch kvs;; finishMultiThread;; mret true
  else mret false.

Section Spec.
Context (X : h256 -> Prop).

Lemma Inv_set_cache rt ca ca' L (s : St) : Inv X rt ca L s -> Inv X rt ca' L (set_rootCache ca' s).
Proof. intros [? ? ? ? ? ?]. by constructor. Qed.

Definition cache_of (cs : list tree) : list h256 := (fun c => SHA3_256 (enc c)) <$> cs.

(** During the insertions: the old root is still there, the children are the new ones *)
Definition Multi (m : nat) (t0 : tree) (cs : list tree) (L : list (list Z)) (s : St) : Prop :=
  length cs = 16%nat /\ Forall (wf m) cs /\ Forall big cs /\
  Inv X (SHA3_256 (enc t0)) (cache_of cs) (enc t0 :: (cs ≫= nodes) ++ L) s.

Lemma keeps_cache f : keeps_fault (DB := DB) (update_st (fun s => set_rootCache (f s) s)).
Proof. by intros s. Qed.

Lemma keeps_insertAtBranch k v : keeps_fault (DB := DB) (insertAtBranch k v).
Proof.
  unfold insertAtBranch. apply keeps_bind; [apply keeps_mono; apply _|]. intros s. destruct k as [|b k]; [apply keeps_mono; apply _|].
  destruct (m_rootCache s !! _); [|apply keeps_mono; apply _].
  repeat (apply keeps_bind; [apply keeps_mono; apply _|]; intros). apply keeps_cache.
Qed.

Lemma keeps_insert_all kvs : keeps_fault (DB := DB) (insert_all insertAtBranch kvs).
Proof.
  induction kvs as [|[k v] kvs IH]; cbn [insert_all]; [apply keeps_mono; apply _|].
  apply keeps_bind; [apply keeps_insertAtBranch|done].
Qed.

#[export] Instance mono_finish : Mono (DB := DB) finishMultiThread.
Proof. unfold finishMultiThread. mono_all. Qed.

Lemma insertAtBranch_spec m t0 cs L b k v s :
  Multi m t0 cs L s -> bytes (b :: k) -> S m = (2 * length (b :: k))%nat -> Z.of_nat (S m) < 2 ^ 62 ->
  value_ok v -> (32 <= length v)%nat ->
  wp (insertAtBranch (b :: k) v) s
    (fun _ s' => Multi m t0 (alter (fun c => ins c (b .& 15 :: nibbles k) v) (Z.to_nat (b .>> 4)) cs) L s').
Proof.
  intros (Hl & Hcs & Hb & HI) Hk Hm Hs Hv Hlv. unfold insertAtBranch. apply wp_get_bind. rewrite (inv_cache _ _ _ _ _ HI).
  destruct (byte_nibbles b ltac:(by inversion Hk)) as (Hhi & Hlo & _). set (j := Z.to_nat (b .>> 4)). assert (Hj : (j < 16)%nat) by lia.
  destruct (lookup_lt_is_Some_2 cs j ltac:(lia)) as [c Hc]. unfold cache_of. rewrite list_lookup_fmap, Hc. cbn [fmap option_fmap option_map].
  destruct (Forall_lookup_1 _ _ _ _ Hcs Hc) as [Hwc Hcc]. pose proof (Forall_lookup_1 _ _ _ _ Hb Hc) as Hbc.
  set (ks := b .& 15 :: nibbles k).
  assert (Hso : slice_ok (mkSlice (b :: k) 1)) by (split; [cbn; lia|done]).
  assert (Hsn : slice_nibs (mkSlice (b :: k) 1) = ks) by done.
  assert (Hlk : length ks = m) by (unfold ks; cbn [length] in *; rewrite length_nibbles; lia).
  assert (Hko : key_ok ks).
  { split; [rewrite <-Hsn; by apply slice_nibs_nibs|unfold len; rewrite Hlk; lia]. }
  assert (HI' : Inv X (SHA3_256 (enc t0)) (cache_of cs) (own c ++ below c ++ enc t0 :: others cs j ++ L) s).
  { rewrite <-below_branch, (below_child cs j c Hc) in HI. unfold nodes in HI.
    assert (E : own c ++ below c ++ enc t0 :: others cs j ++ L ≡ₚ enc t0 :: ((own c ++ below c) ++ others cs j) ++ L) by perm. by rewrite E. }
  apply wp_keeps; [intros; repeat (apply keeps_bind; [apply keeps_mono; apply _|]; intros); apply keeps_cache|].
  eapply wp_wand; [eapply wp_node; [exact HI'|]|].
  { unfold own. rewrite decide_False by done. left. }
  intros r s' [-> ->]. apply (wp_lift_bind _ _ _ _ _ (enc_RLP _ _ VeryStrict Hwc)).
  apply wp_keeps; [intros; repeat (apply keeps_bind; [apply keeps_mono; apply _|]; intros); apply keeps_cache|].
  eapply wp_wand; [apply (mergeAt_spec X (SHA3_256 (enc t0)) (cache_of cs) (trie_fuel (b :: k)) v m c (mkSlice (b :: k) 1) false (SHA3_256 (enc c)) (enc t0 :: others cs j ++ L)); try done|].
  { unfold cost, trie_fuel. rewrite Hsn, Hlk. cbn [length] in *. destruct (quiet _ _); lia. }
  rewrite Hsn. set (c' := ins c ks v). intros r s1 [-> HI1].
  assert (Hwc' : wf m c') by (split; [by apply ww_ins|by eapply canonical_ins]).
  assert (Hb' : big c') by (by eapply big_ins).
  assert (Ea : alter (fun c => ins c ks v) j cs = <[j := c']> cs).
  { apply list_eq. intros q. destruct (decide (q = j)) as [->|]; [|by rewrite list_lookup_alter_ne, list_lookup_insert_ne].
    rewrite list_lookup_alter_eq, Hc, list_lookup_insert_eq by lia. done. }
  rewrite Ea. apply wp_keeps; [intros; apply keeps_cache|]. eapply wp_wand; [apply wp_insert; [exact HI1|apply enc_ne]|].
  intros h s2 [-> HI2]. right. exists tt. split; [done|]. split_and!.
  - by rewrite length_insert.
  - by apply Forall_insert.
  - by apply Forall_insert.
  - cbn. rewrite (inv_cache _ _ _ _ _ HI2). unfold cache_of at 1. rewrite list_fmap_insert. apply Inv_set_cache with (cache_of cs).
    rewrite <-below_branch, below_insert by lia. unfold nodes, own. rewrite decide_False by done.
    assert (E : enc t0 :: (([enc c'] ++ below c') ++ others cs j) ++ L ≡ₚ enc c' :: below c' ++ enc t0 :: others cs j ++ L) by perm. by rewrite E.
Qed.

(** ** The new root *)

Lemma big_not_empty c : big c -> c <> Empty.
Proof. intros Hb ->. apply Hb, empty_inline. Qed.

Lemma append_hashes_spec m l xs :
  Forall (wf m) l -> Forall big l -> Forall small xs -> (length xs + length l < 17)%nat ->
  append_hashes (cache_of l) (building 17 xs) = inl (building 17 (xs ++ map ref l)).
Proof.
  intros Hw Hb. revert xs. induction l as [|c l IH]; intros xs Hx Hl; [cbn; by rewrite app_nil_r|].
  inversion Hw as [|? ? [Hwc _] Hw']; inversion Hb as [|? ? Hbc Hb']; subst. cbn [cache_of fmap list_fmap append_hashes].
  assert (Hr : ref c = Str (SHA3_256 (enc c))) by (by apply ref_hash).
  assert (Hsc : small (ref c)) by (by eapply small_ref).
  unfold append_str. rewrite (building_small 17 xs (ref c) (append (SHA3_256 (enc c)) false)).
  - cbn [mbind res_bind]. fold (cache_of l). rewrite IH; [by rewrite <-app_assoc|done|done| |rewrite length_app; cbn in *; lia].
    apply Forall_app. split; [done|]. by apply Forall_singleton.
  - rewrite Hr. apply append_writes. by apply hash_readable, (enc_bytes m).
  - done.
  - done.
  - cbn in Hl. lia.
Qed.

Lemma Multi_branch m t0 cs L s : Multi m t0 cs L s -> wf (S m) (Branch cs).
Proof.
  intros (Hl & Hcs & Hb & _). split.
  - constructor; [done|]. apply (list.Forall_impl _ _ _ Hcs). by intros ? [].
  - apply canonical_branch. split; [|apply (list.Forall_impl _ _ _ Hcs); by intros ? []].
    destruct (lookup_lt_is_Some_2 cs 0 ltac:(lia)) as [c Hc], (lookup_lt_is_Some_2 cs 1 ltac:(lia)) as [d Hd].
    apply two_in_use. exists 0%nat, 1%nat, c, d. split_and!; [lia|done|done|..]; apply big_not_empty; by eapply Forall_lookup_1.
Qed.

Lemma finish_spec m t0 cs L s :
  Multi m t0 cs L s -> wp finishMultiThread s (fun _ s' => Rep X (S m) (Branch cs) L s').
Proof.
  intros HM. pose proof (Multi_branch _ _ _ _ _ HM) as Hwf. destruct HM as (Hl & Hcs & Hb & HI).
  unfold finishMultiThread. apply wp_get_bind. rewrite (inv_cache _ _ _ _ _ HI), (inv_root _ _ _ _ _ HI).
  assert (Hlc : length (cache_of cs) = 16%nat) by (unfold cache_of; by rewrite length_fmap).
  rewrite decide_False by lia. apply (wp_lift_bind _ _ _ _ _ (stream_list_building 17 ltac:(lia))).
  rewrite take_ge by lia. apply (wp_lift_bind _ _ _ _ _ (append_hashes_spec m cs [] Hcs Hb ltac:(by apply Forall_nil_2) ltac:(cbn; lia))).
  assert (Hsr : Forall small (map ref cs)) by (eapply (small_refs m); apply (list.Forall_impl _ _ _ Hcs); by intros ? []).
  cbn [app]. apply (wp_lift_bind _ (building 17 (map ref cs ++ [Str []]))).
  { unfold append_str. apply building_small; [apply append_writes, readable_str; [by apply Forall_nil_2|by vm_compute]|done|apply small_null|].
    rewrite length_map. lia. }
  apply wp_bind; [mono_all|]. eapply wp_wand; [by apply wp_kill|]. intros [] s1 HI1.
  apply (wp_lift_bind _ _ _ _ _ (building_out 17 (map ref cs ++ [Str []]) ltac:(by rewrite length_app, length_map, Hl))).
  change (encode (Lst (map ref cs ++ [Str []]))) with (enc (Branch cs)).
  apply wp_bind; [mono_all|]. eapply wp_wand; [apply wp_insert; [exact HI1|apply enc_ne]|]. intros h s2 [-> HI2].
  right. exists tt. split; [done|]. split; [done|]. rewrite below_branch.
  apply (Inv_set_root _ _ _ _ (SHA3_256 (enc (Branch cs)))) in HI2.
  change (update_st (set_root (SHA3_256 (enc (Branch cs)))) s2).1 with (set_root (SHA3_256 (enc (Branch cs))) s2).
  by rewrite (inv_cache _ _ _ _ _ HI2).
Qed.

(** ** The cache *)

Lemma cache_children_spec n cs a d (s : St) :
  ww n (Branch cs) -> Forall big cs -> (a + d = 16)%nat -> m_rootCache s = cache_of (take a cs) ->
  cache_children (enc (Branch cs)) (seq a d) s = (set_rootCache (cache_of cs) s, inl true).
Proof.
  intros Hw Hb. destruct (branch_read n cs Hw) as (_ & Hat & _). inversion Hw as [| | |m ? Hl Hcs]; subst.
  revert a s. induction d as [|d IH]; intros a s Ha Hc; cbn [seq cache_children].
  - rewrite take_ge in Hc by lia. rewrite <-Hc. by destruct s.
  - destruct (lookup_lt_is_Some_2 cs a ltac:(lia)) as [c Hac]. unfold lift, mbind, M_bind. rewrite (Hat a c Hac).
    pose proof (Forall_lookup_1 _ _ _ _ Hb Hac) as Hbc. pose proof (Forall_lookup_1 _ _ _ _ Hcs Hac) as Hwc.
    rewrite (ref_hash c Hbc). pose proof (enc_bytes m c Hwc) as Hbs. destruct (hash_readable _ Hbs) as [Hr _].
    destruct (read_whole _ Hr) as (Ed & _). pose proof (read_item _ [] Hr) as R. cbn zeta in R. rewrite app_nil_r in R. destruct R as (El & _).
    pose proof (toBytes_item (SHA3_256 (enc c)) [] LaissezFaire Hr) as Et. rewrite app_nil_r in Et.
    rewrite Ed. cbn [is_str]. unfold size_. rewrite Ed. cbn [is_str]. rewrite El. cbn [payload_of]. unfold len. rewrite SHA3_256_length by done.
    rewrite decide_True by done. rewrite Et. cbn. rewrite IH; [by destruct s|lia|]. cbn.
    rewrite Hc. unfold cache_of. rewrite (take_S_r _ _ _ Hac), fmap_app. done.
Qed.

Lemma prepare_spec m cs L s :
  Rep X (S m) (Branch cs) L s -> Forall big cs -> wp prepareForMultiThread s (fun ok s' => ok = true /\ Multi m (Branch cs) cs L s').
Proof.
  intros [Hwf HI] Hb. pose proof Hwf as [Hw _]. destruct (branch_read _ _ Hw) as (Ec & _ & E16).
  apply wf_branch in Hwf as (m' & [= <-] & Hl & Hcs & _).
  assert (E : prepareForMultiThread s = (set_rootCache (cache_of cs) s, inl true)).
  { unfold prepareForMultiThread. unfold mbind at 1, M_bind at 1. cbn [update_st]. unfold mbind at 1, M_bind at 1. cbn [get_st].
    unfold mbind at 1, M_bind at 1, node. cbn [m_root set_rootCache]. unfold mbind at 1, M_bind at 1. cbn [get_st mret M_ret t_db set_rootCache].
    rewrite (inv_root _ _ _ _ _ HI). destruct (inv_stored _ _ _ _ _ HI (enc (Branch cs)) ltac:(left)) as [_ ->].
    unfold lift at 1, mbind at 1, M_bind at 1. rewrite (enc_RLP _ _ VeryStrict Hw). unfold lift at 1, mbind at 1, M_bind at 1. rewrite Ec.
    unfold lift at 1. rewrite decide_True by done. unfold mbind at 1, M_bind at 1. rewrite (cache_children_spec (S m) cs 0 16) by done.
    unfold lift, mbind, M_bind. rewrite E16. done. }
  right. exists true. rewrite E. split; [done|]. split; [done|]. split_and!; try done. cbn [fst].
  rewrite <-below_branch. by apply Inv_set_cache with (m_rootCache s).
Qed.

(** ** All of it *)

Definition kv_ok (w : nat) (kv : list Z * list Z) : Prop := key_of w kv.1 /\ value_ok kv.2 /\ (32 <= length kv.2)%nat.

Lemma insert_all_spec w m t0 cs L kvs s :
  Multi m t0 cs L s -> S m = (2 * w)%nat -> Z.of_nat (S m) < 2 ^ 62 -> Forall (kv_ok w) kvs ->
  wp (insert_all insertAtBranch kvs) s (fun _ s' => exists cs', Multi m t0 cs' L s' /\
    Branch cs' = foldl (fun t kv => ins t (nibbles kv.1) kv.2) (Branch cs) kvs).
Proof.
  intros HM Hm Hs Hk. revert cs s HM. induction Hk as [|[k v] kvs (Hk & Hv & Hlv) _ IH]; intros cs s HM; cbn [insert_all foldl].
  - apply wp_ret. by exists cs.
  - destruct Hk as [Hk Hkl]. cbn [fst snd] in *. destruct k as [|b k]; [cbn in *; lia|].
    apply wp_keeps; [intros; apply keeps_insert_all|]. eapply wp_wand; [apply insertAtBranch_spec; try done; lia|].
    intros [] s1 HM1. eapply wp_wand; [by apply IH|]. intros [] s2 (cs' & HM2 & E). exists cs'. split; [done|].
    rewrite E, nibbles_cons, ins_branch. done.
Qed.

Lemma multi_insert_rep w m cs L kvs s :
  Rep X (S m) (Branch cs) L s -> Forall big cs -> S m = (2 * w)%nat -> Z.of_nat (S m) < 2 ^ 62 -> Forall (kv_ok w) kvs ->
  wp (multi_insert kvs) s (fun ok s' => ok = true /\
    Rep X (S m) (foldl (fun t kv => ins t (nibbles kv.1) kv.2) (Branch cs) kvs) L s').
Proof.
  intros HR Hb Hm Hs Hk. unfold multi_insert. apply wp_keeps.
  { intros []; [|apply keeps_mono; apply _]. apply keeps_bind; [apply keeps_insert_all|]. intros. apply keeps_mono. mono_all. }
  eapply wp_wand; [by apply prepare_spec|]. intros ok s1 [-> HM]. apply wp_keeps; [intros; apply keeps_mono; mono_all|].
  eapply wp_wand; [by apply (insert_all_spec w)|]. intros [] s2 (cs' & HM2 & <-). apply wp_bind; [mono_all|].
  eapply wp_wand; [by eapply finish_spec|]. intros [] s3 HR3. by apply wp_ret.
Qed.

(** ** When the cache is filled *)

Lemma cache_children_big n cs a d (s : St) :
  ww n (Branch cs) -> (a + d = 16)%nat -> (cache_children (enc (Branch cs)) (seq a d) s).2 = inl true -> Forall big (drop a cs).
Proof.
  intros Hw. destruct (branch_read n cs Hw) as (_ & Hat & _). inversion Hw as [| | |m ? Hl Hcs]; subst.
  revert a s. induction d as [|d IH]; intros a s Ha Hc; cbn [seq cache_children] in Hc.
  - rewrite drop_ge by lia. by apply Forall_nil_2.
  - destruct (lookup_lt_is_Some_2 cs a ltac:(lia)) as [c Hac]. unfold lift, mbind, M_bind in Hc. rewrite (Hat a c Hac) in Hc.
    pose proof (Forall_lookup_1 _ _ _ _ Hcs Hac) as Hwc. rewrite (drop_S cs c a Hac).
    destruct (ref_read m c Hwc) as [_ [(Hlt & Er & _ & Ed)|(Hge & _ & _ & Ed & _)]].
    + exfalso. rewrite Ed in Hc. destruct (is_empty c) eqn:He.
      * destruct c; try done.
      * done.
    + apply Forall_cons_2; [done|]. rewrite Ed in Hc. destruct (size_ _); [|done]. case_decide; [|done].
      destruct (toBytes _ _); [|done]. eapply (IH (S a)); [lia|exact Hc].
Qed.

Lemma prepare_big n t L s :
  Rep X n t L s -> (prepareForMultiThread s).2 = inl true -> m_rootCache (prepareForMultiThread s).1 <> [] ->
  exists cs, t = Branch cs /\ Forall big cs.
Proof.
  intros [[Hw _] HI]. unfold prepareForMultiThread. unfold mbind at 1 4, M_bind at 1 4. cbn [update_st]. unfold mbind at 1 4, M_bind at 1 4. cbn [get_st].
  unfold mbind, M_bind, node, get_st, mret, M_ret, lift. cbn [m_root set_rootCache t_db].
  unfold mbind, M_bind, update_st. cbn [m_root set_rootCache t_db].
  rewrite (inv_root _ _ _ _ _ HI). destruct (inv_stored _ _ _ _ _ HI (enc t) ltac:(left)) as [_ ->].
  rewrite (enc_RLP _ _ VeryStrict Hw). destruct (decide (is_branch t = true)) as [Hb|Hb].
  - destruct t as [| | |cs]; try done. intros H _. exists cs. split; [done|].
    destruct (branch_read _ _ Hw) as (Ec & _ & _). rewrite Ec, decide_True in H by done.
    pose proof (cache_children_big n cs 0 16 (set_rootCache [] s) Hw eq_refl) as Hc.
    destruct (cache_children _ _ _) as [s' [[]|]]; [by apply Hc|done|done].
  - intros _ H. destruct H. assert (Hcount : exists c, itemCount (enc t) = inl c /\ c <> 17).
    { destruct t as [|k v|k c|cs]; [by exists 0| | |done];
        rewrite (count_node n _ Hw) by done; by exists 2. }
    destruct Hcount as (c & -> & Hc). by rewrite decide_False.
Qed.
End Spec.
End Multi.
