(* ===== verification/TrieClaims.v ===== *)
(** * What the trie promises

    The theorems on whole runs, for keys of one length: the trie is a finite map, its root and
    the counters of the database depend on the contents only, commits and rollbacks are
    transactions, and insertion below the children of the root agrees with insertion. *)

From stdpp Require Import gmap.
From S2P Require Import Prelude Words Exn Sha3 Rlp RlpSpec RlpClaims TrieCommon MemoryDB TrieDB.
From S2P Require Import TrieKeys TrieSpec TrieTree TrieCanon TrieRead TrieWp TrieInsert TrieRemove TrieTop TrieSecure TrieCommit TrieMulti.

#[local] Set Warnings "-register-all".

#[local] Open Scope Z_scope.

Section Map.
Context {DB : Type} {B : Backend DB} {BL : BackendLaws DB} {Api : Sha3Api}.

(** C5: the trie refines a finite map.  Insertions and removals on an empty trie over any
    database, with keys of one length, never fail and always return, and at then gives for
    every key the value that the map of the same operations has, or the empty string;
    unless a hash was met that already names other bytes, or a reference counter was full. *)
Theorem trie_refines_map w ops (s : GenericTrieDB DB) :
  db_valid (t_db s) -> m_fault s = false -> Forall (op_ok w) ops -> Z.of_nat (2 * w) < 2 ^ 62 ->
  let r := (init;; run ops) s in
  m_fault r.1 = true \/
  r.2 = inl tt /\ forall k, key_of w k -> at_key k r.1 = (r.1, inl (default [] (contents ops !! k))).
Proof.
  intros Hv Hf Ho Hw. cbn zeta. destruct (start_rep w ops s Hv Hf Ho Hw) as [?|([] & E & t & HR & Hh)]; [by left|].
  right. split; [done|]. intros k Hk. rewrite <-Hh by done. destruct Hk as [Hk <-]. by eapply at_rep.
Qed.

(** C14: the trie of the state refines a finite map with keys of any lengths.  A trie
    that hashes its keys and keeps them in the database answers, after insertions and removals
    of keys with different hashes, as the map of the keys does, and every key that was
    inserted is found in the database by its hash. *)
Theorem fat_trie_refines_map ops (s : GenericTrieDB DB) :
  db_valid (t_db s) -> m_fault s = false -> Forall fat_ok ops -> apart (op_key <$> ops) ->
  let r := (init;; fat_run ops) s in
  m_fault r.1 = true \/
  r.2 = inl tt /\
  (forall k, bytes k -> apart (k :: (op_key <$> ops)) -> fat_at k r.1 = (r.1, inl (default [] (contents ops !! k)))) /\
  (forall k, k ∈ put_keys ops -> k <> [] -> db_lookupAux (t_db r.1) (SHA3_256 k) = k).
Proof.
  intros Hv Hf Ho Ha. cbn zeta. destruct (fat_start_rep ops s Hv Hf Ho Ha) as [?|([] & E & (t & HR & Hh) & Hp)]; [by left|].
  right. split; [done|]. split; [|exact Hp]. intros k Hk Hak. rewrite <-contents_hash by done.
  pose proof (SHA3_256_length k Hk) as Hl. pose proof (SHA3_256_bytes k Hk) as Hb. rewrite <-Hh by done.
  unfold fat_at. eapply at_rep; [exact HR|done|by rewrite Hl].
Qed.
End Map.

Section History.
Context {DB1 DB2 : Type} {B1 : Backend DB1} {BL1 : BackendLaws DB1} {B2 : Backend DB2} {BL2 : BackendLaws DB2} {Api : Sha3Api}.

(** C16: the root is a function of the contents.  Two runs with the same contents at the end, of
    any lengths, in any order, with any removals and overwritten values between, and over any
    two databases, end with the same root. *)
Theorem trie_history_independent w ops1 ops2 (s1 : GenericTrieDB DB1) (s2 : GenericTrieDB DB2) :
  db_valid (t_db s1) -> db_valid (t_db s2) -> m_fault s1 = false -> m_fault s2 = false ->
  Forall (op_ok w) ops1 -> Forall (op_ok w) ops2 -> Z.of_nat (2 * w) < 2 ^ 62 -> contents ops1 = contents ops2 ->
  let r1 := (init;; run ops1) s1 in
  let r2 := (init;; run ops2) s2 in
  m_fault r1.1 = false -> m_fault r2.1 = false -> m_root r1.1 = m_root r2.1.
Proof.
  intros Hv1 Hv2 Hf1 Hf2 Ho1 Ho2 Hw Ec r1 r2 F1 F2.
  destruct (start_rep w ops1 s1 Hv1 Hf1 Ho1 Hw) as [?|(_ & _ & t1 & [Hw1 HI1] & Hh1)]; [unfold r1 in F1; congruence|].
  destruct (start_rep w ops2 s2 Hv2 Hf2 Ho2 Hw) as [?|(_ & _ & t2 & [Hw2 HI2] & Hh2)]; [unfold r2 in F2; congruence|].
  rewrite <-Ec in Hh2. unfold r1, r2. rewrite (inv_root _ _ _ _ _ HI1), (inv_root _ _ _ _ _ HI2).
  by rewrite (holds_unique w t1 t2 (contents ops1)).
Qed.
End History.

(** ** The counters of MemoryDB *)

Section Memory.
Context {Api : Sha3Api}.

Lemma mem_lookup_main db h v n : m_enforceRefs db = false -> m_main db !! h = Some (v, n) -> Mem.lookup db h = v.
Proof. intros He E. unfold Mem.lookup, Mem.visible. by rewrite E, He. Qed.

(** The entry of a hash: a node with the number of its occurrences *)
Lemma mem_entry X rt ca L (s : GenericTrieDB MemoryDB) h v n :
  Inv X rt ca L s -> X h -> m_main (t_db s) !! h = Some (v, n) -> n <> 0 ->
  n = occ h (SHA3_256 <$> L) /\ v ∈ L /\ h = SHA3_256 v.
Proof.
  intros HI Hx E Hn. pose proof (inv_refs _ _ _ _ _ HI h Hx) as Hr. cbn in Hr. unfold mem_refs in Hr. rewrite E in Hr. split; [done|].
  assert (Ho : 0 < occ h (SHA3_256 <$> L)) by (pose proof (occ_nonneg h (SHA3_256 <$> L)); lia).
  apply occ_elem, list_elem_of_fmap in Ho as (e & -> & He). destruct (inv_stored _ _ _ _ _ HI e He) as [_ Hl].
  destruct (inv_valid _ _ _ _ _ HI) as [He' _]. cbn in Hl. rewrite (mem_lookup_main _ _ _ _ He' E) in Hl. by subst v.
Qed.

Lemma purge_lookup db h : m_main (Mem.purge db) !! h =
  match m_main db !! h with Some (v, n) => if decide (n <> 0) then Some (v, n) else None | None => None end.
Proof.
  cbn. destruct (m_main db !! h) as [[v n]|] eqn:E.
  - case_decide as Hn; [by apply map_lookup_filter_Some|]. apply map_lookup_filter_None. right. intros x Hx.
    rewrite E in Hx. injection Hx as <-. cbn. lia.
  - apply map_lookup_filter_None. by left.
Qed.

(** A node that is counted is still there after purge *)
Lemma purge_rep n t s : Rep (fun _ => True) n t [] s -> Rep (fun _ => True) n t [] (set_db (Mem.purge (t_db s)) s).
Proof.
  intros [Hwf HI]. split; [done|]. pose proof HI as [[He Hm] Hf Hrt Hca Hs Hr].
  assert (Hrefs : forall h, mem_refs (Mem.purge (t_db s)) h = mem_refs (t_db s) h).
  { intros h. unfold mem_refs. rewrite purge_lookup. destruct (m_main (t_db s) !! h) as [[v m]|]; [|done]. case_decide as Hz; [done|].
    destruct (decide (m = 0)) as [->|]; [done|]. by destruct Hz. }
  constructor; try done.
  - change (mem_valid (Mem.purge (t_db s))). split; [done|]. intros h x. rewrite purge_lookup. destruct (m_main (t_db s) !! h) as [[v m]|] eqn:E; [|done].
    case_decide; [|done]. intros [= <-]. by apply (Hm _ _ E).
  - intros e He'. destruct (Hs e He') as [Hne Hl]. split; [done|].
    assert (Ho : 0 < occ (SHA3_256 e) (SHA3_256 <$> enc t :: below t ++ [])) by (by apply occ_elem, list_elem_of_fmap_2).
    specialize (Hr (SHA3_256 e) I). change (Mem.lookup (Mem.purge (t_db s)) (SHA3_256 e) = e).
    rewrite <-Hr in Ho. cbn [db_refs db_lookup memory_backend] in Ho, Hl. unfold Mem.lookup, mem_refs in *. rewrite purge_lookup.
    destruct (m_main (t_db s) !! SHA3_256 e) as [[v m]|]; [|lia]. rewrite decide_True by lia. done.
  - intros h _. cbn. rewrite Hrefs. by apply Hr.
Qed.

(** The purged database is a function of the nodes *)
Lemma purge_entry L (s s' : GenericTrieDB MemoryDB) rt ca rt' ca' h v n :
  Inv (fun _ => True) rt ca L s -> Inv (fun _ => True) rt' ca' L s' ->
  m_main (Mem.purge (t_db s)) !! h = Some (v, n) -> m_main (Mem.purge (t_db s')) !! h = Some (v, n).
Proof.
  intros HI HI'. rewrite !purge_lookup. destruct (m_main (t_db s) !! h) as [[v' n']|] eqn:E; [|done].
  case_decide as Hn; [|done]. intros [= -> ->]. destruct (mem_entry _ _ _ _ _ _ _ _ HI I E Hn) as (Hn' & Hin & ->).
  destruct (inv_stored _ _ _ _ _ HI' v Hin) as [Hne Hl]. pose proof (inv_refs _ _ _ _ _ HI' (SHA3_256 v) I) as Hr.
  destruct (inv_valid _ _ _ _ _ HI') as [He' _]. rewrite <-Hn' in Hr. cbn [db_refs db_lookup memory_backend] in Hl, Hr.
  unfold mem_refs in Hr. unfold Mem.lookup, Mem.visible in Hl. rewrite He' in Hl.
  destruct (m_main (t_db s') !! SHA3_256 v) as [[v2 n2]|]; [|congruence]. cbn in Hl. subst v2 n2. by rewrite decide_True.
Qed.

Lemma purge_same L (s s' : GenericTrieDB MemoryDB) rt ca rt' ca' :
  Inv (fun _ => True) rt ca L s -> Inv (fun _ => True) rt' ca' L s' -> m_main (Mem.purge (t_db s)) = m_main (Mem.purge (t_db s')).
Proof. intros HI HI'. apply map_eq. intros h. apply option_eq. intros [v n]. split; by eapply purge_entry. Qed.

(** C25: no node is left behind and none is lost.  After two runs with the same contents
    on empty databases in memory, purge leaves the same nodes with the same counters, whatever
    the runs did on the way, and the trie on the purged database still has all its contents. *)
Theorem trie_purge w ops1 ops2 :
  Forall (op_ok w) ops1 -> Forall (op_ok w) ops2 -> Z.of_nat (2 * w) < 2 ^ 62 -> contents ops1 = contents ops2 ->
  let s1 := ((init;; run ops1) (mkTrie new_MemoryDB [] [] false)).1 in
  let s2 := ((init;; run ops2) (mkTrie new_MemoryDB [] [] false)).1 in
  m_fault s1 = false -> m_fault s2 = false ->
  m_main (Mem.purge (t_db s1)) = m_main (Mem.purge (t_db s2)) /\
  (let s := set_db (Mem.purge (t_db s1)) s1 in
   forall k, key_of w k -> at_key k s = (s, inl (default [] (contents ops1 !! k)))).
Proof.
  intros Ho1 Ho2 Hw Ec s1 s2 F1 F2. set (s0 := mkTrie new_MemoryDB [] [] false) in *.
  assert (Hv : db_valid (t_db s0)) by (split; [done|apply map_Forall_empty]).
  assert (Hrep : forall ops, Forall (op_ok w) ops -> m_fault ((init;; run ops) s0).1 = false ->
    exists t, Rep (fun _ => True) (2 * w) t [] ((init;; run ops) s0).1 /\ holds w t (contents ops)).
  { intros ops Ho F. destruct (start_rep w ops s0 Hv eq_refl Ho Hw) as [?|(_ & _ & t & [Hwf HI] & Hh)]; [congruence|].
    exists t. split; [|done]. split; [done|]. destruct HI as [? ? ? ? ? Hr]. constructor; try done. intros h _. by apply Hr. }
  destruct (Hrep ops1 Ho1 F1) as (t1 & HR1 & Hh1), (Hrep ops2 Ho2 F2) as (t2 & HR2 & Hh2). fold s1 in HR1. fold s2 in HR2.
  rewrite <-Ec in Hh2. pose proof HR1 as [Hw1 HI1]. pose proof HR2 as [Hw2 HI2].
  assert (t2 = t1) as -> by (by apply (holds_unique w _ _ (contents ops1))). split.
  - by eapply purge_same.
  - intros s k Hk. rewrite <-Hh1 by done. destruct Hk as [Hk <-]. eapply at_rep; [by apply purge_rep|done|done].
Qed.
End Memory.

Section Transactions.
Context {L : LevelDB} {LL : LevelDBLaws L} {Api : Sha3Api}.

(** C10: commit and rollback of OverlayDB make transactions of a trie with hashed keys.
    From an empty trie that was written to disk, after any sequence of insertions, removals,
    commits, and rollbacks to the root of the last commit, at gives for every key the value of
    the map that rolls back in the same way; unless the disk refused ten writes, for which the
    program ends, or a hash names two nodes, or a counter was full. *)
Theorem overlay_transactions txs d rt ca :
  Forall tx_ok txs ->
  let r := start_tx txs (mkTrie (mkOverlayDB new_MemoryDB (Some d)) rt ca false) in
  m_fault r.1 = true \/ r.2 = inr process_exit \/
  r.2 = inl tt /\
  forall k, bytes k -> apart (k :: tx_keys txs) -> fat_at k r.1 = (r.1, inl (default [] ((foldl apply_tx (∅, ∅) txs).2 !! k))).
Proof.
  intros Ho. cbn zeta. destruct (start_tx_spec txs d rt ca Ho) as [?|[?|(E & saved & d' & tc & t & _ & _ & _ & _ & _ & HR & Hh)]].
  - by left.
  - right. by left.
  - right. right. split; [done|]. intros k Hk Ha. rewrite <-tx_hash by done.
    pose proof (SHA3_256_length k Hk) as Hl. pose proof (SHA3_256_bytes k Hk) as Hb. rewrite <-Hh by done.
    unfold fat_at. eapply at_rep; [exact HR|done|by rewrite Hl].
Qed.
End Transactions.

(** ** Insertion below the children of the root *)

Lemma puts_map (kvs : list (list Z * list Z)) (m : gmap (list Z) (list Z)) :
  NoDup kvs.*1 -> foldl apply_op m (uncurry Put <$> kvs) = list_to_map kvs ∪ m.
Proof.
  revert m. induction kvs as [|[k v] kvs IH]; intros m Hd; cbn.
  - by rewrite (left_id_L ∅ _).
  - inversion Hd as [|? ? Hk Hd']; subst. rewrite IH by done. rewrite <-insert_union_l. symmetry. rewrite <-insert_union_r; [done|].
    by apply not_elem_of_list_to_map_1.
Qed.

Lemma holds_puts w t m kvs :
  wf (2 * w) t -> holds w t m -> Z.of_nat (2 * w) < 2 ^ 62 -> Forall (kv_ok w) kvs ->
  let t' := foldl (fun t kv => ins t (nibbles kv.1) kv.2) t kvs in
  wf (2 * w) t' /\ holds w t' (foldl apply_op m (uncurry Put <$> kvs)).
Proof.
  intros Hwf Hh Hw Hk. revert t m Hwf Hh. induction Hk as [|[k v] kvs (Hk & Hv & _) _ IH]; intros t m Hwf Hh; [done|].
  cbn [foldl fmap list_fmap]. destruct (full_nibbles w k Hk) as [Hl Hn]. pose proof Hwf as [Hww Hc].
  assert (Hko : key_ok (nibbles k)) by (split; [done|unfold len; rewrite Hl; lia]). apply IH.
  - split; [by apply ww_ins|by eapply canonical_ins].
  - by apply (holds_op w t m (Put k v)).
Qed.

Section Threads.
Context {DB : Type} {B : Backend DB} {BL : BackendLaws DB} {Api : Sha3Api}.

(** C29: insertion below the cached children of the root agrees with insertion.  When
    prepareForMultiThread kept the children of the root, whole calls of insertAtBranch one after
    another, in any order, of distinct keys with values of at least 32 bytes, and then
    finishMultiThread, give the root that the same insertions with insert give, and the same
    counters for nodes that were not counted at first.  So the result does not depend on the order
    in which threads get to make their calls; calls that overlap in time, and with them the races
    of the database, are not covered. *)
Theorem multi_insert_agrees w ops kvs kvs' (s0 : GenericTrieDB DB) :
  db_valid (t_db s0) -> m_fault s0 = false -> Forall (op_ok w) ops -> Z.of_nat (2 * w) < 2 ^ 62 ->
  Forall (kv_ok w) kvs -> NoDup kvs.*1 -> kvs' ≡ₚ kvs ->
  let s := ((init;; run ops) s0).1 in
  m_fault s = false ->
  (prepareForMultiThread s).2 = inl true -> m_rootCache (prepareForMultiThread s).1 <> [] ->
  let r := multi_insert kvs' s in
  let r' := run (uncurry Put <$> kvs) s in
  m_fault r.1 = false -> m_fault r'.1 = false ->
  r.2 = inl true /\ r'.2 = inl tt /\ m_root r.1 = m_root r'.1 /\
  forall h, db_refs (t_db s0) h = 0 -> db_refs (t_db r.1) h = db_refs (t_db r'.1) h.
Proof.
  intros Hv Hf Ho Hw Hk Hd Hp s Fs Pr Pc r r' Fr Fr'.
  destruct (start_rep w ops s0 Hv Hf Ho Hw) as [?|(_ & _ & t & HR & Hh)]; [unfold s in Fs; congruence|]. fold s in HR.
  destruct (prepare_big _ _ _ _ _ HR Pr Pc) as (cs & -> & Hb). pose proof HR as [Hwf _]. pose proof (wf_branch _ _ Hwf) as (m & Em & _).
  assert (Hk' : Forall (kv_ok w) kvs') by (by rewrite Hp).
  assert (Hops : Forall (op_ok w) (uncurry Put <$> kvs)).
  { apply Forall_fmap. apply (list.Forall_impl _ _ _ Hk). intros [k v] (? & ? & _). done. }
  destruct (holds_puts w _ _ kvs' Hwf Hh Hw Hk') as [Hwf1 Hh1]. rewrite puts_map in Hh1 by (by rewrite Hp).
  pose proof (run_rep _ w _ _ _ [] s HR Hh Hops Hw) as [?|([] & E' & t2 & [Hwf2 HI2] & Hh2)]; [unfold r' in Fr'; congruence|].
  fold r' in E', HI2. rewrite puts_map in Hh2 by done.
  rewrite (list_to_map_proper kvs' kvs) in Hh1 by (done || by rewrite Hp).
  pose proof (holds_unique w _ _ _ Hwf1 Hwf2 Hh1 Hh2) as Et. rewrite Em in HR.
  pose proof (multi_insert_rep _ w m cs [] kvs' s HR Hb ltac:(lia) ltac:(lia) Hk') as [?|(ok & E & -> & [_ HI1])]; [unfold r in Fr; congruence|].
  fold r in E, HI1. rewrite Et in HI1. split_and!; [done|done| |].
  - by rewrite (inv_root _ _ _ _ _ HI1), (inv_root _ _ _ _ _ HI2).
  - intros h Hz. by rewrite (inv_refs _ _ _ _ _ HI1), (inv_refs _ _ _ _ _ HI2).
Qed.
End Threads.

(** ** Witnesses *)

(** A hash for the witnesses: a checksum, filled up with zeros *)
Definition demo_sum (m : list Z) : Z := foldl (fun h b => (h * 31 + b + 1) .& 0xffffffffffff) 7 m.
Definition demo_digest (n : nat) (m : list Z) : list Z :=
  map (fun i => if decide (i < 8)%nat then (demo_sum m .>> (8 * Z.of_nat i)) .& 255 else 0) (seq 0 n).

Lemma length_demo_digest n m : length (demo_digest n m) = n.
Proof. unfold demo_digest. by rewrite length_map, length_seq. Qed.

Lemma demo_digest_bytes n m : bytes (demo_digest n m).
Proof.
  apply List.Forall_map, Forall_true. intros i. case_decide; [|unfold is_word; lia]. change 255 with (Z.ones 8).
  rewrite Z.land_ones by done. apply Z.mod_pos_bound. done.
Qed.

#[local] Program Instance demo_sha : Sha3Api := { SHA3_256 := demo_digest 32; SHA3_512 := demo_digest 64 }.
Next Obligation. intros. apply length_demo_digest. Qed.
Next Obligation. intros. apply length_demo_digest. Qed.
Next Obligation. intros. apply demo_digest_bytes. Qed.
Next Obligation. intros. apply demo_digest_bytes. Qed.

(** A disk that refuses the first writes *)
#[local] Instance demo_disk : LevelDB := {
  ldb := gmap (list Z) (list Z) * nat;
  ldb_get d k := default [] (d.1 !! k);
  ldb_write d b := match d.2 with
                   | O => ((list_to_map (reverse b) ∪ d.1, O), true)
                   | S n => ((d.1, n), false)
                   end;
}.
#[local] Program Instance demo_disk_laws : LevelDBLaws demo_disk.
Next Obligation.
  intros [m [|n]] b d' [= <-] k. cbn. rewrite lookup_union. by destruct (list_to_map (reverse b) !! k), (m !! k).
Qed.
Next Obligation. intros [m [|n]] b d' [= <-] k. done. Qed.

Definition demo_mem : GenericTrieDB MemoryDB := mkTrie new_MemoryDB [] [] false.

Definition demo_value (x : Z) : list Z := replicate 33 x.
Definition demo_ops1 : list op :=
  [Put [18; 52] [1]; Put [18; 53] (demo_value 2); Put [99; 7] [3; 3]; Put [18; 52] [4]; Del [99; 7]; Del [0; 0]; Put [16; 1] []].
Definition demo_ops2 : list op := [Put [16; 1] []; Put [18; 53] (demo_value 2); Put [18; 52] [4]].

Lemma demo_mem_valid : db_valid (t_db demo_mem).
Proof. split; [done|apply map_Forall_empty]. Qed.

Ltac demo_byte := lazymatch goal with |- bytes _ => apply (bool_decide_unpack (Forall (fun x => 0 <= x < 256) _)); by vm_compute end.
Ltac demo_ok := repeat first [demo_byte | done | constructor | apply Forall_cons_2 | apply Forall_nil_2 | split | by vm_compute].

Lemma demo_ops1_ok : Forall (op_ok 2) demo_ops1.
Proof. demo_ok. Qed.
Lemma demo_ops2_ok : Forall (op_ok 2) demo_ops2.
Proof. demo_ok. Qed.

Lemma trie_refines_map_witness :
  let r := (init;; run demo_ops1) demo_mem in
  m_fault r.1 = false /\
  (m_fault r.1 = true \/
   r.2 = inl tt /\ forall k, key_of 2 k -> at_key k r.1 = (r.1, inl (default [] (contents demo_ops1 !! k)))).
Proof.
  split; [by vm_compute|]. apply (trie_refines_map 2 demo_ops1 demo_mem); [apply demo_mem_valid|done|apply demo_ops1_ok|lia].
Defined.

Lemma trie_history_independent_witness :
  m_root ((init;; run demo_ops1) demo_mem).1 = m_root ((init;; run demo_ops2) demo_mem).1.
Proof.
  apply (trie_history_independent 2 demo_ops1 demo_ops2 demo_mem demo_mem);
    [apply demo_mem_valid|apply demo_mem_valid|done|done|apply demo_ops1_ok|apply demo_ops2_ok|lia|by vm_compute|by vm_compute|by vm_compute].
Defined.

Lemma trie_purge_witness :
  let s1 := ((init;; run demo_ops1) demo_mem).1 in
  let s2 := ((init;; run demo_ops2) demo_mem).1 in
  m_main (Mem.purge (t_db s1)) = m_main (Mem.purge (t_db s2)) /\
  (let s := set_db (Mem.purge (t_db s1)) s1 in
   forall k, key_of 2 k -> at_key k s = (s, inl (default [] (contents demo_ops1 !! k)))).
Proof.
  apply (trie_purge 2 demo_ops1 demo_ops2); [apply demo_ops1_ok|apply demo_ops2_ok|lia|by vm_compute|by vm_compute|by vm_compute].
Defined.

Definition demo_fat : list op := [Put [1] (demo_value 2); Put [2; 3; 4] [5]; Put [] [7]; Del [1]; Put [9; 9] (demo_value 1)].

Lemma demo_apart (ks : list (list Z)) :
  forallb (fun k1 => forallb (fun k2 => bool_decide (demo_digest 32 k1 = demo_digest 32 k2 -> k1 = k2)) ks) ks = true -> apart ks.
Proof.
  intros H k1 k2 H1 H2. rewrite forallb_forall in H. apply list_elem_of_In in H1, H2. specialize (H k1 H1).
  rewrite forallb_forall in H. specialize (H k2 H2). by apply bool_decide_eq_true in H.
Qed.

Lemma fat_trie_refines_map_witness :
  let r := (init;; fat_run demo_fat) demo_mem in
  m_fault r.1 = false /\
  (m_fault r.1 = true \/
   r.2 = inl tt /\
   (forall k, bytes k -> apart (k :: (op_key <$> demo_fat)) -> fat_at k r.1 = (r.1, inl (default [] (contents demo_fat !! k)))) /\
   (forall k, k ∈ put_keys demo_fat -> k <> [] -> db_lookupAux (t_db r.1) (SHA3_256 k) = k)).
Proof.
  split; [by vm_compute|]. apply (fat_trie_refines_map demo_fat demo_mem); [apply demo_mem_valid|done|demo_ok|].
  apply demo_apart. by vm_compute.
Defined.

Definition demo_txs : list tx :=
  [Do (Put [1] [1]); Do (Put [2; 3] (demo_value 2)); Commit; Do (Del [2; 3]); Do (Put [7] (demo_value 8)); Rollback;
   Do (Put [9] [3]); Commit; Do (Del [1])].

Lemma demo_txs_ok : Forall tx_ok demo_txs.
Proof. demo_ok. Qed.

Lemma overlay_transactions_witness :
  let r := start_tx demo_txs (mkTrie (mkOverlayDB new_MemoryDB (Some (∅, 3%nat))) [] [] false) in
  m_fault r.1 = false /\ r.2 = inl tt /\
  (m_fault r.1 = true \/ r.2 = inr process_exit \/
   r.2 = inl tt /\
   forall k, bytes k -> apart (k :: tx_keys demo_txs) -> fat_at k r.1 = (r.1, inl (default [] ((foldl apply_tx (∅, ∅) demo_txs).2 !! k)))).
Proof.
  split; [by vm_compute|]. split; [by vm_compute|].
  exact (overlay_transactions demo_txs (∅, 3%nat) [] [] demo_txs_ok).
Defined.

(** Sixteen children of the root *)
Definition demo_spread : list op := map (fun i => Put [16 * Z.of_nat i] (demo_value (Z.of_nat i))) (seq 0 16).
Definition demo_spread_state : GenericTrieDB MemoryDB := Eval vm_compute in ((init;; run demo_spread) demo_mem).1.
Definition demo_kvs : list (list Z * list Z) := [([33], demo_value 9); ([0], demo_value 7); ([34], demo_value 8)].

Lemma demo_spread_run : ((init;; run demo_spread) demo_mem).1 = demo_spread_state.
Proof. vm_cast_no_check (eq_refl demo_spread_state). Qed.

Lemma multi_insert_agrees_witness :
  let s := ((init;; run demo_spread) demo_mem).1 in
  let r := multi_insert (reverse demo_kvs) s in
  let r' := run (uncurry Put <$> demo_kvs) s in
  r.2 = inl true /\ r'.2 = inl tt /\ m_root r.1 = m_root r'.1 /\
  forall h, db_refs (t_db demo_mem) h = 0 -> db_refs (t_db r.1) h = db_refs (t_db r'.1) h.
Proof.
  apply (multi_insert_agrees 1 demo_spread demo_kvs (reverse demo_kvs) demo_mem);
    [apply demo_mem_valid|done|demo_ok|lia|demo_ok|by apply (bool_decide_unpack (NoDup _)); vm_compute|apply reverse_Permutation|..];
    rewrite demo_spread_run; by vm_compute.
Defined.

(** ** Outside the conditions of the theorems *)

(** A root that is no branch: the cache stays empty, prepareForMultiThread returns true all the
    same, and insertAtBranch reads behind the end of the cache *)
Example prepare_without_branch :
  (init;; prepareForMultiThread) demo_mem = ((init demo_mem).1, inl true) /\
  ((init;; prepareForMultiThread;; insertAtBranch [1] (demo_value 1)) demo_mem).2 = inr undefined_behaviour.
Proof. split; by vm_compute. Qed.

(** A short value below a child of the root: the child is a hash in the new root although its
    node is short, so that the root is not that of the same map *)
Example insertAtBranch_short_value :
  (multi_insert [([0], [1])] demo_spread_state).2 = inl true /\
  m_root (multi_insert [([0], [1])] demo_spread_state).1 <> m_root (run [Put [0] [1]] demo_spread_state).1.
Proof. split; [by vm_compute|]. apply (bool_decide_unpack (_ <> _)). by vm_compute. Qed.

(** Keys of several lengths: to remove a key that a leaf's key is a part of, the value of the
    leaf is read as a node *)
Example remove_longer_key : ((init;; insert [18] [1; 2];; remove [18; 52]) demo_mem).2 = inr BadRLP.
Proof. by vm_compute. Qed.

(** To remove a key that ends at a branch without a value, the key is read behind its end *)
Example remove_shorter_key :
  ((init;; insert [18; 52] [1];; insert [18; 86] [2];; remove [18]) demo_mem).2 = inr undefined_behaviour.
Proof. by vm_compute. Qed.

(** When the last child of a branch goes, a value of more than 32 bytes at the branch is read as
    a hash *)
Example remove_below_value :
  ((init;; insert [18] (demo_value 1);; insert [18; 52] [3];; remove [18; 52]) demo_mem).2 = inr BadCast.
Proof. by vm_compute. Qed.
