(* ===== verification/Chainbase.v ===== *)
(** * libproducer/chainbase.hpp: object indices with an undo history

    A [generic_index] keeps objects with an [id] and a stack of undo states.  The
    boost::multi_index_container that holds the objects is modelled by its contents, a finite
    map from ids to objects; [emplace] and [modify] fail when a unique key clashes, and a
    failed [modify] removes the element, as that library documents.  Every object type of the
    node has one unique key besides the id ([ukey]).  The stack is a list whose head is
    [_stack.back()].  Ids and revisions count in steps of one and are not cut at 2^63.

    The specification is an index that saves whole snapshots ([snapshot_index]); the theorem
    is that the undo states, which only record differences, represent the snapshots through
    every operation. *)

From S2P Require Import Prelude Exn.
From stdpp Require Import gmap sorting.

#[local] Open Scope Z_scope.

(** What the index needs of an object type: [v.id], the unique key of the container, and the
    object that the constructor makes before its argument [c] runs on it *)
Class Indexed (V : Type) := {
  obj_id : V -> Z;
  ukey : V -> Z;
  ctor : Z -> V;
  ctor_id : forall i, obj_id (ctor i) = i
}.

Record undo_state (V : Type) := Undo {
  old_values : gmap Z V;
  removed_values : gmap Z V;
  new_ids : gset Z;
  old_next_id : Z;
  revision : Z
}.
Arguments Undo {V} _ _ _ _ _.
Arguments old_values {V} _.
Arguments removed_values {V} _.
Arguments new_ids {V} _.
Arguments old_next_id {V} _.
Arguments revision {V} _.

Record generic_index (V : Type) := Index {
  _stack : list (undo_state V);
  _revision : Z;
  _next_id : Z;
  _indices : gmap Z V
}.
Arguments Index {V} _ _ _ _.
Arguments _stack {V} _.
Arguments _revision {V} _.
Arguments _next_id {V} _.
Arguments _indices {V} _.

Definition empty_index {V} : generic_index V := Index [] 0 0 ∅.

(** A modifier that does not throw *)
Definition pure_mod {V} (f : V -> V) : V -> V * option exn := fun v => (f v, None).

(** The items of a std::map and the elements of a std::set in the order of their keys *)
Definition key_le {V} (p q : Z * V) : Prop := p.1 <= q.1.

#[export] Instance key_le_dec {V} (p q : Z * V) : Decision (key_le p q).
Proof. unfold key_le. apply _. Defined.

Definition items {V} (m : gmap Z V) : list (Z * V) := merge_sort key_le (map_to_list m).
Definition set_items (s : gset Z) : list Z := merge_sort Z.le (elements s).

(** uint64_t to int64_t *)
Definition i64 (x : Z) : Z := (x + 2 ^ 63) mod 2 ^ 64 - 2 ^ 63.

Section GenericIndex.
Context {V : Type} `{!Indexed V}.

(** ** The container *)

Definition clash (v w : V) : Prop := obj_id v = obj_id w \/ ukey v = ukey w.

#[global] Instance clash_dec v w : Decision (clash v w).
Proof. unfold clash. apply _. Defined.

Definition mi_emplace (v : V) (c : gmap Z V) : gmap Z V * bool :=
  if decide (map_Forall (fun _ w => ~ clash v w) c) then (<[obj_id v := v]> c, true) else (c, false).

Definition mi_modify (i : Z) (v' : V) (c : gmap Z V) : gmap Z V * bool :=
  let others := delete i c in
  if decide (map_Forall (fun _ w => ~ clash v' w) others)
  then (<[obj_id v' := v']> others, true) else (others, false).

(** ** generic_index *)

Definition set_stack s (g : generic_index V) := Index s (_revision g) (_next_id g) (_indices g).
Definition set_revision_ r (g : generic_index V) := Index (_stack g) r (_next_id g) (_indices g).
Definition set_next_id n (g : generic_index V) := Index (_stack g) (_revision g) n (_indices g).
Definition set_indices c (g : generic_index V) := Index (_stack g) (_revision g) (_next_id g) c.

Definition enabled (g : generic_index V) : bool := bool_decide (_stack g <> []).

Definition upd_head (f : undo_state V -> undo_state V) (g : generic_index V) : generic_index V :=
  match _stack g with
  | [] => g
  | head :: rest => set_stack (f head :: rest) g
  end.

(** std::map::emplace keeps an element that is there *)
Definition map_emplace (k : Z) (v : V) (m : gmap Z V) : gmap Z V :=
  match m !! k with Some _ => m | None => <[k := v]> m end.

Definition on_modify (v : V) : generic_index V -> generic_index V :=
  upd_head (fun head =>
    if decide (obj_id v ∈ new_ids head) then head
    else if decide (is_Some (old_values head !! obj_id v)) then head
    else Undo (map_emplace (obj_id v) v (old_values head)) (removed_values head) (new_ids head)
              (old_next_id head) (revision head)).

Definition on_remove (v : V) : generic_index V -> generic_index V :=
  upd_head (fun head =>
    if decide (obj_id v ∈ new_ids head)
    then Undo (old_values head) (removed_values head) (new_ids head ∖ {[obj_id v]})
              (old_next_id head) (revision head)
    else match old_values head !! obj_id v with
    | Some w => Undo (delete (obj_id v) (old_values head)) (map_emplace (obj_id v) w (removed_values head))
                     (new_ids head) (old_next_id head) (revision head)
    | None =>
        if decide (is_Some (removed_values head !! obj_id v)) then head
        else Undo (old_values head) (map_emplace (obj_id v) v (removed_values head)) (new_ids head)
                  (old_next_id head) (revision head)
    end).

Definition on_create (v : V) : generic_index V -> generic_index V :=
  upd_head (fun head =>
    Undo (old_values head) (removed_values head) (new_ids head ∪ {[obj_id v]})
         (old_next_id head) (revision head)).

(** A constructor argument or a modifier changes the object it is given and may then throw.
    When the constructor throws nothing is inserted; when a modifier throws the element stays
    with the fields assigned so far. *)
Definition emplace (c : V -> V * option exn) : M (generic_index V) V := fun g =>
  match c (ctor (_next_id g)) with
  | (_, Some e) => (g, inr e)
  | (v, None) =>
      match mi_emplace v (_indices g) with
      | (_, false) => (g, inr logic_error)
      | (ixs, true) => (on_create v (set_next_id (_next_id g + 1) (set_indices ixs g)), inl v)
      end
  end.

(** [modify( obj, m )]: [obj] is a reference into the container, named by its id *)
Definition modify (i : Z) (m : V -> V * option exn) : M (generic_index V) unit := fun g =>
  match _indices g !! i with
  | None => (g, inr undefined_behaviour)
  | Some obj =>
      let g := on_modify obj g in
      match m obj with
      | (v', Some e) => (set_indices (<[i := v']> (_indices g)) g, inr e)
      | (v', None) =>
          match mi_modify i v' (_indices g) with
          | (ixs, true) => (set_indices ixs g, inl tt)
          | (ixs, false) => (set_indices ixs g, inr logic_error)
          end
      end
  end.

Definition remove (i : Z) : M (generic_index V) unit := fun g =>
  match _indices g !! i with
  | None => (g, inr undefined_behaviour)
  | Some obj => (set_indices (delete i (_indices g)) (on_remove obj g), inl tt)
  end.

Definition find_id (i : Z) (g : generic_index V) : option V := _indices g !! i.

Definition start_undo_session (g : generic_index V) : generic_index V :=
  let r := _revision g + 1 in
  Index (Undo ∅ ∅ ∅ (_next_id g) r :: _stack g) r (_next_id g) (_indices g).

(** The three loops of [undo] *)
Definition undo_modify (item : Z * V) : M (generic_index V) unit := fun g =>
  match _indices g !! obj_id item.2 with
  | None => (g, inr undefined_behaviour)
  | Some _ =>
      match mi_modify (obj_id item.2) item.2 (_indices g) with
      | (ixs, true) => (set_indices ixs g, inl tt)
      | (ixs, false) => (set_indices ixs g, inr logic_error)
      end
  end.

Definition undo_erase (i : Z) : M (generic_index V) unit := fun g =>
  match _indices g !! i with
  | None => (g, inr undefined_behaviour)
  | Some _ => (set_indices (delete i (_indices g)) g, inl tt)
  end.

Definition undo_emplace (item : Z * V) : M (generic_index V) unit := fun g =>
  match mi_emplace item.2 (_indices g) with
  | (ixs, true) => (set_indices ixs g, inl tt)
  | (ixs, false) => (set_indices ixs g, inr logic_error)
  end.

Definition undo : M (generic_index V) unit :=
  g ← get_st;
  match _stack g with
  | [] => mret tt
  | head :: rest =>
      for_each undo_modify (items (old_values head));;
      for_each undo_erase (set_items (new_ids head));;
      update_st (set_next_id (old_next_id head));;
      for_each undo_emplace (items (removed_values head));;
      update_st (fun g => set_revision_ (_revision g - 1) (set_stack rest g))
  end.

(** The three loops of [squash] on [prev_state]; the assertions only print *)
Definition squash_old (p : undo_state V) (item : Z * V) : undo_state V :=
  if decide (item.1 ∈ new_ids p) then p
  else if decide (is_Some (old_values p !! item.1)) then p
  else Undo (map_emplace item.1 item.2 (old_values p)) (removed_values p) (new_ids p)
            (old_next_id p) (revision p).

Definition squash_removed (p : undo_state V) (item : Z * V) : undo_state V :=
  if decide (item.1 ∈ new_ids p)
  then Undo (old_values p) (removed_values p) (new_ids p ∖ {[item.1]}) (old_next_id p) (revision p)
  else match old_values p !! item.1 with
  | Some w => Undo (delete item.1 (old_values p)) (map_emplace item.1 w (removed_values p)) (new_ids p)
                   (old_next_id p) (revision p)
  | None => Undo (old_values p) (map_emplace item.1 item.2 (removed_values p)) (new_ids p)
                 (old_next_id p) (revision p)
  end.

Definition squash_states (prev_state state : undo_state V) : undo_state V :=
  let p := foldl squash_old prev_state (items (old_values state)) in
  let p := Undo (old_values p) (removed_values p) (new_ids p ∪ new_ids state) (old_next_id p) (revision p) in
  foldl squash_removed p (items (removed_values state)).

Definition squash (g : generic_index V) : generic_index V :=
  match _stack g with
  | [] => g
  | [_] => set_stack [] g
  | state :: prev_state :: rest =>
      set_revision_ (_revision g - 1) (set_stack (squash_states prev_state state :: rest) g)
  end.

(** [while( _stack.size() && _stack[0].revision <= revision ) _stack.pop_front();] with the
    front of the deque first *)
Fixpoint commit_front (r : Z) (s : list (undo_state V)) : list (undo_state V) :=
  match s with
  | [] => []
  | u :: s' => if decide (revision u <= r) then commit_front r s' else s
  end.

Definition commit (r : Z) (g : generic_index V) : generic_index V :=
  set_stack (rev (commit_front r (rev (_stack g)))) g.

Fixpoint undo_all_ (fuel : nat) : M (generic_index V) unit :=
  g ← get_st;
  if enabled g then
    match fuel with
    | O => throw out_of_fuel
    | S fuel => undo;; undo_all_ fuel
    end
  else mret tt.

(** the stack is one shorter after every [undo] *)
Definition undo_all : M (generic_index V) unit := fun g => undo_all_ (length (_stack g)) g.

(** [r] is a uint64_t, [_revision] an int64_t *)
Definition set_revision (r : Z) : M (generic_index V) unit := fun g =>
  match _stack g with
  | [] => (set_revision_ (i64 r) g, inl tt)
  | _ => (g, inr logic_error)
  end.

Definition remove_object (i : Z) : M (generic_index V) unit := fun g =>
  match find_id i g with
  | None => (g, inr out_of_range)
  | Some _ => remove i g
  end.
End GenericIndex.

(** ** Specification: an index that saves snapshots *)

Record snapshot_index (V : Type) := Snapshots {
  cur : gmap Z V;
  nid : Z;
  srev : Z;
  saved : list (gmap Z V * Z * Z)
}.
Arguments Snapshots {V} _ _ _ _.
Arguments cur {V} _.
Arguments nid {V} _.
Arguments srev {V} _.
Arguments saved {V} _.

(** The calls that change an index *)
Inductive index_op (V : Type) : Type :=
  | Emplace (c : V -> V * option exn)
  | Modify (i : Z) (m : V -> V * option exn)
  | Remove (i : Z)
  | RemoveObject (i : Z)
  | Start
  | UndoLast
  | UndoAll
  | Squash
  | Commit (r : Z)
  | SetRevision (r : Z).
Arguments Emplace {V} _.
Arguments Modify {V} _ _.
Arguments Remove {V} _.
Arguments RemoveObject {V} _.
Arguments Start {V}.
Arguments UndoLast {V}.
Arguments UndoAll {V}.
Arguments Squash {V}.
Arguments Commit {V} _.
Arguments SetRevision {V} _.

Section Refinement.
Context {V : Type} `{!Indexed V}.

Definition discard {A} (m : M (generic_index V) A) : M (generic_index V) unit := m;; mret tt.

Definition exec_op (o : index_op V) : M (generic_index V) unit :=
  match o with
  | Emplace c => discard (emplace c)
  | Modify i m => modify i m
  | Remove i => remove i
  | RemoveObject i => remove_object i
  | Start => update_st start_undo_session
  | UndoLast => undo
  | UndoAll => undo_all
  | Squash => update_st squash
  | Commit r => update_st (commit r)
  | SetRevision r => set_revision r
  end.

Fixpoint drop_committed (r : Z) (s : list (gmap Z V * Z * Z)) : list (gmap Z V * Z * Z) :=
  match s with
  | [] => []
  | x :: s' => if decide (x.2 <= r) then drop_committed r s' else s
  end.

Definition spec_op (o : index_op V) : M (snapshot_index V) unit := fun a =>
  let '(Snapshots c n r ss) := a in
  match o with
  | Emplace k =>
      match k (ctor n) with
      | (_, Some e) => (a, inr e)
      | (v, None) =>
          if decide (map_Forall (fun _ w => ukey v <> ukey w) c)
          then (Snapshots (<[n := v]> c) (n + 1) r ss, inl tt) else (a, inr logic_error)
      end
  | Modify i m =>
      match c !! i with
      | Some v => (Snapshots (<[i := (m v).1]> c) n r ss, from_option inr (inl tt) (m v).2)
      | None => (a, inr undefined_behaviour)
      end
  | Remove i =>
      match c !! i with
      | Some _ => (Snapshots (delete i c) n r ss, inl tt)
      | None => (a, inr undefined_behaviour)
      end
  | RemoveObject i =>
      match c !! i with
      | Some _ => (Snapshots (delete i c) n r ss, inl tt)
      | None => (a, inr out_of_range)
      end
  | Start => (Snapshots c n (r + 1) ((c, n, r + 1) :: ss), inl tt)
  | UndoLast =>
      match ss with
      | [] => (a, inl tt)
      | (c', n', _) :: ss' => (Snapshots c' n' (r - 1) ss', inl tt)
      end
  | UndoAll =>
      match last ss with
      | None => (a, inl tt)
      | Some (c', n', _) => (Snapshots c' n' (r - Z.of_nat (length ss)) [], inl tt)
      end
  | Squash =>
      match ss with
      | [] => (a, inl tt)
      | [_] => (Snapshots c n r [], inl tt)
      | _ :: x :: ss' => (Snapshots c n (r - 1) (x :: ss'), inl tt)
      end
  | Commit k => (Snapshots c n r (rev (drop_committed k (rev ss))), inl tt)
  | SetRevision k =>
      match ss with
      | [] => (Snapshots c n (i64 k) [], inl tt)
      | _ => (a, inr logic_error)
      end
  end.

(** What the callers of the index obey: constructors do not change the id, modifiers change
    neither the id nor the unique key *)
Definition stable_op (o : index_op V) : Prop :=
  match o with
  | Emplace c => forall v, obj_id (c v).1 = obj_id v
  | Modify _ m => forall v, obj_id (m v).1 = obj_id v /\ ukey (m v).1 = ukey v
  | _ => True
  end.

(** A trace of calls, with the outcome of each *)
Fixpoint run {S} (step : index_op V -> M S unit) (ops : list (index_op V)) (s : S)
    : S * list (unit + exn) :=
  match ops with
  | [] => (s, [])
  | o :: ops =>
      let '(s, r) := step o s in
      let '(s, rs) := run step ops s in (s, r :: rs)
  end.

(** ** Representation *)

Record state_wf (m : gmap Z V) (n : Z) : Prop := {
  wf_id : forall i v, m !! i = Some v -> obj_id v = i;
  wf_next : forall i v, m !! i = Some v -> i < n;
  wf_ukey : forall i j v w, m !! i = Some v -> m !! j = Some w -> ukey v = ukey w -> i = j
}.

(** The contents before the session of [u] at one id, given the contents after it *)
Definition before (u : undo_state V) (m : gmap Z V) (i : Z) : option V :=
  match old_values u !! i with
  | Some v => Some v
  | None =>
      match removed_values u !! i with
      | Some v => Some v
      | None => if decide (i ∈ new_ids u) then None else m !! i
      end
  end.

Record undo_wf (u : undo_state V) (m : gmap Z V) (n : Z) : Prop := {
  uw_new : forall i, i ∈ new_ids u ->
    is_Some (m !! i) /\ old_values u !! i = None /\ removed_values u !! i = None /\ old_next_id u <= i;
  uw_old : forall i v, old_values u !! i = Some v ->
    i < old_next_id u /\ removed_values u !! i = None /\ exists w, m !! i = Some w /\ ukey w = ukey v;
  uw_removed : forall i v, removed_values u !! i = Some v -> i < old_next_id u /\ m !! i = None;
  uw_next : old_next_id u <= n
}.

Inductive stack_repr : gmap Z V -> Z -> list (undo_state V) -> list (gmap Z V * Z * Z) -> Prop :=
  | repr_nil m n : stack_repr m n [] []
  | repr_cons m n u us m0 ss :
      undo_wf u m n ->
      (forall i, m0 !! i = before u m i) ->
      state_wf m0 (old_next_id u) ->
      stack_repr m0 (old_next_id u) us ss ->
      stack_repr m n (u :: us) ((m0, old_next_id u, revision u) :: ss).

Record repr (g : generic_index V) (a : snapshot_index V) : Prop := {
  re_cur : _indices g = cur a;
  re_next : _next_id g = nid a;
  re_rev : _revision g = srev a;
  re_wf : state_wf (cur a) (nid a);
  re_stack : stack_repr (cur a) (nid a) (_stack g) (saved a)
}.

(** ** The container on well-formed contents *)

Lemma state_wf_insert m n v :
  state_wf m n -> obj_id v = n -> map_Forall (fun _ w => ukey v <> ukey w) m ->
  state_wf (<[n := v]> m) (n + 1).
Proof.
  intros [H1 H2 H3] Hv Hu. split.
  - intros i w. rewrite lookup_insert_Some. intros [[<- <-]|[? Hw]]; eauto.
  - intros i w. rewrite lookup_insert_Some. intros [[<- <-]|[? Hw]]; [lia|]. apply H2 in Hw. lia.
  - intros i j w x. rewrite !lookup_insert_Some.
    intros [[<- <-]|[? Hw]] [[<- <-]|[? Hx]] E; [done| | |by eapply H3].
    + exfalso. eapply Hu; eauto.
    + exfalso. eapply Hu; eauto.
Qed.

Lemma state_wf_modify m n i v w :
  state_wf m n -> m !! i = Some v -> obj_id w = obj_id v -> ukey w = ukey v ->
  state_wf (<[i := w]> m) n.
Proof.
  intros [H1 H2 H3] Hv Hi Hu. split.
  - intros j x. rewrite lookup_insert_Some. intros [[<- <-]|[? Hx]]; [|eauto].
    rewrite Hi. by apply H1.
  - intros j x. rewrite lookup_insert_Some. intros [[<- <-]|[? Hx]]; eauto.
  - intros j k x y. rewrite !lookup_insert_Some.
    intros [[<- <-]|[? Hx]] [[<- <-]|[? Hy]] E; [done| | |by eapply H3].
    + eapply H3; [exact Hv|exact Hy|congruence].
    + eapply H3; [exact Hx|exact Hv|congruence].
Qed.

Lemma state_wf_delete m n i : state_wf m n -> state_wf (delete i m) n.
Proof.
  intros [H1 H2 H3]. split.
  - intros j x. rewrite lookup_delete_Some. intros [_ Hx]. eauto.
  - intros j x. rewrite lookup_delete_Some. intros [_ Hx]. eauto.
  - intros j k x y. rewrite !lookup_delete_Some. intros [_ Hx] [_ Hy]. eauto.
Qed.

(** Contents of which a well-formed state is an extension *)
Lemma state_wf_sub m m' n : state_wf m n -> m' ⊆ m -> state_wf m' n.
Proof.
  intros [H1 H2 H3] Hs. split.
  - intros i v Hv. by apply H1, (lookup_weaken _ _ _ _ Hv Hs).
  - intros i v Hv. by apply (H2 i v), (lookup_weaken _ _ _ _ Hv Hs).
  - intros i j v w Hv Hw. apply (H3 i j v w);
      [exact (lookup_weaken _ _ _ _ Hv Hs)|exact (lookup_weaken _ _ _ _ Hw Hs)].
Qed.

Lemma mi_modify_ok m n i v w :
  state_wf m n -> m !! i = Some v -> obj_id w = obj_id v -> ukey w = ukey v ->
  mi_modify i w m = (<[i := w]> m, true).
Proof.
  intros Hwf Hv Hi Hu. unfold mi_modify.
  assert (Hid : obj_id w = i) by (rewrite Hi; by apply (wf_id _ _ Hwf)).
  rewrite decide_True.
  - by rewrite Hid, insert_delete_eq.
  - intros j x Hx. apply lookup_delete_Some in Hx as [Hij Hx]. intros [E|E].
    + rewrite (wf_id _ _ Hwf j x Hx) in E. congruence.
    + apply Hij. eapply (wf_ukey _ _ Hwf); [exact Hv|exact Hx|congruence].
Qed.

Lemma mi_emplace_ok m n v :
  state_wf m n -> m !! obj_id v = None ->
  (forall j w, m !! j = Some w -> ukey v <> ukey w) ->
  mi_emplace v m = (<[obj_id v := v]> m, true).
Proof.
  intros Hwf Hn Hu. unfold mi_emplace. rewrite decide_True; [done|].
  intros j x Hx [E|E]; [|by eapply Hu].
  rewrite (wf_id _ _ Hwf j x Hx) in E. congruence.
Qed.

(** ** Undo *)

Lemma items_perm {W} (m : gmap Z W) : items m ≡ₚ map_to_list m.
Proof. apply merge_sort_Permutation. Qed.

Lemma items_NoDup {W} (m : gmap Z W) : NoDup (items m).*1.
Proof. rewrite items_perm. apply NoDup_fst_map_to_list. Qed.

Lemma elem_of_items {W} (m : gmap Z W) i v : (i, v) ∈ items m <-> m !! i = Some v.
Proof. rewrite items_perm. apply elem_of_map_to_list. Qed.

Lemma set_items_perm (s : gset Z) : set_items s ≡ₚ elements s.
Proof. apply merge_sort_Permutation. Qed.

Lemma list_to_map_union_insert {W} (l : list (Z * W)) i v (m : gmap Z W) :
  i ∉ l.*1 -> list_to_map l ∪ <[i := v]> m = list_to_map ((i, v) :: l) ∪ m.
Proof.
  intros Hi. rewrite list_to_map_cons, <- insert_union_l, insert_union_r; [done|].
  by apply not_elem_of_list_to_map.
Qed.

Lemma for_each_modify l m n g :
  NoDup l.*1 -> state_wf m n -> _indices g = m ->
  (forall i v, (i, v) ∈ l -> obj_id v = i /\ exists w, m !! i = Some w /\ ukey w = ukey v) ->
  for_each undo_modify l g = (set_indices (list_to_map l ∪ m) g, inl tt).
Proof.
  revert m g. induction l as [|[i v] l IH]; intros m g Hnd Hwf Hg Hl.
  - cbn. rewrite (left_id_L ∅ (∪)), <- Hg. by destruct g.
  - apply NoDup_cons in Hnd as [Hi Hnd].
    destruct (Hl i v) as (Hid & w & Hw & Hu); [apply list_elem_of_here|].
    assert (Hstep : undo_modify (i, v) g = (set_indices (<[i := v]> m) g, inl tt)).
    { unfold undo_modify. cbn [fst snd]. rewrite Hg, Hid, Hw.
      rewrite (mi_modify_ok m n i w v); [done|done|done| |done].
      rewrite Hid. symmetry. by apply (wf_id _ _ Hwf). }
    cbn [for_each]. erewrite bind_inl by exact Hstep.
    rewrite (IH (<[i := v]> m)); [|done| |done|].
    + f_equal. destruct g. unfold set_indices. cbn. f_equal.
      by apply list_to_map_union_insert.
    + apply (state_wf_modify _ _ _ w); [done|done| |done]. rewrite Hid. symmetry. by apply (wf_id _ _ Hwf).
    + intros j x Hx. assert (i <> j).
      { intros <-. apply Hi. apply list_elem_of_fmap. by exists (i, x). }
      rewrite lookup_insert_ne by done. apply Hl. by apply list_elem_of_further.
Qed.

Lemma for_each_erase l g :
  NoDup l -> (forall i, i ∈ l -> is_Some (_indices g !! i)) ->
  for_each undo_erase l g = (set_indices (filter (fun p : Z * V => p.1 ∉ l) (_indices g)) g, inl tt).
Proof.
  revert g. induction l as [|i l IH]; intros g Hnd Hl.
  - cbn. rewrite map_filter_id; [by destruct g|]. intros j x _. apply not_elem_of_nil.
  - apply NoDup_cons in Hnd as [Hi Hnd].
    destruct (Hl i) as [v Hv]; [apply list_elem_of_here|].
    cbn [for_each]. erewrite bind_inl; [|unfold undo_erase; by rewrite Hv].
    rewrite IH; [|done|].
    + f_equal. destruct g as [s r n c]. unfold set_indices. cbn in *. f_equal.
      apply map_eq. intros j. apply option_eq. intros x.
      rewrite !map_lookup_filter_Some, lookup_delete_Some. cbn.
      rewrite not_elem_of_cons. naive_solver.
    + intros j Hj. cbn. rewrite lookup_delete_ne by (intros <-; done).
      apply Hl. by apply list_elem_of_further.
Qed.

Lemma for_each_emplace l m0 n g :
  NoDup l.*1 -> state_wf m0 n -> _indices g ⊆ m0 ->
  (forall i v, (i, v) ∈ l -> m0 !! i = Some v /\ _indices g !! i = None) ->
  for_each undo_emplace l g = (set_indices (list_to_map l ∪ _indices g) g, inl tt).
Proof.
  revert g. induction l as [|[i v] l IH]; intros g Hnd Hwf Hsub Hl.
  - cbn. rewrite (left_id_L ∅ (∪)). by destruct g.
  - apply NoDup_cons in Hnd as [Hi Hnd].
    destruct (Hl i v) as [Hv Hn]; [apply list_elem_of_here|].
    assert (Hid : obj_id v = i) by by apply (wf_id _ _ Hwf).
    assert (Hstep : undo_emplace (i, v) g = (set_indices (<[i := v]> (_indices g)) g, inl tt)).
    { unfold undo_emplace. cbn [fst snd]. rewrite (mi_emplace_ok _ n v).
      - by rewrite Hid.
      - by eapply state_wf_sub.
      - by rewrite Hid.
      - intros j w Hw E. pose proof (lookup_weaken _ _ _ _ Hw Hsub) as Hw'.
        assert (i = j) as <- by by eapply (wf_ukey _ _ Hwf). congruence. }
    cbn [for_each]. erewrite bind_inl by exact Hstep.
    rewrite IH; [|done|done| |].
    + f_equal. destruct g. unfold set_indices. cbn. f_equal.
      by apply list_to_map_union_insert.
    + cbn. by apply insert_subseteq_l.
    + intros j x Hx. destruct (Hl j x) as [Hx1 Hx2]; [by apply list_elem_of_further|].
      split; [done|]. cbn. rewrite lookup_insert_ne; [done|]. intros <-. apply Hi.
      apply list_elem_of_fmap. by exists (i, x).
Qed.

Lemma list_to_map_items {W} (m : gmap Z W) : list_to_map (items m) = m.
Proof.
  rewrite <- (list_to_map_to_list m) at 2. apply list_to_map_proper; [apply items_NoDup|apply items_perm].
Qed.

(** [undo] restores the contents before the session *)
Lemma undo_ok g u us m0 n :
  _stack g = u :: us -> state_wf (_indices g) n -> undo_wf u (_indices g) n ->
  state_wf m0 (old_next_id u) -> (forall i, m0 !! i = before u (_indices g) i) ->
  undo g = (Index us (_revision g - 1) (old_next_id u) m0, inl tt).
Proof.
  intros Hst Hwf [Hnew Hold Hrem _] Hwf0 Hm0.
  unfold undo. erewrite bind_inl by reflexivity. rewrite Hst.
  erewrite bind_inl; [|apply (for_each_modify _ (_indices g) n);
    [apply items_NoDup|done|done|]].
  2:{ intros i v Hi%elem_of_items. split; [|by destruct (Hold i v Hi) as (_ & _ & ?)].
      apply (wf_id _ _ Hwf0). rewrite Hm0. unfold before. by rewrite Hi. }
  rewrite list_to_map_items.
  erewrite bind_inl; [|apply for_each_erase].
  2:{ rewrite set_items_perm. apply NoDup_elements. }
  2:{ intros i. rewrite set_items_perm, elem_of_elements. intros Hi. cbn.
      destruct (Hnew i Hi) as ([v Hv] & Ho & _). exists v. by rewrite lookup_union_r. }
  erewrite bind_inl by reflexivity.
  set (m2 := filter _ _).
  assert (Hm2 : forall i, m2 !! i = if decide (removed_values u !! i = None) then m0 !! i else None).
  { intros i. apply option_eq. intros v. unfold m2. rewrite map_lookup_filter_Some.
    cbn. rewrite set_items_perm, elem_of_elements, Hm0, lookup_union. unfold before.
    destruct (old_values u !! i) as [w|] eqn:E1.
    - destruct (Hold i w E1) as (_ & E2 & x & Hx & _). rewrite Hx, E2, decide_True by done. cbn.
      split; [by intros [? _]|]. intros E. split; [done|]. intros Hi. destruct (Hnew i Hi) as (_ & ? & _). congruence.
    - rewrite (left_id_L None (∪)). destruct (removed_values u !! i) as [w|] eqn:E2.
      + rewrite decide_False by done. destruct (Hrem i w E2) as [_ ->]. naive_solver.
      + rewrite decide_True by done. case_decide; naive_solver. }
  erewrite bind_inl; [|apply (for_each_emplace _ m0 (old_next_id u)); [apply items_NoDup|done| |]].
  - cbn. rewrite list_to_map_items. unfold update_st, set_revision_, set_stack, set_indices, set_next_id. cbn.
    do 2 f_equal. apply map_eq. intros i. rewrite lookup_union, Hm2.
    destruct (removed_values u !! i) as [w|] eqn:E.
    + rewrite decide_False by done. cbn. rewrite Hm0. unfold before. rewrite E.
      destruct (old_values u !! i) as [x|] eqn:E'; [|done].
      destruct (Hold i x E') as (_ & ? & _). congruence.
    + rewrite decide_True by done. by rewrite (left_id_L None (∪)).
  - cbn. apply map_subseteq_spec. intros i v. rewrite Hm2. case_decide; naive_solver.
  - intros i v Hi%elem_of_items. cbn. rewrite Hm2, Hm0. unfold before.
    rewrite Hi. rewrite decide_False by done. split; [|done].
    destruct (old_values u !! i) as [x|] eqn:E'; [|done].
    destruct (Hold i x E') as (_ & ? & _). congruence.
Qed.

(** ** Object creation, modification and removal *)

(** The undo state at the top may change as long as it restores the same contents *)
Lemma stack_repr_head m n m' n' u u' us ss :
  stack_repr m n (u :: us) ss -> undo_wf u' m' n' ->
  old_next_id u' = old_next_id u -> revision u' = revision u ->
  (forall i, before u' m' i = before u m i) -> stack_repr m' n' (u' :: us) ss.
Proof.
  intros Hs Hu' En Er Hb. inversion Hs as [|? ? ? ? m0 ss' Hu Hm0 Hwf Hrest]; subst.
  rewrite <- En, <- Er. constructor; [done| |by rewrite En|by rewrite En].
  intros i. by rewrite Hb.
Qed.

Lemma upd_head_nil f (g : generic_index V) : _stack g = [] -> upd_head f g = g.
Proof. unfold upd_head. by intros ->. Qed.

Lemma upd_head_fields f (g : generic_index V) :
  _indices (upd_head f g) = _indices g /\ _next_id (upd_head f g) = _next_id g /\
  _revision (upd_head f g) = _revision g /\
  _stack (upd_head f g) = match _stack g with [] => [] | u :: us => f u :: us end.
Proof. unfold upd_head. destruct g as [[|u us] r n c]; done. Qed.

Lemma fresh_in_undo u m n : undo_wf u m n -> state_wf m n ->
  n ∉ new_ids u /\ old_values u !! n = None /\ removed_values u !! n = None /\ m !! n = None.
Proof.
  intros [Hnew Hold Hrem Hle] Hwf.
  assert (Hm : m !! n = None).
  { destruct (m !! n) as [v|] eqn:E; [|done]. apply (wf_next _ _ Hwf) in E. lia. }
  repeat split; [| | |done].
  - intros Hn. destruct (Hnew n Hn) as ([v Hv] & _). congruence.
  - destruct (old_values u !! n) as [v|] eqn:E; [|done]. destruct (Hold n v E). lia.
  - destruct (removed_values u !! n) as [v|] eqn:E; [|done]. destruct (Hrem n v E). lia.
Qed.

Lemma create_repr m n v us ss :
  state_wf m n -> obj_id v = n -> stack_repr m n us ss ->
  stack_repr (<[n := v]> m) (n + 1)
    (_stack (on_create v (Index us 0 0 ∅))) ss.
Proof.
  intros Hwf Hv Hs. unfold on_create. destruct (upd_head_fields (fun head =>
    Undo (old_values head) (removed_values head) (new_ids head ∪ {[obj_id v]})
         (old_next_id head) (revision head)) (Index us 0 0 ∅)) as (_ & _ & _ & ->). cbn.
  destruct us as [|u us]; [by inversion Hs; constructor|].
  assert (Hu : undo_wf u m n) by by inversion Hs.
  destruct (fresh_in_undo u m n Hu Hwf) as (F1 & F2 & F3 & F4).
  destruct Hu as [Hnew Hold Hrem Hle].
  eapply stack_repr_head; [exact Hs| |done|done|].
  - split; cbn; rewrite ?Hv.
    + intros i. rewrite elem_of_union, elem_of_singleton.
      destruct (decide (i = n)) as [->|Hne].
      * rewrite lookup_insert_eq. intros _. eauto.
      * intros [Hi|?]; [|done]. rewrite lookup_insert_ne by done. by apply Hnew.
    + intros i w Hw. destruct (Hold i w Hw) as (? & ? & x & Hx & ?).
      split; [done|]. split; [done|]. exists x. rewrite lookup_insert_ne; [done|]. intros <-. congruence.
    + intros i w Hw. destruct (Hrem i w Hw) as (? & ?). split; [done|].
      rewrite lookup_insert_ne; [done|]. intros <-. congruence.
    + lia.
  - intros i. unfold before. cbn. rewrite Hv.
    destruct (decide (i = n)) as [->|Hne].
    + rewrite F2, F3, F4, decide_True by set_solver. by rewrite decide_False.
    + rewrite lookup_insert_ne by done. destruct (old_values u !! i); [done|].
      destruct (removed_values u !! i); [done|].
      destruct (decide (i ∈ new_ids u)); [rewrite decide_True by set_solver|rewrite decide_False by set_solver]; done.
Qed.

Lemma map_emplace_None (k : Z) (v : V) m : m !! k = None -> map_emplace k v m = <[k := v]> m.
Proof. unfold map_emplace. by intros ->. Qed.

Lemma modify_repr m n i v w us ss :
  state_wf m n -> m !! i = Some v -> ukey w = ukey v -> stack_repr m n us ss ->
  stack_repr (<[i := w]> m) n (_stack (on_modify v (Index us 0 0 ∅))) ss.
Proof.
  intros Hwf Hv Hk Hs. assert (Hid : obj_id v = i) by by apply (wf_id _ _ Hwf).
  unfold on_modify, upd_head. cbn. destruct us as [|u us]; [by inversion Hs; constructor|]. cbn. rewrite Hid.
  assert (Hu : undo_wf u m n) by by inversion Hs.
  destruct Hu as [Hnew Hold Hrem Hle].
  assert (Hrem' : removed_values u !! i = None).
  { destruct (removed_values u !! i) as [x|] eqn:E; [|done]. destruct (Hrem i x E). congruence. }
  assert (Hkeep : undo_wf u (<[i := w]> m) n).
  { split; [| | |done].
    - intros j Hj. destruct (Hnew j Hj) as (? & ? & ? & ?). repeat split; [|done..].
      destruct (decide (i = j)) as [->|]; [rewrite lookup_insert_eq; eauto|by rewrite lookup_insert_ne].
    - intros j x Hx. destruct (Hold j x Hx) as (? & ? & y & Hy & Ey). split; [done|]. split; [done|].
      destruct (decide (i = j)) as [->|]; [|exists y; by rewrite lookup_insert_ne].
      exists w. rewrite lookup_insert_eq. split; [done|]. congruence.
    - intros j x Hx. destruct (Hrem j x Hx). split; [done|].
      rewrite lookup_insert_ne; [done|]. intros <-. congruence. }
  assert (Hi : i < old_next_id u \/ i ∈ new_ids u).
  { destruct (decide (i ∈ new_ids u)) as [|Hn]; [by right|left].
    inversion Hs as [|? ? ? ? m0 ss' ? Hm0 Hwf0 ?]; subst.
    destruct (old_values u !! obj_id v) as [x|] eqn:E; [by destruct (Hold _ x E)|].
    apply (wf_next _ _ Hwf0 (obj_id v) v). rewrite Hm0. unfold before.
    by rewrite E, Hrem', decide_False. }
  destruct (decide (i ∈ new_ids u)) as [Hin|Hin].
  - eapply stack_repr_head; [exact Hs|done|done|done|]. intros j. unfold before.
    destruct (old_values u !! j); [done|]. destruct (removed_values u !! j); [done|].
    case_decide; [done|]. rewrite lookup_insert_ne; [done|]. by intros <-.
  - destruct (old_values u !! i) as [x|] eqn:E.
    + rewrite decide_True by eauto. eapply stack_repr_head; [exact Hs|done|done|done|].
      intros j. unfold before. destruct (decide (i = j)) as [<-|]; [by rewrite E|by rewrite lookup_insert_ne].
    + rewrite decide_False by (intros [? ?]; done). rewrite map_emplace_None by done.
      eapply stack_repr_head; [exact Hs| |done|done|].
      * split; cbn; [| | |done].
        -- intros j Hj. assert (i <> j) by (intros <-; done). rewrite !lookup_insert_ne by done. by apply Hnew.
        -- intros j x. rewrite lookup_insert_Some. intros [[<- <-]|[Hne Hx]].
           ++ split; [naive_solver|]. split; [done|]. exists w. by rewrite lookup_insert_eq.
           ++ rewrite lookup_insert_ne by done. by apply Hold.
        -- by apply Hkeep.
      * intros j. unfold before. cbn. destruct (decide (i = j)) as [<-|].
        -- by rewrite lookup_insert_eq, E, Hrem', decide_False.
        -- by rewrite !lookup_insert_ne.
Qed.

Lemma remove_repr m n i v us ss :
  state_wf m n -> m !! i = Some v -> stack_repr m n us ss ->
  stack_repr (delete i m) n (_stack (on_remove v (Index us 0 0 ∅))) ss.
Proof.
  intros Hwf Hv Hs. assert (Hid : obj_id v = i) by by apply (wf_id _ _ Hwf).
  unfold on_remove, upd_head. cbn. destruct us as [|u us]; [by inversion Hs; constructor|]. cbn. rewrite Hid.
  assert (Hu : undo_wf u m n) by by inversion Hs.
  destruct Hu as [Hnew Hold Hrem Hle].
  assert (Hrem' : removed_values u !! i = None).
  { destruct (removed_values u !! i) as [x|] eqn:E; [|done]. destruct (Hrem i x E). congruence. }
  assert (Hrem'' : forall j x, removed_values u !! j = Some x -> j < old_next_id u /\ delete i m !! j = None).
  { intros j x Hx. destruct (Hrem j x Hx). split; [done|]. apply lookup_delete_None. by right. }
  destruct (decide (i ∈ new_ids u)) as [Hin|Hin].
  - destruct (Hnew i Hin) as (_ & Ho & _ & ?). eapply stack_repr_head; [exact Hs| |done|done|].
    + split; cbn; [| |done|done].
      * intros j [Hj Hne]%elem_of_difference. rewrite not_elem_of_singleton in Hne.
        rewrite lookup_delete_ne by done. by apply Hnew.
      * intros j x Hx. rewrite lookup_delete_ne by (intros <-; congruence). by apply Hold.
    + intros j. unfold before. cbn. destruct (decide (i = j)) as [<-|Hne].
      * rewrite Ho, Hrem', (decide_True _ _ Hin), decide_False by set_solver. by rewrite lookup_delete_eq.
      * rewrite lookup_delete_ne by done. destruct (old_values u !! j); [done|].
        destruct (removed_values u !! j); [done|].
        destruct (decide (j ∈ new_ids u)); [rewrite decide_True by set_solver|rewrite decide_False by set_solver]; done.
  - assert (Hnew' : forall j, j ∈ new_ids u -> is_Some (delete i m !! j) /\
        delete i (old_values u) !! j = None /\ forall x, <[i := x]> (removed_values u) !! j = None).
    { intros j Hj. assert (i <> j) by (intros <-; done). destruct (Hnew j Hj) as (? & ? & ? & ?).
      rewrite !lookup_delete_ne by done. repeat split; [done..|]. intros x. by rewrite lookup_insert_ne. }
    destruct (old_values u !! i) as [x|] eqn:E.
    + rewrite map_emplace_None by done. destruct (Hold i x E) as (Hlt & _ & y & Hy & Ey).
      eapply stack_repr_head; [exact Hs| |done|done|].
      * split; cbn; [| | |done].
        -- intros j Hj. destruct (Hnew' j Hj) as (? & ? & ?). destruct (Hnew j Hj) as (_ & _ & _ & ?). done.
        -- intros j z [Hne Hz]%lookup_delete_Some. rewrite lookup_insert_ne, lookup_delete_ne by done.
           by apply Hold.
        -- intros j z [[<- <-]|[Hne Hz]]%lookup_insert_Some; [by rewrite lookup_delete_eq|by apply (Hrem'' j z)].
      * intros j. unfold before. cbn. destruct (decide (i = j)) as [<-|Hne].
        -- by rewrite lookup_delete_eq, lookup_insert_eq, E.
        -- by rewrite !lookup_delete_ne, lookup_insert_ne.
    + rewrite decide_False by (rewrite Hrem'; intros [? ?]; done). rewrite map_emplace_None by done.
      assert (Hlt : i < old_next_id u).
      { inversion Hs as [|? ? ? ? m0 ss' ? Hm0 Hwf0 ?]; subst. apply (wf_next _ _ Hwf0 (obj_id v) v).
        rewrite Hm0. unfold before. by rewrite E, Hrem', decide_False. }
      eapply stack_repr_head; [exact Hs| |done|done|].
      * split; cbn; [| | |done].
        -- intros j Hj. destruct (Hnew' j Hj) as (? & ? & ?). destruct (Hnew j Hj) as (_ & ? & _ & ?). done.
        -- intros j z Hz. assert (i <> j) by (intros <-; congruence).
           rewrite lookup_insert_ne, lookup_delete_ne by done. by apply Hold.
        -- intros j z [[<- <-]|[Hne Hz]]%lookup_insert_Some; [by rewrite lookup_delete_eq|by apply (Hrem'' j z)].
      * intros j. unfold before. cbn. destruct (decide (i = j)) as [<-|Hne].
        -- by rewrite lookup_insert_eq, E, Hrem', decide_False.
        -- by rewrite lookup_delete_ne, lookup_insert_ne.
Qed.

(** ** Squash *)

(** What an undo state records of one id *)
Definition view (u : undo_state V) (i : Z) : bool * option V * option V :=
  (bool_decide (i ∈ new_ids u), old_values u !! i, removed_values u !! i).

Definition view_old (v : V) (x : bool * option V * option V) : bool * option V * option V :=
  match x with
  | (false, None, r) => (false, Some v, r)
  | x => x
  end.

Definition view_removed (v : V) (x : bool * option V * option V) : bool * option V * option V :=
  match x with
  | (true, o, r) => (false, o, r)
  | (false, Some w, r) => (false, None, Some (default w r))
  | (false, None, r) => (false, None, Some (default v r))
  end.

(** A fold whose steps touch one id each *)
Lemma foldl_view (step : undo_state V -> Z * V -> undo_state V) F l u i :
  NoDup l.*1 ->
  (forall p u, view (step u p) p.1 = F p.2 (view u p.1)) ->
  (forall p u j, j <> p.1 -> view (step u p) j = view u j) ->
  view (foldl step u l) i =
    match (list_to_map l : gmap Z V) !! i with Some v => F v (view u i) | None => view u i end.
Proof.
  intros Hnd H1 H2. revert u. induction l as [|[k v] l IH]; intros u; [done|].
  apply NoDup_cons in Hnd as [Hk Hnd]. cbn [foldl]. rewrite (IH Hnd). rewrite list_to_map_cons.
  destruct (decide (i = k)) as [->|Hne].
  - rewrite not_elem_of_list_to_map_1 by done. rewrite lookup_insert_eq. apply (H1 (k, v)).
  - rewrite lookup_insert_ne by done. by rewrite (H2 (k, v)).
Qed.

Lemma squash_old_view p u : view (squash_old u p) p.1 = view_old p.2 (view u p.1).
Proof.
  unfold squash_old, view. destruct (decide (p.1 ∈ new_ids u)) as [Hn|Hn].
  - by rewrite bool_decide_true.
  - rewrite (bool_decide_false (p.1 ∈ new_ids u)) by done. destruct (old_values u !! p.1) eqn:E.
    + rewrite decide_True by eauto. by rewrite E, bool_decide_false.
    + rewrite decide_False by (by intros [? ?]). cbn. rewrite bool_decide_false by done.
      by rewrite map_emplace_None, lookup_insert_eq.
Qed.

Lemma squash_old_view_ne p u j : j <> p.1 -> view (squash_old u p) j = view u j.
Proof.
  intros Hj. unfold squash_old, view. destruct (decide _); [done|].
  destruct (decide _) as [|Hn]; [done|]. cbn.
  rewrite map_emplace_None by (by apply eq_None_not_Some). by rewrite lookup_insert_ne.
Qed.

Lemma map_emplace_lookup (k : Z) (v : V) m : map_emplace k v m !! k = Some (default v (m !! k)).
Proof. unfold map_emplace. destruct (m !! k) eqn:E; [by rewrite E|by rewrite lookup_insert_eq]. Qed.

Lemma map_emplace_lookup_ne (k j : Z) (v : V) m : j <> k -> map_emplace k v m !! j = m !! j.
Proof. intros. unfold map_emplace. destruct (m !! k); [done|by rewrite lookup_insert_ne]. Qed.

Lemma squash_removed_view p u : view (squash_removed u p) p.1 = view_removed p.2 (view u p.1).
Proof.
  unfold squash_removed, view. destruct (decide (p.1 ∈ new_ids u)) as [Hn|Hn].
  - rewrite (bool_decide_true (p.1 ∈ new_ids u)) by done. cbn. by rewrite bool_decide_false by set_solver.
  - rewrite (bool_decide_false (p.1 ∈ new_ids u)) by done. destruct (old_values u !! p.1) eqn:E; cbn.
    + by rewrite bool_decide_false, lookup_delete_eq, map_emplace_lookup.
    + by rewrite bool_decide_false, E, map_emplace_lookup.
Qed.

Lemma squash_removed_view_ne p u j : j <> p.1 -> view (squash_removed u p) j = view u j.
Proof.
  intros Hj. unfold squash_removed, view. destruct (decide _) as [Hn|Hn]; cbn.
  - do 2 f_equal. apply bool_decide_ext. set_solver.
  - destruct (old_values u !! p.1) eqn:E; cbn.
    + by rewrite lookup_delete_ne, map_emplace_lookup_ne.
    + by rewrite map_emplace_lookup_ne.
Qed.

(** The matrix of the comment in [squash], for one id *)
Lemma squash_view p u i :
  view (squash_states p u) i =
    let x := match old_values u !! i with Some v => view_old v (view p i) | None => view p i end in
    let x := (x.1.1 || bool_decide (i ∈ new_ids u), x.1.2, x.2) in
    match removed_values u !! i with Some v => view_removed v x | None => x end.
Proof.
  unfold squash_states.
  rewrite (foldl_view squash_removed view_removed);
    [|apply items_NoDup|apply squash_removed_view|apply squash_removed_view_ne].
  rewrite list_to_map_items.
  pose proof (foldl_view squash_old view_old (items (old_values u)) p i (items_NoDup _)
    squash_old_view squash_old_view_ne) as H.
  rewrite list_to_map_items in H. rewrite <- H.
  set (q := foldl _ _ _).
  replace (view _ i) with (bool_decide (i ∈ new_ids q) || bool_decide (i ∈ new_ids u),
    old_values q !! i, removed_values q !! i); [done|].
  unfold view. cbn. do 2 f_equal. rewrite <- bool_decide_or. apply bool_decide_ext. set_solver.
Qed.

Lemma squash_old_params l (p : undo_state V) :
  old_next_id (foldl squash_old p l) = old_next_id p /\ revision (foldl squash_old p l) = revision p.
Proof.
  revert p. induction l as [|x l IH]; intros p; [done|]. cbn. destruct (IH (squash_old p x)) as [-> ->].
  unfold squash_old. repeat case_decide; done.
Qed.

Lemma squash_removed_params l (p : undo_state V) :
  old_next_id (foldl squash_removed p l) = old_next_id p /\
  revision (foldl squash_removed p l) = revision p.
Proof.
  revert p. induction l as [|x l IH]; intros p; [done|]. cbn. destruct (IH (squash_removed p x)) as [-> ->].
  unfold squash_removed. case_decide; [done|]. by destruct (old_values p !! x.1).
Qed.

Lemma squash_params (p u : undo_state V) :
  old_next_id (squash_states p u) = old_next_id p /\ revision (squash_states p u) = revision p.
Proof.
  unfold squash_states.
  destruct (squash_removed_params (items (removed_values u))
    (Undo (old_values (foldl squash_old p (items (old_values u))))
          (removed_values (foldl squash_old p (items (old_values u))))
          (new_ids (foldl squash_old p (items (old_values u))) ∪ new_ids u)
          (old_next_id (foldl squash_old p (items (old_values u))))
          (revision (foldl squash_old p (items (old_values u)))))) as [-> ->].
  apply squash_old_params.
Qed.

(** The conditions on an undo state at one id, on its view *)
Definition view_ok (on : Z) (i : Z) (x : bool * option V * option V) (mi : option V) : Prop :=
  match x with
  | (true, None, None) => is_Some mi /\ on <= i
  | (false, Some v, None) => i < on /\ exists w, mi = Some w /\ ukey w = ukey v
  | (false, None, Some _) => i < on /\ mi = None
  | (false, None, None) => True
  | _ => False
  end.

Definition view_before (x : bool * option V * option V) (mi : option V) : option V :=
  match x with
  | (_, Some v, _) => Some v
  | (_, None, Some v) => Some v
  | (true, None, None) => None
  | (false, None, None) => mi
  end.

Lemma before_view u m i : before u m i = view_before (view u i) (m !! i).
Proof.
  unfold before, view, view_before. destruct (old_values u !! i), (removed_values u !! i); try done.
  - by case_bool_decide.
  - by case_bool_decide.
  - by case_bool_decide.
  - case_bool_decide; [by rewrite decide_True|by rewrite decide_False].
Qed.

Lemma undo_wf_view u m n :
  undo_wf u m n <-> old_next_id u <= n /\ forall i, view_ok (old_next_id u) i (view u i) (m !! i).
Proof.
  split.
  - intros [Hnew Hold Hrem Hle]. split; [done|]. intros i. unfold view.
    case_bool_decide as Hn.
    + destruct (Hnew i Hn) as (? & -> & -> & ?). done.
    + destruct (old_values u !! i) as [v|] eqn:E.
      * destruct (Hold i v E) as (? & -> & ?). done.
      * destruct (removed_values u !! i) as [v|] eqn:E'; [by destruct (Hrem i v E')|done].
  - intros [Hle H]. split; [| | |done].
    + intros i Hn. specialize (H i). unfold view in H. rewrite bool_decide_true in H by done.
      destruct (old_values u !! i), (removed_values u !! i); naive_solver.
    + intros i v Hv. specialize (H i). unfold view in H. rewrite Hv in H.
      case_bool_decide; [done|]. destruct (removed_values u !! i); naive_solver.
    + intros i v Hv. specialize (H i). unfold view in H. rewrite Hv in H.
      case_bool_decide; destruct (old_values u !! i); naive_solver.
Qed.

Lemma squash_repr m n u p us ss x :
  stack_repr m n (u :: p :: us) (x :: ss) -> stack_repr m n (squash_states p u :: us) ss.
Proof.
  intros Hs. inversion Hs as [|? ? ? ? m1 ? Hu Hm1 Hwf1 Hs1]; subst.
  inversion Hs1 as [|? ? ? ? m0 ss' Hp Hm0 Hwf0 Hs0]; subst.
  apply undo_wf_view in Hu as [Hle1 Hu]. apply undo_wf_view in Hp as [Hle2 Hp].
  assert (Hpoint : forall i, view_ok (old_next_id p) i (view (squash_states p u) i) (m !! i) /\
      view_before (view (squash_states p u) i) (m !! i) = m0 !! i).
  { intros i. specialize (Hu i). specialize (Hp i).
    pose proof (wf_next _ _ Hwf0 i) as Hn. rewrite Hm0, before_view in *.
    rewrite Hm1, before_view in *. rewrite squash_view. clear Hs Hs1 Hs0 Hm1 Hm0. unfold view in *.
    destruct (bool_decide (i ∈ new_ids u)), (old_values u !! i), (removed_values u !! i);
      cbn in Hu; try done;
      destruct (bool_decide (i ∈ new_ids p)), (old_values p !! i), (removed_values p !! i);
      cbn in *; try done; destruct (m !! i); destruct_and?; destruct_or?; try lia; try (specialize (Hn _ eq_refl));
      first [naive_solver lia | repeat split; eauto]. }
  destruct (squash_params p u) as [E1 E2].
  rewrite <- E1, <- E2. constructor.
  - apply undo_wf_view. rewrite E1. split; [lia|]. intros i. apply Hpoint.
  - intros i. rewrite before_view. symmetry. apply Hpoint.
  - by rewrite E1.
  - by rewrite E1.
Qed.

(** ** Commit and the refinement *)

Lemma stack_repr_revisions m n us ss : stack_repr m n us ss -> map revision us = map snd ss.
Proof. induction 1; [done|]. cbn. by f_equal. Qed.

Lemma stack_repr_take m n us ss k :
  stack_repr m n us ss -> stack_repr m n (take k us) (take k ss).
Proof.
  intros H. revert k. induction H as [|m n u us m0 ss Hu Hm0 Hwf Hs IH]; intros [|k]; cbn; constructor; auto.
Qed.

(** Popping the committed states from the front keeps an initial part of the stack *)
Lemma commit_front_drop r (s : list (undo_state V)) :
  commit_front r s = drop (length s - length (commit_front r s)) s.
Proof.
  induction s as [|u s IH]; [done|]. cbn [commit_front]. destruct (decide (revision u <= r)).
  - rewrite IH at 1. cbn [length].
    assert (length (commit_front r s) <= length s)%nat by (rewrite IH, length_drop; lia).
    replace (S (length s) - length (commit_front r s))%nat
      with (S (length s - length (commit_front r s)))%nat by lia. done.
  - by rewrite Nat.sub_diag.
Qed.

Lemma drop_committed_drop r s :
  drop_committed r s = drop (length s - length (drop_committed r s)) s.
Proof.
  induction s as [|u s IH]; [done|]. cbn [drop_committed]. destruct (decide (u.2 <= r)).
  - rewrite IH at 1. cbn [length].
    assert (length (drop_committed r s) <= length s)%nat by (rewrite IH, length_drop; lia).
    replace (S (length s) - length (drop_committed r s))%nat
      with (S (length s - length (drop_committed r s)))%nat by lia. done.
  - by rewrite Nat.sub_diag.
Qed.

Lemma commit_lengths r (us : list (undo_state V)) ss :
  map revision us = map snd ss -> length (commit_front r us) = length (drop_committed r ss).
Proof.
  revert ss. induction us as [|u us IH]; intros [|x ss] H; cbn in *; try done.
  injection H as H1 H2. rewrite H1. case_decide; [by apply IH|]. cbn. f_equal.
  apply (f_equal length) in H2. by rewrite !length_map in H2.
Qed.

Lemma rev_drop_rev {A} k (l : list A) : rev (drop k (rev l)) = take (length l - k) l.
Proof. by rewrite skipn_rev, rev_involutive. Qed.

Lemma commit_repr m n us ss r :
  stack_repr m n us ss ->
  stack_repr m n (rev (commit_front r (rev us))) (rev (drop_committed r (rev ss))).
Proof.
  intros Hs. rewrite commit_front_drop, drop_committed_drop, !rev_drop_rev.
  assert (El : length us = length ss).
  { apply stack_repr_revisions, (f_equal length) in Hs. by rewrite !length_map in Hs. }
  rewrite (commit_lengths r (rev us) (rev ss)).
  - rewrite !length_rev, El. by apply stack_repr_take.
  - rewrite !map_rev. f_equal. by eapply stack_repr_revisions.
Qed.

Definition spec_undo (a : snapshot_index V) : snapshot_index V := (spec_op UndoLast a).1.

Lemma undo_repr g a : repr g a -> exists g', undo g = (g', inl tt) /\ repr g' (spec_undo a) /\
  length (_stack g') = pred (length (_stack g)).
Proof.
  destruct a as [c n r ss]. intros [Hc Hn Hr Hwf Hs]. cbn in *. subst.
  destruct (_stack g) as [|u us] eqn:Est.
  - inversion Hs; subst. exists g. unfold undo. erewrite bind_inl by reflexivity. rewrite Est.
    split; [done|]. split; [|done]. split; cbn; [done..|]. by rewrite Est.
  - inversion Hs as [|? ? ? ? m0 ss' Hu Hm0 Hwf0 Hs0]; subst.
    eexists. split; [by apply (undo_ok g u us m0 (_next_id g))|]. split; [|done]. split; done.
Qed.

Lemma spec_undo_all_step a : saved a <> [] -> spec_op UndoAll (spec_undo a) = spec_op UndoAll a.
Proof.
  destruct a as [c n r [|[[c1 n1] r1] [|x ss]]]; [done| |]; intros _; cbn -[last Z.of_nat].
  - cbn. do 2 f_equal.
  - change (last ((c1, n1, r1) :: x :: ss)) with (last (x :: ss)).
    destruct (last (x :: ss)) as [[[c2 n2] r2]|] eqn:E.
    + refine (f_equal (fun z => (Snapshots c2 n2 z [], inl tt)) _). cbn [length]. lia.
    + by apply last_None in E.
Qed.

Lemma undo_all_repr k g a : repr g a -> length (_stack g) = k ->
  exists g', undo_all_ k g = (g', inl tt) /\ repr g' (spec_op UndoAll a).1.
Proof.
  revert g a. induction k as [|k IH]; intros g a Hr Hk; cbn [undo_all_]; erewrite bind_inl by reflexivity.
  - assert (Est : _stack g = []) by by apply length_zero_iff_nil.
    unfold enabled. rewrite bool_decide_false by (rewrite Est; auto). exists g. split; [done|].
    destruct a as [c n r ss]. pose proof (re_stack _ _ Hr) as Hs. rewrite Est in Hs. cbn in Hs.
    by inversion Hs; subst.
  - assert (Est : _stack g <> []) by (intros E; by rewrite E in Hk).
    unfold enabled. rewrite bool_decide_true by done.
    destruct (undo_repr g a Hr) as (g1 & Hg1 & Hr1 & Hl). erewrite bind_inl by exact Hg1.
    destruct (IH g1 (spec_undo a) Hr1) as (g2 & Hg2 & Hr2); [by rewrite Hl, Hk|].
    exists g2. split; [done|]. rewrite spec_undo_all_step in Hr2; [done|].
    intros E. pose proof (re_stack _ _ Hr) as Hs. rewrite E in Hs. inversion Hs. congruence.
Qed.

Lemma emplace_repr c g a : stable_op (Emplace c) -> repr g a ->
  (exec_op (Emplace c) g).2 = (spec_op (Emplace c) a).2 /\
  repr (exec_op (Emplace c) g).1 (spec_op (Emplace c) a).1.
Proof.
  destruct a as [m n r ss]. intros Hc [Hm Hn Hr Hwf Hs]. cbn in *. subst.
  unfold discard, mbind, M_bind, emplace.
  destruct (c (ctor (_next_id g))) as [v [e|]] eqn:Ec; [cbn; split; [done|by split]|].
  assert (Hv : obj_id v = _next_id g).
  { specialize (Hc (ctor (_next_id g))). rewrite Ec in Hc. cbn in Hc. rewrite Hc. apply ctor_id. }
  assert (Hfresh : _indices g !! _next_id g = None).
  { destruct (_indices g !! _next_id g) as [w|] eqn:E; [|done]. apply (wf_next _ _ Hwf) in E. lia. }
  case_decide as Hu.
  - rewrite (mi_emplace_ok _ (_next_id g)) by (try rewrite Hv; try done; intros j w Hw; by apply (Hu j w)).
    cbn. split; [done|]. rewrite Hv.
    pose proof (create_repr (_indices g) (_next_id g) v (_stack g) ss Hwf Hv Hs) as Hcr.
    unfold on_create, upd_head in *. destruct g as [[|u us] r n m]; cbn in *.
    + split; cbn; [done..| |done]. by apply state_wf_insert.
    + split; cbn; [done..| |done]. by apply state_wf_insert.
  - unfold mi_emplace. rewrite decide_False.
    + cbn. split; [done|]. split; done.
    + intros H. apply Hu. intros j w Hw E. apply (H j w Hw). by right.
Qed.

Lemma exec_repr o g a : stable_op o -> repr g a ->
  (exec_op o g).2 = (spec_op o a).2 /\ repr (exec_op o g).1 (spec_op o a).1.
Proof.
  destruct o as [c|i m|i|i| | | | |k|k]; intros Ho Hr.
  - by apply emplace_repr.
  - destruct a as [c n r ss], Hr as [Hc Hn Hr Hwf Hs]. cbn in *. subst.
    unfold modify. destruct (_indices g !! i) as [v|] eqn:E; [|cbn; split; [done|by split]].
    specialize (Ho v). destruct (m v) as [w oe]. cbn in *. destruct Ho as [Ho1 Ho2].
    pose proof (modify_repr _ _ i v w _ _ Hwf E Ho2 Hs) as Hm.
    replace (_indices (on_modify v g)) with (_indices g)
      by (symmetry; apply upd_head_fields).
    rewrite (mi_modify_ok _ (_next_id g) i v) by done.
    pose proof (state_wf_modify _ _ _ _ w Hwf E Ho1 Ho2).
    unfold on_modify, upd_head in *. by destruct oe, g as [[|u us] r n c].
  - destruct a as [c n r ss], Hr as [Hc Hn Hr Hwf Hs]. cbn in *. subst.
    unfold remove. destruct (_indices g !! i) as [v|] eqn:E; [|cbn; split; [done|by split]].
    pose proof (remove_repr _ _ i v _ _ Hwf E Hs) as Hm. pose proof (state_wf_delete _ _ i Hwf).
    cbn. split; [done|]. unfold on_remove, upd_head in *. by destruct g as [[|u us] r n c].
  - destruct a as [c n r ss], Hr as [Hc Hn Hr Hwf Hs]. cbn in *. subst.
    unfold remove_object, find_id, remove. destruct (_indices g !! i) as [v|] eqn:E; [|cbn; split; [done|by split]].
    pose proof (remove_repr _ _ i v _ _ Hwf E Hs) as Hm. pose proof (state_wf_delete _ _ i Hwf).
    cbn. split; [done|]. unfold on_remove, upd_head in *. by destruct g as [[|u us] r n c].
  - destruct a as [c n r ss], Hr as [Hc Hn Hr Hwf Hs]. cbn in *. subst. split; [done|]. split; cbn; [done..|].
    apply (repr_cons _ _ (Undo ∅ ∅ ∅ (_next_id g) (_revision g + 1))); [|done|done|done].
    split; cbn; [set_solver| | |lia]; intros i v; by rewrite lookup_empty.
  - destruct (undo_repr g a Hr) as (g' & Hg & Hr' & _). cbn [exec_op]. rewrite Hg. split; [|done].
    destruct a as [c n r [|[[c' n'] r'] ss]]; done.
  - destruct (undo_all_repr _ g a Hr eq_refl) as (g' & Hg & Hr'). cbn [exec_op]. unfold undo_all. rewrite Hg.
    split; [|done]. destruct a as [c n r ss]. cbn. by destruct (last ss) as [[[? ?] ?]|].
  - destruct a as [c n r ss], Hr as [Hc Hn Hr Hwf Hs]. cbn in *. subst. unfold squash.
    destruct (_stack g) as [|u [|p us]] eqn:Est.
    + inversion Hs; subst. split; [done|]. split; cbn; [done..|]. by rewrite Est.
    + inversion Hs as [|? ? ? ? m0 ss' Hu Hm0 Hwf0 Hs0]; subst. inversion Hs0; subst. split; [done|].
      split; cbn; [done..|constructor].
    + inversion Hs as [|? ? ? ? m0 ss' Hu Hm0 Hwf0 Hs0]; subst.
      apply squash_repr in Hs. inversion Hs0; subst. split; [done|]. by split.
  - destruct a as [c n r ss], Hr as [Hc Hn Hr Hwf Hs]. cbn in *. subst. split; [done|].
    split; cbn; [done..|]. by apply commit_repr.
  - destruct a as [c n r ss], Hr as [Hc Hn Hr Hwf Hs]. cbn in *. subst. unfold set_revision.
    destruct (_stack g) as [|u us] eqn:Est; inversion Hs; subst; (split; [done|]); split; cbn; rewrite ?Est; done.
Qed.

Lemma run_repr ops g a : Forall stable_op ops -> repr g a ->
  (run exec_op ops g).2 = (run spec_op ops a).2 /\ repr (run exec_op ops g).1 (run spec_op ops a).1.
Proof.
  revert g a. induction ops as [|o ops IH]; intros g a Ho Hr; [done|].
  apply Forall_cons in Ho as [Ho Hos]. cbn [run].
  destruct (exec_repr o g a Ho Hr) as [E Hr'].
  destruct (exec_op o g) as [g' r], (spec_op o a) as [a' r']. cbn in *. subst r'.
  destruct (IH g' a' Hos Hr') as [E' Hr''].
  destruct (run exec_op ops g') as [g'' rs], (run spec_op ops a') as [a'' rs']. cbn in *. by subst.
Qed.

Lemma repr_empty : repr empty_index (Snapshots ∅ 0 0 []).
Proof. split; [done..| |constructor]. split; intros *; cbn; by rewrite lookup_empty. Qed.
End Refinement.

(** ** Results *)

(** C20: an index behaves like one that saves whole snapshots: for every sequence of
    calls from the empty index (creation, modification and removal of objects, sessions, undo, squash,
    commit, revision changes) whose closures leave ids and unique keys alone, every call has
    the outcome of the specification, errors included, and contents, next id and revision
    are those of the specification. *)
Theorem index_refines_snapshots {V} `{!Indexed V} (ops : list (index_op V)) :
  Forall stable_op ops ->
  let '(g, rs) := run exec_op ops empty_index in
  let '(a, rs') := run spec_op ops (Snapshots ∅ 0 0 []) in
  rs = rs' /\ _indices g = cur a /\ _next_id g = nid a /\ _revision g = srev a /\
  map revision (_stack g) = map snd (saved a).
Proof.
  intros Ho. destruct (run_repr ops empty_index (Snapshots ∅ 0 0 []) Ho repr_empty) as [Hrs Hr].
  destruct (run exec_op ops empty_index) as [g rs], (run spec_op ops (Snapshots ∅ 0 0 [])) as [a rs'].
  cbn in *. destruct Hr as [? ? ? ? Hs]. apply stack_repr_revisions in Hs. done.
Qed.

(** A pair of an id and a key *)
#[local] Instance pair_indexed : Indexed (Z * Z) := {|
  obj_id := fst; ukey := snd; ctor i := (i, 0); ctor_id i := eq_refl
|}.

Definition set_key (k : Z) : Z * Z -> Z * Z := fun v => (v.1, k).

Definition sample_ops : list (index_op (Z * Z)) :=
  [Emplace (pure_mod (set_key 7)); Start; Modify 0 (pure_mod (fun v => v)); Emplace (pure_mod (set_key 8));
   Emplace (pure_mod (set_key 7)); Start; Remove 0; Emplace (pure_mod (set_key 7)); Squash; UndoLast; UndoAll].

Lemma index_refines_snapshots_witness :
  Forall stable_op sample_ops /\
  let '(g, rs) := run exec_op sample_ops empty_index in
  let '(a, rs') := run spec_op sample_ops (Snapshots ∅ 0 0 []) in
  rs = rs' /\ _indices g = cur a /\ _next_id g = nid a /\ _revision g = srev a /\
  map revision (_stack g) = map snd (saved a).
Proof.
  assert (Ho : Forall stable_op sample_ops) by (repeat constructor).
  split; [exact Ho|]. exact (index_refines_snapshots sample_ops Ho).
Defined.

(** Keys that modifiers change are outside the specification: here an object gives its key up
    and a new one takes it; the undo then fails and the first object is lost. *)
Example undo_changed_key :
  let ops := [Emplace (pure_mod (set_key 7)); Start; Modify 0 (pure_mod (set_key 8));
              Emplace (pure_mod (set_key 7)); UndoLast] in
  let '(g, rs) := run exec_op ops empty_index in
  rs = [inl tt; inl tt; inl tt; inl tt; inr logic_error] /\ _indices g !! 0 = None.
Proof. by vm_compute. Qed.
