(* ===== verification/Producer.v ===== *)
(** * libproducer: objects, database, virtual race and producer schedule

    producer_object.hpp, producer_objects.hpp/.cpp, global_property_object.hpp, config.hpp,
    version.hpp/.cpp, rand.hpp, and the database of chainbase.hpp/.cpp that holds the six
    indices.  Account names (160-bit hashes) are integers, [AccountName()] is 0.

    An ordered index whose key contains the id is a function of the contents, and is the
    sorted list of the objects.  The index by_pow is ordered by [pow_worker] alone; objects
    that an iterator of the schedule leaves are either in the queue, where the keys are
    distinct, or were just set to 0, which puts them behind the other zeros: incrementing
    such an iterator leads to the least greater key. *)

From stdpp Require Import gmap sorting.
From S2P Require Import Prelude Words Exn Chainbase.

#[local] Open Scope Z_scope.

(** ** config.hpp *)

Definition BlockIntervalSeconds : Z := 3.
Definition StartMinerVotingBlock : Z := 84.
Definition DPOSVotedProducersPerRound : nat := 16.
Definition DPOSRunnerupProducersPerRound : nat := 1.
Definition POWProducersPerRound : nat := 4.
Definition TotalProducersPerRound : nat := 21.
Definition ETI_GenesisTime : Z := 0.
Definition ETI_BlockchainVersion : Z := 0.
Definition ETI_HardforkNum : Z := 0.
Definition ETI_HardforkRequiredProducers : nat := 1.
Definition Percent100 : Z := 10000.
Definition Percent1 : Z := 100.
Definition IrreversibleThresholdPercent : Z := 70 * Percent1.
Definition u128 (x : Z) : Z := x mod 2 ^ 128.
Definition UInt128_max : Z := 2 ^ 128 - 1.
Definition ProducerRaceLapLength : Z := UInt128_max.
Definition ETH_PERCENT (value percentage : Z) : Z := value * percentage / Percent100.

(** ** version.hpp *)

Definition version (m h r : Z) : Z :=
  let v_num := u32 (Z.shiftl m 8) in
  let v_num := u32 (Z.shiftl (Z.lor v_num h) 16) in
  Z.lor v_num r.

Definition hardfork_version_of (v : Z) : Z := Z.land v 0xFFFF0000.
Definition hardfork_version (m h : Z) : Z := version m h 0.

(** [running_version < current_hardfork_version]: the operand on the left is a [version] *)
Definition version_lt (a b : Z) : bool := a <? b.

(** ** rand.hpp *)

Definition rand_next (seed : Z) : Z * Z :=
  let seed := u64 (seed + 0x9E3779B97F4A7C15) in
  let z := seed in
  let z := u64 (Z.lxor z (Z.shiftr z 30) * 0xBF58476D1CE4E5B9) in
  let z := u64 (Z.lxor z (Z.shiftr z 27) * 0x94D049BB133111EB) in
  (seed, Z.lxor z (Z.shiftr z 31)).

Definition swap {A} (i j : nat) (l : list A) : list A :=
  match l !! i, l !! j with
  | Some x, Some y => <[j := x]> (<[i := y]> l)
  | _, _ => l
  end.

(** [idx] runs from the last element to the second, [idx_count] is its index plus one *)
Fixpoint shuffle_ {A} (idx_count : nat) (seed : Z) (range : list A) : list A :=
  match idx_count with
  | O | S O => range
  | S n =>
      let '(seed, r) := rand_next seed in
      shuffle_ n seed (swap (Z.to_nat (r mod Z.of_nat idx_count)) n range)
  end.

Definition shuffle {A} (seed : Z) (range : list A) : list A := shuffle_ (length range) seed range.

(** ** producer_objects.hpp *)

Record Race := MkRace {
  speed : Z;
  position : Z;
  positionUpdateTime : Z;
  projectedFinishTime : Z
}.

Record ProducerVotesObject := MkPVO {
  pvo_id : Z;
  ownerName : Z;
  race : Race
}.

Record ProducerScheduleObject := MkPSO {
  pso_id : Z;
  currentRaceTime : Z
}.

(** The fields assigned, and the exception thrown before the last assignment *)
Definition race_update (currentSpeed currentPosition currentRaceTime : Z) (r : Race) : Race * option exn :=
  let distanceRemaining := u128 (ProducerRaceLapLength - currentPosition) in
  let projectedTimeToFinish :=
    if 0 <? currentSpeed then distanceRemaining / currentSpeed else UInt128_max in
  if UInt128_max - projectedTimeToFinish <? currentRaceTime
  then (MkRace currentSpeed currentPosition currentRaceTime (projectedFinishTime r), Some overflow_error)
  else (MkRace currentSpeed currentPosition currentRaceTime
          (u128 (currentRaceTime + projectedTimeToFinish)), None).

Definition set_race (p : ProducerVotesObject) (x : Race * option exn) : ProducerVotesObject * option exn :=
  (MkPVO (pvo_id p) (ownerName p) x.1, x.2).

Definition startNewRaceLap (currentRaceTime : Z) (p : ProducerVotesObject) : ProducerVotesObject * option exn :=
  set_race p (race_update (speed (race p)) 0 currentRaceTime (race p)).

(** A 64-bit two's complement value *)
Definition to_int64 (x : Z) : Z := let y := u64 x in if y <? 2 ^ 63 then y else y - 2 ^ 64.

Definition updateVotes (deltaVotes currentRaceTime : Z) (p : ProducerVotesObject)
    : ProducerVotesObject * option exn :=
  let timeSinceLastUpdate := u128 (currentRaceTime - positionUpdateTime (race p)) in
  let newPosition := u128 (position (race p) + u128 (speed (race p) * timeSinceLastUpdate)) in
  let newSpeed := to_int64 (speed (race p) + deltaVotes) in
  set_race p (race_update newSpeed newPosition currentRaceTime (race p)).

(** ** producer_object.hpp, global_property_object.hpp *)

Record producer_object := MkProducer {
  po_id : Z;
  owner : Z;
  last_aslot : Z;
  total_missed : Z;
  last_confirmed_block_num : Z;
  pow_worker : Z;
  running_version : Z;
  hardfork_ver_vote : Z;
  hardfork_time_vote : Z
}.

Record process_hardfork_object := MkHardfork {
  ph_id : Z;
  hardfork_timepoint : Z
}.

Record global_property_object := MkGpo {
  gp_id : Z;
  active_producers : list Z;
  last_hardfork : Z;
  current_hardfork_version : Z;
  next_hardfork : Z;
  next_hardfork_time : Z
}.

Record dynamic_global_property_object := MkDgp {
  dg_id : Z;
  head_block_number : Z;
  head_block_id : Z;
  time : Z;
  current_producer : Z;
  accounts_registered_this_interval : Z;
  current_absolute_slot : Z;
  recent_slots_filled : Z;
  last_irreversible_block_num : Z;
  total_pow : Z;
  num_pow_witnesses : Z
}.

(** The containers' unique keys: id and owner; id alone for the singletons *)
#[export] Instance PVO_indexed : Indexed ProducerVotesObject := {|
  obj_id := pvo_id; ukey := ownerName;
  ctor i := MkPVO i 0 (MkRace 0 0 0 UInt128_max);
  ctor_id i := eq_refl
|}.

#[export] Instance PSO_indexed : Indexed ProducerScheduleObject := {|
  obj_id := pso_id; ukey := pso_id; ctor i := MkPSO i 0;
  ctor_id i := eq_refl
|}.

#[export] Instance producer_indexed : Indexed producer_object := {|
  obj_id := po_id; ukey := owner;
  ctor i := MkProducer i 0 0 0 0 0 0 0 ETI_GenesisTime;
  ctor_id i := eq_refl
|}.

#[export] Instance hardfork_indexed : Indexed process_hardfork_object := {|
  obj_id := ph_id; ukey := hardfork_timepoint; ctor i := MkHardfork i 0;
  ctor_id i := eq_refl
|}.

#[export] Instance gpo_indexed : Indexed global_property_object := {|
  obj_id := gp_id; ukey := gp_id; ctor i := MkGpo i (replicate TotalProducersPerRound 0) 0 0 0 0;
  ctor_id i := eq_refl
|}.

#[export] Instance dgp_indexed : Indexed dynamic_global_property_object := {|
  obj_id := dg_id; ukey := dg_id; ctor i := MkDgp i 0 0 0 0 0 0 0 0 0 0;
  ctor_id i := eq_refl
|}.

Definition set_pow_worker w (p : producer_object) : producer_object :=
  MkProducer (po_id p) (owner p) (last_aslot p) (total_missed p) (last_confirmed_block_num p) w
    (running_version p) (hardfork_ver_vote p) (hardfork_time_vote p).

Definition set_num_pow n (d : dynamic_global_property_object) : dynamic_global_property_object :=
  MkDgp (dg_id d) (head_block_number d) (head_block_id d) (time d) (current_producer d)
    (accounts_registered_this_interval d) (current_absolute_slot d) (recent_slots_filled d)
    (last_irreversible_block_num d) (total_pow d) n.

(** [obj.num_pow_witnesses--] *)
Definition dec_num_pow (d : dynamic_global_property_object) : dynamic_global_property_object :=
  set_num_pow (u32 (num_pow_witnesses d - 1)) d.

(** ** The database *)

Record database := Db {
  gpo_ix : generic_index global_property_object;
  dgp_ix : generic_index dynamic_global_property_object;
  votes_ix : generic_index ProducerVotesObject;
  schedule_ix : generic_index ProducerScheduleObject;
  producers_ix : generic_index producer_object;
  hardfork_ix : generic_index process_hardfork_object
}.

(** [get_index<T>()] and [get_mutable_index<T>()] *)
Class Stored (V : Type) `{!Indexed V} := {
  get_ix : database -> generic_index V;
  put_ix : generic_index V -> database -> database
}.

#[export] Instance gpo_stored : Stored global_property_object := {|
  get_ix := gpo_ix;
  put_ix x d := Db x (dgp_ix d) (votes_ix d) (schedule_ix d) (producers_ix d) (hardfork_ix d) |}.
#[export] Instance dgp_stored : Stored dynamic_global_property_object := {|
  get_ix := dgp_ix;
  put_ix x d := Db (gpo_ix d) x (votes_ix d) (schedule_ix d) (producers_ix d) (hardfork_ix d) |}.
#[export] Instance votes_stored : Stored ProducerVotesObject := {|
  get_ix := votes_ix;
  put_ix x d := Db (gpo_ix d) (dgp_ix d) x (schedule_ix d) (producers_ix d) (hardfork_ix d) |}.
#[export] Instance schedule_stored : Stored ProducerScheduleObject := {|
  get_ix := schedule_ix;
  put_ix x d := Db (gpo_ix d) (dgp_ix d) (votes_ix d) x (producers_ix d) (hardfork_ix d) |}.
#[export] Instance producers_stored : Stored producer_object := {|
  get_ix := producers_ix;
  put_ix x d := Db (gpo_ix d) (dgp_ix d) (votes_ix d) (schedule_ix d) x (hardfork_ix d) |}.
#[export] Instance hardfork_stored : Stored process_hardfork_object := {|
  get_ix := hardfork_ix;
  put_ix x d := Db (gpo_ix d) (dgp_ix d) (votes_ix d) (schedule_ix d) (producers_ix d) x |}.

Section Database.
Context {V : Type} `{!Indexed V, !Stored V}.

Definition on_index {A} (m : M (generic_index V) A) : M database A := fun d =>
  let '(g, r) := m (get_ix d) in (put_ix g d, r).

Definition objects (d : database) : gmap Z V := _indices (get_ix d).

Definition db_create (c : V -> V * option exn) : M database V := on_index (emplace c).
Definition db_modify (i : Z) (m : V -> V * option exn) : M database unit := on_index (modify i m).
Definition db_remove (i : Z) : M database unit := on_index (remove i).

(** [find<T>( oid )] and [find<T, byKey>( key )] *)
Definition db_find (i : Z) (d : database) : option V := objects d !! i.
Definition db_find_by (k : Z) (d : database) : option V :=
  snd <$> head (filter (fun p => ukey p.2 = k) (map_to_list (objects d))).

(** [get<T>( oid )], [oid] being 0 by default, and [get<T, byKey>( key )] *)
Definition db_get (i : Z) : M database V := fun d =>
  (d, match db_find i d with Some v => inl v | None => inr out_of_range end).
Definition db_get_by (k : Z) : M database V := fun d =>
  (d, match db_find_by k d with Some v => inl v | None => inr out_of_range end).
End Database.

Arguments db_find V {_ _} _ _.
Arguments db_find_by V {_ _} _ _.
Arguments db_get V {_ _} _ _.
Arguments db_get_by V {_ _} _ _.
Arguments objects V {_ _} _.

(** chainbase.cpp: the calls run over all indices in the order of [initialize_indexes] *)
Definition db_start_undo_session (d : database) : database :=
  Db (start_undo_session (gpo_ix d)) (start_undo_session (dgp_ix d)) (start_undo_session (votes_ix d))
     (start_undo_session (schedule_ix d)) (start_undo_session (producers_ix d))
     (start_undo_session (hardfork_ix d)).

Definition db_undo : M database unit :=
  on_index (V:=global_property_object) undo;;
  on_index (V:=dynamic_global_property_object) undo;;
  on_index (V:=ProducerVotesObject) undo;;
  on_index (V:=ProducerScheduleObject) undo;;
  on_index (V:=producer_object) undo;;
  on_index (V:=process_hardfork_object) undo.

Definition db_commit (r : Z) (d : database) : database :=
  Db (commit r (gpo_ix d)) (commit r (dgp_ix d)) (commit r (votes_ix d))
     (commit r (schedule_ix d)) (commit r (producers_ix d)) (commit r (hardfork_ix d)).

(** ** The ordered indices *)

Definition by_votes_le (a b : ProducerVotesObject) : Prop :=
  speed (race b) < speed (race a) \/ (speed (race b) = speed (race a) /\ pvo_id b <= pvo_id a).
Definition by_finish_le (a b : ProducerVotesObject) : Prop :=
  projectedFinishTime (race a) < projectedFinishTime (race b) \/
  (projectedFinishTime (race a) = projectedFinishTime (race b) /\ pvo_id a <= pvo_id b).

#[export] Instance by_votes_le_dec a b : Decision (by_votes_le a b).
Proof. unfold by_votes_le. apply _. Defined.
#[export] Instance by_finish_le_dec a b : Decision (by_finish_le a b).
Proof. unfold by_finish_le. apply _. Defined.

Definition values {V} (m : gmap Z V) : list V := (map_to_list m).*2.

Definition byVotes (d : database) : list ProducerVotesObject :=
  merge_sort by_votes_le (values (objects ProducerVotesObject d)).
Definition byProjectedRaceFinishTime (d : database) : list ProducerVotesObject :=
  merge_sort by_finish_le (values (objects ProducerVotesObject d)).

(** [upper_bound( k )] of the index by_pow, and the element an iterator to [p] moves to *)
Definition pow_le (a b : producer_object) : Prop := pow_worker a <= pow_worker b.
#[export] Instance pow_le_dec a b : Decision (pow_le a b).
Proof. unfold pow_le. apply _. Defined.

Definition by_pow_upper_bound (k : Z) (d : database) : option producer_object :=
  head (merge_sort pow_le (filter (fun p => k < pow_worker p) (values (objects producer_object d)))).

Definition by_pow_next (i : Z) (d : database) : option producer_object :=
  p ← db_find producer_object i d; by_pow_upper_bound (pow_worker p) d.

(** ** producer_objects.cpp *)

Definition resetProducerRace : M database unit :=
  d ← get_st;
  for_each (fun p => db_modify (pvo_id p) (startNewRaceLap 0)) (byVotes d);;
  db_modify 0 (pure_mod (fun s => MkPSO (pso_id s) 0)).

(** The loop over the runners-up: those not taken yet, [n] of them *)
Fixpoint pick_runners (n : nat) (l : list ProducerVotesObject) (round : list Z) (processed : gset Z)
    : list Z * gset Z * nat :=
  match n, l with
  | O, _ | _, [] => (round, processed, O)
  | S m, p :: l =>
      if decide (ownerName p ∈ processed) then pick_runners n l round processed
      else
        let '(round, processed, c) := pick_runners m l (round ++ [ownerName p]) (processed ∪ {[ownerName p]}) in
        (round, processed, S c)
  end.

(** The loop over the proof-of-work queue; [room] is the limit minus [powCount] *)
Fixpoint pow_loop (fuel : nat) (itr : option producer_object) (room : nat) (round : list Z)
    (processed : gset Z) : M database (list Z * gset Z) :=
  match itr, room with
  | None, _ | _, O => mret (round, processed)
  | Some p, S room' =>
      match fuel with
      | O => throw out_of_fuel
      | S fuel =>
          if decide (owner p ∈ processed) then
            d ← get_st; pow_loop fuel (by_pow_next (po_id p) d) room round processed
          else
            db_modify (po_id p) (pure_mod (set_pow_worker 0));;
            db_modify 0 (pure_mod dec_num_pow);;
            d ← get_st;
            match db_find_by ProducerVotesObject (owner p) d with
            | None => pow_loop fuel (by_pow_next (po_id p) d) room' (round ++ [owner p]) (processed ∪ {[owner p]})
            | Some _ => pow_loop fuel (by_pow_next (po_id p) d) room round processed
            end
      end
  end.

(** Every pass over the queue that does not end the loop takes an element out of it *)
Definition pow_fuel (d : database) : nat :=
  let n := size (objects producer_object d) in (S n * S n)%nat.

(** The loop over the lap completers, [itr != LapCompleters.end()]; the iterator is
    incremented before the element moves *)
Definition by_finish_after (p : ProducerVotesObject) (d : database) : option ProducerVotesObject :=
  head (filter (fun q => ~ by_finish_le q p) (byProjectedRaceFinishTime d)).

Fixpoint lap_loop (fuel : nat) (itr : option ProducerVotesObject) (finish : Z) (newRaceTime : Z)
    : M database unit :=
  match itr with
  | None => mret tt
  | Some completer =>
      if decide (pvo_id completer = finish) then mret tt
      else match fuel with
      | O => throw out_of_fuel
      | S fuel =>
          d ← get_st;
          let next := by_finish_after completer d in
          db_modify (pvo_id completer) (startNewRaceLap newRaceTime);;
          d ← get_st;
          (* the element [next] points to, as it is now *)
          lap_loop fuel (n ← next; db_find ProducerVotesObject (pvo_id n) d) finish newRaceTime
      end
  end.

Definition lap_fuel (d : database) : nat :=
  let n := size (objects ProducerVotesObject d) in (S n * S n)%nat.

Definition update_race (lastRunnerUpName : Z) : M database unit :=
  lastRunnerUp ← db_get_by ProducerVotesObject lastRunnerUpName;
  d ← get_st;
  let newRaceTime := projectedFinishTime (race lastRunnerUp) in
  let order := byProjectedRaceFinishTime d in
  let LapCompleters := filter (fun q => by_finish_le q lastRunnerUp) order in
  try_catch
    (match by_finish_after lastRunnerUp d with
     | Some finish =>
         if newRaceTime <? UInt128_max then
           lap_loop (lap_fuel d) (head LapCompleters) (pvo_id finish) newRaceTime;;
           db_modify 0 (pure_mod (fun s => MkPSO (pso_id s) newRaceTime))
         else resetProducerRace
     | None => resetProducerRace
     end)
    (fun _ => resetProducerRace).

Definition calculateNextRound : M database (list Z) :=
  d ← get_st;
  match byVotes d with
  | [] => throw NoEnoughProducers
  | votes =>
      gprops ← db_get dynamic_global_property_object 0;
      let '(round, processed, runerCount) :=
        if (num_pow_witnesses gprops =? 0) || (StartMinerVotingBlock <? head_block_number gprops) then
          let top := ownerName <$> take DPOSVotedProducersPerRound votes in
          pick_runners DPOSRunnerupProducersPerRound (byProjectedRaceFinishTime d) top (list_to_set top)
        else ([], ∅, O) in
      let lastRunnerUpName := default 0 (list.last round) in
      (if Z.of_nat TotalProducersPerRound <? num_pow_witnesses gprops then
         match by_pow_upper_bound 0 d with
         | Some p =>
             db_modify (po_id p) (pure_mod (set_pow_worker 0));;
             db_modify 0 (pure_mod dec_num_pow)
         | None => mret tt
         end
       else mret tt);;
      d ← get_st;
      let room := if StartMinerVotingBlock <? head_block_number gprops then POWProducersPerRound
                  else (TotalProducersPerRound - length round)%nat in
      '(round, _) ← pow_loop (pow_fuel d) (by_pow_upper_bound 0 d) room round processed;
      let round := round ++ replicate (TotalProducersPerRound - length round) 0 in
      match runerCount with
      | O => mret round
      | _ => update_race lastRunnerUpName;; mret round
      end
  end.
