(* ===== verification/ChainController.v ===== *)
(** * libproducer/chain_controller.cpp: delegated proof of stake

    The controller owns the object database and applies block headers to it.  What it reads of
    the rest of the node is a record of functions ([chain_env]): the votes and the proof-of-work
    operations recorded in the state of a block (State::storage of the vote contracts), block
    hashes by number, and the parent of the current head.  [_temp_pow_ops] is an unordered map;
    it is the list of its entries in the order in which the map is walked.  Numbers and
    timestamps of headers are 32-bit values, so that their conversions are exact. *)

From stdpp Require Import gmap sorting.
From S2P Require Import Prelude Words Exn Chainbase Producer.

#[local] Open Scope Z_scope.

Record VoteInfo := MkVoteInfo { m_isCandidate : bool; m_receivedVote : Z }.

Record POW_Operation := MkPow { pow_address : Z; block_id : Z; work : Z }.

Record BlockHeader := MkHeader {
  parentHash : Z;
  number : Z;
  hash : Z;
  timestamp : Z;
  producer : Z;
  runningVersion : Z;
  hf_version : Z;
  hf_time : Z;
  verifySign : bool
}.

Record chain_env := MkEnv {
  votes_at : Z -> gmap Z VoteInfo;
  pow_ops_at : Z -> list POW_Operation;
  numberHash : Z -> Z;
  info_parentHash : Z
}.

Record chain_controller := CC {
  _db : database;
  _all_votes : gmap Z Z;
  _temp_pow_ops : list POW_Operation;
  _hardfork_times : list Z;
  _hardfork_versions : list Z;
  _last_irreversible_block_num : Z;
  _last_irreversible_block_hash : Z
}.

Definition set_db d (c : chain_controller) : chain_controller :=
  CC d (_all_votes c) (_temp_pow_ops c) (_hardfork_times c) (_hardfork_versions c)
    (_last_irreversible_block_num c) (_last_irreversible_block_hash c).
Definition set_all_votes v (c : chain_controller) : chain_controller :=
  CC (_db c) v (_temp_pow_ops c) (_hardfork_times c) (_hardfork_versions c)
    (_last_irreversible_block_num c) (_last_irreversible_block_hash c).
Definition set_temp_pow_ops v (c : chain_controller) : chain_controller :=
  CC (_db c) (_all_votes c) v (_hardfork_times c) (_hardfork_versions c)
    (_last_irreversible_block_num c) (_last_irreversible_block_hash c).
Definition set_hardforks ts vs (c : chain_controller) : chain_controller :=
  CC (_db c) (_all_votes c) (_temp_pow_ops c) ts vs
    (_last_irreversible_block_num c) (_last_irreversible_block_hash c).
Definition set_last_irreversible n h (c : chain_controller) : chain_controller :=
  CC (_db c) (_all_votes c) (_temp_pow_ops c) (_hardfork_times c) (_hardfork_versions c) n h.

Definition on_db {A} (m : M database A) : M chain_controller A := fun c =>
  let '(d, r) := m (_db c) in (set_db d c, r).

Definition upd_producer (f : producer_object -> producer_object) i : M chain_controller unit :=
  on_db (db_modify i (pure_mod f)).

(** ** Slots *)

Definition get_dynamic_global_properties : M chain_controller dynamic_global_property_object :=
  on_db (db_get dynamic_global_property_object 0).
Definition get_global_properties : M chain_controller global_property_object :=
  on_db (db_get global_property_object 0).
Definition get_producer (ownerName : Z) : M chain_controller producer_object :=
  on_db (db_get_by producer_object ownerName).

Definition get_slot_time (dpo : dynamic_global_property_object) (slot_num : Z) : Z :=
  if slot_num =? 0 then 0
  else
    let interval := BlockIntervalSeconds in
    if head_block_number dpo =? 0
    then u32 (time dpo + u32 (slot_num * interval))
    else
      let head_block_abs_slot := time dpo / interval in
      let head_slot_time := u32 (head_block_abs_slot * interval) in
      u32 (head_slot_time + u32 (slot_num * interval)).

Definition get_slot_at_time (dpo : dynamic_global_property_object) (when : Z) : Z :=
  let first_slot_time := get_slot_time dpo 1 in
  if when <? first_slot_time then 0
  else u32 ((when - first_slot_time) / BlockIntervalSeconds + 1).

Definition get_scheduled_producer (dpo : dynamic_global_property_object) (gpo : global_property_object)
    (slot_num : Z) : Z :=
  let current_aslot := u64 (current_absolute_slot dpo + slot_num) in
  nth (Z.to_nat (current_aslot mod Z.of_nat TotalProducersPerRound)) (active_producers gpo) 0.

(** ** Block headers *)

Definition validate_block_header (bh : BlockHeader) : M chain_controller producer_object :=
  if negb (verifySign bh) then throw InvalidSignature
  else
    dpo ← get_dynamic_global_properties;
    gpo ← get_global_properties;
    let slot := get_slot_at_time dpo (timestamp bh) in
    let scheduled_producer := get_scheduled_producer dpo gpo slot in
    if negb (scheduled_producer =? producer bh) then throw InvalidProducer
    else get_producer scheduled_producer.

Definition set_running_version v (p : producer_object) : producer_object :=
  MkProducer (po_id p) (owner p) (last_aslot p) (total_missed p) (last_confirmed_block_num p)
    (pow_worker p) v (hardfork_ver_vote p) (hardfork_time_vote p).
Definition set_hardfork_vote v t (p : producer_object) : producer_object :=
  MkProducer (po_id p) (owner p) (last_aslot p) (total_missed p) (last_confirmed_block_num p)
    (pow_worker p) (running_version p) v t.

Definition process_block_header (b : BlockHeader) : M chain_controller unit :=
  producer_obj ← get_producer (producer b);
  (if negb (runningVersion b =? running_version producer_obj)
   then upd_producer (set_running_version (runningVersion b)) (po_id producer_obj)
   else mret tt);;
  (if negb (hf_version b =? hardfork_ver_vote producer_obj) || negb (hf_time b =? hardfork_time_vote producer_obj)
   then upd_producer (set_hardfork_vote (hf_version b) (hf_time b)) (po_id producer_obj)
   else mret tt);;
  gpo ← get_global_properties;
  (* the running version of the producer is now that of the block *)
  if version_lt (runningVersion b) (current_hardfork_version gpo) then throw InvlidRuningVersion
  else mret tt.

(** ** Proof of work *)

Definition get_pow_target (dgp : dynamic_global_property_object) : Z :=
  Z.shiftr (2 ^ 256 - 1) (num_pow_witnesses dgp / 4 + 4).

Definition inc_pow (d : dynamic_global_property_object) : dynamic_global_property_object :=
  MkDgp (dg_id d) (head_block_number d) (head_block_id d) (time d) (current_producer d)
    (accounts_registered_this_interval d) (current_absolute_slot d) (recent_slots_filled d)
    (last_irreversible_block_num d) (u64 (total_pow d + 1)) (u32 (num_pow_witnesses d + 1)).

Definition new_producer (o w : Z) (p : producer_object) : producer_object :=
  MkProducer (po_id p) o (last_aslot p) (total_missed p) (last_confirmed_block_num p) w
    (running_version p) (hardfork_ver_vote p) (hardfork_time_vote p).

Definition update_pow_op (last_block_id target : Z) (opref : POW_Operation) : M chain_controller unit :=
  if negb (block_id opref =? last_block_id) then mret tt
  else if target <=? work opref then mret tt
  else
    c ← get_st;
    match db_find_by ProducerVotesObject (pow_address opref) (_db c) with
    | Some _ => mret tt
    | None =>
        match db_find_by producer_object (pow_address opref) (_db c) with
        | Some pow_producer =>
            if negb (pow_worker pow_producer =? 0) then mret tt
            else
              on_db (db_modify 0 (pure_mod inc_pow));;
              dgp ← get_dynamic_global_properties;
              upd_producer (set_pow_worker (total_pow dgp)) (po_id pow_producer)
        | None =>
            on_db (db_modify 0 (pure_mod inc_pow));;
            dgp ← get_dynamic_global_properties;
            on_db (db_create (pure_mod (new_producer (pow_address opref) (total_pow dgp))));;
            mret tt
        end
    end.

Definition update_pow (env : chain_env) : M chain_controller unit :=
  dgp ← get_dynamic_global_properties;
  c ← get_st;
  for_each (update_pow_op (info_parentHash env) (get_pow_target dgp)) (_temp_pow_ops c).

Definition update_pow_perblock (env : chain_env) (b : BlockHeader) : M chain_controller unit :=
  update_st (set_temp_pow_ops (pow_ops_at env (parentHash b))).

(** ** Votes *)

Definition new_votes (o raceTime : Z) (p : ProducerVotesObject) : ProducerVotesObject * option exn :=
  startNewRaceLap raceTime (MkPVO (pvo_id p) o (race p)).

Definition update_pvomi_one (p : Z * VoteInfo) : M chain_controller unit :=
  if negb (m_isCandidate p.2) then mret tt
  else
    c ← get_st;
    match _all_votes c !! p.1 with
    | Some votes =>
        let deltaVotes := to_int64 (m_receivedVote p.2 - votes) in
        if deltaVotes =? 0 then mret tt
        else
          sched ← on_db (db_get ProducerScheduleObject 0);
          pvo ← on_db (db_get_by ProducerVotesObject p.1);
          on_db (db_modify (pvo_id pvo) (updateVotes deltaVotes (currentRaceTime sched)));;
          update_st (fun c => set_all_votes (<[p.1 := m_receivedVote p.2]> (_all_votes c)) c)
    | None =>
        sched ← on_db (db_get ProducerScheduleObject 0);
        on_db (db_create (new_votes p.1 (currentRaceTime sched)));;
        c ← get_st;
        (match db_find_by producer_object p.1 (_db c) with
         | None => on_db (db_create (pure_mod (new_producer p.1 0)));; mret tt
         | Some lp_po =>
             if negb (pow_worker lp_po =? 0) then
               upd_producer (set_pow_worker 0) (po_id lp_po);;
               on_db (db_modify 0 (pure_mod dec_num_pow))
             else mret tt
         end);;
        update_st (fun c => set_all_votes (<[p.1 := m_receivedVote p.2]> (_all_votes c)) c)
    end.

Definition remove_inactive (p : Z) : M chain_controller unit :=
  pvo ← on_db (db_get_by ProducerVotesObject p);
  on_db (db_remove (V:=ProducerVotesObject) (pvo_id pvo));;
  update_st (fun c => set_all_votes (delete p (_all_votes c)) c).

Definition update_pvomi_perblock (env : chain_env) (b : BlockHeader) : M chain_controller unit :=
  let AllProducers := votes_at env (parentHash b) in
  for_each update_pvomi_one (items AllProducers);;
  c ← get_st;
  let InactiveProducers := filter (fun p => AllProducers !! p = None) (items (_all_votes c)).*1 in
  for_each remove_inactive InactiveProducers.

(** ** Global data *)

Definition inc_missed (p : producer_object) : producer_object :=
  MkProducer (po_id p) (owner p) (last_aslot p) (total_missed p + 1) (last_confirmed_block_num p)
    (pow_worker p) (running_version p) (hardfork_ver_vote p) (hardfork_time_vote p).

Definition missed_slot (b : BlockHeader) (i : Z) : M chain_controller unit :=
  dpo ← get_dynamic_global_properties;
  gpo ← get_global_properties;
  let missed_producer_name := get_scheduled_producer dpo gpo (u32 (i + 1)) in
  if missed_producer_name =? 0 then mret tt
  else
    producer_missed ← get_producer missed_producer_name;
    if owner producer_missed =? producer b then mret tt
    else upd_producer inc_missed (po_id producer_missed).

Definition new_dynamic_data (b : BlockHeader) (missed_blocks : Z) (d : dynamic_global_property_object)
    : dynamic_global_property_object :=
  MkDgp (dg_id d) (number b) (hash b) (timestamp b) (current_producer d)
    (accounts_registered_this_interval d)
    (u64 (current_absolute_slot d + u32 (missed_blocks + 1)))
    (if missed_blocks <? 64
     then u64 (Z.shiftl (u64 (u64 (Z.shiftl (recent_slots_filled d) 1) + 1)) missed_blocks)
     else 0)
    (last_irreversible_block_num d) (total_pow d) (num_pow_witnesses d).

(** [asserts] only prints, so that [missed_blocks--] wraps when the slot is 0 *)
Definition update_global_dynamic_data (b : BlockHeader) : M chain_controller unit :=
  dgp ← get_dynamic_global_properties;
  let missed_blocks := if head_block_number dgp =? 0 then 1 else get_slot_at_time dgp (timestamp b) in
  let missed_blocks := u32 (missed_blocks - 1) in
  for_each (missed_slot b) (seqZ 0 missed_blocks);;
  on_db (db_modify 0 (pure_mod (new_dynamic_data b missed_blocks))).

Definition calculate_next_round (b : BlockHeader) : M chain_controller (list Z) :=
  schedule ← on_db calculateNextRound;
  mret (shuffle (timestamp b) schedule).

(** *** Hard forks *)

(** flat_map with std::greater: descending (version, time), and the number of votes *)
Definition vote_ge (a b : (Z * Z) * nat) : Prop :=
  b.1.1 < a.1.1 \/ (b.1.1 = a.1.1 /\ b.1.2 <= a.1.2).
#[export] Instance vote_ge_dec a b : Decision (vote_ge a b).
Proof. unfold vote_ge. apply _. Defined.

Fixpoint count_votes (active : list Z) (votes : gmap (Z * Z) nat) : M chain_controller (gmap (Z * Z) nat) :=
  match active with
  | [] => mret votes
  | a :: active =>
      if a =? 0 then count_votes active votes
      else
        producer_obj ← get_producer a;
        let k := (hardfork_ver_vote producer_obj, hardfork_time_vote producer_obj) in
        count_votes active (<[k := match votes !! k with None => 1%nat | Some n => S n end]> votes)
  end.

Definition set_next_hardfork v t (g : global_property_object) : global_property_object :=
  MkGpo (gp_id g) (active_producers g) (last_hardfork g) (current_hardfork_version g) v t.

Definition update_hardfork_votes (active : list Z) : M chain_controller unit :=
  votes ← count_votes active ∅;
  match head (filter (fun kv => (ETI_HardforkRequiredProducers <= kv.2)%nat)
                (merge_sort vote_ge (map_to_list votes))) with
  | Some ((hf_ver, hf_time), _) => on_db (db_modify 0 (pure_mod (set_next_hardfork hf_ver hf_time)))
  | None =>
      on_db (db_modify 0 (pure_mod (fun g =>
        set_next_hardfork (current_hardfork_version g) (next_hardfork_time g) g)))
  end.

Definition apply_hardfork_gpo n v (g : global_property_object) : global_property_object :=
  MkGpo (gp_id g) (active_producers g) n v (next_hardfork g) (next_hardfork_time g).

Definition apply_hardfork (hardfork : Z) : M chain_controller unit :=
  gpo ← get_global_properties;
  if negb (hardfork =? last_hardfork gpo + 1) then throw HardforkApplyOutOfOrder
  else
    c ← get_st;
    match _hardfork_times c !! Z.to_nat hardfork, _hardfork_versions c !! Z.to_nat hardfork with
    | Some t, Some v =>
        on_db (db_create (pure_mod (fun h => MkHardfork (ph_id h) t)));;
        on_db (db_modify 0 (pure_mod (apply_hardfork_gpo hardfork v)))
    | _, _ => throw undefined_behaviour
    end.

Fixpoint process_hardforks_ (fuel : nat) : M chain_controller unit :=
  gpo ← get_global_properties;
  dpo ← get_dynamic_global_properties;
  c ← get_st;
  match _hardfork_versions c !! Z.to_nat (last_hardfork gpo) with
  | None => throw undefined_behaviour
  | Some v =>
      if (v <? next_hardfork gpo) && (next_hardfork_time gpo <=? time dpo) then
        if last_hardfork gpo <? ETI_HardforkNum then
          match fuel with
          | O => throw out_of_fuel
          | S fuel => apply_hardfork (last_hardfork gpo + 1);; process_hardforks_ fuel
          end
        else throw UnknownHardfork
      else mret tt
  end.

(** every pass raises [last_hardfork] *)
Definition process_hardforks : M chain_controller unit := process_hardforks_ (Z.to_nat ETI_HardforkNum).

(** *** End of a round *)

Definition set_active (schedule : list Z) (g : global_property_object) : global_property_object :=
  MkGpo (gp_id g) (schedule ++ drop (length schedule) (active_producers g)) (last_hardfork g)
    (current_hardfork_version g) (next_hardfork g) (next_hardfork_time g).

(** Both handlers of the code return *)
Definition update_global_properties (b : BlockHeader) : M chain_controller unit :=
  if number b mod Z.of_nat TotalProducersPerRound =? 0 then
    try_catch
      (schedule ← calculate_next_round b;
       gpo ← get_global_properties;
       update_hardfork_votes (active_producers gpo);;
       if decide (length schedule <= length (active_producers gpo))%nat
       then on_db (db_modify 0 (pure_mod (set_active schedule)))
       else throw undefined_behaviour)
      (fun _ => mret tt)
  else mret tt.

Definition set_signed aslot n (p : producer_object) : producer_object :=
  MkProducer (po_id p) (owner p) aslot (total_missed p) n (pow_worker p)
    (running_version p) (hardfork_ver_vote p) (hardfork_time_vote p).

Definition update_signing_producer (signing_producer : Z) (b : BlockHeader) : M chain_controller unit :=
  dpo ← get_dynamic_global_properties;
  let new_block_aslot := u64 (current_absolute_slot dpo + get_slot_at_time dpo (timestamp b)) in
  upd_producer (set_signed new_block_aslot (number b)) signing_producer.

Definition confirmed_le (a b : producer_object) : Prop :=
  last_confirmed_block_num a <= last_confirmed_block_num b.
#[export] Instance confirmed_le_dec a b : Decision (confirmed_le a b).
Proof. unfold confirmed_le. apply _. Defined.

Fixpoint get_producers_of (active : list Z) : M chain_controller (list producer_object) :=
  match active with
  | [] => mret []
  | a :: active =>
      if a =? 0 then get_producers_of active
      else p ← get_producer a; ps ← get_producers_of active; mret (p :: ps)
  end.

Definition set_lib n (d : dynamic_global_property_object) : dynamic_global_property_object :=
  MkDgp (dg_id d) (head_block_number d) (head_block_id d) (time d) (current_producer d)
    (accounts_registered_this_interval d) (current_absolute_slot d) (recent_slots_filled d)
    n (total_pow d) (num_pow_witnesses d).

(** nth_element puts at [offset] the object that sorting would put there *)
Definition update_last_irreversible_block (env : chain_env) : M chain_controller unit :=
  gpo ← get_global_properties;
  dpo ← get_dynamic_global_properties;
  producer_objs ← get_producers_of (active_producers gpo);
  let offset := Z.to_nat (ETH_PERCENT (Z.of_nat (length producer_objs)) (Percent100 - IrreversibleThresholdPercent)) in
  match merge_sort confirmed_le producer_objs !! offset with
  | None => throw undefined_behaviour
  | Some p =>
      let new_last_irreversible_block_num := last_confirmed_block_num p in
      (if last_irreversible_block_num dpo <? new_last_irreversible_block_num then
         on_db (db_modify 0 (pure_mod (set_lib new_last_irreversible_block_num)));;
         update_st (set_last_irreversible new_last_irreversible_block_num
                      (numberHash env new_last_irreversible_block_num))
       else mret tt);;
      on_db (update_st (db_commit new_last_irreversible_block_num))
  end.

(** ** Blocks *)

Definition apply_block (env : chain_env) (b : BlockHeader) : M chain_controller unit :=
  signing_producer ← validate_block_header b;
  process_block_header b;;
  update_pow_perblock env b;;
  update_pow env;;
  update_pvomi_perblock env b;;
  update_global_dynamic_data b;;
  update_global_properties b;;
  update_signing_producer (po_id signing_producer) b;;
  update_last_irreversible_block env;;
  process_hardforks.

(** The destructor of the session undoes what an exception leaves *)
Definition push_block (env : chain_env) (b : BlockHeader) : M chain_controller unit :=
  on_db (update_st db_start_undo_session);;
  try_catch (apply_block env b) (fun e => on_db db_undo;; throw e).

(** [while (head_block_num() != _firstvalid) _db.undo();] *)
Fixpoint databaseReversion_ (fuel : nat) (_firstvalid : Z) : M chain_controller unit :=
  dpo ← get_dynamic_global_properties;
  if head_block_number dpo =? _firstvalid then mret tt
  else match fuel with
  | O => throw out_of_fuel
  | S fuel => on_db db_undo;; databaseReversion_ fuel _firstvalid
  end.

(** Once the undo stack is empty [undo] changes nothing and the loop does not end *)
Definition databaseReversion (_firstvalid : Z) : M chain_controller unit := fun c =>
  databaseReversion_ (length (_stack (dgp_ix (_db c)))) _firstvalid c.

Definition init_allvotes (env : chain_env) (bh : BlockHeader) : M chain_controller unit :=
  update_st (set_all_votes
    (if number bh <=? 0 then ∅ else m_receivedVote <$> votes_at env (parentHash bh))).

(** ** Start *)

Definition init_hardforks : M chain_controller unit :=
  update_st (set_hardforks [ETI_GenesisTime] [hardfork_version 0 0]);;
  gpo ← get_global_properties;
  if ETI_HardforkNum <? last_hardfork gpo then throw UnknownHardfork
  else
    c ← get_st;
    match _hardfork_versions c !! Z.to_nat (last_hardfork gpo) with
    | None => throw undefined_behaviour
    | Some v => if hardfork_version_of ETI_BlockchainVersion <? v then throw UnknownHardfork else mret tt
    end.

Definition initial_timestamp : Z := 1513580324.

Definition genesis_gpo (initialProducers : list Z) (p : global_property_object) : global_property_object :=
  MkGpo (gp_id p) (initialProducers ++ drop (length initialProducers) (active_producers p)) 0
    (hardfork_version_of (version 0 0 0)) (hardfork_version_of (version 0 0 0)) ETI_GenesisTime.

Definition genesis_dgp (d : dynamic_global_property_object) : dynamic_global_property_object :=
  MkDgp (dg_id d) (head_block_number d) (head_block_id d) initial_timestamp (current_producer d)
    (accounts_registered_this_interval d) (current_absolute_slot d) (2 ^ 64 - 1)
    (last_irreversible_block_num d) (total_pow d) (num_pow_witnesses d).

Definition create_genesis_producer (a : Z) : M chain_controller unit :=
  if a =? 0 then mret tt
  else
    on_db (db_create (pure_mod (new_producer a 0)));;
    on_db (db_create (pure_mod (fun p => MkPVO (pvo_id p) a (race p))));;
    mret tt.

(** The body of the try block *)
Definition initialize_chain_ (env : chain_env) (initialProducers : list Z) : M chain_controller unit :=
  c ← get_st;
  (match db_find global_property_object 0 (_db c) with
   | Some _ => mret tt
   | None =>
       if decide (TotalProducersPerRound < length initialProducers)%nat then throw undefined_behaviour
       else
         on_db (db_create (pure_mod (genesis_gpo initialProducers)));;
         on_db (db_create (pure_mod (fun h => MkHardfork (ph_id h) ETI_GenesisTime)));;
         on_db (db_create (pure_mod genesis_dgp));;
         on_db (db_create (pure_mod (fun s : ProducerScheduleObject => s)));;
         gpo ← get_global_properties;
         for_each create_genesis_producer (active_producers gpo)
   end);;
  init_hardforks;;
  dpo ← get_dynamic_global_properties;
  update_st (set_last_irreversible (last_irreversible_block_num dpo)
               (numberHash env (last_irreversible_block_num dpo))).

(** The handler of UnknownHardfork is [while(1){}], written as [out_of_fuel]; other exceptions
    are thrown again *)
Definition initialize_chain (env : chain_env) (initialProducers : list Z) : M chain_controller unit :=
  try_catch (initialize_chain_ env initialProducers)
    (fun e => throw (if decide (e = UnknownHardfork) then out_of_fuel else e)).

Definition empty_controller : chain_controller :=
  CC (Db empty_index empty_index empty_index empty_index empty_index empty_index) ∅ [] [] [] 0 0.
