(* ===== verification/DposCalls.v ===== *)
(** * The database calls of the controller

    Every function of the controller changes the database only through [create], [modify] and
    [remove].  For each function a predicate on calls says which ones it makes; a property
    of the database that those calls keep is kept by the function, whether it returns or throws
    ([keeps]).  Sessions, slots, race time and the irreversible block are handled through these
    footprints. *)

From stdpp Require Import gmap sorting.
From S2P Require Import Prelude Words Exn Chainbase Producer ChainController.

#[local] Open Scope Z_scope.

Inductive call : Type :=
  | ModPo (i : Z) (m : producer_object -> producer_object * option exn)
  | NewPo (c : producer_object -> producer_object * option exn)
  | ModPvo (i : Z) (m : ProducerVotesObject -> ProducerVotesObject * option exn)
  | NewPvo (c : ProducerVotesObject -> ProducerVotesObject * option exn)
  | DelPvo (i : Z)
  | ModPso (i : Z) (m : ProducerScheduleObject -> ProducerScheduleObject * option exn)
  | ModGpo (i : Z) (m : global_property_object -> global_property_object * option exn)
  | ModDgp (i : Z) (m : dynamic_global_property_object -> dynamic_global_property_object * option exn)
  | NewHf (c : process_hardfork_object -> process_hardfork_object * option exn).

Definition run_call (k : call) : M database unit :=
  match k with
  | ModPo i m => db_modify i m
  | NewPo c => db_create c;; mret tt
  | ModPvo i m => db_modify i m
  | NewPvo c => db_create c;; mret tt
  | DelPvo i => db_remove (V:=ProducerVotesObject) i
  | ModPso i m => db_modify i m
  | ModGpo i m => db_modify i m
  | ModDgp i m => db_modify i m
  | NewHf c => db_create c;; mret tt
  end.

Definition keeps (calls : call -> Prop) (P : database -> Prop) : Prop :=
  forall k, calls k -> preserves P (run_call k).

(** ** The calls of each function *)

Inductive sched_call : call -> Prop :=
  | sched_pow i : sched_call (ModPo i (pure_mod (set_pow_worker 0)))
  | sched_num : sched_call (ModDgp 0 (pure_mod dec_num_pow))
  | sched_lap i t : sched_call (ModPvo i (startNewRaceLap t))
  | sched_time t : sched_call (ModPso 0 (pure_mod (fun s => MkPSO (pso_id s) t))).

Inductive header_call : call -> Prop :=
  | header_version i v : header_call (ModPo i (pure_mod (set_running_version v)))
  | header_vote i v t : header_call (ModPo i (pure_mod (set_hardfork_vote v t))).

Inductive pow_call : call -> Prop :=
  | pow_inc : pow_call (ModDgp 0 (pure_mod inc_pow))
  | pow_set i w : pow_call (ModPo i (pure_mod (set_pow_worker w)))
  | pow_new a w : pow_call (NewPo (pure_mod (new_producer a w))).

Inductive vote_call : call -> Prop :=
  | vote_update i v t : vote_call (ModPvo i (updateVotes v t))
  | vote_new a t : vote_call (NewPvo (new_votes a t))
  | vote_producer a : vote_call (NewPo (pure_mod (new_producer a 0)))
  | vote_pow i : vote_call (ModPo i (pure_mod (set_pow_worker 0)))
  | vote_num : vote_call (ModDgp 0 (pure_mod dec_num_pow)).

Inductive drop_call : call -> Prop :=
  | drop_del i : drop_call (DelPvo i).

Inductive slot_call (b : BlockHeader) : call -> Prop :=
  | slot_missed i : slot_call b (ModPo i (pure_mod inc_missed))
  | slot_data m : slot_call b (ModDgp 0 (pure_mod (new_dynamic_data b m))).

Inductive round_call : call -> Prop :=
  | round_sched k : sched_call k -> round_call k
  | round_vote v t : round_call (ModGpo 0 (pure_mod (set_next_hardfork v t)))
  | round_keep : round_call (ModGpo 0 (pure_mod (fun g =>
      set_next_hardfork (current_hardfork_version g) (next_hardfork_time g) g)))
  | round_active s : round_call (ModGpo 0 (pure_mod (set_active s))).

Inductive sign_call : call -> Prop :=
  | sign_set i a n : sign_call (ModPo i (pure_mod (set_signed a n))).

Inductive hf_call : call -> Prop :=
  | hf_new t : hf_call (NewHf (pure_mod (fun h => MkHardfork (ph_id h) t)))
  | hf_apply n v : hf_call (ModGpo 0 (pure_mod (apply_hardfork_gpo n v))).

Create HintDb calls.
#[export] Hint Constructors sched_call header_call pow_call vote_call drop_call slot_call round_call
  sign_call hf_call : calls.

(** ** Automation *)

Lemma preserves_create {V} `{!Indexed V, !Stored V} (P : database -> Prop) (c : V -> V * option exn) :
  preserves P (db_create c;; mret tt) -> preserves P (db_create c).
Proof.
  intros H d Hd. specialize (H d Hd). unfold mbind, M_bind in H. by destruct (db_create c d) as [d' [v|e]].
Qed.

Lemma preserves_db_get {V} `{!Indexed V, !Stored V} (P : database -> Prop) i : preserves P (db_get V i).
Proof. by intros d. Qed.
Lemma preserves_db_get_by {V} `{!Indexed V, !Stored V} (P : database -> Prop) k : preserves P (db_get_by V k).
Proof. by intros d. Qed.
#[export] Hint Resolve preserves_db_get preserves_db_get_by : preserves.

(** A property of the database, of the controller *)
Definition cc (P : database -> Prop) (c : chain_controller) : Prop := P (_db c).

Lemma preserves_on_db (P : database -> Prop) {A} (m : M database A) :
  preserves P m -> preserves (cc P) (on_db m).
Proof.
  intros Hm c Hc. unfold on_db, cc. specialize (Hm (_db c) Hc). by destruct (m (_db c)) as [d r].
Qed.

Lemma preserves_update_st P (f : chain_controller -> chain_controller) :
  (forall c, _db (f c) = _db c) -> preserves (cc P) (update_st f).
Proof. intros Hf c Hc. unfold cc. cbn. by rewrite Hf. Qed.

(** Closes a call of a footprint: [H : keeps calls P] in the context *)
Ltac use_call :=
  match goal with
  | H : keeps _ ?P |- preserves ?P (@db_modify producer_object _ _ ?i ?m) =>
      apply (H (ModPo i m)); eauto with calls
  | H : keeps _ ?P |- preserves ?P (@db_modify ProducerVotesObject _ _ ?i ?m) =>
      apply (H (ModPvo i m)); eauto with calls
  | H : keeps _ ?P |- preserves ?P (@db_modify ProducerScheduleObject _ _ ?i ?m) =>
      apply (H (ModPso i m)); eauto with calls
  | H : keeps _ ?P |- preserves ?P (@db_modify global_property_object _ _ ?i ?m) =>
      apply (H (ModGpo i m)); eauto with calls
  | H : keeps _ ?P |- preserves ?P (@db_modify dynamic_global_property_object _ _ ?i ?m) =>
      apply (H (ModDgp i m)); eauto with calls
  | H : keeps _ ?P |- preserves ?P (@db_create producer_object _ _ ?c) =>
      apply preserves_create, (H (NewPo c)); eauto with calls
  | H : keeps _ ?P |- preserves ?P (@db_create ProducerVotesObject _ _ ?c) =>
      apply preserves_create, (H (NewPvo c)); eauto with calls
  | H : keeps _ ?P |- preserves ?P (@db_create process_hardfork_object _ _ ?c) =>
      apply preserves_create, (H (NewHf c)); eauto with calls
  | H : keeps _ ?P |- preserves ?P (db_remove ?i) => apply (H (DelPvo i)); eauto with calls
  end.

#[export] Hint Extern 1 (preserves (cc _) (update_st _)) => apply preserves_update_st; done : preserves.
#[export] Hint Extern 1 (preserves _ (db_modify _ _)) => use_call : preserves.
#[export] Hint Extern 1 (preserves _ (db_create _)) => use_call : preserves.
#[export] Hint Extern 1 (preserves _ (db_remove _)) => use_call : preserves.

(** Steps through a function body *)
Ltac preserve_step :=
  lazymatch goal with
  | |- forall _, _ => intros ?
  | |- preserves _ (_ ≫= _) => apply preserves_bind
  | |- preserves _ (for_each _ _) => apply preserves_for_each
  | |- preserves _ (try_catch _ _) => apply preserves_try
  | |- preserves _ (on_db _) => apply preserves_on_db
  | |- preserves _ (upd_producer _ _) => unfold upd_producer
  | |- preserves _ (match ?x with _ => _ end) => destruct x
  | |- preserves _ (let '_ := ?x in _) => destruct x
  | |- preserves _ _ => solve [eauto with preserves]
  end.
Ltac preserve := repeat (cbv zeta; preserve_step).

Lemma keeps_sub (f g : call -> Prop) P : (forall k, f k -> g k) -> keeps g P -> keeps f P.
Proof. intros Hs Hg k Hk. by apply Hg, Hs. Qed.

(** ** Footprints *)

Section Footprints.
Context (P : database -> Prop).

Lemma resetProducerRace_keeps : keeps sched_call P -> preserves P resetProducerRace.
Proof. intros H. unfold resetProducerRace. preserve. Qed.
#[local] Hint Resolve resetProducerRace_keeps : preserves.

Lemma pow_loop_keeps fuel : keeps sched_call P -> forall itr room round processed,
  preserves P (pow_loop fuel itr room round processed).
Proof.
  intros H. induction fuel as [|fuel IH]; intros [p|] [|room] round processed; cbn [pow_loop]; preserve; apply IH.
Qed.

Lemma lap_loop_keeps fuel : keeps sched_call P -> forall itr finish t, preserves P (lap_loop fuel itr finish t).
Proof. intros H. induction fuel as [|fuel IH]; intros [p|] finish t; cbn [lap_loop]; preserve; apply IH. Qed.
#[local] Hint Resolve pow_loop_keeps lap_loop_keeps : preserves.

Lemma update_race_keeps n : keeps sched_call P -> preserves P (update_race n).
Proof. intros H. unfold update_race. preserve. Qed.
#[local] Hint Resolve update_race_keeps : preserves.

Lemma calculateNextRound_keeps : keeps sched_call P -> preserves P calculateNextRound.
Proof. intros H. unfold calculateNextRound. preserve. Qed.
#[local] Hint Resolve calculateNextRound_keeps : preserves.

Lemma get_dgp_keeps : preserves (cc P) get_dynamic_global_properties.
Proof. unfold get_dynamic_global_properties. preserve. Qed.
Lemma get_gpo_keeps : preserves (cc P) get_global_properties.
Proof. unfold get_global_properties. preserve. Qed.
Lemma get_producer_keeps a : preserves (cc P) (get_producer a).
Proof. unfold get_producer. preserve. Qed.
#[local] Hint Resolve get_dgp_keeps get_gpo_keeps get_producer_keeps : preserves.

Lemma validate_keeps b : preserves (cc P) (validate_block_header b).
Proof. unfold validate_block_header. preserve. Qed.
Lemma process_block_header_keeps b : keeps header_call P -> preserves (cc P) (process_block_header b).
Proof. intros H. unfold process_block_header. preserve. Qed.
Lemma update_pow_op_keeps l t o : keeps pow_call P -> preserves (cc P) (update_pow_op l t o).
Proof. intros H. unfold update_pow_op. preserve. Qed.
#[local] Hint Resolve update_pow_op_keeps : preserves.
Lemma update_pow_keeps env : keeps pow_call P -> preserves (cc P) (update_pow env).
Proof. intros H. unfold update_pow. preserve. Qed.
Lemma update_pow_perblock_keeps env b : preserves (cc P) (update_pow_perblock env b).
Proof. unfold update_pow_perblock. preserve. Qed.
Lemma update_pvomi_one_keeps p : keeps vote_call P -> preserves (cc P) (update_pvomi_one p).
Proof. intros H. unfold update_pvomi_one. preserve. Qed.
Lemma remove_inactive_keeps p : keeps drop_call P -> preserves (cc P) (remove_inactive p).
Proof. intros H. unfold remove_inactive. preserve. Qed.
#[local] Hint Resolve update_pvomi_one_keeps remove_inactive_keeps : preserves.
Lemma update_pvomi_keeps env b :
  keeps vote_call P -> keeps drop_call P -> preserves (cc P) (update_pvomi_perblock env b).
Proof. intros H H'. unfold update_pvomi_perblock. preserve. Qed.

Lemma missed_slot_keeps b i : keeps (slot_call b) P -> preserves (cc P) (missed_slot b i).
Proof. intros H. unfold missed_slot. preserve. Qed.
#[local] Hint Resolve missed_slot_keeps : preserves.
Lemma update_global_dynamic_data_keeps b :
  keeps (slot_call b) P -> preserves (cc P) (update_global_dynamic_data b).
Proof. intros H. unfold update_global_dynamic_data. preserve. Qed.

Lemma count_votes_keeps l : forall v, preserves (cc P) (count_votes l v).
Proof. induction l as [|a l IH]; intros v; cbn [count_votes]; preserve; apply IH. Qed.
#[local] Hint Resolve count_votes_keeps : preserves.
Lemma update_hardfork_votes_keeps l : keeps round_call P -> preserves (cc P) (update_hardfork_votes l).
Proof. intros H. unfold update_hardfork_votes. preserve. Qed.
#[local] Hint Resolve update_hardfork_votes_keeps : preserves.

Lemma calculate_next_round_keeps b : keeps round_call P -> preserves (cc P) (calculate_next_round b).
Proof.
  intros H. assert (keeps sched_call P) by (eapply keeps_sub; [|exact H]; eauto with calls).
  unfold calculate_next_round. preserve.
Qed.
#[local] Hint Resolve calculate_next_round_keeps : preserves.

Lemma update_global_properties_keeps b : keeps round_call P -> preserves (cc P) (update_global_properties b).
Proof. intros H. unfold update_global_properties. preserve. Qed.
Lemma update_signing_keeps i b : keeps sign_call P -> preserves (cc P) (update_signing_producer i b).
Proof. intros H. unfold update_signing_producer. preserve. Qed.
Lemma get_producers_of_keeps l : preserves (cc P) (get_producers_of l).
Proof. induction l as [|a l IH]; cbn [get_producers_of]; preserve; apply IH. Qed.
Lemma apply_hardfork_keeps n : keeps hf_call P -> preserves (cc P) (apply_hardfork n).
Proof. intros H. unfold apply_hardfork. preserve. Qed.
#[local] Hint Resolve apply_hardfork_keeps : preserves.
Lemma process_hardforks_keeps n : keeps hf_call P -> preserves (cc P) (process_hardforks_ n).
Proof. intros H. induction n as [|n IH]; cbn [process_hardforks_]; preserve; apply IH. Qed.
End Footprints.

#[export] Hint Resolve calculateNextRound_keeps resetProducerRace_keeps get_dgp_keeps get_gpo_keeps
  get_producer_keeps validate_keeps process_block_header_keeps update_pow_keeps update_pow_op_keeps
  update_pow_perblock_keeps update_pvomi_one_keeps remove_inactive_keeps update_pvomi_keeps
  update_global_dynamic_data_keeps update_hardfork_votes_keeps calculate_next_round_keeps
  update_global_properties_keeps update_signing_keeps get_producers_of_keeps apply_hardfork_keeps
  process_hardforks_keeps : preserves.

(** ** What a call does to well-formed contents *)

Definition stable_call (k : call) : Prop :=
  match k with
  | ModPo i m => stable_op (Modify i m)
  | NewPo c => stable_op (Emplace c)
  | ModPvo i m => stable_op (Modify i m)
  | NewPvo c => stable_op (Emplace c)
  | DelPvo i => True
  | ModPso i m => stable_op (Modify i m)
  | ModGpo i m => stable_op (Modify i m)
  | ModDgp i m => stable_op (Modify i m)
  | NewHf c => stable_op (Emplace c)
  end.

Lemma sched_call_stable k : sched_call k -> stable_call k.
Proof. by destruct 1. Qed.
Lemma header_call_stable k : header_call k -> stable_call k.
Proof. by destruct 1. Qed.
Lemma pow_call_stable k : pow_call k -> stable_call k.
Proof. by destruct 1. Qed.
Lemma vote_call_stable k : vote_call k -> stable_call k.
Proof. by destruct 1. Qed.
Lemma drop_call_stable k : drop_call k -> stable_call k.
Proof. by destruct 1. Qed.
Lemma slot_call_stable b k : slot_call b k -> stable_call k.
Proof. by destruct 1. Qed.
Lemma round_call_stable k : round_call k -> stable_call k.
Proof. destruct 1; [by apply sched_call_stable|done..]. Qed.
Lemma sign_call_stable k : sign_call k -> stable_call k.
Proof. by destruct 1. Qed.
Lemma hf_call_stable k : hf_call k -> stable_call k.
Proof. by destruct 1. Qed.
#[export] Hint Resolve sched_call_stable header_call_stable pow_call_stable vote_call_stable drop_call_stable
  slot_call_stable round_call_stable sign_call_stable hf_call_stable : calls.
