(* ===== verification/DposUndo.v ===== *)
(** * Atomicity and reversion of the producer database

    The database under an open session represents a stack of snapshots, one per block that can
    be taken back ([in_session]).  Every function of the controller reaches the indices through
    creation, modification and removal with closures that keep ids and owner names, so it
    leaves the saved snapshots alone; [apply_block] may only shorten the stack, by the commit
    of the irreversible block. *)

From stdpp Require Import gmap sorting.
From S2P Require Import Prelude Words Exn Chainbase Producer ChainController DposCalls.

#[local] Open Scope Z_scope.

Abbreviation snaps V := (list (gmap Z V * Z * Z)).

Record saved_db := SavedDb {
  sv_gpo : snaps global_property_object;
  sv_dgp : snaps dynamic_global_property_object;
  sv_votes : snaps ProducerVotesObject;
  sv_schedule : snaps ProducerScheduleObject;
  sv_producers : snaps producer_object;
  sv_hardfork : snaps process_hardfork_object;
  sv_rev : Z
}.

(** The index is well formed and saves the snapshots [s] *)
Definition ix_session {V} `{!Indexed V} (s : snaps V) (r : Z) (g : generic_index V) : Prop :=
  exists c n, repr g (Snapshots c n r s).

Definition in_session (S : saved_db) (d : database) : Prop :=
  ix_session (sv_gpo S) (sv_rev S) (gpo_ix d) /\ ix_session (sv_dgp S) (sv_rev S) (dgp_ix d) /\
  ix_session (sv_votes S) (sv_rev S) (votes_ix d) /\ ix_session (sv_schedule S) (sv_rev S) (schedule_ix d) /\
  ix_session (sv_producers S) (sv_rev S) (producers_ix d) /\ ix_session (sv_hardfork S) (sv_rev S) (hardfork_ix d).

(** An object type of the database and its saved contents *)
Class Saved (V : Type) `{!Indexed V, !Stored V} := {
  saved_of : saved_db -> snaps V;
  session_get : forall S d, in_session S d -> ix_session (saved_of S) (sv_rev S) (get_ix d);
  session_put : forall S d g, in_session S d -> ix_session (saved_of S) (sv_rev S) g -> in_session S (put_ix g d)
}.

Ltac solve_saved := unfold in_session in *; cbn in *; tauto.

#[export] Instance gpo_saved : Saved global_property_object.
Proof. apply (Build_Saved _ _ _ sv_gpo); abstract (intros; solve_saved). Defined.
#[export] Instance dgp_saved : Saved dynamic_global_property_object.
Proof. apply (Build_Saved _ _ _ sv_dgp); abstract (intros; solve_saved). Defined.
#[export] Instance votes_saved : Saved ProducerVotesObject.
Proof. apply (Build_Saved _ _ _ sv_votes); abstract (intros; solve_saved). Defined.
#[export] Instance schedule_saved : Saved ProducerScheduleObject.
Proof. apply (Build_Saved _ _ _ sv_schedule); abstract (intros; solve_saved). Defined.
#[export] Instance producers_saved : Saved producer_object.
Proof. apply (Build_Saved _ _ _ sv_producers); abstract (intros; solve_saved). Defined.
#[export] Instance hardfork_saved : Saved process_hardfork_object.
Proof. apply (Build_Saved _ _ _ sv_hardfork); abstract (intros; solve_saved). Defined.

(** ** Index calls under a session *)

Section IndexCalls.
Context {V : Type} `{!Indexed V}.

Lemma session_op s r o g : stable_op o -> ix_session s r g ->
  (forall a, srev (spec_op o a).1 = srev a /\ saved (spec_op o a).1 = saved a) ->
  ix_session s r (exec_op o g).1.
Proof.
  intros Ho (c & n & Hr) Hkeep. destruct (exec_repr o g _ Ho Hr) as [_ Hr'].
  destruct (Hkeep (Snapshots c n r s)) as [E1 E2].
  destruct (spec_op o (Snapshots c n r s)).1 as [c' n' r' s'] eqn:E. cbn in *. subst. by exists c', n'.
Qed.

Lemma emplace_session s r c : (forall v, obj_id (c v).1 = obj_id v) -> preserves (ix_session s r) (emplace c).
Proof.
  intros Hc g Hg. assert (H := session_op s r (Emplace c) g Hc Hg). cbn [exec_op] in H.
  unfold discard, mbind, M_bind in H. destruct (emplace c g) as [g' [v|e]]; cbn in *; apply H;
  (intros [? ? ? ?]; cbn; destruct (c _) as [? [?|]]; [done|]; by case_decide).
Qed.

Lemma modify_session s r i m : (forall v, obj_id (m v).1 = obj_id v /\ ukey (m v).1 = ukey v) ->
  preserves (ix_session s r) (modify i m).
Proof.
  intros Hm g Hg. apply (session_op s r (Modify i m) g Hm Hg).
  intros [c ? ? ?]. cbn. by destruct (c !! i).
Qed.

Lemma remove_session s r i : preserves (ix_session s r) (remove i).
Proof.
  intros g Hg. apply (session_op s r (Remove i) g I Hg). intros [c ? ? ?]. cbn. by destruct (c !! i).
Qed.
End IndexCalls.

Section DbCalls.
Context {V : Type} `{!Indexed V, !Stored V, !Saved V}.

Lemma on_index_session S {A} (m : M (generic_index V) A) :
  preserves (ix_session (saved_of S) (sv_rev S)) m -> preserves (in_session S) (on_index m).
Proof.
  intros Hm d Hd. unfold on_index. specialize (Hm (get_ix d) (session_get S d Hd)).
  destruct (m (get_ix d)) as [g r]. by apply session_put.
Qed.

Lemma db_create_session S c : (forall v, obj_id (c v).1 = obj_id v) -> preserves (in_session S) (db_create c).
Proof. intros Hc. by apply on_index_session, emplace_session. Qed.

Lemma db_modify_session S i m : (forall v, obj_id (m v).1 = obj_id v /\ ukey (m v).1 = ukey v) ->
  preserves (in_session S) (db_modify i m).
Proof. intros Hc. by apply on_index_session, modify_session. Qed.

Lemma db_remove_session S i : preserves (in_session S) (db_remove i).
Proof. by apply on_index_session, remove_session. Qed.

End DbCalls.

Lemma session_keeps S (calls : call -> Prop) : (forall k, calls k -> stable_call k) -> keeps calls (in_session S).
Proof.
  intros Hs k Hk. specialize (Hs k Hk). destruct k; cbn in *;
    first [ by apply db_modify_session | by apply db_remove_session
          | apply preserves_bind; [by apply db_create_session|intros ?; apply preserves_ret] ].
Qed.
#[export] Hint Resolve session_keeps : calls.

(** [apply_block] in two parts: all that precedes the commit of the irreversible block, and
    the rest *)
Definition before_commit (env : chain_env) (b : BlockHeader) : M chain_controller unit :=
  signing_producer ← validate_block_header b;
  process_block_header b;;
  update_pow_perblock env b;;
  update_pow env;;
  update_pvomi_perblock env b;;
  update_global_dynamic_data b;;
  update_global_properties b;;
  update_signing_producer (po_id signing_producer) b.

Lemma before_commit_session S env b : preserves (cc (in_session S)) (before_commit env b).
Proof. unfold before_commit. preserve; eauto 6 with preserves calls. Qed.

Lemma apply_block_split env b c :
  apply_block env b c =
    (before_commit env b;; update_last_irreversible_block env;; process_hardforks) c.
Proof.
  unfold apply_block, before_commit, mbind, M_bind.
  repeat match goal with
  | |- context [match ?m ?s with (_, _) => _ end] => destruct (m s) as [? [?|?]]; try reflexivity
  end.
Qed.

(** ** Histories *)

(** Contents and next id of every index *)
Record db_image := Image {
  im_gpo : gmap Z global_property_object * Z;
  im_dgp : gmap Z dynamic_global_property_object * Z;
  im_votes : gmap Z ProducerVotesObject * Z;
  im_schedule : gmap Z ProducerScheduleObject * Z;
  im_producers : gmap Z producer_object * Z;
  im_hardfork : gmap Z process_hardfork_object * Z
}.

Definition ix_image {V} (g : generic_index V) : gmap Z V * Z := (_indices g, _next_id g).

Definition image (d : database) : db_image :=
  Image (ix_image (gpo_ix d)) (ix_image (dgp_ix d)) (ix_image (votes_ix d))
        (ix_image (schedule_ix d)) (ix_image (producers_ix d)) (ix_image (hardfork_ix d)).

(** Snapshots with the revisions [r], [r - 1], ... *)
Fixpoint stamped {V} (r : Z) (l : list (gmap Z V * Z)) : snaps V :=
  match l with
  | [] => []
  | x :: l => (x, r) :: stamped (r - 1) l
  end.

Definition saved_hist (r : Z) (hist : list db_image) : saved_db :=
  SavedDb (stamped r (map im_gpo hist)) (stamped r (map im_dgp hist)) (stamped r (map im_votes hist))
    (stamped r (map im_schedule hist)) (stamped r (map im_producers hist)) (stamped r (map im_hardfork hist)) r.

(** The database is at revision [r] and can be taken back to the images [hist], newest first *)
Definition Hist (r : Z) (hist : list db_image) (d : database) : Prop := in_session (saved_hist r hist) d.

Section IndexHistory.
Context {V : Type} `{!Indexed V}.

Lemma start_session r l (g : generic_index V) :
  ix_session (stamped r l) r g -> ix_session (stamped (r + 1) (ix_image g :: l)) (r + 1) (start_undo_session g).
Proof.
  intros (c & n & Hr). destruct (exec_repr Start g _ I Hr) as [_ Hr'].
  exists c, n. cbn in Hr'. cbn [stamped]. rewrite Z.add_simpl_r.
  unfold ix_image. rewrite (re_cur _ _ Hr), (re_next _ _ Hr). exact Hr'.
Qed.

Lemma undo_session r x l (g : generic_index V) : ix_session (stamped r (x :: l)) r g ->
  exists g', undo g = (g', inl tt) /\ ix_image g' = x /\ ix_session (stamped (r - 1) l) (r - 1) g'.
Proof.
  intros (c & n & Hr). destruct (undo_repr g _ Hr) as (g' & Hg & Hr' & _).
  destruct x as [c0 n0]. cbn in Hr'. exists g'. split; [done|]. split; [|by exists c0, n0].
  unfold ix_image. by rewrite (re_cur _ _ Hr'), (re_next _ _ Hr').
Qed.

Lemma undo_session_nil r (g : generic_index V) : ix_session [] r g -> undo g = (g, inl tt).
Proof.
  intros (c & n & Hr). pose proof (re_stack _ _ Hr) as Hs. cbn in Hs.
  destruct (_stack g) as [|u us] eqn:E; [|inversion Hs]. unfold undo.
  erewrite bind_inl by reflexivity. by rewrite E.
Qed.

Lemma drop_committed_last k s (y : gmap Z V * Z * Z) : k < y.2 ->
  drop_committed k (s ++ [y]) = drop_committed k s ++ [y].
Proof.
  intros Hy. induction s as [|x s IH]; cbn; [by rewrite decide_False by lia|]. by case_decide.
Qed.

Lemma drop_committed_all k (s : snaps V) : Forall (fun x => x.2 <= k) s -> drop_committed k s = [].
Proof. induction 1 as [|x s Hx _ IH]; [done|]. cbn. by rewrite decide_True. Qed.

Lemma stamped_le r (l : list (gmap Z V * Z)) : Forall (fun x => x.2 <= r) (stamped r l).
Proof.
  revert r. induction l as [|x l IH]; intros r; cbn; constructor; [cbn; lia|].
  eapply Forall_impl; [|apply IH]. cbn. lia.
Qed.

Lemma commit_stamped k r (l : list (gmap Z V * Z)) :
  rev (drop_committed k (rev (stamped r l))) = stamped r (take (Z.to_nat (r - k)) l).
Proof.
  revert r. induction l as [|x l IH]; intros r; [by rewrite take_nil|].
  destruct (decide (k < r)) as [Hlt|Hge].
  - cbn [stamped rev]. rewrite drop_committed_last by done. rewrite rev_app_distr. cbn.
    rewrite IH. replace (Z.to_nat (r - k)) with (S (Z.to_nat (r - 1 - k))) by lia. done.
  - replace (Z.to_nat (r - k)) with O by lia. cbn [take]. rewrite drop_committed_all; [done|].
    apply Forall_rev. eapply Forall_impl; [|apply stamped_le]. cbn. lia.
Qed.

Lemma commit_session k r l (g : generic_index V) :
  ix_session (stamped r l) r g -> ix_session (stamped r (take (Z.to_nat (r - k)) l)) r (commit k g).
Proof.
  intros (c & n & Hr). destruct (exec_repr (Commit k) g _ I Hr) as [_ Hr'].
  exists c, n. cbn in Hr'. by rewrite commit_stamped in Hr'.
Qed.
End IndexHistory.

Lemma Hist_start r hist d : Hist r hist d -> Hist (r + 1) (image d :: hist) (db_start_undo_session d).
Proof.
  intros (H1 & H2 & H3 & H4 & H5 & H6). repeat split; by apply start_session.
Qed.

Lemma Hist_commit k r hist d : Hist r hist d -> Hist r (take (Z.to_nat (r - k)) hist) (db_commit k d).
Proof.
  intros (H1 & H2 & H3 & H4 & H5 & H6).
  repeat split; cbn; rewrite <- firstn_map; by apply commit_session.
Qed.

Lemma image_commit k d : image (db_commit k d) = image d.
Proof. done. Qed.

Lemma on_index_inl {V} `{!Indexed V, !Stored V} {A} (m : M (generic_index V) A) d g a :
  m (get_ix d) = (g, inl a) -> on_index m d = (put_ix g d, inl a).
Proof. intros H. unfold on_index. by rewrite H. Qed.

Lemma Hist_undo r im hist d : Hist r (im :: hist) d ->
  exists d', db_undo d = (d', inl tt) /\ image d' = im /\ Hist (r - 1) hist d'.
Proof.
  intros (H1 & H2 & H3 & H4 & H5 & H6).
  apply undo_session in H1 as (g1 & E1 & I1 & H1). apply undo_session in H2 as (g2 & E2 & I2 & H2).
  apply undo_session in H3 as (g3 & E3 & I3 & H3). apply undo_session in H4 as (g4 & E4 & I4 & H4).
  apply undo_session in H5 as (g5 & E5 & I5 & H5). apply undo_session in H6 as (g6 & E6 & I6 & H6).
  exists (Db g1 g2 g3 g4 g5 g6). split; [|split; [|by repeat split]].
  - unfold db_undo. do 5 (erewrite bind_inl; [|by apply on_index_inl]).
    exact (on_index_inl (V:=process_hardfork_object) undo (Db g1 g2 g3 g4 g5 (hardfork_ix d)) _ _ E6).
  - unfold image. cbn. rewrite I1, I2, I3, I4, I5, I6. by destruct im.
Qed.

Lemma Hist_undo_nil r d : Hist r [] d -> db_undo d = (d, inl tt).
Proof.
  intros (H1 & H2 & H3 & H4 & H5 & H6). apply undo_session_nil in H1, H2, H3, H4, H5, H6.
  unfold db_undo, on_index, mbind, M_bind. destruct d as [g1 g2 g3 g4 g5 g6]. cbn in *.
  rewrite H1. cbn. rewrite H2. cbn. rewrite H3. cbn. rewrite H4. cbn. rewrite H5. cbn. by rewrite H6.
Qed.

(** ** The dynamic global properties *)

Lemma on_index_fst {V} `{!Indexed V, !Stored V} {A} (m : M (generic_index V) A) d :
  (on_index m d).1 = put_ix (m (get_ix d)).1 d.
Proof. unfold on_index. by destruct (m (get_ix d)). Qed.

Section ModifyAt.
Context {V : Type} `{!Indexed V, !Stored V, !Saved V}.

Lemma db_modify_at S d i m (v : V) :
  in_session S d -> objects V d !! i = Some v -> stable_op (Modify i m) ->
  exists g, db_modify i m d = (put_ix g d, from_option inr (inl tt) (m v).2) /\
    _indices g = <[i := (m v).1]> (objects V d) /\ _next_id g = _next_id (get_ix d) /\
    in_session S (put_ix g d).
Proof.
  intros Hd Hv Hm. pose proof (db_modify_session S i m Hm d Hd) as Hd'. destruct (session_get S d Hd) as (c & n & Hr).
  destruct (exec_repr (Modify i m) _ _ Hm Hr) as [E Hr'].
  pose proof (re_cur _ _ Hr) as Ec. pose proof (re_next _ _ Hr) as En.
  cbn in Ec, En, E, Hr'. unfold objects in *. rewrite <- Ec, Hv in E, Hr'. cbn in E, Hr'.
  exists (modify i m (get_ix d)).1. unfold db_modify in *. rewrite on_index_fst in Hd'. unfold on_index.
  pose proof (re_cur _ _ Hr') as Ec'. pose proof (re_next _ _ Hr') as En'. cbn in Ec', En'.
  destruct (modify i m (get_ix d)) as [g r]. cbn in *. subst r. rewrite En', <- En. done.
Qed.
End ModifyAt.

Definition dgp_sat (S : saved_db) (Q : dynamic_global_property_object -> Prop) (d : database) : Prop :=
  in_session S d /\ exists g, objects dynamic_global_property_object d !! 0 = Some g /\ Q g.

Definition dgp_call_ok (Q : dynamic_global_property_object -> Prop) (k : call) : Prop :=
  stable_call k /\
  match k with ModDgp i m => i = 0 /\ forall g, Q g -> Q (m g).1 | _ => True end.

Lemma dgp_keeps S Q (calls : call -> Prop) : (forall k, calls k -> dgp_call_ok Q k) -> keeps calls (dgp_sat S Q).
Proof.
  intros Hc k Hk d (Hd & g & Hg & Hq). destruct (Hc k Hk) as [Hs Hok].
  assert (Hd' : in_session S (run_call k d).1).
  { apply (session_keeps S (fun k => stable_call k)); done. }
  split; [exact Hd'|]. destruct k; cbn [run_call] in *;
    try (unfold db_modify, db_remove; rewrite on_index_fst; by exists g);
    try (unfold db_create, mbind, M_bind, on_index; destruct (emplace _ _) as [? [?|?]]; by exists g).
  destruct Hok as [-> Hok]. destruct (db_modify_at S d 0 m g Hd Hg Hs) as (g' & -> & E & _).
  exists (m g).1. cbn. unfold objects. cbn. rewrite E, lookup_insert_eq. auto.
Qed.

(** The calls of a block before [update_global_dynamic_data], and after it, as far as the
    head and the irreversible block are concerned *)
Definition lib_is n (g : dynamic_global_property_object) : Prop := last_irreversible_block_num g = n.
Definition head_lib n l (g : dynamic_global_property_object) : Prop :=
  head_block_number g = n /\ last_irreversible_block_num g = l.

Ltac solve_dgp_calls :=
  intros k Hk; split; [eauto with calls|];
  destruct Hk; try match goal with H : sched_call _ |- _ => destruct H end; try exact I; (split; [done|]);
  intros ?; unfold lib_is, head_lib, dec_num_pow; cbn; tauto.

Lemma header_head_lib S n l : keeps header_call (dgp_sat S (head_lib n l)).
Proof. apply dgp_keeps. solve_dgp_calls. Qed.
Lemma pow_head_lib S n l : keeps pow_call (dgp_sat S (head_lib n l)).
Proof. apply dgp_keeps. solve_dgp_calls. Qed.
Lemma vote_head_lib S n l : keeps vote_call (dgp_sat S (head_lib n l)).
Proof. apply dgp_keeps. solve_dgp_calls. Qed.
Lemma drop_head_lib S n l : keeps drop_call (dgp_sat S (head_lib n l)).
Proof. apply dgp_keeps. solve_dgp_calls. Qed.
Lemma round_head_lib S n l : keeps round_call (dgp_sat S (head_lib n l)).
Proof. apply dgp_keeps. solve_dgp_calls. Qed.
Lemma sign_head_lib S n l : keeps sign_call (dgp_sat S (head_lib n l)).
Proof. apply dgp_keeps. solve_dgp_calls. Qed.
Lemma hf_head_lib S n l : keeps hf_call (dgp_sat S (head_lib n l)).
Proof. apply dgp_keeps. solve_dgp_calls. Qed.
Lemma slot_lib S b l : keeps (slot_call b) (dgp_sat S (lib_is l)).
Proof. apply dgp_keeps. solve_dgp_calls. Qed.
#[export] Hint Resolve header_head_lib pow_head_lib vote_head_lib drop_head_lib round_head_lib sign_head_lib
  hf_head_lib slot_lib : calls.

(** ** A block that is applied *)

Lemma update_data_head S b l :
  ensures (cc (dgp_sat S (lib_is l))) (update_global_dynamic_data b)
    (fun _ => cc (dgp_sat S (head_lib (number b) l))).
Proof.
  unfold update_global_dynamic_data.
  apply ensures_step; [eauto with preserves|]. intros dgp. cbv zeta.
  apply ensures_step; [apply preserves_for_each; intros; apply missed_slot_keeps; auto with calls|].
  intros _ c c' [] (Hd & g & Hg & Hq) E. unfold on_db in E. set (mb := u32 _) in E.
  destruct (db_modify_at S (_db c) 0 (pure_mod (new_dynamic_data b mb)) g Hd Hg
    ltac:(done)) as (g' & Em & Ei & _ & Hs).
  rewrite Em in E. injection E as <-. split; [exact Hs|].
  eexists. cbn. unfold objects. cbn. rewrite Ei, lookup_insert_eq. split; [done|]. by split.
Qed.

Lemma dgp_sat_weaken S (Q Q' : dynamic_global_property_object -> Prop) d :
  (forall g, Q g -> Q' g) -> dgp_sat S Q d -> dgp_sat S Q' d.
Proof. intros HQ (Hd & g & Hg & Hq). split; [done|]. eauto. Qed.

Lemma before_commit_head S env b n l :
  ensures (cc (dgp_sat S (head_lib n l))) (before_commit env b)
    (fun _ => cc (dgp_sat S (head_lib (number b) l))).
Proof.
  unfold before_commit.
  apply ensures_step; [auto with preserves|]. intros p.
  do 4 (apply ensures_step; [auto with preserves calls|]; intros _).
  apply (ensures_bind _ _ (fun _ => cc (dgp_sat S (head_lib (number b) l)))); [|intros _].
  { eapply ensures_impl; [apply (update_data_head S b l)| |done].
    intros c. apply dgp_sat_weaken. by intros g [_ ?]. }
  apply ensures_step; [auto with preserves calls|]. intros _.
  apply ensures_preserves. auto with preserves calls.
Qed.

Lemma get_gpo_state c c' g : get_global_properties c = (c', inl g) -> c' = c.
Proof. unfold get_global_properties, on_db, db_get. cbn. intros [= <- _]. by destruct c. Qed.
Lemma get_dgp_state c c' g : get_dynamic_global_properties c = (c', inl g) ->
  c' = c /\ objects dynamic_global_property_object (_db c) !! 0 = Some g.
Proof.
  unfold get_dynamic_global_properties, on_db, db_get, db_find. cbn. intros [= <- E].
  split; [by destruct c|]. destruct (_ !! 0); congruence.
Qed.

Lemma update_lib_hist env r hist n l :
  ensures (fun c => Hist r hist (_db c) /\ dgp_sat (saved_hist r hist) (head_lib n l) (_db c))
    (update_last_irreversible_block env)
    (fun _ c => exists k l', l <= l' /\ k <= l' /\
       dgp_sat (saved_hist r (take (Z.to_nat (r - k)) hist)) (head_lib n l') (_db c)).
Proof.
  intros c c' [] [Hh Hdgp] E. unfold update_last_irreversible_block, mbind, M_bind in E.
  destruct (get_global_properties c) as [c1 [gpo|]] eqn:E1; [|done].
  apply get_gpo_state in E1 as ->.
  destruct (get_dynamic_global_properties c) as [c1 [dpo|]] eqn:E2; [|done].
  apply get_dgp_state in E2 as [-> Hdpo].
  destruct (get_producers_of (active_producers gpo) c) as [c1 [ps|]] eqn:E3; [|done].
  assert (Hc1 : cc (dgp_sat (saved_hist r hist) (eq dpo)) c1).
  { pose proof (get_producers_of_keeps (dgp_sat (saved_hist r hist) (eq dpo)) (active_producers gpo) c) as H.
    rewrite E3 in H. apply H. destruct Hdgp as [Hs _]. split; [done|]. by exists dpo. }
  destruct Hdgp as (Hs & g & Hg & Hn & Hl). rewrite Hdpo in Hg. injection Hg as <-.
  destruct (merge_sort confirmed_le ps !! _) as [p|]; [|done].
  set (k := last_confirmed_block_num p) in *. destruct Hc1 as (Hs1 & dpo' & Hd1 & <-).
  destruct (last_irreversible_block_num dpo <? k) eqn:Ek; unfold mret, M_ret in E.
  - destruct (db_modify_at _ _ 0 (pure_mod (set_lib k)) dpo Hs1 Hd1 ltac:(done)) as (g' & Em & Ei & _ & Hs2).
    unfold on_db in E. rewrite Em in E. cbn in E. injection E as <-.
    exists k, k. split; [lia|]. split; [lia|]. split; [by apply Hist_commit|].
    exists (set_lib k dpo). cbn. unfold objects. cbn. rewrite Ei, lookup_insert_eq. done.
  - unfold on_db in E. cbn in E. injection E as <-. exists k, l. split; [lia|]. split; [lia|].
    split; [by apply Hist_commit|]. exists dpo. done.
Qed.

Lemma update_lib_throws env S c c' e :
  in_session S (_db c) -> update_last_irreversible_block env c = (c', inr e) -> in_session S (_db c').
Proof.
  intros Hc E. unfold update_last_irreversible_block, mbind, M_bind in E.
  pose proof (get_gpo_keeps (in_session S) c Hc) as H1.
  destruct (get_global_properties c) as [c1 [gpo|]]; [|by injection E as <-].
  pose proof (get_dgp_keeps (in_session S) c1 H1) as H2.
  destruct (get_dynamic_global_properties c1) as [c2 [dpo|]]; [|by injection E as <-].
  pose proof (get_producers_of_keeps (in_session S) (active_producers gpo) c2 H2) as H3.
  destruct (get_producers_of (active_producers gpo) c2) as [c3 [ps|]]; [|by injection E as <-].
  destruct (merge_sort confirmed_le ps !! _) as [p|]; [|by injection E as <-].
  destruct (_ <? _); [|done].
  assert (H4 : preserves (cc (in_session S)) (on_db (db_modify 0 (pure_mod (set_lib (last_confirmed_block_num p))))))
    by (by apply preserves_on_db, db_modify_session).
  specialize (H4 c3 H3).
  destruct (on_db _ c3) as [c4 [u|]]; [done|by injection E as <-].
Qed.

Lemma on_db_start c : on_db (update_st db_start_undo_session) c =
  (set_db (db_start_undo_session (_db c)) c, inl tt).
Proof. done. Qed.

Lemma on_db_undo c (d : database) : db_undo (_db c) = (d, inl tt) ->
  on_db db_undo c = (set_db d c, inl tt).
Proof. intros E. unfold on_db. by rewrite E. Qed.

Lemma push_block_ok env b n l r hist c c' :
  dgp_sat (saved_hist r hist) (head_lib n l) (_db c) -> push_block env b c = (c', inl tt) ->
  exists k l', l <= l' /\ k <= l' /\
    dgp_sat (saved_hist (r + 1) (take (Z.to_nat (r + 1 - k)) (image (_db c) :: hist)))
      (head_lib (number b) l') (_db c').
Proof.
  intros (Hh & g & Hg & Hq) E. unfold push_block in E. erewrite bind_inl in E by apply on_db_start.
  set (c0 := set_db _ c) in E. unfold try_catch in E. rewrite apply_block_split in E.
  assert (H0 : dgp_sat (saved_hist (r + 1) (image (_db c) :: hist)) (head_lib n l) (_db c0)).
  { split; [by apply Hist_start|]. exists g. done. }
  unfold mbind, M_bind in E.
  destruct (before_commit env b c0) as [c1 [[]|e1]] eqn:E1.
  2:{ unfold throw in E. destruct (on_db db_undo c1) as [? [|]]; done. }
  pose proof (before_commit_head _ env b n l c0 c1 tt H0 E1) as H1.
  destruct (update_last_irreversible_block env c1) as [c2 [[]|e2]] eqn:E2.
  2:{ unfold throw in E. destruct (on_db db_undo c2) as [? [|]]; done. }
  destruct (update_lib_hist env (r + 1) (image (_db c) :: hist) (number b) l c1 c2 tt (conj (proj1 H1) H1) E2)
    as (k & l' & Hl & Hk & H2).
  pose proof (process_hardforks_keeps _ (Z.to_nat ETI_HardforkNum) (hf_head_lib _ (number b) l') c2 H2) as H3.
  fold process_hardforks in H3.
  destruct (process_hardforks c2) as [c3 [[]|e3]].
  - injection E as <-. eauto.
  - unfold throw in E. destruct (on_db db_undo c3) as [? [|]]; done.
Qed.

(** What an exception leaves behind *)
Lemma push_block_error env b r hist c c' e n l :
  dgp_sat (saved_hist r hist) (head_lib n l) (_db c) -> push_block env b c = (c', inr e) ->
  (image (_db c') = image (_db c) /\ exists j, Hist r (take j hist) (_db c')) \/
  (exists c1, process_hardforks c1 = (c', inr e) /\ Hist (r + 1) [] (_db c')).
Proof.
  intros (Hh & g & Hg & Hq) E. unfold push_block in E. erewrite bind_inl in E by apply on_db_start.
  set (c0 := set_db _ c) in E. unfold try_catch in E. rewrite apply_block_split in E.
  assert (H0 : dgp_sat (saved_hist (r + 1) (image (_db c) :: hist)) (head_lib n l) (_db c0)).
  { split; [by apply Hist_start|]. exists g. done. }
  assert (Hundo : forall c1 e1 j, Hist (r + 1) (image (_db c) :: take j hist) (_db c1) ->
    (on_db db_undo;; throw (A:=unit) e1) c1 = (c', inr e) ->
    image (_db c') = image (_db c) /\ exists j, Hist r (take j hist) (_db c')).
  { intros c1 e1 j Hc1 Ec1. destruct (Hist_undo _ _ _ _ Hc1) as (d & Ed & Hi & Hd).
    erewrite bind_inl in Ec1 by (apply on_db_undo; exact Ed).
    injection Ec1 as <- _. split; [done|]. exists j. by rewrite Z.add_simpl_r in Hd. }
  destruct ((before_commit env b;; update_last_irreversible_block env;; process_hardforks) c0)
    as [cx [[]|ex]] eqn:Ex; [done|]. unfold mbind, M_bind in Ex.
  pose proof (before_commit_session _ env b c0 (proj1 H0)) as Hs1.
  destruct (before_commit env b c0) as [c1 [[]|e1]] eqn:E1.
  2:{ left. injection Ex as -> ->. apply (Hundo _ _ (length hist)) in E; [done|]. by rewrite take_ge. }
  pose proof (before_commit_head _ env b n l c0 c1 tt H0 E1) as H1.
  destruct (update_last_irreversible_block env c1) as [c2 [[]|e2]] eqn:E2.
  2:{ left. pose proof (update_lib_throws _ _ _ _ _ Hs1 E2) as Hs2. injection Ex as -> ->.
      apply (Hundo _ _ (length hist)) in E; [done|]. by rewrite take_ge. }
  destruct (update_lib_hist env (r + 1) (image (_db c) :: hist) (number b) l c1 c2 tt (conj (proj1 H1) H1) E2)
    as (k & l' & Hl & Hk & H2).
  pose proof (process_hardforks_keeps _ (Z.to_nat ETI_HardforkNum) (hf_head_lib _ (number b) l') c2 H2) as H3.
  fold process_hardforks in H3. rewrite Ex in H3. destruct H3 as [H3 _].
  destruct (Z.to_nat (r + 1 - k)) as [|j] eqn:Ej.
  - right. pose proof (Hist_undo_nil _ _ H3) as Hu.
    erewrite bind_inl in E by (apply on_db_undo; exact Hu).
    injection E as <- <-. exists c2. by destruct cx.
  - left. by apply (Hundo _ _ j) in E.
Qed.

(** ** Reversion *)

Definition image_head (im : db_image) : option Z := head_block_number <$> (im_dgp im).1 !! 0.

(** The revision is the number of the head block, and the saved images are those of the
    blocks before it *)
Definition aligned (r : Z) (hist : list db_image) (d : database) : Prop :=
  Hist r hist d /\ image_head (image d) = Some r /\
  forall j im, hist !! j = Some im -> image_head im = Some (r - 1 - Z.of_nat j).

Definition lib_of (d : database) : option Z :=
  last_irreversible_block_num <$> objects dynamic_global_property_object d !! 0.

Lemma aligned_sat r hist d l : aligned r hist d -> lib_of d = Some l ->
  dgp_sat (saved_hist r hist) (head_lib r l) d.
Proof.
  intros (Hh & Hi & _) Hl. split; [done|]. unfold image_head, lib_of in *. cbn in Hi.
  unfold objects in *. cbn in *. destruct (_ !! 0) as [g|]; [|done]. cbn in *.
  exists g. split; [done|]. split; congruence.
Qed.

Lemma sat_head_lib S n l d : dgp_sat S (head_lib n l) d -> image_head (image d) = Some n /\ lib_of d = Some l.
Proof.
  intros (_ & g & Hg & <- & <-). unfold image_head, lib_of, objects in *. cbn in *. by rewrite Hg.
Qed.

Lemma push_aligned env b r hist c c' l :
  aligned r hist (_db c) -> lib_of (_db c) = Some l -> number b = r + 1 -> push_block env b c = (c', inl tt) ->
  exists k l', l <= l' /\ k <= l' /\ lib_of (_db c') = Some l' /\
    aligned (r + 1) (take (Z.to_nat (r + 1 - k)) (image (_db c) :: hist)) (_db c').
Proof.
  intros Ha Hl Hn E. pose proof Ha as (_ & Hi & Hhist).
  destruct (push_block_ok env b r l r hist c c' (aligned_sat _ _ _ _ Ha Hl) E) as (k & l' & H1 & H2 & H3).
  destruct (sat_head_lib _ _ _ _ H3) as [Hi' Hl']. exists k, l'. split; [done|]. split; [done|]. split; [done|].
  split; [by destruct H3|]. split; [by rewrite Hi', Hn|].
  intros j im Hj. apply lookup_take_Some in Hj as [Hj _]. destruct j as [|j]; cbn in Hj.
  - injection Hj as <-. rewrite Hi. f_equal. lia.
  - rewrite (Hhist j im Hj). f_equal. lia.
Qed.

Fixpoint push_blocks (bs : list (chain_env * BlockHeader)) : M chain_controller unit :=
  match bs with
  | [] => mret tt
  | (env, b) :: bs => push_block env b;; push_blocks bs
  end.

(** The images before each block *)
Fixpoint push_images (bs : list (chain_env * BlockHeader)) (c : chain_controller) : list db_image :=
  match bs with
  | [] => []
  | (env, b) :: bs => image (_db c) :: push_images bs (push_block env b c).1
  end.

Lemma push_images_lookup bs : forall c k ck, (k < length bs)%nat ->
  push_blocks (take k bs) c = (ck, inl tt) -> push_images bs c !! k = Some (image (_db ck)).
Proof.
  induction bs as [|[env b] bs IH]; intros c [|k] ck Hk E; cbn in *; try lia.
  - by injection E as <-.
  - unfold mbind, M_bind in E. destruct (push_block env b c) as [c1 [[]|e]]; [|done].
    apply IH; [lia|done].
Qed.

Lemma push_images_length bs c : length (push_images bs c) = length bs.
Proof. revert c. induction bs as [|[env b] bs IH]; intros c; cbn; [done|]. by rewrite IH. Qed.

Lemma push_blocks_hist bs : forall c c' r hist l,
  aligned r hist (_db c) -> lib_of (_db c) = Some l ->
  (forall i x, bs !! i = Some x -> number x.2 = r + 1 + Z.of_nat i) ->
  push_blocks bs c = (c', inl tt) ->
  exists hist' l', aligned (r + Z.of_nat (length bs)) hist' (_db c') /\ lib_of (_db c') = Some l' /\ l <= l' /\
    forall j, l' <= r + Z.of_nat (length bs) - 1 - Z.of_nat j ->
      hist' !! j = (reverse (push_images bs c) ++ hist) !! j.
Proof.
  induction bs as [|[env b] bs IH]; intros c c' r hist l Ha Hl Hn E.
  - injection E as <-. exists hist, l. cbn. rewrite Z.add_0_r. split; [done|]. split; [done|]. split; [lia|done].
  - cbn [push_blocks] in E. unfold mbind, M_bind in E.
    destruct (push_block env b c) as [c1 [[]|e]] eqn:E1; [|done].
    assert (Hb : number b = r + 1) by (pose proof (Hn O (env, b) eq_refl); cbn in *; lia).
    destruct (push_aligned env b r hist c c1 l Ha Hl Hb E1) as (k & l1 & H1 & H2 & Hl1 & Ha1).
    destruct (IH c1 c' (r + 1) _ l1 Ha1 Hl1) as (hist' & l' & Ha' & Hl' & Hle & Hj); [|done|].
    { intros i x Hx. rewrite (Hn (S i) x Hx). lia. }
    exists hist', l'. cbn [length].
    replace (r + Z.of_nat (S (length bs))) with (r + 1 + Z.of_nat (length bs)) by lia.
    split; [done|]. split; [done|]. split; [lia|]. intros j Hlj. rewrite (Hj j Hlj).
    cbn [push_images]. rewrite E1. cbn [fst]. rewrite reverse_cons, <- app_assoc. cbn.
    destruct (decide (j < length (reverse (push_images bs c1)))%nat) as [Hlt|Hge].
    + by rewrite !lookup_app_l.
    + rewrite !lookup_app_r by lia. apply lookup_take_lt.
      rewrite length_reverse, push_images_length in *. lia.
Qed.

Lemma aligned_undo r im hist d : aligned r (im :: hist) d ->
  exists d', db_undo d = (d', inl tt) /\ image d' = im /\ aligned (r - 1) hist d'.
Proof.
  intros (Hh & Hi & Hhist). destruct (Hist_undo _ _ _ _ Hh) as (d' & Ed & Him & Hh').
  exists d'. split; [done|]. split; [done|]. split; [done|]. split.
  - rewrite Him, (Hhist O im eq_refl). f_equal. lia.
  - intros j x Hx. rewrite (Hhist (S j) x Hx). f_equal. lia.
Qed.

Lemma image_head_get c r : image_head (image (_db c)) = Some r ->
  exists g, get_dynamic_global_properties c = (c, inl g) /\ head_block_number g = r.
Proof.
  intros Hi. unfold image_head, get_dynamic_global_properties, on_db, db_get, db_find, objects in *. cbn in *.
  destruct (_ !! 0) as [g|]; [|done]. injection Hi as Hi. exists g. split; [by destruct c|done].
Qed.

Lemma reversion_to fuel : forall c r hist n,
  aligned r hist (_db c) -> n <= r <= n + Z.of_nat (length hist) -> (Z.to_nat (r - n) <= fuel)%nat ->
  exists c', databaseReversion_ fuel n c = (c', inl tt) /\
    Some (image (_db c')) = (image (_db c) :: hist) !! Z.to_nat (r - n) /\
    exists hist', aligned n hist' (_db c').
Proof.
  induction fuel as [|fuel IH]; intros c r hist n Ha Hn Hf; pose proof Ha as (Hh & Hi & Hhist);
    destruct (image_head_get c r Hi) as (g & Hg & Hr); cbn [databaseReversion_];
    erewrite bind_inl by exact Hg; rewrite Hr.
  - rewrite (proj2 (Z.eqb_eq r n)) by lia. exists c. replace (Z.to_nat (r - n)) with O by lia.
    split; [done|]. split; [done|]. replace n with r by lia. eauto.
  - destruct (r =? n) eqn:Ern.
    + apply Z.eqb_eq in Ern as ->. exists c. rewrite Z.sub_diag. eauto.
    + apply Z.eqb_neq in Ern. destruct hist as [|im hist]; [cbn in Hn; lia|].
      destruct (aligned_undo _ _ _ _ Ha) as (d' & Ed & Him & Ha').
      erewrite bind_inl by (apply on_db_undo; exact Ed).
      destruct (IH (set_db d' c) (r - 1) hist n Ha') as (c' & E & Hc' & Hx); [cbn in Hn; lia|lia|].
      exists c'. split; [done|]. split; [|done]. rewrite Hc'.
      replace (Z.to_nat (r - n)) with (S (Z.to_nat (r - 1 - n))) by lia. cbn. by rewrite Him.
Qed.

(** Beyond the history the loop never ends *)
Lemma reversion_stuck fuel : forall c r hist n,
  aligned r hist (_db c) -> ~ (n <= r <= n + Z.of_nat (length hist)) ->
  exists c', databaseReversion_ fuel n c = (c', inr out_of_fuel).
Proof.
  induction fuel as [|fuel IH]; intros c r hist n Ha Hn; pose proof Ha as (Hh & Hi & Hhist);
    destruct (image_head_get c r Hi) as (g & Hg & Hr); cbn [databaseReversion_];
    erewrite bind_inl by exact Hg; rewrite Hr; rewrite (proj2 (Z.eqb_neq r n)) by lia.
  - by exists c.
  - destruct hist as [|im hist].
    + erewrite bind_inl by (apply on_db_undo; by apply (Hist_undo_nil r)).
      apply (IH _ r []); done.
    + destruct (aligned_undo _ _ _ _ Ha) as (d' & Ed & Him & Ha').
      erewrite bind_inl by (apply on_db_undo; exact Ed).
      apply (IH _ (r - 1) hist); [done|]. cbn in *. lia.
Qed.

Lemma hist_stack r hist d : Hist r hist d -> length (_stack (dgp_ix d)) = length hist.
Proof.
  intros (_ & (c & n & Hr) & _). pose proof (stack_repr_revisions _ _ _ _ (re_stack _ _ Hr)) as H.
  apply (f_equal length) in H. rewrite !length_map in H. cbn in H. rewrite H. clear.
  generalize r. induction hist as [|x hist IH]; intros k; cbn; [done|]. by rewrite IH.
Qed.

(** ** Genesis *)

Lemma create_dgp_sat {V} `{!Indexed V, !Stored V, !Saved V} S Q (c : V -> V * option exn) :
  (forall v, obj_id (c v).1 = obj_id v) -> (forall g d, dgp_ix (put_ix g d) = dgp_ix d) ->
  preserves (dgp_sat S Q) (db_create c).
Proof.
  intros Hc Hd d (Hs & g & Hg & Hq). split; [by apply db_create_session|].
  exists g. unfold db_create. rewrite on_index_fst. unfold objects in *. cbn in *. by rewrite Hd.
Qed.

Definition no_dgp (S : saved_db) (d : database) : Prop := in_session S d /\ dgp_ix d = empty_index.

Lemma create_no_dgp {V} `{!Indexed V, !Stored V, !Saved V} S (c : V -> V * option exn) :
  (forall v, obj_id (c v).1 = obj_id v) -> (forall g d, dgp_ix (put_ix g d) = dgp_ix d) ->
  preserves (no_dgp S) (db_create c).
Proof.
  intros Hc Hd d (Hs & Hg). split; [by apply db_create_session|].
  unfold db_create. rewrite on_index_fst. by rewrite Hd.
Qed.

Lemma create_genesis_dgp S :
  ensures (no_dgp S) (db_create (pure_mod genesis_dgp)) (fun _ => dgp_sat S (head_lib 0 0)).
Proof.
  intros d d' v [Hs Hd] E.
  assert (Hs' : in_session S (db_create (pure_mod genesis_dgp) d).1) by by apply db_create_session.
  rewrite E in Hs'. split; [exact Hs'|]. unfold db_create, on_index in E. cbn [get_ix dgp_stored] in E.
  rewrite Hd in E. vm_compute in E. injection E as <- _. eexists. split; [by vm_compute|done].
Qed.

Lemma ensures_on_db {A} P (m : M database A) Q :
  ensures P m Q -> ensures (cc P) (on_db m) (fun a => cc (Q a)).
Proof.
  intros Hm c c' a Hc E. unfold on_db in E. destruct (m (_db c)) as [d r] eqn:Em.
  injection E as <- ->. by eapply Hm.
Qed.

Lemma initialize_chain_returned env ps c c' :
  initialize_chain env ps c = (c', inl tt) -> initialize_chain_ env ps c = (c', inl tt).
Proof. unfold initialize_chain, try_catch. by destruct (initialize_chain_ env ps c) as [c1 [[]|e]]. Qed.

Lemma initialize_chain_sat S env ps :
  ensures (cc (no_dgp S)) (initialize_chain_ env ps) (fun _ => cc (dgp_sat S (head_lib 0 0))).
Proof.
  unfold initialize_chain_. apply ensures_step; [apply preserves_get|]. intros c0.
  apply (ensures_bind _ _ (fun _ c => cc (dgp_sat S (head_lib 0 0)) c \/ cc (no_dgp S) c)).
  - destruct (db_find global_property_object 0 (_db c0)).
    { intros c c' [] Hc E. injection E as <-. by right. }
    case_decide; [by intros c c' []|].
    do 2 (apply ensures_step; [by apply preserves_on_db, create_no_dgp|intros _]).
    eapply ensures_bind; [apply ensures_on_db, create_genesis_dgp|]. intros v. cbn beta.
    apply ensures_step; [by apply preserves_on_db, create_dgp_sat|]. intros _.
    apply ensures_step; [apply get_gpo_keeps|]. intros gpo.
    eapply ensures_impl; [apply ensures_preserves|done|by left].
    apply preserves_for_each. intros a _. unfold create_genesis_producer.
    destruct (a =? 0); [apply preserves_ret|].
    do 2 (apply preserves_bind; [by apply preserves_on_db, create_dgp_sat|intros _]). apply preserves_ret.
  - intros _ c c' [] [Hc|Hc] E.
    + assert (Hp : preserves (cc (dgp_sat S (head_lib 0 0))) (init_hardforks;;
        dpo ← get_dynamic_global_properties;
        update_st (set_last_irreversible (last_irreversible_block_num dpo)
               (numberHash env (last_irreversible_block_num dpo))))).
      { unfold init_hardforks. preserve. }
      specialize (Hp c Hc). by rewrite E in Hp.
    + exfalso. destruct Hc as [Hs Hd]. unfold mbind, M_bind in E.
      destruct (init_hardforks c) as [c1 [u|]] eqn:Eh; [|done].
      assert (Hp : preserves (cc (no_dgp S)) init_hardforks) by (unfold init_hardforks; preserve).
      specialize (Hp c (conj Hs Hd)). rewrite Eh in Hp. destruct Hp as [_ Hd1]. cbn in Hd1.
      unfold get_dynamic_global_properties, on_db, db_get, db_find, objects in E. cbn in E.
      rewrite Hd1 in E. by vm_compute in E.
Qed.

Lemma empty_session : in_session (saved_hist 0 []) (_db empty_controller).
Proof. repeat split; (exists ∅, 0; apply repr_empty). Qed.

Lemma genesis_aligned env ps c : initialize_chain env ps empty_controller = (c, inl tt) ->
  aligned 0 [] (_db c) /\ lib_of (_db c) = Some 0.
Proof.
  intros E%initialize_chain_returned. assert (H0 : cc (no_dgp (saved_hist 0 [])) empty_controller) by (split; [apply empty_session|done]).
  pose proof (initialize_chain_sat _ env ps _ _ _ H0 E) as H. destruct (sat_head_lib _ _ _ _ H) as [Hi Hl].
  split; [|done]. split; [by destruct H|]. split; [done|]. intros j im Hj. by rewrite lookup_nil in Hj.
Qed.

(** ** Results *)

Definition sample_env : chain_env := MkEnv (fun _ => ∅) (fun _ => []) (fun n => n) 0.
Definition sample_header (n t p : Z) : BlockHeader := MkHeader 0 n n t p 0 0 0 true.
Definition sample_genesis : chain_controller := (initialize_chain sample_env [1; 2; 3] empty_controller).1.

Lemma pair_outcome {A B} (p : A * B) b : p.2 = b -> p = (p.1, b).
Proof. destruct p. by intros <-. Qed.

Lemma sample_genesis_aligned : aligned 0 [] (_db sample_genesis) /\ lib_of (_db sample_genesis) = Some 0.
Proof.
  assert (E : (initialize_chain sample_env [1; 2; 3] empty_controller).2 = inl tt) by (vm_compute; reflexivity).
  exact (genesis_aligned _ _ _ (pair_outcome _ _ E)).
Qed.

(** C30: a block that is rejected leaves the producer database as it was: when [push_block]
    throws, contents and next ids of all six indices are those before the call and the blocks
    that remain in the undo history are the same.  The exception is an error of
    [process_hardforks] with no undo state left, after the commit of the irreversible block:
    then the changes stay. *)
Theorem push_block_atomic env b r hist c c' e :
  Hist r hist (_db c) -> is_Some (db_find dynamic_global_property_object 0 (_db c)) ->
  push_block env b c = (c', inr e) ->
  (image (_db c') = image (_db c) /\ exists j, Hist r (take j hist) (_db c')) \/
  (exists c1, process_hardforks c1 = (c', inr e) /\ Hist (r + 1) [] (_db c')).
Proof.
  intros Hh [g Hg] E. eapply (push_block_error env b r hist c c' e); [|exact E].
  split; [exact Hh|]. exists g. split; [exact Hg|]. by split.
Qed.

Lemma push_block_atomic_witness :
  let b := sample_header 1 1513580327 3 in
  let c' := (push_block sample_env b sample_genesis).1 in
  push_block sample_env b sample_genesis = (c', inr InvalidProducer) /\
  ((image (_db c') = image (_db sample_genesis) /\ exists j, Hist 0 (take j []) (_db c')) \/
   (exists c1, process_hardforks c1 = (c', inr InvalidProducer) /\ Hist (0 + 1) [] (_db c'))).
Proof.
  intros b c'.
  assert (E2 : (push_block sample_env b sample_genesis).2 = inr InvalidProducer) by (vm_compute; reflexivity).
  pose proof (pair_outcome _ _ E2 : push_block sample_env b sample_genesis = (c', inr InvalidProducer)) as E.
  split; [exact E|].
  apply (push_block_atomic sample_env b 0 [] sample_genesis c' InvalidProducer); [| |exact E].
  - exact (proj1 (proj1 sample_genesis_aligned)).
  - eexists. vm_compute. reflexivity.
Defined.

(** C3: taking blocks back: after any sequence of consecutively numbered blocks was pushed,
    [databaseReversion] to the number of a block at or above the irreversible one returns, and
    leaves contents and next ids of all indices as they were after that block. *)
Theorem reversion_restores bs r hist c c' k ck l :
  aligned r hist (_db c) -> lib_of (_db c) = Some l ->
  (forall i x, bs !! i = Some x -> number x.2 = r + 1 + Z.of_nat i) ->
  push_blocks bs c = (c', inl tt) -> (k <= length bs)%nat -> push_blocks (take k bs) c = (ck, inl tt) ->
  (forall l', lib_of (_db c') = Some l' -> l' <= r + Z.of_nat k) ->
  exists c'', databaseReversion (r + Z.of_nat k) c' = (c'', inl tt) /\ image (_db c'') = image (_db ck).
Proof.
  intros Ha Hl Hn E Hk Ek Hlib.
  destruct (push_blocks_hist bs c c' r hist l Ha Hl Hn E) as (hist' & l' & Ha' & Hl' & _ & Hj).
  specialize (Hlib l' Hl'). unfold databaseReversion. rewrite (hist_stack _ _ _ (proj1 Ha')).
  assert (Hstep : forall m, (m < length bs - k)%nat -> hist' !! m = push_images bs c !! (length bs - 1 - m)%nat).
  { intros m Hm. rewrite Hj by lia. rewrite lookup_app_l by (rewrite length_reverse, push_images_length; lia).
    rewrite reverse_lookup by (rewrite push_images_length; lia).
    rewrite push_images_length. f_equal. lia. }
  assert (Hlen : (length bs - k <= length hist')%nat).
  { destruct (length bs - k)%nat as [|m] eqn:Em; [lia|]. apply lookup_lt_is_Some_1.
    rewrite (Hstep m) by lia. apply lookup_lt_is_Some_2. rewrite push_images_length. lia. }
  destruct (reversion_to (length hist') c' _ hist' (r + Z.of_nat k) Ha') as (c'' & Er & Hi & _); [lia|lia|].
  exists c''. split; [exact Er|]. replace (Z.to_nat _) with (length bs - k)%nat in Hi by lia.
  destruct (decide (k = length bs)) as [->|Hne].
  - rewrite Nat.sub_diag in Hi. rewrite take_ge, E in Ek by done. injection Ek as <-. by apply (inj Some) in Hi.
  - destruct (length bs - k)%nat as [|m] eqn:Em; [lia|]. cbn in Hi.
    change (Some (image (_db c'')) = hist' !! m) in Hi.
    rewrite (Hstep m) in Hi by lia. replace (length bs - 1 - m)%nat with k in Hi by lia.
    rewrite (push_images_lookup bs c k ck) in Hi by (done || lia).
    by apply (inj Some) in Hi.
Qed.

Definition sample_blocks : list (chain_env * BlockHeader) :=
  [(sample_env, sample_header 1 1513580327 2); (sample_env, sample_header 2 1513580328 3);
   (sample_env, sample_header 3 1513580391 3); (sample_env, sample_header 4 1513580451 2)].

Lemma reversion_restores_witness :
  let c' := (push_blocks sample_blocks sample_genesis).1 in
  let ck := (push_blocks (take 2 sample_blocks) sample_genesis).1 in
  push_blocks sample_blocks sample_genesis = (c', inl tt) /\ lib_of (_db c') = Some 0 /\
  exists c'', databaseReversion (0 + 2) c' = (c'', inl tt) /\ image (_db c'') = image (_db ck).
Proof.
  intros c' ck.
  assert (E2 : (push_blocks sample_blocks sample_genesis).2 = inl tt) by (vm_compute; reflexivity).
  pose proof (pair_outcome _ _ E2 : push_blocks sample_blocks sample_genesis = (c', inl tt)) as E.
  assert (Hlib : lib_of (_db c') = Some 0) by (vm_compute; reflexivity).
  split; [exact E|]. split; [exact Hlib|].
  apply (reversion_restores sample_blocks 0 [] sample_genesis c' 2 ck 0).
  - exact (proj1 sample_genesis_aligned).
  - exact (proj2 sample_genesis_aligned).
  - intros [|[|[|[|i]]]] x Hx; try (injection Hx as <-; reflexivity). discriminate Hx.
  - exact E.
  - vm_compute. lia.
  - assert (E3 : (push_blocks (take 2 sample_blocks) sample_genesis).2 = inl tt) by (vm_compute; reflexivity).
    exact (pair_outcome _ _ E3).
  - intros l' Hl'. rewrite Hlib in Hl'. injection Hl' as <-. lia.
Defined.

(** [databaseReversion] returns exactly when the block number asked for is the head or
    still in the undo history; otherwise no number of passes ends its loop. *)
Theorem reversion_terminates r hist c n :
  aligned r hist (_db c) ->
  if decide (n <= r <= n + Z.of_nat (length hist))
  then exists c', databaseReversion n c = (c', inl tt) /\ image_head (image (_db c')) = Some n
  else forall fuel, exists c', databaseReversion_ fuel n c = (c', inr out_of_fuel).
Proof.
  intros Ha. case_decide as Hn.
  - unfold databaseReversion. rewrite (hist_stack _ _ _ (proj1 Ha)).
    destruct (reversion_to (length hist) c r hist n Ha Hn) as (c' & E & _ & h & Ha'); [lia|].
    exists c'. split; [exact E|]. by destruct Ha' as (_ & ? & _).
  - intros fuel. by apply (reversion_stuck fuel c r hist).
Qed.

Lemma reversion_terminates_witness :
  if decide (-1 <= 0 <= -1 + 0)
  then exists c', databaseReversion (-1) sample_genesis = (c', inl tt) /\ image_head (image (_db c')) = Some (-1)
  else forall fuel, exists c', databaseReversion_ fuel (-1) sample_genesis = (c', inr out_of_fuel).
Proof. exact (reversion_terminates 0 [] sample_genesis (-1) (proj1 sample_genesis_aligned)). Defined.

(** A chain with one producer: blocks 1 to 20, and block 21, which ends the round and carries
    a vote for a hard fork that the program does not know *)
Definition lone_genesis : chain_controller := (initialize_chain sample_env [7] empty_controller).1.
Definition lone_time (n : Z) : Z := if n =? 1 then 1513580387 else 1513580445 + 63 * (n - 2).
Definition lone_blocks : list (chain_env * BlockHeader) :=
  map (fun n => (sample_env, sample_header n (lone_time n) 7)) (seqZ 1 20).
Definition lone_fork : BlockHeader := MkHeader 0 21 21 (lone_time 21) 7 0 (version 0 1 0) 0 true.

(** The exceptional case of the atomicity happens: with one producer every block is
    irreversible at once, and a block whose hard fork vote is unknown is rejected while the
    database stays at that block. *)
Lemma unknown_hardfork_not_undone :
  let '(c, r) := push_blocks lone_blocks lone_genesis in
  let '(c', r') := push_block sample_env lone_fork c in
  r = inl tt /\ r' = inr UnknownHardfork /\
  image_head (image (_db c)) = Some 20 /\ image_head (image (_db c')) = Some 21.
Proof. vm_compute. repeat split; reflexivity. Qed.
