(* ===== verification/DposSlots.v ===== *)
(** * Slots, block production and the irreversible block

    The slot arithmetic of chain_controller.cpp, the decision of producer_plugin.cpp to produce a
    block, and how both fit together: what a producer produces is what the controller accepts,
    every active producer gets its turn, and what happens to a block in the slot of the head. *)

From stdpp Require Import gmap sorting.
From S2P Require Import Prelude Words Exn Chainbase Producer ChainController DposCalls DposUndo.

#[local] Open Scope Z_scope.

(** ** producer_plugin.cpp *)

Inductive block_production_condition : Set :=
  | produced
  | not_synced
  | not_my_turn
  | not_time_yet
  | no_private_key
  | low_participation
  | lag
  | consecutive
  | exception_producing_block.

(** fc::time_point_sec of half a second after [now_us], which is in microseconds *)
Definition rounded_now (now_us : Z) : Z := u32 (Z.quot (now_us + 500000) 1000000).

(** [now_us] is fc::time_point::now(); [_client] is null or says of a time and a producer whether
    its generate_block returns, or throws.  The result is the new value of [_production_enabled],
    the condition, and time and producer passed to generate_block.  [asserts(now >
    chain.head_block_time())] after the test of the slot prints a message when it fails, and goes
    on. *)
Definition maybe_produce_block (_production_enabled : bool) (_client : option (Z -> Z -> bool))
    (_producers _private_keys : gset Z)
    (dpo : dynamic_global_property_object) (gpo : global_property_object) (now_us : Z)
    : bool * block_production_condition * option (Z * Z) :=
  let now := rounded_now now_us in
  if negb _production_enabled && negb (now <=? get_slot_time dpo 1) then (false, not_synced, None)
  else
    let slot := get_slot_at_time dpo now in
    if slot =? 0 then (true, not_time_yet, None)
    else
      let scheduled_producer := get_scheduled_producer dpo gpo slot in
      if negb (bool_decide (scheduled_producer ∈ _producers)) then (true, not_my_turn, None)
      else
        let scheduled_time := get_slot_time dpo slot in
        if negb (bool_decide (scheduled_producer ∈ _private_keys)) then (true, no_private_key, None)
        else if 500 * 1000 <? Z.abs ((scheduled_time - now) * 1000000) then (true, lag, None)
        else match _client with
        | Some generate_block =>
            (true, if generate_block scheduled_time scheduled_producer then produced else exception_producing_block,
             Some (scheduled_time, scheduled_producer))
        | None => (true, produced, None)
        end.

(** ** Slot arithmetic *)

(** The start of slot 0: the genesis time, or the start of the slot of the head block *)
Definition slot_base (dpo : dynamic_global_property_object) : Z :=
  if head_block_number dpo =? 0 then time dpo else time dpo / 3 * 3.

Lemma u32_small x : 0 <= x < 2 ^ 32 -> u32 x = x.
Proof. intros. by apply u32_id. Qed.

Lemma u64_small x : 0 <= x < 2 ^ 64 -> u64 x = x.
Proof. intros. by apply u64_id. Qed.

Lemma slot_base_range dpo : 0 <= time dpo -> 0 <= slot_base dpo <= time dpo.
Proof. unfold slot_base. intros. destruct (_ =? 0); [lia|]. Z.div_mod_to_equations; lia. Qed.

Lemma get_slot_time_base dpo n :
  0 <= time dpo -> 1 <= n -> slot_base dpo + 3 * n < 2 ^ 32 -> get_slot_time dpo n = slot_base dpo + 3 * n.
Proof.
  intros Ht Hn Hb. pose proof (slot_base_range dpo Ht) as Hr. unfold get_slot_time, BlockIntervalSeconds.
  destruct (n =? 0) eqn:E; [lia|]. unfold slot_base in *. destruct (head_block_number dpo =? 0).
  - rewrite (u32_small (n * 3)) by lia. rewrite u32_small; lia.
  - rewrite (u32_small (n * 3)) by lia. rewrite (u32_small (time dpo / 3 * 3)) by lia. rewrite u32_small; lia.
Qed.

Lemma get_slot_at_time_base dpo t :
  0 <= time dpo -> slot_base dpo <= t -> t < 2 ^ 32 -> slot_base dpo + 3 < 2 ^ 32 ->
  get_slot_at_time dpo t = (t - slot_base dpo) / 3.
Proof.
  intros Ht Hb Hm H3. pose proof (slot_base_range dpo Ht) as Hr.
  unfold get_slot_at_time. rewrite get_slot_time_base by lia. unfold BlockIntervalSeconds.
  destruct (t <? slot_base dpo + 3 * 1) eqn:E.
  - apply Z.ltb_lt in E. rewrite Z.div_small; lia.
  - apply Z.ltb_ge in E.
    assert (Hd : (t - slot_base dpo) / 3 = (t - (slot_base dpo + 3 * 1)) / 3 + 1).
    { replace (t - slot_base dpo) with (t - (slot_base dpo + 3 * 1) + 1 * 3) by lia. by rewrite Z.div_add by lia. }
    rewrite u32_small; [lia|]. rewrite <- Hd. split; [apply Z.div_pos; lia|].
    apply Z.div_lt_upper_bound; lia.
Qed.

(** The slot an active producer waits for *)
Definition next_turn (cas : Z) (i : nat) : Z :=
  let n := (Z.of_nat i - cas) mod 21 in if n =? 0 then 21 else n.

Lemma next_turn_spec cas i : (i < 21)%nat ->
  1 <= next_turn cas i <= 21 /\ (cas + next_turn cas i) mod 21 = Z.of_nat i.
Proof.
  intros Hi. unfold next_turn. pose proof (Z.mod_pos_bound (Z.of_nat i - cas) 21 ltac:(lia)) as Hb.
  assert (E : forall n, n mod 21 = (Z.of_nat i - cas) mod 21 -> (cas + n) mod 21 = Z.of_nat i).
  { intros n Hn. rewrite <- (Zplus_mod_idemp_r n), Hn, Zplus_mod_idemp_r.
    replace (cas + (Z.of_nat i - cas)) with (Z.of_nat i) by lia. apply Z.mod_small. lia. }
  destruct (_ =? 0) eqn:E0.
  - apply Z.eqb_eq in E0. split; [lia|]. apply E. by rewrite E0.
  - apply Z.eqb_neq in E0. split; [lia|]. apply E. by rewrite Z.mod_mod.
Qed.

Lemma scheduled_at dpo gpo n : 0 <= current_absolute_slot dpo -> 0 <= n -> current_absolute_slot dpo + n < 2 ^ 64 ->
  get_scheduled_producer dpo gpo n =
    nth (Z.to_nat ((current_absolute_slot dpo + n) mod 21)) (active_producers gpo) 0.
Proof. intros. unfold get_scheduled_producer. rewrite u64_small by lia. done. Qed.

(** ** Header validation *)

(** The singletons and a producer of a controller *)
Record has (c : chain_controller) (dpo : dynamic_global_property_object) (gpo : global_property_object)
    (p : producer_object) : Prop := {
  has_dpo : db_find dynamic_global_property_object 0 (_db c) = Some dpo;
  has_gpo : db_find global_property_object 0 (_db c) = Some gpo;
  has_producer : db_find_by producer_object (owner p) (_db c) = Some p
}.

Lemma on_db_id {A} (m : M database A) c r : m (_db c) = (_db c, r) -> on_db m c = (c, r).
Proof. intros E. unfold on_db. rewrite E. by destruct c. Qed.

Lemma get_dpo_at c dpo : db_find dynamic_global_property_object 0 (_db c) = Some dpo ->
  get_dynamic_global_properties c = (c, inl dpo).
Proof. intros H. apply on_db_id. unfold db_get. by rewrite H. Qed.
Lemma get_gpo_at c gpo : db_find global_property_object 0 (_db c) = Some gpo ->
  get_global_properties c = (c, inl gpo).
Proof. intros H. apply on_db_id. unfold db_get. by rewrite H. Qed.
Lemma get_producer_at c a p : db_find_by producer_object a (_db c) = Some p -> get_producer a c = (c, inl p).
Proof. intros H. apply on_db_id. unfold db_get_by. by rewrite H. Qed.

Lemma validate_ok c dpo gpo p b :
  has c dpo gpo p -> verifySign b = true -> producer b = owner p ->
  get_scheduled_producer dpo gpo (get_slot_at_time dpo (timestamp b)) = owner p ->
  validate_block_header b c = (c, inl p).
Proof.
  intros [Hd Hg Hp] Hs Hb Hsched. unfold validate_block_header. rewrite Hs. cbn.
  erewrite bind_inl by by apply get_dpo_at. erewrite bind_inl by by apply get_gpo_at.
  cbv zeta. rewrite Hsched, Hb, Z.eqb_refl. cbn. by apply get_producer_at.
Qed.

(** ** Results *)

(** slots and times are inverse to each other: as long as 32 bits suffice, every time within
    the three seconds from the start of slot [n] lies in slot [n], and the times of the head's
    own slot lie in slot 0. *)
Theorem slot_at_time dpo n t :
  0 <= time dpo -> 1 <= n -> slot_base dpo + 3 * n + 3 <= 2 ^ 32 ->
  (get_slot_time dpo n <= t < get_slot_time dpo n + 3 -> get_slot_at_time dpo t = n) /\
  (t < get_slot_time dpo 1 -> get_slot_at_time dpo t = 0) /\
  get_slot_time dpo n = slot_base dpo + 3 * n.
Proof.
  intros Ht Hn Hb. pose proof (slot_base_range dpo Ht) as Hr.
  rewrite !get_slot_time_base by lia. split; [|split; [|done]].
  - intros Htn. rewrite get_slot_at_time_base by lia. symmetry. apply (Z.div_unique _ _ _ (t - slot_base dpo - 3 * n)); lia.
  - intros Ht1. unfold get_slot_at_time. rewrite get_slot_time_base by lia.
    by rewrite (proj2 (Z.ltb_lt _ _) Ht1).
Qed.

Definition sample_dpo : dynamic_global_property_object := MkDgp 0 5 5 1000 0 0 40 7 0 0 0.

Lemma slot_at_time_witness :
  (get_slot_time sample_dpo 4 <= 1012 < get_slot_time sample_dpo 4 + 3 -> get_slot_at_time sample_dpo 1012 = 4) /\
  (1012 < get_slot_time sample_dpo 1 -> get_slot_at_time sample_dpo 1012 = 0) /\
  get_slot_time sample_dpo 4 = slot_base sample_dpo + 3 * 4.
Proof. apply (slot_at_time sample_dpo 4 1012); vm_compute; congruence. Defined.

(** Half a second before and after the start of a slot *)
Lemma rounded_now_near T now_us :
  0 <= T < 2 ^ 32 -> T * 1000000 - 500000 <= now_us < T * 1000000 + 500000 -> rounded_now now_us = T.
Proof.
  intros HT Hn. unfold rounded_now. rewrite Z.quot_div_nonneg by lia.
  replace ((now_us + 500000) / 1000000) with T; [by apply u32_small|]. Z.div_mod_to_equations. lia.
Qed.

Lemma produce_decision dpo gpo n a generate_block producers keys now_us :
  0 <= time dpo -> 1 <= n <= 21 -> slot_base dpo + 66 <= 2 ^ 32 ->
  get_scheduled_producer dpo gpo n = a -> a ∈ producers -> a ∈ keys ->
  get_slot_time dpo n * 1000000 - 500000 <= now_us < get_slot_time dpo n * 1000000 + 500000 ->
  time dpo < rounded_now now_us /\
  maybe_produce_block true (Some generate_block) producers keys dpo gpo now_us =
    (true, if generate_block (get_slot_time dpo n) a then produced else exception_producing_block,
     Some (get_slot_time dpo n, a)).
Proof.
  intros Ht Hn Hb Ha Hp Hk Hnow. pose proof (slot_base_range dpo Ht) as Hr.
  rewrite get_slot_time_base in * by lia. pose proof (rounded_now_near (slot_base dpo + 3 * n) now_us ltac:(lia) Hnow) as Er.
  unfold maybe_produce_block. rewrite Er. split.
  { unfold slot_base in *. destruct (_ =? 0); [lia|]. Z.div_mod_to_equations. lia. }
  cbn [negb andb]. rewrite get_slot_at_time_base by lia.
  replace ((slot_base dpo + 3 * n - slot_base dpo) / 3) with n by (rewrite Z.add_simpl_l, Z.mul_comm, Z.div_mul; lia).
  rewrite (proj2 (Z.eqb_neq n 0)) by lia. rewrite Ha, !bool_decide_true by done.
  rewrite get_slot_time_base by lia. rewrite Z.sub_diag. done.
Qed.

(** C35: every active producer gets its turn: within the next 21 slots there is one in which a
    node that controls the producer, has its key and is synced asks its client for a block of this
    producer, whenever it looks from half a second before to half a second after the start of the
    slot; it reports the block as produced, or an exception when the client throws, and the
    assertion that the time is after that of the head holds.  A signed block with the time and the
    producer it decides on is accepted by [validate_block_header]. *)
Theorem production_liveness c dpo gpo p i producers keys :
  has c dpo gpo p -> active_producers gpo !! i = Some (owner p) -> length (active_producers gpo) = 21%nat ->
  owner p ∈ producers -> owner p ∈ keys ->
  0 <= time dpo -> slot_base dpo + 66 <= 2 ^ 32 ->
  0 <= current_absolute_slot dpo -> current_absolute_slot dpo + 21 < 2 ^ 64 ->
  exists n, 1 <= n <= 21 /\
    (forall generate_block now_us,
       get_slot_time dpo n * 1000000 - 500000 <= now_us < get_slot_time dpo n * 1000000 + 500000 ->
       time dpo < rounded_now now_us /\
       maybe_produce_block true (Some generate_block) producers keys dpo gpo now_us =
         (true, if generate_block (get_slot_time dpo n) (owner p) then produced else exception_producing_block,
          Some (get_slot_time dpo n, owner p))) /\
    forall b, timestamp b = get_slot_time dpo n -> producer b = owner p -> verifySign b = true ->
      validate_block_header b c = (c, inl p).
Proof.
  intros Hc Hi Hlen Hp Hk Ht Hb Hs0 Hs. pose proof (lookup_lt_Some _ _ _ Hi) as Hlt. rewrite Hlen in Hlt.
  destruct (next_turn_spec (current_absolute_slot dpo) i Hlt) as [Hn Hmod].
  set (n := next_turn (current_absolute_slot dpo) i) in *. exists n. split; [done|].
  assert (Hsched : get_scheduled_producer dpo gpo n = owner p).
  { rewrite scheduled_at by lia. rewrite Hmod, Nat2Z.id. apply nth_lookup_Some with (d := 0) in Hi. done. }
  split; [intros; by apply produce_decision|].
  intros b Hbt Hbp Hbs. apply (validate_ok c dpo gpo p b Hc Hbs Hbp). rewrite Hbt.
  pose proof (slot_base_range dpo Ht) as Hr.
  rewrite get_slot_time_base, get_slot_at_time_base by lia.
  replace ((slot_base dpo + 3 * n - slot_base dpo) / 3) with n by (rewrite Z.add_simpl_l, Z.mul_comm, Z.div_mul; lia).
  done.
Qed.

(** a block in the slot of the head is not rejected: when the producer scheduled for the
    head's slot signs a second block with a time in that slot, [validate_block_header] accepts
    it, and [update_global_dynamic_data] then walks over 2^32 - 1 missed slots. *)
Theorem same_slot_block c dpo gpo p b :
  has c dpo gpo p -> verifySign b = true -> producer b = owner p ->
  head_block_number dpo <> 0 -> timestamp b < get_slot_time dpo 1 ->
  get_scheduled_producer dpo gpo 0 = owner p ->
  validate_block_header b c = (c, inl p) /\
  update_global_dynamic_data b c =
    (for_each (missed_slot b) (seqZ 0 (2 ^ 32 - 1));;
     on_db (db_modify 0 (pure_mod (new_dynamic_data b (2 ^ 32 - 1))))) c.
Proof.
  intros Hc Hs Hp Hh Ht Hsched.
  assert (E : get_slot_at_time dpo (timestamp b) = 0).
  { unfold get_slot_at_time. by rewrite (proj2 (Z.ltb_lt _ _) Ht). }
  split; [apply (validate_ok c dpo gpo p); [done..|by rewrite E]|].
  unfold update_global_dynamic_data. erewrite bind_inl by (apply get_dpo_at, Hc).
  rewrite (proj2 (Z.eqb_neq _ _) Hh), E. done.
Qed.

(** The chain of three producers after its first block, which producer 2 signed *)
Definition first_block : chain_controller :=
  (push_block sample_env (sample_header 1 1513580327 2) sample_genesis).1.
Definition first_dpo : dynamic_global_property_object :=
  MkDgp 0 1 1 1513580327 0 0 1 (2 ^ 64 - 1) 0 0 0.
Definition first_gpo : global_property_object := MkGpo 0 ([1; 2; 3] ++ replicate 18 0) 0 0 0 0.
Definition first_one : producer_object := MkProducer 0 1 0 0 0 0 0 0 0.
Definition first_two : producer_object := MkProducer 1 2 1 0 1 0 0 0 0.

Lemma first_has : has first_block first_dpo first_gpo first_one /\ has first_block first_dpo first_gpo first_two.
Proof. split; split; vm_compute; reflexivity. Qed.

Lemma production_liveness_witness :
  exists n, 1 <= n <= 21 /\
    maybe_produce_block true (Some (fun _ _ => true)) {[1]} {[1]} first_dpo first_gpo (get_slot_time first_dpo n * 1000000) =
      (true, produced, Some (get_slot_time first_dpo n, 1)) /\
    validate_block_header (sample_header 2 (get_slot_time first_dpo n) 1) first_block = (first_block, inl first_one).
Proof.
  destruct (production_liveness first_block first_dpo first_gpo first_one 0 {[1]} {[1]} (proj1 first_has))
    as (n & Hn & Hp & Hv).
  1-8: vm_compute; try reflexivity; try congruence; set_solver.
  exists n. split; [exact Hn|]. split; [apply (Hp (fun _ _ => true)); lia|].
  apply (Hv (sample_header 2 (get_slot_time first_dpo n) 1)); reflexivity.
Defined.

Lemma same_slot_block_witness :
  let b := sample_header 2 1513580327 2 in
  validate_block_header b first_block = (first_block, inl first_two) /\
  update_global_dynamic_data b first_block =
    (for_each (missed_slot b) (seqZ 0 (2 ^ 32 - 1));;
     on_db (db_modify 0 (pure_mod (new_dynamic_data b (2 ^ 32 - 1))))) first_block.
Proof.
  intros b. apply (same_slot_block first_block first_dpo first_gpo first_two b (proj2 first_has));
    vm_compute; congruence.
Defined.

(** ** The irreversible block *)

Definition confirmed_by (n : Z) (ps : list producer_object) : nat :=
  length (filter (fun p => n <= last_confirmed_block_num p) ps).

#[local] Instance confirmed_le_trans : Transitive confirmed_le.
Proof. intros a b c. unfold confirmed_le. lia. Qed.
#[local] Instance confirmed_le_total : Total confirmed_le.
Proof. intros a b. unfold confirmed_le. lia. Qed.

Lemma confirmed_by_perm n ps qs : ps ≡ₚ qs -> confirmed_by n ps = confirmed_by n qs.
Proof. intros H. unfold confirmed_by. by rewrite H. Qed.

Lemma confirmed_by_app n ps qs : confirmed_by n (ps ++ qs) = (confirmed_by n ps + confirmed_by n qs)%nat.
Proof. unfold confirmed_by. by rewrite list.filter_app, length_app. Qed.

Lemma confirmed_by_all n ps : Forall (fun p => n <= last_confirmed_block_num p) ps -> confirmed_by n ps = length ps.
Proof.
  induction 1 as [|p ps Hp _ IH]; [done|]. unfold confirmed_by in *. rewrite filter_cons_True by done. cbn. by rewrite IH.
Qed.

Lemma confirmed_by_none n ps : Forall (fun p => last_confirmed_block_num p < n) ps -> confirmed_by n ps = O.
Proof.
  induction 1 as [|p ps Hp _ IH]; [done|]. unfold confirmed_by in *. by rewrite filter_cons_False by lia.
Qed.

Lemma confirmed_by_le n ps : (confirmed_by n ps <= length ps)%nat.
Proof. unfold confirmed_by. apply list.length_filter. Qed.

(** The element at position [k] of the sorted list *)
Lemma nth_confirmed ps k p : merge_sort confirmed_le ps !! k = Some p ->
  (length ps - k <= confirmed_by (last_confirmed_block_num p) ps)%nat /\
  (confirmed_by (last_confirmed_block_num p + 1) ps < length ps - k)%nat.
Proof.
  intros Hp. pose proof (merge_sort_Permutation confirmed_le ps) as Hperm.
  pose proof (StronglySorted_merge_sort confirmed_le ps) as Hs.
  pose proof (Permutation_length Hperm) as Hlen. pose proof (lookup_lt_Some _ _ _ Hp) as Hk.
  set (l := merge_sort confirmed_le ps) in *.
  assert (El : l = take k l ++ p :: drop (S k) l) by by rewrite take_drop_middle.
  rewrite <- !(confirmed_by_perm _ l ps Hperm).
  assert (Hle : Forall (fun q => last_confirmed_block_num q <= last_confirmed_block_num p) (take k l)).
  { apply list.Forall_forall. intros q Hq. rewrite El in Hs.
    exact (StronglySorted_app_1_elem_of confirmed_le _ _ q p Hs Hq (list_elem_of_here _ _)). }
  assert (Hge : Forall (fun q => last_confirmed_block_num p <= last_confirmed_block_num q) (p :: drop (S k) l)).
  { rewrite El in Hs. apply StronglySorted_app_1_r in Hs. apply StronglySorted_inv in Hs as [_ Hs].
    constructor; [lia|exact Hs]. }
  assert (Hd : length (drop (S k) l) = (length ps - k - 1)%nat) by (rewrite length_drop; lia).
  assert (E2 : forall n, confirmed_by n l = (confirmed_by n (take k l) + confirmed_by n (p :: drop (S k) l))%nat)
    by (intros n; by rewrite <- confirmed_by_app, <- El).
  rewrite !E2. split.
  - rewrite (confirmed_by_all _ (p :: _)) by exact Hge. cbn [length]. lia.
  - rewrite confirmed_by_none by (eapply Forall_impl; [|exact Hle]; cbn; lia).
    change (p :: drop (S k) l) with ([p] ++ drop (S k) l). rewrite confirmed_by_app.
    rewrite (confirmed_by_none _ [p]) by (repeat constructor; lia).
    pose proof (confirmed_by_le (last_confirmed_block_num p + 1) (drop (S k) l)). lia.
Qed.

Lemma threshold_offset (len : nat) : (0 < len)%nat ->
  let offset := Z.to_nat (ETH_PERCENT (Z.of_nat len) (Percent100 - IrreversibleThresholdPercent)) in
  (offset < len)%nat /\ 10 * Z.of_nat offset <= 3 * Z.of_nat len < 10 * (Z.of_nat offset + 1).
Proof.
  intros Hl. unfold ETH_PERCENT, IrreversibleThresholdPercent, Percent100, Percent1. cbv zeta.
  Z.div_mod_to_equations. lia.
Qed.

(** C37: the irreversible block: with at least one active producer [update_last_irreversible_block]
    returns; the number it computes is the greatest that at least 70 percent of the active
    producers have confirmed, and the irreversible block number becomes that number unless
    it was greater already. *)
Theorem irreversible_threshold S env c dpo gpo ps :
  in_session S (_db c) -> db_find dynamic_global_property_object 0 (_db c) = Some dpo ->
  db_find global_property_object 0 (_db c) = Some gpo ->
  get_producers_of (active_producers gpo) c = (c, inl ps) -> ps <> [] ->
  exists n c', update_last_irreversible_block env c = (c', inl tt) /\
    7 * Z.of_nat (length ps) <= 10 * Z.of_nat (confirmed_by n ps) /\
    10 * Z.of_nat (confirmed_by (n + 1) ps) < 7 * Z.of_nat (length ps) /\
    lib_of (_db c') = Some (Z.max (last_irreversible_block_num dpo) n).
Proof.
  intros Hs Hd Hg Hps Hne. assert (Hpos : (0 < length ps)%nat) by (destruct ps; [done|cbn; lia]).
  destruct (threshold_offset (length ps) Hpos) as [Hlt Hoff]. cbv zeta in Hlt, Hoff.
  unfold update_last_irreversible_block.
  erewrite bind_inl by by apply get_gpo_at. erewrite bind_inl by by apply get_dpo_at.
  erewrite bind_inl by exact Hps. cbv zeta. set (off := Z.to_nat _) in *.
  destruct (merge_sort confirmed_le ps !! off) as [p|] eqn:Ep.
  2:{ apply lookup_ge_None in Ep. rewrite (Permutation_length (merge_sort_Permutation confirmed_le ps)) in Ep. lia. }
  destruct (nth_confirmed ps off p Ep) as [H1 H2]. exists (last_confirmed_block_num p).
  set (n := last_confirmed_block_num p) in *.
  destruct (last_irreversible_block_num dpo <? n) eqn:En.
  - destruct (db_modify_at S (_db c) 0 (pure_mod (set_lib n)) dpo Hs Hd ltac:(done)) as (g & Em & Ei & _ & _).
    eexists. split; [unfold mbind, M_bind, on_db; rewrite Em; reflexivity|]. split; [lia|]. split; [lia|].
    unfold lib_of, objects. cbn. rewrite Ei, lookup_insert_eq. cbn. f_equal. lia.
  - eexists. split; [reflexivity|]. split; [lia|]. split; [lia|].
    unfold lib_of, db_find, objects in *. cbn in *. rewrite Hd. cbn. f_equal. lia.
Qed.

Definition first_three : producer_object := MkProducer 2 3 0 0 0 0 0 0 0.

Lemma irreversible_threshold_witness :
  let ps := [first_one; first_two; first_three] in
  exists n c', update_last_irreversible_block sample_env first_block = (c', inl tt) /\
    7 * Z.of_nat (length ps) <= 10 * Z.of_nat (confirmed_by n ps) /\
    10 * Z.of_nat (confirmed_by (n + 1) ps) < 7 * Z.of_nat (length ps) /\
    lib_of (_db c') = Some (Z.max 0 n).
Proof.
  intros ps.
  assert (Hl : aligned 1 [image (_db sample_genesis)] (_db first_block)).
  { destruct (push_aligned sample_env (sample_header 1 1513580327 2) 0 [] sample_genesis first_block 0)
      as (k & l' & _ & Hk & Hl' & Ha).
    - exact (proj1 sample_genesis_aligned).
    - exact (proj2 sample_genesis_aligned).
    - reflexivity.
    - assert (E : (push_block sample_env (sample_header 1 1513580327 2) sample_genesis).2 = inl tt)
        by (vm_compute; reflexivity).
      exact (pair_outcome _ _ E).
    - assert (l' = 0) as -> by (vm_compute in Hl'; congruence).
      replace (Z.to_nat (0 + 1 - k)) with (S (Z.to_nat (- k))) in Ha by lia.
      change (0 + 1) with 1 in Ha. cbn [take] in Ha. by rewrite take_nil in Ha. }
  apply (irreversible_threshold (saved_hist 1 [image (_db sample_genesis)]) sample_env first_block first_dpo first_gpo ps).
  - exact (proj1 Hl).
  - vm_compute. reflexivity.
  - vm_compute. reflexivity.
  - vm_compute. reflexivity.
  - discriminate.
Defined.
