(* ===== verification/DposVotes.v ===== *)
(** * Votes and the virtual race

    The race of producer_objects.hpp on 128-bit times, and what a zero speed does to blocks once
    the race time has left zero. *)

From stdpp Require Import gmap sorting.
From S2P Require Import Prelude Words Exn Chainbase Producer ChainController DposCalls DposUndo.

#[local] Open Scope Z_scope.

(** ** The race *)

Lemma u128_small x : 0 <= x <= UInt128_max -> u128 x = x.
Proof. intros. unfold u128, UInt128_max in *. apply Z.mod_small. lia. Qed.

(** Time to finish from a position on the lap *)
Definition time_to_finish (speed position : Z) : Z :=
  if 0 <? speed then (ProducerRaceLapLength - position) / speed else UInt128_max.

Lemma time_to_finish_range s p : 0 <= p <= ProducerRaceLapLength -> 0 <= time_to_finish s p <= UInt128_max.
Proof.
  unfold time_to_finish, ProducerRaceLapLength. intros Hp. destruct (0 <? s) eqn:E; [|unfold UInt128_max; lia].
  apply Z.ltb_lt in E. split; [apply Z.div_pos; lia|]. apply Z.div_le_upper_bound; [lia|]. nia.
Qed.

Lemma race_update_cases s p t r :
  0 <= p <= ProducerRaceLapLength -> 0 <= t <= UInt128_max ->
  if decide (t + time_to_finish s p <= UInt128_max)
  then race_update s p t r = (MkRace s p t (t + time_to_finish s p), None)
  else race_update s p t r = (MkRace s p t (projectedFinishTime r), Some overflow_error).
Proof.
  intros Hp Ht. pose proof (time_to_finish_range s p Hp) as Hr. unfold race_update.
  rewrite (u128_small (ProducerRaceLapLength - p)) by (unfold ProducerRaceLapLength in *; lia).
  fold (time_to_finish s p).
  case_decide as Hd; destruct (_ <? _) eqn:E; [lia| |done|lia]. by rewrite u128_small by lia.
Qed.

Lemma zero_speed_throws t r : 0 < t -> (race_update 0 0 t r).2 = Some overflow_error.
Proof.
  intros Ht. unfold race_update. cbn [Z.ltb Z.compare]. rewrite Z.sub_diag.
  by rewrite (proj2 (Z.ltb_lt 0 t) Ht).
Qed.

(** ** What blocks a registration *)

(** The race has started, or an object for the votes of the account exists already *)
Definition blocked (a : Z) (d : database) : Prop :=
  (exists s, objects ProducerScheduleObject d !! 0 = Some s /\ 0 < currentRaceTime s) \/
  (exists i v, objects ProducerVotesObject d !! i = Some v /\ ownerName v = a).

Definition blocked_in (S : saved_db) (a : Z) (d : database) : Prop := in_session S d /\ blocked a d.

Lemma keeps_key {V} `{!Indexed V} (o : index_op V) g s r i v :
  ix_session s r g -> stable_op o -> match o with Emplace _ | Modify _ _ => True | _ => False end ->
  _indices g !! i = Some v -> exists v', _indices (exec_op o g).1 !! i = Some v' /\ ukey v' = ukey v.
Proof.
  intros (c & n & Hr) Ho Hk Hv. destruct (exec_repr o g _ Ho Hr) as [_ Hr'].
  pose proof (re_cur _ _ Hr) as E. cbn in E. rewrite (re_cur _ _ Hr'). rewrite E in Hv.
  pose proof (wf_next _ _ (re_wf _ _ Hr) i v Hv) as Hlt. cbn in Hlt.
  destruct o as [f|j f| | | | | | | |]; try done; cbn.
  - destruct (f (ctor n)) as [w [e|]]; [by exists v|]. case_decide; [|by exists v].
    exists v. cbn. by rewrite lookup_insert_ne by lia.
  - destruct (c !! j) as [w|] eqn:Ej; [|by exists v]. cbn. destruct (decide (j = i)) as [->|Hne].
    + rewrite lookup_insert_eq. assert (w = v) as -> by congruence. eexists. split; [done|]. apply Ho.
    + exists v. by rewrite lookup_insert_ne.
Qed.

Lemma blocked_keeps S a (calls : call -> Prop) :
  (forall k, calls k -> stable_call k /\ match k with ModPso _ _ | DelPvo _ => False | _ => True end) ->
  keeps calls (blocked_in S a).
Proof.
  intros Hc k Hk d [Hd Hb]. destruct (Hc k Hk) as [Hst Hok].
  split; [by apply (session_keeps S (fun k => stable_call k))|].
  destruct Hb as [(s & Hs & Ht)|(i & v & Hv & Ha)].
  - left. exists s. split; [|done].
    destruct k; cbn [run_call]; try done;
      try (unfold db_modify, db_remove; rewrite on_index_fst; done);
      (unfold db_create, mbind, M_bind, on_index; destruct (emplace _ _) as [? [?|?]]; done).
  - right. pose proof (session_get (V:=ProducerVotesObject) S d Hd) as Hix.
    destruct k; cbn [run_call]; try done;
      try (unfold db_modify, db_remove; rewrite on_index_fst; by exists i, v);
      try (unfold db_create, mbind, M_bind, on_index; destruct (emplace _ _) as [? [?|?]]; by exists i, v).
    + destruct (keeps_key (Modify i0 m) _ _ _ i v Hix Hst I Hv) as (v' & Hv' & Hk').
      exists i, v'. unfold db_modify. rewrite on_index_fst. split; [exact Hv'|]. cbn in Hk'. congruence.
    + destruct (keeps_key (Emplace c) _ _ _ i v Hix Hst I Hv) as (v' & Hv' & Hk').
      exists i, v'. cbn [exec_op] in Hv'. unfold discard, db_create, mbind, M_bind, on_index in *.
      destruct (emplace c (get_ix d)) as [g [w|e]]; (split; [exact Hv'|cbn in Hk'; congruence]).
Qed.

(** The record of votes is not touched outside [update_pvomi_perblock] *)
Definition unrecorded (a : Z) (c : chain_controller) : Prop := _all_votes c !! a = None.

Lemma unrecorded_on_db a {A} (m : M database A) : preserves (unrecorded a) (on_db m).
Proof. intros c Hc. unfold on_db. by destruct (m (_db c)). Qed.
Lemma unrecorded_update a f : (forall c, _all_votes (f c) = _all_votes c) -> preserves (unrecorded a) (update_st f).
Proof. intros Hf c Hc. unfold unrecorded. cbn. by rewrite Hf. Qed.

Ltac unrecorded_step :=
  lazymatch goal with
  | |- forall _, _ => intros ?
  | |- preserves _ (_ ≫= _) => apply preserves_bind
  | |- preserves _ (for_each _ _) => apply preserves_for_each
  | |- preserves _ (on_db _) => apply unrecorded_on_db
  | |- preserves _ (upd_producer _ _) => apply unrecorded_on_db
  | |- preserves _ (get_producer _) => apply unrecorded_on_db
  | |- preserves _ get_global_properties => apply unrecorded_on_db
  | |- preserves _ get_dynamic_global_properties => apply unrecorded_on_db
  | |- preserves _ (update_st _) => apply unrecorded_update; done
  | |- preserves _ (match ?x with _ => _ end) => destruct x
  | |- preserves _ _ => solve [eauto with preserves]
  end.

Lemma validate_unrecorded a b : preserves (unrecorded a) (validate_block_header b).
Proof. unfold validate_block_header. repeat (cbv zeta; unrecorded_step). Qed.
Lemma header_unrecorded a b : preserves (unrecorded a) (process_block_header b).
Proof. unfold process_block_header. repeat (cbv zeta; unrecorded_step). Qed.
Lemma pow_unrecorded a env : preserves (unrecorded a) (update_pow env).
Proof. unfold update_pow, update_pow_op. repeat (cbv zeta; unrecorded_step). Qed.
Lemma perblock_unrecorded a env b : preserves (unrecorded a) (update_pow_perblock env b).
Proof. unfold update_pow_perblock. repeat (cbv zeta; unrecorded_step). Qed.

Lemma pvomi_unrecorded a p : p.1 <> a -> preserves (unrecorded a) (update_pvomi_one p).
Proof.
  intros Hp. assert (Hu : forall v, preserves (unrecorded a)
    (update_st (fun c => set_all_votes (<[p.1 := v]> (_all_votes c)) c))).
  { intros v c Hc. unfold unrecorded. cbn. by rewrite lookup_insert_ne. }
  unfold update_pvomi_one. repeat (cbv zeta; first [apply Hu|unrecorded_step]).
Qed.

Lemma preserves_and {S A} (P Q : S -> Prop) (m : M S A) :
  preserves P m -> preserves Q m -> preserves (fun s => P s /\ Q s) m.
Proof. intros HP HQ s [H1 H2]. split; [by apply HP|by apply HQ]. Qed.

(** A loop with an element that always throws does not return *)
Lemma for_each_throws {S A} (P : S -> Prop) (f : A -> M S unit) l x s s' :
  x ∈ l -> (forall y, y <> x -> y ∈ l -> preserves P (f y)) ->
  (forall s s', P s -> f x s <> (s', inl tt)) -> (forall y z : A, {y = z} + {y <> z}) ->
  P s -> for_each f l s <> (s', inl tt).
Proof.
  intros Hx Hkeep Hthrow Hdec. revert s. induction l as [|y l IH]; intros s Hs.
  { by apply not_elem_of_nil in Hx. }
  cbn [for_each]. unfold mbind, M_bind. destruct (f y s) as [s1 [[]|e]] eqn:E; [|done].
  destruct (Hdec y x) as [->|Hne]; [by apply Hthrow in E|].
  apply IH.
  - apply elem_of_cons in Hx as [->|Hx]; done.
  - intros z Hz Hzl. apply Hkeep; [done|]. by apply list_elem_of_further.
  - pose proof (Hkeep y Hne (list_elem_of_here _ _) s Hs) as H1. by rewrite E in H1.
Qed.

#[local] Instance VoteInfo_eq_dec : EqDecision VoteInfo.
Proof. solve_decision. Defined.

Lemma register_throws S a v c c' :
  m_isCandidate v = true -> blocked_in S a (_db c) -> unrecorded a c ->
  update_pvomi_one (a, v) c <> (c', inl tt).
Proof.
  intros Hv [Hs Hb] Ha E. unfold update_pvomi_one in E. cbn [fst snd] in E. rewrite Hv in E. cbn [negb] in E.
  unfold mbind, M_bind, get_st in E. rewrite Ha in E. unfold on_db at 1, db_get, db_find in E.
  destruct (objects ProducerScheduleObject (_db c) !! 0) as [s|] eqn:Hso; [|done]. cbn in E.
  unfold on_db at 1, db_create, on_index, emplace, new_votes, startNewRaceLap, set_race in E. cbn in E.
  destruct Hb as [(s' & Hs' & Ht)|(i & w & Hw & Hwa)].
  - assert (s' = s) as -> by congruence.
    by rewrite (zero_speed_throws _ (MkRace 0 0 0 UInt128_max) Ht) in E.
  - destruct (race_update 0 0 (currentRaceTime s) _) as [r [e|]]; cbn in E; [done|].
    unfold mi_emplace in E. rewrite decide_False in E; [done|]. intros H.
    apply (H i w Hw). right. by cbn.
Qed.

Lemma pvomi_halts S env b a v s s' :
  votes_at env (parentHash b) !! a = Some v -> m_isCandidate v = true ->
  blocked_in S a (_db s) -> unrecorded a s -> update_pvomi_perblock env b s <> (s', inl tt).
Proof.
  intros Hv Hcand Hb Hu Es. unfold update_pvomi_perblock, mbind, M_bind in Es. cbv zeta in Es.
  destruct (for_each update_pvomi_one _ s) as [s1 [[]|e]] eqn:Ef; [|done].
  revert Ef. apply (for_each_throws (fun c => cc (blocked_in S a) c /\ unrecorded a c) update_pvomi_one _ (a, v));
    [by apply elem_of_items| | |solve_decision|done].
  - intros [y w] Hy Hyl. apply preserves_and.
    + apply update_pvomi_one_keeps, blocked_keeps. intros k Hk. split; [eauto with calls|by destruct Hk].
    + apply pvomi_unrecorded. cbn. intros ->. apply elem_of_items in Hyl. congruence.
  - intros s2 s3 [H1 H2]. by eapply register_throws.
Qed.

Lemma apply_block_halts S env b a v c c' :
  votes_at env (parentHash b) !! a = Some v -> m_isCandidate v = true ->
  blocked_in S a (_db c) -> unrecorded a c -> apply_block env b c <> (c', inl tt).
Proof.
  intros Hv Hcand Hb Hu E.
  assert (Hk : forall calls : call -> Prop, (forall k, calls k -> stable_call k /\
    match k with ModPso _ _ | DelPvo _ => False | _ => True end) -> keeps calls (blocked_in S a))
    by (intros; by apply blocked_keeps).
  assert (Hens : ensures (fun c => cc (blocked_in S a) c /\ unrecorded a c) (apply_block env b) (fun _ _ => False)).
  { unfold apply_block. apply ensures_step.
    { apply preserves_and; [apply validate_keeps|apply validate_unrecorded]. }
    intros p. apply ensures_step.
    { apply preserves_and; [|apply header_unrecorded]. apply process_block_header_keeps, Hk.
      intros k Hc. split; [eauto with calls|by destruct Hc]. }
    intros _. apply ensures_step.
    { apply preserves_and; [apply update_pow_perblock_keeps|apply perblock_unrecorded]. }
    intros _. apply ensures_step.
    { apply preserves_and; [|apply pow_unrecorded]. apply update_pow_keeps, Hk.
      intros k Hc. split; [eauto with calls|by destruct Hc]. }
    intros _. apply (ensures_bind _ _ (fun _ _ => False)); [|by intros _ s s2 a0 []].
    intros s s2 [] [Hs1 Hs2] Es2. by eapply pvomi_halts in Es2. }
  exact (Hens c c' tt (conj Hb Hu) E).
Qed.

(** ** Results *)

(** C38: registration of a producer can stop the chain: if the votes at the parent of a
    block name a candidate that the controller has not recorded, and the race time is positive
    or the account is a genesis producer (has a votes object), then [push_block] of the block
    does not return, whatever else the block holds. *)
Theorem registration_halts r hist env b c c' a v :
  Hist r hist (_db c) -> blocked a (_db c) ->
  votes_at env (parentHash b) !! a = Some v -> m_isCandidate v = true -> _all_votes c !! a = None ->
  push_block env b c <> (c', inl tt).
Proof.
  intros Hh Hb Hv Hcand Hun E. unfold push_block in E. erewrite bind_inl in E by apply on_db_start.
  unfold try_catch in E. destruct (apply_block env b _) as [c1 [[]|e]] eqn:Ea.
  - apply (apply_block_halts (saved_hist (r + 1) (image (_db c) :: hist)) env b a v) in Ea; [done..| |done].
    split; [by apply Hist_start|exact Hb].
  - unfold mbind, M_bind, throw in E. destruct (on_db db_undo c1) as [? [|]]; done.
Qed.

(** Producer 1 of the genesis block registers *)
Definition register_env : chain_env := MkEnv (fun _ => {[1 := MkVoteInfo true 0]}) (fun _ => []) (fun n => n) 0.

Lemma registration_halts_witness :
  push_block register_env (sample_header 1 1513580327 2) sample_genesis <>
    ((push_block register_env (sample_header 1 1513580327 2) sample_genesis).1, inl tt).
Proof.
  apply (registration_halts 0 [] register_env _ sample_genesis _ 1 (MkVoteInfo true 0)).
  - exact (proj1 (proj1 sample_genesis_aligned)).
  - right. exists 0, (MkPVO 0 1 (MkRace 0 0 0 UInt128_max)). vm_compute. split; reflexivity.
  - vm_compute. reflexivity.
  - reflexivity.
  - vm_compute. reflexivity.
Defined.
