(* ===== verification/DposInv.v ===== *)
(** * The invariant of the producer database

    A predicate on the contents: the active producers are 21 slots without repetition whose
    names have producer objects; the counter of the proof-of-work queue is the number of queued
    producers, whose positions are distinct; no producer with a votes object is queued.  This
    file proves it of every single change the controller makes; DposSchedule and
    DposInvariant compose them along the code. *)

From stdpp Require Import gmap sorting.
From S2P Require Import Prelude Words Exn Chainbase Producer ChainController DposCalls DposUndo.

#[local] Open Scope Z_scope.

(** The queued producers *)
Definition queued (PO : gmap Z producer_object) : gmap Z producer_object :=
  filter (fun x : Z * producer_object => 0 < pow_worker x.2) PO.

Definition has_owner (PO : gmap Z producer_object) (a : Z) : Prop :=
  exists i p, PO !! i = Some p /\ owner p = a.
Definition has_votes (PV : gmap Z ProducerVotesObject) (a : Z) : Prop :=
  exists i v, PV !! i = Some v /\ ownerName v = a.

(** Slots of a round: 21 of them, the names in them distinct and known *)
Definition round_ok (PO : gmap Z producer_object) (l : list Z) : Prop :=
  length l = TotalProducersPerRound /\ NoDup (filter (fun a => a <> 0) l) /\
  forall a, a ∈ l -> a <> 0 -> has_owner PO a.

Record inv (PO : gmap Z producer_object) (PV : gmap Z ProducerVotesObject)
    (g : dynamic_global_property_object) (gp : global_property_object) : Prop := {
  inv_count : num_pow_witnesses g = Z.of_nat (size (queued PO));
  inv_u32 : num_pow_witnesses g < 2 ^ 32;
  inv_total : 0 <= total_pow g;
  inv_pow : forall i p, PO !! i = Some p -> 0 <= pow_worker p <= total_pow g;
  inv_distinct : forall i j p q, PO !! i = Some p -> PO !! j = Some q ->
    0 < pow_worker p -> pow_worker p = pow_worker q -> i = j;
  inv_owner : forall i p, PO !! i = Some p -> owner p <> 0;
  inv_votes : forall j v, PV !! j = Some v ->
    exists i p, PO !! i = Some p /\ owner p = ownerName v /\ pow_worker p = 0;
  inv_active : round_ok PO (active_producers gp)
}.

(** ** Changes of one object *)

Lemma queued_insert_in PO i p :
  0 < pow_worker p -> (forall q, PO !! i = Some q -> pow_worker q = 0) ->
  size (queued (<[i := p]> PO)) = S (size (queued PO)).
Proof.
  intros Hp Hi. unfold queued. rewrite map_filter_insert_True by done. apply map_size_insert_None.
  apply map_lookup_filter_None. right. intros q Hq. cbn. rewrite (Hi q Hq). lia.
Qed.

Lemma queued_insert_out PO i p :
  pow_worker p <= 0 -> (forall q, PO !! i = Some q -> pow_worker q <= 0) -> queued (<[i := p]> PO) = queued PO.
Proof.
  intros Hp Hi. unfold queued. rewrite map_filter_insert_not'; [done|cbn; lia|].
  intros q Hq. cbn. specialize (Hi q Hq). lia.
Qed.

Lemma queued_insert_same PO i p q :
  PO !! i = Some q -> pow_worker p = pow_worker q -> size (queued (<[i := p]> PO)) = size (queued PO).
Proof.
  intros Hq E. unfold queued. destruct (decide (0 < pow_worker p)) as [Hp|Hp].
  - rewrite map_filter_insert_True by done. apply map_size_insert_Some.
    exists q. apply map_lookup_filter_Some. split; [done|]. cbn. lia.
  - rewrite map_filter_insert_not'; [done|done|]. intros x Hx. cbn. assert (x = q) as -> by congruence. lia.
Qed.

(** One entry stops satisfying [P] *)
Lemma filter_size_dec {V} (P : Z * V -> Prop) `{!forall x, Decision (P x)} (m : gmap Z V) i v w :
  m !! i = Some v -> P (i, v) -> ~ P (i, w) -> size (filter P m) = S (size (filter P (<[i := w]> m))).
Proof.
  intros Hv Hp Hn. rewrite map_filter_insert_False by done. rewrite map_filter_delete, map_size_delete.
  assert (Hin : filter P m !! i = Some v) by (by apply map_lookup_filter_Some). rewrite Hin.
  symmetry. apply (Nat.lt_succ_pred 0). apply Nat.neq_0_lt_0. intros Hz%map_size_empty_inv. by rewrite Hz in Hin.
Qed.

Lemma queued_dequeue PO i p q :
  PO !! i = Some q -> 0 < pow_worker q -> pow_worker p = 0 ->
  size (queued PO) = S (size (queued (<[i := p]> PO))).
Proof. intros Hq Hp E. apply (filter_size_dec _ PO i q p Hq Hp). cbn. lia. Qed.

Lemma has_owner_insert PO i p a : has_owner PO a -> (forall q, PO !! i = Some q -> owner q = owner p) ->
  has_owner (<[i := p]> PO) a.
Proof.
  intros (j & q & Hq & <-) Hi. destruct (decide (i = j)) as [->|Hne].
  - exists j, p. rewrite lookup_insert_eq. split; [done|]. symmetry. by apply Hi.
  - exists j, q. by rewrite lookup_insert_ne.
Qed.

Lemma round_ok_insert PO l i p : round_ok PO l -> (forall q, PO !! i = Some q -> owner q = owner p) ->
  round_ok (<[i := p]> PO) l.
Proof.
  intros (H1 & H2 & H3) Hi. split; [done|]. split; [done|]. intros a Ha Hz. apply has_owner_insert; auto.
Qed.

Section Changes.
Context (PO : gmap Z producer_object) (PV : gmap Z ProducerVotesObject).
Context (g : dynamic_global_property_object) (gp : global_property_object).
Hypothesis HI : inv PO PV g gp.

(** A producer that keeps its name and its place in the queue *)
Lemma inv_producer i p q : PO !! i = Some q -> owner p = owner q -> pow_worker p = pow_worker q ->
  inv (<[i := p]> PO) PV g gp.
Proof.
  intros Hq Ho Hp. destruct HI as [H1 H2 H0 H3 H4 H5 H6 H7]. split; [| | |intros j x|intros j k x y|intros j x| |].
  - by rewrite (queued_insert_same _ _ _ q).
  - done.
  - done.
  - rewrite lookup_insert_Some. intros [[<- <-]|[_ Hx]]; [rewrite Hp; by apply (H3 i)|by apply (H3 j)].
  - rewrite !lookup_insert_Some. intros [[<- <-]|[? Hx]] [[<- <-]|[? Hy]]; [done| | |by apply H4].
    + rewrite Hp. by apply H4.
    + rewrite Hp. by apply H4.
  - rewrite lookup_insert_Some. intros [[<- <-]|[_ Hx]]; [rewrite Ho; by apply (H5 i)|by apply (H5 j)].
  - intros j v Hv. destruct (H6 j v Hv) as (k & x & Hx & Hxo & Hxp). destruct (decide (i = k)) as [->|Hne].
    + exists k, p. rewrite lookup_insert_eq. assert (x = q) as -> by congruence.
      split; [done|]. split; congruence.
    + exists k, x. by rewrite lookup_insert_ne.
  - apply round_ok_insert; [done|]. intros x Hx. assert (x = q) as -> by congruence. done.
Qed.

(** A producer leaves the queue *)
Lemma inv_dequeue i q : PO !! i = Some q -> 0 < pow_worker q ->
  inv (<[i := set_pow_worker 0 q]> PO) PV (dec_num_pow g) gp.
Proof.
  intros Hq Hp. destruct HI as [H1 H2 H0 H3 H4 H5 H6 H7].
  pose proof (queued_dequeue PO i (set_pow_worker 0 q) q Hq Hp eq_refl) as Hc.
  assert (Hn : num_pow_witnesses (dec_num_pow g) = num_pow_witnesses g - 1).
  { cbn. apply u32_id. unfold is_word. lia. }
  split; [| | |intros j x|intros j k x y|intros j x| |].
  - rewrite Hn. lia.
  - rewrite Hn. lia.
  - done.
  - rewrite lookup_insert_Some. intros [[<- <-]|[_ Hx]]; [|by apply (H3 j)].
    specialize (H3 i q Hq). cbn. lia.
  - rewrite !lookup_insert_Some. intros [[<- <-]|[? Hx]] [[<- <-]|[? Hy]]; [done|cbn; lia| |by apply H4].
    cbn. lia.
  - rewrite lookup_insert_Some. intros [[<- <-]|[_ Hx]]; [by apply (H5 i q)|by apply (H5 j)].
  - intros j v Hv. destruct (H6 j v Hv) as (k & x & Hx & Hxo & Hxp). destruct (decide (i = k)) as [->|Hne].
    + exists k, (set_pow_worker 0 q). rewrite lookup_insert_eq. assert (x = q) as -> by congruence. done.
    + exists k, x. by rewrite lookup_insert_ne.
  - apply round_ok_insert; [done|]. intros x Hx. assert (x = q) as -> by congruence. done.
Qed.

(** A producer enters the queue at a new place *)
Lemma inv_enqueue i p :
  (forall q, PO !! i = Some q -> owner q = owner p /\ pow_worker q = 0) ->
  owner p <> 0 -> pow_worker p = total_pow g + 1 -> total_pow g + 1 < 2 ^ 64 ->
  num_pow_witnesses g + 1 < 2 ^ 32 ->
  ~ has_votes PV (owner p) ->
  inv (<[i := p]> PO) PV (inc_pow g) gp.
Proof.
  intros Hq Ho Hp Ht Hn Hv. destruct HI as [H1 H2 H0 H3 H4 H5 H6 H7].
  assert (En : num_pow_witnesses (inc_pow g) = num_pow_witnesses g + 1) by (cbn; apply u32_id; unfold is_word; lia).
  assert (Et : total_pow (inc_pow g) = total_pow g + 1) by (cbn; apply u64_id; unfold is_word; lia).
  split; [| | |intros j x|intros j k x y|intros j x| |].
  - rewrite queued_insert_in; [lia|lia|]. intros q Hiq. by apply Hq.
  - lia.
  - lia.
  - rewrite Et, lookup_insert_Some. intros [[<- <-]|[_ Hx]]; [lia|]. specialize (H3 j x Hx). lia.
  - rewrite !lookup_insert_Some. intros [[<- <-]|[? Hx]] [[<- <-]|[? Hy]]; [done| | |by apply H4].
    + specialize (H3 k y Hy). lia.
    + specialize (H3 j x Hx). lia.
  - rewrite lookup_insert_Some. intros [[<- <-]|[_ Hx]]; [done|by apply (H5 j)].
  - intros j v Hjv. destruct (H6 j v Hjv) as (k & x & Hx & Hxo & Hxp). destruct (decide (i = k)) as [->|Hne].
    + exfalso. apply Hv. exists j, v. split; [done|]. rewrite <- Hxo. by apply Hq.
    + exists k, x. by rewrite lookup_insert_ne.
  - apply round_ok_insert; [done|]. intros x Hx. by apply Hq.
Qed.

(** A new producer outside the queue *)
Lemma inv_new_producer i p : PO !! i = None -> owner p <> 0 -> pow_worker p = 0 ->
  inv (<[i := p]> PO) PV g gp.
Proof.
  intros Hi Ho Hp. destruct HI as [H1 H2 H0 H3 H4 H5 H6 H7].
  split; [| | |intros j x|intros j k x y|intros j x| |].
  - rewrite queued_insert_out; [done|lia|]. intros q Hq. congruence.
  - done.
  - done.
  - rewrite lookup_insert_Some. intros [[<- <-]|[_ Hx]]; [|by apply (H3 j)].
    lia.
  - rewrite !lookup_insert_Some. intros [[<- <-]|[? Hx]] [[<- <-]|[? Hy]]; [done|lia|lia|by apply H4].
  - rewrite lookup_insert_Some. intros [[<- <-]|[_ Hx]]; [done|by apply (H5 j)].
  - intros j v Hjv. destruct (H6 j v Hjv) as (k & x & Hx & Hxo & Hxp). exists k, x.
    rewrite lookup_insert_ne by congruence. done.
  - apply round_ok_insert; [done|]. intros x Hx. congruence.
Qed.

(** Votes objects *)
Lemma inv_new_votes j v i p : PO !! i = Some p -> owner p = ownerName v -> pow_worker p = 0 ->
  inv PO (<[j := v]> PV) g gp.
Proof.
  intros Hi Ho Hp. destruct HI as [H1 H2 H0 H3 H4 H5 H6 H7]. split; [done..| |done].
  intros k w. rewrite lookup_insert_Some. intros [[<- <-]|[_ Hw]]; [by exists i, p|by apply (H6 k)].
Qed.

Lemma inv_modify_votes j v w : PV !! j = Some w -> ownerName v = ownerName w -> inv PO (<[j := v]> PV) g gp.
Proof.
  intros Hw Ho. destruct (inv_votes _ _ _ _ HI j w Hw) as (i & p & Hi & Hpo & Hp).
  apply (inv_new_votes j v i p); [done|congruence|done].
Qed.

Lemma inv_remove_votes j : inv PO (delete j PV) g gp.
Proof.
  destruct HI as [H1 H2 H0 H3 H4 H5 H6 H7]. split; [done..| |done].
  intros k w. rewrite lookup_delete_Some. intros [_ Hw]. by apply (H6 k).
Qed.

(** The singletons *)
Lemma inv_dgp g' : num_pow_witnesses g' = num_pow_witnesses g -> total_pow g' = total_pow g -> inv PO PV g' gp.
Proof. intros En Et. destruct HI. by split; rewrite ?En, ?Et. Qed.

Lemma inv_gpo gp' : round_ok PO (active_producers gp') -> inv PO PV g gp'.
Proof. intros Hr. by destruct HI. Qed.
End Changes.

(** ** Databases *)

(** The invariant of a database with its singletons *)
Record InvG (S : saved_db) (g : dynamic_global_property_object) (gp : global_property_object) (d : database)
    : Prop := {
  ig_session : in_session S d;
  ig_dgp : objects dynamic_global_property_object d !! 0 = Some g;
  ig_gpo : objects global_property_object d !! 0 = Some gp;
  ig_pso : is_Some (objects ProducerScheduleObject d !! 0);
  ig_inv : inv (objects producer_object d) (objects ProducerVotesObject d) g gp
}.

Lemma session_wf {V} `{!Indexed V, !Stored V, !Saved V} S d : in_session S d ->
  state_wf (objects V d) (_next_id (get_ix d)).
Proof.
  intros Hd. destruct (session_get S d Hd) as (c & n & Hr). unfold objects.
  rewrite (re_cur _ _ Hr), (re_next _ _ Hr). exact (re_wf _ _ Hr).
Qed.

Lemma objects_id {V} `{!Indexed V, !Stored V, !Saved V} S d i (v : V) : in_session S d ->
  objects V d !! i = Some v -> obj_id v = i.
Proof. intros Hd. apply (wf_id _ _ (session_wf S d Hd)). Qed.

Lemma elem_of_values {V} (m : gmap Z V) v : v ∈ values m <-> exists i, m !! i = Some v.
Proof.
  unfold values. rewrite list_elem_of_fmap. split.
  - intros ([i w] & -> & H). exists i. by apply elem_of_map_to_list.
  - intros (i & H). exists (i, v). split; [done|]. by apply elem_of_map_to_list.
Qed.

(** ** Finding by name *)

Section FindBy.
Context {V : Type} `{!Indexed V, !Stored V, !Saved V}.

Lemma db_find_by_Some S d a (v : V) : in_session S d ->
  db_find_by V a d = Some v <-> objects V d !! obj_id v = Some v /\ ukey v = a.
Proof.
  intros Hd. pose proof (session_wf (V:=V) S d Hd) as Hwf. unfold db_find_by. split.
  - intros H. apply fmap_Some in H as ([i w] & Hh & ->). cbn.
    assert (Hin : (i, w) ∈ filter (fun p : Z * V => ukey p.2 = a) (map_to_list (objects V d))).
    { destruct (filter _ _) as [|x l]; [done|]. cbn in Hh. injection Hh as <-. apply list_elem_of_here. }
    apply list_elem_of_filter in Hin as [Hk Hin]. apply elem_of_map_to_list in Hin.
    split; [|done]. by rewrite (wf_id _ _ Hwf i w Hin).
  - intros [Hv Hk].
    assert (Hin : (obj_id v, v) ∈ filter (fun p : Z * V => ukey p.2 = a) (map_to_list (objects V d))).
    { apply list_elem_of_filter. split; [done|]. by apply elem_of_map_to_list. }
    destruct (filter _ (map_to_list (objects V d))) as [|[i w] l] eqn:E; [by apply not_elem_of_nil in Hin|].
    assert (Hw : (i, w) ∈ filter (fun p : Z * V => ukey p.2 = a) (map_to_list (objects V d)))
      by (rewrite E; apply list_elem_of_here).
    apply list_elem_of_filter in Hw as [Hkw Hw]. apply elem_of_map_to_list in Hw. cbn in *.
    assert (Hi : i = obj_id v) by (eapply (wf_ukey _ _ Hwf); [exact Hw|exact Hv|congruence]).
    rewrite Hi in Hw. rewrite Hv in Hw. by injection Hw as <-.
Qed.

Lemma db_find_by_None d a : db_find_by V a d = None <-> forall i (v : V), objects V d !! i = Some v -> ukey v <> a.
Proof.
  unfold db_find_by. split.
  - intros H i v Hv Hk. apply fmap_None in H.
    assert (Hin : (i, v) ∈ filter (fun p : Z * V => ukey p.2 = a) (map_to_list (objects V d))).
    { apply list_elem_of_filter. split; [done|]. by apply elem_of_map_to_list. }
    destruct (filter _ _); [by apply not_elem_of_nil in Hin|done].
  - intros H. destruct (filter _ _) as [|[i v] l] eqn:E; [done|]. exfalso.
    assert (Hw : (i, v) ∈ filter (fun p : Z * V => ukey p.2 = a) (map_to_list (objects V d)))
      by (rewrite E; apply list_elem_of_here).
    apply list_elem_of_filter in Hw as [Hkw Hw]. apply elem_of_map_to_list in Hw. by apply (H i v).
Qed.
End FindBy.

(** ** Ordered indices *)

Section Values.
Context {V : Type} `{!Indexed V, !Stored V, !Saved V} (T : saved_db) (d : database) (Hd : in_session T d).

Lemma values_key (f : V -> Z) : (forall i j v w, objects V d !! i = Some v -> objects V d !! j = Some w -> f v = f w -> i = j) ->
  NoDup (f <$> values (objects V d)).
Proof.
  intros Hf. unfold values. rewrite <- list_fmap_compose. apply NoDup_fmap_2_strong; [|apply NoDup_map_to_list].
  intros [i v] [j w] Hi%elem_of_map_to_list Hj%elem_of_map_to_list E. cbn in E.
  assert (i = j) as -> by (eapply Hf; eauto). congruence.
Qed.

Lemma values_ukey : NoDup (ukey <$> values (objects V d)).
Proof. apply values_key. intros i j v w. apply (wf_ukey _ _ (session_wf T d Hd)). Qed.

Lemma values_NoDup : NoDup (values (objects V d)).
Proof. eapply NoDup_fmap_1, values_ukey. Qed.
End Values.

Lemma head_elem {A} (l : list A) x : head l = Some x -> x ∈ l.
Proof. destruct l; [done|]. intros [= ->]. apply list_elem_of_here. Qed.

(** The first element of a sorted list that satisfies [P] is the least that does *)
Lemma sorted_first {A} (R : relation A) `{!Reflexive R} (P : A -> Prop) `{!forall x, Decision (P x)} l x :
  StronglySorted R l -> head (filter P l) = Some x -> x ∈ l /\ P x /\ forall y, y ∈ l -> P y -> R x y.
Proof.
  induction 1 as [|a l Hl IH Ha]; [done|]. rewrite filter_cons. case_decide as Hp; cbn.
  - intros [= <-]. split; [apply list_elem_of_here|]. split; [done|].
    intros y [->|Hy]%elem_of_cons _; [done|]. by apply (proj1 (list.Forall_forall _ _) Ha).
  - intros Hx. destruct (IH Hx) as (Hin & Hpx & Hmin). split; [by apply list_elem_of_further|]. split; [done|].
    intros y [->|Hy]%elem_of_cons Hpy; [done|]. by apply Hmin.
Qed.

Lemma filter_head_None {A} (P : A -> Prop) `{!forall x, Decision (P x)} l :
  head (filter P l) = None -> forall y, y ∈ l -> ~ P y.
Proof.
  intros He y Hy Hp. assert (Hin : y ∈ filter P l) by (by apply list_elem_of_filter).
  destruct (filter P l); [by apply not_elem_of_nil in Hin|done].
Qed.

(** Fewer entries satisfy a stronger predicate *)
Lemma filter_size_lt {V} (P Q : Z * V -> Prop) `{!forall x, Decision (P x), !forall x, Decision (Q x)} (m : gmap Z V) i v :
  (forall x, P x -> Q x) -> m !! i = Some v -> Q (i, v) -> ~ P (i, v) -> (size (filter P m) < size (filter Q m))%nat.
Proof.
  intros HPQ Hv Hq Hp. rewrite <- !size_dom. apply subset_size. split.
  - intros j. rewrite !elem_of_dom. intros [x Hx]. apply map_lookup_filter_Some in Hx as [Hx Hl].
    exists x. apply map_lookup_filter_Some. auto.
  - intros Hs. specialize (Hs i). rewrite !elem_of_dom in Hs. destruct Hs as [x Hx].
    + exists v. by apply map_lookup_filter_Some.
    + apply map_lookup_filter_Some in Hx as [Hx Hl]. assert (x = v) as -> by congruence. done.
Qed.

Lemma filter_size_le {V} (P : Z * V -> Prop) `{!forall x, Decision (P x)} (m : gmap Z V) :
  (size (filter P m) <= size m)%nat.
Proof. rewrite <- !size_dom. apply subseteq_size, dom_filter_subseteq. Qed.
