(* ===== verification/DposRace.v ===== *)
(** * The virtual race of the runners-up

    At the end of a round the producers that finished their lap start the next one.  The code
    walks the index ordered by projected finish time while it changes that order, and restarts
    everybody when the race time overflows.  This file shows that the walk ends and that its
    effect is that of a map over the votes objects ([race_spec]). *)

From stdpp Require Import gmap sorting.
From S2P Require Import Prelude Words Exn Chainbase Producer ChainController DposCalls DposUndo DposInv.

#[local] Open Scope Z_scope.

#[export] Instance Race_eq_dec : EqDecision Race.
Proof. solve_decision. Defined.
#[export] Instance PVO_eq_dec : EqDecision ProducerVotesObject.
Proof. solve_decision. Defined.

(** ** A lap *)

Definition restart (t : Z) (v : ProducerVotesObject) : ProducerVotesObject := (startNewRaceLap t v).1.

Definition lap_ok (t : Z) (v : ProducerVotesObject) : Prop := (startNewRaceLap t v).2 = None.
#[export] Instance lap_ok_dec t v : Decision (lap_ok t v).
Proof. unfold lap_ok. apply _. Defined.

(** What a lap does not change *)
Definition core (v : ProducerVotesObject) : Z * Z * Z := (pvo_id v, ownerName v, speed (race v)).

Lemma core_restart t v : core (restart t v) = core v.
Proof. unfold restart, startNewRaceLap, race_update, core. by destruct (_ <? _). Qed.

Lemma lap_core t v w : core w = core v -> lap_ok t v -> startNewRaceLap t w = startNewRaceLap t v.
Proof.
  unfold core, lap_ok, startNewRaceLap, race_update, set_race. intros [= -> -> ->]. by destruct (_ <? _).
Qed.

Lemma restart_again t v : lap_ok t v -> startNewRaceLap t (restart t v) = (restart t v, None).
Proof.
  intros Hv. rewrite (lap_core t v _ (core_restart t v) Hv). unfold restart, lap_ok in *.
  by rewrite <- Hv, <- surjective_pairing.
Qed.

Lemma restart_idem t v : lap_ok t v -> restart t (restart t v) = restart t v.
Proof. intros Hv. unfold restart at 1. by rewrite restart_again. Qed.

Lemma lap_error t v e : (startNewRaceLap t v).2 = Some e -> e = overflow_error.
Proof. unfold startNewRaceLap, race_update. destruct (_ <? _); [by intros [= <-]|done]. Qed.

Lemma lap_zero_ok v : lap_ok 0 v.
Proof.
  unfold lap_ok, startNewRaceLap, race_update. set (s := speed (race v)).
  assert (H : (if 0 <? s then u128 (ProducerRaceLapLength - 0) / s else UInt128_max) <= UInt128_max).
  { destruct (0 <? s) eqn:E; [|done]. apply Z.ltb_lt in E. change (u128 (ProducerRaceLapLength - 0)) with UInt128_max.
    apply Z.div_le_upper_bound; [done|]. unfold UInt128_max. nia. }
  destruct (_ <? 0) eqn:E; [|done]. apply Z.ltb_lt in E. lia.
Qed.

Lemma lap_stable i t : stable_op (Modify i (startNewRaceLap t)).
Proof. by intros v. Qed.

(** ** The order of finish *)

#[export] Instance by_finish_refl : Reflexive by_finish_le.
Proof. intros a. right. lia. Qed.
#[export] Instance by_finish_trans : Transitive by_finish_le.
Proof. intros a b c. unfold by_finish_le. lia. Qed.
#[export] Instance by_finish_total : Total by_finish_le.
Proof. intros a b. unfold by_finish_le. lia. Qed.

Lemma by_finish_antisym a b : by_finish_le a b -> by_finish_le b a -> pvo_id a = pvo_id b.
Proof. unfold by_finish_le. lia. Qed.

Lemma by_finish_elem d v : v ∈ byProjectedRaceFinishTime d <-> exists i, objects ProducerVotesObject d !! i = Some v.
Proof. unfold byProjectedRaceFinishTime. by rewrite merge_sort_Permutation, elem_of_values. Qed.

Lemma by_votes_elem d v : v ∈ byVotes d <-> exists i, objects ProducerVotesObject d !! i = Some v.
Proof. unfold byVotes. by rewrite merge_sort_Permutation, elem_of_values. Qed.

Lemma by_finish_first (P : ProducerVotesObject -> Prop) `{!forall x, Decision (P x)} T d q : in_session T d ->
  head (filter P (byProjectedRaceFinishTime d)) = Some q ->
  objects ProducerVotesObject d !! pvo_id q = Some q /\ P q /\
  forall i w, objects ProducerVotesObject d !! i = Some w -> P w -> by_finish_le q w.
Proof.
  intros Hd Hq. destruct (sorted_first by_finish_le P _ q (StronglySorted_merge_sort _ _) Hq) as (Hin & Hp & Hmin).
  apply by_finish_elem in Hin as [i Hi]. split; [|split; [done|]].
  - rewrite <- (objects_id T d i q Hd Hi) in Hi. exact Hi.
  - intros j w Hw. apply Hmin. apply by_finish_elem. eauto.
Qed.

Lemma by_finish_none (P : ProducerVotesObject -> Prop) `{!forall x, Decision (P x)} d :
  head (filter P (byProjectedRaceFinishTime d)) = None ->
  forall i w, objects ProducerVotesObject d !! i = Some w -> ~ P w.
Proof. intros Hn i w Hw. eapply filter_head_None; [exact Hn|]. apply by_finish_elem. eauto. Qed.

(** ** The reference *)

Definition race_continues (runner : ProducerVotesObject) (PV : gmap Z ProducerVotesObject) : Prop :=
  let t := projectedFinishTime (race runner) in
  t < UInt128_max /\ Exists (fun v => ~ by_finish_le v runner) (values PV) /\
  Forall (fun v => by_finish_le v runner -> lap_ok t v) (values PV).
#[export] Instance race_continues_dec runner PV : Decision (race_continues runner PV).
Proof. unfold race_continues. apply _. Defined.

(** The votes objects and the race time after the runner-up finished *)
Definition race_spec (runner : ProducerVotesObject) (PV : gmap Z ProducerVotesObject)
    : gmap Z ProducerVotesObject * Z :=
  let t := projectedFinishTime (race runner) in
  if decide (race_continues runner PV)
  then ((fun v => if decide (by_finish_le v runner) then restart t v else v) <$> PV, t)
  else (restart 0 <$> PV, 0).

(** ** Modifying the votes objects *)

Section Votes.
Context (T : saved_db).

Lemma lap_step d i t v : in_session T d -> objects ProducerVotesObject d !! i = Some v ->
  exists x, db_modify i (startNewRaceLap t) d = (put_ix x d, from_option inr (inl tt) (startNewRaceLap t v).2) /\
    _indices x = <[i := restart t v]> (objects ProducerVotesObject d) /\ in_session T (put_ix x d).
Proof.
  intros Hd Hv. destruct (db_modify_at T d i (startNewRaceLap t) v Hd Hv (lap_stable i t)) as (x & E & Ex & _ & Hs).
  by exists x.
Qed.

Lemma core_insert (PV : gmap Z ProducerVotesObject) i v t : PV !! i = Some v -> core <$> <[i := restart t v]> PV = core <$> PV.
Proof.
  intros Hv. rewrite fmap_insert, core_restart. apply insert_id. by rewrite lookup_fmap, Hv.
Qed.

(** Restarting everybody at time 0 *)
Lemma reset_all l : forall d, in_session T d ->
  (forall v, v ∈ l -> is_Some (objects ProducerVotesObject d !! pvo_id v)) ->
  exists x, for_each (fun p => db_modify (pvo_id p) (startNewRaceLap 0)) l d = (put_ix x d, inl tt) /\
    in_session T (put_ix x d) /\
    forall i, _indices x !! i = (if decide (i ∈ pvo_id <$> l) then restart 0 else id) <$> objects ProducerVotesObject d !! i.
Proof.
  induction l as [|p l IH]; intros d Hd Hl.
  { exists (get_ix d). split; [by destruct d|]. split; [by destruct d|]. intros i. cbn. by destruct (_ !! i). }
  destruct (Hl p) as [v Hv]; [apply list_elem_of_here|].
  destruct (lap_step d (pvo_id p) 0 v Hd Hv) as (x & E & Ex & Hs). rewrite (lap_zero_ok v) in E.
  destruct (IH (put_ix x d) Hs) as (y & Ey & Hsy & Hy).
  { intros w Hw. destruct (Hl w) as [u Hu]; [by apply list_elem_of_further|]. unfold objects; cbn. rewrite Ex.
    destruct (decide (pvo_id p = pvo_id w)) as [->|Hne]; [rewrite lookup_insert_eq|rewrite lookup_insert_ne by done]; eauto. }
  exists y. split; [cbn; erewrite bind_inl by exact E; exact Ey|]. split; [exact Hsy|].
  intros i. rewrite Hy. unfold objects at 1. cbn [get_ix put_ix votes_stored votes_ix]. rewrite Ex.
  destruct (decide (pvo_id p = i)) as [<-|Hne].
  - rewrite lookup_insert_eq, Hv. rewrite (decide_True (P:=pvo_id p ∈ pvo_id <$> p :: l)) by apply list_elem_of_here.
    case_decide; [|done]. apply (f_equal Some), restart_idem, lap_zero_ok.
  - rewrite lookup_insert_ne by done. f_equal. cbn. do 2 case_decide; set_solver.
Qed.

Lemma reset_spec d s : in_session T d -> objects ProducerScheduleObject d !! 0 = Some s ->
  exists x y, resetProducerRace d = (put_ix y (put_ix x d), inl tt) /\ in_session T (put_ix y (put_ix x d)) /\
    _indices x = restart 0 <$> objects ProducerVotesObject d /\
    _indices y = <[0 := MkPSO (pso_id s) 0]> (objects ProducerScheduleObject d).
Proof.
  intros Hd Hs. destruct (reset_all (byVotes d) d Hd) as (x & Ex & Hsx & Hx).
  { intros v [i Hi]%by_votes_elem. rewrite <- (objects_id T d i v Hd Hi) in Hi. eauto. }
  assert (Hsp : objects ProducerScheduleObject (put_ix x d) !! 0 = Some s) by exact Hs.
  destruct (db_modify_at T (put_ix x d) 0 (pure_mod (fun s => MkPSO (pso_id s) 0)) s Hsx Hsp ltac:(done))
    as (y & Ey & Eyi & _ & Hsy).
  exists x, y. split; [|split; [done|split; [|done]]].
  - unfold resetProducerRace. erewrite bind_inl by reflexivity. erewrite bind_inl by exact Ex. exact Ey.
  - apply map_eq. intros i. rewrite Hx, lookup_fmap. destruct (objects ProducerVotesObject d !! i) as [v|] eqn:Ev; [|done].
    cbn. rewrite decide_True; [done|]. apply list_elem_of_fmap. exists v.
    split; [symmetry; exact (objects_id T d i v Hd Ev)|]. apply by_votes_elem. eauto.
Qed.

(** ** The walk over the lap completers *)

(** The walk from [p] in a database: the producers up to the runner-up are done or lie ahead *)
Section Walk.
Context (runner finish : ProducerVotesObject) (PV : gmap Z ProducerVotesObject).
#[local] Abbreviation t := (projectedFinishTime (race runner)).
Hypothesis PV_id : forall i v, PV !! i = Some v -> pvo_id v = i.
Hypothesis finish_in : PV !! pvo_id finish = Some finish.
Hypothesis finish_after : ~ by_finish_le finish runner.
Hypothesis finish_least : forall i v, PV !! i = Some v -> ~ by_finish_le v runner -> by_finish_le finish v.

Definition lap_done (m : gmap Z ProducerVotesObject) (i : Z) (v : ProducerVotesObject) : Prop :=
  lap_ok t v /\ m !! i = Some (restart t v).

Record walk (m : gmap Z ProducerVotesObject) (p : ProducerVotesObject) : Prop := {
  wk_dom : forall i, PV !! i = None -> m !! i = None;
  wk_rest : forall i v, PV !! i = Some v -> ~ by_finish_le v runner -> m !! i = Some v;
  wk_todo : forall i v, PV !! i = Some v -> by_finish_le v runner ->
    lap_done m i v \/ m !! i = Some v /\ by_finish_le p v;
  wk_here : m !! pvo_id p = Some p;
  wk_finish : by_finish_le p finish
}.

(** Every element of the database is an original one or its restart *)
Lemma walk_inv m p i w : walk m p -> m !! i = Some w ->
  exists v, PV !! i = Some v /\ (w = v \/ by_finish_le v runner /\ lap_ok t v /\ w = restart t v).
Proof.
  intros Hw Hm. destruct (PV !! i) as [v|] eqn:Ev; [|by rewrite (wk_dom _ _ Hw i Ev) in Hm].
  exists v. split; [done|]. destruct (decide (by_finish_le v runner)) as [Hle|Hle].
  - destruct (wk_todo _ _ Hw i v Ev Hle) as [[Hok E]|[E _]]; [right|left]; [split; [done|split; [done|]]|]; congruence.
  - rewrite (wk_rest _ _ Hw i v Ev Hle) in Hm. left. congruence.
Qed.

(** At the end every completer is done *)
Lemma walk_end m p : walk m p -> pvo_id p = pvo_id finish ->
  m = (fun v => if decide (by_finish_le v runner) then restart t v else v) <$> PV /\
  forall i v, PV !! i = Some v -> by_finish_le v runner -> lap_ok t v.
Proof.
  intros Hw Hid.
  assert (p = finish) as ->.
  { pose proof (wk_here _ _ Hw) as Hp. rewrite Hid, (wk_rest _ _ Hw _ _ finish_in finish_after) in Hp. congruence. }
  assert (Hd : forall i v, PV !! i = Some v -> by_finish_le v runner -> lap_done m i v).
  { intros i v Hv Hle. destruct (wk_todo _ _ Hw i v Hv Hle) as [H|[_ H]]; [done|].
    exfalso. apply finish_after. by transitivity v. }
  split; [|intros i v Hv Hle; by apply (Hd i v)].
  apply map_eq. intros i. rewrite lookup_fmap. destruct (PV !! i) as [v|] eqn:Ev; cbn; [|by apply (wk_dom _ _ Hw)].
  case_decide as Hle; [by apply (Hd i v)|by apply (wk_rest _ _ Hw)].
Qed.

(** A step: [p] starts its lap, [q] is the element after it *)
Lemma walk_step m p q : walk m p -> pvo_id p <> pvo_id finish ->
  m !! pvo_id q = Some q -> ~ by_finish_le q p ->
  (forall i w, m !! i = Some w -> ~ by_finish_le w p -> by_finish_le q w) ->
  lap_ok t p -> walk (<[pvo_id p := restart t p]> m) q.
Proof.
  intros Hw Hne Hq Hqp Hleast Hok. pose proof (wk_here _ _ Hw) as Hp.
  destruct (walk_inv m p _ p Hw Hp) as (v0 & Hv0 & Hv0p).
  assert (Hle0 : by_finish_le v0 runner).
  { destruct (decide (by_finish_le v0 runner)) as [H|H]; [done|]. exfalso.
    destruct Hv0p as [->|[H' _]]; [|done]. apply Hne, by_finish_antisym; [apply (wk_finish _ _ Hw)|by eapply finish_least]. }
  assert (Hr : lap_ok t v0 /\ restart t p = restart t v0).
  { destruct Hv0p as [->|(_ & Hv & ->)]; [done|]. split; [done|]. by apply restart_idem. }
  split.
  - intros i Hi. rewrite lookup_insert_ne by congruence. by apply (wk_dom _ _ Hw).
  - intros i v Hv Hle. rewrite lookup_insert_ne; [by apply (wk_rest _ _ Hw)|].
    intros <-. assert (v = v0) as -> by congruence. done.
  - intros i v Hv Hle. destruct (decide (pvo_id p = i)) as [<-|Hi].
    + left. assert (v = v0) as -> by congruence. destruct Hr as [Hr1 Hr2]. split; [done|].
      by rewrite lookup_insert_eq, Hr2.
    + unfold lap_done. rewrite lookup_insert_ne by done. destruct (wk_todo _ _ Hw i v Hv Hle) as [H|[H1 H2]]; [by left|].
      right. split; [done|]. apply (Hleast i v H1). intros H3. apply Hi.
      rewrite (by_finish_antisym p v H2 H3). by apply PV_id.
  - rewrite lookup_insert_ne; [done|]. intros E. rewrite E, Hq in Hp. injection Hp as ->. by apply Hqp.
  - apply (Hleast (pvo_id finish) finish); [by apply (wk_rest _ _ Hw)|].
    intros H. apply Hne, by_finish_antisym; [apply (wk_finish _ _ Hw)|done].
Qed.

(** Elements that a lap would change, and elements after [p] *)
Definition to_restart (m : gmap Z ProducerVotesObject) : nat :=
  size (filter (fun x : Z * ProducerVotesObject => restart t x.2 <> x.2) m).
Definition ahead (m : gmap Z ProducerVotesObject) (p : ProducerVotesObject) : nat :=
  size (filter (fun x : Z * ProducerVotesObject => ~ by_finish_le x.2 p) m).
Definition walk_measure (m : gmap Z ProducerVotesObject) (p : ProducerVotesObject) : nat :=
  (to_restart m * S (size m) + ahead m p)%nat.

Lemma walk_measure_step m p q : m !! pvo_id p = Some p -> m !! pvo_id q = Some q -> ~ by_finish_le q p ->
  lap_ok t p -> (walk_measure (<[pvo_id p := restart t p]> m) q < walk_measure m p)%nat.
Proof.
  intros Hp Hq Hqp Hok. unfold walk_measure. set (m' := <[_ := _]> m).
  assert (Hsz : size m' = size m) by (apply map_size_insert_Some; eauto). rewrite Hsz.
  pose proof (filter_size_le (fun x : Z * ProducerVotesObject => ~ by_finish_le x.2 q) m') as Ha. fold (ahead m' q) in Ha.
  destruct (decide (restart t p = p)) as [E|E].
  - assert (m' = m) as -> by (unfold m'; rewrite E; by apply insert_id). apply Nat.add_lt_mono_l.
    apply (filter_size_lt _ _ m (pvo_id q) q); [|done|done|intros H; apply H; reflexivity].
    intros x Hx Hxp. apply Hx. destruct (total by_finish_le x.2 q) as [H|H]; [done|].
    exfalso. apply Hqp. by transitivity x.2.
  - enough (to_restart m = S (to_restart m')) by (unfold lt; nia).
    apply (filter_size_dec _ m _ p _ Hp E). intros H. by apply H, restart_idem.
Qed.

(** The walk ends within its fuel: with every completer restarted, or with the overflow of one *)
Lemma walk_loop fuel : forall d p, in_session T d -> walk (objects ProducerVotesObject d) p ->
  (walk_measure (objects ProducerVotesObject d) p <= fuel)%nat ->
  exists x r, lap_loop fuel (Some p) (pvo_id finish) t d = (put_ix x d, r) /\ in_session T (put_ix x d) /\
    core <$> _indices x = core <$> objects ProducerVotesObject d /\
    ((r = inl tt /\ exists p', pvo_id p' = pvo_id finish /\ walk (_indices x) p') \/
     (r = inr overflow_error /\ exists i v, PV !! i = Some v /\ by_finish_le v runner /\ ~ lap_ok t v)).
Proof.
  induction fuel as [|fuel IH]; intros d p Hd Hw Hm.
  - assert (Hz : pvo_id p = pvo_id finish).
    { destruct (decide (pvo_id p = pvo_id finish)) as [|Hne]; [done|]. exfalso.
      assert (Hf : ahead (objects ProducerVotesObject d) p <> O); [|unfold walk_measure in Hm; lia].
      intros Ez. apply map_size_empty_inv in Ez.
      assert (Hin : filter (fun x : Z * ProducerVotesObject => ~ by_finish_le x.2 p) (objects ProducerVotesObject d)
        !! pvo_id finish = Some finish); [|by rewrite Ez in Hin].
      apply map_lookup_filter_Some. split; [by apply (wk_rest _ _ Hw)|]. cbn. intros Hle.
      apply Hne, by_finish_antisym; [apply (wk_finish _ _ Hw)|done]. }
    exists (get_ix d), (inl tt). cbn. rewrite decide_True by done. destruct d. split; [done|].
    split; [done|]. split; [done|]. left. split; [done|]. by exists p.
  - cbn [lap_loop]. case_decide as Hz.
    { exists (get_ix d), (inl tt). destruct d. split; [done|]. split; [done|]. split; [done|].
      left. split; [done|]. by exists p. }
    erewrite bind_inl by reflexivity. cbn beta.
    destruct (by_finish_after p d) as [q|] eqn:Eq.
    2:{ exfalso. pose proof (by_finish_none _ d Eq _ _ (wk_rest _ _ Hw _ _ finish_in finish_after)) as H.
        apply H. intros Hle. apply Hz, by_finish_antisym; [apply (wk_finish _ _ Hw)|done]. }
    destruct (by_finish_first _ T d q Hd Eq) as (Hq & Hqp & Hleast).
    pose proof (wk_here _ _ Hw) as Hp. destruct (lap_step d (pvo_id p) t p Hd Hp) as (x & E & Ex & Hs).
    destruct (startNewRaceLap t p).2 as [e|] eqn:Eo.
    + rewrite (bind_inr _ _ _ _ _ E). exists x, (inr e). rewrite Ex, core_insert by done.
      split; [done|]. split; [done|]. split; [done|]. right. rewrite (lap_error _ _ _ Eo). split; [done|].
      destruct (walk_inv _ p _ p Hw Hp) as (v & Hv & Hpv). exists (pvo_id p), v. split; [done|].
      destruct Hpv as [->|(Hle & Hok & ->)].
      * split; [|unfold lap_ok; by rewrite Eo]. destruct (decide (by_finish_le v runner)) as [|H]; [done|].
        exfalso. apply Hz, by_finish_antisym; [apply (wk_finish _ _ Hw)|by eapply finish_least].
      * by rewrite (restart_again _ _ Hok) in Eo.
    + rewrite (bind_inl _ _ _ _ _ E). erewrite bind_inl by reflexivity. cbn [mbind option_bind].
      assert (Hob : objects ProducerVotesObject (put_ix x d) = <[pvo_id p := restart t p]> (objects ProducerVotesObject d)) by exact Ex.
      pose proof (walk_step _ p q Hw Hz Hq Hqp Hleast Eo) as Hw'. rewrite <- Hob in Hw'.
      pose proof (walk_measure_step _ p q Hp Hq Hqp Eo) as Hm'. rewrite <- Hob in Hm'.
      unfold db_find. rewrite (wk_here _ _ Hw').
      destruct (IH (put_ix x d) q Hs Hw' ltac:(lia)) as (y & r & Ey & Hsy & Hc & Hr).
      exists y, r. split; [exact Ey|]. split; [exact Hsy|]. split; [|done].
      rewrite Hc, Hob. by apply core_insert.
Qed.
End Walk.

(** The walk that [update_race] starts *)
Lemma race_walk d runner finish :
  in_session T d -> objects ProducerVotesObject d !! pvo_id runner = Some runner ->
  by_finish_after runner d = Some finish ->
  let PV := objects ProducerVotesObject d in
  let t := projectedFinishTime (race runner) in
  exists x r,
    lap_loop (lap_fuel d) (head (filter (fun q => by_finish_le q runner) (byProjectedRaceFinishTime d)))
      (pvo_id finish) t d = (put_ix x d, r) /\ in_session T (put_ix x d) /\
    core <$> _indices x = core <$> PV /\
    ((r = inl tt /\ (forall i v, PV !! i = Some v -> by_finish_le v runner -> lap_ok t v) /\
      _indices x = (fun v => if decide (by_finish_le v runner) then restart t v else v) <$> PV) \/
     (r = inr overflow_error /\ exists i v, PV !! i = Some v /\ by_finish_le v runner /\ ~ lap_ok t v)).
Proof.
  intros Hd Hr Hf PV t. destruct (by_finish_first _ T d finish Hd Hf) as (Hin & Hafter & Hleast).
  destruct (head (filter (fun q => by_finish_le q runner) _)) as [p|] eqn:Ep.
  2:{ exfalso. by apply (by_finish_none _ d Ep _ _ Hr). }
  destruct (by_finish_first _ T d p Hd Ep) as (Hp & Hpr & Hpleast).
  assert (Hw : walk runner finish PV PV p).
  { split; [done..| |done|]; [|transitivity runner; [done|]].
    - intros i v Hv Hle. right. split; [done|]. by apply (Hpleast i v).
    - destruct (total by_finish_le runner finish); [done|by exfalso]. }
  assert (Hm : (walk_measure runner PV p <= lap_fuel d)%nat).
  { unfold walk_measure, lap_fuel. fold PV. unfold to_restart, ahead.
    pose proof (filter_size_le (fun x : Z * ProducerVotesObject => restart (projectedFinishTime (race runner)) x.2 <> x.2) PV).
    pose proof (filter_size_le (fun x : Z * ProducerVotesObject => ~ by_finish_le x.2 p) PV). nia. }
  destruct (walk_loop runner finish PV (fun i v => objects_id T d i v Hd) Hin Hafter Hleast
    (lap_fuel d) d p Hd Hw Hm) as (x & r & E & Hs & Hc & Hcase).
  exists x, r. split; [exact E|]. split; [done|]. split; [done|].
  destruct Hcase as [(-> & p' & Hp' & Hw')|Hcase]; [left|by right].
  destruct (walk_end runner finish PV Hin Hafter _ p' Hw' Hp') as [Hend Hok]. by split; [|split].
Qed.

Lemma reset_core (PV PV' : gmap Z ProducerVotesObject) : core <$> PV' = core <$> PV -> restart 0 <$> PV' = restart 0 <$> PV.
Proof.
  intros E. apply map_eq. intros i. apply (f_equal (fun m => m !! i)) in E. rewrite !lookup_fmap in *.
  destruct (PV' !! i) as [w|], (PV !! i) as [v|]; cbn in E; try done. apply (inj Some) in E. apply (f_equal Some).
  unfold restart. by rewrite (lap_core 0 v w E (lap_zero_ok v)).
Qed.

Lemma continues_iff runner d : race_continues runner (objects ProducerVotesObject d) <->
  projectedFinishTime (race runner) < UInt128_max /\ is_Some (by_finish_after runner d) /\
  forall i v, objects ProducerVotesObject d !! i = Some v -> by_finish_le v runner ->
    lap_ok (projectedFinishTime (race runner)) v.
Proof.
  unfold race_continues. rewrite list.Exists_exists, list.Forall_forall. apply and_iff_compat_l.
  assert (E1 : (exists v, v ∈ values (objects ProducerVotesObject d) /\ ~ by_finish_le v runner) <->
    is_Some (by_finish_after runner d)).
  { split.
    - intros (v & Hv%elem_of_values & Hle). destruct Hv as [i Hv].
      destruct (by_finish_after runner d) eqn:E; [by eexists|]. exfalso. by apply (by_finish_none _ d E i v Hv).
    - intros [q Hq]. unfold by_finish_after in Hq. apply head_elem, list_elem_of_filter in Hq as [Hle Hq].
      exists q. split; [|done]. apply elem_of_values. by apply by_finish_elem. }
  rewrite E1. apply and_iff_compat_l. split.
  - intros H i v Hv. apply H. apply elem_of_values. eauto.
  - intros H v [i Hv]%elem_of_values. eauto.
Qed.

(** ** The race after a round *)
Lemma update_race_ok d s runner :
  in_session T d -> objects ProducerScheduleObject d !! 0 = Some s ->
  db_find_by ProducerVotesObject (ownerName runner) d = Some runner ->
  exists x y, update_race (ownerName runner) d = (put_ix y (put_ix x d), inl tt) /\
    in_session T (put_ix y (put_ix x d)) /\
    _indices x = (race_spec runner (objects ProducerVotesObject d)).1 /\
    _indices y = <[0 := MkPSO (pso_id s) (race_spec runner (objects ProducerVotesObject d)).2]>
      (objects ProducerScheduleObject d).
Proof.
  intros Hd Hs Hr. unfold update_race.
  erewrite bind_inl by (unfold db_get_by; rewrite Hr; reflexivity). erewrite bind_inl by reflexivity. cbn zeta.
  apply (proj1 (db_find_by_Some T d _ runner Hd)) in Hr as [Hr _]. cbn [obj_id PVO_indexed] in Hr.
  unfold try_catch, race_spec. destruct (by_finish_after runner d) as [finish|] eqn:Ef.
  2:{ rewrite decide_False; [|intros (_ & [q Hq] & _)%continues_iff; congruence].
      destruct (reset_spec d s Hd Hs) as (x & y & -> & H). exists x, y. by split. }
  destruct (_ <? UInt128_max) eqn:Et.
  2:{ apply Z.ltb_ge in Et. rewrite decide_False; [|intros (Hlt & _)%continues_iff; lia].
      destruct (reset_spec d s Hd Hs) as (x & y & -> & H). exists x, y. by split. }
  apply Z.ltb_lt in Et. destruct (race_walk d runner finish Hd Hr Ef) as (x & r & E & Hsx & Hc & Hcase).
  assert (Hsp : objects ProducerScheduleObject (put_ix x d) !! 0 = Some s) by exact Hs.
  destruct Hcase as [(-> & Hok & Hend)|(-> & i & v & Hv & Hle & Hno)].
  - rewrite (bind_inl _ _ _ _ _ E). rewrite decide_True by (apply continues_iff; rewrite Ef; eauto).
    destruct (db_modify_at T (put_ix x d) 0 (pure_mod (fun s => MkPSO (pso_id s) (projectedFinishTime (race runner)))) s
      Hsx Hsp ltac:(done)) as (y & -> & Eyi & _ & Hsy). cbn. by exists x, y.
  - rewrite (bind_inr _ _ _ _ _ E). rewrite decide_False by (intros (_ & _ & H)%continues_iff; by eapply Hno, H).
    destruct (reset_spec (put_ix x d) s Hsx Hsp) as (x' & y & -> & Hsy & Ex & Ey). exists x', y.
    split; [done|]. split; [done|]. split; [|done]. rewrite Ex. by apply reset_core.
Qed.
End Votes.
