(* ===== verification/DposSchedule.v ===== *)
(** * The next round of producers

    [calculateNextRound] on a database that satisfies the invariant: its loops end within their
    fuel although they change the index they walk over, it does not throw once there is a
    candidate, and the round has 21 slots without repetition. *)

From stdpp Require Import gmap sorting.
From S2P Require Import Prelude Words Exn Chainbase Producer ChainController DposCalls DposUndo DposInv DposRace.

#[local] Open Scope Z_scope.

(** Taking a producer out of the queue *)
Lemma dequeue S g gp d p :
  InvG S g gp d -> objects producer_object d !! po_id p = Some p -> 0 < pow_worker p ->
  exists d', (db_modify (po_id p) (pure_mod (set_pow_worker 0));; db_modify 0 (pure_mod dec_num_pow)) d = (d', inl tt) /\
    InvG S (dec_num_pow g) gp d' /\
    objects producer_object d' = <[po_id p := set_pow_worker 0 p]> (objects producer_object d) /\
    objects ProducerVotesObject d' = objects ProducerVotesObject d /\
    objects ProducerScheduleObject d' = objects ProducerScheduleObject d.
Proof.
  intros [Hs Hg Hgp Hpso HI] Hp Hw.
  destruct (db_modify_at S d (po_id p) (pure_mod (set_pow_worker 0)) p Hs Hp ltac:(done)) as (x & E1 & Ex & _ & Hs1).
  assert (Hg1 : objects dynamic_global_property_object (put_ix x d) !! 0 = Some g) by exact Hg.
  destruct (db_modify_at S (put_ix x d) 0 (pure_mod dec_num_pow) g Hs1 Hg1 ltac:(done)) as (y & E2 & Ey & _ & Hs2).
  exists (put_ix y (put_ix x d)). split; [by erewrite bind_inl by exact E1|].
  cbn in Ex, Ey. unfold objects in *. cbn in *. split; [|by rewrite Ex].
  split; [exact Hs2|..]; unfold objects; cbn.
  - by rewrite Ey, lookup_insert_eq.
  - done.
  - done.
  - rewrite Ex. by apply inv_dequeue.
Qed.

(** The fields of the dynamic properties that the schedule leaves alone *)
Definition same_but_num (g g' : dynamic_global_property_object) : Prop := g' = set_num_pow (num_pow_witnesses g') g.

Lemma same_but_num_refl g : same_but_num g g.
Proof. by destruct g. Qed.
Lemma same_but_num_dec g g' : same_but_num (dec_num_pow g) g' -> same_but_num g g'.
Proof. unfold same_but_num. intros ->. by destruct g. Qed.


(** ** The queue *)

Definition queue (d : database) : list producer_object :=
  merge_sort pow_le (filter (fun p => 0 < pow_worker p) (values (objects producer_object d))).

#[export] Instance pow_le_trans : Transitive pow_le.
Proof. intros a b c. unfold pow_le. lia. Qed.
#[export] Instance pow_le_total : Total pow_le.
Proof. intros a b. unfold pow_le. lia. Qed.

Lemma queue_elem d p : p ∈ queue d <-> 0 < pow_worker p /\ exists i, objects producer_object d !! i = Some p.
Proof. unfold queue. by rewrite merge_sort_Permutation, list_elem_of_filter, elem_of_values. Qed.

Lemma values_filter {V} (P : V -> Prop) `{!forall x, Decision (P x)} (m : gmap Z V) :
  filter P (values m) ≡ₚ values (filter (fun x : Z * V => P x.2) m).
Proof.
  unfold values. rewrite map_filter_alt, map_to_list_to_map.
  - induction (map_to_list m) as [|[i v] l IH]; [done|].
    rewrite fmap_cons, !filter_cons. cbn [snd]. case_decide; [|done]. rewrite fmap_cons. by constructor.
  - eapply sublist_NoDup; [apply (NoDup_fst_map_to_list m)|]. apply fmap_sublist, sublist_filter.
Qed.

Lemma queue_length d : length (queue d) = size (queued (objects producer_object d)).
Proof.
  unfold queue, queued. rewrite merge_sort_Permutation, values_filter. unfold values.
  by rewrite length_fmap, length_map_to_list.
Qed.

Section Schedule.
Context (T : saved_db) (gp : global_property_object).

Lemma queue_NoDup d : in_session T d -> NoDup (owner <$> queue d).
Proof.
  intros Hd. unfold queue. rewrite merge_sort_Permutation.
  eapply sublist_NoDup; [apply (values_ukey (V:=producer_object) T d Hd)|]. apply fmap_sublist, sublist_filter.
Qed.

Lemma queue_first d p q : in_session T d -> queue d = p :: q ->
  0 < pow_worker p /\ objects producer_object d !! po_id p = Some p.
Proof.
  intros Hd Hq. assert (Hin : p ∈ queue d) by (rewrite Hq; apply list_elem_of_here).
  apply queue_elem in Hin as [Hw [i Hi]]. split; [done|]. by rewrite <- (objects_id T d i p Hd Hi) in Hi.
Qed.

(** Taking the first of the queue leaves the rest of it *)
Lemma queue_dequeue g d d' p q :
  InvG T g gp d -> in_session T d' -> queue d = p :: q ->
  objects producer_object d' = <[po_id p := set_pow_worker 0 p]> (objects producer_object d) ->
  queue d' = q.
Proof.
  intros HI Hd' Hq HPO. pose proof (ig_session _ _ _ _ HI) as Hd.
  assert (Hin : forall x, x ∈ p :: q <-> 0 < pow_worker x /\ exists i, objects producer_object d !! i = Some x)
    by (intros x; rewrite <- Hq; apply queue_elem).
  assert (Hnd : NoDup (p :: q)).
  { rewrite <- Hq. eapply NoDup_fmap_1, queue_NoDup, Hd. }
  assert (Hp : objects producer_object d !! po_id p = Some p).
  { destruct (proj1 (Hin p) (list_elem_of_here _ _)) as [_ [i Hi]]. by rewrite <- (objects_id T d i p Hd Hi) in Hi. }
  assert (Hmem : forall x, x ∈ queue d' <-> x ∈ q).
  { intros x. rewrite queue_elem, HPO. split.
    - intros [Hx [i Hi]]. apply lookup_insert_Some in Hi as [[<- <-]|[Hne Hi]]; [cbn in Hx; lia|].
      assert (Hx' : x ∈ p :: q) by (apply Hin; eauto). apply elem_of_cons in Hx' as [->|]; [|done].
      exfalso. exact (Hne (objects_id T d i p Hd Hi)).
    - intros Hx. destruct (proj1 (Hin x) (list_elem_of_further _ _ _ Hx)) as [Hw [i Hi]]. split; [done|]. exists i.
      rewrite lookup_insert_ne; [done|]. intros <-. assert (x = p) as -> by congruence.
      apply list.NoDup_cons in Hnd as [Hnp _]. done. }
  apply (StronglySorted_unique_strong pow_le).
  - intros x y Hx Hy H1 H2. apply Hmem in Hx. destruct (proj1 (Hin x) (list_elem_of_further _ _ _ Hx)) as [Hwx [i Hi]].
    destruct (proj1 (Hin y) (list_elem_of_further _ _ _ Hy)) as [Hwy [j Hj]]. unfold pow_le in *.
    assert (i = j) as -> by (eapply (inv_distinct _ _ _ _ (ig_inv _ _ _ _ HI)); [exact Hi|exact Hj|done|lia]). congruence.
  - apply StronglySorted_merge_sort; apply _.
  - assert (Hs : StronglySorted pow_le (p :: q)) by (rewrite <- Hq; apply StronglySorted_merge_sort; apply _).
    by inversion Hs.
  - apply list.NoDup_Permutation; [eapply NoDup_fmap_1, queue_NoDup, Hd'|by apply list.NoDup_cons in Hnd as [_ ?]|exact Hmem].
Qed.

(** Nobody in the queue has votes *)
Lemma queued_no_votes g d p : InvG T g gp d -> p ∈ queue d -> ~ has_votes (objects ProducerVotesObject d) (owner p).
Proof.
  intros HI [Hw [k Hk]]%queue_elem (j & v & Hv & Ho).
  destruct (inv_votes _ _ _ _ (ig_inv _ _ _ _ HI) j v Hv) as (i & x & Hx & Hxo & Hxw).
  assert (i = k) as -> by (eapply (wf_ukey _ _ (session_wf (V:=producer_object) T d (ig_session _ _ _ _ HI)));
    [exact Hx|exact Hk|cbn in *; congruence]).
  assert (x = p) as -> by congruence. lia.
Qed.

Lemma same_owners_insert (PO : gmap Z producer_object) i p : PO !! i = Some p ->
  owner <$> <[i := set_pow_worker 0 p]> PO = owner <$> PO.
Proof. intros Hp. rewrite fmap_insert. apply insert_id. by rewrite lookup_fmap, Hp. Qed.

(** ** The loop over the queue takes its first [room] names *)
Lemma pow_loop_spec fuel : forall q g d room round processed,
  InvG T g gp d -> queue d = q -> (forall p, p ∈ q -> owner p ∉ processed) -> (length q <= fuel)%nat ->
  exists d' g', pow_loop fuel (head q) room round processed d =
      (d', inl (round ++ (owner <$> take room q), processed ∪ list_to_set (owner <$> take room q))) /\
    InvG T g' gp d' /\ same_but_num g g' /\ queue d' = drop room q /\
    objects ProducerVotesObject d' = objects ProducerVotesObject d /\
    objects ProducerScheduleObject d' = objects ProducerScheduleObject d /\
    owner <$> objects producer_object d' = owner <$> objects producer_object d.
Proof.
  induction fuel as [|fuel IH]; intros q g d room round processed HI Hq Hproc Hlen;
    (destruct q as [|p q]; [|destruct room as [|room]]);
    try (exists d, g; rewrite ?take_nil, ?drop_nil, ?take_0; cbn [fmap list_fmap head list.head];
         rewrite list_to_set_nil, app_nil_r, union_empty_r_L; split; [done|];
         split; [done|split; [apply same_but_num_refl|done]]).
  { cbn in Hlen. lia. }
  pose proof (ig_session _ _ _ _ HI) as Hd.
  destruct (queue_first d p q Hd Hq) as [Hw Hp]. destruct (dequeue T g gp d p HI Hp Hw) as (d1 & E1 & HI1 & HPO & HPV & HPS).
  pose proof (ig_session _ _ _ _ HI1) as Hd1.
  assert (Hnv : db_find_by ProducerVotesObject (owner p) d1 = None).
  { apply db_find_by_None. intros j v Hv Ho. rewrite HPV in Hv.
    apply (queued_no_votes g d p HI); [rewrite Hq; apply list_elem_of_here|by exists j, v]. }
  assert (Hq1 : queue d1 = q) by exact (queue_dequeue g d d1 p q HI Hd1 Hq HPO).
  assert (Hnext : by_pow_next (po_id p) d1 = head q).
  { unfold by_pow_next, db_find. rewrite HPO, lookup_insert_eq. rewrite <- Hq1. reflexivity. }
  cbn [pow_loop list.head]. rewrite decide_False by (apply Hproc, list_elem_of_here).
  rewrite bind_assoc_st. rewrite (bind_inl _ _ _ _ _ E1). erewrite bind_inl by reflexivity. rewrite Hnv, Hnext.
  destruct (IH q (dec_num_pow g) d1 room (round ++ [owner p]) (processed ∪ {[owner p]}) HI1 Hq1) as
    (d' & g' & E & HI' & Hs & Hq' & HV & HS & HO).
  { intros x Hx. pose proof (queue_NoDup d Hd) as Hnd. rewrite Hq, fmap_cons in Hnd. apply list.NoDup_cons in Hnd as [Hn _].
    apply not_elem_of_union. split; [apply Hproc; by apply list_elem_of_further|].
    rewrite not_elem_of_singleton. intros Heq. apply Hn. rewrite <- Heq. by apply list_elem_of_fmap_2. }
  { cbn in Hlen. lia. }
  exists d', g'. split.
  { rewrite E. cbn [take fmap list_fmap]. rewrite <- app_assoc, list_to_set_cons. cbn. by rewrite (assoc_L (∪)). }
  split; [done|]. split; [by apply same_but_num_dec|]. split; [done|]. split; [by rewrite HV|]. split; [by rewrite HS|].
  rewrite HO, HPO. by apply same_owners_insert.
Qed.

(** ** The round *)

(** Names by votes, and the first name by finish time that is not one of them *)
Definition top (d : database) : list Z := ownerName <$> take DPOSVotedProducersPerRound (byVotes d).
Definition runners (d : database) : list Z :=
  take DPOSRunnerupProducersPerRound
    (filter (fun a => a ∉ (list_to_set (top d) : gset Z)) (ownerName <$> byProjectedRaceFinishTime d)).

(** Votes count once there is no queue, or after block 84 *)
Definition votes_count (g : dynamic_global_property_object) : bool :=
  (num_pow_witnesses g =? 0) || (StartMinerVotingBlock <? head_block_number g).
Definition voted (g : dynamic_global_property_object) (d : database) : list Z :=
  if votes_count g then top d ++ runners d else [].
(** A queue of more than a round loses its first *)
Definition waiting (g : dynamic_global_property_object) (d : database) : list producer_object :=
  if Z.of_nat TotalProducersPerRound <? num_pow_witnesses g then tail (queue d) else queue d.
Definition room (g : dynamic_global_property_object) (d : database) : nat :=
  if StartMinerVotingBlock <? head_block_number g then POWProducersPerRound
  else (TotalProducersPerRound - length (voted g d))%nat.
Definition chosen (g : dynamic_global_property_object) (d : database) : list Z :=
  voted g d ++ (owner <$> take (room g d) (waiting g d)).
Definition round_spec (g : dynamic_global_property_object) (d : database) : list Z :=
  chosen g d ++ replicate (TotalProducersPerRound - length (chosen g d)) 0.
(** The votes objects after the round: the race goes on if a runner-up was taken *)
Definition votes_after (g : dynamic_global_property_object) (d : database) : gmap Z ProducerVotesObject :=
  match (if votes_count g then runners d else []) with
  | [] => objects ProducerVotesObject d
  | a :: _ =>
      match db_find_by ProducerVotesObject a d with
      | Some runner => (race_spec runner (objects ProducerVotesObject d)).1
      | None => objects ProducerVotesObject d
      end
  end.

Lemma filter_ext_in {A} (P Q : A -> Prop) `{!forall x, Decision (P x), !forall x, Decision (Q x)} (l : list A) :
  (forall a, a ∈ l -> (P a <-> Q a)) -> filter P l = filter Q l.
Proof.
  induction l as [|a l IH]; intros HPQ; [done|]. rewrite !filter_cons.
  rewrite IH by (intros b Hb; apply HPQ; by apply list_elem_of_further).
  pose proof (HPQ a (list_elem_of_here _ _)). do 2 case_decide; tauto.
Qed.

Lemma pick_runners_spec n l : forall round processed, NoDup (ownerName <$> l) ->
  let new := take n (filter (fun a => a ∉ processed) (ownerName <$> l)) in
  pick_runners n l round processed = (round ++ new, processed ∪ list_to_set new, length new).
Proof.
  revert n. induction l as [|p l IH]; intros n round processed Hnd; cbn zeta.
  { destruct n; cbn; by rewrite app_nil_r, union_empty_r_L. }
  destruct n as [|n]. { rewrite take_0, list_to_set_nil, app_nil_r, union_empty_r_L. done. }
  rewrite fmap_cons in Hnd |- *. apply list.NoDup_cons in Hnd as [Hp Hnd]. rewrite filter_cons. cbn [pick_runners].
  destruct (decide (ownerName p ∈ processed)) as [Hin|Hin].
  - rewrite decide_False by tauto. by apply (IH (S n)).
  - rewrite decide_True by done. rewrite (IH n _ _ Hnd).
    assert (E : filter (fun a => a ∉ processed ∪ {[ownerName p]}) (ownerName <$> l) =
                filter (fun a => a ∉ processed) (ownerName <$> l)).
    { apply filter_ext_in. intros a Ha. set_solver. }
    rewrite E. cbn [take]. rewrite list_to_set_cons, <- app_assoc, (assoc_L (∪)). done.
Qed.

Lemma finish_NoDup d : in_session T d -> NoDup (ownerName <$> byProjectedRaceFinishTime d).
Proof.
  intros Hd. unfold byProjectedRaceFinishTime. rewrite merge_sort_Permutation.
  exact (values_ukey (V:=ProducerVotesObject) T d Hd).
Qed.

Lemma top_NoDup d : in_session T d -> NoDup (top d).
Proof.
  intros Hd. unfold top. rewrite fmap_take. eapply sublist_NoDup; [|apply sublist_take].
  unfold byVotes. rewrite merge_sort_Permutation. exact (values_ukey (V:=ProducerVotesObject) T d Hd).
Qed.

Lemma runners_elem d a : a ∈ runners d -> a ∉ top d /\ a ∈ ownerName <$> byProjectedRaceFinishTime d.
Proof.
  unfold runners. intros Ha. eapply elem_of_submseteq in Ha; [|apply sublist_submseteq, sublist_take].
  apply list_elem_of_filter in Ha as [H1 H2]. split; [|done]. by rewrite elem_of_list_to_set in H1.
Qed.

Lemma voted_NoDup g d : in_session T d -> NoDup (voted g d).
Proof.
  intros Hd. unfold voted. destruct (votes_count g); [|constructor]. apply list.NoDup_app. split; [by apply top_NoDup|].
  split; [intros a Ha Hr; by apply runners_elem in Hr as [? _]|].
  unfold runners. eapply sublist_NoDup; [|apply sublist_take]. apply list.NoDup_filter, finish_NoDup, Hd.
Qed.

Lemma names_votes d (l : list ProducerVotesObject) a : (forall v, v ∈ l -> exists i, objects ProducerVotesObject d !! i = Some v) ->
  a ∈ ownerName <$> l -> has_votes (objects ProducerVotesObject d) a.
Proof. intros Hl (v & -> & Hv)%list_elem_of_fmap. destruct (Hl v Hv) as [i Hi]. by exists i, v. Qed.

Lemma voted_votes g d a : a ∈ voted g d -> has_votes (objects ProducerVotesObject d) a.
Proof.
  unfold voted. destruct (votes_count g); [|by intros ?%not_elem_of_nil]. intros [Ha|Ha]%elem_of_app.
  - eapply names_votes, Ha. intros v Hv. apply by_votes_elem. eapply elem_of_submseteq; [exact Hv|].
    apply sublist_submseteq, sublist_take.
  - apply runners_elem in Ha as [_ Ha]. eapply names_votes, Ha. intros v. by apply by_finish_elem.
Qed.

(** *** Shape of the round *)

Lemma voted_length g d : (length (voted g d) <= DPOSVotedProducersPerRound + DPOSRunnerupProducersPerRound)%nat.
Proof.
  unfold voted, top, runners. destruct (votes_count g); [|cbn; lia].
  rewrite length_app, length_fmap, !length_take. lia.
Qed.

Lemma chosen_length g d : (length (chosen g d) <= TotalProducersPerRound)%nat.
Proof.
  unfold chosen, room. pose proof (voted_length g d) as H. rewrite length_app, length_fmap, length_take.
  unfold DPOSVotedProducersPerRound, DPOSRunnerupProducersPerRound, TotalProducersPerRound, POWProducersPerRound in *.
  destruct (_ <? _); lia.
Qed.

Lemma round_length g d : length (round_spec g d) = TotalProducersPerRound.
Proof. unfold round_spec. rewrite length_app, length_replicate. pose proof (chosen_length g d). lia. Qed.

Lemma waiting_sublist g d : waiting g d `sublist_of` queue d.
Proof. unfold waiting. destruct (_ <? _); [|done]. destruct (queue d); [done|by apply sublist_cons]. Qed.

Lemma chosen_pow g d a : a ∈ owner <$> take (room g d) (waiting g d) -> exists p, p ∈ queue d /\ owner p = a.
Proof.
  intros (p & -> & Hp)%list_elem_of_fmap. exists p. split; [|done].
  eapply elem_of_submseteq; [exact Hp|]. apply sublist_submseteq. etrans; [apply sublist_take|apply waiting_sublist].
Qed.

Lemma chosen_NoDup g d : InvG T g gp d -> NoDup (chosen g d).
Proof.
  intros HI. unfold chosen. apply list.NoDup_app. split; [apply voted_NoDup, HI|]. split.
  - intros a Ha%voted_votes (p & Hp & <-)%chosen_pow. by eapply queued_no_votes.
  - eapply sublist_NoDup; [apply (queue_NoDup d), HI|]. apply fmap_sublist.
    etrans; [apply sublist_take|apply waiting_sublist].
Qed.

Lemma chosen_owner g d a : InvG T g gp d -> a ∈ chosen g d -> a <> 0 /\ has_owner (objects producer_object d) a.
Proof.
  intros HI Ha. unfold chosen in Ha.
  assert (Ho : has_owner (objects producer_object d) a).
  { apply elem_of_app in Ha as [(j & v & Hv & <-)%voted_votes|(p & [_ [i Hi]]%queue_elem & <-)%chosen_pow].
    - destruct (inv_votes _ _ _ _ (ig_inv _ _ _ _ HI) j v Hv) as (i & p & Hp & Ho & _). by exists i, p.
    - by exists i, p. }
  split; [|done]. destruct Ho as (i & p & Hp & <-). by eapply (inv_owner _ _ _ _ (ig_inv _ _ _ _ HI)).
Qed.

Lemma filter_zeros n : filter (fun a => a <> 0) (replicate n 0) = [].
Proof. induction n as [|n IH]; [done|]. exact IH. Qed.

Lemma round_spec_ok g d : InvG T g gp d -> round_ok (objects producer_object d) (round_spec g d).
Proof.
  intros HI. split; [apply round_length|]. unfold round_spec. split.
  - rewrite list.filter_app, filter_zeros, app_nil_r. apply list.NoDup_filter, chosen_NoDup, HI.
  - intros a [Ha|Ha%elem_of_replicate]%elem_of_app Hz; [by eapply chosen_owner|tauto].
Qed.

Lemma round_ok_owners PO PO' l : owner <$> PO' = owner <$> PO -> round_ok PO l -> round_ok PO' l.
Proof.
  intros E (H1 & H2 & H3). split; [done|]. split; [done|]. intros a Ha Hz. destruct (H3 a Ha Hz) as (i & p & Hp & <-).
  apply (f_equal (fun m => m !! i)) in E. rewrite !lookup_fmap, Hp in E.
  destruct (PO' !! i) as [q|] eqn:Eq; [|done]. apply (inj Some) in E. by exists i, q.
Qed.

(** *** The code computes the round *)

(** The first of a queue of more than a round is taken out *)
Lemma drop_first_ok g d : InvG T g gp d ->
  exists d1 g1, (if Z.of_nat TotalProducersPerRound <? num_pow_witnesses g then
      match by_pow_upper_bound 0 d with
      | Some p => db_modify (po_id p) (pure_mod (set_pow_worker 0));; db_modify 0 (pure_mod dec_num_pow)
      | None => mret tt
      end
    else mret tt) d = (d1, inl tt) /\
    InvG T g1 gp d1 /\ same_but_num g g1 /\ queue d1 = waiting g d /\
    objects ProducerVotesObject d1 = objects ProducerVotesObject d /\
    objects ProducerScheduleObject d1 = objects ProducerScheduleObject d /\
    owner <$> objects producer_object d1 = owner <$> objects producer_object d.
Proof.
  intros HI. unfold waiting. destruct (_ <? _) eqn:Hn.
  2:{ exists d, g. split; [done|]. split; [done|]. by split; [apply same_but_num_refl|]. }
  change (by_pow_upper_bound 0 d) with (head (queue d)). destruct (queue d) as [|p q] eqn:Hq; cbn [list.head tail].
  { exists d, g. split; [done|]. split; [done|]. split; [apply same_but_num_refl|]. by rewrite Hq. }
  pose proof (ig_session _ _ _ _ HI) as Hd.
  destruct (queue_first d p q Hd Hq) as [Hw Hp]. destruct (dequeue T g gp d p HI Hp Hw) as (d1 & E1 & HI1 & HPO & HPV & HPS).
  exists d1, (dec_num_pow g). split; [exact E1|]. split; [done|]. split; [apply same_but_num_dec, same_but_num_refl|].
  split; [exact (queue_dequeue g d d1 p q HI (ig_session _ _ _ _ HI1) Hq HPO)|]. split; [done|]. split; [done|].
  rewrite HPO. by apply same_owners_insert.
Qed.

Lemma same_but_num_trans a b c : same_but_num a b -> same_but_num b c -> same_but_num a c.
Proof. unfold same_but_num. intros -> ->. by destruct a. Qed.

Lemma race_spec_owner r PV : ownerName <$> (race_spec r PV).1 = ownerName <$> PV.
Proof.
  unfold race_spec. case_decide; cbn [fst]; rewrite <- map_fmap_compose; apply map_fmap_ext; intros i v Hv; cbn.
  - by case_decide.
  - done.
Qed.

Lemma inv_same_votes PO PV PV' g : ownerName <$> PV' = ownerName <$> PV -> inv PO PV g gp -> inv PO PV' g gp.
Proof.
  intros E [H1 H2 H0 H3 H4 H5 H6 H7]. split; [done..| |done]. intros j v Hv.
  apply (f_equal (fun m => m !! j)) in E. rewrite !lookup_fmap, Hv in E.
  destruct (PV !! j) as [w|] eqn:Ew; [|done]. apply (inj Some) in E. rewrite E. by apply (H6 j).
Qed.

Record round_done (g : dynamic_global_property_object) (d d' : database) : Prop := {
  rd_inv : exists g', InvG T g' gp d' /\ same_but_num g g';
  rd_queue : queue d' = drop (room g d) (waiting g d);
  rd_votes : objects ProducerVotesObject d' = votes_after g d;
  rd_owners : owner <$> objects producer_object d' = owner <$> objects producer_object d
}.

(** The race part *)
Lemma race_part_ok g g2 d d2 :
  InvG T g2 gp d2 -> same_but_num g g2 ->
  objects ProducerVotesObject d2 = objects ProducerVotesObject d ->
  queue d2 = drop (room g d) (waiting g d) ->
  owner <$> objects producer_object d2 = owner <$> objects producer_object d ->
  in_session T d ->
  let r := if votes_count g then runners d else [] in
  exists d', (match length r with
     | O => mret (round_spec g d)
     | _ => update_race (default 0 (list.last (voted g d)));; mret (round_spec g d)
     end) d2 = (d', inl (round_spec g d)) /\ round_done g d d'.
Proof.
  intros HI Hg HV Hq HO Hd r.
  destruct r as [|a l] eqn:Er; subst r.
  { exists d2. split; [done|]. split; [by exists g2|done| |done]. unfold votes_after. by rewrite Er. }
  destruct (votes_count g) eqn:Hc; [|done].
  assert (Hl : l = []).
  { unfold runners, DPOSRunnerupProducersPerRound in Er. apply (f_equal length) in Er.
    rewrite length_take in Er. destruct l; [done|]. cbn [length] in Er. lia. }
  assert (Elast : list.last (voted g d) = Some a) by (unfold voted; rewrite Hc, Er, Hl; apply last_snoc).
  rewrite Elast. cbn [length default from_option].
  assert (Ha : has_votes (objects ProducerVotesObject d) a).
  { apply (voted_votes g). unfold voted. rewrite Hc, Er. apply elem_of_app. right. apply list_elem_of_here. }
  destruct Ha as (i & v & Hv & <-).
  assert (Hf : forall e, objects ProducerVotesObject e = objects ProducerVotesObject d -> in_session T e ->
    db_find_by ProducerVotesObject (ownerName v) e = Some v).
  { intros e He Hs. apply (db_find_by_Some T e _ v Hs). rewrite He. split; [|done].
    rewrite <- (objects_id T d i v Hd Hv) in Hv. exact Hv. }
  destruct (ig_pso _ _ _ _ HI) as [s Hs]. pose proof (ig_session _ _ _ _ HI) as Hd2.
  destruct (update_race_ok T d2 s v Hd2 Hs (Hf d2 HV Hd2)) as (x & y & E & Hs' & Ex & Ey).
  exists (put_ix y (put_ix x d2)). split; [by rewrite (bind_inl _ _ _ _ _ E)|]. split.
  - exists g2. split; [|done]. destruct HI as [_ Hg2 Hgp _ HI]. split; [exact Hs'|exact Hg2|exact Hgp| |].
    + unfold objects at 1. cbn [get_ix put_ix schedule_stored schedule_ix]. rewrite Ey, lookup_insert_eq. eauto.
    + unfold objects. cbn. rewrite Ex. eapply inv_same_votes; [apply race_spec_owner|exact HI].
  - exact Hq.
  - unfold votes_after. rewrite Hc, Er, (Hf d eq_refl Hd). rewrite <- HV. exact Ex.
  - exact HO.
Qed.

Lemma next_round_ok g d : InvG T g gp d -> objects ProducerVotesObject d <> ∅ ->
  exists d', calculateNextRound d = (d', inl (round_spec g d)) /\ round_done g d d'.
Proof.
  intros HI Hne. pose proof (ig_session _ _ _ _ HI) as Hd. unfold calculateNextRound.
  erewrite bind_inl by reflexivity.
  assert (Hnil : byVotes d <> []).
  { intros E. apply Hne. apply map_eq. intros i. destruct (_ !! i) as [v|] eqn:Ev; [|done].
    assert (Hv : v ∈ byVotes d) by (apply by_votes_elem; eauto). rewrite E in Hv. by apply not_elem_of_nil in Hv. }
  destruct (byVotes d) as [|v0 vs] eqn:Ev; [done|]. rewrite <- Ev.
  erewrite bind_inl by (unfold db_get, db_find; rewrite (ig_dgp _ _ _ _ HI); reflexivity).
  fold (votes_count g). fold (top d).
  rewrite (pick_runners_spec _ _ _ _ (finish_NoDup d Hd)). fold (runners d).
  set (r := if votes_count g then runners d else []).
  replace (if votes_count g then (top d ++ runners d, list_to_set (top d) ∪ list_to_set (runners d), length (runners d))
    else ([], ∅, O)) with (voted g d, list_to_set (voted g d) : gset Z, length r)
    by (unfold r, voted; destruct (votes_count g); [by rewrite list_to_set_app_L|done]).
  destruct (drop_first_ok g d HI) as (d1 & g1 & E1 & HI1 & Hg1 & Hq1 & HV1 & HS1 & HO1).
  rewrite (bind_inl _ _ _ _ _ E1). erewrite bind_inl by reflexivity. fold (room g d).
  destruct (pow_loop_spec (pow_fuel d1) (waiting g d) g1 d1 (room g d) (voted g d) (list_to_set (voted g d)) HI1 Hq1)
    as (d2 & g2 & E2 & HI2 & Hg2 & Hq2 & HV2 & HS2 & HO2).
  { intros p Hp Ha. rewrite elem_of_list_to_set in Ha. apply voted_votes in Ha.
    apply (queued_no_votes g d p HI); [|done]. eapply elem_of_submseteq; [exact Hp|]. apply sublist_submseteq, waiting_sublist. }
  { rewrite <- Hq1, queue_length. unfold pow_fuel, queued. rewrite filter_size_le. nia. }
  change (by_pow_upper_bound 0 d1) with (head (queue d1)). rewrite Hq1.
  rewrite (bind_inl _ _ _ _ _ E2). fold (chosen g d). fold (round_spec g d).
  apply (race_part_ok g g2 d d2 HI2); [by eapply same_but_num_trans|congruence|done|congruence|done].
Qed.

Lemma next_round_none d : objects ProducerVotesObject d = ∅ -> calculateNextRound d = (d, inr NoEnoughProducers).
Proof.
  intros E. unfold calculateNextRound. erewrite bind_inl by reflexivity. unfold byVotes. rewrite E. reflexivity.
Qed.
End Schedule.

(** ** The shuffle *)

Lemma insert_delete_perm {A} (l : list A) i x : (i < length l)%nat -> <[i := x]> l ≡ₚ x :: delete i l.
Proof. intros Hi. rewrite insert_take_drop, delete_take_drop by done. by rewrite Permutation_middle. Qed.

Lemma swap_perm {A} i j (l : list A) : swap i j l ≡ₚ l.
Proof.
  unfold swap. destruct (l !! i) as [x|] eqn:Ei; [|done]. destruct (l !! j) as [y|] eqn:Ej; [|done].
  pose proof (lookup_lt_Some _ _ _ Ei) as Hi. pose proof (lookup_lt_Some _ _ _ Ej) as Hj.
  set (l' := <[i := y]> l).
  assert (Ej' : l' !! j = Some y).
  { unfold l'. destruct (decide (i = j)) as [->|Hne]; [by apply list_lookup_insert_eq|].
    by rewrite list_lookup_insert_ne. }
  rewrite (insert_delete_perm l' j x) by (unfold l'; by rewrite length_insert).
  assert (E : delete j l' ≡ₚ delete i l).
  { apply (Permutation_cons_inv (a:=y)). rewrite <- (delete_Permutation l' j y Ej'). by apply insert_delete_perm. }
  rewrite E. symmetry. by apply delete_Permutation.
Qed.

Lemma shuffle_perm {A} seed (l : list A) : shuffle seed l ≡ₚ l.
Proof.
  unfold shuffle. generalize (length l) as n. intros n. revert seed l.
  induction n as [|[|n] IH]; intros seed l; [done|done|]. cbn [shuffle_]. destruct (rand_next seed) as [seed' r].
  etrans; [exact (IH seed' _)|apply swap_perm].
Qed.

Lemma round_ok_perm PO l l' : l ≡ₚ l' -> round_ok PO l -> round_ok PO l'.
Proof.
  intros Hp (H1 & H2 & H3). split; [by rewrite <- Hp|]. split; [by rewrite <- Hp|]. intros a Ha. apply H3. by rewrite Hp.
Qed.
