(* ===== verification/DposInvariant.v ===== *)
(** * The invariant along the blocks

    [inv] of DposInv holds after the genesis of the chain and after every block, whether the
    block is applied or rejected. *)

From stdpp Require Import gmap sorting.
From S2P Require Import Prelude Words Exn Chainbase Producer ChainController DposCalls DposUndo DposSlots DposInv.
From S2P Require Import DposRace DposSchedule.

#[local] Open Scope Z_scope.

(** ** Results of the calls *)

Section Results.
Context {V : Type} `{!Indexed V, !Stored V, !Saved V} (T : saved_db) (d : database).
Hypothesis Hd : in_session T d.

Lemma db_modify_cases i m : stable_op (V:=V) (Modify i m) ->
  exists x r, db_modify i m d = (put_ix x d, r) /\ in_session T (put_ix x d) /\
    (_indices x = objects V d \/ exists v, objects V d !! i = Some v /\ _indices x = <[i := (m v).1]> (objects V d)).
Proof.
  intros Hm. destruct (objects V d !! i) as [v|] eqn:Ev.
  - destruct (db_modify_at T d i m v Hd Ev Hm) as (x & E & Ex & _ & Hs). exists x. eexists. split; [exact E|].
    split; [exact Hs|]. right. by exists v.
  - exists (get_ix d), (inr undefined_behaviour).
    assert (E : db_modify i m d = (put_ix (get_ix d) d, inr undefined_behaviour)).
    { unfold db_modify, on_index, modify. unfold objects in Ev. by rewrite Ev. }
    split; [exact E|]. split; [|by left]. pose proof (db_modify_session T i m Hm d Hd) as H. by rewrite E in H.
Qed.

Lemma db_remove_cases i : exists x r, db_remove (V:=V) i d = (put_ix x d, r) /\ in_session T (put_ix x d) /\
  (_indices x = objects V d \/ _indices x = delete i (objects V d)).
Proof.
  pose proof (db_remove_session T i d Hd) as Hs. destruct (session_get T d Hd) as (c & n & Hr).
  destruct (exec_repr (Remove i) _ _ I Hr) as [_ Hr']. pose proof (re_cur _ _ Hr) as Ec. pose proof (re_cur _ _ Hr') as Ec'.
  unfold db_remove in *. rewrite on_index_fst in Hs. unfold on_index. cbn in Ec, Ec'.
  destruct (remove i (get_ix d)) as [x r]. exists x, r. split; [done|]. split; [exact Hs|].
  unfold objects. rewrite Ec. cbn in *. destruct (c !! i); cbn in Ec'; auto.
Qed.

Lemma db_create_cases c : stable_op (V:=V) (Emplace c) ->
  exists x r, db_create c d = (put_ix x d, r) /\ in_session T (put_ix x d) /\
    match r with
    | inr _ => _indices x = objects V d
    | inl _ => let n := _next_id (get_ix d) in
        _indices x = <[n := (c (ctor n)).1]> (objects V d) /\ objects V d !! n = None /\
        forall j w, objects V d !! j = Some w -> ukey (c (ctor n)).1 <> ukey w
    end.
Proof.
  intros Hc. pose proof (db_create_session T c Hc d Hd) as Hs. destruct (session_get T d Hd) as (cu & n & Hr).
  destruct (exec_repr (Emplace c) _ _ Hc Hr) as [E Hr']. pose proof (re_cur _ _ Hr) as Ec. pose proof (re_cur _ _ Hr') as Ec'.
  unfold db_create in *. rewrite on_index_fst in Hs. unfold on_index. cbn in Ec, Ec', E.
  unfold discard, mbind, M_bind in E, Ec'. destruct (emplace c (get_ix d)) as [x r]. exists x, r. split; [done|]. split; [exact Hs|].
  unfold objects. rewrite Ec. destruct (c (ctor n)) as [v [e|]] eqn:Ev.
  - destruct r; [done|]. exact Ec'.
  - pose proof (re_next _ _ Hr) as En. cbn in En. rewrite En. cbn zeta. rewrite Ev.
    case_decide as Hd'; destruct r; try done. split; [exact Ec'|]. split; [|intros j w; apply Hd'].
    destruct (cu !! n) as [w|] eqn:Ew; [|done]. pose proof (wf_next _ _ (re_wf _ _ Hr) n w Ew) as Hlt. cbn in Hlt. lia.
Qed.
End Results.

Lemma on_db_eq {A} (m : M database A) c d r : m (_db c) = (d, r) -> on_db m c = (set_db d c, r).
Proof. intros E. unfold on_db. by rewrite E. Qed.

Lemma on_db_set {A} (m : M database A) c d d' r : m d = (d', r) -> on_db m (set_db d c) = (set_db d' c, r).
Proof. intros E. unfold on_db. cbn. by rewrite E. Qed.

(** ** The invariant with room for [n] more proof-of-work operations, out of [B] *)

Section Bound.
Context (B : Z).
Hypothesis HB : B < 2 ^ 32.

Definition Jn (T : saved_db) (n : Z) (d : database) : Prop :=
  exists g gp, InvG T g gp d /\ total_pow g + n <= B /\ num_pow_witnesses g + n <= B.

Lemma Jn_le T n m d : m <= n -> Jn T n d -> Jn T m d.
Proof. intros Hm (g & gp & HI & H1 & H2). exists g, gp. split; [done|]. lia. Qed.

(** Calls that keep names, queue and active producers *)
Definition safe_call (k : call) : Prop :=
  stable_call k /\
  match k with
  | ModPo _ m => forall p, owner (m p).1 = owner p /\ pow_worker (m p).1 = pow_worker p
  | ModGpo _ m => forall g, active_producers (m g).1 = active_producers g
  | ModDgp _ m => forall g, num_pow_witnesses (m g).1 = num_pow_witnesses g /\ total_pow (m g).1 = total_pow g
  | NewPo _ | NewPvo _ => False
  | _ => True
  end.

Lemma lookup_zero {V} (m m' : gmap Z V) i (f : V -> V) g : m !! 0 = Some g ->
  (m' = m \/ exists v, m !! i = Some v /\ m' = <[i := f v]> m) -> m' !! 0 = Some g \/ m' !! 0 = Some (f g).
Proof.
  intros Hg [->|(v & Hv & ->)]; [by left|]. destruct (decide (i = 0)) as [->|Hne].
  - right. rewrite lookup_insert_eq. congruence.
  - left. by rewrite lookup_insert_ne.
Qed.

Lemma safe_keeps T n (calls : call -> Prop) : (forall k, calls k -> safe_call k) -> keeps calls (Jn T n).
Proof.
  intros Hc k Hk d (g & gp & [Hs Hg Hgp [s Hpso] HI] & Hb). destruct (Hc k Hk) as [Hst Hok].
  destruct k as [i m|c|i m|c|i|i m|i m|i m|c]; cbn [run_call] in *; try done.
  - destruct (db_modify_cases T d Hs i m Hst) as (x & r & -> & Hs' & Hx). exists g, gp. split; [|done].
    split; [exact Hs'|exact Hg|exact Hgp|by exists s|]. unfold objects in *. cbn in *.
    destruct Hx as [->|(p & Hp & ->)]; [done|]. by eapply inv_producer; [| |apply Hok|apply Hok].
  - destruct (db_modify_cases T d Hs i m Hst) as (x & r & -> & Hs' & Hx). exists g, gp. split; [|done].
    split; [exact Hs'|exact Hg|exact Hgp|by exists s|]. unfold objects in *. cbn in *.
    destruct Hx as [->|(v & Hv & ->)]; [done|]. by eapply inv_modify_votes; [| |apply Hst].
  - destruct (db_remove_cases (V:=ProducerVotesObject) T d Hs i) as (x & r & -> & Hs' & Hx). exists g, gp. split; [|done].
    split; [exact Hs'|exact Hg|exact Hgp|by exists s|]. unfold objects in *. cbn in *.
    destruct Hx as [-> | ->]; [done|by apply inv_remove_votes].
  - destruct (db_modify_cases T d Hs i m Hst) as (x & r & -> & Hs' & Hx). exists g, gp. split; [|done].
    split; [exact Hs'|exact Hg|exact Hgp| |exact HI]. unfold objects in *. cbn in *.
    destruct (lookup_zero _ (_indices x) i (fun v => (m v).1) s Hpso Hx) as [E|E]; rewrite E; by eexists.
  - destruct (db_modify_cases T d Hs i m Hst) as (x & r & -> & Hs' & Hx). unfold objects in *. cbn in *.
    destruct (lookup_zero _ (_indices x) i (fun v => (m v).1) gp Hgp Hx) as [E|E].
    + exists g, gp. split; [|done]. by split.
    + exists g, (m gp).1. split; [|done]. split; [done..|by exists s|]. apply (inv_gpo _ _ g gp HI).
      rewrite Hok. apply (inv_active _ _ _ _ HI).
  - destruct (db_modify_cases T d Hs i m Hst) as (x & r & -> & Hs' & Hx). unfold objects in *. cbn in *.
    destruct (lookup_zero _ (_indices x) i (fun v => (m v).1) g Hg Hx) as [E|E].
    + exists g, gp. split; [|done]. by split.
    + destruct (Hok g) as [E1 E2]. exists (m g).1, gp. rewrite E1, E2. split; [|done]. split; [done..|by exists s|].
      by apply (inv_dgp _ _ g gp HI).
  - destruct (db_create_cases T d Hs c Hst) as (x & r & E & Hs' & _). exists g, gp. split; [|done].
    unfold mbind, M_bind. rewrite E. destruct r; by split.
Qed.

(** ** Proof of work *)

(** The counters are raised *)
Lemma inc_at T g gp d : InvG T g gp d ->
  exists x, db_modify 0 (pure_mod inc_pow) d = (put_ix x d, inl tt) /\ in_session T (put_ix x d) /\
    _indices x !! 0 = Some (inc_pow g).
Proof.
  intros [Hs Hg _ _ _]. destruct (db_modify_at T d 0 (pure_mod inc_pow) g Hs Hg ltac:(done)) as (x & E & Ex & _ & Hs').
  exists x. split; [exact E|]. split; [exact Hs'|]. by rewrite Ex, lookup_insert_eq.
Qed.

Lemma inc_pow_values PO PV g gp : inv PO PV g gp -> total_pow g + 1 < 2 ^ 64 -> num_pow_witnesses g + 1 < 2 ^ 32 ->
  total_pow (inc_pow g) = total_pow g + 1 /\ num_pow_witnesses (inc_pow g) = num_pow_witnesses g + 1.
Proof.
  intros [H1 _ H0 _ _ _ _ _] Ht Hn. cbn. split; [apply u64_id|apply u32_id]; unfold is_word; lia.
Qed.

Lemma pow_op_ok T n l t o : pow_address o <> 0 -> 0 <= n ->
  ensures (cc (Jn T (n + 1))) (update_pow_op l t o) (fun _ => cc (Jn T n)).
Proof.
  intros Ha Hn c c' [] HJ E. assert (Hle : cc (Jn T n) c) by (eapply Jn_le; [|exact HJ]; lia).
  unfold update_pow_op in E. destruct (negb (_ =? _)); [by injection E as <-|].
  destruct (_ <=? _); [by injection E as <-|]. erewrite bind_inl in E by reflexivity.
  destruct (db_find_by ProducerVotesObject _ _) as [v|] eqn:Ev; [by injection E as <-|].
  destruct HJ as (g & gp & HI & Ht & Hnum). pose proof (ig_inv _ _ _ _ HI) as Hinv.
  destruct (inc_pow_values _ _ _ _ Hinv ltac:(lia) ltac:(lia)) as [Et En].
  assert (Hnv : ~ has_votes (objects ProducerVotesObject (_db c)) (pow_address o)).
  { intros (j & v & Hv & Hvo). by apply (proj1 (db_find_by_None (_db c) _) Ev j v Hv). }
  destruct (inc_at T g gp (_db c) HI) as (x & E1 & Hs1 & Hx). destruct HI as [Hs Hg Hgp Hpso _].
  destruct (db_find_by producer_object _ _) as [p|] eqn:Ep.
  - destruct (pow_worker p =? 0) eqn:Ew; cbn [negb] in E; [|by injection E as <-]. apply Z.eqb_eq in Ew.
    apply (proj1 (db_find_by_Some T (_db c) _ p Hs)) in Ep as [Hp Hpo]. cbn in Hp, Hpo.
    erewrite bind_inl in E by (apply on_db_eq; exact E1).
    erewrite bind_inl in E by (apply get_dpo_at; exact Hx). rewrite Et in E.
    assert (Hp1 : objects producer_object (put_ix x (_db c)) !! po_id p = Some p) by exact Hp.
    destruct (db_modify_at T (put_ix x (_db c)) (po_id p) (pure_mod (set_pow_worker (total_pow g + 1))) p Hs1 Hp1
      ltac:(done)) as (y & E2 & Ey & _ & Hs2).
    unfold upd_producer in E. rewrite (on_db_set _ c _ _ _ E2) in E. injection E as <-.
    exists (inc_pow g), gp. split; [|rewrite Et, En; lia].
    split; [exact Hs2|exact Hx|exact Hgp|exact Hpso|]. unfold objects in *. cbn in *. rewrite Ey.
    apply (inv_enqueue _ _ g gp Hinv); cbn; try done; try lia; try congruence.
    intros q Hq. assert (q = p) as -> by congruence. done.
  - erewrite bind_inl in E by (apply on_db_eq; exact E1).
    erewrite bind_inl in E by (apply get_dpo_at; exact Hx). rewrite Et in E.
    assert (Hst : stable_op (Emplace (pure_mod (new_producer (pow_address o) (total_pow g + 1))))) by (by intros v).
    destruct (db_create_cases T (put_ix x (_db c)) Hs1 _ Hst) as (y & r & E2 & Hs2 & Hr).
    unfold mbind, M_bind in E. rewrite (on_db_set _ c _ _ _ E2) in E. destruct r as [v|e]; [|done]. injection E as <-.
    set (k := _next_id _) in Hr. destruct Hr as (Ey & Hk & _). exists (inc_pow g), gp. split; [|rewrite Et, En; lia].
    split; [exact Hs2|exact Hx|exact Hgp|exact Hpso|]. unfold objects in *. cbn in *. rewrite Ey.
    apply (inv_enqueue _ _ g gp Hinv); cbn; try done; try lia. intros q Hq. congruence.
Qed.

Lemma dec_num_le PO PV g gp i p : inv PO PV g gp -> PO !! i = Some p -> 0 < pow_worker p ->
  num_pow_witnesses (dec_num_pow g) <= num_pow_witnesses g.
Proof.
  intros HI Hp Hw. pose proof (inv_dequeue _ _ _ _ HI i p Hp Hw) as HI'.
  rewrite (inv_count _ _ _ _ HI), (inv_count _ _ _ _ HI').
  pose proof (queued_dequeue PO i (set_pow_worker 0 p) p Hp Hw eq_refl). lia.
Qed.

Lemma for_each_ensures {S A} (P : nat -> S -> Prop) (f : A -> M S unit) l :
  (forall x n, x ∈ l -> ensures (P (Datatypes.S n)) (f x) (fun _ => P n)) ->
  ensures (P (length l)) (for_each f l) (fun _ => P O).
Proof.
  induction l as [|x l IH]; intros Hf; [by intros s s' [] Hs [= <-]|].
  apply (ensures_bind _ _ (fun _ => P (length l))); [apply Hf, list_elem_of_here|]. intros _. apply IH.
  intros y n Hy. apply Hf. by apply list_elem_of_further.
Qed.

Lemma update_pow_ok T ops env : (forall o, o ∈ ops -> pow_address o <> 0) ->
  ensures (fun c => _temp_pow_ops c = ops /\ cc (Jn T (Z.of_nat (length ops))) c) (update_pow env) (fun _ => cc (Jn T 0)).
Proof.
  intros Ha c c' [] [Hops HJ] E. unfold update_pow in E.
  destruct HJ as (g & gp & HI & Hb). erewrite bind_inl in E by (apply get_dpo_at; exact (ig_dgp _ _ _ _ HI)).
  erewrite bind_inl in E by reflexivity. rewrite Hops in E.
  refine (for_each_ensures (fun n => cc (Jn T (Z.of_nat n))) _ ops _ c c' tt _ E); [|by exists g, gp].
  intros o n Ho. eapply ensures_impl; [apply (pow_op_ok T (Z.of_nat n)); [by apply Ha|lia]| |done].
  intros s. rewrite Nat2Z.inj_succ. done.
Qed.

(** ** Votes *)

Lemma updateVotes_safe i v t : safe_call (ModPvo i (updateVotes v t)).
Proof. by split. Qed.

(** The producer of a registered account is outside the queue *)
Definition adopt (a : Z) : M chain_controller unit :=
  c ← get_st;
  match db_find_by producer_object a (_db c) with
  | None => on_db (db_create (pure_mod (new_producer a 0)));; mret tt
  | Some lp_po =>
      if negb (pow_worker lp_po =? 0) then
        upd_producer (set_pow_worker 0) (po_id lp_po);; on_db (db_modify 0 (pure_mod dec_num_pow))
      else mret tt
  end.

(** Contents that satisfy the invariant but for the votes [v] stored at [k] *)
Definition J_but (T : saved_db) (k : Z) (v : ProducerVotesObject) (d : database) : Prop :=
  in_session T d /\ exists g gp PV,
    objects dynamic_global_property_object d !! 0 = Some g /\ objects global_property_object d !! 0 = Some gp /\
    is_Some (objects ProducerScheduleObject d !! 0) /\ inv (objects producer_object d) PV g gp /\
    objects ProducerVotesObject d = <[k := v]> PV /\
    total_pow g <= B /\ num_pow_witnesses g <= B.

Lemma adopt_ok T k v : ownerName v <> 0 -> ensures (cc (J_but T k v)) (adopt (ownerName v)) (fun _ => cc (Jn T 0)).
Proof.
  intros Ha c c' [] (Hs & g & gp & PV & Hg & Hgp & Hpso & HI & HPV & Ht & Hn) E. unfold adopt in E.
  erewrite bind_inl in E by reflexivity. destruct (db_find_by producer_object (ownerName v) (_db c)) as [p|] eqn:Ep.
  - apply (proj1 (db_find_by_Some T (_db c) _ p Hs)) in Ep as [Hp Hpo]. cbn in Hp, Hpo.
    destruct (pow_worker p =? 0) eqn:Ew; cbn [negb] in E.
    + apply Z.eqb_eq in Ew. injection E as <-. exists g, gp. split; [|lia].
      split; [done..|]. rewrite HPV. by eapply inv_new_votes.
    + apply Z.eqb_neq in Ew.
      destruct (db_modify_at T (_db c) (po_id p) (pure_mod (set_pow_worker 0)) p Hs Hp ltac:(done)) as (x & E1 & Ex & _ & Hs1).
      unfold upd_producer in E. rewrite (bind_inl _ _ _ _ _ (on_db_eq _ _ _ _ E1)) in E.
      assert (Hg1 : objects dynamic_global_property_object (put_ix x (_db c)) !! 0 = Some g) by exact Hg.
      destruct (db_modify_at T (put_ix x (_db c)) 0 (pure_mod dec_num_pow) g Hs1 Hg1 ltac:(done)) as (y & E2 & Ey & _ & Hs2).
      rewrite (on_db_set _ c _ _ _ E2) in E. injection E as <-.
      assert (Hw : 0 < pow_worker p) by (pose proof (inv_pow _ _ _ _ HI _ p Hp); lia).
      pose proof (inv_dequeue _ _ g gp HI (po_id p) p Hp Hw) as HI'.
      exists (dec_num_pow g), gp. split; [|pose proof (dec_num_le _ _ _ _ _ _ HI Hp Hw); cbn in *; lia].
      unfold objects in *. cbn in *. split; unfold objects; cbn; try done.
      * by rewrite Ey, lookup_insert_eq.
      * rewrite Ex, HPV. eapply (inv_new_votes _ _ _ _ HI' k v (po_id p)); [apply lookup_insert_eq|done|done].
  - assert (Hst : stable_op (Emplace (pure_mod (new_producer (ownerName v) 0)))) by (by intros q).
    destruct (db_create_cases T (_db c) Hs _ Hst) as (x & r & E1 & Hs1 & Hr).
    unfold mbind, M_bind in E. rewrite (on_db_eq _ _ _ _ E1) in E. destruct r as [u|]; [|done]. injection E as <-.
    set (n := _next_id _) in Hr. destruct Hr as (Ex & Hnone & _). exists g, gp. split; [|lia].
    unfold objects in *. cbn in *. split; unfold objects; cbn; try done. rewrite Ex, HPV.
    eapply inv_new_votes; [apply (inv_new_producer _ _ _ _ HI n); [done|exact Ha|done]|apply lookup_insert_eq|done|done].
Qed.

Lemma pvomi_one_ok T p : p.1 <> 0 -> ensures (cc (Jn T 0)) (update_pvomi_one p) (fun _ => cc (Jn T 0)).
Proof.
  intros Ha c c' [] HJ E. unfold update_pvomi_one in E. destruct (negb _); [by injection E as <-|].
  erewrite bind_inl in E by reflexivity. destruct (_all_votes c !! p.1) as [votes|].
  - refine (ensures_preserves _ (if to_int64 (m_receivedVote p.2 - votes) =? 0 then mret tt else _) _ c c' tt HJ E).
    assert (Hk : keeps (fun k => exists i v t, k = ModPvo i (updateVotes v t)) (Jn T 0)).
    { apply safe_keeps. by intros k (i & v & t & ->). }
    preserve.
  - unfold mbind at 1, M_bind at 1 in E. destruct (on_db (db_get ProducerScheduleObject 0) c) as [c1 [s|]] eqn:E1; [|done].
    assert (c1 = c) as -> by (unfold on_db, db_get in E1; injection E1 as <- _; by destruct c).
    destruct HJ as (g & gp & HI & Hb). pose proof (ig_session _ _ _ _ HI) as Hs.
    assert (Hst : stable_op (Emplace (new_votes p.1 (currentRaceTime s)))) by (by intros v).
    destruct (db_create_cases T (_db c) Hs _ Hst) as (x & r & E2 & Hs1 & Hr). destruct r as [u|e].
    2:{ by rewrite (bind_inr _ _ _ _ _ (on_db_eq _ _ _ _ E2)) in E. }
    rewrite (bind_inl _ _ _ _ _ (on_db_eq _ _ _ _ E2)) in E. set (k := _next_id _) in Hr. destruct Hr as (Ex & Hk & _).
    assert (HBut : cc (J_but T k (new_votes p.1 (currentRaceTime s) (ctor k)).1) (set_db (put_ix x (_db c)) c)).
    { destruct HI as [_ Hg Hgp Hpso HI]. split; [exact Hs1|]. exists g, gp, (objects ProducerVotesObject (_db c)).
      split; [done|]. split; [done|]. split; [done|]. split; [done|]. split; [exact Ex|]. lia. }
    rewrite bind_assoc_st in E. fold (adopt p.1) in E. unfold mbind, M_bind in E.
    destruct (adopt p.1 _) as [c2 [[]|]] eqn:E3; [|done]. injection E as <-.
    exact (adopt_ok T k (new_votes p.1 (currentRaceTime s) (ctor k)).1 Ha _ _ tt HBut E3).
Qed.

Lemma for_each_keep {S A} (P : S -> Prop) (f : A -> M S unit) l :
  (forall x, x ∈ l -> ensures P (f x) (fun _ => P)) -> ensures P (for_each f l) (fun _ => P).
Proof. intros Hf. apply (for_each_ensures (fun _ => P)). auto. Qed.

Lemma pvomi_ok T env b : (forall a, is_Some (votes_at env (parentHash b) !! a) -> a <> 0) ->
  ensures (cc (Jn T 0)) (update_pvomi_perblock env b) (fun _ => cc (Jn T 0)).
Proof.
  intros Ha. unfold update_pvomi_perblock. apply (ensures_bind _ _ (fun _ => cc (Jn T 0))); [|intros _].
  - apply for_each_keep. intros [a v] Hin. apply pvomi_one_ok. apply Ha. exists v. by apply elem_of_items.
  - apply ensures_step; [apply preserves_get|]. intros c. apply ensures_preserves, preserves_for_each. intros a _.
    apply remove_inactive_keeps, safe_keeps. intros k []. by split.
Qed.

(** ** Slots, versions, signatures, hard forks *)

Lemma header_safe k : header_call k -> safe_call k.
Proof. by destruct 1. Qed.
Lemma slot_safe b k : slot_call b k -> safe_call k.
Proof. by destruct 1. Qed.
Lemma sign_safe k : sign_call k -> safe_call k.
Proof. by destruct 1. Qed.
Lemma hf_safe k : hf_call k -> safe_call k.
Proof. by destruct 1. Qed.

(** ** The round *)

Inductive hfv_call : call -> Prop :=
  | hfv_vote v t : hfv_call (ModGpo 0 (pure_mod (set_next_hardfork v t)))
  | hfv_keep : hfv_call (ModGpo 0 (pure_mod (fun g =>
      set_next_hardfork (current_hardfork_version g) (next_hardfork_time g) g))).
#[local] Hint Constructors hfv_call : calls.

Lemma hf_votes_keeps P l : keeps hfv_call P -> preserves (cc P) (update_hardfork_votes l).
Proof. intros H. unfold update_hardfork_votes. preserve. apply count_votes_keeps. Qed.

Definition J_round (T : saved_db) (schedule : list Z) (d : database) : Prop :=
  Jn T 0 d /\ round_ok (objects producer_object d) schedule.

Lemma hfv_round T schedule : keeps hfv_call (J_round T schedule).
Proof.
  intros k Hk d [HJ Hr]. split.
  - apply (safe_keeps T 0 hfv_call); [|done|done]. intros ? []; by split.
  - destruct Hk; cbn [run_call]; unfold db_modify; by rewrite on_index_fst.
Qed.

Lemma set_active_ok T schedule d : J_round T schedule d ->
  Jn T 0 (db_modify 0 (pure_mod (set_active schedule)) d).1.
Proof.
  intros [(g & gp & [Hs Hg Hgp Hpso HI] & Hb) Hr].
  destruct (db_modify_at T d 0 (pure_mod (set_active schedule)) gp Hs Hgp ltac:(done)) as (x & E & Ex & _ & Hs').
  rewrite E. exists g, (set_active schedule gp). split; [|done]. unfold objects in *. cbn in *.
  split; unfold objects; cbn; try done.
  - by rewrite Ex, lookup_insert_eq.
  - apply (inv_gpo _ _ g gp HI). cbn. rewrite drop_ge, app_nil_r; [done|].
    destruct Hr as [-> _]. destruct (inv_active _ _ _ _ HI) as [-> _]. done.
Qed.

(** The body of the try block *)
Definition round_body (b : BlockHeader) : M chain_controller unit :=
  schedule ← calculate_next_round b;
  gpo ← get_global_properties;
  update_hardfork_votes (active_producers gpo);;
  if decide (length schedule <= length (active_producers gpo))%nat
  then on_db (db_modify 0 (pure_mod (set_active schedule)))
  else throw undefined_behaviour.

(** A round leaves no more producers in the queue *)
Lemma round_queue T g gp d d' g' : InvG T g gp d -> InvG T g' gp d' ->
  queue d' = drop (room g d) (waiting g d) -> num_pow_witnesses g' <= num_pow_witnesses g.
Proof.
  intros HI HI' Hq. rewrite (inv_count _ _ _ _ (ig_inv _ _ _ _ HI)), (inv_count _ _ _ _ (ig_inv _ _ _ _ HI')).
  rewrite <- !queue_length, Hq, length_drop. pose proof (sublist_length _ _ (waiting_sublist g d)). lia.
Qed.

Lemma round_body_ok T b : preserves (cc (Jn T 0)) (round_body b).
Proof.
  intros c HJ. pose proof HJ as (g & gp & HI & Hb). unfold round_body.
  destruct (decide (objects ProducerVotesObject (_db c) = ∅)) as [He|He].
  { unfold calculate_next_round.
    erewrite bind_inr by (erewrite bind_inr; [reflexivity|apply on_db_eq, next_round_none, He]). by destruct c. }
  destruct (next_round_ok T gp g (_db c) HI He) as (d' & E & [(g' & HI' & Hg') Hq _ Hown]).
  erewrite bind_inl by (unfold calculate_next_round; erewrite bind_inl by (apply on_db_eq, E); reflexivity).
  set (schedule := shuffle _ _).
  assert (Hr : round_ok (objects producer_object d') schedule).
  { apply round_ok_perm with (round_spec g (_db c)); [symmetry; apply shuffle_perm|].
    eapply round_ok_owners; [exact Hown|]. by eapply round_spec_ok. }
  assert (HR : cc (J_round T schedule) (set_db d' c)).
  { split; [|exact Hr]. exists g', gp. split; [done|].
    pose proof (round_queue T g gp _ _ g' HI HI' Hq). rewrite Hg'. cbn. lia. }
  erewrite bind_inl by (apply get_gpo_at; exact (ig_gpo _ _ _ _ HI')).
  pose proof (hf_votes_keeps _ (active_producers gp) (hfv_round T schedule) _ HR) as HR'.
  unfold mbind, M_bind. destruct (update_hardfork_votes _ _) as [c2 [[]|e]]; [|by destruct HR'].
  case_decide; [|by destruct HR']. unfold on_db. pose proof (set_active_ok T schedule (_db c2) HR') as H'.
  by destruct (db_modify _ _ (_db c2)).
Qed.

Lemma global_properties_ok T b : preserves (cc (Jn T 0)) (update_global_properties b).
Proof.
  unfold update_global_properties. destruct (_ =? 0); [|apply preserves_ret].
  apply preserves_try; [apply round_body_ok|intros e; apply preserves_ret].
Qed.

(** ** A block *)

Lemma perblock_ok T env b : ensures (cc (Jn T (Z.of_nat (length (pow_ops_at env (parentHash b))))))
  (update_pow_perblock env b)
  (fun _ c => _temp_pow_ops c = pow_ops_at env (parentHash b) /\
     cc (Jn T (Z.of_nat (length (pow_ops_at env (parentHash b))))) c).
Proof. intros c c' [] HJ [= <-]. done. Qed.

(** The accounts the state of the parent block names *)
Definition env_ok (env : chain_env) (b : BlockHeader) : Prop :=
  (forall o, o ∈ pow_ops_at env (parentHash b) -> pow_address o <> 0) /\
  (forall a, is_Some (votes_at env (parentHash b) !! a) -> a <> 0).

Lemma before_commit_ok T env b : env_ok env b ->
  ensures (cc (Jn T (Z.of_nat (length (pow_ops_at env (parentHash b)))))) (before_commit env b) (fun _ => cc (Jn T 0)).
Proof.
  intros [Hpow Hvotes]. unfold before_commit. apply ensures_step; [auto with preserves|]. intros p.
  apply ensures_step; [apply process_block_header_keeps, safe_keeps, header_safe|]. intros _.
  eapply ensures_bind; [apply perblock_ok|]. intros [].
  eapply ensures_bind; [by apply update_pow_ok|]. intros [].
  eapply ensures_bind; [by apply pvomi_ok|]. intros [].
  apply ensures_step; [apply update_global_dynamic_data_keeps, safe_keeps, slot_safe|]. intros _.
  apply ensures_step; [apply global_properties_ok|]. intros _.
  apply ensures_preserves, update_signing_keeps, safe_keeps, sign_safe.
Qed.

(** ** Images *)

(** The invariant of saved or current contents *)
Definition image_inv (im : db_image) : Prop :=
  exists g gp, (im_dgp im).1 !! 0 = Some g /\ (im_gpo im).1 !! 0 = Some gp /\ is_Some ((im_schedule im).1 !! 0) /\
    inv (im_producers im).1 (im_votes im).1 g gp /\ total_pow g <= B /\ num_pow_witnesses g <= B.

Lemma Jn_image T d : Jn T 0 d <-> in_session T d /\ image_inv (image d).
Proof.
  split.
  - intros (g & gp & [Hs Hg Hgp Hpso HI] & Hb). split; [done|]. exists g, gp.
    split; [exact Hg|]. split; [exact Hgp|]. split; [exact Hpso|]. split; [exact HI|]. lia.
  - intros (Hs & g & gp & Hg & Hgp & Hpso & HI & Hb). exists g, gp. split; [by split|lia].
Qed.

Lemma lib_ok T env : ensures (cc (Jn T 0)) (update_last_irreversible_block env) (fun _ c => image_inv (image (_db c))).
Proof.
  unfold update_last_irreversible_block.
  apply ensures_step; [auto with preserves|]. intros gpo. apply ensures_step; [auto with preserves|]. intros dpo.
  apply ensures_step; [auto with preserves|]. intros ps. cbv zeta. destruct (merge_sort _ _ !! _) as [p|].
  2:{ by intros c c' []. }
  apply ensures_step.
  - destruct (_ <? _); [|apply preserves_ret]. apply preserves_bind; [|intros _; by apply preserves_update_st].
    apply preserves_on_db. set (k := ModDgp 0 (pure_mod (set_lib (last_confirmed_block_num p)))).
    refine (safe_keeps T 0 (eq k) _ k eq_refl). by intros ? <-.
  - intros _ c c' [] HJ E. injection E as <-. apply Jn_image in HJ as [_ HJ]. exact HJ.
Qed.

(** After the block, or after the commit when the hard forks fail *)
Lemma applied_ok env b r hist c c1 c2 o k : env_ok env b ->
  let n := Z.of_nat (length (pow_ops_at env (parentHash b))) in
  cc (Jn (saved_hist r hist) n) c -> before_commit env b c = (c1, inl tt) ->
  update_last_irreversible_block env c1 = (c2, inl tt) -> Hist r k (_db c2) -> process_hardforks c2 = o ->
  image_inv (image (_db o.1)).
Proof.
  intros He n HJ E1 E2 Hh <-. pose proof (before_commit_ok _ env b He _ _ tt HJ E1) as H1.
  pose proof (lib_ok _ env _ _ tt H1 E2) as H2.
  assert (H3 : cc (Jn (saved_hist r k) 0) c2) by (by apply Jn_image).
  pose proof (process_hardforks_keeps _ (Z.to_nat ETI_HardforkNum) (safe_keeps _ 0 _ hf_safe) _ H3) as H4.
  by apply Jn_image in H4 as [_ H4].
Qed.
End Bound.

Lemma image_inv_le B B' im : B <= B' -> image_inv B im -> image_inv B' im.
Proof.
  intros Hle (g & gp & Hg & Hgp & Hpso & HI & Hb). exists g, gp. do 4 (split; [done|]). lia.
Qed.

(** The contents and all that they can be taken back to satisfy the invariant *)
Definition NI (B : Z) (c : chain_controller) : Prop :=
  exists r hist, Hist r hist (_db c) /\ Forall (image_inv B) (image (_db c) :: hist).

Lemma image_dgp B c : image_inv B (image (_db c)) -> is_Some (db_find dynamic_global_property_object 0 (_db c)).
Proof. intros (g & gp & Hg & _). by exists g. Qed.

Lemma undo_NI B c e r hist : Hist r hist (_db c) -> Forall (image_inv B) hist ->
  (hist = [] -> image_inv B (image (_db c))) -> NI B ((on_db db_undo;; throw (A:=unit) e) c).1.
Proof.
  intros Hh Hall Hnil. destruct hist as [|im hist].
  - erewrite bind_inl by (apply on_db_undo, (Hist_undo_nil _ _ Hh)). exists r, []. split; [exact Hh|].
    constructor; [by apply Hnil|constructor].
  - destruct (Hist_undo _ _ _ _ Hh) as (d & E & Him & Hd). erewrite bind_inl by (apply on_db_undo; exact E).
    exists (r - 1), hist. split; [exact Hd|]. cbn. by rewrite Him.
Qed.

Lemma push_NI B env b c : env_ok env b ->
  let n := Z.of_nat (length (pow_ops_at env (parentHash b))) in
  B + n < 2 ^ 32 -> NI B c -> NI (B + n) (push_block env b c).1.
Proof.
  intros He n Hn (r & hist & Hh & Hall).
  assert (Hall' : Forall (image_inv (B + n)) (image (_db c) :: hist))
    by (eapply Forall_impl; [|exact Hall]; intros im; apply image_inv_le; lia).
  apply list.Forall_cons in Hall as [(g & gp & Hg & Hgp & Hpso & HI & Ht & Hnum) _].
  assert (HJ : cc (Jn (B + n) (saved_hist (r + 1) (image (_db c) :: hist)) n) (set_db (db_start_undo_session (_db c)) c)).
  { exists g, gp. split; [|lia]. split; [by apply Hist_start|exact Hg|exact Hgp|exact Hpso|exact HI]. }
  unfold push_block. erewrite bind_inl by apply on_db_start. set (c0 := set_db _ c) in *.
  unfold try_catch. rewrite apply_block_split.
  assert (Hs0 : in_session (saved_hist (r + 1) (image (_db c) :: hist)) (_db c0)) by (by apply Hist_start).
  pose proof (before_commit_session _ env b c0 Hs0) as Hs1.
  destruct (before_commit env b c0) as [c1 [[]|e]] eqn:E1.
  2:{ rewrite (bind_inr _ _ _ _ _ E1). by apply (undo_NI _ _ _ (r + 1) (image (_db c) :: hist)). }
  rewrite (bind_inl _ _ _ _ _ E1). destruct (update_last_irreversible_block env c1) as [c2 [[]|e]] eqn:E2.
  2:{ rewrite (bind_inr _ _ _ _ _ E2). pose proof (update_lib_throws _ _ _ _ _ Hs1 E2) as Hs2.
      by apply (undo_NI _ _ _ (r + 1) (image (_db c) :: hist)). }
  rewrite (bind_inl _ _ _ _ _ E2).
  assert (Hsat : dgp_sat (saved_hist (r + 1) (image (_db c) :: hist))
    (head_lib (head_block_number g) (last_irreversible_block_num g)) (_db c0)) by (split; [exact Hs0|]; by exists g).
  pose proof (before_commit_head _ env b _ _ c0 c1 tt Hsat E1) as H1.
  destruct (update_lib_hist env (r + 1) (image (_db c) :: hist) _ _ c1 c2 tt (conj Hs1 H1) E2) as (k & l' & _ & _ & H2).
  pose proof (process_hardforks_keeps _ (Z.to_nat ETI_HardforkNum) (hf_head_lib _ _ l') c2 H2) as H3.
  fold process_hardforks in H3.
  pose proof (applied_ok (B + n) Hn env b (r + 1) _ c0 c1 c2 _ _ He HJ E1 E2 (proj1 H2) eq_refl) as H4.
  destruct (process_hardforks c2) as [c3 [[]|e]]; destruct H3 as [H3 _].
  - exists (r + 1), (take (Z.to_nat (r + 1 - k)) (image (_db c) :: hist)). split; [exact H3|].
    constructor; [exact H4|]. by apply Forall_take.
  - apply (undo_NI _ _ _ (r + 1) (take (Z.to_nat (r + 1 - k)) (image (_db c) :: hist))); [exact H3|by apply Forall_take|].
    intros _. exact H4.
Qed.

Lemma revert_NI B fuel n : forall c, NI B c -> NI B (databaseReversion_ fuel n c).1.
Proof.
  induction fuel as [|fuel IH]; intros c HN; cbn [databaseReversion_]; pose proof HN as (r & hist & Hh & Hall);
    apply list.Forall_cons in Hall as [Him Hall]; destruct (image_dgp B c Him) as [g Hg];
    erewrite bind_inl by (apply get_dpo_at; exact Hg); (destruct (_ =? _); [done|]); [done|].
  destruct hist as [|im hist].
  - erewrite bind_inl by (apply on_db_undo, (Hist_undo_nil _ _ Hh)). apply IH.
    exists r, []. split; [exact Hh|]. by constructor.
  - destruct (Hist_undo _ _ _ _ Hh) as (d & E & Hd & Hh'). erewrite bind_inl by (apply on_db_undo; exact E).
    apply IH. exists (r - 1), hist. split; [exact Hh'|]. cbn. by rewrite Hd.
Qed.
