(* ===== verification/DposReach.v ===== *)
(** * Reachable states of the controller

    The states a node reaches from the genesis of a chain by blocks, applied or rejected, by
    reversions, and by re-reading the votes; the invariant of every one of them. *)

From stdpp Require Import gmap sorting.
From S2P Require Import Prelude Words Exn Chainbase Producer ChainController DposCalls DposUndo DposSlots DposInv.
From S2P Require Import DposRace DposSchedule DposInvariant.

#[local] Open Scope Z_scope.

(** ** Genesis *)

Definition no_active : global_property_object := MkGpo 0 (replicate TotalProducersPerRound 0) 0 0 0 0.

Lemma no_active_ok PO : round_ok PO (replicate TotalProducersPerRound 0).
Proof.
  split; [done|]. rewrite filter_zeros. split; [constructor|]. intros a Ha%elem_of_replicate. tauto.
Qed.

Lemma inv_empty g : num_pow_witnesses g = 0 -> total_pow g = 0 -> inv ∅ ∅ g no_active.
Proof.
  intros Hn Ht. split; [by rewrite Hn|lia|lia| | | | |apply no_active_ok]; intros *; by rewrite ?lookup_empty.
Qed.

(** The producers of [done] have been created *)
Record genesis_inv (T : saved_db) (g : dynamic_global_property_object) (gp : global_property_object) (done : list Z)
    (d : database) : Prop := {
  gi_session : in_session T d;
  gi_dgp : objects dynamic_global_property_object d !! 0 = Some g;
  gi_gpo : objects global_property_object d !! 0 = Some gp;
  gi_pso : is_Some (objects ProducerScheduleObject d !! 0);
  gi_inv : inv (objects producer_object d) (objects ProducerVotesObject d) g no_active;
  gi_nodup : NoDup (filter (fun a => a <> 0) done);
  gi_owner : forall a, a ∈ done -> a <> 0 -> has_owner (objects producer_object d) a
}.

Lemma filter_snoc_zero l : filter (fun a => a <> 0) (l ++ [0]) = filter (fun a => a <> 0) l.
Proof. by rewrite list.filter_app, app_nil_r. Qed.

Lemma genesis_producer T g gp done a :
  ensures (cc (genesis_inv T g gp done)) (create_genesis_producer a) (fun _ => cc (genesis_inv T g gp (done ++ [a]))).
Proof.
  intros c c' [] [Hs Hg Hgp Hpso HI Hnd Hown] E. unfold create_genesis_producer in E. destruct (a =? 0) eqn:Ea.
  { apply Z.eqb_eq in Ea as ->. injection E as <-. split; [done..| |].
    - by rewrite filter_snoc_zero.
    - intros a [Ha| ->%list_elem_of_singleton]%elem_of_app Hz; [auto|done]. }
  apply Z.eqb_neq in Ea.
  assert (Hst : stable_op (Emplace (pure_mod (new_producer a 0)))) by (by intros p).
  destruct (db_create_cases T (_db c) Hs _ Hst) as (x & r & E1 & Hs1 & Hr). destruct r as [u|e].
  2:{ by rewrite (bind_inr _ _ _ _ _ (on_db_eq _ _ _ _ E1)) in E. }
  rewrite (bind_inl _ _ _ _ _ (on_db_eq _ _ _ _ E1)) in E. set (k := _next_id _) in Hr. destruct Hr as (Ex & Hk & Hfresh).
  assert (Hst2 : stable_op (Emplace (pure_mod (fun p => MkPVO (pvo_id p) a (race p))))) by (by intros p).
  destruct (db_create_cases T (put_ix x (_db c)) Hs1 _ Hst2) as (y & r & E2 & Hs2 & Hr).
  unfold mbind, M_bind in E. rewrite (on_db_set _ c _ _ _ E2) in E. destruct r as [u2|e]; [|done]. injection E as <-.
  set (j := _next_id _) in Hr. destruct Hr as (Ey & _ & _).
  set (p := new_producer a 0 (ctor k)). change (pure_mod (new_producer a 0) (ctor k)).1 with p in Ex, Hfresh.
  split; [exact Hs2|exact Hg|exact Hgp|exact Hpso| | |].
  - unfold objects in *. cbn in *. rewrite Ex, Ey.
    eapply inv_new_votes; [by apply (inv_new_producer _ _ _ _ HI k)|apply lookup_insert_eq|done|done].
  - rewrite list.filter_app. apply list.NoDup_app. split; [done|]. split.
    + intros b [Hb Hin]%list_elem_of_filter Hb'. assert (b = a) as ->.
      { apply list_elem_of_filter in Hb' as [_ Hb']. by apply list_elem_of_singleton in Hb'. }
      destruct (Hown a Hin Hb) as (i & q & Hq & Hqa). by apply (Hfresh i q Hq).
    + apply list.NoDup_filter. apply NoDup_singleton.
  - intros b Hb Hz. change (has_owner (_indices x) b). rewrite Ex. apply elem_of_app in Hb as [Hb|Hb].
    + apply has_owner_insert; [auto|]. intros q Hq. congruence.
    + apply list_elem_of_singleton in Hb as ->. exists k, p. by rewrite lookup_insert_eq.
Qed.

Lemma genesis_producers T g gp l : forall done,
  ensures (cc (genesis_inv T g gp done)) (for_each create_genesis_producer l) (fun _ => cc (genesis_inv T g gp (done ++ l))).
Proof.
  induction l as [|a l IH]; intros done.
  { rewrite app_nil_r. by intros c c' [] Hc [= <-]. }
  eapply ensures_bind; [apply genesis_producer|]. intros []. cbn beta.
  replace (done ++ a :: l) with ((done ++ [a]) ++ l) by (by rewrite <- app_assoc). apply IH.
Qed.

(** A step that creates a singleton in an empty index *)
Lemma create_first {V} `{!Indexed V, !Stored V, !Saved V} T d d' f u : in_session T d ->
  db_create (pure_mod f) d = (d', inl u) -> get_ix (V:=V) d = empty_index -> (forall v : V, obj_id (f v) = obj_id v) ->
  exists x, d' = put_ix x d /\ in_session T d' /\ _indices x = {[0 := f (ctor 0)]}.
Proof.
  intros Hs E He Hf. assert (Hst : stable_op (Emplace (pure_mod f))) by (intros v; apply Hf).
  destruct (db_create_cases T d Hs _ Hst) as (x & r & E1 & Hs1 & Hr). rewrite E in E1. injection E1 as -> <-.
  exists x. split; [done|]. split; [done|]. destruct Hr as (Ex & _). unfold objects in Ex. rewrite He in Ex. exact Ex.
Qed.

Lemma bind_returned {S A B} (m : M S A) (k : A -> M S B) s s' b : (m ≫= k) s = (s', inl b) ->
  exists s1 a, m s = (s1, inl a) /\ k a s1 = (s', inl b).
Proof. unfold mbind, M_bind. destruct (m s) as [s1 [a|e]]; [|done]. eauto. Qed.

Lemma on_db_returned {A} (m : M database A) c c' a : on_db m c = (c', inl a) ->
  exists d, m (_db c) = (d, inl a) /\ c' = set_db d c.
Proof. unfold on_db. destruct (m (_db c)) as [d r]. intros [= <- ->]. eauto. Qed.

(** The objects of the genesis *)
Definition genesis_objects (ps : list Z) : M chain_controller unit :=
  on_db (db_create (pure_mod (genesis_gpo ps)));;
  on_db (db_create (pure_mod (fun h => MkHardfork (ph_id h) ETI_GenesisTime)));;
  on_db (db_create (pure_mod genesis_dgp));;
  on_db (db_create (pure_mod (fun s : ProducerScheduleObject => s)));;
  gpo ← get_global_properties;
  for_each create_genesis_producer (active_producers gpo).

Lemma genesis_objects_ok ps c : (length ps <= TotalProducersPerRound)%nat ->
  genesis_objects ps empty_controller = (c, inl tt) -> image_inv 0 (image (_db c)).
Proof.
  intros Hlen E. unfold genesis_objects in E. pose proof empty_session as Hs.
  apply bind_returned in E as (c1 & u1 & (d1 & E1 & ->)%on_db_returned & E).
  destruct (create_first (V:=global_property_object) _ _ _ _ _ Hs E1 eq_refl (fun v => eq_refl)) as (x1 & -> & Hs1 & Ex1).
  apply bind_returned in E as (c2 & u2 & (d2 & E2 & ->)%on_db_returned & E).
  destruct (create_first (V:=process_hardfork_object) _ _ _ _ _ Hs1 E2 eq_refl (fun v => eq_refl)) as (x2 & -> & Hs2 & _).
  apply bind_returned in E as (c3 & u3 & (d3 & E3 & ->)%on_db_returned & E).
  destruct (create_first (V:=dynamic_global_property_object) _ _ _ _ _ Hs2 E3 eq_refl (fun v => eq_refl)) as (x3 & -> & Hs3 & Ex3).
  apply bind_returned in E as (c4 & u4 & (d4 & E4 & ->)%on_db_returned & E).
  destruct (create_first (V:=ProducerScheduleObject) _ _ _ _ _ Hs3 E4 eq_refl (fun v => eq_refl)) as (x4 & -> & Hs4 & Ex4).
  erewrite bind_inl in E by (apply get_gpo_at; unfold db_find, objects; cbn; by rewrite Ex1, lookup_singleton_eq).
  set (gp := genesis_gpo ps (ctor 0)) in *. set (g := genesis_dgp (ctor 0)) in *. set (c5 := set_db _ _) in E.
  assert (H0 : cc (genesis_inv (saved_hist 0 []) g gp []) c5).
  { split; [exact Hs4|..]; unfold objects; cbn.
    - by rewrite Ex3, lookup_singleton_eq.
    - by rewrite Ex1, lookup_singleton_eq.
    - rewrite Ex4, lookup_singleton_eq. eauto.
    - by apply inv_empty.
    - constructor.
    - intros a Ha. by apply not_elem_of_nil in Ha. }
  destruct (genesis_producers _ g gp (active_producers gp) [] _ _ tt H0 E) as [_ Hg Hgp Hpso HI Hnd Hown].
  exists g, gp. split; [exact Hg|]. split; [exact Hgp|]. split; [exact Hpso|]. split; [|done].
  apply (inv_gpo _ _ _ no_active HI). split; [|by split].
  unfold gp. cbn [genesis_gpo active_producers ctor gpo_indexed]. rewrite length_app, length_drop, length_replicate. lia.
Qed.

Lemma genesis_ok env ps c : initialize_chain env ps empty_controller = (c, inl tt) -> NI 0 c.
Proof.
  intros E. destruct (genesis_aligned env ps c E) as [(Hh & _) _]. exists 0, []. split; [exact Hh|].
  constructor; [|constructor]. apply initialize_chain_returned in E. unfold initialize_chain_ in E. erewrite bind_inl in E by reflexivity.
  apply bind_returned in E as (c1 & [] & E1 & E). change (db_find _ 0 (_db empty_controller)) with (None (A:=global_property_object)) in E1.
  cbv match in E1. case_decide as Hl; [done|].
  pose proof (genesis_objects_ok ps c1 ltac:(lia) E1) as HI.
  assert (Hp : preserves (cc (fun d => image_inv 0 (image d))) (init_hardforks;;
    dpo ← get_dynamic_global_properties;
    update_st (set_last_irreversible (last_irreversible_block_num dpo)
           (numberHash env (last_irreversible_block_num dpo))))) by (unfold init_hardforks; preserve).
  specialize (Hp c1 HI). by rewrite E in Hp.
Qed.

(** ** Steps of the node *)

(** The step, and how many proof-of-work operations its block carried *)
Inductive node_step : chain_controller -> nat -> chain_controller -> Prop :=
  | step_push env b c : env_ok env b ->
      node_step c (length (pow_ops_at env (parentHash b))) (push_block env b c).1
  | step_revert n c : node_step c 0 (databaseReversion n c).1
  | step_votes env b c : node_step c 0 (init_allvotes env b c).1.

Inductive reachable : nat -> chain_controller -> Prop :=
  | reach_genesis env ps c : initialize_chain env ps empty_controller = (c, inl tt) -> reachable 0 c
  | reach_step k n c c' : reachable k c -> node_step c n c' -> reachable (k + n) c'.

Lemma reachable_NI k c : reachable k c -> Z.of_nat k < 2 ^ 32 -> NI (Z.of_nat k) c.
Proof.
  induction 1 as [env ps c E|k n c c' Hr IH Hs]; intros Hk; [by eapply genesis_ok|].
  specialize (IH ltac:(lia)). destruct Hs as [env b c He|n c|env b c]; rewrite Nat2Z.inj_add in *.
  - by apply push_NI.
  - rewrite Z.add_0_r. by apply revert_NI.
  - rewrite Z.add_0_r. exact IH.
Qed.

(** What the invariant says of a database *)
Record db_invariant (d : database) : Prop := {
  di_queue : forall g, db_find dynamic_global_property_object 0 d = Some g ->
    num_pow_witnesses g = Z.of_nat (length (queue d)) /\
    forall p, p ∈ queue d -> pow_worker p <= total_pow g;
  di_ranks : NoDup (pow_worker <$> queue d);
  di_candidates : forall p, p ∈ queue d -> db_find_by ProducerVotesObject (owner p) d = None;
  di_voted : forall i v, objects ProducerVotesObject d !! i = Some v ->
    exists p, db_find_by producer_object (ownerName v) d = Some p /\ pow_worker p = 0;
  di_active : exists gp, db_find global_property_object 0 d = Some gp /\
    length (active_producers gp) = TotalProducersPerRound /\
    NoDup (filter (fun a => a <> 0) (active_producers gp)) /\
    forall a, a ∈ active_producers gp -> a <> 0 -> is_Some (db_find_by producer_object a d)
}.

Lemma owner_found T d a : in_session T d -> has_owner (objects producer_object d) a ->
  exists i p, db_find_by producer_object a d = Some p /\ objects producer_object d !! i = Some p.
Proof.
  intros Hs (i & p & Hp & <-). exists i, p. split; [|done]. apply (db_find_by_Some T d _ p Hs).
  split; [|done]. pose proof (objects_id T d i p Hs Hp) as Hi. by rewrite Hi.
Qed.

Lemma inv_db T g gp d : InvG T g gp d -> db_invariant d.
Proof.
  intros HI. pose proof (ig_session _ _ _ _ HI) as Hs. pose proof (ig_inv _ _ _ _ HI) as Hi. split.
  - intros g' Hg'. assert (g' = g) as -> by (pose proof (ig_dgp _ _ _ _ HI); unfold db_find in Hg'; congruence).
    split; [by rewrite queue_length, (inv_count _ _ _ _ Hi)|].
    intros p [_ [i Hp]]%queue_elem. by apply (inv_pow _ _ _ _ Hi i).
  - apply NoDup_fmap_2_strong; [|eapply NoDup_fmap_1, (queue_NoDup T d Hs)].
    intros p q [Hw [i Hp]]%queue_elem [_ [j Hq]]%queue_elem E.
    assert (i = j) as -> by (by eapply (inv_distinct _ _ _ _ Hi)). congruence.
  - intros p Hp. apply db_find_by_None. intros i v Hv Ho. eapply (queued_no_votes T gp g d p HI Hp). by exists i, v.
  - intros i v Hv. destruct (inv_votes _ _ _ _ Hi i v Hv) as (j & p & Hp & Ho & Hw). exists p. split; [|done].
    apply (db_find_by_Some T d _ p Hs). split; [|done]. pose proof (objects_id T d j p Hs Hp) as E. by rewrite E.
  - exists gp. split; [exact (ig_gpo _ _ _ _ HI)|]. destruct (inv_active _ _ _ _ Hi) as (H1 & H2 & H3).
    split; [done|]. split; [done|]. intros a Ha Hz. destruct (owner_found T d a Hs (H3 a Ha Hz)) as (i & p & E & _). eauto.
Qed.

(** ** Results *)

(** C1: in every state that a node reaches from the genesis of a chain by blocks, applied or
    rejected, and by reversions, with fewer than 2^32 proof-of-work operations in all, the
    counter of the proof-of-work queue is its length, its ranks are distinct and at most
    [total_pow], nobody in it is a candidate with votes, every candidate has a producer object
    outside it, and the active producers are 21 slots whose names do not repeat and have
    producer objects. *)
Theorem reachable_invariant k c : reachable k c -> Z.of_nat k < 2 ^ 32 -> db_invariant (_db c).
Proof.
  intros Hr Hk. destruct (reachable_NI k c Hr Hk) as (r & hist & Hh & Hall).
  apply list.Forall_cons in Hall as [Him _]. destruct (proj2 (Jn_image _ _ _) (conj Hh Him)) as (g & gp & HI & _).
  by eapply inv_db.
Qed.

(** A block whose parent state records the candidate 9 and a proof of work of 8 *)
Definition work_env : chain_env :=
  MkEnv (fun _ => {[9 := MkVoteInfo true 5]}) (fun _ => [MkPow 8 0 1]) (fun n => n) 0.
Definition work_header : BlockHeader := sample_header 1 1513580327 2.
Definition work_block : chain_controller := (push_block work_env work_header sample_genesis).1.

Lemma work_reachable : reachable 1 work_block.
Proof.
  apply (reach_step 0 1 sample_genesis).
  - apply (reach_genesis sample_env [1; 2; 3]).
    assert (E : (initialize_chain sample_env [1; 2; 3] empty_controller).2 = inl tt) by (vm_compute; reflexivity).
    exact (pair_outcome _ _ E).
  - apply (step_push work_env work_header). split.
    + intros o Ho. cbn in Ho. apply list_elem_of_singleton in Ho as ->. done.
    + intros a [v Hv]. cbn in Hv. apply lookup_singleton_Some in Hv as [<- _]. done.
Qed.

Lemma reachable_invariant_witness :
  reachable 1 work_block /\ Z.of_nat 1 < 2 ^ 32 /\ db_invariant (_db work_block) /\
  owner <$> queue (_db work_block) = [8] /\ (ownerName <$> byVotes (_db work_block)) = [9; 3; 2; 1].
Proof.
  split; [exact work_reachable|]. split; [reflexivity|].
  split; [exact (reachable_invariant 1 work_block work_reachable eq_refl)|].
  vm_compute. split; reflexivity.
Defined.

(** C17: the next round: [calculateNextRound] throws when there is no candidate and
    otherwise returns the round of the reference [round_spec]: the first 16 names by votes and
    the first other name by race finish time, unless there is a queue and at most 84 blocks,
    then the first names of the queue (4 after block 84, else all that fit), then empty slots.
    These are the constants of config.hpp and the order of the code; comments in
    producer_objects speak of other numbers and of a round sorted by name.
    Shuffled with any seed, it has 21 slots without a name twice, all with producer objects.
    The names taken, and one more from a queue of more than 21, leave the queue, the race
    advances as in [race_spec], and the invariant holds again. *)
Theorem next_round_correct T g gp d : InvG T g gp d ->
  (objects ProducerVotesObject d = ∅ -> calculateNextRound d = (d, inr NoEnoughProducers)) /\
  (objects ProducerVotesObject d <> ∅ -> exists d', calculateNextRound d = (d', inl (round_spec g d)) /\
     (forall seed, round_ok (objects producer_object d') (shuffle seed (round_spec g d))) /\
     queue d' = drop (room g d) (waiting g d) /\
     objects ProducerVotesObject d' = votes_after g d /\
     exists g', InvG T g' gp d').
Proof.
  intros HI. split; [apply next_round_none|]. intros Hne.
  destruct (next_round_ok T gp g d HI Hne) as (d' & E & [(g' & HI' & _) Hq Hv Ho]).
  exists d'. split; [exact E|]. split; [|eauto]. intros seed.
  apply (round_ok_perm _ (round_spec g d)); [symmetry; apply shuffle_perm|].
  eapply round_ok_owners; [exact Ho|]. by eapply round_spec_ok.
Qed.

(** C33: the race after a round with a runner-up: [update_race] returns; when nobody is projected
    to finish after the runner-up, or the race time or a lap would overflow, everybody restarts
    at time 0, else exactly those that finish no later than the runner-up start their next lap
    at his finish time, which becomes the race time.  The loop that does it ends although it
    moves the elements of the index it walks over. *)
Theorem race_correct T d s runner :
  in_session T d -> objects ProducerScheduleObject d !! 0 = Some s ->
  db_find_by ProducerVotesObject (ownerName runner) d = Some runner ->
  (exists d', update_race (ownerName runner) d = (d', inl tt) /\
     objects ProducerVotesObject d' = (race_spec runner (objects ProducerVotesObject d)).1 /\
     objects ProducerScheduleObject d' !! 0 = Some (MkPSO (pso_id s) (race_spec runner (objects ProducerVotesObject d)).2)) /\
  (forall finish, by_finish_after runner d = Some finish ->
     exists d' r, lap_loop (lap_fuel d) (head (filter (fun q => by_finish_le q runner) (byProjectedRaceFinishTime d)))
       (pvo_id finish) (projectedFinishTime (race runner)) d = (d', r) /\ r <> inr out_of_fuel).
Proof.
  intros Hd Hs Hr. split.
  - destruct (update_race_ok T d s runner Hd Hs Hr) as (x & y & E & _ & Ex & Ey).
    exists (put_ix y (put_ix x d)). split; [exact E|]. split; [exact Ex|].
    unfold objects at 1. cbn. by rewrite Ey, lookup_insert_eq.
  - intros finish Hf. apply (proj1 (db_find_by_Some T d _ runner Hd)) in Hr as [Hr _].
    destruct (race_walk T d runner finish Hd Hr Hf) as (x & r & E & _ & _ & [[-> _]|[-> _]]); eauto.
Qed.

(** Eighteen candidates without votes, after the genesis *)
Definition many : list Z := [1; 2; 3; 4; 5; 6; 7; 8; 9; 10; 11; 12; 13; 14; 15; 16; 17; 18].
Definition many_genesis : chain_controller := (initialize_chain sample_env many empty_controller).1.

Lemma reachable_InvG k c g gp : reachable k c -> Z.of_nat k < 2 ^ 32 ->
  db_find dynamic_global_property_object 0 (_db c) = Some g -> db_find global_property_object 0 (_db c) = Some gp ->
  exists T, InvG T g gp (_db c).
Proof.
  intros Hr Hk Hg Hgp. destruct (reachable_NI k c Hr Hk) as (r & hist & Hh & Hall).
  apply list.Forall_cons in Hall as [Him _]. destruct (proj2 (Jn_image _ _ _) (conj Hh Him)) as (g' & gp' & HI & _).
  exists (saved_hist r hist). pose proof (ig_dgp _ _ _ _ HI) as E1. pose proof (ig_gpo _ _ _ _ HI) as E2.
  unfold db_find in *. by replace g with g' by congruence; replace gp with gp' by congruence.
Qed.

Lemma next_round_correct_witness :
  let d := _db many_genesis in
  exists T g gp, InvG T g gp d /\ objects ProducerVotesObject d <> ∅ /\
    exists d', calculateNextRound d = (d', inl ([18; 17; 16; 15; 14; 13; 12; 11; 10; 9; 8; 7; 6; 5; 4; 3; 1] ++ [0; 0; 0; 0])) /\
      exists g', InvG T g' gp d'.
Proof.
  intros d.
  assert (Hr : reachable 0 many_genesis).
  { apply (reach_genesis sample_env many).
    assert (E : (initialize_chain sample_env many empty_controller).2 = inl tt) by (vm_compute; reflexivity).
    exact (pair_outcome _ _ E). }
  destruct (db_find dynamic_global_property_object 0 d) as [g|] eqn:Eg; [|by vm_compute in Eg].
  destruct (db_find global_property_object 0 d) as [gp|] eqn:Egp; [|by vm_compute in Egp].
  destruct (reachable_InvG 0 many_genesis g gp Hr eq_refl Eg Egp) as [T HI]. exists T, g, gp. split; [exact HI|].
  assert (Hne : objects ProducerVotesObject d <> ∅) by (intros E; apply (f_equal size) in E; by vm_compute in E).
  split; [exact Hne|].
  destruct (next_round_correct T g gp d HI) as [_ H]. destruct (H Hne) as (d' & E & _ & _ & _ & HI').
  exists d'. split; [|exact HI']. rewrite E. f_equal. vm_compute in Eg. injection Eg as <-. vm_compute. reflexivity.
Defined.

(** Two candidates that received 5 and 7 votes after they registered *)
Definition votes_env (v w : Z) : chain_env :=
  MkEnv (fun _ => {[9 := MkVoteInfo true v; 10 := MkVoteInfo true w]}) (fun _ => []) (fun n => n) 0.
Definition race_start : chain_controller :=
  (push_block (votes_env 0 0) (sample_header 1 1513580327 2) sample_genesis).1.
Definition race_block : chain_controller :=
  (push_block (votes_env 5 7) (sample_header 2 1513580328 3) race_start).1.

Lemma votes_step v w n t p c : node_step c 0 (push_block (votes_env v w) (sample_header n t p) c).1.
Proof.
  apply (step_push (votes_env v w) (sample_header n t p)). split; cbn.
  - intros o Ho. by apply not_elem_of_nil in Ho.
  - intros a [x Hx]. apply lookup_insert_Some in Hx as [[<- _]|[_ Hx]]; [done|].
    by apply lookup_singleton_Some in Hx as [<- _].
Qed.

Lemma race_reachable : reachable 0 race_block.
Proof.
  apply (reach_step 0 0 race_start); [|apply votes_step]. apply (reach_step 0 0 sample_genesis); [|apply votes_step].
  apply (reach_genesis sample_env [1; 2; 3]).
  assert (E : (initialize_chain sample_env [1; 2; 3] empty_controller).2 = inl tt) by (vm_compute; reflexivity).
  exact (pair_outcome _ _ E).
Qed.

Lemma race_correct_witness :
  let d := _db race_block in
  let t := UInt128_max / 7 in
  let runner := MkPVO 4 10 (MkRace 7 0 0 t) in
  (exists d', update_race 10 d = (d', inl tt) /\
     objects ProducerVotesObject d' = <[4 := MkPVO 4 10 (MkRace 7 0 t (t + t))]> (objects ProducerVotesObject d) /\
     objects ProducerScheduleObject d' !! 0 = Some (MkPSO 0 t)) /\
  (forall finish, by_finish_after runner d = Some finish ->
     exists d' r, lap_loop (lap_fuel d) (head (filter (fun q => by_finish_le q runner) (byProjectedRaceFinishTime d)))
       (pvo_id finish) t d = (d', r) /\ r <> inr out_of_fuel).
Proof.
  intros d t runner.
  destruct (reachable_NI 0 race_block race_reachable eq_refl) as (r & hist & Hh & _).
  assert (Es : objects ProducerScheduleObject d !! 0 = Some (MkPSO 0 0)) by (vm_compute; reflexivity).
  assert (Er : db_find_by ProducerVotesObject (ownerName runner) d = Some runner) by (vm_compute; reflexivity).
  destruct (race_correct (saved_hist r hist) d (MkPSO 0 0) runner Hh Es Er) as [(d' & E1 & E2 & E3) Hl].
  split; [|exact Hl]. exists d'. split; [exact E1|]. split.
  - rewrite E2. vm_compute. reflexivity.
  - rewrite E3. vm_compute. reflexivity.
Defined.

(** A rejected block takes back the database but not [_all_votes]: with a genesis producer 7 and
    candidates 5 and 7 in the parent state, the votes of 5 stay recorded although its votes
    object was undone, and the next block in which 5 has other votes is rejected too. *)
Example rejected_block_keeps_votes :
  let c := (initialize_chain sample_env [7] empty_controller).1 in
  let at_ l := MkEnv (fun _ => list_to_map l) (fun _ => []) (fun n => n) 0 in
  let b := sample_header 1 1513580387 7 in
  let '(c1, r1) := push_block (at_ [(5, MkVoteInfo true 0); (7, MkVoteInfo true 0)]) b c in
  let '(c2, r2) := push_block (at_ [(5, MkVoteInfo true 1)]) b c1 in
  r1 = inr logic_error /\ image (_db c1) = image (_db c) /\ _all_votes c1 !! 5 = Some 0 /\ r2 = inr out_of_range.
Proof. vm_compute. done. Qed.
