(* ===== verification/EthState.v ===== *)
(** * libethereum/State.cpp, Account.h: accounts, change log, commit

    A [State] is a cache of accounts over a state trie, with a log of changes from which a
    failed call is rolled back.  A trie is represented by its contents and a root hash by the
    contents it commits to (the trie structure of libdevcore/TrieDB.h is not modelled):
    [m_storageRoot] and the trie [m_state] are finite maps, [EmptyTrie] is the empty one.  The
    database [m_db] holds the code blobs by their hash.

    A pointer to an account is used by the code only until the next access, so an operation
    through it is an update of the entry of [m_cache].  [m_changeLog] has the back of the
    vector at its head.  [assert] has no effect. *)

From stdpp Require Import gmap sorting.
From S2P Require Import Prelude Words Exn.

#[local] Open Scope Z_scope.

Definition u256 (x : Z) : Z := x mod 2 ^ 256.
Abbreviation is_u256 := (is_word 256).
Definition Invalid256 : Z := 2 ^ 256 - 1.

(** What the environment provides: dev::sha3 of a byte string, and the value drawn from
    s_fixedHashEngine, any function of the vector it is used on *)
Class NodeEnv := {
  sha3 : list Z -> Z;
  sha3_range : forall c, is_u256 (sha3 c);
  randomIndex : list Z -> nat
}.

(** ** Account.h *)

Record Account := mkAccount {
  m_isAlive : bool;
  m_isUnchanged : bool;
  m_hasNewCode : bool;
  m_nonce : Z;
  m_balance : Z;
  m_storageRoot : gmap Z Z;
  m_codeHash : Z;
  m_storageOverlay : gmap Z Z;
  m_codeCache : list Z
}.

(** The RLP list of a leaf of the state trie *)
Record leaf := Leaf {
  leaf_nonce : Z;
  leaf_balance : Z;
  leaf_root : gmap Z Z;
  leaf_codeHash : Z
}.

(** Change::Kind with the fields that its constructor sets *)
Inductive Change : Type :=
  | ChBalance (address value : Z)
  | ChStorage (address key value : Z)
  | ChStorageRoot (address : Z) (value : gmap Z Z)
  | ChNonce (address value : Z)
  | ChCreate (address : Z)
  | ChCode (address : Z) (oldCode : list Z)
  | ChTouch (address : Z).

Inductive CommitBehaviour := KeepEmptyAccounts | RemoveEmptyAccounts.

#[export] Instance CommitBehaviour_eq_dec : EqDecision CommitBehaviour.
Proof. solve_decision. Defined.

Section Accounts.
Context `{NodeEnv}.

Definition EmptySHA3 : Z := sha3 [].

(** Account() *)
Definition dead_account : Account := mkAccount false false false 0 0 ∅ EmptySHA3 ∅ [].

(** Account(_nonce, _balance) *)
Definition new_account (nonce balance : Z) : Account :=
  mkAccount true false false nonce balance ∅ EmptySHA3 ∅ [].

(** Account(state[0], state[1], state[2], state[3], Account::Unchanged) *)
Definition account_of_leaf (l : leaf) : Account :=
  mkAccount true true false (leaf_nonce l) (leaf_balance l) (leaf_root l) (leaf_codeHash l) ∅ [].

Definition kill_account (a : Account) : Account :=
  mkAccount false false (m_hasNewCode a) 0 0 ∅ EmptySHA3 ∅ (m_codeCache a).

Definition isDirty (a : Account) : bool := negb (m_isUnchanged a).

Definition untouch (a : Account) : Account :=
  mkAccount (m_isAlive a) true (m_hasNewCode a) (m_nonce a) (m_balance a) (m_storageRoot a)
            (m_codeHash a) (m_storageOverlay a) (m_codeCache a).

Definition isEmpty (a : Account) : bool :=
  bool_decide (m_nonce a = 0) && bool_decide (m_balance a = 0)
  && bool_decide (m_codeHash a = EmptySHA3).

Definition account_addBalance (v : Z) (a : Account) : Account :=
  mkAccount (m_isAlive a) false (m_hasNewCode a) (m_nonce a) (u256 (m_balance a + v))
            (m_storageRoot a) (m_codeHash a) (m_storageOverlay a) (m_codeCache a).

Definition account_setNonce (n : Z) (a : Account) : Account :=
  mkAccount (m_isAlive a) false (m_hasNewCode a) n (m_balance a)
            (m_storageRoot a) (m_codeHash a) (m_storageOverlay a) (m_codeCache a).

Definition account_incNonce (a : Account) : Account := account_setNonce (u256 (m_nonce a + 1)) a.

Definition account_setStorage (k v : Z) (a : Account) : Account :=
  mkAccount (m_isAlive a) false (m_hasNewCode a) (m_nonce a) (m_balance a)
            (m_storageRoot a) (m_codeHash a) (<[k := v]> (m_storageOverlay a)) (m_codeCache a).

(** clearStorage() is setStorageRoot(EmptyTrie) *)
Definition setStorageRoot (root : gmap Z Z) (a : Account) : Account :=
  mkAccount (m_isAlive a) false (m_hasNewCode a) (m_nonce a) (m_balance a)
            root (m_codeHash a) ∅ (m_codeCache a).

Definition setStorageCache (k v : Z) (a : Account) : Account :=
  mkAccount (m_isAlive a) (m_isUnchanged a) (m_hasNewCode a) (m_nonce a) (m_balance a)
            (m_storageRoot a) (m_codeHash a) (<[k := v]> (m_storageOverlay a)) (m_codeCache a).

(** Account.cpp: setCode does not call changed() *)
Definition account_setCode (code : list Z) (a : Account) : Account :=
  mkAccount (m_isAlive a) (m_isUnchanged a) true (m_nonce a) (m_balance a)
            (m_storageRoot a) (sha3 code) (m_storageOverlay a) code.

Definition noteCode (code : list Z) (a : Account) : Account :=
  mkAccount (m_isAlive a) (m_isUnchanged a) (m_hasNewCode a) (m_nonce a) (m_balance a)
            (m_storageRoot a) (m_codeHash a) (m_storageOverlay a) code.
End Accounts.

(** ** State.h *)

Record State := mkState {
  m_db : gmap Z (list Z);
  m_state : gmap Z leaf;
  m_cache : gmap Z Account;
  m_unchangedCacheEntries : list Z;
  m_nonExistingAccountsCache : gset Z;
  m_touched : gset Z;
  m_accountStartNonce : Z;
  m_changeLog : list Change
}.

Definition set_cache (c : gmap Z Account) (s : State) : State :=
  mkState (m_db s) (m_state s) c (m_unchangedCacheEntries s) (m_nonExistingAccountsCache s)
          (m_touched s) (m_accountStartNonce s) (m_changeLog s).
Definition set_unchanged (l : list Z) (s : State) : State :=
  mkState (m_db s) (m_state s) (m_cache s) l (m_nonExistingAccountsCache s)
          (m_touched s) (m_accountStartNonce s) (m_changeLog s).
Definition set_nonExisting (x : gset Z) (s : State) : State :=
  mkState (m_db s) (m_state s) (m_cache s) (m_unchangedCacheEntries s) x
          (m_touched s) (m_accountStartNonce s) (m_changeLog s).
Definition set_changeLog (l : list Change) (s : State) : State :=
  mkState (m_db s) (m_state s) (m_cache s) (m_unchangedCacheEntries s)
          (m_nonExistingAccountsCache s) (m_touched s) (m_accountStartNonce s) l.

Definition log (c : Change) (s : State) : State := set_changeLog (c :: m_changeLog s) s.

(** [a->f()] for a pointer into the cache *)
Definition upd_account (addr : Z) (f : Account -> Account) (s : State) : State :=
  set_cache (alter f addr (m_cache s)) s.

Section StateOps.
Context `{NodeEnv}.

(** [m_cache[addr].f()]: the operator makes a dead account when there is none *)
Definition upd_cache (addr : Z) (f : Account -> Account) (s : State) : State :=
  set_cache (<[addr := f (default dead_account (m_cache s !! addr))]> (m_cache s)) s.

(** [swap(v[i], v.back()); v.pop_back();] *)
Definition swap_pop (i : nat) (l : list Z) : list Z :=
  let n := (length l - 1)%nat in take n (<[i := l !!! n]> (<[n := l !!! i]> l)).

Fixpoint clearCache_loop (fuel : nat) (s : State) : State :=
  match fuel with
  | O => s
  | S fuel =>
      let v := m_unchangedCacheEntries s in
      if decide (1000 < length v)%nat then
        let i := (randomIndex v `mod` length v)%nat in
        let addr := v !!! i in
        let s := set_unchanged (swap_pop i v) s in
        clearCache_loop fuel
          match m_cache s !! addr with
          | Some a => if isDirty a then s else set_cache (delete addr (m_cache s)) s
          | None => s
          end
      else s
  end.

Definition clearCacheIfTooLarge (s : State) : State :=
  clearCache_loop (length (m_unchangedCacheEntries s)) s.

(** The account at an address or a null pointer *)
Definition find_account (addr : Z) (s : State) : State * option Account :=
  match m_cache s !! addr with
  | Some a => (s, Some a)
  | None =>
      if decide (addr ∈ m_nonExistingAccountsCache s) then (s, None)
      else match m_state s !! addr with
      | None => (set_nonExisting ({[addr]} ∪ m_nonExistingAccountsCache s) s, None)
      | Some l =>
          let s := clearCacheIfTooLarge s in
          let a := account_of_leaf l in
          (set_unchanged (m_unchangedCacheEntries s ++ [addr])
             (set_cache (<[addr := a]> (m_cache s)) s), Some a)
      end
  end.

Definition account (addr : Z) : M State (option Account) := fun s =>
  let '(s, a) := find_account addr s in (s, inl a).

(** [if (a = account(addr)) return f(a); else return none;] *)
Definition query {A} (addr : Z) (f : Account -> A) (none : A) : M State A :=
  a ← account addr; mret (match a with Some a => f a | None => none end).

Definition requireAccountStartNonce : M State Z :=
  s ← get_st;
  if decide (m_accountStartNonce s = Invalid256) then throw InvalidAccountStartNonceInState
  else mret (m_accountStartNonce s).

Definition set_startNonce (n : Z) (s : State) : State :=
  mkState (m_db s) (m_state s) (m_cache s) (m_unchangedCacheEntries s)
          (m_nonExistingAccountsCache s) (m_touched s) n (m_changeLog s).

Definition noteAccountStartNonce (actual : Z) : M State unit :=
  s ← get_st;
  if decide (m_accountStartNonce s = Invalid256) then update_st (set_startNonce actual)
  else if decide (m_accountStartNonce s <> actual) then throw IncorrectAccountStartNonceInState
  else mret tt.

Definition addressInUse (id : Z) : M State bool := query id (fun _ => true) false.
Definition accountNonemptyAndExisting (id : Z) : M State bool :=
  query id (fun a => negb (isEmpty a)) false.
Definition addressHasCode (id : Z) : M State bool :=
  query id (fun a => bool_decide (m_codeHash a <> EmptySHA3)) false.
Definition balance (id : Z) : M State Z := query id m_balance 0.
Definition codeHash (id : Z) : M State Z := query id m_codeHash EmptySHA3.
Definition getNonce (id : Z) : M State Z :=
  a ← account id;
  s ← get_st;
  mret (match a with Some a => m_nonce a | None => m_accountStartNonce s end).

Definition createAccount (addr : Z) (a : Account) : M State unit :=
  update_st (fun s => set_cache (<[addr := a]> (m_cache s)) s);;
  update_st (fun s => set_nonExisting (m_nonExistingAccountsCache s ∖ {[addr]}) s);;
  update_st (log (ChCreate addr)).

Definition createContract (addr : Z) : M State unit :=
  n ← requireAccountStartNonce;
  createAccount addr (new_account n 0).

Definition incNonce (addr : Z) : M State unit :=
  p ← account addr;
  match p with
  | Some a =>
      update_st (upd_account addr account_incNonce);;
      update_st (log (ChNonce addr (m_nonce a)))
  | None =>
      n ← requireAccountStartNonce;
      createAccount addr (new_account (u256 (n + 1)) 0)
  end.

Definition setNonce (addr newNonce : Z) : M State unit :=
  p ← account addr;
  match p with
  | Some a =>
      update_st (upd_account addr (account_setNonce newNonce));;
      update_st (log (ChNonce addr (m_nonce a)))
  | None => createAccount addr (new_account newNonce 0)
  end.

Definition addBalance (id amount : Z) : M State unit :=
  p ← account id;
  match p with
  | Some a =>
      (if negb (isDirty a) && isEmpty a then update_st (log (ChTouch id)) else mret tt);;
      update_st (upd_account id (account_addBalance amount))
  | None =>
      n ← requireAccountStartNonce;
      createAccount id (new_account n amount)
  end;;
  if decide (amount = 0) then mret tt else update_st (log (ChBalance id amount)).

Definition subBalance (addr value : Z) : M State unit :=
  if decide (value = 0) then mret tt
  else
    p ← account addr;
    match p with
    | None => throw NotEnoughCash
    | Some a =>
        if decide (m_balance a < value) then throw NotEnoughCash
        else addBalance addr (u256 (0 - value))
    end.

Definition transferBalance (from to value : Z) : M State unit :=
  subBalance from value;; addBalance to value.

Definition kill (addr : Z) : M State unit :=
  p ← account addr;
  match p with
  | Some _ => update_st (upd_account addr kill_account)
  | None => mret tt
  end.

Definition storage (id key : Z) : M State Z :=
  p ← account id;
  match p with
  | Some a =>
      match m_storageOverlay a !! key with
      | Some v => mret v
      | None =>
          let ret := default 0 (m_storageRoot a !! key) in
          update_st (upd_account id (setStorageCache key ret));; mret ret
      end
  | None => mret 0
  end.

Definition setStorage (contract key value : Z) : M State unit :=
  old ← storage contract key;
  update_st (log (ChStorage contract key old));;
  update_st (upd_cache contract (account_setStorage key value)).

Definition clearStorage (contract : Z) : M State unit :=
  update_st (upd_cache contract id);;
  s ← get_st;
  let oldHash := m_storageRoot (default dead_account (m_cache s !! contract)) in
  if decide (oldHash = ∅) then mret tt
  else
    update_st (log (ChStorageRoot contract oldHash));;
    update_st (upd_cache contract (setStorageRoot ∅)).

(** storage(_id): hashed keys to key and value; the key is hashed as 32 bytes *)
Definition hashedKey (k : Z) : Z := sha3 (be_to_bytes 32 k).

Definition storage_map (id : Z) : M State (gmap Z (Z * Z)) :=
  query id (fun a =>
    let ret := map_fold (fun k v ret => <[hashedKey k := (k, v)]> ret) ∅ (m_storageRoot a) in
    map_fold (fun k v ret => if decide (v = 0) then delete (hashedKey k) ret
                             else <[hashedKey k := (k, v)]> ret) ret (m_storageOverlay a)) ∅.

Definition code (addr : Z) : M State (list Z) :=
  p ← account addr;
  match p with
  | None => mret []
  | Some a =>
      if decide (m_codeHash a = EmptySHA3) then mret []
      else match m_codeCache a with
      | [] =>
          s ← get_st;
          let c := default [] (m_db s !! m_codeHash a) in
          update_st (upd_account addr (noteCode c));; mret c
      | c => mret c
      end
  end.

Definition setCode (addr : Z) (c : list Z) : M State unit :=
  old ← code addr;
  update_st (log (ChCode addr old));;
  update_st (upd_cache addr (account_setCode c)).

(** ** Savepoints *)

Definition savepoint : M State nat := s ← get_st; mret (length (m_changeLog s)).

Definition undo (c : Change) (s : State) : State :=
  match c with
  | ChStorage a k v => upd_cache a (account_setStorage k v) s
  | ChStorageRoot a r => upd_cache a (setStorageRoot r) s
  | ChBalance a v => upd_cache a (account_addBalance (u256 (0 - v))) s
  | ChNonce a n => upd_cache a (account_setNonce n) s
  | ChCreate a => set_cache (delete a (m_cache s)) s
  | ChCode a c => upd_cache a (account_setCode c) s
  | ChTouch a =>
      let s := upd_cache a untouch s in set_unchanged (m_unchangedCacheEntries s ++ [a]) s
  end.

(** The loop pops the log until it has the length of the savepoint; popping an empty vector
    is undefined. *)
Fixpoint rollback_loop (sp : nat) (cs : list Change) : M State unit :=
  if decide (sp = length cs) then mret tt
  else match cs with
  | [] => throw undefined_behaviour
  | c :: cs => update_st (fun s => set_changeLog cs (undo c s));; rollback_loop sp cs
  end.

Definition rollback (sp : nat) : M State unit :=
  s ← get_st; rollback_loop sp (m_changeLog s).

(** ** Commit *)

Definition removeEmptyAccounts (s : State) : State :=
  set_cache ((fun a => if isDirty a && isEmpty a then kill_account a else a) <$> m_cache s) s.

(** The storage trie with the overlay written to it *)
Definition commit_storage (overlay root : gmap Z Z) : gmap Z Z :=
  map_fold (fun k v r => if decide (v = 0) then delete k r else <[k := v]> r) root overlay.

Definition commit_root (a : Account) : gmap Z Z :=
  if decide (m_storageOverlay a = ∅) then m_storageRoot a
  else commit_storage (m_storageOverlay a) (m_storageRoot a).

Definition leaf_of_account (a : Account) : leaf :=
  Leaf (m_nonce a) (m_balance a) (commit_root a) (m_codeHash a).

Definition db_insert_code (a : Account) (db : gmap Z (list Z)) : gmap Z (list Z) :=
  if m_hasNewCode a then <[m_codeHash a := m_codeCache a]> db else db.

(** dev::eth::commit on the trie, the code blobs and the set of addresses it returns *)
Definition commit_one (p : Z * Account) (t : gmap Z leaf * gmap Z (list Z) * gset Z) :
    gmap Z leaf * gmap Z (list Z) * gset Z :=
  let '(st, db, ret) := t in
  let '(addr, a) := p in
  if isDirty a then
    if m_isAlive a
    then (<[addr := leaf_of_account a]> st, db_insert_code a db, {[addr]} ∪ ret)
    else (delete addr st, db, {[addr]} ∪ ret)
  else t.

Definition commit_trie (cache : gmap Z Account) (st : gmap Z leaf) (db : gmap Z (list Z)) :
    gmap Z leaf * gmap Z (list Z) * gset Z :=
  foldr commit_one (st, db, ∅) (map_to_list cache).

(** commitEx: the trie is split below its root by the first nibble of the hashed address.
    [insertAtBranch] works on [m_rootCache], [remove] on the trie itself, and [finish] makes the
    new root of [m_rootCache]. *)
Definition first_nibble (addr : Z) : nat := Z.to_nat (Z.shiftr (sha3 (be_to_bytes 20 addr)) 252).

Definition branch (i : nat) (st : gmap Z leaf) : gmap Z leaf :=
  filter (fun p => first_nibble p.1 = i) st.

(** prepareForMultiThread: the root node has 17 items when the keys differ in their first
    nibble; the other shapes of a root are accepted with an empty vector. *)
Definition prepareForMultiThread (st : gmap Z leaf) : bool * list (gmap Z leaf) :=
  let bs := (fun i => branch i st) <$> seq 0 16 in
  if decide (2 <= length (filter (fun b => b <> ∅) bs))%nat then
    if decide (Forall (fun b => b <> ∅) bs) then (true, bs) else (false, [])
  else (true, []).

Definition commitEx_one (p : Z * Account)
    (t : list (gmap Z leaf) * gmap Z leaf * gmap Z (list Z) * gset Z) :
    list (gmap Z leaf) * gmap Z leaf * gmap Z (list Z) * gset Z :=
  let '(rootCache, st, db, ret) := t in
  let '(addr, a) := p in
  if isDirty a then
    if m_isAlive a
    then (alter <[addr := leaf_of_account a]> (first_nibble addr) rootCache, st,
          db_insert_code a db, {[addr]} ∪ ret)
    else (rootCache, delete addr st, db, {[addr]} ∪ ret)
  else t.

(** The sixteen lists of accounts are taken by four threads; [order] is the sequence in which
    the accounts are written. *)
Definition commitEx_trie (order : list (Z * Account)) (rootCache : list (gmap Z leaf))
    (st : gmap Z leaf) (db : gmap Z (list Z)) : gmap Z leaf * gmap Z (list Z) * gset Z :=
  let '(rootCache, _, db, ret) := foldl (fun t p => commitEx_one p t) (rootCache, st, db, ∅) order in
  (union_list rootCache, db, ret).

Definition finish_commit (r : gmap Z leaf * gmap Z (list Z) * gset Z) (s : State) : State :=
  let '(st, db, ret) := r in
  mkState db st ∅ [] (m_nonExistingAccountsCache s) (m_touched s ∪ ret) (m_accountStartNonce s) [].

(** [order] arranges the accounts of the cache as the threads of commitEx happen to.  With an
    empty [m_rootCache] the first access is out of bounds. *)
Definition commit (order : list (Z * Account) -> list (Z * Account)) (b : CommitBehaviour) :
    M State unit := fun s =>
  let s := match b with RemoveEmptyAccounts => removeEmptyAccounts s | KeepEmptyAccounts => s end in
  if decide (1000 < size (m_cache s))%nat then
    match prepareForMultiThread (m_state s) with
    | (true, []) => (s, inr undefined_behaviour)
    | (true, rootCache) =>
        (finish_commit (commitEx_trie (order (map_to_list (m_cache s))) rootCache
                          (m_state s) (m_db s)) s, inl tt)
    | (false, _) => (finish_commit (commit_trie (m_cache s) (m_state s) (m_db s)) s, inl tt)
    end
  else (finish_commit (commit_trie (m_cache s) (m_state s) (m_db s)) s, inl tt).

Definition populateFrom (order : list (Z * Account) -> list (Z * Account)) (m : gmap Z Account) :
    M State unit :=
  update_st (fun s =>
    let '(st, db, _) := commit_trie m (m_state s) (m_db s) in
    mkState db st (m_cache s) (m_unchangedCacheEntries s) (m_nonExistingAccountsCache s)
            (m_touched s) (m_accountStartNonce s) (m_changeLog s));;
  commit order KeepEmptyAccounts.

(** setRoot with the contents that the root commits to *)
Definition setRoot (r : gmap Z leaf) (s : State) : State :=
  mkState (m_db s) r ∅ [] ∅ (m_touched s) (m_accountStartNonce s) (m_changeLog s).
End StateOps.
