(* ===== verification/EthStateInv.v ===== *)
(** * Cache coherence of the state

    What a [State] means: the account at an address ([acct]), its storage ([slot]) and code
    ([code_of]), independent of what is cached.  [wf] is the invariant of the cache; [sim] and
    [dirtier] relate states that mean the same. *)

From stdpp Require Import gmap sorting.
From S2P Require Import Prelude Words Exn EthState.

#[local] Open Scope Z_scope.

Section Meaning.
Context `{NodeEnv}.

(** The account at an address, from the cache or from the trie *)
Definition acct (s : State) (a : Z) : option Account :=
  match m_cache s !! a with
  | Some x => Some x
  | None => account_of_leaf <$> m_state s !! a
  end.

Definition slot (x : Account) (k : Z) : Z :=
  match m_storageOverlay x !! k with
  | Some v => v
  | None => default 0 (m_storageRoot x !! k)
  end.

Definition code_of (db : gmap Z (list Z)) (x : Account) : list Z :=
  if decide (m_codeHash x = EmptySHA3) then []
  else match m_codeCache x with
  | [] => default [] (db !! m_codeHash x)
  | c => c
  end.

(** What the queries answer *)
Definition balance_at (s : State) (a : Z) : Z :=
  match acct s a with Some x => m_balance x | None => 0 end.

Definition nonce_at (s : State) (a : Z) : Z :=
  match acct s a with Some x => m_nonce x | None => m_accountStartNonce s end.

Definition slot_at (s : State) (a k : Z) : Z :=
  match acct s a with Some x => slot x k | None => 0 end.

Definition code_at (s : State) (a : Z) : list Z :=
  match acct s a with Some x => code_of (m_db s) x | None => [] end.

(** Two accounts that no query of the state tells apart *)
Record acc_equiv (db : gmap Z (list Z)) (x y : Account) : Prop := {
  eq_alive : m_isAlive x = m_isAlive y;
  eq_nonce : m_nonce x = m_nonce y;
  eq_balance : m_balance x = m_balance y;
  eq_codeHash : m_codeHash x = m_codeHash y;
  eq_slot : forall k, slot x k = slot y k;
  eq_code : code_of db x = code_of db y
}.

#[global] Instance acc_equiv_equivalence db : Equivalence (acc_equiv db).
Proof.
  split.
  - intros x. by split.
  - intros x y []. by split.
  - intros x y z [] []. split; etrans; eauto.
Qed.

Lemma acc_equiv_isEmpty db x y : acc_equiv db x y -> isEmpty x = isEmpty y.
Proof. intros []. unfold isEmpty. by rewrite eq_nonce0, eq_balance0, eq_codeHash0. Qed.

(** Up to caching: the same account and the same flag *)
Definition same_acc (db : gmap Z (list Z)) (x y : Account) : Prop :=
  acc_equiv db x y /\ m_isUnchanged x = m_isUnchanged y.

(** The same account, perhaps marked as changed, but never so that an empty account would be
    removed that was not to be *)
Definition dirtier_acc (db : gmap Z (list Z)) (x y : Account) : Prop :=
  acc_equiv db x y /\ (isDirty x -> isDirty y) /\ (~ isDirty x -> isEmpty x -> ~ isDirty y).

#[global] Instance same_acc_equivalence db : Equivalence (same_acc db).
Proof.
  split.
  - intros x. by split.
  - intros x y []. by split.
  - intros x y z [] []. split; etrans; eauto.
Qed.

#[global] Instance dirtier_acc_preorder db : PreOrder (dirtier_acc db).
Proof.
  split; [by intros x; split_and!|].
  intros x y z (E1 & D1 & U1) (E2 & D2 & U2). split_and!.
  - by etrans.
  - auto.
  - intros Hx He. apply U2; [auto|]. by rewrite <-(acc_equiv_isEmpty _ _ _ E1).
Qed.

Lemma same_dirtier_acc db x y : same_acc db x y -> dirtier_acc db x y.
Proof. intros [E U]. unfold dirtier_acc, isDirty. by rewrite U. Qed.

(** States that agree on everything but the accounts *)
Definition same_frame (s t : State) : Prop :=
  m_db s = m_db t /\ m_state s = m_state t /\ m_touched s = m_touched t /\
  m_accountStartNonce s = m_accountStartNonce t /\ m_changeLog s = m_changeLog t.

Definition sim (s t : State) : Prop :=
  same_frame s t /\ forall a, option_Forall2 (same_acc (m_db s)) (acct s a) (acct t a).

Definition dirtier (s t : State) : Prop :=
  same_frame s t /\ forall a, option_Forall2 (dirtier_acc (m_db s)) (acct s a) (acct t a).

#[global] Instance same_frame_equivalence : Equivalence same_frame.
Proof.
  split; unfold same_frame.
  - by intros s; split_and!.
  - intros s t (? & ? & ? & ? & ?). by split_and!.
  - intros s t u. intuition congruence.
Qed.

#[global] Instance sim_equivalence : Equivalence sim.
Proof.
  split.
  - intros s. split; [done|]. intros a. apply option_Forall2_refl, _.
  - intros s t [F A]. split; [by symmetry|]. intros a. destruct F as (<- & _).
    apply option_Forall2_sym; [apply _|]. apply A.
  - intros s t u [F A] [F' A']. split; [by etrans|]. intros a.
    destruct F as (E & _). rewrite <-E in A'. etrans; [apply A|apply A'].
Qed.

#[global] Instance dirtier_preorder : PreOrder dirtier.
Proof.
  split.
  - intros s. split; [done|]. intros a. apply option_Forall2_refl, _.
  - intros s t u [F A] [F' A']. split; [by etrans|]. intros a.
    destruct F as (E & _). rewrite <-E in A'. etrans; [apply A|apply A'].
Qed.

Lemma sim_dirtier s t : sim s t -> dirtier s t.
Proof.
  intros [F A]. split; [done|]. intros a. specialize (A a).
  destruct A; constructor. by apply same_dirtier_acc.
Qed.

(** ** The invariant *)

Definition no_zero (m : gmap Z Z) : Prop := forall k, m !! k <> Some 0.

Record wf_acc (db : gmap Z (list Z)) (x : Account) : Prop := {
  wf_balance : is_u256 (m_balance x);
  wf_root : no_zero (m_storageRoot x);
  wf_code : sha3 (code_of db x) = m_codeHash x;
  wf_newCode : m_hasNewCode x -> m_isAlive x -> sha3 (m_codeCache x) = m_codeHash x;
  wf_stored : ~ m_hasNewCode x -> m_codeHash x <> EmptySHA3 -> is_Some (db !! m_codeHash x);
  wf_u256 : forall k v, m_storageRoot x !! k = Some v \/ m_storageOverlay x !! k = Some v ->
    is_u256 k /\ is_u256 v
}.

(** An entry that is not marked as changed is the account of the trie, and an address that is
    known not to exist is not in the trie. *)
Record wf (s : State) : Prop := {
  wf_accounts : forall a x, acct s a = Some x -> wf_acc (m_db s) x;
  wf_leaves : forall a l, m_state s !! a = Some l -> wf_acc (m_db s) (account_of_leaf l);
  wf_clean : forall a x, m_cache s !! a = Some x -> m_isUnchanged x ->
    exists l, m_state s !! a = Some l /\ acc_equiv (m_db s) x (account_of_leaf l);
  wf_missing : forall a, a ∈ m_nonExistingAccountsCache s -> m_state s !! a = None;
  wf_made : forall a x, a ∈ m_nonExistingAccountsCache s -> m_cache s !! a = Some x -> ~ m_isAlive x;
  wf_blobs : forall h c, m_db s !! h = Some c -> sha3 c = h
}.

Lemma wf_alive s a x :
  wf s -> m_cache s !! a = Some x -> m_isAlive x -> a ∉ m_nonExistingAccountsCache s.
Proof. intros W Hx Ha Hin. by eapply (wf_made s W). Qed.

Lemma wf_slot db x k : wf_acc db x -> is_u256 (slot x k).
Proof.
  intros W. unfold slot. destruct (m_storageOverlay x !! k) as [v|] eqn:E.
  - apply (wf_u256 db x W k v). by right.
  - destruct (m_storageRoot x !! k) as [v|] eqn:E'; cbn; [|by apply is_word_0].
    apply (wf_u256 db x W k v). by left.
Qed.

Lemma acct_cached s a x : m_cache s !! a = Some x -> acct s a = Some x.
Proof. unfold acct. by intros ->. Qed.

(** Removing an unchanged entry from the cache does not change the state *)
Lemma evict_sim s a x :
  wf s -> m_cache s !! a = Some x -> isDirty x = false ->
  sim s (set_cache (delete a (m_cache s)) s).
Proof.
  intros W Hx Hc. split; [done|]. intros b. unfold acct; cbn [m_cache set_cache m_state].
  destruct (decide (b = a)) as [->|Hn].
  - rewrite lookup_delete_eq, Hx.
    destruct (wf_clean s W a x Hx) as (l & -> & E); [by unfold isDirty in Hc; destruct (m_isUnchanged x)|].
    constructor. split; [done|]. cbn. unfold isDirty in Hc. by destruct (m_isUnchanged x).
  - rewrite lookup_delete_ne by done. apply option_Forall2_refl, _.
Qed.

Lemma evict_wf s a : wf s -> wf (set_cache (delete a (m_cache s)) s).
Proof.
  intros W. split; cbn [m_db m_state m_nonExistingAccountsCache set_cache m_cache].
  - intros b y. unfold acct; cbn [m_cache set_cache m_state].
    destruct (decide (b = a)) as [->|Hn].
    + rewrite lookup_delete_eq. intros (l & Hl & ->)%fmap_Some. by eapply wf_leaves.
    + rewrite lookup_delete_ne by done. apply (wf_accounts s W).
  - apply W.
  - intros b y [? Hy]%lookup_delete_Some. by apply (wf_clean s W).
  - apply W.
  - intros b y Hb [_ Hy]%lookup_delete_Some. by eapply (wf_made s W).
  - apply W.
Qed.

(** Storing an entry *)
Lemma acct_set s a y b :
  acct (set_cache (<[a := y]> (m_cache s)) s) b = if decide (b = a) then Some y else acct s b.
Proof.
  unfold acct; cbn [m_cache set_cache m_state]. case_decide as E.
  - by rewrite E, lookup_insert_eq.
  - by rewrite lookup_insert_ne.
Qed.

Lemma wf_set s a y :
  wf s -> wf_acc (m_db s) y ->
  (m_isUnchanged y -> exists l, m_state s !! a = Some l /\ acc_equiv (m_db s) y (account_of_leaf l)) ->
  (m_isAlive y -> a ∉ m_nonExistingAccountsCache s) ->
  wf (set_cache (<[a := y]> (m_cache s)) s).
Proof.
  intros W Wy Hc Hm. split; cbn [m_db m_state m_nonExistingAccountsCache set_cache m_cache].
  - intros b x. rewrite acct_set. case_decide; [by intros [= <-]|apply (wf_accounts s W)].
  - apply W.
  - intros b x. rewrite lookup_insert_Some. intros [[<- <-]|[_ Hx]]; [done|by apply (wf_clean s W)].
  - apply W.
  - intros b x Hb. rewrite lookup_insert_Some. intros [[<- <-]|[_ Hx]] Hal; [by apply Hm|].
    by eapply (wf_made s W).
  - apply W.
Qed.

Lemma wf_log s c : wf s -> wf (log c s).
Proof. by intros []. Qed.

Lemma wf_set_changeLog s cs : wf s -> wf (set_changeLog cs s).
Proof. by intros []. Qed.

Lemma wf_set_unchanged s l : wf s -> wf (set_unchanged l s).
Proof. by intros []. Qed.

Lemma wf_set_nonExisting s x :
  wf s -> (forall a, a ∈ x -> m_state s !! a = None) ->
  (forall a y, a ∈ x -> m_cache s !! a = Some y -> ~ m_isAlive y) -> wf (set_nonExisting x s).
Proof. by intros [] ? ?. Qed.

Lemma sim_set_unchanged s l : sim s (set_unchanged l s).
Proof. split; [done|]. intros a. apply option_Forall2_refl, _. Qed.

Lemma sim_set_nonExisting s x : sim s (set_nonExisting x s).
Proof. split; [done|]. intros a. apply option_Forall2_refl, _. Qed.

(** Replacing an entry by the same account *)
Lemma sim_set s a x y :
  acct s a = Some x -> same_acc (m_db s) x y -> sim s (set_cache (<[a := y]> (m_cache s)) s).
Proof.
  intros Hx Hy. split; [done|]. intros b. rewrite acct_set. case_decide as E.
  - rewrite E, Hx. by constructor.
  - apply option_Forall2_refl, _.
Qed.

(** ** Finding an account *)

Lemma clearCache_loop_ok fuel s : wf s -> wf (clearCache_loop fuel s) /\ sim s (clearCache_loop fuel s).
Proof.
  revert s. induction fuel as [|fuel IH]; intros s W; [done|]. cbn [clearCache_loop].
  case_decide; [|done]. cbn [m_cache set_unchanged].
  set (i := (_ `mod` _)%nat). set (l := swap_pop _ _).
  pose proof (wf_set_unchanged s l W) as W1. pose proof (sim_set_unchanged s l) as S1.
  destruct (m_cache s !! _) as [x|] eqn:Hx; [destruct (isDirty x) eqn:Hd|].
  - destruct (IH _ W1) as [W2 S2]. split; [done|by etrans].
  - destruct (IH _ (evict_wf _ (m_unchangedCacheEntries s !!! i) W1)) as [W2 S2].
    split; [done|]. etrans; [exact S1|]. etrans; [by eapply evict_sim|done].
  - destruct (IH _ W1) as [W2 S2]. split; [done|by etrans].
Qed.

(** The loop ends with at most 1000 entries: the fuel suffices *)
Lemma clearCache_loop_bound fuel s :
  (length (m_unchangedCacheEntries s) <= fuel + 1000)%nat ->
  (length (m_unchangedCacheEntries (clearCache_loop fuel s)) <= 1000)%nat.
Proof.
  revert s. induction fuel as [|fuel IH]; intros s Hl; [done|]. cbn [clearCache_loop].
  case_decide; [|lia]. apply IH.
  assert (L : (length (swap_pop (randomIndex (m_unchangedCacheEntries s) `mod`
     length (m_unchangedCacheEntries s)) (m_unchangedCacheEntries s)) <= fuel + 1000)%nat).
  { unfold swap_pop. simpl_len. lia. }
  destruct (m_cache _ !! _) as [x|]; [destruct (isDirty x)|]; exact L.
Qed.

Lemma clearCache_cached s a : m_cache s !! a = None -> m_cache (clearCacheIfTooLarge s) !! a = None.
Proof.
  unfold clearCacheIfTooLarge. generalize (length (m_unchangedCacheEntries s)) as fuel.
  intros fuel. revert s. induction fuel as [|fuel IH]; intros s Hn; [done|]. cbn [clearCache_loop].
  case_decide; [|done]. apply IH. cbn [m_cache set_unchanged].
  case_match; [|exact Hn]. case_match; [exact Hn|].
  cbn. by apply lookup_delete_None; right.
Qed.

(** The account found is the one the address means, and it is in the cache afterwards *)
Lemma find_account_ok s a s' r :
  wf s -> find_account a s = (s', r) ->
  wf s' /\ sim s s' /\ r = acct s' a /\ m_cache s' !! a = r.
Proof.
  intros W. unfold find_account. destruct (m_cache s !! a) as [x|] eqn:Hx.
  { intros [= <- <-]. by rewrite (acct_cached s a x Hx). }
  case_decide as Hn.
  { intros [= <- <-]. split_and!; [done|done| |done]. unfold acct.
    by rewrite Hx, (wf_missing s W a Hn). }
  destruct (m_state s !! a) as [l|] eqn:Hl; intros [= <- <-].
  - destruct (clearCache_loop_ok (length (m_unchangedCacheEntries s)) s W) as [W1 S1].
    change (clearCache_loop _ s) with (clearCacheIfTooLarge s) in W1, S1.
    assert (E1 : m_state (clearCacheIfTooLarge s) = m_state s) by (by destruct S1 as [(_ & -> & _) _]).
    assert (A1 : acct (clearCacheIfTooLarge s) a = Some (account_of_leaf l)).
    { unfold acct. by rewrite (clearCache_cached s a Hx), E1, Hl. }
    split_and!.
    + apply wf_set_unchanged, wf_set; [done| | |].
      * by apply (wf_accounts _ W1) in A1.
      * intros _. exists l. by rewrite E1.
      * intros _ Hin%(wf_missing _ W1). by rewrite E1, Hl in Hin.
    + etrans; [exact S1|]. etrans; [|apply sim_set_unchanged]. by eapply sim_set.
    + symmetry. apply acct_cached. cbn. apply lookup_insert_eq.
    + cbn. apply lookup_insert_eq.
  - split_and!.
    + apply wf_set_nonExisting; [done| |].
      * intros b [->%elem_of_singleton|Hb]%elem_of_union; [done|]. by apply (wf_missing s W).
      * intros b y [->%elem_of_singleton|Hb]%elem_of_union; [by rewrite Hx|]. by apply (wf_made s W).
    + apply sim_set_nonExisting.
    + unfold acct; cbn. by rewrite Hx, Hl.
    + done.
Qed.
End Meaning.

(** ** A concrete environment and state

    A hash that is injective on short strings, and a trie with the account of the votes (code
    0x00, one wei) and one with money, as in the genesis. *)

Definition demo_hash (c : list Z) : Z :=
  let x := be_of_bytes (1 :: c) in (2 ^ 252 * x + x / 16) mod 2 ^ 256.

#[local] Instance demo_env : NodeEnv := {|
  sha3 := demo_hash;
  sha3_range := fun c => is_word_mod 256 _ ltac:(lia);
  randomIndex := fun _ => 0%nat
|}.

Definition demo_leaf_votes : leaf := Leaf 0 1 {[ 7 := 5 ]} (sha3 [0]).
Definition demo_leaf_rich : leaf := Leaf 3 (10 ^ 20) ∅ EmptySHA3.

Definition demo_state : State :=
  mkState {[ sha3 [0] := [0] ]} {[ 0x21 := demo_leaf_votes; 1 := demo_leaf_rich ]} ∅ [] ∅ ∅ 0 [].

Lemma demo_leaf_wf l :
  l = demo_leaf_votes \/ l = demo_leaf_rich -> wf_acc (m_db demo_state) (account_of_leaf l).
Proof.
  intros [-> | ->]; split.
  - by vm_compute.
  - intros k. cbn. rewrite lookup_singleton_Some. lia.
  - by vm_compute.
  - done.
  - intros _ _. exists [0]. by vm_compute.
  - intros k v. cbn. rewrite lookup_singleton_Some, lookup_empty. intros [[<- <-]|?]; [|done].
    split; by vm_compute.
  - by vm_compute.
  - intros k. cbn. by rewrite lookup_empty.
  - by vm_compute.
  - done.
  - done.
  - intros k v. cbn. rewrite !lookup_empty. by intros [?|?].
Qed.

Lemma demo_lookup a l :
  m_state demo_state !! a = Some l -> l = demo_leaf_votes \/ l = demo_leaf_rich.
Proof.
  cbn. rewrite lookup_insert_Some. intros [[_ <-]|[_ H]]; [by left|].
  right. by apply lookup_singleton_Some in H as [_ <-].
Qed.

Lemma demo_wf : wf demo_state.
Proof.
  split.
  - intros a x. unfold acct. cbn [m_cache demo_state]. rewrite lookup_empty.
    intros (l & Hl & ->)%fmap_Some. by eapply demo_leaf_wf, demo_lookup.
  - intros a l Hl. by eapply demo_leaf_wf, demo_lookup.
  - intros a x. cbn. by rewrite lookup_empty.
  - intros a ?%not_elem_of_empty. done.
  - intros a x ?%not_elem_of_empty. done.
  - intros h c. cbn [m_db demo_state]. by intros [<- <-]%lookup_singleton_Some.
Qed.

(** The same with a balance that has not been written *)
Definition demo_changed : State :=
  set_cache (<[ 1 := account_addBalance 5 (account_of_leaf demo_leaf_rich) ]> (m_cache demo_state))
    demo_state.

Lemma demo_changed_wf : wf demo_changed.
Proof.
  apply (wf_set demo_state); [apply demo_wf| |done|].
  - destruct (demo_leaf_wf demo_leaf_rich) as [? ? ? ? ? ?]; [by right|]. by split.
  - intros _ ?%not_elem_of_empty. done.
Qed.
