(* ===== verification/EthCommit.v ===== *)
(** * Writing the cache to the trie

    The trie after a commit in closed form, for the sequential and for the multi-threaded
    writer. *)

From stdpp Require Import gmap sorting.
From S2P Require Import Prelude Words Exn EthState EthStateInv.

#[local] Open Scope Z_scope.

Section Commit.
Context `{NodeEnv}.

(** ** One account *)

(** Writing the overlay gives the trie of the slots *)
Lemma commit_storage_lookup overlay root k :
  commit_storage overlay root !! k =
  match overlay !! k with
  | Some v => if decide (v = 0) then None else Some v
  | None => root !! k
  end.
Proof.
  unfold commit_storage.
  apply (map_fold_weak_ind (fun r m => r !! k = match m !! k with
    | Some v => if decide (v = 0) then None else Some v
    | None => root !! k end)); [done|].
  intros i v m r Hi IH. destruct (decide (i = k)) as [->|Hn].
  - rewrite lookup_insert_eq. case_decide; [apply lookup_delete_eq|apply lookup_insert_eq].
  - rewrite lookup_insert_ne by done.
    case_decide; [rewrite lookup_delete_ne by done|rewrite lookup_insert_ne by done]; exact IH.
Qed.

Lemma commit_root_lookup x k :
  no_zero (m_storageRoot x) ->
  commit_root x !! k = if decide (slot x k = 0) then None else Some (slot x k).
Proof.
  intros Hz. unfold commit_root, slot.
  assert (R : m_storageRoot x !! k = if decide (default 0 (m_storageRoot x !! k) = 0) then None
              else Some (default 0 (m_storageRoot x !! k))).
  { specialize (Hz k). destruct (m_storageRoot x !! k) as [v|]; [|done]. cbn.
    case_decide as E; [by rewrite E in Hz|done]. }
  destruct (decide (m_storageOverlay x = ∅)) as [E|E]; [by rewrite E, lookup_empty|].
  rewrite commit_storage_lookup. by destruct (m_storageOverlay x !! k).
Qed.

Lemma no_zero_commit_root x : no_zero (m_storageRoot x) -> no_zero (commit_root x).
Proof. intros Hz k. rewrite commit_root_lookup by done. by case_decide; [|intros [= E]]. Qed.

(** The leaf depends on what the account means only *)
Lemma leaf_of_equiv db x y :
  acc_equiv db x y -> no_zero (m_storageRoot x) -> no_zero (m_storageRoot y) ->
  leaf_of_account x = leaf_of_account y.
Proof.
  intros [] Hx Hy. unfold leaf_of_account. f_equal; [done..| |done].
  apply map_eq. intros k. by rewrite !commit_root_lookup, eq_slot by done.
Qed.

Lemma leaf_of_account_of_leaf l : leaf_of_account (account_of_leaf l) = l.
Proof. by destruct l. Qed.

(** ** The sequential writer *)

(** What a commit leaves at an address *)
Definition written (st : gmap Z leaf) (a : Z) (mx : option Account) : option leaf :=
  match mx with
  | Some x => if isDirty x then if m_isAlive x then Some (leaf_of_account x) else None else st !! a
  | None => st !! a
  end.

Lemma commit_list_lookup l st db a :
  NoDup l.*1 ->
  (foldr commit_one (st, db, ∅) l).1.1 !! a = written st a ((list_to_map l : gmap Z Account) !! a).
Proof.
  induction l as [|[b x] l IH]; intros Hnd; [done|]. cbn [foldr list_to_map fmap list_fmap] in *.
  apply list.NoDup_cons in Hnd as [Hb Hnd]. specialize (IH Hnd).
  assert (Hl : (list_to_map l : gmap Z Account) !! b = None) by by apply not_elem_of_list_to_map_1.
  destruct (foldr commit_one (st, db, ∅) l) as [[st' db'] ret]. cbn in IH |- *.
  destruct (decide (a = b)) as [->|Hn].
  - rewrite lookup_insert_eq. rewrite Hl in IH. unfold written at 1.
    destruct (isDirty x); [|exact IH]. destruct (m_isAlive x); cbn; [apply lookup_insert_eq|apply lookup_delete_eq].
  - rewrite lookup_insert_ne by done.
    destruct (isDirty x); [|exact IH].
    destruct (m_isAlive x); cbn; [rewrite lookup_insert_ne by done|rewrite lookup_delete_ne by done]; exact IH.
Qed.

Lemma commit_trie_lookup cache st db a :
  (commit_trie cache st db).1.1 !! a = written st a (cache !! a).
Proof.
  unfold commit_trie. rewrite commit_list_lookup by apply NoDup_fst_map_to_list.
  by rewrite list_to_map_to_list.
Qed.

(** The accounts that a commit is about to write *)
Definition prepared (b : CommitBehaviour) (s : State) : State :=
  match b with RemoveEmptyAccounts => removeEmptyAccounts s | KeepEmptyAccounts => s end.

(** The trie that the sequential writer leaves *)
Definition committed (b : CommitBehaviour) (s : State) : gmap Z leaf :=
  (commit_trie (m_cache (prepared b s)) (m_state s) (m_db s)).1.1.

(** In terms of the account that an address means *)
Definition kept (b : CommitBehaviour) (x : Account) : bool :=
  m_isAlive x && match b with
                 | RemoveEmptyAccounts => negb (isDirty x && isEmpty x)
                 | KeepEmptyAccounts => true
                 end.

Lemma committed_lookup b s a :
  wf s ->
  committed b s !! a =
  match acct s a with
  | Some x => if kept b x then Some (leaf_of_account x) else None
  | None => None
  end.
Proof.
  intros W. unfold committed. rewrite commit_trie_lookup.
  assert (Clean : forall x, m_cache s !! a = Some x -> isDirty x = false ->
            m_state s !! a = if kept b x then Some (leaf_of_account x) else None).
  { intros x Hx Hd. destruct (wf_clean s W a x Hx) as (l & Hl & E).
    { unfold isDirty in Hd. by destruct (m_isUnchanged x). }
    assert (Wx : wf_acc (m_db s) x) by by apply (wf_accounts s W a), acct_cached.
    assert (K : kept b x = true).
    { unfold kept. rewrite (eq_alive _ _ _ E), Hd. by destruct b. }
    rewrite K, Hl, <-(leaf_of_account_of_leaf l). f_equal. symmetry.
    eapply leaf_of_equiv; [exact E|apply Wx|]. by eapply (wf_leaves s W). }
  unfold acct. destruct (m_cache s !! a) as [x|] eqn:Hx.
  - specialize (Clean x eq_refl). destruct b; cbn [prepared removeEmptyAccounts set_cache m_cache].
    + rewrite Hx. cbn [written]. destruct (isDirty x); [|by apply Clean].
      unfold kept. by destruct (m_isAlive x).
    + rewrite lookup_fmap, Hx. cbn. destruct (isDirty x) eqn:Hd; [|cbn; rewrite Hd; by apply Clean].
      unfold kept. rewrite Hd. cbn.
      destruct (isEmpty x); cbn; [by rewrite andb_false_r|]. rewrite Hd, andb_true_r.
      by destruct (m_isAlive x).
  - assert (E : m_cache (prepared b s) !! a = None).
    { destruct b; cbn; [done|]. by rewrite lookup_fmap, Hx. }
    rewrite E. cbn. destruct (m_state s !! a) as [l|]; [|done]. cbn.
    unfold kept. cbn. rewrite leaf_of_account_of_leaf. by destruct b.
Qed.

(** States that mean the same are committed to the same trie *)
Lemma dirtier_committed b s t : wf s -> wf t -> dirtier s t -> committed b s = committed b t.
Proof.
  intros Ws Wt [F A]. apply map_eq. intros a. rewrite !committed_lookup by done.
  assert (Edb : m_db s = m_db t) by by destruct F.
  specialize (A a). destruct (acct s a) as [x|] eqn:Hx; inversion A as [? y D Ex Ey|]; subst; [|done].
  symmetry in Ey. destruct D as (E & D & U).
  assert (K : kept b x = kept b y).
  { unfold kept. rewrite (eq_alive _ _ _ E), (acc_equiv_isEmpty _ _ _ E) in *.
    destruct b; [done|]. destruct (isDirty x), (isDirty y), (isEmpty y); cbn in *; naive_solver. }
  rewrite K. destruct (kept b y); [|done]. f_equal.
  eapply leaf_of_equiv; [exact E| |].
  - by eapply (wf_accounts s Ws).
  - by eapply (wf_accounts t Wt).
Qed.

(** ** The state after a commit *)

Definition newCode_ok (x : Account) : Prop :=
  m_hasNewCode x -> m_isAlive x -> sha3 (m_codeCache x) = m_codeHash x.

(** The code blobs: none is lost, every dirty account has its code there *)
Lemma commit_list_db l st db :
  let db' := (foldr commit_one (st, db, ∅) l).1.2 in
  (forall h, is_Some (db !! h) -> is_Some (db' !! h)) /\
  (forall a x, (a, x) ∈ l -> isDirty x -> m_isAlive x -> m_hasNewCode x -> is_Some (db' !! m_codeHash x)).
Proof.
  induction l as [|[b y] l IH]; cbn [foldr].
  { split; [done|]. by intros ? ? ?%elem_of_nil. }
  destruct (foldr commit_one (st, db, ∅) l) as [[st' db'] ret]. destruct IH as (H2 & H3).
  cbn in H2, H3. cbn [commit_one]. destruct (isDirty y) eqn:Hd; [destruct (m_isAlive y) eqn:Ha|].
  - cbn. unfold db_insert_code. destruct (m_hasNewCode y) eqn:Hn.
    + split.
      * intros h Hh. rewrite lookup_insert_is_Some'. right. by apply H2.
      * intros a x [[= -> ->]|Hin]%elem_of_cons ? ? ?; rewrite lookup_insert_is_Some';
          [by left|right; by eapply H3].
    + split; [done|]. intros a x [[= -> ->]|Hin]%elem_of_cons ? ? Hc; [by rewrite Hn in Hc|by eapply H3].
  - cbn. split; [done|]. intros a x [[= -> ->]|Hin]%elem_of_cons ? Hc; [by rewrite Ha in Hc|by eapply H3].
  - cbn. split; [done|]. intros a x [[= -> ->]|Hin]%elem_of_cons Hc; [by rewrite Hd in Hc|by eapply H3].
Qed.

(** A blob was there or is the code of an account, under its hash *)
Lemma commit_list_db_origin l st db h c :
  Forall (fun p : Z * Account => newCode_ok p.2) l ->
  (foldr commit_one (st, db, ∅) l).1.2 !! h = Some c ->
  db !! h = Some c \/ sha3 c = h /\ exists a x, (a, x) ∈ l /\ c = m_codeCache x.
Proof.
  intros Hl. induction Hl as [|[b y] l Hy Hl IH]; cbn [foldr]; [by left|].
  destruct (foldr commit_one (st, db, ∅) l) as [[st' db'] ret]. cbn in IH, Hy.
  assert (IH' : db' !! h = Some c -> db !! h = Some c \/
            sha3 c = h /\ exists a x, (a, x) ∈ (b, y) :: l /\ c = m_codeCache x).
  { intros Hc. destruct (IH Hc) as [?|(? & a & x & ? & ?)]; [by left|right]. split; [done|].
    exists a, x. split; [by right|done]. }
  cbn [commit_one]. destruct (isDirty y); [destruct (m_isAlive y) eqn:Ha|]; [|exact IH'..].
  cbn. unfold db_insert_code. destruct (m_hasNewCode y) eqn:Hn; [|exact IH'].
  rewrite lookup_insert_Some. intros [[<- <-]|[_ Hc]]; [|by apply IH'].
  right. split; [apply Hy; by rewrite ?Hn, ?Ha|]. exists b, y. split; [by left|done].
Qed.

Definition committed_db (b : CommitBehaviour) (s : State) : gmap Z (list Z) :=
  (commit_trie (m_cache (prepared b s)) (m_state s) (m_db s)).1.2.

Lemma prepared_lookup b s a :
  m_cache (prepared b s) !! a =
  (fun x => match b with
            | RemoveEmptyAccounts => if isDirty x && isEmpty x then kill_account x else x
            | KeepEmptyAccounts => x
            end) <$> m_cache s !! a.
Proof. destruct b; cbn; [by destruct (m_cache s !! a)|apply lookup_fmap]. Qed.

(** The byte strings that the state holds as code *)
Definition code_blob (s : State) (c : list Z) : Prop :=
  c = [] \/ (exists h, m_db s !! h = Some c) \/ exists a x, m_cache s !! a = Some x /\ c = m_codeCache x.

Lemma committed_db_ok b s :
  wf s ->
  (forall h c, committed_db b s !! h = Some c -> sha3 c = h /\ code_blob s c) /\
  (forall h, is_Some (m_db s !! h) -> is_Some (committed_db b s !! h)) /\
  (forall a x, m_cache s !! a = Some x -> isDirty x -> kept b x -> m_hasNewCode x ->
     is_Some (committed_db b s !! m_codeHash x)).
Proof.
  intros W. set (l := map_to_list (m_cache (prepared b s))).
  destruct (commit_list_db l (m_state s) (m_db s)) as (H2 & H3).
  split_and!; [|exact H2|].
  - intros h c Hc. apply (commit_list_db_origin l) in Hc as [Hc|(E & a & x & Hin & ->)].
    + split; [by apply (wf_blobs s W)|]. right. left. by exists h.
    + split; [done|]. right. right. apply elem_of_map_to_list in Hin. rewrite prepared_lookup in Hin.
      apply fmap_Some in Hin as (y & Hy & ->). exists a, y. split; [done|].
      destruct b; [done|]. by destruct (isDirty y && isEmpty y).
    + apply list.Forall_forall. intros [a x] Hin%elem_of_map_to_list. rewrite prepared_lookup in Hin.
      apply fmap_Some in Hin as (y & Hy & ->).
      pose proof (wf_newCode _ _ (wf_accounts s W a y (acct_cached s a y Hy))) as Hn.
      destruct b; [exact Hn|]. destruct (isDirty y && isEmpty y); [|exact Hn]. by intros _ [].
  - intros a x Hx Hd Hk Hn.
    unfold kept in Hk. apply andb_prop_elim in Hk as [Ha Hk]. eapply (H3 a x); [|done..].
    apply elem_of_map_to_list. rewrite prepared_lookup, Hx. cbn. f_equal.
    destruct b; [done|]. by destruct (isDirty x && isEmpty x).
Qed.

(** The state after the sequential writer *)
Definition after_commit (b : CommitBehaviour) (s : State) : State :=
  finish_commit (commit_trie (m_cache (prepared b s)) (m_state s) (m_db s)) s.

Lemma after_commit_fields b s :
  m_state (after_commit b s) = committed b s /\ m_db (after_commit b s) = committed_db b s /\
  m_cache (after_commit b s) = ∅ /\ m_changeLog (after_commit b s) = [] /\
  m_accountStartNonce (after_commit b s) = m_accountStartNonce s /\
  m_nonExistingAccountsCache (after_commit b s) = m_nonExistingAccountsCache s.
Proof.
  unfold after_commit, committed, committed_db, finish_commit.
  by destruct (commit_trie _ _ _) as [[st db] ret].
Qed.

Lemma after_commit_acct b s a :
  wf s -> acct (after_commit b s) a =
  match acct s a with
  | Some x => if kept b x then Some (account_of_leaf (leaf_of_account x)) else None
  | None => None
  end.
Proof.
  intros W. destruct (after_commit_fields b s) as (Es & _ & Ec & _).
  unfold acct at 1. rewrite Ec, lookup_empty, Es, committed_lookup by done.
  destruct (acct s a) as [x|]; [|done]. by destruct (kept b x).
Qed.

(** The account of the written leaf is the account, up to its code *)
Lemma written_slot x k : no_zero (m_storageRoot x) ->
  slot (account_of_leaf (leaf_of_account x)) k = slot x k.
Proof.
  intros Hz. unfold slot at 1. cbn. rewrite lookup_empty, commit_root_lookup by done.
  by case_decide.
Qed.

Lemma written_wf b s a x :
  wf s -> acct s a = Some x -> kept b x ->
  wf_acc (committed_db b s) (account_of_leaf (leaf_of_account x)).
Proof.
  intros W Hx Hk. pose proof (wf_accounts s W a x Hx) as Wx.
  destruct (committed_db_ok b s W) as (H1 & H2 & H3).
  assert (Hs : m_codeHash x <> EmptySHA3 -> is_Some (committed_db b s !! m_codeHash x)).
  { intros Hh. destruct (m_hasNewCode x) eqn:Hn.
    - unfold acct in Hx. destruct (m_cache s !! a) as [y|] eqn:Hy.
      + injection Hx as ->. destruct (isDirty x) eqn:Hd; [by apply (H3 a x); rewrite ?Hd, ?Hn|].
        destruct (wf_clean s W a x Hy) as (l & Hl & E).
        { unfold isDirty in Hd. by destruct (m_isUnchanged x). }
        rewrite (eq_codeHash _ _ _ E) in *. apply H2.
        by apply (wf_stored _ _ (wf_leaves s W a l Hl)); [intros []|].
      + by apply fmap_Some in Hx as (l & _ & ->).
    - apply H2, (wf_stored _ _ Wx); [rewrite Hn; tauto|done]. }
  split; cbn.
  - apply Wx.
  - apply no_zero_commit_root, Wx.
  - unfold code_of; cbn. case_decide as E; [by rewrite E|]. destruct (Hs E) as [c Hc].
    rewrite Hc. by apply (H1 _ c).
  - done.
  - intros _. exact Hs.
  - intros k v. rewrite lookup_empty, commit_root_lookup by apply Wx. intros [E|?]; [|done].
    case_decide as Ez; [done|]. injection E as <-. split; [|by eapply wf_slot].
    unfold slot in Ez. destruct (m_storageOverlay x !! k) as [v|] eqn:Ho.
    + apply (wf_u256 _ _ Wx k v). by right.
    + destruct (m_storageRoot x !! k) as [v|] eqn:Hr; [|done]. apply (wf_u256 _ _ Wx k v). by left.
Qed.

Lemma after_commit_wf b s : wf s -> wf (after_commit b s).
Proof.
  intros W. pose proof (after_commit_acct b s) as A.
  destruct (after_commit_fields b s) as (Es & Ed & Ec & _ & _ & En).
  assert (L : forall a l, m_state (after_commit b s) !! a = Some l ->
              wf_acc (m_db (after_commit b s)) (account_of_leaf l)).
  { intros a l. rewrite Es, Ed, committed_lookup by done.
    destruct (acct s a) as [x|] eqn:Hx; [|done]. destruct (kept b x) eqn:Hk; [|done].
    intros [= <-]. eapply written_wf; [done..|]. by rewrite Hk. }
  split; [|done| | | |].
  - intros a x. unfold acct. rewrite Ec, lookup_empty. intros (l & Hl & ->)%fmap_Some. by eapply L.
  - intros a x. by rewrite Ec, lookup_empty.
  - intros a. rewrite En, Es, committed_lookup by done. intros Ha.
    unfold acct. rewrite (wf_missing s W a Ha).
    destruct (m_cache s !! a) as [x|] eqn:Hx; [|done].
    pose proof (wf_made s W a x Ha Hx) as Hd. unfold kept.
    destruct (m_isAlive x); [by destruct Hd|done].
  - intros a x _. by rewrite Ec, lookup_empty.
  - intros h c. rewrite Ed. by intros [? _]%(committed_db_ok b s W).
Qed.

(** Different code blobs of the state have different hashes *)
Definition collision_free (s : State) : Prop :=
  forall c c', code_blob s c -> code_blob s c' -> sha3 c = sha3 c' -> c = c'.

Lemma code_of_blob s a x : acct s a = Some x -> code_blob s (code_of (m_db s) x).
Proof.
  intros Hx. unfold code_of. case_decide; [by left|].
  destruct (m_codeCache x) as [|c l] eqn:Hc.
  - destruct (m_db s !! m_codeHash x) as [c|] eqn:Hh; [|by left]. right. left. by exists (m_codeHash x).
  - right. right. unfold acct in Hx. destruct (m_cache s !! a) as [y|] eqn:Hy.
    + injection Hx as ->. by exists a, x.
    + by apply fmap_Some in Hx as (l' & _ & ->).
Qed.

Lemma written_code b s a x :
  wf s -> collision_free s -> acct s a = Some x -> kept b x ->
  code_of (committed_db b s) (account_of_leaf (leaf_of_account x)) = code_of (m_db s) x.
Proof.
  intros W Hf Hx Hk. apply Hf; [|by eapply code_of_blob|].
  - unfold code_of; cbn. case_decide; [by left|].
    destruct (committed_db b s !! m_codeHash x) as [c|] eqn:Hc; [|by left].
    by apply (committed_db_ok b s W) in Hc as [_ Hc].
  - rewrite (wf_code _ _ (written_wf b s a x W Hx Hk)). symmetry. by apply (wf_accounts s W a x Hx).
Qed.

(** C24: a commit that uses the sequential writer (at most 1000 cached accounts)
    does not fail, leaves the invariant and an empty cache and log, and changes no query: every
    account that is alive, and with RemoveEmptyAccounts not both changed and empty, has the nonce,
    balance, storage and code it had; all others are gone.  The code blobs of the state are
    assumed to have different hashes. *)
Theorem commit_transparent order b s :
  wf s -> (size (m_cache s) <= 1000)%nat -> collision_free s ->
  exists s', commit order b s = (s', inl tt) /\ wf s' /\ m_cache s' = ∅ /\ m_changeLog s' = [] /\
  forall a, match acct s a with
  | Some x =>
      if kept b x
      then addressInUse a s' = ((addressInUse a s').1, inl true) /\ nonce_at s' a = m_nonce x /\
           balance_at s' a = m_balance x /\ code_at s' a = code_of (m_db s) x /\
           forall k, slot_at s' a k = slot x k
      else acct s' a = None
  | None => acct s' a = None
  end.
Proof.
  intros W Hsz Hf. exists (after_commit b s).
  destruct (after_commit_fields b s) as (Es & Ed & Ec & El & _).
  pose proof (after_commit_wf b s W) as W'. split_and!; [|done..|].
  - unfold commit, after_commit. fold (prepared b s).
    assert (E : size (m_cache (prepared b s)) = size (m_cache s)) by (destruct b; cbn; [done|apply map_size_fmap]).
    rewrite decide_False by lia. by destruct b.
  - intros a. pose proof (after_commit_acct b s a W) as A.
    destruct (acct s a) as [x|] eqn:Hx; [|done]. destruct (kept b x) eqn:Hk; [|done].
    unfold nonce_at, balance_at, code_at, slot_at. rewrite A. split_and!; [|done..| |].
    + unfold addressInUse, query, account, mbind, M_bind.
      destruct (find_account a (after_commit b s)) as [s1 r] eqn:E.
      destruct (find_account_ok _ _ _ _ W' E) as (_ & S1 & Hr & _).
      pose proof (proj2 S1 a) as F. rewrite A, <-Hr in F. by inversion F.
    + rewrite Ed. eapply written_code; [done..|]. by rewrite Hk.
    + intros k. by apply written_slot, (wf_accounts s W a x Hx).
Qed.

(** ** The multi-threaded writer *)

Lemma first_nibble_range a : (first_nibble a < 16)%nat.
Proof.
  unfold first_nibble. pose proof (sha3_range (be_to_bytes 20 a)) as [H0 H1].
  rewrite Z.shiftr_div_pow2 by lia.
  assert (sha3 (be_to_bytes 20 a) / 2 ^ 252 < 16) by (apply Z.div_lt_upper_bound; lia). lia.
Qed.

Lemma branch_lookup i st a : branch i st !! a = if decide (first_nibble a = i) then st !! a else None.
Proof.
  unfold branch. case_decide as E.
  - destruct (st !! a) as [l|] eqn:Hl.
    + by apply map_lookup_filter_Some.
    + apply map_lookup_filter_None. by left.
  - apply map_lookup_filter_None. right. by intros l _ Hl.
Qed.

(** What the branches hold at an address: removals are not seen *)
Definition written_ex (st : gmap Z leaf) (a : Z) (mx : option Account) : option leaf :=
  match mx with
  | Some x => if isDirty x && m_isAlive x then Some (leaf_of_account x) else st !! a
  | None => st !! a
  end.

(** A vector of branches represents a trie *)
Definition represents (bs : list (gmap Z leaf)) (f : Z -> option leaf) : Prop :=
  length bs = 16%nat /\
  forall i b, bs !! i = Some b -> forall a, b !! a = if decide (first_nibble a = i) then f a else None.

Lemma represents_branches st : represents ((fun i => branch i st) <$> seq 0 16) (fun a => st !! a).
Proof.
  split; [done|]. intros i b. rewrite list_lookup_fmap. intros (j & Hj & ->)%fmap_Some a.
  apply lookup_seq in Hj as [-> _]. apply branch_lookup.
Qed.

Lemma represents_insert bs f a l :
  represents bs f ->
  represents (alter <[a := l]> (first_nibble a) bs) (fun c => if decide (c = a) then Some l else f c).
Proof.
  intros [Hl Hr]. split; [by rewrite length_alter|]. intros i b Hb c.
  destruct (decide (first_nibble a = i)) as [<-|Hi].
  - rewrite list_lookup_alter_eq in Hb. apply fmap_Some in Hb as (b0 & Hb0 & ->).
    destruct (decide (c = a)) as [->|Hn].
    + by rewrite lookup_insert_eq, decide_True.
    + rewrite lookup_insert_ne by done. by apply Hr.
  - rewrite list_lookup_alter_ne in Hb by done. rewrite (Hr i b Hb).
    destruct (decide (c = a)) as [->|Hn]; [|done]. by rewrite !decide_False.
Qed.

Lemma union_list_lookup bs f a : represents bs f -> union_list bs !! a = f a.
Proof.
  intros [Hl Hr].
  assert (G : forall (l : list (gmap Z leaf)) k, (forall i b, l !! i = Some b -> forall a, b !! a =
                if decide (first_nibble a = k + i)%nat then f a else None) ->
              union_list l !! a = if decide (k <= first_nibble a < k + length l)%nat then f a else None).
  { induction l as [|b l IH]; intros k Hk; cbn.
    - rewrite decide_False by lia. apply lookup_empty.
    - specialize (IH (S k)). rewrite lookup_union, (Hk 0%nat b eq_refl), IH.
      + rewrite Nat.add_0_r. repeat case_decide; try lia; by destruct (f a).
      + intros i c Hc a'. rewrite Nat.add_succ_comm. by apply (Hk (S i)). }
  rewrite (G bs 0%nat) by done. rewrite decide_True; [done|].
  pose proof (first_nibble_range a). lia.
Qed.

Lemma commitEx_list order bs f st db ret :
  represents bs f -> NoDup order.*1 ->
  represents (foldl (fun t p => commitEx_one p t) (bs, st, db, ret) order).1.1.1
    (fun a => match (list_to_map order : gmap Z Account) !! a with
              | Some x => if isDirty x && m_isAlive x then Some (leaf_of_account x) else f a
              | None => f a
              end).
Proof.
  revert bs f st db ret. induction order as [|[b x] l IH]; intros bs f st db ret Hr Hnd; [done|].
  cbn [fmap list_fmap] in Hnd. apply list.NoDup_cons in Hnd as [Hb Hnd].
  assert (Hl : (list_to_map l : gmap Z Account) !! b = None) by by apply not_elem_of_list_to_map_1.
  assert (Step : exists bs' st' db' ret', commitEx_one (b, x) (bs, st, db, ret) = (bs', st', db', ret') /\
    represents bs' (fun c => if decide (c = b) then
       if isDirty x && m_isAlive x then Some (leaf_of_account x) else f c else f c)).
  { cbn. destruct (isDirty x); [destruct (m_isAlive x)|]; do 4 eexists; (split; [done|]); cbn.
    - eapply represents_insert, Hr.
    - destruct Hr as [? Hr]. split; [done|]. intros i c Hc a. rewrite (Hr i c Hc). by repeat case_decide.
    - destruct Hr as [? Hr]. split; [done|]. intros i c Hc a. rewrite (Hr i c Hc). by repeat case_decide. }
  destruct Step as (bs' & st' & db' & ret' & E & Hr'). cbn [foldl]. rewrite E.
  destruct (IH _ _ st' db' ret' Hr' Hnd) as [L R]. split; [done|]. intros i c Hc a.
  rewrite (R i c Hc). case_decide; [|done]. cbn.
  destruct (decide (a = b)) as [->|Hn]; [by rewrite lookup_insert_eq, Hl|by rewrite lookup_insert_ne].
Qed.

Lemma commitEx_lookup order cache st db a :
  order ≡ₚ map_to_list cache ->
  (commitEx_trie order ((fun i => branch i st) <$> seq 0 16) st db).1.1 !! a
  = written_ex st a (cache !! a).
Proof.
  intros Hp. unfold commitEx_trie.
  pose proof (commitEx_list order _ _ st db ∅ (represents_branches st)) as R.
  assert (Hnd : NoDup order.*1) by (rewrite Hp; apply NoDup_fst_map_to_list).
  specialize (R Hnd). destruct (foldl _ _ order) as [[[bs st'] db'] ret]. cbn in R |- *.
  rewrite (union_list_lookup _ _ _ R).
  by rewrite (list_to_map_proper order (map_to_list cache)), list_to_map_to_list.
Qed.

(** C32: for every order in which the threads write the accounts, the trie that
    commitEx leaves is the one that commit leaves exactly when no account that the commit removes
    is in the trie: an account that was killed or that is empty is removed from a trie that
    finish() then replaces, so it stays. *)
Theorem commitEx_agrees order b s bs :
  prepareForMultiThread (m_state s) = (true, bs) -> bs <> [] ->
  order ≡ₚ map_to_list (m_cache (prepared b s)) ->
  (commitEx_trie order bs (m_state s) (m_db s)).1.1 = committed b s <->
  forall a x, m_cache (prepared b s) !! a = Some x -> isDirty x -> ~ m_isAlive x -> m_state s !! a = None.
Proof.
  intros Hp Hbs Ho.
  assert (E : bs = (fun i => branch i (m_state s)) <$> seq 0 16).
  { unfold prepareForMultiThread in Hp. repeat case_decide; congruence. }
  subst bs. assert (L : forall a, (commitEx_trie order ((fun i => branch i (m_state s)) <$> seq 0 16)
      (m_state s) (m_db s)).1.1 !! a = written_ex (m_state s) a (m_cache (prepared b s) !! a))
    by (intros a; by apply commitEx_lookup). split.
  - intros Eq a x Hx Hd Ha. specialize (L a). unfold committed in Eq.
    rewrite Eq, commit_trie_lookup, Hx in L.
    cbn in L. destruct (isDirty x); [|done]. destruct (m_isAlive x); [by destruct Ha|]. cbn in L. done.
  - intros Hn. apply map_eq. intros a. unfold committed. rewrite L, commit_trie_lookup.
    destruct (m_cache (prepared b s) !! a) as [x|] eqn:Hx; [|done]. specialize (Hn a x Hx). cbn.
    destruct (isDirty x); [|done]. destruct (m_isAlive x); [done|]. cbn. apply Hn; [done|by intros []].
Qed.
End Commit.

(** ** Witnesses *)

#[local] Existing Instance demo_env.

Lemma demo_collision_free : collision_free demo_changed.
Proof.
  assert (B : forall c, code_blob demo_changed c -> c = [] \/ c = [0]).
  { intros c [->|[[h Hh]|(a & x & Hx & ->)]]; [by left| |].
    - cbn in Hh. apply lookup_singleton_Some in Hh as [_ <-]. by right.
    - cbn in Hx. apply lookup_singleton_Some in Hx as [_ <-]. by left. }
  intros c c' [-> | ->]%B [-> | ->]%B; try done; by vm_compute.
Qed.

Lemma commit_transparent_witness :
  exists s', commit (fun l => l) RemoveEmptyAccounts demo_changed = (s', inl tt) /\
             balance_at s' 1 = 10 ^ 20 + 5 /\ slot_at s' 0x21 7 = 5.
Proof.
  destruct (commit_transparent (fun l => l) RemoveEmptyAccounts demo_changed) as (s' & E & _ & _ & _ & A).
  - apply demo_changed_wf.
  - apply Nat.leb_le. by vm_compute.
  - apply demo_collision_free.
  - exists s'. split; [exact E|]. split.
    + apply (A 1).
    + destruct (A 0x21) as (_ & _ & _ & _ & S). exact (S 7).
Defined.

(** Sixteen accounts, one below each child of the root *)
Definition demo_full : State :=
  mkState ∅ (list_to_map ((fun i => (Z.of_nat i, Leaf 1 1 ∅ EmptySHA3)) <$> seq 0 16)) ∅ [] ∅ ∅ 0 [].

(** Account 3 was killed *)
Definition demo_killed : State :=
  set_cache {[ 3 := kill_account (account_of_leaf (Leaf 1 1 ∅ EmptySHA3)) ]} demo_full.

(** Account 3 was paid *)
Definition demo_paid : State :=
  set_cache {[ 3 := account_addBalance 1 (account_of_leaf (Leaf 1 1 ∅ EmptySHA3)) ]} demo_full.

Lemma commitEx_agrees_witness :
  (commitEx_trie (map_to_list (m_cache demo_paid)) (prepareForMultiThread (m_state demo_paid)).2
     (m_state demo_paid) (m_db demo_paid)).1.1 = committed KeepEmptyAccounts demo_paid.
Proof.
  apply (commitEx_agrees (map_to_list (m_cache demo_paid)) KeepEmptyAccounts demo_paid).
  - by vm_compute.
  - by vm_compute.
  - done.
  - intros a x. cbn. intros [<- <-]%lookup_singleton_Some. cbn. intros _ []. done.
Defined.

(** The killed account stays in the trie *)
Example commitEx_keeps_killed_account :
  (commitEx_trie (map_to_list (m_cache demo_killed)) (prepareForMultiThread (m_state demo_killed)).2
     (m_state demo_killed) (m_db demo_killed)).1.1 !! 3 = Some (Leaf 1 1 ∅ EmptySHA3) /\
  committed KeepEmptyAccounts demo_killed !! 3 = None.
Proof. by vm_compute. Qed.
