(* ===== verification/EthRollback.v ===== *)
(** * Savepoints: what rollback undoes

    A sequence of calls, with failed inner calls rolled back, is undone by [rollback]: every
    query gives what it gave at the savepoint and a commit writes the same trie. *)

From stdpp Require Import gmap sorting.
From S2P Require Import Prelude Words Exn EthState EthStateInv EthCommit.

#[local] Open Scope Z_scope.

Lemma option_Forall2_Some {A B} (R : A -> B -> Prop) x my :
  option_Forall2 R (Some x) my -> exists y, my = Some y /\ R x y.
Proof. inversion 1; eauto. Qed.

Section Undo.
Context `{NodeEnv}.

(** The body of the loop of [rollback] for the entries [cs], which leaves [rest] *)
Fixpoint undos (cs rest : list Change) (t : State) : State :=
  match cs with
  | [] => t
  | c :: cs => undos cs rest (set_changeLog (cs ++ rest) (undo c t))
  end.

Lemma undos_app cs1 cs2 rest t :
  undos (cs2 ++ cs1) rest t = undos cs1 rest (undos cs2 (cs1 ++ rest) t).
Proof.
  revert t. induction cs2 as [|c cs2 IH]; intros t; [done|]. cbn. by rewrite IH, <-app_assoc.
Qed.

Lemma rollback_undos cs rest s :
  m_changeLog s = cs ++ rest -> rollback (length rest) s = (undos cs rest s, inl tt).
Proof.
  intros E. change (rollback (length rest) s) with (rollback_loop (length rest) (m_changeLog s) s).
  rewrite E. clear E. revert s.
  induction cs as [|c cs IH]; intros s.
  - cbn [app undos]. unfold rollback_loop. destruct rest; by rewrite decide_True.
  - cbn [app undos rollback_loop]. rewrite decide_False by (cbn; rewrite length_app; lia).
    unfold mbind, M_bind, update_st. apply IH.
Qed.

(** What was logged between [s] and [s'] leads back from [s'], or from any state that differs
    from it in caching or in marks, to [s] *)
Definition undoable (s s' : State) : Prop :=
  wf s' /\ exists cs, m_changeLog s' = cs ++ m_changeLog s /\
    forall t, wf t -> dirtier s' t ->
      wf (undos cs (m_changeLog s) t) /\ dirtier s (undos cs (m_changeLog s) t).

Lemma undoable_dirtier s s' : wf s' -> dirtier s s' -> undoable s s'.
Proof.
  intros W D. split; [done|]. exists []. destruct D as [(? & ? & ? & ? & E) A] eqn:ED.
  split; [by rewrite E|]. intros t Wt Dt. split; [done|]. etrans; [exact D|exact Dt].
Qed.

Lemma undoable_sim s s' : wf s' -> sim s s' -> undoable s s'.
Proof. intros W S. apply undoable_dirtier; [done|by apply sim_dirtier]. Qed.

Lemma undoable_refl s : wf s -> undoable s s.
Proof. intros W. by apply undoable_sim. Qed.

Lemma undoable_trans s1 s2 s3 : undoable s1 s2 -> undoable s2 s3 -> undoable s1 s3.
Proof.
  intros (W2 & cs1 & E1 & U1) (W3 & cs2 & E2 & U2). split; [done|].
  exists (cs2 ++ cs1). split; [by rewrite E2, E1, app_assoc|].
  intros t Wt Dt. rewrite undos_app, <-E1. destruct (U2 t Wt Dt) as [W' D']. by apply U1.
Qed.

(** ** One logged change of a cached account *)

Lemma dirty_cached s a x : acct s a = Some x -> isDirty x -> m_cache s !! a = Some x.
Proof.
  unfold acct. destruct (m_cache s !! a) as [y|]; [done|].
  intros (l & _ & ->)%fmap_Some. done.
Qed.

(** An entry that matches an account that is not marked is the one of the trie *)
Lemma clean_of_dirtier s a x y :
  wf s -> acct s a = Some x -> dirtier_acc (m_db s) x y -> m_isUnchanged y ->
  exists l, m_state s !! a = Some l /\ acc_equiv (m_db s) y (account_of_leaf l).
Proof.
  intros W Hx (E & D & _) Hy.
  assert (Hc : m_isUnchanged x).
  { unfold isDirty in D. destruct (m_isUnchanged x), (m_isUnchanged y); cbn in *; tauto. }
  unfold acct in Hx. destruct (m_cache s !! a) as [x'|] eqn:Hm.
  - injection Hx as ->. destruct (wf_clean s W a x Hm Hc) as (l & Hl & El).
    exists l. split; [done|]. etrans; [by symmetry|done].
  - apply fmap_Some in Hx as (l & Hl & ->). exists l. split; [done|by symmetry].
Qed.

Lemma undoable_step s a x y c (g : Account -> Account) :
  wf s -> m_cache s !! a = Some x -> isDirty y -> m_isAlive y = m_isAlive x -> wf_acc (m_db s) y ->
  (forall t, exists l, undo c t = set_unchanged l (upd_cache a g t)) ->
  (forall z, wf_acc (m_db s) z -> acc_equiv (m_db s) y z -> isDirty z ->
     wf_acc (m_db s) (g z) /\ dirtier_acc (m_db s) x (g z)) ->
  undoable s (set_cache (<[a := y]> (m_cache s)) (log c s)).
Proof.
  intros W Hx Dy Ay Wy Hc Hg. split.
  { apply (wf_set (log c s)); [by apply wf_log|done| |].
    - intros Hu. unfold isDirty in Dy. by destruct (m_isUnchanged y).
    - rewrite Ay. by apply (wf_alive s a x). }
  exists [c]. split; [done|]. intros t Wt [(Edb & Est & Etc & Enn & Ecl) At]. cbn [undos app].
  destruct (Hc t) as [l ->]. cbn in Edb, Est, Etc, Enn.
  pose proof (At a) as Aa.
  rewrite (acct_set (log c s)), decide_True in Aa by done.
  apply option_Forall2_Some in Aa as (z & Hz & Dz).
  change (m_db (set_cache _ _)) with (m_db s) in Dz.
  assert (Dirz : isDirty z) by (apply Dz, Dy).
  pose proof (dirty_cached t a z Hz Dirz) as Hzc.
  assert (Wz : wf_acc (m_db s) z) by (rewrite Edb; by apply (wf_accounts t Wt a)).
  destruct (Hg z Wz) as [Wgz Dgz]; [by apply Dz|done|].
  assert (U : upd_cache a g t = set_cache (<[a := g z]> (m_cache t)) t)
    by (unfold upd_cache; by rewrite Hzc). rewrite U. split.
  - apply wf_set_changeLog, wf_set_unchanged, wf_set; [done|by rewrite <-Edb| |].
    + intros Hu. rewrite <-Edb, <-Est. eapply clean_of_dirtier; eauto using acct_cached.
    + rewrite <-(eq_alive _ _ _ (proj1 Dgz)), <-Ay, (eq_alive _ _ _ (proj1 Dz)).
      by apply (wf_alive t a z).
  - split; [by split_and!|]. intros b.
    change (acct (set_changeLog _ (set_unchanged _ ?u)) b) with (acct u b).
    rewrite acct_set. case_decide as E.
    + rewrite E, (acct_cached s a x Hx). by constructor.
    + specialize (At b). rewrite (acct_set (log c s)), decide_False in At by done. exact At.
Qed.

(** Creation of an account *)
Lemma undoable_create s a y :
  wf s -> acct s a = None -> wf_acc (m_db s) y -> isDirty y ->
  undoable s (log (ChCreate a) (set_nonExisting (m_nonExistingAccountsCache s ∖ {[a]})
                (set_cache (<[a := y]> (m_cache s)) s))).
Proof.
  intros W Hn Wy Dy.
  assert (Hst : m_state s !! a = None).
  { unfold acct in Hn. destruct (m_cache s !! a); [done|]. by destruct (m_state s !! a). }
  split.
  { set (s1 := set_nonExisting (m_nonExistingAccountsCache s ∖ {[a]}) s).
    change (wf (log (ChCreate a) (set_cache (<[a := y]> (m_cache s1)) s1))).
    apply wf_log, wf_set; [|done| |].
    - apply wf_set_nonExisting; [done| |].
      + intros b Hb. apply (wf_missing s W). set_solver.
      + intros b z Hb. apply (wf_made s W). set_solver.
    - unfold isDirty in Dy. by destruct (m_isUnchanged y).
    - intros _. cbn. set_solver. }
  exists [ChCreate a]. split; [done|].
  intros t Wt [(Edb & Est & Etc & Enn & Ecl) At]. cbn [undos app undo].
  cbn in Edb, Est, Etc, Enn. split; [by apply wf_set_changeLog, evict_wf|].
  split; [by split_and!|]. intros b.
  change (acct (set_changeLog _ ?u) b) with (acct u b). specialize (At b).
  change (acct (log _ (set_nonExisting _ ?u)) b) with (acct u b) in At.
  rewrite acct_set in At. unfold acct at 2. cbn [m_cache set_cache m_state].
  destruct (decide (b = a)) as [->|Hne].
  - rewrite lookup_delete_eq, Hn, <-Est, Hst. constructor.
  - rewrite lookup_delete_ne by done. exact At.
Qed.

(** ** The operations on an account *)

Definition unsettled (x : Account) : Prop := ~ isDirty x /\ isEmpty x.

Lemma u256_range v : is_u256 (u256 v).
Proof. by apply is_word_mod. Qed.

Lemma u256_add_sub b v : is_u256 b -> u256 (u256 (b + v) + u256 (0 - v)) = b.
Proof.
  intros Hb. unfold u256. rewrite <-Zplus_mod. replace (b + v + (0 - v)) with b by lia.
  by apply Z.mod_small.
Qed.

Lemma wf_acc_addBalance db v x : wf_acc db x -> wf_acc db (account_addBalance v x).
Proof. intros []. split; try done. apply u256_range. Qed.

Lemma wf_acc_setNonce db n x : wf_acc db x -> wf_acc db (account_setNonce n x).
Proof. intros []. by split. Qed.

Lemma wf_acc_setStorage db k v x :
  is_u256 k -> is_u256 v -> wf_acc db x -> wf_acc db (account_setStorage k v x).
Proof.
  intros Hk Hv []. split; try done. cbn. intros k' v' [E|[[<- <-]|[_ E]]%lookup_insert_Some]; eauto.
Qed.

Lemma wf_acc_setStorageCache db k v x :
  is_u256 k -> is_u256 v -> wf_acc db x -> wf_acc db (setStorageCache k v x).
Proof.
  intros Hk Hv []. split; try done. cbn. intros k' v' [E|[[<- <-]|[_ E]]%lookup_insert_Some]; eauto.
Qed.

Lemma wf_acc_setStorageRoot db r x :
  no_zero r -> (forall k v, r !! k = Some v -> is_u256 k /\ is_u256 v) ->
  wf_acc db x -> wf_acc db (setStorageRoot r x).
Proof.
  intros ? ? []. split; try done. cbn. intros k v. rewrite lookup_empty. intros [E|?]; [eauto|done].
Qed.

Lemma wf_acc_untouch db x : wf_acc db x -> wf_acc db (untouch x).
Proof. intros []. by split. Qed.

Lemma wf_acc_setCode db c x : wf_acc db x -> wf_acc db (account_setCode c x).
Proof.
  intros []. split; [done..| |done|by intros []|done]. unfold code_of; cbn.
  case_decide as E; [by rewrite E|]. by destruct c.
Qed.

Lemma no_zero_empty : no_zero ∅.
Proof. intros k. by rewrite lookup_empty. Qed.

Lemma wf_acc_new db n v : is_u256 v -> wf_acc db (new_account n v).
Proof.
  intros Hv. split; [done|apply no_zero_empty| |done|done|].
  - unfold code_of; cbn. by rewrite decide_True.
  - intros k w. cbn. rewrite !lookup_empty. by intros [?|?].
Qed.

Lemma slot_setStorage k v x k' :
  slot (account_setStorage k v x) k' = if decide (k' = k) then v else slot x k'.
Proof.
  unfold slot; cbn. case_decide as E; [by rewrite E, lookup_insert_eq|by rewrite lookup_insert_ne].
Qed.

(** A change that marks the account is compatible with one that is not left unmarked *)
Lemma dirtier_of_equiv db x y :
  ~ unsettled x -> acc_equiv db x y -> isDirty y -> dirtier_acc db x y.
Proof. intros Hu E D. split_and!; [done|done|]. intros ? ?. by destruct Hu. Qed.

Section Steps.
Context (s : State) (a : Z) (x : Account).
Hypothesis W : wf s.
Hypothesis Hx : m_cache s !! a = Some x.

Lemma wf_x : wf_acc (m_db s) x.
Proof. eapply wf_accounts; eauto using acct_cached. Qed.

Lemma undoable_balance v :
  ~ unsettled x ->
  undoable s (set_cache (<[a := account_addBalance v x]> (m_cache s)) (log (ChBalance a v) s)).
Proof.
  intros Hu. eapply (undoable_step s a x _ _ (account_addBalance (u256 (0 - v)))); eauto.
  - apply wf_acc_addBalance, wf_x.
  - intros z Wz [] Dz. split; [by apply wf_acc_addBalance|]. apply dirtier_of_equiv; [done| |done].
    split; try done. cbn in *. rewrite <-eq_balance.  symmetry. apply u256_add_sub, wf_x.
Qed.

Lemma undoable_nonce n :
  ~ unsettled x ->
  undoable s (set_cache (<[a := account_setNonce n x]> (m_cache s)) (log (ChNonce a (m_nonce x)) s)).
Proof.
  intros Hu. eapply (undoable_step s a x _ _ (account_setNonce (m_nonce x))); eauto.
  - apply wf_acc_setNonce, wf_x.
  - intros z Wz [] Dz. split; [by apply wf_acc_setNonce|]. apply dirtier_of_equiv; [done| |done].
    by split.
Qed.

Lemma undoable_storage k v :
  is_u256 k -> is_u256 v -> ~ unsettled x ->
  undoable s (set_cache (<[a := account_setStorage k v x]> (m_cache s))
                (log (ChStorage a k (slot x k)) s)).
Proof.
  intros Hk Hv Hu. eapply (undoable_step s a x _ _ (account_setStorage k (slot x k))); eauto.
  - apply wf_acc_setStorage; [done..|apply wf_x].
  - intros z Wz [] Dz. split; [apply wf_acc_setStorage; [done|eapply wf_slot, wf_x|done]|]. apply dirtier_of_equiv; [done| |done].
    split; try done. intros k'. rewrite slot_setStorage. case_decide as E; [by rewrite E|].
    by rewrite <-eq_slot, slot_setStorage, decide_False.
Qed.

Lemma undoable_storageRoot :
  ~ unsettled x -> (forall k v, m_storageOverlay x !! k = Some v -> v = default 0 (m_storageRoot x !! k)) ->
  undoable s (set_cache (<[a := setStorageRoot ∅ x]> (m_cache s))
                (log (ChStorageRoot a (m_storageRoot x)) s)).
Proof.
  intros Hu Ho. eapply (undoable_step s a x _ _ (setStorageRoot (m_storageRoot x))); eauto.
  - apply wf_acc_setStorageRoot; [apply no_zero_empty|done|apply wf_x].
  - intros z Wz [] Dz. split.
    { apply wf_acc_setStorageRoot; [apply wf_x| |done]. intros k v Hk.
      apply (wf_u256 _ _ wf_x k v). by left. }
    apply dirtier_of_equiv; [done| |done].
    split; try done. intros k. unfold slot; cbn. rewrite lookup_empty.
    destruct (m_storageOverlay x !! k) as [v|] eqn:E; [by apply Ho|done].
Qed.

Lemma undoable_code c :
  isDirty x ->
  undoable s (set_cache (<[a := account_setCode c x]> (m_cache s))
                (log (ChCode a (code_of (m_db s) x)) s)).
Proof.
  intros Hd. eapply (undoable_step s a x _ _ (account_setCode (code_of (m_db s) x))); eauto.
  - apply wf_acc_setCode, wf_x.
  - intros z Wz [] Dz. split; [by apply wf_acc_setCode|].
    pose proof (wf_code _ _ wf_x) as Hc.
    apply dirtier_of_equiv; [by intros []| |done]. split; try done; cbn.
    unfold code_of at 2; cbn. rewrite Hc. case_decide as E; [unfold code_of; by rewrite decide_True|].
    destruct (code_of (m_db s) x) eqn:Ec; [|done]. by destruct E.
Qed.

(** The first touch of an empty account *)
Definition mark (y : Account) : Account :=
  mkAccount (m_isAlive y) false (m_hasNewCode y) (m_nonce y) (m_balance y) (m_storageRoot y)
            (m_codeHash y) (m_storageOverlay y) (m_codeCache y).

Lemma undoable_touch :
  m_isUnchanged x ->
  undoable s (set_cache (<[a := mark x]> (m_cache s)) (log (ChTouch a) s)).
Proof.
  intros Hc. eapply (undoable_step s a x _ _ untouch); eauto.
  - destruct wf_x. by split.
  - intros z Wz [] Dz. split; [by apply wf_acc_untouch|]. split_and!.
    + by split.
    + unfold isDirty. by destruct (m_isUnchanged x).
    + by intros _ _ ?.
Qed.
End Steps.

(** ** The operations on the state *)

Lemma undoable_new s a n v :
  wf s -> acct s a = None -> is_u256 v -> undoable s (createAccount a (new_account n v) s).1.
Proof. intros W Hn Hv. apply (undoable_create s a); [done..|by apply wf_acc_new|done]. Qed.

(** Finding the account first *)
Lemma undoable_account {A} s a (k : option Account -> M State A) :
  wf s ->
  (forall s' r, wf s' -> sim s s' -> r = acct s' a -> m_cache s' !! a = r -> undoable s' (k r s').1) ->
  undoable s ((account a ≫= k) s).1.
Proof.
  intros W Hk. unfold account, mbind, M_bind.
  destruct (find_account a s) as [s' r] eqn:E.
  destruct (find_account_ok s a s' r W E) as (W' & S' & Hr & Hc).
  eapply undoable_trans; [by apply undoable_sim|]. by apply Hk.
Qed.

Lemma undoable_query {A} s a (f : Account -> A) d : wf s -> undoable s (query a f d s).1.
Proof. intros W. apply undoable_account; [done|]. intros s' r W' _ _ _. by apply undoable_refl. Qed.

Lemma undoable_startNonce {A} s (k : Z -> M State A) :
  wf s -> (forall n, undoable s (k n s).1) -> undoable s ((requireAccountStartNonce ≫= k) s).1.
Proof.
  intros W Hk. unfold requireAccountStartNonce, mbind, M_bind; cbn.
  case_decide; [by apply undoable_refl|apply Hk].
Qed.

(** An update through the pointer stores the new account *)
Lemma upd_account_set s a x f :
  m_cache s !! a = Some x -> upd_account a f s = set_cache (<[a := f x]> (m_cache s)) s.
Proof. intros Hx. unfold upd_account. f_equal. by apply alter_alt_Some. Qed.

Lemma upd_cache_set s a x f :
  m_cache s !! a = Some x -> upd_cache a f s = set_cache (<[a := f x]> (m_cache s)) s.
Proof. intros Hx. unfold upd_cache. by rewrite Hx. Qed.

Lemma sim_acct s t a x :
  sim s t -> acct t a = Some x -> exists y, acct s a = Some y /\ same_acc (m_db s) y x.
Proof.
  intros [_ A] Hx. specialize (A a). rewrite Hx in A. inversion A; subst; eauto.
Qed.

Lemma sim_unsettled s t a x :
  sim s t -> acct t a = Some x -> (forall y, acct s a = Some y -> ~ unsettled y) -> ~ unsettled x.
Proof.
  intros S Hx Hu. destruct (sim_acct s t a x S Hx) as (y & Hy & [E U]).
  unfold unsettled, isDirty. rewrite <-U, <-(acc_equiv_isEmpty _ _ _ E). by apply Hu.
Qed.

(** The three cases of addBalance *)
Lemma undoable_addBalance_touch s a x v :
  wf s -> m_cache s !! a = Some x -> m_isUnchanged x -> is_u256 v ->
  undoable s (set_cache (<[a := account_addBalance v x]> (m_cache s))
                (if decide (v = 0) then log (ChTouch a) s
                 else log (ChBalance a v) (log (ChTouch a) s))).
Proof.
  intros W Hx Hu Hv. pose proof (undoable_touch s a x W Hx Hu) as U2.
  eapply undoable_trans; [exact U2|].
  set (s2 := set_cache (<[a := mark x]> (m_cache s)) (log (ChTouch a) s)) in *.
  assert (Hc2 : m_cache s2 !! a = Some (mark x)) by apply lookup_insert_eq.
  assert (E2 : <[a := account_addBalance v x]> (m_cache s)
               = <[a := account_addBalance v (mark x)]> (m_cache s2)).
  { unfold s2; cbn. by rewrite insert_insert_eq. }
  rewrite E2. case_decide as E.
  - subst v. apply undoable_sim; [|eapply (sim_set s2); [by apply acct_cached|]].
    + apply (wf_set s2); [apply U2| |done|].
      * eapply wf_acc_addBalance, (wf_x s2 a); [apply U2|done].
      * apply (wf_alive s2 a (mark x)); [apply U2|done].
    + split; [|done]. split; try done. cbn. rewrite Z.add_0_r. symmetry.
      apply Z.mod_small, (wf_x s a x W Hx).
  - apply (undoable_balance s2 a (mark x)); [apply U2|done|]. by intros [].
Qed.

Lemma undoable_addBalance_found s a x v :
  wf s -> m_cache s !! a = Some x -> ~ unsettled x ->
  undoable s (set_cache (<[a := account_addBalance v x]> (m_cache s))
                (if decide (v = 0) then s else log (ChBalance a v) s)).
Proof.
  intros W Hx Hu. case_decide as E; [|by apply undoable_balance].
  pose proof (wf_x s a x W Hx) as Wx. subst v. apply undoable_dirtier.
  - apply wf_set; [done|by apply wf_acc_addBalance|done|by apply (wf_alive s a x)].
  - split; [done|]. intros b. rewrite acct_set. case_decide as Eb.
    + rewrite Eb, (acct_cached _ _ _ Hx). constructor. apply dirtier_of_equiv; [done| |done].
      split; try done. cbn. rewrite Z.add_0_r. symmetry. apply Z.mod_small, Wx.
    + apply option_Forall2_refl, _.
Qed.

(** A new account is created as if without the balance *)
Lemma undoable_addBalance_new s a n v :
  wf s -> acct s a = None -> is_u256 v ->
  undoable s (let s' := (createAccount a (new_account n v) s).1 in
              if decide (v = 0) then s' else log (ChBalance a v) s').
Proof.
  intros W Hn Hv. cbn zeta. case_decide as E; [by apply undoable_new|].
  pose proof (undoable_new s a n 0 W Hn (is_word_0 256 ltac:(lia))) as U2.
  set (s2 := (createAccount a (new_account n 0) s).1) in U2.
  assert (Hc2 : m_cache s2 !! a = Some (new_account n 0)) by apply lookup_insert_eq.
  assert (E2 : <[a := new_account n v]> (m_cache s)
               = <[a := account_addBalance v (new_account n 0)]> (m_cache s2)).
  { change (m_cache s2) with (<[a := new_account n 0]> (m_cache s)).
    rewrite insert_insert_eq. f_equal. unfold account_addBalance, new_account; cbn.
    unfold u256. by rewrite Z.mod_small. }
  change (undoable s (set_cache (<[a := new_account n v]> (m_cache s)) (log (ChBalance a v) s2))).
  rewrite E2. eapply undoable_trans; [exact U2|].
  apply (undoable_balance s2 a (new_account n 0)); [apply U2|done|]. by intros [].
Qed.

Lemma undoable_addBalance s a v : wf s -> is_u256 v -> undoable s (addBalance a v s).1.
Proof.
  intros W Hv. unfold addBalance. apply undoable_account; [done|].
  intros s1 [x|] W1 _ Hr Hc.
  - destruct (negb (isDirty x) && isEmpty x) eqn:Ht; unfold mbind, M_bind, update_st, mret, M_ret; cbn.
    + apply andb_prop in Ht as [Hd%negb_true_iff He].
      assert (Hu : m_isUnchanged x) by (unfold isDirty in Hd; by destruct (m_isUnchanged x)).
      rewrite (upd_account_set (log (ChTouch a) s1) a x) by done.
      pose proof (undoable_addBalance_touch s1 a x v W1 Hc Hu Hv) as U. by case_decide.
    + assert (Hu : ~ unsettled x).
      { intros [Hd He]. destruct (isDirty x), (isEmpty x); naive_solver. }
      rewrite (upd_account_set s1 a x) by done.
      pose proof (undoable_addBalance_found s1 a x v W1 Hc Hu) as U. by case_decide.
  - unfold requireAccountStartNonce, mbind, M_bind; cbn.
    case_decide; [by apply undoable_refl|]. cbn.
    pose proof (undoable_addBalance_new s1 a (m_accountStartNonce s1) v W1 (eq_sym Hr) Hv) as U.
    by case_decide.
Qed.

Lemma undoable_subBalance s a v : wf s -> undoable s (subBalance a v s).1.
Proof.
  intros W. unfold subBalance. case_decide; [by apply undoable_refl|].
  apply undoable_account; [done|]. intros s1 [x|] W1 _ _ _; [|by apply undoable_refl].
  case_decide; [by apply undoable_refl|]. by apply undoable_addBalance, u256_range.
Qed.

Lemma undoable_bind {A B} s (m : M State A) (k : A -> M State B) :
  undoable s (m s).1 -> (forall a s', m s = (s', inl a) -> wf s' -> undoable s' (k a s').1) ->
  undoable s ((m ≫= k) s).1.
Proof.
  intros Hm Hk. unfold mbind, M_bind. destruct (m s) as [s' [a|e]] eqn:E; [|done].
  eapply undoable_trans; [exact Hm|]. by apply Hk; [|apply Hm].
Qed.

Lemma undoable_transferBalance s f t v : wf s -> is_u256 v -> undoable s (transferBalance f t v s).1.
Proof.
  intros W Hv. apply undoable_bind; [by apply undoable_subBalance|].
  intros ? s1 _ W1. by apply undoable_addBalance.
Qed.

(** The accounts that can be changed without a touch *)
Definition settled (s : State) (a : Z) : Prop := forall x, acct s a = Some x -> ~ unsettled x.

Lemma undoable_setNonce s a n : wf s -> settled s a -> undoable s (setNonce a n s).1.
Proof.
  intros W Hs. apply undoable_account; [done|]. intros s1 [x|] W1 S Hr Hc.
  - unfold mbind, M_bind, update_st; cbn. rewrite (upd_account_set s1 a x) by done.
    apply (undoable_nonce s1 a x); [done..|]. by eapply sim_unsettled.
  - by apply undoable_new.
Qed.

Lemma undoable_incNonce s a : wf s -> settled s a -> undoable s (incNonce a s).1.
Proof.
  intros W Hs. apply undoable_account; [done|]. intros s1 [x|] W1 S Hr Hc.
  - unfold mbind, M_bind, update_st; cbn. rewrite (upd_account_set s1 a x) by done.
    apply (undoable_nonce s1 a x); [done..|]. by eapply sim_unsettled.
  - apply undoable_startNonce; [done|]. intros n. by apply undoable_new.
Qed.

Lemma undoable_createContract s a : wf s -> acct s a = None -> undoable s (createContract a s).1.
Proof. intros W Hn. apply undoable_startNonce; [done|]. intros n. by apply undoable_new. Qed.

(** ** Storage and code *)

(** What a query that caches leaves behind *)
Definition cached_in (s s' : State) (a : Z) : Prop :=
  wf s' /\ sim s s' /\
  forall x, acct s a = Some x -> exists x', m_cache s' !! a = Some x' /\ same_acc (m_db s) x x'.

Lemma find_account_cached s a s' r :
  wf s -> find_account a s = (s', r) ->
  cached_in s s' a /\ option_Forall2 (same_acc (m_db s)) (acct s a) r /\ m_cache s' !! a = r.
Proof.
  intros W E. destruct (find_account_ok s a s' r W E) as (W' & S' & Hr & Hc).
  pose proof (proj2 S' a) as A. rewrite <-Hr in A. split_and!; [|done|done].
  split_and!; [done|done|]. intros x Hx. rewrite Hx in A.
  apply option_Forall2_Some in A as (y & Hy & Sy). exists y. by rewrite Hc.
Qed.

Lemma cached_in_set s s' a x y :
  cached_in s s' a -> m_cache s' !! a = Some x -> same_acc (m_db s') x y -> wf_acc (m_db s') y ->
  cached_in s (set_cache (<[a := y]> (m_cache s')) s') a.
Proof.
  intros (W & S & C) Hx Hy Wy. assert (Edb : m_db s = m_db s') by by destruct S as [[]].
  split_and!.
  - apply wf_set; [done|done| |].
    + intros Hu. eapply clean_of_dirtier; eauto using acct_cached, same_dirtier_acc.
    + rewrite <-(eq_alive _ _ _ (proj1 Hy)). by apply (wf_alive s' a x).
  - etrans; [exact S|]. eapply sim_set; [by apply acct_cached|done].
  - intros z Hz. exists y. split; [apply lookup_insert_eq|].
    destruct (C z Hz) as (x' & Hx' & Ex'). assert (x' = x) as -> by congruence.
    etrans; [exact Ex'|]. by rewrite Edb.
Qed.

Lemma same_setStorageCache db k x :
  m_storageOverlay x !! k = None -> same_acc db x (setStorageCache k (default 0 (m_storageRoot x !! k)) x).
Proof.
  intros Hk. split; [|done]. split; try done. intros k'. unfold slot; cbn.
  destruct (decide (k' = k)) as [->|Hn]; [by rewrite lookup_insert_eq, Hk|by rewrite lookup_insert_ne].
Qed.

Lemma storage_ok s a k :
  wf s -> is_u256 k -> exists s', storage a k s = (s', inl (slot_at s a k)) /\ cached_in s s' a.
Proof.
  intros W Hr. unfold storage, account, slot_at, mbind, M_bind.
  destruct (find_account a s) as [s1 r] eqn:E.
  destruct (find_account_cached s a s1 r W E) as (C & A & Hc). destruct A as [x y [[] _]|].
  2: { eexists; by split. }
  rewrite eq_slot. unfold slot. destruct (m_storageOverlay y !! k) as [v|] eqn:Hk.
  { eexists; by split. }
  eexists. split; [done|]. rewrite (upd_account_set s1 a y) by done.
  eapply cached_in_set; [done..|by apply same_setStorageCache|].
  assert (Wy : wf_acc (m_db s1) y) by (apply (wf_x s1 a); [apply C|done]).
  apply wf_acc_setStorageCache; [done| |done]. pose proof (wf_slot _ y k Wy) as Hs.
  unfold slot in Hs. by rewrite Hk in Hs.
Qed.

Lemma same_noteCode db x :
  m_codeHash x <> EmptySHA3 -> m_codeCache x = [] ->
  same_acc db x (noteCode (default [] (db !! m_codeHash x)) x).
Proof.
  intros Hh Hc. split; [|done]. split; try done. unfold code_of; cbn.
  rewrite decide_False, Hc, decide_False by done.
  by destruct (default [] (db !! m_codeHash x)) eqn:E.
Qed.

Lemma wf_acc_noteCode db x :
  m_codeHash x <> EmptySHA3 -> m_codeCache x = [] -> wf_acc db x ->
  wf_acc db (noteCode (default [] (db !! m_codeHash x)) x).
Proof.
  intros Hh Hc [Hb Hr Hco Hn Hst Hu]. pose proof (same_noteCode db x Hh Hc) as [[] _].
  split; [done|done|by rewrite <-eq_code| |done|done]. cbn. intros _ _. unfold code_of in Hco.
  by rewrite decide_False, Hc in Hco.
Qed.

Lemma code_ok s a : wf s -> exists s', code a s = (s', inl (code_at s a)) /\ cached_in s s' a.
Proof.
  intros W. unfold code, account, code_at, mbind, M_bind.
  destruct (find_account a s) as [s1 r] eqn:E.
  destruct (find_account_cached s a s1 r W E) as (C & A & Hc).
  assert (Edb : m_db s = m_db s1) by by destruct C as (_ & [[]] & _).
  destruct A as [x y [[] _]|]; [|eexists; by split].
  rewrite eq_code. unfold code_of. case_decide as Eh; [eexists; by split|].
  destruct (m_codeCache y) as [|b c] eqn:Ec; [|eexists; by split].
  eexists. split; [rewrite Edb; done|]. rewrite (upd_account_set _ a y) by done.
  eapply cached_in_set; [done..|by apply same_noteCode|].
  apply wf_acc_noteCode; [done..|]. apply (wf_x s1 a); [apply C|done].
Qed.

Lemma undoable_cached s s' a : cached_in s s' a -> undoable s s'.
Proof. intros (W & S & _). by apply undoable_sim. Qed.

Lemma same_acc_unsettled db x y : same_acc db x y -> ~ unsettled x -> ~ unsettled y.
Proof. intros [E U]. unfold unsettled, isDirty. by rewrite <-U, <-(acc_equiv_isEmpty _ _ _ E). Qed.

Lemma undoable_setStorage s a x k v :
  wf s -> acct s a = Some x -> ~ unsettled x -> is_u256 k -> is_u256 v ->
  undoable s (setStorage a k v s).1.
Proof.
  intros W Hx Hu Hk Hv. destruct (storage_ok s a k W Hk) as (s1 & E & C).
  unfold setStorage. rewrite (bind_inl _ _ _ _ _ E).
  eapply undoable_trans; [by eapply undoable_cached|]. unfold mbind, M_bind, update_st; cbn.
  destruct C as (W1 & S1 & C). destruct (C x Hx) as (y & Hy & Ey).
  rewrite (upd_cache_set _ a y) by done. unfold slot_at. rewrite Hx, (eq_slot _ _ _ (proj1 Ey)).
  apply (undoable_storage s1 a y); [done..|]. by eapply same_acc_unsettled.
Qed.

Lemma undoable_setCode s a x c :
  wf s -> acct s a = Some x -> isDirty x -> undoable s (setCode a c s).1.
Proof.
  intros W Hx Hd. destruct (code_ok s a W) as (s1 & E & C).
  unfold setCode. rewrite (bind_inl _ _ _ _ _ E).
  eapply undoable_trans; [by eapply undoable_cached|]. unfold mbind, M_bind, update_st; cbn.
  destruct C as (W1 & S1 & C). destruct (C x Hx) as (y & Hy & [Ey Uy]).
  assert (Edb : m_db s = m_db s1) by by destruct S1 as [[]].
  rewrite (upd_cache_set _ a y) by done. unfold code_at. rewrite Hx, (eq_code _ _ _ Ey), Edb.
  apply (undoable_code s1 a y); [done..|]. unfold isDirty. by rewrite <-Uy.
Qed.

Lemma undoable_clearStorage s a x :
  wf s -> m_cache s !! a = Some x -> ~ unsettled x ->
  (forall k v, m_storageOverlay x !! k = Some v -> v = default 0 (m_storageRoot x !! k)) \/
    m_storageRoot x = ∅ ->
  undoable s (clearStorage a s).1.
Proof.
  intros W Hx Hu Ho. unfold clearStorage, mbind, M_bind, update_st, get_st.
  rewrite (upd_cache_set s a x) by done. cbn [fst].
  assert (E : set_cache (<[a := id x]> (m_cache s)) s = s).
  { unfold id. rewrite insert_id by done. by destruct s. }
  rewrite E, Hx. cbn [default from_option id].
  case_decide as Er; [by apply undoable_refl|]. cbn [fst].
  rewrite (upd_cache_set _ a x) by done. apply (undoable_storageRoot s a x); [done..|].
  by destruct Ho.
Qed.

(** ** Executions *)

(** The calls of the virtual machine and of the transaction code between a savepoint and a
    rollback; an exception leaves the state of the throw *)
Inductive call : Type :=
  | CAddBalance (a v : Z)
  | CSubBalance (a v : Z)
  | CTransferBalance (from to v : Z)
  | CIncNonce (a : Z)
  | CSetNonce (a n : Z)
  | CSetStorage (a k v : Z)
  | CClearStorage (a : Z)
  | CCreateContract (a : Z)
  | CSetCode (a : Z) (c : list Z)
  | CBalance (a : Z)
  | CStorage (a k : Z)
  | CCode (a : Z).

Definition run_call (c : call) : M State unit :=
  match c with
  | CAddBalance a v => addBalance a v
  | CSubBalance a v => subBalance a v
  | CTransferBalance f t v => transferBalance f t v
  | CIncNonce a => incNonce a
  | CSetNonce a n => setNonce a n
  | CSetStorage a k v => setStorage a k v
  | CClearStorage a => clearStorage a
  | CCreateContract a => createContract a
  | CSetCode a c => setCode a c
  | CBalance a => balance a;; mret tt
  | CStorage a k => storage a k;; mret tt
  | CCode a => code a;; mret tt
  end.

(** What the callers see to: storage and code are those of accounts that exist, an account is
    touched (by a transfer) before its nonce or storage changes, code is set after the nonce,
    storage is cleared before it is written, and accounts are created once. *)
Definition allowed (s : State) (c : call) : Prop :=
  match c with
  | CAddBalance _ v | CTransferBalance _ _ v => is_u256 v
  | CIncNonce a | CSetNonce a _ => settled s a
  | CSetStorage a k v => is_u256 k /\ is_u256 v /\ exists x, acct s a = Some x /\ ~ unsettled x
  | CStorage _ k => is_u256 k
  | CClearStorage a => exists x, m_cache s !! a = Some x /\ ~ unsettled x /\
      ((forall k v, m_storageOverlay x !! k = Some v -> v = default 0 (m_storageRoot x !! k)) \/
       m_storageRoot x = ∅)
  | CCreateContract a => acct s a = None
  | CSetCode a _ => exists x, acct s a = Some x /\ isDirty x
  | CSubBalance _ _ | CBalance _ | CCode _ => True
  end.

(** A sequence of calls, in which inner executions may have been rolled back *)
Inductive execution : State -> State -> Prop :=
  | exec_done s : execution s s
  | exec_call s c s' : allowed s c -> execution (run_call c s).1 s' -> execution s s'
  | exec_reverted s s1 s2 s' :
      execution s s1 -> rollback (length (m_changeLog s)) s1 = (s2, inl tt) ->
      execution s2 s' -> execution s s'.

Lemma call_undoable s c : wf s -> allowed s c -> undoable s (run_call c s).1.
Proof.
  intros W. destruct c; cbn.
  - by apply undoable_addBalance.
  - intros _. by apply undoable_subBalance.
  - by apply undoable_transferBalance.
  - by apply undoable_incNonce.
  - by apply undoable_setNonce.
  - intros (Hk & Hv & x & Hx & Hu). by eapply undoable_setStorage.
  - intros (x & Hx & Hu & Ho). by eapply undoable_clearStorage.
  - by apply undoable_createContract.
  - intros (x & Hx & Hd). by eapply undoable_setCode.
  - intros _. apply undoable_bind; [by apply undoable_query|]. intros. by apply undoable_refl.
  - intros Hk. destruct (storage_ok s a k W Hk) as (s1 & E & C). rewrite (bind_inl _ _ _ _ _ E).
    by eapply undoable_cached.
  - intros _. destruct (code_ok s a W) as (s1 & E & C). rewrite (bind_inl _ _ _ _ _ E).
    by eapply undoable_cached.
Qed.

Lemma rollback_undoable s s' :
  undoable s s' ->
  exists s2, rollback (length (m_changeLog s)) s' = (s2, inl tt) /\ wf s2 /\ dirtier s s2.
Proof.
  intros (W' & cs & E & U). exists (undos cs (m_changeLog s) s').
  split; [by apply rollback_undos|]. by apply U.
Qed.

Lemma execution_undoable s s' : execution s s' -> wf s -> undoable s s'.
Proof.
  induction 1 as [s|s c s' Ha _ IH|s s1 s2 s' _ IH1 Hr _ IH2]; intros W.
  - by apply undoable_refl.
  - pose proof (call_undoable s c W Ha) as U. eapply undoable_trans; [exact U|]. apply IH, U.
  - destruct (rollback_undoable s s1 (IH1 W)) as (s3 & E & W3 & D3).
    rewrite E in Hr. injection Hr as ->.
    eapply undoable_trans; [by apply undoable_dirtier|]. by apply IH2.
Qed.

(** ** Queries *)

Lemma query_result {A} s a (f : Account -> A) d :
  wf s -> (forall x y, acc_equiv (m_db s) x y -> f x = f y) ->
  (query a f d s).2 = inl (match acct s a with Some x => f x | None => d end).
Proof.
  intros W Hf. unfold query, account, mbind, M_bind.
  destruct (find_account a s) as [s1 r] eqn:E.
  destruct (find_account_ok s a s1 r W E) as (_ & [_ F] & Hr & _). specialize (F a).
  rewrite <-Hr in F. destruct F as [x y [Exy _]|]; cbn; [|done]. by rewrite (Hf _ _ Exy).
Qed.

Lemma query_dirtier {A} s t a (f : Account -> A) d :
  wf s -> wf t -> dirtier s t -> (forall db x y, acc_equiv db x y -> f x = f y) ->
  (query a f d t).2 = (query a f d s).2.
Proof.
  intros Ws Wt [_ D] Hf. rewrite !query_result by eauto. do 2 f_equal. specialize (D a).
  destruct D as [x y [E _]|]; [|done]. symmetry. by eapply Hf.
Qed.

Lemma getNonce_result s a : wf s -> (getNonce a s).2 = inl (nonce_at s a).
Proof.
  intros W. unfold getNonce, account, mbind, M_bind.
  destruct (find_account a s) as [s1 r] eqn:E.
  destruct (find_account_ok s a s1 r W E) as (_ & [F A] & Hr & _). specialize (A a).
  assert (En : m_accountStartNonce s = m_accountStartNonce s1) by by destruct F as (_ & _ & _ & ? & _).
  unfold nonce_at. rewrite <-Hr in A. cbn. rewrite En. destruct A as [x y [[] _]|]; cbn; congruence.
Qed.

(** The same answers to every query *)
Definition same_answers (s t : State) : Prop :=
  forall a, (addressInUse a t).2 = (addressInUse a s).2 /\ (balance a t).2 = (balance a s).2 /\
    (getNonce a t).2 = (getNonce a s).2 /\ (codeHash a t).2 = (codeHash a s).2 /\
    (code a t).2 = (code a s).2 /\
    forall k, is_u256 k -> (storage a k t).2 = (storage a k s).2.

Lemma dirtier_answers s t : wf s -> wf t -> dirtier s t -> same_answers s t.
Proof.
  intros Ws Wt D a. pose proof D as [F A]. specialize (A a).
  assert (Edb : m_db s = m_db t) by by destruct F.
  assert (En : m_accountStartNonce s = m_accountStartNonce t) by by destruct F as (_ & _ & _ & ? & _).
  split_and!.
  - by apply query_dirtier.
  - apply query_dirtier; [done..|]. by intros db x y [].
  - rewrite !getNonce_result by done. unfold nonce_at. rewrite En.
    destruct A as [x y [[] _]|]; congruence.
  - apply query_dirtier; [done..|]. by intros db x y [].
  - destruct (code_ok s a Ws) as (s1 & -> & _), (code_ok t a Wt) as (t1 & -> & _). cbn. f_equal.
    unfold code_at. rewrite <-Edb. destruct A as [x y [[] _]|]; congruence.
  - intros k Hk. destruct (storage_ok s a k Ws Hk) as (s1 & -> & _), (storage_ok t a k Wt Hk) as (t1 & -> & _).
    cbn. f_equal. unfold slot_at. destruct A as [x y [[] _]|]; congruence.
Qed.

(** C8: after an execution that keeps to the order of calls of the executive ([allowed]), from
    a state with a coherent cache, a rollback to the savepoint succeeds, with the log of the
    savepoint, every query answers as at the savepoint, and a commit writes the trie that it would
    have written there.  The calls change balances, nonces, storage and code, create accounts,
    throw, fill and purge the caches, and inner executions may have been rolled back.  What is
    required of them: values are 256-bit words; storage is written, and code set, for accounts
    that exist, code only for changed ones; a nonce changes, or storage is written or cleared, for
    accounts that are not empty or were changed before; storage is cleared before anything else is
    written to it, or when none is committed; an account is created once.  Where the storage of a
    missing account is written, or storage cleared that was written before, the rollback does not
    restore the state (the two examples at the end). *)
Theorem rollback_restores s s' :
  wf s -> execution s s' ->
  exists s2, rollback (length (m_changeLog s)) s' = (s2, inl tt) /\ wf s2 /\
    m_changeLog s2 = m_changeLog s /\ same_answers s s2 /\
    forall b, committed b s2 = committed b s.
Proof.
  intros W E. destruct (rollback_undoable s s' (execution_undoable s s' E W)) as (s2 & R & W2 & D).
  exists s2. split_and!; [done|done| |by apply dirtier_answers|].
  - destruct D as [(_ & _ & _ & _ & ?) _]. done.
  - intros b. symmetry. by apply dirtier_committed.
Qed.
End Undo.

(** ** Witness and the two cases that a rollback does not restore *)

#[local] Existing Instance demo_env.

(** A payment to a new account, a write to storage and a refused payment *)
Definition demo_calls (s : State) : State :=
  (run_call (CSubBalance 1 (10 ^ 30)) (run_call (CSetStorage 0x21 7 9)
     (run_call (CTransferBalance 1 2 30) s).1).1).1.

Lemma rollback_restores_witness :
  balance_at (demo_calls demo_state) 2 = 30 /\ slot_at (demo_calls demo_state) 0x21 7 = 9 /\
  exists s2, rollback 0 (demo_calls demo_state) = (s2, inl tt) /\
    same_answers demo_state s2 /\ forall b, committed b s2 = committed b demo_state.
Proof.
  split; [by vm_compute|]. split; [by vm_compute|].
  destruct (rollback_restores demo_state (demo_calls demo_state)) as (s2 & R & _ & _ & A & C).
  - apply demo_wf.
  - apply (exec_call _ (CTransferBalance 1 2 30)); [by vm_compute|].
    apply (exec_call _ (CSetStorage 0x21 7 9)).
    + split; [by vm_compute|]. split; [by vm_compute|].
      eexists. split; [vm_compute; reflexivity|]. intros [_ He]. by vm_compute in He.
    + apply (exec_call _ (CSubBalance 1 (10 ^ 30))); [exact I|]. apply exec_done.
  - exists s2. by split_and!.
Defined.

(** clearStorage drops what was written to the storage since the last commit, and the rollback
    restores the committed storage only. *)
Example clearStorage_not_undone :
  let s := (setStorage 0x21 7 9 demo_state).1 in
  (storage 0x21 7 s).2 = inl 9 /\
  (storage 0x21 7 (rollback (length (m_changeLog s)) (clearStorage 0x21 s).1).1).2 = inl 5.
Proof. by vm_compute. Qed.

(** Writing the storage of an address without an account makes a dead account that the rollback
    leaves: the address is in use afterwards. *)
Example setStorage_makes_account :
  (addressInUse 3 demo_state).2 = inl false /\
  (addressInUse 3 (rollback 0 (setStorage 3 0 1 demo_state).1).1).2 = inl true.
Proof. by vm_compute. Qed.
