(* ===== verification/Ledger.v ===== *)
(** * What the vote contract needs of the state

    The operations of State that libethereum/Vote.cpp calls, as an interface, and the laws its
    theorems rely on: the storage of the account VoteInfoAddress and the balances.  EthLedger
    proves the laws of the model of State.cpp. *)

From stdpp Require Import gmap sorting.
From S2P Require Import Prelude Words Exn.

#[local] Open Scope Z_scope.

(** libdevcore/Address.cpp *)
Definition VoteInfoAddress : Z := 0x21.

Class Ledger (S : Type) := {
  lg_storage : Z -> Z -> M S Z;
  lg_storage_map : Z -> M S (gmap Z (Z * Z));
  lg_setStorage : Z -> Z -> Z -> M S unit;
  lg_balance : Z -> M S Z;
  lg_addBalance : Z -> Z -> M S unit;
  lg_subBalance : Z -> Z -> M S unit
}.

Class LedgerLaws (S : Type) `{!Ledger S} := {
  lg_ok : S -> Prop;
  (** storage of VoteInfoAddress by key, and balances *)
  slots : S -> Z -> Z;
  balances : S -> Z -> Z;
  slots_range : forall s k, lg_ok s -> is_word 256 (slots s k);
  balances_range : forall s a, lg_ok s -> is_word 256 (balances s a);
  storage_law : forall s k, lg_ok s -> is_word 256 k -> exists s',
    lg_storage VoteInfoAddress k s = (s', inl (slots s k)) /\ lg_ok s' /\
    (forall k', slots s' k' = slots s k') /\ (forall a, balances s' a = balances s a);
  storage_map_law : forall s, lg_ok s -> exists s' m,
    lg_storage_map VoteInfoAddress s = (s', inl m) /\ lg_ok s' /\
    (forall k', slots s' k' = slots s k') /\ (forall a, balances s' a = balances s a) /\
    (forall k v, is_word 256 k ->
       (exists h, m !! h = Some (k, v)) <-> slots s k = v /\ v <> 0) /\
    (forall h k v, m !! h = Some (k, v) -> is_word 256 k);
  setStorage_law : forall s k v, lg_ok s -> is_word 256 k -> is_word 256 v -> exists s',
    lg_setStorage VoteInfoAddress k v s = (s', inl tt) /\ lg_ok s' /\
    (forall k', slots s' k' = if decide (k' = k) then v else slots s k') /\
    (forall a, balances s' a = balances s a);
  balance_law : forall s a, lg_ok s -> exists s',
    lg_balance a s = (s', inl (balances s a)) /\ lg_ok s' /\
    (forall k', slots s' k' = slots s k') /\ (forall a, balances s' a = balances s a);
  addBalance_law : forall s a v, lg_ok s -> is_word 256 v -> exists s',
    lg_addBalance a v s = (s', inl tt) /\ lg_ok s' /\
    (forall k', slots s' k' = slots s k') /\
    (forall b, balances s' b = if decide (b = a) then (balances s a + v) mod 2 ^ 256 else balances s b);
  subBalance_law : forall s a v, lg_ok s -> 0 <= v <= balances s a -> exists s',
    lg_subBalance a v s = (s', inl tt) /\ lg_ok s' /\
    (forall k', slots s' k' = slots s k') /\
    (forall b, balances s' b = if decide (b = a) then balances s a - v else balances s b)
}.
