(* ===== verification/EthLedger.v ===== *)
(** * The state as a ledger

    The model of State.cpp satisfies the laws of [Ledger] on the states with a coherent cache in
    which the account of the votes exists and is not an empty account that was not touched (its
    genesis entry has code).  The hash of a storage key is assumed to have no collisions. *)

From stdpp Require Import gmap sorting.
From S2P Require Import Prelude Words Exn EthState EthStateInv EthCommit EthRollback Ledger.

#[local] Open Scope Z_scope.

(** No two storage keys have the same hash *)
Class KeyHashInj `{NodeEnv} := hashedKey_inj : forall k k',
  is_u256 k -> is_u256 k' -> hashedKey k = hashedKey k' -> k = k'.

#[export] Instance State_ledger `{NodeEnv} : Ledger State := {|
  lg_storage := storage;
  lg_storage_map := storage_map;
  lg_setStorage := setStorage;
  lg_balance := balance;
  lg_addBalance := addBalance;
  lg_subBalance := subBalance
|}.

Section Laws.
Context `{NodeEnv}.

Record ledger_ok (s : State) : Prop := {
  ok_wf : wf s;
  ok_nonce : m_accountStartNonce s <> Invalid256;
  ok_votes : exists x, acct s VoteInfoAddress = Some x /\ ~ unsettled x
}.

Lemma sim_slot_at s t a k : sim s t -> slot_at t a k = slot_at s a k.
Proof. intros [_ A]. specialize (A a). unfold slot_at. by destruct A as [x y [[] _]|]. Qed.

Lemma sim_balance_at s t a : sim s t -> balance_at t a = balance_at s a.
Proof. intros [_ A]. specialize (A a). unfold balance_at. by destruct A as [x y [[] _]|]. Qed.

Lemma sim_ok s t : ledger_ok s -> wf t -> sim s t -> ledger_ok t.
Proof.
  intros [W N (x & Hx & Hu)] Wt S. split; [done| |].
  - by destruct S as [(_ & _ & _ & <- & _) _].
  - pose proof (proj2 S VoteInfoAddress) as A. rewrite Hx in A.
    apply option_Forall2_Some in A as (y & Hy & E). exists y. split; [done|].
    by eapply same_acc_unsettled.
Qed.

(** Queries *)
Lemma storage_result s a k :
  ledger_ok s -> is_u256 k -> exists s', storage a k s = (s', inl (slot_at s a k)) /\ ledger_ok s' /\
    (forall b k', slot_at s' b k' = slot_at s b k') /\ (forall b, balance_at s' b = balance_at s b).
Proof.
  intros Ok Hk. destruct (storage_ok s a k (ok_wf s Ok) Hk) as (s' & E & W' & S' & _).
  exists s'. split_and!; [done|by eapply sim_ok| |]; intros; [by apply sim_slot_at|by apply sim_balance_at].
Qed.

Lemma balance_result s a :
  ledger_ok s -> exists s', balance a s = (s', inl (balance_at s a)) /\ ledger_ok s' /\
    (forall b k', slot_at s' b k' = slot_at s b k') /\ (forall b, balance_at s' b = balance_at s b).
Proof.
  intros Ok. unfold balance, query, account, mbind, M_bind.
  destruct (find_account a s) as [s' r] eqn:E.
  destruct (find_account_ok s a s' r (ok_wf s Ok) E) as (W' & S' & Hr & _).
  exists s'. split_and!; [|by eapply sim_ok| |]; [|intros; by apply sim_slot_at|intros; by apply sim_balance_at].
  unfold mret, M_ret. do 2 f_equal. rewrite <-(sim_balance_at s s' a S'). unfold balance_at. by rewrite <-Hr.
Qed.

(** One account of the cache replaced: the others mean the same *)
Lemma set_slot_at s a y b k :
  slot_at (set_cache (<[a := y]> (m_cache s)) s) b k = if decide (b = a) then slot y k else slot_at s b k.
Proof. unfold slot_at. rewrite acct_set. by case_decide. Qed.

Lemma set_balance_at s a y b :
  balance_at (set_cache (<[a := y]> (m_cache s)) s) b
  = if decide (b = a) then m_balance y else balance_at s b.
Proof. unfold balance_at. rewrite acct_set. by case_decide. Qed.

Lemma setStorage_result s a x k v :
  ledger_ok s -> acct s a = Some x -> ~ unsettled x -> is_u256 k -> is_u256 v -> exists s',
  setStorage a k v s = (s', inl tt) /\ ledger_ok s' /\
  (forall b k', slot_at s' b k' = if decide (b = a /\ k' = k) then v else slot_at s b k') /\
  (forall b, balance_at s' b = balance_at s b).
Proof.
  intros Ok Hx Hu Hk Hv. pose proof (ok_wf s Ok) as W.
  pose proof (undoable_setStorage s a x k v W Hx Hu Hk Hv) as [W' _].
  destruct (storage_ok s a k W Hk) as (s1 & E & W1 & S1 & C). destruct (C x Hx) as (y & Hy & Ey).
  assert (R : setStorage a k v s = (set_cache (<[a := account_setStorage k v y]> (m_cache s1))
                (log (ChStorage a k (slot_at s a k)) s1), inl tt)).
  { unfold setStorage. rewrite (bind_inl _ _ _ _ _ E). unfold mbind, M_bind, update_st; cbn.
    by rewrite (upd_cache_set _ a y). }
  rewrite R in W'. cbn [fst] in W'. eexists. split; [exact R|].
  destruct (sim_ok s s1 Ok W1 S1) as [_ N1 (z & Hz & Hzu)]. split_and!.
  - split; [done|exact N1|].
    destruct (decide (VoteInfoAddress = a)) as [<-|Hn].
    + eexists. split; [by rewrite (acct_set (log _ s1)), decide_True|]. by intros [Hd _].
    + exists z. split; [|done]. rewrite (acct_set (log _ s1)), decide_False by done. exact Hz.
  - intros b k'. rewrite (set_slot_at (log _ s1)). destruct (decide (b = a)) as [->|Hn].
    + rewrite slot_setStorage. destruct (decide (k' = k)) as [->|Hk'].
      * by rewrite decide_True.
      * rewrite decide_False by (by intros []). unfold slot_at. rewrite Hx.
        symmetry. apply (eq_slot _ _ _ (proj1 Ey)).
    + rewrite decide_False by (by intros []). by apply (sim_slot_at s s1).
  - intros b. rewrite (set_balance_at (log _ s1)). case_decide as E'; [|by apply (sim_balance_at s s1)].
    rewrite E'. unfold balance_at. rewrite Hx. symmetry. apply (eq_balance _ _ _ (proj1 Ey)).
Qed.

(** ** Balances *)

(** The account at [a] has [v] more, all others mean the same *)
Definition credited (s : State) (a v : Z) (s' : State) : Prop :=
  m_accountStartNonce s' = m_accountStartNonce s /\
  (exists y, acct s' a = Some y /\ isDirty y /\ m_balance y = u256 (balance_at s a + v) /\
     forall k, slot y k = slot_at s a k) /\
  (forall b, b <> a -> option_Forall2 (same_acc (m_db s)) (acct s b) (acct s' b)).

(** [credited] is about the nonce and the accounts only *)
Lemma credited_frame s a v t t' :
  m_accountStartNonce t' = m_accountStartNonce t -> (forall b, acct t' b = acct t b) ->
  credited s a v t -> credited s a v t'.
Proof.
  intros En Ea (N & (y & Hy) & O). split_and!; [by rewrite En|exists y; by rewrite Ea|].
  intros b Hb. rewrite Ea. by apply O.
Qed.

Lemma credited_set s s1 a v y :
  sim s s1 -> isDirty y -> m_balance y = u256 (balance_at s a + v) ->
  (forall k, slot y k = slot_at s a k) ->
  credited s a v (set_cache (<[a := y]> (m_cache s1)) s1).
Proof.
  intros [F A] Dy By Sy. split_and!.
  - by destruct F as (_ & _ & _ & ? & _).
  - exists y. by rewrite acct_set, decide_True.
  - intros b Hb. rewrite acct_set, decide_False by done. apply A.
Qed.

Lemma addBalance_credited s a v :
  wf s -> m_accountStartNonce s <> Invalid256 -> is_u256 v -> exists s',
  addBalance a v s = (s', inl tt) /\ credited s a v s'.
Proof.
  intros W N Hv. unfold addBalance, account, mbind, M_bind.
  destruct (find_account a s) as [s1 r] eqn:E.
  destruct (find_account_ok s a s1 r W E) as (W1 & S1 & Hr & Hc).
  pose proof (sim_balance_at s s1 a S1) as B1. pose proof (fun k => sim_slot_at s s1 a k S1) as L1.
  unfold balance_at at 1 in B1. unfold slot_at at 1 in L1. rewrite <-Hr in B1, L1.
  destruct r as [x|].
  - assert (C : credited s a v (set_cache (<[a := account_addBalance v x]> (m_cache s1)) s1)).
    { apply credited_set; [done|done| |exact L1]. cbn. by rewrite B1. }
    destruct (negb (isDirty x) && isEmpty x); cbn; case_decide; eexists; (split; [reflexivity|]);
      (eapply credited_frame; [| |exact C]); unfold upd_account; cbn;
      try done; intros b; unfold acct; cbn; by rewrite (alter_alt_Some _ _ _ x).
  - unfold requireAccountStartNonce, mbind, M_bind. cbn.
    rewrite decide_False by (by destruct S1 as [(_ & _ & _ & <- & _) _]). cbn.
    assert (C : credited s a v (set_cache (<[a := new_account (m_accountStartNonce s1) v]> (m_cache s1)) s1)).
    { apply credited_set; [done|done| |exact L1]. cbn. rewrite <-B1. unfold u256. by rewrite Z.mod_small. }
    case_decide; eexists; (split; [reflexivity|]); by eapply credited_frame; [| |exact C].
Qed.

Lemma addBalance_result s a v :
  ledger_ok s -> is_u256 v -> exists s', addBalance a v s = (s', inl tt) /\ ledger_ok s' /\
  (forall b k', slot_at s' b k' = slot_at s b k') /\
  (forall b, balance_at s' b = if decide (b = a) then u256 (balance_at s a + v) else balance_at s b).
Proof.
  intros Ok Hv. destruct Ok as [W N (z & Hz & Hu)] eqn:EOk.
  destruct (addBalance_credited s a v W N Hv) as (s' & R & N' & (y & Hy & Dy & By & Sy) & O).
  exists s'. split; [done|]. pose proof (undoable_addBalance s a v W Hv) as [W' _]. rewrite R in W'.
  assert (Ob : forall b, b <> a -> balance_at s' b = balance_at s b /\ forall k, slot_at s' b k = slot_at s b k).
  { intros b Hb. pose proof (O b Hb) as A. unfold balance_at, slot_at. by destruct A as [p q [[] _]|]. }
  split_and!.
  - split; [done|by rewrite N'|]. destruct (decide (VoteInfoAddress = a)) as [E|Hn].
    + exists y. rewrite E. split; [done|]. by intros [? _].
    + pose proof (O _ Hn) as A. rewrite Hz in A. apply option_Forall2_Some in A as (q & Hq & Eq).
      exists q. split; [done|]. by eapply same_acc_unsettled.
  - intros b k. destruct (decide (b = a)) as [->|Hn]; [unfold slot_at; rewrite Hy; apply Sy|by apply Ob].
  - intros b. case_decide as E; [rewrite E; unfold balance_at at 1; by rewrite Hy|by apply Ob].
Qed.

Lemma balance_range s a : wf s -> is_u256 (balance_at s a).
Proof.
  intros W. unfold balance_at. destruct (acct s a) as [x|] eqn:E; [by apply (wf_accounts s W a)|].
  by apply is_word_0.
Qed.

Lemma subBalance_result s a v :
  ledger_ok s -> 0 <= v <= balance_at s a -> exists s', subBalance a v s = (s', inl tt) /\ ledger_ok s' /\
  (forall b k', slot_at s' b k' = slot_at s b k') /\
  (forall b, balance_at s' b = if decide (b = a) then balance_at s a - v else balance_at s b).
Proof.
  intros Ok Hv. pose proof (balance_range s a (ok_wf s Ok)) as Hb. unfold subBalance.
  case_decide as Ev.
  { exists s. split_and!; [done..|]. intros b. case_decide as E; [rewrite E; lia|done]. }
  unfold account, mbind, M_bind. destruct (find_account a s) as [s1 r] eqn:E.
  destruct (find_account_ok s a s1 r (ok_wf s Ok) E) as (W1 & S1 & Hr & _).
  pose proof (sim_balance_at s s1 a S1) as B1. unfold balance_at at 1 in B1. rewrite <-Hr in B1.
  destruct r as [x|]; [|lia]. rewrite decide_False by lia.
  pose proof (sim_ok s s1 Ok W1 S1) as Ok1.
  destruct (addBalance_result s1 a (u256 (0 - v)) Ok1 (u256_range _)) as (s' & R & Ok' & Sl & Ba).
  exists s'. split_and!; [done..| |].
  - intros b k. by rewrite Sl, (sim_slot_at s s1).
  - intros b. rewrite Ba, !(sim_balance_at s s1) by done. case_decide; [|done]. unfold u256.
    unfold is_word in Hb.
    rewrite Zplus_mod_idemp_r. rewrite Z.mod_small by lia. lia.
Qed.

(** ** The storage map *)

(** The entries of a map keyed by the hashes of keys *)
Definition hashed (f : Z -> option Z) (m : gmap Z (Z * Z)) : Prop :=
  (forall k, is_u256 k -> m !! hashedKey k = (fun v => (k, v)) <$> f k) /\
  (forall h k v, m !! h = Some (k, v) -> h = hashedKey k /\ is_u256 k).

Context `{!KeyHashInj}.

Lemma hashed_insert f m k v :
  is_u256 k -> hashed f m ->
  hashed (fun k' => if decide (k' = k) then Some v else f k') (<[hashedKey k := (k, v)]> m).
Proof.
  intros Hk [L R]. split.
  - intros k' Hk'. destruct (decide (k' = k)) as [->|Hn].
    + by rewrite lookup_insert_eq.
    + rewrite lookup_insert_ne; [by apply L|]. intros E. apply Hn. symmetry. by apply hashedKey_inj.
  - intros h k' v'. rewrite lookup_insert_Some. intros [[<- [= <- <-]]|[_ E]]; [done|by eapply R].
Qed.

Lemma hashed_delete f m k :
  is_u256 k -> hashed f m ->
  hashed (fun k' => if decide (k' = k) then None else f k') (delete (hashedKey k) m).
Proof.
  intros Hk [L R]. split.
  - intros k' Hk'. destruct (decide (k' = k)) as [->|Hn].
    + by rewrite lookup_delete_eq.
    + rewrite lookup_delete_ne; [by apply L|]. intros E. apply Hn. symmetry. by apply hashedKey_inj.
  - intros h k' v' [_ E]%lookup_delete_Some. by eapply R.
Qed.

Lemma hashed_ext f g m : (forall k, is_u256 k -> f k = g k) -> hashed f m -> hashed g m.
Proof. intros E [L R]. split; [|done]. intros k Hk. by rewrite <-E, L. Qed.

Lemma hashed_root (r : gmap Z Z) :
  (forall k v, r !! k = Some v -> is_u256 k) ->
  hashed (fun k => r !! k) (map_fold (fun k v ret => <[hashedKey k := (k, v)]> ret) ∅ r).
Proof.
  apply (map_fold_weak_ind (fun m r => (forall k v, r !! k = Some v -> is_u256 k) -> hashed (fun k => r !! k) m)).
  - intros _. split; [intros k _; by rewrite !lookup_empty|]. intros h k v. by rewrite lookup_empty.
  - intros k v r' m Hk IH Hr. eapply hashed_ext; [|apply hashed_insert; [|apply IH]].
    + intros k' _. cbn. destruct (decide (k' = k)) as [->|Hn]; [by rewrite lookup_insert_eq|by rewrite lookup_insert_ne].
    + apply (Hr k v), lookup_insert_eq.
    + intros k' v' E. apply (Hr k' v'). rewrite lookup_insert_ne; [done|]. intros ->. congruence.
Qed.

Lemma hashed_overlay (o : gmap Z Z) f m :
  (forall k v, o !! k = Some v -> is_u256 k) -> hashed f m ->
  hashed (fun k => match o !! k with Some v => if decide (v = 0) then None else Some v | None => f k end)
    (map_fold (fun k v ret => if decide (v = 0) then delete (hashedKey k) ret
                              else <[hashedKey k := (k, v)]> ret) m o).
Proof.
  intros Ho Hm. revert Ho.
  apply (map_fold_weak_ind (fun m o => (forall k v, o !! k = Some v -> is_u256 k) ->
     hashed (fun k => match o !! k with Some v => if decide (v = 0) then None else Some v | None => f k end) m)).
  { intros _. eapply hashed_ext; [|exact Hm]. intros k _. by rewrite lookup_empty. }
  intros k v o' m' Hk IH Ho.
  assert (Uk : is_u256 k) by apply (Ho k v), lookup_insert_eq.
  assert (IH' : hashed (fun k => match o' !! k with Some v => if decide (v = 0) then None else Some v | None => f k end) m').
  { apply IH. intros k' v' E. apply (Ho k' v'). rewrite lookup_insert_ne; [done|]. intros ->. congruence. }
  case_decide as Ev.
  - eapply hashed_ext; [|exact (hashed_delete _ _ k Uk IH')]. intros k' _. cbn.
    destruct (decide (k' = k)) as [->|Hn]; [rewrite lookup_insert_eq; by rewrite decide_True|by rewrite lookup_insert_ne].
  - eapply hashed_ext; [|exact (hashed_insert _ _ k v Uk IH')]. intros k' _. cbn.
    destruct (decide (k' = k)) as [->|Hn]; [rewrite lookup_insert_eq; by rewrite decide_False|by rewrite lookup_insert_ne].
Qed.

Lemma storage_map_result s a :
  ledger_ok s -> exists s' m, storage_map a s = (s', inl m) /\ ledger_ok s' /\
    (forall b k', slot_at s' b k' = slot_at s b k') /\ (forall b, balance_at s' b = balance_at s b) /\
    hashed (fun k => if decide (slot_at s a k = 0) then None else Some (slot_at s a k)) m.
Proof.
  intros Ok. unfold storage_map, query, account, mbind, M_bind.
  destruct (find_account a s) as [s' r] eqn:E.
  destruct (find_account_ok s a s' r (ok_wf s Ok) E) as (W' & S' & Hr & _).
  eexists s', _. split_and!; [reflexivity|by eapply sim_ok|intros; by apply sim_slot_at|intros; by apply sim_balance_at|].
  pose proof (fun k => sim_slot_at s s' a k S') as L. unfold slot_at at 1 in L. rewrite <-Hr in L.
  destruct r as [x|].
  - assert (Wx : wf_acc (m_db s') x) by by apply (wf_accounts s' W' a).
    eapply hashed_ext; [|apply hashed_overlay; [|apply hashed_root]].
    + intros k _. cbn. rewrite <-L. unfold slot.
      destruct (m_storageOverlay x !! k) as [v|]; [done|].
      pose proof (wf_root _ _ Wx k) as Hz. destruct (m_storageRoot x !! k) as [v|]; [|done]. cbn.
      case_decide; [congruence|done].
    + intros k v Hk. by apply (wf_u256 _ _ Wx k v); right.
    + intros k v Hk. by apply (wf_u256 _ _ Wx k v); left.
  - split; [|intros h k v; by rewrite lookup_empty]. intros k _. by rewrite lookup_empty, <-L.
Qed.

#[export] Program Instance State_laws : LedgerLaws State := {|
  lg_ok := ledger_ok;
  slots := fun s => slot_at s VoteInfoAddress;
  balances := balance_at
|}.
Next Obligation.
  intros s k Ok. unfold slot_at. destruct (acct s VoteInfoAddress) as [x|] eqn:E; [|by apply is_word_0].
  eapply wf_slot. by eapply (wf_accounts s (ok_wf s Ok)).
Qed.
Next Obligation. intros s a Ok. apply balance_range, Ok. Qed.
Next Obligation.
  intros s k Ok Hk. destruct (storage_result s VoteInfoAddress k Ok Hk) as (s' & ? & ? & Sl & ?). by exists s'.
Qed.
Next Obligation.
  intros s Ok. destruct (storage_map_result s VoteInfoAddress Ok) as (s' & m & ? & ? & Sl & ? & [L R]).
  exists s', m. split_and!; [done|done|by intros|done| |].
  - intros k v Hk. specialize (L k Hk). split.
    + intros [h Hh]. destruct (R h k v Hh) as [-> _]. rewrite Hh in L. case_decide; [done|].
      by injection L as ->.
    + intros [<- Hv]. exists (hashedKey k). by rewrite L, decide_False.
  - intros h k v Hh. by destruct (R h k v Hh).
Qed.
Next Obligation.
  intros s k v Ok Hk Hv. destruct (ok_votes s Ok) as (x & Hx & Hu).
  destruct (setStorage_result s VoteInfoAddress x k v Ok Hx Hu Hk Hv) as (s' & ? & ? & Sl & ?).
  exists s'. split_and!; [done|done| |done]. intros k'. rewrite Sl. by repeat case_decide; naive_solver.
Qed.
Next Obligation.
  intros s a Ok. destruct (balance_result s a Ok) as (s' & ? & ? & Sl & ?). by exists s'.
Qed.
Next Obligation.
  intros s a v Ok Hv. destruct (addBalance_result s a v Ok Hv) as (s' & ? & ? & Sl & ?). by exists s'.
Qed.
Next Obligation.
  intros s a v Ok Hv. destruct (subBalance_result s a v Ok Hv) as (s' & ? & ? & Sl & ?). by exists s'.
Qed.
End Laws.
