(* ===== verification/Vote.v ===== *)
(** * libethereum/Vote.cpp: mortgage, votes and candidates

    The record of an account is serialized into pages of 32 bytes in the storage of
    VoteInfoAddress.  The functions are written over the interface [Ledger].  [bytes], strings
    and the data of an [h256] are lists of bytes; an Address is its 160-bit number and its memory
    the 20 bytes, most significant first; a uint64_t in memory has its least significant byte
    first.  A std::map is a finite map, walked in the order of its keys.  A memcpy that leaves
    its buffer is the exception [undefined_behaviour].  [assert] has no effect. *)

From stdpp Require Import gmap sorting.
From S2P Require Import Prelude Words Exn Chainbase Ledger.

#[local] Open Scope Z_scope.

Definition VOTES_PRE_ETH : Z := 10000000000000000.
Definition U256Length : nat := 32.
Definition AddressLength : nat := 20.
Definition NameMaxSize : nat := 40.
Definition URLMaxSize : nat := 120.
Definition NameMinSize : nat := 1.
Definition URLMinSize : nat := 5.
Definition BasicSize : nat := 2 * 1 + 2 * 8 + NameMaxSize + URLMaxSize.

(** boost::lexical_cast<uint64_t>, which throws when the text is not a number that fits *)
Class Boost := {
  lexical_cast : list Z -> option Z;
  lexical_cast_range : forall t n, lexical_cast t = Some n -> is_word 64 n
}.

Record VoteInfo := mkVoteInfo {
  m_address : Z;
  m_isCandidate : bool;
  m_receivedVote : Z;
  m_name : list Z;
  m_url : list Z;
  m_holdVotes : Z;
  m_voteRecord : gmap Z Z
}.

Definition set_isCandidate b (v : VoteInfo) :=
  mkVoteInfo (m_address v) b (m_receivedVote v) (m_name v) (m_url v) (m_holdVotes v) (m_voteRecord v).
Definition set_receivedVote n (v : VoteInfo) :=
  mkVoteInfo (m_address v) (m_isCandidate v) n (m_name v) (m_url v) (m_holdVotes v) (m_voteRecord v).
Definition set_names name url (v : VoteInfo) :=
  mkVoteInfo (m_address v) (m_isCandidate v) (m_receivedVote v) name url (m_holdVotes v) (m_voteRecord v).
Definition set_holdVotes n (v : VoteInfo) :=
  mkVoteInfo (m_address v) (m_isCandidate v) (m_receivedVote v) (m_name v) (m_url v) n (m_voteRecord v).
Definition set_voteRecord r (v : VoteInfo) :=
  mkVoteInfo (m_address v) (m_isCandidate v) (m_receivedVote v) (m_name v) (m_url v) (m_holdVotes v) r.

(** ** UserStorage *)

Definition addressToU256 (address : Z) (postfix : nat) : Z :=
  ((address .<< 96) + Z.of_nat postfix) mod 2 ^ 256.

Definition page_count (size : nat) : nat := (size + 31) / 32.

(** ** Serialization *)

(** strnlen *)
Fixpoint strnlen (l : list Z) (n : nat) : nat :=
  match n, l with
  | S n, b :: l => if decide (b = 0) then O else S (strnlen l n)
  | _, _ => O
  end.

(** memcpy to an offset of a vector *)
Definition memcpy_to (buf : list Z) (off : nat) (src : list Z) : option (list Z) :=
  if decide (off + length src <= length buf)%nat then Some (blit buf off src) else None.

Definition info_size (voteToNum : Z) : nat := Z.to_nat voteToNum * (20 + 8) + BasicSize.

Definition removeZeroVote (v : VoteInfo) : VoteInfo :=
  set_voteRecord (filter (fun p => p.2 <> 0) (m_voteRecord v)) v.

(** The loop over m_voteRecord *)
Fixpoint write_records (rs : list (Z * Z)) (off : nat) (buf : list Z) : option (list Z) :=
  match rs with
  | [] => Some buf
  | (to, n) :: rs =>
      buf ← memcpy_to buf off (be_to_bytes 20 to);
      buf ← memcpy_to buf (off + 20) (le_to_bytes 8 n);
      write_records rs (off + 28) buf
  end.

(** The bytes that save writes, after removeZeroVote *)
Definition toBytes (v : VoteInfo) : option (list Z) :=
  let voteToNum := u8 (Z.of_nat (size (m_voteRecord v))) in
  let buf := replicate (info_size voteToNum) 0 in
  buf ← memcpy_to buf 0 [voteToNum];
  buf ← memcpy_to buf 1 [if m_isCandidate v then 1 else 0];
  buf ← memcpy_to buf 2 (le_to_bytes 8 (m_holdVotes v));
  buf ← memcpy_to buf 10 (le_to_bytes 8 (m_receivedVote v));
  buf ← memcpy_to buf 18 (m_name v);
  buf ← memcpy_to buf (18 + NameMaxSize) (m_url v);
  write_records (items (m_voteRecord v)) BasicSize buf.

(** The loop of initFromBytes; emplace keeps a key that is there *)
Fixpoint read_records (n : nat) (off : nat) (b : list Z) (r : gmap Z Z) : gmap Z Z :=
  match n with
  | O => r
  | S n =>
      let to := be_of_bytes (sub b off 20) in
      let number := le_of_bytes (sub b (off + 20) 8) in
      read_records n (off + 28) b (match r !! to with Some _ => r | None => <[to := number]> r end)
  end.

Definition initFromBytes (address : Z) (b : list Z) : VoteInfo :=
  let voteToNum := b !!! 0%nat in
  mkVoteInfo address
    (bool_decide (b !!! 1%nat <> 0))
    (le_of_bytes (sub b 10 8))
    (sub b 18 (strnlen (drop 18 b) NameMaxSize))
    (sub b (18 + NameMaxSize) (strnlen (drop (18 + NameMaxSize) b) URLMaxSize))
    (le_of_bytes (sub b 2 8))
    (read_records (Z.to_nat voteToNum) BasicSize b ∅).

Section Votes.
Context {S : Type} `{!Ledger S} `{!Boost}.

(** Pages from [i] on; the last one is cut to the size *)
Fixpoint LoadPages (keyaddress : Z) (size : nat) (pages : list nat) : M S (list Z) :=
  match pages with
  | [] => mret []
  | i :: pages =>
      value ← lg_storage VoteInfoAddress (addressToU256 keyaddress i);
      rest ← LoadPages keyaddress size pages;
      mret ((if decide (i = page_count size - 1)%nat
             then take (size - i * 32) (be_to_bytes 32 value)
             else be_to_bytes 32 value) ++ rest)
  end.

Definition LoadFixedSizeBtyes (keyaddress : Z) (size startPage : nat) : M S (list Z) :=
  LoadPages keyaddress size (seq startPage (page_count size - startPage)).

Definition SaveBytes (keyaddress : Z) (data : list Z) : M S unit :=
  for_each (fun i =>
    let page := take U256Length (drop (i * U256Length) data) in
    let value := be_of_bytes (page ++ replicate (U256Length - length page) 0) in
    lg_setStorage VoteInfoAddress (addressToU256 keyaddress i) value)
  (seq 0 ((length data + U256Length - 1) / U256Length)).

(** ** VoteInfo *)

(** The bytes of a record whose first page is [value] *)
Definition load_rest (address value : Z) : M S (list Z) :=
  let data := be_to_bytes 32 value in
  let size := info_size (data !!! 0%nat) in
  if decide (U256Length < size)%nat then
    rest ← LoadFixedSizeBtyes address size 1;
    mret (data ++ rest)
  else mret (take size data).

Definition load (address : Z) : M S VoteInfo :=
  value ← lg_storage VoteInfoAddress (addressToU256 address 0);
  data ← load_rest address value;
  mret (initFromBytes address data).

Definition save (v : VoteInfo) : M S unit :=
  match toBytes (removeZeroVote v) with
  | None => throw undefined_behaviour
  | Some valueBytes => SaveBytes (m_address v) valueBytes
  end.

(** The walk over the storage map: the keys of first pages *)
Fixpoint collect_infos (ps : list (Z * Z)) (m : gmap Z VoteInfo) : M S (gmap Z VoteInfo) :=
  match ps with
  | [] => mret m
  | (key, value) :: ps =>
      let keyh256 := be_to_bytes 32 key in
      if decide (Forall (fun b => b = 0) (drop AddressLength keyh256)) then
        let address := be_of_bytes (take AddressLength keyh256) in
        data ← load_rest address value;
        collect_infos ps (<[address := initFromBytes address data]> m)
      else collect_infos ps m
  end.

Definition getVoteInfoMap : M S (gmap Z VoteInfo) :=
  storageMap ← lg_storage_map VoteInfoAddress;
  collect_infos (snd <$> items storageMap) ∅.

Definition mask : Z := 0xffffffffffffffffffffffff.

Definition producers_of (ps : list (Z * Z)) : gmap Z Z :=
  foldl (fun res '(key, value) =>
    if decide (mask .& key = 0) then
      let address := be_of_bytes (take AddressLength (be_to_bytes 32 key)) in
      let v := be_to_bytes 32 value in
      if decide (v !!! 1%nat <> 0) then <[address := le_of_bytes (sub v 10 8)]> res else res
    else res) ∅ ps.

Definition getProducerMap : M S (gmap Z Z) :=
  storageMap ← lg_storage_map VoteInfoAddress;
  mret (producers_of (snd <$> items storageMap)).

Definition recordVoteTo (address num : Z) (v : VoteInfo) : VoteInfo :=
  match m_voteRecord v !! address with
  | Some n => set_voteRecord (<[address := u64 (n + num)]> (m_voteRecord v)) v
  | None => set_voteRecord (<[address := num]> (m_voteRecord v)) v
  end.

(** ** VoteManager *)

Definition candidateRegister (name url : list Z) (address : Z) : M S bool :=
  sender ← load address;
  if m_isCandidate sender then mret false
  else
    save (set_isCandidate true (set_names name url sender));;
    mret true.

(** [m_voteRecord[_address]] makes an entry of 0 when there is none *)
Definition release_votes (address : Z) (v : VoteInfo) : VoteInfo :=
  let n := default 0 (m_voteRecord v !! address) in
  set_voteRecord (<[address := 0]> (m_voteRecord v)) (set_holdVotes (u64 (m_holdVotes v + n)) v).

Definition candidateDeregister (address : Z) : M S bool :=
  sender ← load address;
  if negb (m_isCandidate sender) then mret false
  else
    infoMap ← getVoteInfoMap;
    for_each (fun p => save (release_votes address p.2)) (items infoMap);;
    sender ← load address;
    save (set_names [] [] (set_receivedVote 0 (set_isCandidate false sender)));;
    mret true.

Definition mortgage (money address : Z) : M S bool :=
  b ← lg_balance address;
  if decide (money <= b) then
    sender ← load address;
    let voteNumber := money / VOTES_PRE_ETH in
    let validMoney := u64 (voteNumber * VOTES_PRE_ETH) in
    lg_subBalance address validMoney;;
    save (set_holdVotes (u64 (m_holdVotes sender + voteNumber)) sender);;
    mret true
  else mret true.

Definition redeem (votes address : Z) : M S bool :=
  sender ← load address;
  if decide (votes <= m_holdVotes sender) then
    lg_addBalance address (u64 (votes * VOTES_PRE_ETH));;
    save (set_holdVotes (u64 (m_holdVotes sender - votes)) sender);;
    mret true
  else mret true.

Definition send (toAddress votes senderAddress : Z) : M S bool :=
  if decide (toAddress = senderAddress) then mret true
  else
    sender ← load senderAddress;
    if decide (m_holdVotes sender < votes) then mret false
    else
      to ← load toAddress;
      save (set_holdVotes (u64 (m_holdVotes sender - votes)) sender);;
      save (set_holdVotes (u64 (m_holdVotes to + votes)) to);;
      mret true.

Definition vote (toAddress votes senderAddress : Z) : M S bool :=
  sender ← load senderAddress;
  if decide (m_holdVotes sender < votes) then mret false
  else if decide (15 <= size (m_voteRecord sender) /\ m_voteRecord sender !! toAddress = None)%nat
  then mret false
  else
    let finish sender :=
      save (recordVoteTo toAddress votes (set_holdVotes (u64 (m_holdVotes sender - votes)) sender));;
      mret true in
    if decide (toAddress = senderAddress) then
      if negb (m_isCandidate sender) then mret false
      else finish (set_receivedVote (u64 (m_receivedVote sender + votes)) sender)
    else
      to ← load toAddress;
      if negb (m_isCandidate to) then mret false
      else
        save (set_receivedVote (u64 (m_receivedVote to + votes)) to);;
        finish sender.

Definition removeVote (toAddress votes senderAddress : Z) : M S bool :=
  sender ← load senderAddress;
  match m_voteRecord sender !! toAddress with
  | None => mret false
  | Some n =>
      if decide (n < votes) then mret false
      else
        let finish sender :=
          save (set_voteRecord (<[toAddress := u64 (n - votes)]> (m_voteRecord sender))
                  (set_holdVotes (u64 (m_holdVotes sender + votes)) sender));;
          mret true in
        if decide (toAddress = senderAddress) then
          if negb (m_isCandidate sender) then mret false
          else finish (set_receivedVote (u64 (m_receivedVote sender - votes)) sender)
        else
          to ← load toAddress;
          if negb (m_isCandidate to) then mret false
          else
            save (set_receivedVote (u64 (m_receivedVote to - votes)) to);;
            finish sender
  end.

(** ** The precompiled contracts; each returns (true, {}) *)

Definition cast_number (text : list Z) : M S Z :=
  match lexical_cast text with Some n => mret n | None => throw bad_lexical_cast end.

(** The address at the front of the input *)
Definition input_address (input : list Z) : M S Z :=
  if decide (length input < AddressLength)%nat then throw undefined_behaviour
  else mret (be_of_bytes (take AddressLength input)).

Definition pre_mortgage (input : list Z) (address : Z) : M S unit :=
  n ← cast_number input; mortgage n address;; mret tt.

Definition pre_redeem (input : list Z) (address : Z) : M S unit :=
  n ← cast_number input; redeem n address;; mret tt.

Definition pre_candidateRegister (input : list Z) (address : Z) : M S unit :=
  if decide (length input < NameMinSize + URLMinSize + 1
             \/ NameMaxSize + URLMaxSize + 1 < length input)%nat then mret tt
  else match list_find (fun b => b = 0) input with
  | None => mret tt
  | Some (pos, _) =>
      let nameLen := pos in
      let urlLen := (length input - pos - 1)%nat in
      if decide (NameMaxSize < nameLen \/ nameLen < NameMinSize \/
                 URLMaxSize < urlLen \/ urlLen < URLMinSize)%nat then mret tt
      else
        candidateRegister (take nameLen input) (sub input (pos + 1) urlLen) address;;
        mret tt
  end.

Definition pre_candidateDeregister (input : list Z) (address : Z) : M S unit :=
  candidateDeregister address;; mret tt.

Definition pre_vote (input : list Z) (address : Z) : M S unit :=
  to ← input_address input;
  n ← cast_number (drop AddressLength input);
  vote to n address;; mret tt.

Definition pre_removeVote (input : list Z) (address : Z) : M S unit :=
  to ← input_address input;
  n ← cast_number (drop AddressLength input);
  removeVote to n address;; mret tt.

Definition pre_send (input : list Z) (address : Z) : M S unit :=
  to ← input_address input;
  n ← cast_number (drop AddressLength input);
  send to n address;; mret tt.
End Votes.
