(* ===== verification/VoteCodec.v ===== *)
(** * Serialized vote records

    The layout of a record in closed form, and that initFromBytes reads back what save writes. *)

From stdpp Require Import gmap sorting.
From S2P Require Import Prelude Words Exn Chainbase Ledger Vote.

#[local] Open Scope Z_scope.

Definition pad (n : nat) (l : list Z) : list Z := l ++ replicate (n - length l) 0.

Definition encode_record (p : Z * Z) : list Z := be_to_bytes 20 p.1 ++ le_to_bytes 8 p.2.

Fixpoint encode_records (rs : list (Z * Z)) : list Z :=
  match rs with
  | [] => []
  | p :: rs => encode_record p ++ encode_records rs
  end.

Definition encode (v : VoteInfo) : list Z :=
  [Z.of_nat (size (m_voteRecord v)); if m_isCandidate v then 1 else 0]
  ++ le_to_bytes 8 (m_holdVotes v) ++ le_to_bytes 8 (m_receivedVote v)
  ++ pad NameMaxSize (m_name v) ++ pad URLMaxSize (m_url v)
  ++ encode_records (items (m_voteRecord v)).

(** A C string is read up to its first zero *)
Fixpoint cstr (l : list Z) : list Z :=
  match l with
  | [] => []
  | b :: l => if decide (b = 0) then [] else b :: cstr l
  end.

(** What a record can hold *)
Record wf_info (v : VoteInfo) : Prop := {
  wf_received : is_word 64 (m_receivedVote v);
  wf_hold : is_word 64 (m_holdVotes v);
  wf_name : (length (m_name v) <= NameMaxSize)%nat /\ Forall is_byte (m_name v);
  wf_url : (length (m_url v) <= URLMaxSize)%nat /\ Forall is_byte (m_url v);
  wf_records : (size (m_voteRecord v) < 256)%nat;
  wf_record : forall a n, m_voteRecord v !! a = Some n -> is_word 160 a /\ is_word 64 n
}.

Lemma length_padded n l : (length l <= n)%nat -> length (pad n l) = n.
Proof. intros. unfold pad. simpl_len. lia. Qed.

Lemma length_encode_record p : length (encode_record p) = 28%nat.
Proof. unfold encode_record. by rewrite length_app, length_be_to_bytes, length_le_to_bytes. Qed.

Lemma length_records rs : length (encode_records rs) = (28 * length rs)%nat.
Proof.
  induction rs as [|p rs IH]; [done|]. cbn [encode_records].
  rewrite length_app, length_encode_record, IH. cbn [length]. lia.
Qed.

Lemma length_items {V} (m : gmap Z V) : length (items m) = size m.
Proof. rewrite items_perm. apply length_map_to_list. Qed.

Lemma items_to_map {V} (m : gmap Z V) : list_to_map (items m) = m.
Proof.
  rewrite (list_to_map_proper (items m) (map_to_list m)), list_to_map_to_list; [done| |apply items_perm].
  rewrite items_perm. apply NoDup_fst_map_to_list.
Qed.

Lemma NoDup_items {V} (m : gmap Z V) : NoDup (items m).*1.
Proof. rewrite items_perm. apply NoDup_fst_map_to_list. Qed.

Lemma length_encode v : wf_info v -> length (encode v) = info_size (Z.of_nat (size (m_voteRecord v))).
Proof.
  intros []. unfold encode, info_size, BasicSize.
  rewrite !length_app, !length_le_to_bytes, !length_padded, length_records, length_items by tauto.
  cbn [length]. unfold NameMaxSize, URLMaxSize. lia.
Qed.

(** ** Writing *)

(** A copy to the end of what was written *)
Lemma memcpy_append p m off src :
  off = length p -> (length src <= m)%nat ->
  memcpy_to (p ++ replicate m 0) off src = Some ((p ++ src) ++ replicate (m - length src) 0).
Proof.
  intros -> Hl. unfold memcpy_to. rewrite decide_True by (simpl_len; lia). f_equal.
  rewrite (blit_app p (replicate m 0)) by (simpl_len; lia). rewrite drop_replicate. by rewrite app_assoc.
Qed.

Lemma write_records_spec rs p off :
  off = length p ->
  write_records rs off (p ++ replicate (28 * length rs) 0) = Some (p ++ encode_records rs).
Proof.
  revert p off. induction rs as [|[to n] rs IH]; intros p off ->; [done|]. cbn [write_records].
  rewrite memcpy_append by (rewrite ?length_be_to_bytes; cbn [length]; lia).
  rewrite length_be_to_bytes. cbn [mbind option_bind].
  rewrite memcpy_append by (rewrite ?length_app, ?length_be_to_bytes, ?length_le_to_bytes; cbn [length]; lia).
  rewrite length_le_to_bytes. cbn [mbind option_bind].
  replace (28 * length ((to, n) :: rs) - 20 - 8)%nat with (28 * length rs)%nat by (cbn [length]; lia).
  rewrite IH by (rewrite !length_app, length_be_to_bytes, length_le_to_bytes; lia).
  f_equal. cbn [encode_records]. unfold encode_record. by rewrite <-!app_assoc.
Qed.

(** A copy of a string to a field of fixed size *)
Lemma memcpy_field p m n off src :
  off = length p -> (length src <= n <= m)%nat ->
  memcpy_to (p ++ replicate m 0) off src = Some ((p ++ pad n src) ++ replicate (m - n) 0).
Proof.
  intros Ho Hl. rewrite memcpy_append by lia. f_equal. unfold pad. rewrite <-!app_assoc. do 2 f_equal.
  rewrite <-replicate_add. f_equal. lia.
Qed.

(** The lengths of the parts *)
Ltac lens := rewrite ?length_app, ?length_le_to_bytes, ?length_padded by lia; cbn [length]; lia.

Lemma toBytes_encode v : wf_info v -> toBytes v = Some (encode v).
Proof.
  intros W. pose proof W as [_ _ [Hn _] [Hu _] Hs _]. unfold toBytes.
  rewrite u8_id by (unfold is_word; lia). unfold info_size. rewrite Nat2Z.id.
  unfold BasicSize, NameMaxSize, URLMaxSize in *.
  rewrite <-(app_nil_l (replicate _ 0)).
  rewrite memcpy_append by lens. cbn [mbind option_bind].
  rewrite memcpy_append by lens. cbn [mbind option_bind].
  rewrite memcpy_append by lens. cbn [mbind option_bind].
  rewrite memcpy_append by lens. cbn [mbind option_bind].
  rewrite (memcpy_field _ _ 40) by lens. cbn [mbind option_bind].
  rewrite (memcpy_field _ _ 120) by lens. cbn [mbind option_bind].
  match goal with |- write_records _ _ (_ ++ replicate ?m 0) = _ =>
    replace m with (28 * length (items (m_voteRecord v)))%nat
      by (rewrite length_items, !length_le_to_bytes; cbn [length]; lia)
  end.
  rewrite write_records_spec by lens. f_equal. unfold encode. by rewrite <-!app_assoc.
Qed.

(** ** Reading *)

Lemma sub_mid {A} (p x q : list A) off n :
  off = length p -> n = length x -> sub (p ++ x ++ q) off n = x.
Proof. intros -> ->. unfold sub. by rewrite drop_app_length, take_app_length. Qed.

Lemma read_records_spec rs p off b r :
  b = p ++ encode_records rs -> off = length p -> NoDup rs.*1 ->
  (forall a n, (a, n) ∈ rs -> is_word 160 a /\ is_word 64 n /\ r !! a = None) ->
  read_records (length rs) off b r = list_to_map rs ∪ r.
Proof.
  revert p off r. induction rs as [|[to n] rs IH]; intros p off r -> -> Hnd Hrs; cbn [read_records length].
  { cbn. by rewrite map_empty_union. }
  destruct (Hrs to n) as (Hto & Hn & Hr); [by left|].
  cbn [fmap list_fmap] in Hnd. apply list.NoDup_cons in Hnd as [Hin Hnd].
  cbn [encode_records] in *. unfold encode_record in *. cbn [fst snd] in *.
  assert (E1 : sub (p ++ (be_to_bytes 20 to ++ le_to_bytes 8 n) ++ encode_records rs) (length p) 20
               = be_to_bytes 20 to).
  { rewrite <-app_assoc. by apply sub_mid; [|rewrite length_be_to_bytes]. }
  assert (E2 : sub (p ++ (be_to_bytes 20 to ++ le_to_bytes 8 n) ++ encode_records rs) (length p + 20) 8
               = le_to_bytes 8 n).
  { rewrite <-app_assoc, app_assoc. apply sub_mid; [|by rewrite length_le_to_bytes].
    by rewrite length_app, length_be_to_bytes. }
  rewrite E1, E2, be_of_to_bytes_id, le_of_to_bytes_id, Hr by done.
  rewrite (IH (p ++ be_to_bytes 20 to ++ le_to_bytes 8 n)).
  - cbn [list_to_map foldr uncurry]. rewrite <-insert_union_r, insert_union_l; [done|].
    by apply not_elem_of_list_to_map_1.
  - by rewrite <-!app_assoc.
  - rewrite !length_app, length_be_to_bytes, length_le_to_bytes. lia.
  - done.
  - intros a m Ha. destruct (Hrs a m) as (? & ? & ?); [by right|]. split_and!; [done..|].
    rewrite lookup_insert_ne; [done|]. intros ->. apply Hin. apply list_elem_of_fmap. by exists (a, m).
Qed.

Lemma strnlen_pad l n rest : (length l <= n)%nat -> strnlen (pad n l ++ rest) n = length (cstr l).
Proof.
  revert n. induction l as [|b l IH]; intros n Hl; cbn [length] in Hl.
  - unfold pad. cbn [app length]. rewrite Nat.sub_0_r.
    destruct n; [by destruct rest|done].
  - destruct n as [|n]; [lia|]. change (pad (S n) (b :: l) ++ rest) with (b :: (pad n l ++ rest)).
    cbn [strnlen cstr]. case_decide; [done|]. cbn [length]. f_equal. apply IH. lia.
Qed.

Lemma cstr_prefix l : exists q, l = cstr l ++ q.
Proof.
  induction l as [|b l [q IH]]; [by exists []|]. cbn. case_decide; [by exists (b :: l)|].
  exists q. cbn. by f_equal.
Qed.

Lemma sub_cstr p l n rest off :
  off = length p -> (length l <= n)%nat ->
  sub (p ++ pad n l ++ rest) off (strnlen (drop off (p ++ pad n l ++ rest)) n) = cstr l.
Proof.
  intros -> Hl. rewrite drop_app_length, strnlen_pad by done.
  destruct (cstr_prefix l) as [q Hq]. unfold pad. rewrite Hq at 1. rewrite <-!app_assoc.
  by apply sub_mid.
Qed.

(** A record as it is read back *)
Definition stored (v : VoteInfo) : VoteInfo := set_names (cstr (m_name v)) (cstr (m_url v)) v.

Lemma initFromBytes_encode v a : wf_info v -> m_address v = a -> initFromBytes a (encode v) = stored v.
Proof.
  intros [Hr Hh [Hn _] [Hu _] Hs Hrec] <-. unfold initFromBytes, stored, set_names.
  assert (E0 : encode v !!! 0%nat = Z.of_nat (size (m_voteRecord v))) by done.
  assert (E1 : encode v !!! 1%nat = if m_isCandidate v then 1 else 0) by done.
  rewrite E0, E1, Nat2Z.id, <-length_items. unfold encode, BasicSize in *. f_equal.
  - by destruct (m_isCandidate v).
  - rewrite app_assoc, (sub_mid _ (le_to_bytes 8 (m_receivedVote v))) by lens. by apply le_of_to_bytes_id.
  - rewrite !app_assoc, <-(app_assoc _ (pad URLMaxSize _)), <-(app_assoc _ (pad NameMaxSize _)).
    apply sub_cstr; [lens|done].
  - rewrite !app_assoc, <-(app_assoc _ (pad URLMaxSize _)). apply sub_cstr; [lens|done].
  - rewrite (sub_mid _ (le_to_bytes 8 (m_holdVotes v))) by lens. by apply le_of_to_bytes_id.
  - rewrite !app_assoc. erewrite (read_records_spec (items (m_voteRecord v))); [|reflexivity|lens| |].
    + by rewrite items_to_map, map_union_empty.
    + apply NoDup_items.
    + intros b n Hb%elem_of_items. destruct (Hrec b n Hb). split_and!; [done..|apply lookup_empty].
Qed.

(** ** Bytes *)

Lemma padded_bytes n l : Forall is_byte l -> Forall is_byte (pad n l).
Proof.
  intros Hl. apply Forall_app. split; [done|]. apply Forall_replicate. by apply is_word_0.
Qed.

Lemma encode_records_bytes rs : Forall is_byte (encode_records rs).
Proof.
  induction rs as [|p rs IH]; [constructor|]. apply Forall_app. split; [|done].
  apply Forall_app. split; [apply be_to_bytes_bytes|apply le_to_bytes_bytes].
Qed.

Lemma encode_bytes v : wf_info v -> Forall is_byte (encode v).
Proof.
  intros [_ _ [_ Hn] [_ Hu] Hs _]. unfold encode. rewrite !Forall_app. split_and!.
  - repeat constructor; unfold is_word; destruct (m_isCandidate v); lia.
  - apply le_to_bytes_bytes.
  - apply le_to_bytes_bytes.
  - by apply padded_bytes.
  - by apply padded_bytes.
  - apply encode_records_bytes.
Qed.

Lemma wf_info_removeZeroVote v : wf_info v -> wf_info (removeZeroVote v).
Proof.
  intros []. split; try done; cbn.
  - eapply Nat.le_lt_trans; [|exact wf_records0]. apply map_subseteq_size, map_filter_subseteq.
  - intros a n [Hn _]%map_lookup_filter_Some. eauto.
Qed.
