(* ===== verification/VoteStore.v ===== *)
(** * Vote records in the storage of VoteInfoAddress

    The record that the pages of an address hold ([info_of]), and that load reads it and save
    replaces it and no other: storage is a map from addresses to records. *)

From stdpp Require Import gmap sorting.
From S2P Require Import Prelude Words Exn Chainbase Ledger Vote VoteCodec.

#[local] Open Scope Z_scope.

Abbreviation is_address := (is_word 160).

(** ** Keys *)

Lemma addressToU256_val a i :
  is_address a -> Z.of_nat i < 2 ^ 96 -> addressToU256 a i = a * 2 ^ 96 + Z.of_nat i.
Proof.
  intros Ha Hi. unfold addressToU256. rewrite Z.shiftl_mul_pow2 by lia.
  apply Z.mod_small. unfold is_word in Ha. lia.
Qed.

Lemma addressToU256_range a i : is_word 256 (addressToU256 a i).
Proof. by apply is_word_mod. Qed.

Lemma addressToU256_inj a b i j :
  is_address a -> is_address b -> Z.of_nat i < 2 ^ 96 -> Z.of_nat j < 2 ^ 96 ->
  addressToU256 a i = addressToU256 b j -> a = b /\ i = j.
Proof. intros Ha Hb Hi Hj. rewrite !addressToU256_val by done. unfold is_word in *. lia. Qed.

(** ** The bytes of an address *)

Definition page_bytes (sl : Z -> Z) (a : Z) (i : nat) : list Z := be_to_bytes 32 (sl (addressToU256 a i)).

Fixpoint pages_of (sl : Z -> Z) (a : Z) (size : nat) (l : list nat) : list Z :=
  match l with
  | [] => []
  | i :: l =>
      (if decide (i = page_count size - 1)%nat then take (size - i * 32) (page_bytes sl a i)
       else page_bytes sl a i) ++ pages_of sl a size l
  end.

Definition size_of (sl : Z -> Z) (a : Z) : nat := info_size (page_bytes sl a 0 !!! 0%nat).

Definition raw (sl : Z -> Z) (a : Z) : list Z :=
  page_bytes sl a 0 ++ pages_of sl a (size_of sl a) (seq 1 (page_count (size_of sl a) - 1)).

Definition info_of (sl : Z -> Z) (a : Z) : VoteInfo := initFromBytes a (raw sl a).

Lemma pages_of_ext sl sl' a size l :
  (forall i, i ∈ l -> sl (addressToU256 a i) = sl' (addressToU256 a i)) ->
  pages_of sl a size l = pages_of sl' a size l.
Proof.
  induction l as [|i l IH]; intros E; [done|]. cbn [pages_of]. unfold page_bytes.
  rewrite E by by left. rewrite IH; [done|]. intros j Hj. apply E. by right.
Qed.

Lemma page_count_bound v : is_byte v -> (page_count (info_size v) < 1000)%nat.
Proof.
  intros Hv. unfold page_count, info_size, BasicSize, NameMaxSize, URLMaxSize. unfold is_word in Hv.
  apply Nat.Div0.div_lt_upper_bound. lia.
Qed.

Lemma page_byte sl a i j : is_byte (page_bytes sl a i !!! j).
Proof. apply is_word_lookup; [done|]. apply be_to_bytes_bytes. Qed.

Lemma info_of_ext sl sl' a :
  (forall i, (i < 1000)%nat -> sl (addressToU256 a i) = sl' (addressToU256 a i)) ->
  info_of sl a = info_of sl' a.
Proof.
  intros E. unfold info_of, raw, size_of.
  assert (E0 : page_bytes sl a 0 = page_bytes sl' a 0) by (unfold page_bytes; by rewrite E by lia).
  rewrite E0. do 2 f_equal. apply pages_of_ext. intros i [_ Hi]%elem_of_seq. apply E.
  pose proof (page_count_bound _ (page_byte sl' a 0 0)). lia.
Qed.

(** ** Loading and saving *)

Section Store.
Context {S : Type} `{!Ledger S} `{!LedgerLaws S}.

Definition unchanged (s s' : S) : Prop :=
  lg_ok s' /\ (forall k, slots s' k = slots s k) /\ (forall a, balances s' a = balances s a).

#[global] Instance unchanged_trans : Transitive unchanged.
Proof.
  intros s1 s2 s3 (? & K1 & B1) (? & K2 & B2). split_and!; [done| |]; intros; by rewrite ?K2, ?B2.
Qed.

Lemma unchanged_refl s : lg_ok s -> unchanged s s.
Proof. done. Qed.

Lemma LoadPages_spec a size l s :
  lg_ok s -> exists s', LoadPages a size l s = (s', inl (pages_of (slots s) a size l)) /\ unchanged s s'.
Proof.
  revert s. induction l as [|i l IH]; intros s Ok; [by exists s|]. cbn [LoadPages].
  destruct (storage_law s (addressToU256 a i) Ok (addressToU256_range a i)) as (s1 & E1 & U1).
  destruct (IH s1 (proj1 U1)) as (s2 & E2 & U2).
  rewrite (bind_inl _ _ _ _ _ E1), (bind_inl _ _ _ _ _ E2). eexists. split; [|by etrans].
  unfold mret, M_ret. do 2 f_equal. cbn [pages_of]. f_equal. apply pages_of_ext. intros. apply U1.
Qed.

Lemma load_rest_spec a s :
  lg_ok s -> exists s', load_rest a (slots s (addressToU256 a 0)) s = (s', inl (raw (slots s) a)) /\ unchanged s s'.
Proof.
  intros Ok. unfold load_rest. fold (page_bytes (slots s) a 0). fold (size_of (slots s) a).
  rewrite decide_True by (unfold size_of, info_size, BasicSize, U256Length, NameMaxSize, URLMaxSize; lia).
  destruct (LoadPages_spec a (size_of (slots s) a) (seq 1 (page_count (size_of (slots s) a) - 1)) s Ok)
    as (s' & E & U).
  unfold LoadFixedSizeBtyes. rewrite (bind_inl _ _ _ _ _ E). by exists s'.
Qed.

Lemma load_spec a s :
  lg_ok s -> exists s', load a s = (s', inl (info_of (slots s) a)) /\ unchanged s s'.
Proof.
  intros Ok. unfold load.
  destruct (storage_law s (addressToU256 a 0) Ok (addressToU256_range a 0)) as (s1 & E1 & U1).
  destruct (load_rest_spec a s1 (proj1 U1)) as (s2 & E2 & U2).
  rewrite (bind_inl _ _ _ _ _ E1).
  assert (K : forall k, slots s1 k = slots s k) by apply U1.
  rewrite <-K, (bind_inl _ _ _ _ _ E2). exists s2. split; [|by etrans].
  unfold mret, M_ret. do 2 f_equal. apply info_of_ext. intros. apply K.
Qed.

(** The page [i] that SaveBytes writes *)
Definition page_value (data : list Z) (i : nat) : Z :=
  let page := take U256Length (drop (i * U256Length) data) in
  be_of_bytes (page ++ replicate (U256Length - length page) 0).

Lemma page_value_bytes data i :
  Forall is_byte data ->
  be_to_bytes 32 (page_value data i) = pad 32 (take 32 (drop (i * 32) data)) /\ is_word 256 (page_value data i).
Proof.
  intros Hb. unfold page_value. change U256Length with 32%nat.
  set (p := take 32 (drop (i * 32) data)).
  assert (Lp : (length p <= 32)%nat) by (unfold p; simpl_len; lia).
  assert (Bp : Forall is_byte (pad 32 p)) by by apply padded_bytes, Forall_take, Forall_drop.
  fold (pad 32 p). split.
  - by apply be_to_of_bytes; [apply length_padded|].
  - unfold be_of_bytes. apply Forall_reverse in Bp.
    pose proof (le_of_bytes_range _ Bp) as R. by rewrite length_reverse, length_padded in R.
Qed.

Lemma SavePages_spec a data l s :
  lg_ok s -> Forall is_byte data -> is_address a -> NoDup l ->
  (forall i, i ∈ l -> (i < 1000)%nat) ->
  exists s', for_each (fun i => lg_setStorage VoteInfoAddress (addressToU256 a i) (page_value data i)) l s
             = (s', inl tt) /\ lg_ok s' /\ (forall b, balances s' b = balances s b) /\
    (forall i, i ∈ l -> slots s' (addressToU256 a i) = page_value data i) /\
    (forall k, (forall i, i ∈ l -> k <> addressToU256 a i) -> slots s' k = slots s k).
Proof.
  intros Ok Hb Ha. revert s Ok. induction l as [|i l IH]; intros s Ok Hnd Hl.
  { exists s. split_and!; try done. by intros i ?%elem_of_nil. }
  apply list.NoDup_cons in Hnd as [Hi Hnd]. cbn [for_each].
  destruct (setStorage_law s (addressToU256 a i) (page_value data i) Ok (addressToU256_range a i))
    as (s1 & E1 & Ok1 & K1 & B1); [by apply page_value_bytes|].
  destruct (IH s1 Ok1 Hnd) as (s2 & E2 & Ok2 & B2 & W2 & K2); [intros j Hj; apply Hl; by right|].
  rewrite (bind_inl _ _ _ _ _ E1). exists s2. split_and!; [done|done|intros b; by rewrite B2| |].
  - intros j [->|Hj]%elem_of_cons; [|by apply W2].
    rewrite K2; [by rewrite K1, decide_True|]. intros j Hj E.
    apply addressToU256_inj in E as [_ ->]; [done|done|done| |].
    + pose proof (Hl i ltac:(by left)). lia.
    + pose proof (Hl j ltac:(by right)). lia.
  - intros k Hk. rewrite K2 by (intros j Hj; apply Hk; by right). rewrite K1, decide_False; [done|].
    apply Hk. by left.
Qed.

(** Reading the pages of what was written *)
Lemma pages_of_written sl a data i :
  Forall is_byte data -> (i <= page_count (length data))%nat ->
  (forall j, (j < page_count (length data))%nat -> sl (addressToU256 a j) = page_value data j) ->
  pages_of sl a (length data) (seq i (page_count (length data) - i)) = drop (i * 32) data.
Proof.
  intros Hb Hi Hsl. remember (page_count (length data) - i)%nat as m eqn:Em. revert i Hi Em.
  assert (Pc : (length data <= 32 * page_count (length data) /\
               32 * page_count (length data) < length data + 32)%nat).
  { unfold page_count. pose proof (Nat.div_mod_eq (length data + 31) 32).
    pose proof (Nat.mod_upper_bound (length data + 31) 32). lia. }
  induction m as [|m IH]; intros i Hi Em.
  { cbn. symmetry. apply drop_ge. lia. }
  cbn [seq pages_of]. rewrite IH by lia. unfold page_bytes. rewrite Hsl by lia.
  destruct (page_value_bytes data i Hb) as [-> _].
  transitivity (take 32 (drop (i * 32) data) ++ drop 32 (drop (i * 32) data)); [|apply take_drop].
  rewrite drop_drop. replace (Datatypes.S i * 32)%nat with (i * 32 + 32)%nat by lia. f_equal.
  case_decide as E.
  - unfold pad. rewrite take_app_le by (simpl_len; lia). rewrite take_take.
    by rewrite !take_ge by (simpl_len; lia).
  - unfold pad. simpl_len. replace (32 - 32 `min` (length data - i * 32))%nat with 0%nat by lia.
    apply app_nil_r.
Qed.

Lemma info_of_written sl v :
  wf_info v ->
  (forall j, (j < page_count (length (encode v)))%nat ->
     sl (addressToU256 (m_address v) j) = page_value (encode v) j) ->
  info_of sl (m_address v) = stored v.
Proof.
  intros Wv Hsl. set (a := m_address v). set (data := encode v) in *.
  assert (Hb : Forall is_byte data) by by apply encode_bytes.
  assert (Ln : (178 <= length data)%nat).
  { unfold data. rewrite length_encode by done. unfold info_size, BasicSize, NameMaxSize, URLMaxSize. lia. }
  assert (Pn : (1 < page_count (length data))%nat).
  { unfold page_count. apply Nat.div_le_lower_bound; lia. }
  assert (P0 : page_bytes sl a 0 = take 32 data).
  { unfold page_bytes, a. rewrite Hsl by lia. destruct (page_value_bytes data 0 Hb) as [-> _].
    rewrite drop_0. unfold pad. simpl_len. replace (32 - 32 `min` length data)%nat with 0%nat by lia.
    apply app_nil_r. }
  assert (Sz : size_of sl a = length data).
  { unfold size_of. rewrite P0. unfold data at 2. by rewrite length_encode. }
  unfold info_of, raw. rewrite Sz, P0, (pages_of_written sl a data 1) by (done || lia).
  rewrite take_drop. by apply initFromBytes_encode.
Qed.

Lemma save_spec v s :
  lg_ok s -> wf_info v -> is_address (m_address v) -> exists s', save v s = (s', inl tt) /\ lg_ok s' /\
    (forall b, balances s' b = balances s b) /\
    info_of (slots s') (m_address v) = stored (removeZeroVote v) /\
    (forall b, is_address b -> b <> m_address v -> info_of (slots s') b = info_of (slots s) b).
Proof.
  intros Ok Wv Ha. pose proof (wf_info_removeZeroVote v Wv) as Wr.
  unfold save. rewrite toBytes_encode by done. unfold SaveBytes.
  set (data := encode (removeZeroVote v)).
  assert (Pb : (page_count (length data) < 1000)%nat).
  { unfold data. rewrite length_encode by done. apply page_count_bound.
    pose proof (wf_records _ Wr). unfold is_word. lia. }
  change ((length data + U256Length - 1) / U256Length)%nat with ((length data + 32 - 1) / 32)%nat.
  replace (length data + 32 - 1)%nat with (length data + 31)%nat by lia. fold (page_count (length data)).
  destruct (SavePages_spec (m_address v) data (seq 0 (page_count (length data))) s Ok)
    as (s' & E & Ok' & B & W & K).
  - by apply encode_bytes.
  - done.
  - apply NoDup_seq.
  - intros i [_ Hi]%elem_of_seq. lia.
  - exists s'. split_and!; [exact E|done|done| |].
    + apply (info_of_written (slots s') (removeZeroVote v)); [done|]. intros j Hj. apply W.
      apply elem_of_seq. fold data in Hj. lia.
    + intros b Hb Hn. apply info_of_ext. intros i Hi. apply K.
      intros j [_ Hj]%elem_of_seq E'. apply addressToU256_inj in E' as [? _]; [done|done|done|lia|lia].
Qed.
End Store.
