(* ===== verification/VoteSpec.v ===== *)
(** * Specification of the vote contract, and refinement

    The abstract state is a finite map from addresses to records.  The operations of VoteManager
    are stated on it without storage, pages or bytes, and the functions of Vote.cpp are shown to
    implement them on every state that represents the map. *)

From stdpp Require Import gmap sorting.
From S2P Require Import Prelude Words Exn Chainbase Ledger Vote VoteCodec VoteStore.

#[local] Open Scope Z_scope.

Abbreviation bank := (gmap Z VoteInfo).

(** The record of an address that never voted *)
Definition no_info (a : Z) : VoteInfo := mkVoteInfo a false 0 [] [] 0 ∅.

Definition get (m : bank) (a : Z) : VoteInfo := default (no_info a) (m !! a).

(** What is kept of a record *)
Definition clean (v : VoteInfo) : VoteInfo := stored (removeZeroVote v).

Definition put (v : VoteInfo) (m : bank) : bank := <[m_address v := clean v]> m.

(** ** Operations *)

Definition mortgage_spec (money a balance : Z) (m : bank) : bank * Z :=
  if decide (money <= balance) then
    let n := money / VOTES_PRE_ETH in
    let v := get m a in
    (put (set_holdVotes (u64 (m_holdVotes v + n)) v) m, balance - n * VOTES_PRE_ETH)
  else (m, balance).

Definition redeem_spec (votes a balance : Z) (m : bank) : bank * Z :=
  let v := get m a in
  if decide (votes <= m_holdVotes v) then
    (put (set_holdVotes (m_holdVotes v - votes) v) m,
     (balance + u64 (votes * VOTES_PRE_ETH)) mod 2 ^ 256)
  else (m, balance).

Definition register_spec (name url : list Z) (a : Z) (m : bank) : bank :=
  let v := get m a in
  if m_isCandidate v then m else put (set_isCandidate true (set_names name url v)) m.

Definition release (c : Z) (v : VoteInfo) : VoteInfo := clean (release_votes c v).

Definition deregister_spec (a : Z) (m : bank) : bank :=
  if m_isCandidate (get m a) then
    put (set_names [] [] (set_receivedVote 0 (set_isCandidate false (release a (get m a)))))
      (release a <$> m)
  else m.

Definition send_spec (to n from : Z) (m : bank) : bank :=
  if decide (to = from) then m
  else if decide (m_holdVotes (get m from) < n) then m
  else
    put (set_holdVotes (u64 (m_holdVotes (get m to) + n)) (get m to))
      (put (set_holdVotes (m_holdVotes (get m from) - n) (get m from)) m).

(** [n] more votes received *)
Definition receive (n : Z) (v : VoteInfo) : VoteInfo :=
  set_receivedVote (u64 (m_receivedVote v + n)) v.

Definition vote_spec (to n from : Z) (m : bank) : bank :=
  let v := get m from in
  if decide (m_holdVotes v < n) then m
  else if decide (15 <= size (m_voteRecord v) /\ m_voteRecord v !! to = None)%nat then m
  else if negb (m_isCandidate (get m to)) then m
  else
    let m := put (receive n (get m to)) m in
    let v := get m from in
    put (recordVoteTo to n (set_holdVotes (m_holdVotes v - n) v)) m.

Definition removeVote_spec (to n from : Z) (m : bank) : bank :=
  match m_voteRecord (get m from) !! to with
  | None => m
  | Some k =>
      if decide (k < n) then m
      else if negb (m_isCandidate (get m to)) then m
      else
        let m := put (receive (- n) (get m to)) m in
        let v := get m from in
        put (set_voteRecord (<[to := k - n]> (m_voteRecord v))
               (set_holdVotes (u64 (m_holdVotes v + n)) v)) m
  end.

(** ** Records that are kept as they are *)

Record normal (a : Z) (v : VoteInfo) : Prop := {
  n_address : m_address v = a;
  n_wf : wf_info v;
  n_clean : clean v = v;
  n_records : (size (m_voteRecord v) <= 15)%nat
}.

Definition bank_ok (m : bank) : Prop := forall a v, m !! a = Some v -> is_address a /\ normal a v.

Lemma cstr_idem l : cstr (cstr l) = cstr l.
Proof. induction l as [|b l IH]; [done|]. cbn. case_decide; [done|]. cbn. rewrite decide_False by done. by f_equal. Qed.

Lemma clean_idem v : clean (clean v) = clean v.
Proof.
  unfold clean, stored, removeZeroVote, set_names, set_voteRecord. cbn. f_equal; [by rewrite cstr_idem..|].
  apply map_eq. intros a. apply option_eq. intros n. rewrite !map_lookup_filter_Some. tauto.
Qed.

Lemma cstr_length l : (length (cstr l) <= length l)%nat.
Proof. induction l as [|b l IH]; [done|]. cbn. case_decide; cbn; lia. Qed.

Lemma cstr_bytes l : Forall is_byte l -> Forall is_byte (cstr l).
Proof. induction 1 as [|b l Hb Hl IH]; [constructor|]. cbn. case_decide; by constructor. Qed.

Lemma wf_info_clean v : wf_info v -> wf_info (clean v).
Proof.
  intros W%wf_info_removeZeroVote. destruct W as [? ? [] [] ? ?]. split; try done; cbn.
  - split; [|by apply cstr_bytes]. etrans; [apply cstr_length|done].
  - split; [|by apply cstr_bytes]. etrans; [apply cstr_length|done].
Qed.

Lemma normal_clean v :
  wf_info v -> (size (m_voteRecord (removeZeroVote v)) <= 15)%nat -> normal (m_address v) (clean v).
Proof. intros W Hs. split; [done|by apply wf_info_clean|apply clean_idem|done]. Qed.

Lemma wf_info_no_info a : wf_info (no_info a).
Proof.
  split; cbn.
  - by apply is_word_0.
  - by apply is_word_0.
  - split; [lia|apply Forall_nil_2].
  - split; [lia|apply Forall_nil_2].
  - rewrite map_size_empty. lia.
  - intros b n. by rewrite lookup_empty.
Qed.

Lemma normal_no_info a : normal a (no_info a).
Proof.
  split; [done|apply wf_info_no_info| |].
  - unfold clean, removeZeroVote, no_info. cbn [m_voteRecord]. by rewrite map_filter_empty.
  - cbn. rewrite map_size_empty. lia.
Qed.

Lemma normal_get m a : bank_ok m -> normal a (get m a).
Proof.
  intros Hm. unfold get. destruct (m !! a) as [v|] eqn:E; [by apply (Hm a v)|apply normal_no_info].
Qed.

Lemma get_put v m a : get (put v m) a = if decide (a = m_address v) then clean v else get m a.
Proof.
  unfold get, put. case_decide as E; [by rewrite E, lookup_insert_eq|by rewrite lookup_insert_ne].
Qed.

Lemma bank_ok_put v m :
  bank_ok m -> is_address (m_address v) -> wf_info v ->
  (size (m_voteRecord (removeZeroVote v)) <= 15)%nat -> bank_ok (put v m).
Proof.
  intros Hm Ha Wv Hs a w. unfold put. rewrite lookup_insert_Some.
  intros [[<- <-]|[_ E]]; [|by apply Hm]. split; [done|]. by apply normal_clean.
Qed.

(** The changes of the operations keep a record well formed *)
Lemma wf_info_set_hold n v : is_word 64 n -> wf_info v -> wf_info (set_holdVotes n v).
Proof. intros ? []. by split. Qed.
Lemma wf_info_set_received n v : is_word 64 n -> wf_info v -> wf_info (set_receivedVote n v).
Proof. intros ? []. by split. Qed.
Lemma wf_info_set_candidate b v : wf_info v -> wf_info (set_isCandidate b v).
Proof. intros []. by split. Qed.
Lemma wf_info_set_names name url v :
  (length name <= NameMaxSize)%nat /\ Forall is_byte name -> (length url <= URLMaxSize)%nat /\ Forall is_byte url ->
  wf_info v -> wf_info (set_names name url v).
Proof. intros ? ? []. by split. Qed.
Lemma wf_info_insert_record a n r v :
  r = m_voteRecord v -> is_address a -> is_word 64 n -> (size (m_voteRecord v) <= 15)%nat -> wf_info v ->
  wf_info (set_voteRecord (<[a := n]> r) v).
Proof.
  intros -> Ha Hn Hs []. split; try done; cbn.
  - rewrite map_size_insert. destruct (m_voteRecord v !! a); cbn; lia.
  - intros b k. rewrite lookup_insert_Some. intros [[<- <-]|[_ E]]; eauto.
Qed.

Lemma wf_record_of v a n : wf_info v -> m_voteRecord v !! a = Some n -> is_word 64 n.
Proof. intros W E. by apply (wf_record v W a n). Qed.

Lemma size_filter_le (m : gmap Z Z) : (size (filter (fun p => p.2 <> 0%Z) m) <= size m)%nat.
Proof. apply map_subseteq_size, map_filter_subseteq. Qed.

Create HintDb votes.
#[local] Hint Resolve wf_info_set_hold wf_info_set_received wf_info_set_candidate wf_info_set_names
  wf_info_insert_record u64_range : votes.
#[local] Hint Resolve n_wf n_records : votes.

Lemma put_put v w m : m_address v = m_address w -> put w (put v m) = put w m.
Proof. intros E. unfold put. rewrite E. apply insert_insert_eq. Qed.

(** ** Representation *)

Section Refinement.
Context {S : Type} `{!Ledger S} `{!LedgerLaws S} `{!Boost}.

Record repr (s : S) (m : bank) : Prop := {
  r_ok : lg_ok s;
  r_bank : bank_ok m;
  r_info : forall a, is_address a -> info_of (slots s) a = get m a
}.

Lemma repr_unchanged s s' m : unchanged s s' -> repr s m -> repr s' m.
Proof.
  intros (Ok & K & _) [_ Hb Hi]. split; [done|done|]. intros a Ha. rewrite <-Hi by done.
  apply info_of_ext. intros. by rewrite K.
Qed.

(** Moving along a step that returns *)
Definition steps_to {A} (m : M S A) (s : S) (a : A) (P : S -> Prop) : Prop :=
  exists s', m s = (s', inl a) /\ P s'.

Lemma steps_bind {A B} (m : M S A) (k : A -> M S B) s a b P Q :
  steps_to m s a P -> (forall s', P s' -> steps_to (k a) s' b Q) -> steps_to (m ≫= k) s b Q.
Proof.
  intros (s1 & E & Hp) Hk. destruct (Hk s1 Hp) as (s2 & E2 & Hq). exists s2. split; [|done].
  by rewrite (bind_inl _ _ _ _ _ E).
Qed.

Lemma steps_ret {A} s (a : A) (P : S -> Prop) : P s -> steps_to (mret a) s a P.
Proof. intros Hp. by exists s. Qed.

Lemma steps_impl {A} (m : M S A) s a (P Q : S -> Prop) :
  steps_to m s a P -> (forall s', P s' -> Q s') -> steps_to m s a Q.
Proof. intros (s1 & E & Hp) Hpq. exists s1. auto. Qed.

(** A state that represents [m], with the balances of [s] *)
Definition at_bank (s : S) (m : bank) (s' : S) : Prop :=
  repr s' m /\ forall a, balances s' a = balances s a.

Lemma at_bank_refl s m : repr s m -> at_bank s m s.
Proof. done. Qed.

Lemma load_step s s0 m a :
  at_bank s0 m s -> is_address a -> steps_to (load a) s (get m a) (at_bank s0 m).
Proof.
  intros [R B] Ha. destruct (load_spec a s (r_ok s m R)) as (s' & E & U).
  exists s'. split; [by rewrite E, (r_info s m R)|]. split; [by eapply repr_unchanged|].
  intros b. rewrite <-B. apply U.
Qed.

Lemma save_step s s0 m v :
  at_bank s0 m s -> is_address (m_address v) -> wf_info v ->
  (size (m_voteRecord (removeZeroVote v)) <= 15)%nat ->
  steps_to (save v) s tt (at_bank s0 (put v m)).
Proof.
  intros [R B] Ha Wv Hs. destruct (save_spec v s (r_ok s m R) Wv Ha) as (s' & E & Ok' & B' & I & O).
  exists s'. split; [done|]. split; [|intros b; by rewrite B'].
  split; [done|by apply bank_ok_put; [apply R|..]|]. intros b Hb. rewrite get_put.
  case_decide as Eb; [by rewrite Eb|]. rewrite O by done. by apply R.
Qed.

(** ** The functions of VoteManager *)

Lemma normal_size v a : normal a v -> (size (m_voteRecord (removeZeroVote v)) <= 15)%nat.
Proof. intros []. etrans; [apply size_filter_le|done]. Qed.

Lemma mortgage_refines s m money a :
  repr s m -> is_address a -> is_word 64 money -> exists s' b, mortgage money a s = (s', inl b) /\
  let r := mortgage_spec money a (balances s a) m in
  repr s' r.1 /\ forall c, balances s' c = if decide (c = a) then r.2 else balances s c.
Proof.
  intros R Ha Hm. unfold mortgage, mortgage_spec.
  destruct (balance_law s a (r_ok s m R)) as (s1 & E1 & U1).
  rewrite (bind_inl _ _ _ _ _ E1). pose proof (repr_unchanged s s1 m U1 R) as R1.
  assert (B1 : forall c, balances s1 c = balances s c) by apply U1.
  case_decide as Hle.
  2: { exists s1, true. split; [done|]. split; [done|]. intros c. rewrite B1. by case_decide; subst. }
  destruct (load_step s1 s m a (conj R1 B1) Ha) as (s2 & E2 & R2 & B2).
  rewrite (bind_inl _ _ _ _ _ E2). set (n := money / VOTES_PRE_ETH).
  assert (Hn : 0 <= n * VOTES_PRE_ETH <= money).
  { unfold n, VOTES_PRE_ETH, is_word in *. split; [apply Z.mul_nonneg_nonneg; [apply Z.div_pos|]; lia|].
    rewrite Z.mul_comm. apply Z.mul_div_le. lia. }
  rewrite (u64_id (n * VOTES_PRE_ETH)) by (unfold is_word in *; lia).
  destruct (subBalance_law s2 a (n * VOTES_PRE_ETH) (r_ok _ _ R2)) as (s3 & E3 & Ok3 & K3 & B3).
  { rewrite B2. lia. }
  rewrite (bind_inl _ _ _ _ _ E3).
  pose proof (normal_get m a (r_bank _ _ R)) as Nv.
  set (v := set_holdVotes (u64 (m_holdVotes (get m a) + n)) (get m a)).
  assert (R3 : repr s3 m).
  { split; [done|apply R|]. intros c Hc. rewrite <-(r_info _ _ R2) by done. apply info_of_ext. intros. by rewrite K3. }
  destruct (save_step s3 s3 m v) as (s4 & E4 & R4 & B4).
  - by split.
  - unfold v. cbn. by rewrite (n_address _ _ Nv).
  - eauto with votes.
  - exact (normal_size _ _ Nv).
  - rewrite (bind_inl _ _ _ _ _ E4). exists s4, true. split; [done|]. split; [exact R4|].
    intros c. rewrite B4, B3, !B2. cbn. done.
Qed.

Lemma redeem_refines s m votes a :
  repr s m -> is_address a -> is_word 64 votes -> exists s' b, redeem votes a s = (s', inl b) /\
  let r := redeem_spec votes a (balances s a) m in
  repr s' r.1 /\ forall c, balances s' c = if decide (c = a) then r.2 else balances s c.
Proof.
  intros R Ha Hm. unfold redeem, redeem_spec.
  destruct (load_step s s m a (at_bank_refl s m R) Ha) as (s2 & E2 & R2 & B2).
  rewrite (bind_inl _ _ _ _ _ E2). pose proof (normal_get m a (r_bank _ _ R)) as Nv.
  case_decide as Hle.
  2: { exists s2, true. split; [done|]. split; [done|]. intros c. rewrite B2. by case_decide; subst. }
  assert (Hw : is_word 256 (u64 (votes * VOTES_PRE_ETH))).
  { eapply is_word_weaken; [apply u64_range|lia]. }
  destruct (addBalance_law s2 a _ (r_ok _ _ R2) Hw) as (s3 & E3 & Ok3 & K3 & B3).
  rewrite (bind_inl _ _ _ _ _ E3).
  rewrite (u64_id (m_holdVotes (get m a) - votes)) by (pose proof (wf_hold _ (n_wf _ _ Nv)); unfold is_word in *; lia).
  set (v := set_holdVotes (m_holdVotes (get m a) - votes) (get m a)).
  assert (R3 : repr s3 m).
  { split; [done|apply R|]. intros c Hc. rewrite <-(r_info _ _ R2) by done. apply info_of_ext. intros. by rewrite K3. }
  destruct (save_step s3 s3 m v) as (s4 & E4 & R4 & B4).
  - by split.
  - unfold v. cbn. by rewrite (n_address _ _ Nv).
  - apply wf_info_set_hold; [|apply Nv]. pose proof (wf_hold _ (n_wf _ _ Nv)). unfold is_word in *. lia.
  - exact (normal_size _ _ Nv).
  - rewrite (bind_inl _ _ _ _ _ E4). exists s4, true. split; [done|]. split; [exact R4|].
    intros c. rewrite B4, B3, !B2. done.
Qed.

Lemma register_refines s m name url a :
  repr s m -> is_address a ->
  (length name <= NameMaxSize)%nat /\ Forall is_byte name -> (length url <= URLMaxSize)%nat /\ Forall is_byte url ->
  exists b, steps_to (candidateRegister name url a) s b (at_bank s (register_spec name url a m)).
Proof.
  intros R Ha Hn Hu. pose proof (normal_get m a (r_bank _ _ R)) as Nv.
  unfold candidateRegister, register_spec. exists (negb (m_isCandidate (get m a))).
  eapply steps_bind; [by apply (load_step s s m a)|]. intros s1 R1.
  destruct (m_isCandidate (get m a)); [by apply steps_ret|].
  eapply steps_bind; [apply (save_step s1 s m); [done| | |]|].
  - cbn. by rewrite (n_address _ _ Nv).
  - apply wf_info_set_candidate, wf_info_set_names; [done..|apply Nv].
  - exact (normal_size _ _ Nv).
  - intros s2 R2. by apply steps_ret.
Qed.

Lemma send_refines s m to n a :
  repr s m -> is_address a -> is_address to -> is_word 64 n ->
  exists b, steps_to (send to n a) s b (at_bank s (send_spec to n a m)).
Proof.
  intros R Ha Ht Hn. pose proof (normal_get m a (r_bank _ _ R)) as Nv.
  pose proof (normal_get m to (r_bank _ _ R)) as Nt. pose proof (wf_hold _ (n_wf _ _ Nv)) as Hv.
  unfold send, send_spec. destruct (decide (to = a)) as [E|Hne]; [by exists true; apply steps_ret|].
  destruct (decide (m_holdVotes (get m a) < n)) as [Hlt|Hge].
  { exists false. eapply steps_bind; [by apply (load_step s s m a)|]. intros s1 R1.
    rewrite decide_True by done. by apply steps_ret. }
  exists true. eapply steps_bind; [by apply (load_step s s m a)|]. intros s1 R1.
  rewrite decide_False by done. eapply steps_bind; [by apply (load_step s1 s m to)|]. intros s2 R2.
  rewrite (u64_id (m_holdVotes (get m a) - n)) by (unfold is_word in *; lia).
  eapply steps_bind; [apply (save_step s2 s m); [done| | |exact (normal_size _ _ Nv)]|].
  - cbn. by rewrite (n_address _ _ Nv).
  - apply wf_info_set_hold; [unfold is_word in *; lia|apply Nv].
  - intros s3 R3. eapply steps_bind; [eapply save_step; [exact R3| | |exact (normal_size _ _ Nt)]|].
    + cbn. by rewrite (n_address _ _ Nt).
    + eauto with votes.
    + intros s4 R4. by apply steps_ret.
Qed.

Lemma receive_normal a n v : normal a v -> normal a (receive n v) /\ clean (receive n v) = receive n v.
Proof.
  intros [A W C Sz]. assert (E : clean (receive n v) = receive n v).
  { rewrite <-C at 2. done. }
  split; [|done]. split; [done|apply wf_info_set_received; [apply u64_range|done]|done|done].
Qed.

(** Registering the votes with the candidate is the same for oneself and for another *)
Lemma get_receive m to n from :
  bank_ok m ->
  get (put (receive n (get m to)) m) from
  = if decide (from = to) then receive n (get m from) else get m from.
Proof.
  intros Hb. pose proof (normal_get m to Hb) as Nt. rewrite get_put. cbn [m_address receive set_receivedVote].
  rewrite (n_address _ _ Nt). case_decide as E; [|done]. rewrite E. by apply (receive_normal to).
Qed.

(** The votes are taken from the sender, after the candidate has received them *)
Lemma finish_step s0 s m to n from v w :
  at_bank s0 (put (receive n (get m to)) m) s -> bank_ok m -> is_address from ->
  m_address w = from -> wf_info w -> (size (m_voteRecord (removeZeroVote w)) <= 15)%nat -> v = true ->
  steps_to (save w;; mret true) s v (at_bank s0 (put w (put (receive n (get m to)) m))).
Proof.
  intros R Hb Hf Hw Ww Hs ->. eapply steps_bind; [apply (save_step s s0); [exact R|by rewrite Hw|done|done]|].
  intros s1 R1. by apply steps_ret.
Qed.

Lemma own_step s0 s m n from w :
  at_bank s0 m s -> is_address from -> m_address w = from -> wf_info w ->
  (size (m_voteRecord (removeZeroVote w)) <= 15)%nat ->
  steps_to (save w;; mret true) s true (at_bank s0 (put w (put (receive n (get m from)) m))).
Proof.
  intros R Hf Hw Ww Hs. pose proof (normal_get m from (r_bank _ _ (proj1 R))) as Nv.
  rewrite put_put by (cbn; by rewrite (n_address _ _ Nv)).
  eapply steps_bind; [apply (save_step s s0); [exact R|by rewrite Hw|done|done]|].
  intros s1 R1. by apply steps_ret.
Qed.

Lemma receive_step s0 s m to n :
  at_bank s0 m s -> is_address to -> steps_to (save (receive n (get m to))) s tt (at_bank s0 (put (receive n (get m to)) m)).
Proof.
  intros R Ht. pose proof (normal_get m to (r_bank _ _ (proj1 R))) as Nt.
  destruct (receive_normal to n (get m to) Nt) as [[A W C Sz] _].
  apply save_step; [done|by rewrite A|done|]. etrans; [apply size_filter_le|done].
Qed.

Lemma record_ok v to n a :
  normal a v -> is_address to -> is_word 64 n ->
  ~ (15 <= size (m_voteRecord v) /\ m_voteRecord v !! to = None)%nat ->
  wf_info (recordVoteTo to n v) /\ (size (m_voteRecord (removeZeroVote (recordVoteTo to n v))) <= 15)%nat.
Proof.
  intros [A W C Sz] Ht Hn Hs. unfold recordVoteTo. destruct (m_voteRecord v !! to) as [k|] eqn:E.
  - split; [eauto with votes|]. cbn. etrans; [apply size_filter_le|].
    by rewrite map_size_insert_Some by (by exists k).
  - split; [eauto with votes|]. cbn. etrans; [apply size_filter_le|].
    rewrite map_size_insert_None by done.
    destruct (decide (15 <= size (m_voteRecord v))%nat); [by destruct Hs|lia].
Qed.

(** What the sender holds does not matter to the rest of the record *)
Lemma normal_set_hold a n v : is_word 64 n -> normal a v -> normal a (set_holdVotes n v).
Proof.
  intros Hn [A W C Sz]. split; [done|by apply wf_info_set_hold| |done]. rewrite <-C at 2. done.
Qed.

Lemma vote_refines s m to n a :
  repr s m -> is_address a -> is_address to -> is_word 64 n ->
  exists b, steps_to (vote to n a) s b (at_bank s (vote_spec to n a m)).
Proof.
  intros R Ha Ht Hn. pose proof (normal_get m a (r_bank _ _ R)) as Nv.
  pose proof (wf_hold _ (n_wf _ _ Nv)) as Hv. unfold vote, vote_spec.
  assert (L : steps_to (load a) s (get m a) (at_bank s m)) by by apply load_step.
  destruct (decide (m_holdVotes (get m a) < n)) as [Hlt|Hge].
  { exists false. eapply steps_bind; [exact L|]. intros s1 R1. rewrite decide_True by done. by apply steps_ret. }
  destruct (decide (15 <= size (m_voteRecord (get m a)) /\ m_voteRecord (get m a) !! to = None)%nat) as [Hf|Hf].
  { exists false. eapply steps_bind; [exact L|]. intros s1 R1.
    rewrite decide_False, decide_True by done. by apply steps_ret. }
  assert (Hh : is_word 64 (m_holdVotes (get m a) - n)) by (unfold is_word in *; lia).
  exists (m_isCandidate (get m to)). eapply steps_bind; [exact L|]. intros s1 R1.
  rewrite decide_False, decide_False by done. rewrite get_receive by apply R.
  destruct (decide (to = a)) as [->|Hne].
  - rewrite decide_True by done. destruct (m_isCandidate (get m a)); cbn [negb]; [|by apply steps_ret].
    cbn [m_holdVotes set_receivedVote receive]. rewrite u64_id by done.
    destruct (receive_normal a n (get m a) Nv) as [Nr _].
    destruct (record_ok (set_holdVotes (m_holdVotes (get m a) - n) (receive n (get m a))) a n a) as [Wr Sr];
      [by apply normal_set_hold|done|done|exact Hf|].
    apply own_step; [done|done| |done|done].
    unfold recordVoteTo. destruct (m_voteRecord _ !! _); cbn; apply Nv.
  - rewrite decide_False by congruence.
    eapply steps_bind; [by apply (load_step s1 s m to)|]. intros s2 R2.
    destruct (m_isCandidate (get m to)); cbn [negb]; [|by apply steps_ret].
    rewrite (u64_id (m_holdVotes (get m a) - n)) by done.
    eapply steps_bind; [by apply receive_step|]. intros s3 R3.
    destruct (record_ok (set_holdVotes (m_holdVotes (get m a) - n) (get m a)) to n a) as [Wr Sr];
      [by apply normal_set_hold|done|done|exact Hf|].
    apply (finish_step s s3 m to n a); [done|apply R|done| |done|done|done].
    unfold recordVoteTo. destruct (m_voteRecord _ !! _); cbn; apply Nv.
Qed.

Lemma removeVote_refines s m to n a :
  repr s m -> is_address a -> is_address to -> is_word 64 n ->
  exists b, steps_to (removeVote to n a) s b (at_bank s (removeVote_spec to n a m)).
Proof.
  intros R Ha Ht Hn. pose proof (normal_get m a (r_bank _ _ R)) as Nv. unfold removeVote, removeVote_spec.
  assert (L : steps_to (load a) s (get m a) (at_bank s m)) by by apply load_step.
  destruct (m_voteRecord (get m a) !! to) as [k|] eqn:Hk.
  2: { exists false. eapply steps_bind; [exact L|]. intros s1 R1. rewrite Hk. by apply steps_ret. }
  pose proof (wf_record_of _ _ _ (n_wf _ _ Nv) Hk) as Hkr.
  destruct (decide (k < n)) as [Hlt|Hge].
  { exists false. eapply steps_bind; [exact L|]. intros s1 R1. rewrite Hk, decide_True by done. by apply steps_ret. }
  assert (Hd : is_word 64 (k - n)) by (unfold is_word in *; lia).
  exists (m_isCandidate (get m to)). eapply steps_bind; [exact L|]. intros s1 R1.
  rewrite Hk, decide_False by done. rewrite get_receive, (u64_id (k - n)) by (done || apply R).
  assert (Sz : forall v, m_voteRecord v = m_voteRecord (get m a) ->
     (size (m_voteRecord (removeZeroVote (set_voteRecord (<[to := (k - n)%Z]> (m_voteRecord v)) v))) <= 15)%nat).
  { intros v E. cbn. etrans; [apply size_filter_le|].
    rewrite map_size_insert_Some by (exists k; by rewrite E). rewrite E. apply Nv. }
  destruct (decide (to = a)) as [->|Hne].
  - rewrite decide_True by done. destruct (m_isCandidate (get m a)); cbn [negb]; [|by apply steps_ret].
    change (m_receivedVote (get m a) - n) with (m_receivedVote (get m a) + - n).
    destruct (receive_normal a (- n) (get m a) Nv) as [Nr _].
    apply (own_step s s1 m (- n) a); [done|done|apply Nv| |exact (Sz (set_holdVotes _ (receive (- n) (get m a))) eq_refl)].
    apply wf_info_insert_record; [done..|apply Nr|].
    apply wf_info_set_hold; [apply u64_range|apply Nr].
  - rewrite decide_False by congruence.
    eapply steps_bind; [by apply (load_step s1 s m to)|]. intros s2 R2.
    destruct (m_isCandidate (get m to)); cbn [negb]; [|by apply steps_ret].
    change (m_receivedVote (get m to) - n) with (m_receivedVote (get m to) + - n).
    eapply steps_bind; [by apply receive_step|]. intros s3 R3.
    apply (finish_step s s3 m to (- n) a); [done|apply R|done|apply Nv| |exact (Sz (set_holdVotes _ (get m a)) eq_refl)|done].
    apply wf_info_insert_record; [done..|apply Nv|].
    apply wf_info_set_hold; [apply u64_range|apply Nv].
Qed.
End Refinement.
