(* ===== verification/VoteMap.v ===== *)
(** * The walk over the storage: all records, producers, deregistration *)

From stdpp Require Import gmap sorting.
From S2P Require Import Prelude Words Exn Chainbase Ledger Vote VoteCodec VoteStore VoteSpec.

#[local] Open Scope Z_scope.

(** ** Keys of first pages *)

Lemma be_of_bytes_zeros n : be_of_bytes (replicate n 0) = 0.
Proof.
  unfold be_of_bytes. rewrite reverse_replicate. induction n as [|n IH]; [done|]. cbn. by rewrite IH.
Qed.

Lemma be_to_bytes_0 n : be_to_bytes n 0 = replicate n 0.
Proof.
  unfold be_to_bytes. rewrite <-(reverse_replicate n 0). f_equal.
  induction n as [|n IH]; [done|]. cbn. f_equal. exact IH.
Qed.

Lemma Forall_zeros (l : list Z) : Forall (fun b => b = 0) l <-> l = replicate (length l) 0.
Proof.
  split.
  - induction 1 as [|b l -> _ IH]; [done|]. cbn. by f_equal.
  - intros ->. by apply Forall_replicate.
Qed.

Lemma key_bytes k :
  take AddressLength (be_to_bytes 32 k) = be_to_bytes 20 (k / 2 ^ 96) /\
  drop AddressLength (be_to_bytes 32 k) = be_to_bytes 12 k.
Proof.
  change 32%nat with (12 + 20)%nat. rewrite be_to_bytes_add, Z.shiftr_div_pow2 by lia.
  change (8 * Z.of_nat 12) with 96. unfold AddressLength. split.
  - apply take_app_length'. by rewrite length_be_to_bytes.
  - apply drop_app_length'. by rewrite length_be_to_bytes.
Qed.

Lemma key_first k :
  Forall (fun b => b = 0) (drop AddressLength (be_to_bytes 32 k)) <-> k mod 2 ^ 96 = 0.
Proof.
  destruct (key_bytes k) as [_ ->]. rewrite Forall_zeros, length_be_to_bytes.
  rewrite <-(be_to_bytes_mod 12 k). change (8 * Z.of_nat 12) with 96. split.
  - intros E%(f_equal be_of_bytes). rewrite be_of_bytes_zeros, be_of_to_bytes_id in E; [done|].
    by apply is_word_mod.
  - intros ->. apply be_to_bytes_0.
Qed.

Lemma key_address k :
  is_word 256 k -> is_address (k / 2 ^ 96) /\
  be_of_bytes (take AddressLength (be_to_bytes 32 k)) = k / 2 ^ 96.
Proof.
  intros Hk. assert (Ha : is_address (k / 2 ^ 96)).
  { unfold is_word in *. split; [apply Z.div_pos; lia|apply Z.div_lt_upper_bound; lia]. }
  split; [done|]. destruct (key_bytes k) as [-> _]. by apply be_of_to_bytes_id.
Qed.

Lemma key_of_address k : is_word 256 k -> k mod 2 ^ 96 = 0 -> addressToU256 (k / 2 ^ 96) 0 = k.
Proof.
  intros Hk H0. rewrite addressToU256_val; [|by apply key_address|lia].
  pose proof (Z.div_mod k (2 ^ 96)). lia.
Qed.

Lemma address_key a : is_address a ->
  addressToU256 a 0 mod 2 ^ 96 = 0 /\ addressToU256 a 0 / 2 ^ 96 = a.
Proof.
  intros Ha. rewrite addressToU256_val by (done || lia). rewrite Z.add_0_r.
  split; [by apply Z.mod_mul|by apply Z.div_mul].
Qed.

(** A record whose first page is zero *)
Lemma info_of_blank sl a :
  sl (addressToU256 a 0) = 0 ->
  let v := info_of sl a in
  m_isCandidate v = false /\ m_receivedVote v = 0 /\ m_holdVotes v = 0 /\ m_voteRecord v = ∅.
Proof. intros E. unfold info_of, raw, size_of, page_bytes. by rewrite E. Qed.

(** The fields of the first page *)
Lemma info_of_first sl a :
  let p := page_bytes sl a 0 in
  m_isCandidate (info_of sl a) = bool_decide (p !!! 1%nat <> 0) /\
  m_receivedVote (info_of sl a) = le_of_bytes (sub p 10 8).
Proof.
  cbn zeta. unfold info_of, raw. generalize (pages_of sl a (size_of sl a) (seq 1 (page_count (size_of sl a) - 1))).
  by intros q.
Qed.

Section Walk.
Context {S : Type} `{!Ledger S} `{!LedgerLaws S}.

Lemma collect_spec s0 s m ps (acc : gmap Z VoteInfo) :
  at_bank s0 m s ->
  (forall k v, (k, v) ∈ ps -> is_word 256 k /\ v = slots s k) ->
  (forall a v, acc !! a = Some v -> is_address a /\ v = get m a) ->
  exists r, steps_to (collect_infos ps acc) s r (at_bank s0 m) /\
    (forall a v, r !! a = Some v -> is_address a /\ v = get m a) /\
    (forall a, is_address a -> addressToU256 a 0 ∈ ps.*1 \/ is_Some (acc !! a) -> is_Some (r !! a)).
Proof.
  revert s acc. induction ps as [|[k v] ps IH]; intros s acc R Hps Hacc; cbn [collect_infos].
  { exists acc. split_and!; [by apply steps_ret|done|]. by intros a _ [?%elem_of_nil|?]. }
  destruct (Hps k v ltac:(by left)) as [Hk ->]. pose proof (key_address k Hk) as [Ha Ea].
  assert (Hps' : forall k v, (k, v) ∈ ps -> is_word 256 k /\ v = slots s k).
  { intros k' v' H. apply Hps. by right. }
  destruct (decide (Forall (fun b => b = 0) (drop AddressLength (be_to_bytes 32 k)))) as [Hf|Hf].
  - apply key_first in Hf. rewrite Ea. set (b := k / 2 ^ 96) in *.
    rewrite <-(key_of_address k Hk Hf). fold b.
    destruct (load_rest_spec b s (r_ok _ _ (proj1 R))) as (s1 & E1 & U1).
    assert (R1 : at_bank s0 m s1).
    { destruct R as [R B]. split; [by eapply repr_unchanged|]. intros c. rewrite <-B. apply U1. }
    assert (Eb : initFromBytes b (raw (slots s) b) = get m b) by by apply (r_info _ _ (proj1 R)).
    destruct (IH s1 (<[b := get m b]> acc) R1) as (r & (s2 & E2 & R2) & Hr & Hd).
    + intros k' v' H. destruct (Hps' k' v' H) as [? ->]. split; [done|]. symmetry. apply U1.
    + intros a w. rewrite lookup_insert_Some. intros [[<- <-]|[_ E]]; [done|by apply Hacc].
    + exists r. split_and!; [|done|].
      * exists s2. split; [|done]. rewrite (bind_inl _ _ _ _ _ E1), Eb. exact E2.
      * intros a Haa [Hin|Hs]; (apply Hd; [done|]).
        -- cbn [fmap list_fmap] in Hin. apply elem_of_cons in Hin as [E|Hin]; [|by left]. right.
           cbn in E. apply addressToU256_inj in E as [-> _]; [by rewrite lookup_insert_eq|done|done|lia|lia].
        -- right. destruct (decide (a = b)) as [->|]; [by rewrite lookup_insert_eq|by rewrite lookup_insert_ne].
  - destruct (IH s acc R Hps' Hacc) as (r & Hst & Hr & Hd). exists r. split_and!; [done|done|].
    intros a Haa [Hin|Hs]; (apply Hd; [done|]); [|by right].
    cbn [fmap list_fmap] in Hin. apply elem_of_cons in Hin as [E|Hin]; [|by left]. exfalso. cbn in E.
    apply Hf, key_first. rewrite <-E. by apply address_key.
Qed.

(** The entries of the storage map *)
Lemma storage_entries s0 s m :
  at_bank s0 m s -> exists st, steps_to (lg_storage_map VoteInfoAddress) s st
    (fun s' => at_bank s0 m s' /\ forall k, slots s' k = slots s k) /\
    (forall k v, (k, v) ∈ (items st).*2 -> is_word 256 k /\ v = slots s k /\ v <> 0) /\
    (forall a, is_address a -> slots s (addressToU256 a 0) <> 0 -> addressToU256 a 0 ∈ (items st).*2.*1).
Proof.
  intros [R B]. destruct (storage_map_law s (r_ok _ _ R)) as (s' & st & E & Ok' & K & B' & M1 & M2).
  exists st. split_and!.
  - exists s'. split; [done|]. split; [|done]. split; [by eapply repr_unchanged|]. intros c. by rewrite B'.
  - intros k v ([h [k' v']] & E' & Hin)%list_elem_of_fmap. cbn in E'. injection E' as -> ->.
    apply elem_of_items in Hin. pose proof (M2 _ _ _ Hin) as Hk. split; [done|].
    destruct (proj1 (M1 k' v' Hk)) as [? ?]; [by exists h|]. done.
  - intros a Ha Hn. destruct (proj2 (M1 (addressToU256 a 0) (slots s (addressToU256 a 0))
      (addressToU256_range a 0))) as [h Hh]; [done|].
    apply list_elem_of_fmap. eexists (_, _). split; [reflexivity|]. apply list_elem_of_fmap.
    eexists (h, (_, _)). split; [reflexivity|]. by apply elem_of_items.
Qed.

(** getVoteInfoMap has the record of every address that is not blank *)
Lemma getVoteInfoMap_spec s0 s m :
  at_bank s0 m s -> exists r, steps_to getVoteInfoMap s r (at_bank s0 m) /\
    (forall a v, r !! a = Some v -> is_address a /\ v = get m a) /\
    (forall a, is_address a -> r !! a = None -> slots s (addressToU256 a 0) = 0).
Proof.
  intros R. destruct (storage_entries s0 s m R) as (st & (s1 & E1 & R1 & K1) & He & Hf).
  destruct (collect_spec s0 s1 m ((items st).*2) ∅ R1) as (r & (s2 & E2 & R2) & Hr & Hd).
  - intros k v Hin. destruct (He k v Hin) as (? & -> & _). by rewrite K1.
  - intros a v. by rewrite lookup_empty.
  - exists r. split_and!; [|done|].
    + exists s2. split; [|done]. unfold getVoteInfoMap. by rewrite (bind_inl _ _ _ _ _ E1).
    + intros a Ha Hn. destruct (decide (slots s (addressToU256 a 0) = 0)) as [|Hz]; [done|].
      destruct (Hd a Ha) as [v Hv]; [left; by apply Hf|]. congruence.
Qed.

(** ** getProducerMap *)

Lemma mask_mod k : (mask .& k) = k mod 2 ^ 96.
Proof. rewrite Z.land_comm. change mask with (Z.ones 96). by rewrite Z.land_ones. Qed.

(** The candidates with the votes they received *)
Definition producers (m : bank) (r : gmap Z Z) : Prop :=
  forall a n, r !! a = Some n <->
    is_address a /\ m_isCandidate (get m a) /\ n = m_receivedVote (get m a).

Definition producer_step (res : gmap Z Z) (p : Z * Z) : gmap Z Z :=
  let '(key, value) := p in
  if decide ((mask .& key) = 0) then
    let address := be_of_bytes (take AddressLength (be_to_bytes 32 key)) in
    let v := be_to_bytes 32 value in
    if decide (v !!! 1%nat <> 0) then <[address := le_of_bytes (sub v 10 8)]> res else res
  else res.

Lemma producer_step_spec s m k acc :
  repr s m -> is_word 256 k -> k mod 2 ^ 96 = 0 ->
  producer_step acc (k, slots s k) =
  if m_isCandidate (get m (k / 2 ^ 96))
  then <[k / 2 ^ 96 := m_receivedVote (get m (k / 2 ^ 96))]> acc else acc.
Proof.
  intros R Hk Hf. unfold producer_step. rewrite mask_mod, decide_True by done.
  destruct (key_address k Hk) as [Ha ->]. set (b := k / 2 ^ 96) in *.
  rewrite <-(r_info s m R b Ha). destruct (info_of_first (slots s) b) as [-> ->].
  unfold page_bytes. rewrite (key_of_address k Hk Hf : addressToU256 b 0 = k).
  destruct (decide (be_to_bytes 32 (slots s k) !!! 1%nat <> 0)) as [H|H].
  - by rewrite bool_decide_eq_true_2.
  - by rewrite bool_decide_eq_false_2.
Qed.

Lemma producers_of_spec s m ps acc :
  repr s m -> (forall k v, (k, v) ∈ ps -> is_word 256 k /\ v = slots s k) ->
  (forall a n, acc !! a = Some n -> is_address a /\ m_isCandidate (get m a) /\ n = m_receivedVote (get m a)) ->
  let r := foldl producer_step acc ps in
  (forall a n, r !! a = Some n -> is_address a /\ m_isCandidate (get m a) /\ n = m_receivedVote (get m a)) /\
  (forall a, is_address a -> m_isCandidate (get m a) ->
     addressToU256 a 0 ∈ ps.*1 \/ is_Some (acc !! a) -> is_Some (r !! a)).
Proof.
  intros R. revert acc. induction ps as [|[k v] ps IH]; intros acc Hps Hacc; cbn [foldl].
  { split; [done|]. by intros a _ _ [?%elem_of_nil|?]. }
  destruct (Hps k v ltac:(by left)) as [Hk ->]. destruct (key_address k Hk) as [Ha _].
  assert (Hps' : forall k v, (k, v) ∈ ps -> is_word 256 k /\ v = slots s k).
  { intros k' v' H. apply Hps. by right. }
  destruct (decide (k mod 2 ^ 96 = 0)) as [Hf|Hf].
  - rewrite (producer_step_spec s m k acc R Hk Hf). set (b := k / 2 ^ 96) in *.
    destruct (IH (if m_isCandidate (get m b) then <[b := m_receivedVote (get m b)]> acc else acc) Hps')
      as [H1 H2].
    { intros a n. destruct (m_isCandidate (get m b)) eqn:Hc; [|apply Hacc].
      rewrite lookup_insert_Some. intros [[<- <-]|[_ E]]; [by rewrite Hc|by apply Hacc]. }
    split; [done|]. intros a Haa Hc Hin. apply H2; [done|done|].
    destruct Hin as [Hin|Hs].
    + cbn [fmap list_fmap] in Hin. apply elem_of_cons in Hin as [E|Hin]; [|by left]. right. cbn in E.
      rewrite <-(key_of_address k Hk Hf) in E. fold b in E.
      apply addressToU256_inj in E as [-> _]; [|done|done|lia|lia].
      destruct (m_isCandidate (get m b)); [by rewrite lookup_insert_eq|done].
    + right. destruct (m_isCandidate (get m b)); [|done].
      destruct (decide (a = b)) as [->|]; [by rewrite lookup_insert_eq|by rewrite lookup_insert_ne].
  - assert (E : producer_step acc (k, slots s k) = acc) by (unfold producer_step; by rewrite mask_mod, decide_False).
    rewrite E. destruct (IH acc Hps' Hacc) as [H1 H2]. split; [done|]. intros a Haa Hc Hin.
    apply H2; [done|done|]. destruct Hin as [Hin|Hs]; [|by right]. left.
    cbn [fmap list_fmap] in Hin. apply elem_of_cons in Hin as [E'|Hin]; [|done]. exfalso. cbn in E'.
    apply Hf. rewrite <-E'. by apply address_key.
Qed.

Lemma getProducerMap_spec s0 s m :
  at_bank s0 m s -> exists r, steps_to getProducerMap s r (at_bank s0 m) /\ producers m r.
Proof.
  intros R. destruct (storage_entries s0 s m R) as (st & (s1 & E1 & R1 & K1) & He & Hf).
  destruct (producers_of_spec s m ((items st).*2) ∅ (proj1 R)) as [H1 H2].
  - intros k v Hin. by destruct (He k v Hin) as (? & -> & _).
  - intros a n. by rewrite lookup_empty.
  - exists (producers_of ((items st).*2)). split.
    + exists s1. split; [|done]. unfold getProducerMap. by rewrite (bind_inl _ _ _ _ _ E1).
    + intros a n. split; [apply H1|]. intros (Ha & Hc & ->).
      destruct (H2 a Ha Hc) as [n' Hn'].
      * left. apply Hf; [done|]. intros Hz. pose proof (info_of_blank (slots s) a Hz) as (Hb & _).
        rewrite (r_info _ _ (proj1 R) a Ha) in Hb. by rewrite Hb in Hc.
      * destruct (H1 a n' Hn') as (_ & _ & ->). exact Hn'.
Qed.

(** ** candidateDeregister *)

Lemma release_address c v : m_address (release c v) = m_address v.
Proof. done. Qed.

Lemma release_wf a c v :
  normal a v -> is_address c -> wf_info (release_votes c v) /\
  (size (m_voteRecord (removeZeroVote (release_votes c v))) <= 15)%nat.
Proof.
  intros [A W C Sz] Hc. split.
  - apply wf_info_insert_record; [done|done|by apply is_word_0|done|].
    apply wf_info_set_hold; [apply u64_range|done].
  - cbn. etrans; [|exact Sz]. apply map_subseteq_size. apply map_subseteq_spec. intros b n.
    rewrite map_lookup_filter_Some, lookup_insert_Some. intros [[[_ <-]|[_ E]] Hn]; [by destruct Hn|done].
Qed.

(** Nothing is released from a record without a vote for the candidate *)
Lemma release_none a c v : normal a v -> m_voteRecord v !! c = None -> release c v = v.
Proof.
  intros [A W C Sz] Hc. rewrite <-C at 2. unfold release, release_votes. rewrite Hc. cbn [default].
  rewrite Z.add_0_r, u64_id by apply W.
  unfold clean, stored, removeZeroVote, set_names, set_voteRecord, set_holdVotes. cbn. f_equal.
  apply map_eq. intros b. apply option_eq. intros n. rewrite !map_lookup_filter_Some, lookup_insert_Some.
  split; [intros [[[<- <-]|[_ E]] Hn]; [by destruct Hn|done]|].
  intros [E Hn]. split; [|done]. right. split; [congruence|done].
Qed.

Lemma get_release c m a : get (release c <$> m) a = release c (get m a).
Proof.
  unfold get. rewrite lookup_fmap. destruct (m !! a) as [v|]; [done|]. cbn.
  symmetry. apply (release_none a); [apply normal_no_info|apply lookup_empty].
Qed.

Lemma bank_ok_release c m : bank_ok m -> is_address c -> bank_ok (release c <$> m).
Proof.
  intros Hm Hc a v. rewrite lookup_fmap. intros (w & Hw & ->)%fmap_Some.
  destruct (Hm a w Hw) as [Ha Nw]. split; [done|]. destruct (release_wf a c w Nw Hc) as [Wr Sr].
  pose proof (normal_clean _ Wr Sr) as N. by rewrite <-(n_address _ _ Nw).
Qed.

Lemma repr_ext s m1 m2 :
  repr s m1 -> bank_ok m2 -> (forall a, is_address a -> get m1 a = get m2 a) -> repr s m2.
Proof. intros [Ok _ Hi] Hb E. split; [done|done|]. intros a Ha. by rewrite <-E, Hi. Qed.

(** The loop of candidateDeregister *)
Lemma release_loop s0 s m0 m c l :
  at_bank s0 m s -> bank_ok m0 -> is_address c ->
  (forall a v, (a, v) ∈ l -> is_address a /\ v = get m0 a) ->
  steps_to (for_each (fun p => save (release_votes c p.2)) l) s tt
    (at_bank s0 (foldl (fun m p => put (release_votes c p.2) m) m l)).
Proof.
  intros R Hm0 Hc. revert s m R. induction l as [|[a v] l IH]; intros s m R Hl; cbn [for_each foldl].
  { by apply steps_ret. }
  destruct (Hl a v ltac:(by left)) as [Ha ->]. pose proof (normal_get m0 a Hm0) as Nv.
  destruct (release_wf a c _ Nv Hc) as [Wr Sr].
  eapply steps_bind; [apply (save_step s s0 m); [done| |done|done]|].
  - cbn. by rewrite (n_address _ _ Nv).
  - intros s1 R1. apply IH; [done|]. intros b w Hb. apply Hl. by right.
Qed.

Lemma get_release_loop c m0 m l a :
  bank_ok m0 -> (forall b v, (b, v) ∈ l -> v = get m0 b) ->
  get m a = get m0 a \/ get m a = release c (get m0 a) ->
  (a ∉ l.*1 -> get (foldl (fun m p => put (release_votes c p.2) m) m l) a = get m a) /\
  (a ∈ l.*1 -> get (foldl (fun m p => put (release_votes c p.2) m) m l) a = release c (get m0 a)).
Proof.
  intros Hm0. revert m. induction l as [|[b v] l IH]; intros m Hl Hm; cbn [foldl fmap list_fmap].
  { split; [done|]. by intros ?%elem_of_nil. }
  pose proof (Hl b v ltac:(by left)) as ->. pose proof (normal_get m0 b Hm0) as Nv.
  set (m1 := put (release_votes c (get m0 b)) m).
  assert (G : get m1 a = if decide (a = b) then release c (get m0 a) else get m a).
  { unfold m1. rewrite get_put. cbn [m_address release_votes set_voteRecord set_holdVotes].
    rewrite (n_address _ _ Nv). by case_decide; subst. }
  destruct (IH m1) as [I1 I2].
  - intros b' v' Hb. apply Hl. by right.
  - rewrite G. case_decide; [by right|done].
  - cbn [fst snd]. fold m1. split.
    + intros [Hn Hin]%not_elem_of_cons. rewrite (I1 Hin), G. by rewrite decide_False.
    + intros Hin. destruct (decide (a ∈ l.*1)) as [Hl'|Hl']; [by apply I2|].
      apply elem_of_cons in Hin as [->|Hin]; [|done]. rewrite (I1 Hl'), G. by rewrite decide_True.
Qed.

Lemma deregister_refines s m a :
  repr s m -> is_address a ->
  exists b, steps_to (candidateDeregister a) s b (at_bank s (deregister_spec a m)).
Proof.
  intros R Ha. pose proof (r_bank _ _ R) as Hb. exists (m_isCandidate (get m a)).
  unfold candidateDeregister, deregister_spec.
  eapply steps_bind; [by apply (load_step s s m a)|]. intros s1 R1.
  destruct (m_isCandidate (get m a)); cbn [negb]; [|by apply steps_ret].
  destruct (getVoteInfoMap_spec s s1 m R1) as (r & Hst & Hr & Hz).
  eapply steps_bind; [exact Hst|]. intros s2 R2.
  assert (Hl : forall c v, (c, v) ∈ items r -> is_address c /\ v = get m c).
  { intros c v Hin%elem_of_items. by apply Hr. }
  eapply steps_bind; [by apply (release_loop s s2 m m a)|]. intros s3 R3.
  assert (R4 : at_bank s (release a <$> m) s3).
  { destruct R3 as [R3 B3]. split; [|done]. eapply repr_ext; [exact R3|by apply bank_ok_release|].
    intros c Hc. rewrite get_release.
    destruct (get_release_loop a m m (items r) c Hb) as [G1 G2]; [by intros b v [_ ?]%Hl|by left|].
    destruct (decide (c ∈ (items r).*1)) as [Hin|Hin]; [by apply G2|]. rewrite G1 by done.
    assert (Hn : r !! c = None).
    { destruct (r !! c) as [v|] eqn:E; [|done]. exfalso. apply Hin. apply list_elem_of_fmap.
      exists (c, v). split; [done|]. by apply elem_of_items. }
    pose proof (info_of_blank (slots s1) c (Hz c Hc Hn)) as (_ & _ & _ & Hrec).
    rewrite (r_info _ _ (proj1 R1) c Hc) in Hrec. symmetry.
    apply (release_none c); [by apply normal_get|]. by rewrite Hrec, lookup_empty. }
  pose proof (normal_get (release a <$> m) a (bank_ok_release a m Hb Ha)) as Nr.
  eapply steps_bind; [exact (load_step s3 s _ a R4 Ha)|]. intros s4 R5. rewrite get_release in *.
  eapply steps_bind; [apply (save_step s4 s); [exact R5| | |exact (normal_size _ _ Nr)]|].
  - cbn. by rewrite (n_address _ _ (normal_get m a Hb)).
  - apply wf_info_set_names; [by split; [cbn; lia|apply Forall_nil_2]..|].
    apply wf_info_set_received; [by apply is_word_0|]. apply wf_info_set_candidate, Nr.
  - intros s5 R6. by apply steps_ret.
Qed.
End Walk.
