(* ===== verification/VoteInv.v ===== *)
(** * Invariant of the votes

    Sums over the records; the number of votes a candidate has received is the sum of the records
    that name it, and no operation loses or makes votes except mortgage and redeem. *)

From stdpp Require Import gmap sorting.
From S2P Require Import Prelude Words Exn Chainbase Ledger Vote VoteCodec VoteStore VoteSpec VoteMap.

#[local] Open Scope Z_scope.

(** ** Sums over maps *)

Definition total {V} (f : V -> Z) (m : gmap Z V) : Z := map_fold (fun _ v acc => f v + acc) 0 m.

Section Total.
Context {V : Type}.
Implicit Types (f g : V -> Z) (m : gmap Z V).

Lemma total_empty f : total f (∅ : gmap Z V) = 0.
Proof. apply map_fold_empty. Qed.

Lemma total_insert_new f m a v : m !! a = None -> total f (<[a := v]> m) = f v + total f m.
Proof.
  intros E. unfold total. rewrite map_fold_insert_L; [done| |done]. intros. lia.
Qed.

Lemma total_delete f m a v : m !! a = Some v -> total f (delete a m) = total f m - f v.
Proof.
  intros E. rewrite <-(insert_delete_id m a v E) at 2.
  rewrite total_insert_new by apply lookup_delete_eq. lia.
Qed.

Lemma total_insert f m a v :
  total f (<[a := v]> m) = total f m - (match m !! a with Some w => f w | None => 0 end) + f v.
Proof.
  destruct (m !! a) as [w|] eqn:E; [|rewrite total_insert_new by done; lia].
  rewrite <-insert_delete_eq, total_insert_new by apply lookup_delete_eq.
  rewrite (total_delete _ _ _ w) by done. lia.
Qed.

Lemma total_le f g m : (forall a v, m !! a = Some v -> f v <= g v) -> total f m <= total g m.
Proof.
  induction m as [|a v m E IH] using map_ind; intros H; [by rewrite !total_empty|].
  rewrite !total_insert_new by done. apply Z.add_le_mono; [apply (H a), lookup_insert_eq|].
  apply IH. intros b w Hb. apply (H b). rewrite lookup_insert_ne; [done|congruence].
Qed.

Lemma total_ext f g m : (forall a v, m !! a = Some v -> f v = g v) -> total f m = total g m.
Proof. intros H. apply Z.le_antisymm; apply total_le; intros a v E; rewrite (H a v E); lia. Qed.

Lemma total_0 m : total (fun _ => 0) m = 0.
Proof.
  induction m as [|a v m E IH] using map_ind; [apply total_empty|]. by rewrite total_insert_new.
Qed.

Lemma total_nonneg f m : (forall a v, m !! a = Some v -> 0 <= f v) -> 0 <= total f m.
Proof. intros H. rewrite <-(total_0 m). by apply total_le. Qed.

Lemma total_ge f m a v :
  (forall b w, m !! b = Some w -> 0 <= f w) -> m !! a = Some v -> f v <= total f m.
Proof.
  intros H E. pose proof (total_delete f m a v E) as D.
  pose proof (total_nonneg f (delete a m)) as N. enough (0 <= total f (delete a m)) by lia.
  apply N. intros b w [_ Hb]%lookup_delete_Some. by apply (H b).
Qed.

Lemma total_add f g m : total (fun v => f v + g v) m = total f m + total g m.
Proof.
  induction m as [|a v m E IH] using map_ind; [by rewrite !total_empty|].
  rewrite !total_insert_new by done. lia.
Qed.

Lemma total_fmap f (h : V -> V) m : total f (h <$> m) = total (fun v => f (h v)) m.
Proof.
  induction m as [|a v m E IH] using map_ind; [by rewrite fmap_empty, !total_empty|].
  rewrite fmap_insert, !total_insert_new; [by rewrite IH|done|]. by rewrite lookup_fmap, E.
Qed.
End Total.

Lemma total_filter (r : gmap Z Z) : total id (filter (fun p => p.2 <> 0) r) = total id r.
Proof.
  induction r as [|a n r E IH] using map_ind; [by rewrite map_filter_empty|].
  rewrite total_insert_new by done. destruct (decide (n = 0)) as [->|Hn].
  - rewrite map_filter_insert_False by (cbn; tauto). rewrite delete_id by done. rewrite IH. done.
  - rewrite map_filter_insert_True by done. rewrite total_insert_new, IH; [done|].
    apply map_lookup_filter_None. by left.
Qed.

(** ** What a record contributes *)

Definition rec_for (c : Z) (v : VoteInfo) : Z := default 0 (m_voteRecord v !! c).
Definition rec_sum (v : VoteInfo) : Z := total id (m_voteRecord v).

(** All votes of an account, used and unused *)
Definition votes_of (v : VoteInfo) : Z := m_holdVotes v + rec_sum v.

Lemma rec_for_clean c v : rec_for c (clean v) = rec_for c v.
Proof.
  unfold rec_for. cbn. destruct (m_voteRecord v !! c) as [n|] eqn:E.
  - destruct (decide (n = 0)) as [->|Hn].
    + rewrite (proj2 (map_lookup_filter_None _ _ _)); [done|]. right. intros n E'. cbn. congruence.
    + by rewrite (proj2 (map_lookup_filter_Some _ _ _ n)).
  - rewrite (proj2 (map_lookup_filter_None _ _ _)); [done|]. by left.
Qed.

Lemma rec_sum_clean v : rec_sum (clean v) = rec_sum v.
Proof. apply total_filter. Qed.

Lemma votes_of_clean v : votes_of (clean v) = votes_of v.
Proof. unfold votes_of. by rewrite rec_sum_clean. Qed.

Lemma rec_for_insert c to n r v :
  r = m_voteRecord v ->
  rec_for c (set_voteRecord (<[to := n]> r) v) = if decide (c = to) then n else rec_for c v.
Proof.
  intros ->. unfold rec_for. cbn. case_decide as E; [by rewrite E, lookup_insert_eq|by rewrite lookup_insert_ne].
Qed.

Lemma rec_sum_insert to n r v :
  r = m_voteRecord v -> rec_sum (set_voteRecord (<[to := n]> r) v) = rec_sum v - rec_for to v + n.
Proof. intros ->. unfold rec_sum, rec_for. cbn. rewrite total_insert. by destruct (m_voteRecord v !! to). Qed.

Lemma rec_for_nonneg c v : wf_info v -> 0 <= rec_for c v.
Proof.
  intros W. unfold rec_for. destruct (m_voteRecord v !! c) as [n|] eqn:E; cbn; [|done].
  by apply (wf_record v W c n).
Qed.

Lemma rec_for_le c v : wf_info v -> rec_for c v <= rec_sum v.
Proof.
  intros W. unfold rec_for, rec_sum.
  assert (N : forall b n, m_voteRecord v !! b = Some n -> 0 <= id n) by (intros b n E; by apply (wf_record v W b n)).
  destruct (m_voteRecord v !! c) as [n|] eqn:E; cbn; [by apply (total_ge id _ c n)|by apply total_nonneg].
Qed.

Lemma votes_of_nonneg v : wf_info v -> 0 <= m_holdVotes v /\ 0 <= rec_sum v.
Proof.
  intros W. split; [apply W|]. pose proof (rec_for_nonneg 0 v W). pose proof (rec_for_le 0 v W). lia.
Qed.

(** Sums over the bank *)
Lemma total_put (f : VoteInfo -> Z) v m :
  (forall a, f (no_info a) = 0) -> f (clean v) = f v ->
  total f (put v m) = total f m - f (get m (m_address v)) + f v.
Proof.
  intros H0 Hc. unfold put, get. rewrite total_insert, Hc.
  destruct (m !! m_address v); cbn; [done|]. by rewrite H0.
Qed.

Lemma total_get_le (f : VoteInfo -> Z) m a :
  bank_ok m -> (forall v, wf_info v -> 0 <= f v) -> (forall a, f (no_info a) = 0) -> f (get m a) <= total f m.
Proof.
  intros Hb Hf H0.
  assert (N : forall b w, m !! b = Some w -> 0 <= f w) by (intros b w E; by apply Hf, (n_wf b), Hb).
  unfold get. destruct (m !! a) as [v|] eqn:E; cbn; [by apply (total_ge f m a)|].
  rewrite H0. by apply total_nonneg.
Qed.

Lemma rec_for_no_info c a : rec_for c (no_info a) = 0.
Proof. unfold rec_for. cbn. by rewrite lookup_empty. Qed.

Lemma votes_of_no_info a : votes_of (no_info a) = 0.
Proof. unfold votes_of, rec_sum. cbn. by rewrite total_empty. Qed.

Lemma total_rec_put c v m :
  total (rec_for c) (put v m) = total (rec_for c) m - rec_for c (get m (m_address v)) + rec_for c v.
Proof. apply total_put; [apply rec_for_no_info|apply rec_for_clean]. Qed.

Lemma total_votes_put v m :
  total votes_of (put v m) = total votes_of m - votes_of (get m (m_address v)) + votes_of v.
Proof. apply total_put; [apply votes_of_no_info|apply votes_of_clean]. Qed.

(** ** The invariant *)

Record votes_inv (m : bank) : Prop := {
  i_ok : bank_ok m;
  i_received : forall c, m_receivedVote (get m c) = total (rec_for c) m;
  i_voted : forall c, m_isCandidate (get m c) = false -> total (rec_for c) m = 0;
  i_total : total votes_of m < 2 ^ 64
}.

(** The bounds that follow for one account and for one candidate *)
Section Bounds.
Context (m : bank).
Hypothesis I : votes_inv m.

Lemma get_wf a : wf_info (get m a).
Proof. apply (n_wf a), normal_get, I. Qed.

Lemma get_address a : m_address (get m a) = a.
Proof. apply (n_address a), normal_get, I. Qed.

Lemma votes_get_le a : m_holdVotes (get m a) + rec_sum (get m a) <= total votes_of m.
Proof.
  apply (total_get_le votes_of); [apply I| |apply votes_of_no_info].
  intros v W. pose proof (votes_of_nonneg v W). unfold votes_of. lia.
Qed.

Lemma rec_get_le c a : rec_for c (get m a) <= total (rec_for c) m.
Proof. apply total_get_le; [apply I|by intros; apply rec_for_nonneg|apply rec_for_no_info]. Qed.

(** Votes that are held and votes that a candidate has received are different votes *)
Lemma hold_received_le c a : m_holdVotes (get m a) + total (rec_for c) m <= total votes_of m.
Proof.
  assert (N : forall b w, m !! b = Some w -> 0 <= m_holdVotes w /\ rec_for c w <= rec_sum w).
  { intros b w E. pose proof (n_wf _ _ (proj2 (i_ok m I b w E))) as W.
    split; [by apply votes_of_nonneg|by apply rec_for_le]. }
  assert (E : total votes_of m = total m_holdVotes m + total rec_sum m) by apply total_add.
  pose proof (total_le (rec_for c) rec_sum m) as L1.
  assert (L2 : m_holdVotes (get m a) <= total m_holdVotes m).
  { apply total_get_le; [apply I|by intros v W; apply votes_of_nonneg|done]. }
  enough (total (rec_for c) m <= total rec_sum m) by lia. apply L1. intros b w Hb. by apply (N b).
Qed.
End Bounds.

(** A change of the unused votes of one account *)
Lemma votes_of_set_hold h v : votes_of (set_holdVotes h v) = votes_of v + (h - m_holdVotes v).
Proof. unfold votes_of. change (rec_sum (set_holdVotes h v)) with (rec_sum v). cbn. lia. Qed.

Lemma total_set_hold m a h :
  votes_inv m ->
  total votes_of (put (set_holdVotes h (get m a)) m) = total votes_of m + (h - m_holdVotes (get m a)).
Proof.
  intros I. rewrite total_votes_put. cbn [m_address set_holdVotes].
  rewrite (get_address m I), votes_of_set_hold. lia.
Qed.

Lemma votes_set_hold m a h b :
  votes_inv m ->
  votes_of (get (put (set_holdVotes h (get m a)) m) b)
  = votes_of (get m b) + (if decide (b = a) then h - m_holdVotes (get m a) else 0).
Proof.
  intros I. rewrite get_put. cbn [m_address set_holdVotes]. rewrite (get_address m I).
  case_decide as E; [|lia]. by rewrite votes_of_clean, votes_of_set_hold, E.
Qed.

Lemma inv_set_hold m a h :
  votes_inv m -> is_address a -> is_word 64 h ->
  total votes_of m - m_holdVotes (get m a) + h < 2 ^ 64 ->
  votes_inv (put (set_holdVotes h (get m a)) m).
Proof.
  intros I Ha Hh Ht. pose proof (get_address m I a) as Ea. pose proof (normal_get m a (i_ok m I)) as Nv.
  assert (Et : forall c, total (rec_for c) (put (set_holdVotes h (get m a)) m) = total (rec_for c) m).
  { intros c. rewrite total_rec_put. cbn [m_address set_holdVotes]. rewrite Ea.
    change (rec_for c (set_holdVotes h (get m a))) with (rec_for c (get m a)). lia. }
  split.
  - apply bank_ok_put; [apply I|by cbn; rewrite Ea|by apply wf_info_set_hold, (n_wf a)|exact (normal_size _ _ Nv)].
  - intros c. rewrite Et, get_put. case_decide as E; [|apply I]. cbn in E. rewrite Ea in E. subst c.
    rewrite <-(i_received m I a). done.
  - intros c. rewrite Et, get_put. case_decide as E; [|apply I]. cbn in E. rewrite Ea in E. subst c.
    intros Hc. by apply (i_voted m I a).
  - rewrite total_set_hold by done. lia.
Qed.

(** mortgage and redeem *)
Lemma inv_mortgage money a balance m :
  votes_inv m -> is_address a -> 0 <= money ->
  (money <= balance -> total votes_of m + money / VOTES_PRE_ETH < 2 ^ 64) ->
  votes_inv (mortgage_spec money a balance m).1.
Proof.
  intros I Ha Hm Hb. unfold mortgage_spec. case_decide as Hle; [|done]. cbn [fst].
  pose proof (votes_get_le m I a) as Hv. pose proof (votes_of_nonneg _ (get_wf m I a)) as [H1 H2].
  assert (0 <= money / VOTES_PRE_ETH) by (apply Z.div_pos; [done|by unfold VOTES_PRE_ETH]).
  specialize (Hb Hle). rewrite u64_id by (unfold is_word; lia).
  apply inv_set_hold; [done|done|unfold is_word; lia|lia].
Qed.

Lemma inv_redeem votes a balance m :
  votes_inv m -> is_address a -> 0 <= votes -> votes_inv (redeem_spec votes a balance m).1.
Proof.
  intros I Ha Hv. unfold redeem_spec. case_decide as Hle; [|done]. cbn [fst].
  pose proof (wf_hold _ (get_wf m I a)) as Hh. pose proof (i_total m I).
  apply inv_set_hold; [done|done|unfold is_word in *; lia|lia].
Qed.

(** send takes from one account and gives to the other *)
Section Send.
Context (m : bank) (to n a : Z).
Hypothesis I : votes_inv m.
Hypothesis Ha : is_address a.
Hypothesis Ht : is_address to.
Hypothesis Hn : 0 <= n.
Hypothesis Hne : to <> a.
Hypothesis Hle : n <= m_holdVotes (get m a).

Let m1 := put (set_holdVotes (m_holdVotes (get m a) - n) (get m a)) m.
Let m2 := put (set_holdVotes (m_holdVotes (get m1 to) + n) (get m1 to)) m1.

Lemma inv_taken : votes_inv m1 /\ total votes_of m1 = total votes_of m - n.
Proof.
  pose proof (wf_hold _ (get_wf m I a)) as Hh. pose proof (i_total m I). split.
  - apply inv_set_hold; [done|done|unfold is_word in *; lia|lia].
  - unfold m1. rewrite total_set_hold by done. lia.
Qed.

Lemma get_taken : get m1 to = get m to.
Proof. unfold m1. rewrite get_put, decide_False; [done|]. cbn. by rewrite (get_address m I). Qed.

Lemma send_spec_sent : send_spec to n a m = m2 /\ is_word 64 (m_holdVotes (get m1 to) + n).
Proof.
  destruct inv_taken as [I1 T1]. pose proof (votes_get_le m1 I1 to) as L. rewrite get_taken in L.
  pose proof (votes_of_nonneg _ (get_wf m I to)) as [P1 P2]. pose proof (i_total m I).
  assert (W : is_word 64 (m_holdVotes (get m to) + n)) by (unfold is_word; lia).
  unfold send_spec. rewrite decide_False, decide_False by (done || lia). rewrite u64_id by done.
  fold m1. unfold m2. by rewrite get_taken.
Qed.

Lemma inv_sent : votes_inv (send_spec to n a m).
Proof.
  destruct send_spec_sent as [-> W]. destruct inv_taken as [I1 T1]. pose proof (i_total m I).
  apply inv_set_hold; [done|done|done|lia].
Qed.

Lemma total_sent : total votes_of (send_spec to n a m) = total votes_of m.
Proof.
  destruct send_spec_sent as [-> W]. destruct inv_taken as [I1 T1].
  unfold m2. rewrite total_set_hold by done. lia.
Qed.

Lemma votes_sent b :
  votes_of (get (send_spec to n a m) b)
  = votes_of (get m b) + (if decide (b = to) then n else if decide (b = a) then - n else 0).
Proof.
  destruct send_spec_sent as [-> W]. destruct inv_taken as [I1 T1].
  unfold m2. rewrite votes_set_hold by done. unfold m1 at 1. rewrite votes_set_hold by done.
  repeat case_decide; subst; try done; lia.
Qed.
End Send.

Lemma send_spec_same to n a m : ~ (to <> a /\ n <= m_holdVotes (get m a)) -> send_spec to n a m = m.
Proof. intros H. unfold send_spec. case_decide; [done|]. case_decide; [done|]. destruct H. split; [done|lia]. Qed.

Lemma inv_send to n a m :
  votes_inv m -> is_address a -> is_address to -> 0 <= n -> votes_inv (send_spec to n a m).
Proof.
  intros I Ha Ht Hn. destruct (decide (to <> a /\ n <= m_holdVotes (get m a))) as [[]|H]; [by apply inv_sent|].
  by rewrite send_spec_same.
Qed.

Lemma votes_register name url a m b :
  votes_inv m -> votes_of (get (register_spec name url a m) b) = votes_of (get m b) /\
  total votes_of (register_spec name url a m) = total votes_of m.
Proof.
  intros I. unfold register_spec. destruct (m_isCandidate (get m a)); [done|].
  pose proof (get_address m I a) as Ea. set (v := set_isCandidate true (set_names name url (get m a))).
  assert (Ev : m_address v = a) by done. assert (Vv : votes_of v = votes_of (get m a)) by done.
  rewrite get_put, total_votes_put, Ev, Vv. split; [|lia]. case_decide as E; [|done].
  by rewrite votes_of_clean, Vv, E.
Qed.

Lemma inv_register name url a m :
  votes_inv m -> is_address a ->
  (length name <= NameMaxSize)%nat /\ Forall is_byte name -> (length url <= URLMaxSize)%nat /\ Forall is_byte url ->
  votes_inv (register_spec name url a m).
Proof.
  intros I Ha Hn Hu. unfold register_spec. destruct (m_isCandidate (get m a)) eqn:Hc; [done|].
  set (v := set_isCandidate true (set_names name url (get m a))).
  pose proof (get_address m I a) as Ea. pose proof (normal_get m a (i_ok m I)) as Nv.
  assert (Et : forall c, total (rec_for c) (put v m) = total (rec_for c) m).
  { intros c. rewrite total_rec_put. change (m_address v) with (m_address (get m a)). rewrite Ea.
    change (rec_for c v) with (rec_for c (get m a)). lia. }
  split.
  - apply bank_ok_put; [apply I|by cbn; rewrite Ea| |exact (normal_size _ _ Nv)].
    apply wf_info_set_candidate, wf_info_set_names; [done..|apply Nv].
  - intros c. rewrite Et, get_put. case_decide as E; [|apply I]. cbn in E. rewrite Ea in E. subst c.
    by rewrite <-(i_received m I a).
  - intros c. rewrite Et, get_put. case_decide as E; [done|apply I].
  - pose proof (proj2 (votes_register name url a m a I)) as T. unfold register_spec in T.
    rewrite Hc in T. fold v in T. rewrite T. apply I.
Qed.

(** ** Votes that move between an account and a candidate *)

Lemma rec_for_receive c d v : rec_for c (receive d v) = rec_for c v.
Proof. done. Qed.

Lemma votes_of_receive d v : votes_of (receive d v) = votes_of v.
Proof. done. Qed.

(** [d] votes of [from] go to the candidate [to]; [r] and [h] are the new record and the votes left *)
Definition moved (to d from r h : Z) (m : bank) : bank :=
  let m1 := put (receive d (get m to)) m in
  put (set_voteRecord (<[to := r]> (m_voteRecord (get m1 from))) (set_holdVotes h (get m1 from))) m1.

Record move_ok (to d from r h : Z) (m : bank) : Prop := {
  mv_to : is_address to;
  mv_from : is_address from;
  mv_cand : m_isCandidate (get m to) = true;
  mv_rec : r = rec_for to (get m from) + d /\ 0 <= r;
  mv_hold : h = m_holdVotes (get m from) - d /\ 0 <= h;
  mv_size : (size (m_voteRecord (get m from)) < 15)%nat \/ is_Some (m_voteRecord (get m from) !! to)
}.

Section Move.
Context (m : bank) (to d from r h : Z).
Hypothesis I : votes_inv m.
Hypothesis Mv : move_ok to d from r h m.

Let m1 := put (receive d (get m to)) m.
Let v1 := get m1 from.
Let w := set_voteRecord (<[to := r]> (m_voteRecord v1)) (set_holdVotes h v1).

Lemma move_bounds : is_word 64 r /\ is_word 64 h /\ is_word 64 (m_receivedVote (get m to) + d).
Proof.
  destruct Mv as [_ _ _ Hr Hh _].
  pose proof (votes_get_le m I from) as L. pose proof (rec_for_le to _ (get_wf m I from)) as L1.
  pose proof (hold_received_le m I to from) as L2. pose proof (rec_get_le m I to from) as L3.
  pose proof (i_total m I) as T. pose proof (rec_for_nonneg to _ (get_wf m I from)) as N.
  rewrite (i_received m I to). unfold is_word. lia.
Qed.

Lemma v1_get : v1 = if decide (from = to) then receive d (get m from) else get m from.
Proof. unfold v1, m1. apply get_receive, I. Qed.

Lemma v1_normal : normal from v1.
Proof.
  rewrite v1_get. pose proof (normal_get m from (i_ok m I)) as N.
  case_decide; [by apply receive_normal|done].
Qed.

Lemma v1_same : m_voteRecord v1 = m_voteRecord (get m from) /\ m_holdVotes v1 = m_holdVotes (get m from) /\
  m_isCandidate v1 = m_isCandidate (get m from) /\ votes_of v1 = votes_of (get m from) /\
  forall c, rec_for c v1 = rec_for c (get m from).
Proof. rewrite v1_get. by case_decide. Qed.

Lemma m1_received c :
  m_receivedVote (get m1 c) = m_receivedVote (get m c) + (if decide (c = to) then d else 0) /\
  m_isCandidate (get m1 c) = m_isCandidate (get m c).
Proof.
  unfold m1. rewrite get_receive by apply I. case_decide as E; [|split; [lia|done]]. rewrite E. cbn.
  rewrite u64_id by apply move_bounds. done.
Qed.

Lemma m1_totals : total votes_of m1 = total votes_of m /\ forall c, total (rec_for c) m1 = total (rec_for c) m.
Proof.
  assert (Ea : m_address (receive d (get m to)) = to) by apply (get_address m I).
  unfold m1. split; [rewrite total_votes_put, Ea, votes_of_receive; lia|].
  intros c. rewrite total_rec_put, Ea, rec_for_receive. lia.
Qed.

Lemma m1_ok : bank_ok m1.
Proof.
  destruct (receive_normal to d (get m to)) as [[A W C Sz] _]; [apply normal_get, I|].
  apply bank_ok_put; [apply I|rewrite A; apply Mv|done|]. etrans; [apply size_filter_le|done].
Qed.

Lemma w_address : m_address w = from.
Proof. apply v1_normal. Qed.

Lemma rec_for_w c : rec_for c w = rec_for c (get m from) + (if decide (c = to) then d else 0).
Proof.
  destruct v1_same as (_ & _ & _ & _ & Vf). pose proof (mv_rec _ _ _ _ _ _ Mv) as [Hr _].
  unfold w. rewrite rec_for_insert by done. case_decide as E; [rewrite E; lia|].
  change (rec_for c (set_holdVotes h v1)) with (rec_for c v1). rewrite Vf. lia.
Qed.

Lemma votes_of_w : votes_of w = votes_of (get m from).
Proof.
  destruct v1_same as (Vr & _ & _ & _ & Vf). pose proof (mv_rec _ _ _ _ _ _ Mv) as [Hr _].
  pose proof (mv_hold _ _ _ _ _ _ Mv) as [Hh _].
  unfold votes_of, w. rewrite rec_sum_insert by done. cbn [m_holdVotes set_voteRecord set_holdVotes].
  change (rec_sum (set_holdVotes h v1)) with (rec_sum v1).
  change (rec_for to (set_holdVotes h v1)) with (rec_for to v1). rewrite Vf. unfold rec_sum. rewrite Vr. lia.
Qed.

Lemma total_moved : total votes_of (moved to d from r h m) = total votes_of m.
Proof.
  destruct m1_totals as [T1 _]. destruct v1_same as (_ & _ & _ & Vv & _).
  unfold moved. fold m1 v1 w. rewrite total_votes_put, w_address. fold v1. rewrite Vv, T1, votes_of_w. lia.
Qed.

(** Nobody has more or fewer votes *)
Lemma votes_moved b : votes_of (get (moved to d from r h m) b) = votes_of (get m b).
Proof.
  unfold moved. fold m1 v1 w. rewrite get_put, w_address. case_decide as E.
  - by rewrite votes_of_clean, votes_of_w, E.
  - unfold m1. rewrite get_receive by apply I. by case_decide.
Qed.

Lemma inv_move : votes_inv (moved to d from r h m).
Proof.
  destruct move_bounds as (Br & Bh & _). destruct v1_same as (Vr & _ & _ & _ & Vf).
  destruct m1_totals as [_ T2]. pose proof v1_normal as Nv. destruct Mv as [Hto Hfrom Hcand _ _ Hsize].
  split; [| | |rewrite total_moved; apply I]; unfold moved; fold m1 v1 w;
    assert (Tw : forall c, total (rec_for c) (put w m1) = total (rec_for c) m + (if decide (c = to) then d else 0))
      by (intros c; rewrite total_rec_put, w_address; fold v1; rewrite Vf, rec_for_w, T2; lia);
    assert (Gw : forall c, m_receivedVote (get (put w m1) c) = m_receivedVote (get m1 c) /\
                           m_isCandidate (get (put w m1) c) = m_isCandidate (get m1 c))
      by (intros c; rewrite get_put, w_address; case_decide as E; [by rewrite E|done]).
  - apply bank_ok_put; [apply m1_ok|by rewrite w_address| |].
    + apply wf_info_insert_record; [done|done|done|apply Nv|]. apply wf_info_set_hold; [done|apply Nv].
    + cbn. etrans; [apply size_filter_le|]. rewrite Vr. destruct Hsize as [Hs|Hs].
      * rewrite map_size_insert. destruct (m_voteRecord (get m from) !! to); cbn; lia.
      * rewrite map_size_insert_Some by done. apply (n_records from), normal_get, I.
  - intros c. destruct (Gw c) as [-> _]. destruct (m1_received c) as [-> _]. by rewrite Tw, (i_received m I).
  - intros c. destruct (Gw c) as [_ ->]. destruct (m1_received c) as [_ ->]. rewrite Tw. intros Hc.
    rewrite (i_voted m I c Hc). case_decide as E; [|done]. rewrite E in Hc. congruence.
Qed.
End Move.

Definition moves (m m' : bank) : Prop :=
  m' = m \/ exists to d from r h, move_ok to d from r h m /\ m' = moved to d from r h m.

Lemma vote_moves to n from m :
  votes_inv m -> is_address from -> is_address to -> 0 <= n -> moves m (vote_spec to n from m).
Proof.
  intros I Hf Ht Hn. unfold vote_spec. case_decide as Hlt; [by left|].
  case_decide as Hs; [by left|]. destruct (m_isCandidate (get m to)) eqn:Hc; [cbn [negb]|by left].
  set (m1 := put (receive n (get m to)) m). set (v1 := get m1 from).
  assert (V : m_voteRecord v1 = m_voteRecord (get m from) /\ m_holdVotes v1 = m_holdVotes (get m from)).
  { unfold v1, m1. rewrite get_receive by apply I. by case_decide. }
  destruct V as [Vr Vh]. pose proof (votes_get_le m I from) as L. pose proof (i_total m I) as T.
  pose proof (rec_for_le to _ (get_wf m I from)) as Lr. pose proof (rec_for_nonneg to _ (get_wf m I from)) as N.
  right. exists to, n, from, (rec_for to (get m from) + n), (m_holdVotes (get m from) - n). split.
  - split; try done; try (split; [done|lia]).
    destruct (decide (size (m_voteRecord (get m from)) < 15)%nat) as [|Hge]; [by left|right].
    destruct (m_voteRecord (get m from) !! to) as [k|] eqn:Ek; [done|]. destruct Hs. split; [lia|done].
  - unfold moved. fold m1 v1. f_equal.
    unfold recordVoteTo. cbn [m_voteRecord set_holdVotes]. rewrite Vr, Vh. unfold rec_for in *.
    destruct (m_voteRecord (get m from) !! to) as [k|]; cbn [default from_option id] in *; [|done].
    rewrite u64_id; [done|]. unfold is_word. lia.
Qed.

Lemma removeVote_moves to n from m :
  votes_inv m -> is_address from -> is_address to -> 0 <= n -> moves m (removeVote_spec to n from m).
Proof.
  intros I Hf Ht Hn. unfold removeVote_spec. destruct (m_voteRecord (get m from) !! to) as [k|] eqn:Ek; [|by left].
  case_decide as Hlt; [by left|]. destruct (m_isCandidate (get m to)) eqn:Hc; [cbn [negb]|by left].
  set (m1 := put (receive (- n) (get m to)) m). set (v1 := get m1 from).
  assert (Vh : m_holdVotes v1 = m_holdVotes (get m from)).
  { unfold v1, m1. rewrite get_receive by apply I. by case_decide. }
  assert (Rk : rec_for to (get m from) = k) by (unfold rec_for; by rewrite Ek).
  pose proof (votes_get_le m I from) as L. pose proof (i_total m I) as T.
  pose proof (rec_for_le to _ (get_wf m I from)) as Lr.
  pose proof (proj1 (votes_of_nonneg _ (get_wf m I from))) as N.
  rewrite Vh, u64_id by (unfold is_word; lia).
  right. exists to, (- n), from, (k - n), (m_holdVotes (get m from) + n). split; [|done].
  split; try done; [split; lia|split; lia|right; by exists k].
Qed.

Section Moves.
Context (m m' : bank).
Hypothesis I : votes_inv m.
Hypothesis Mv : moves m m'.

Lemma inv_moves : votes_inv m'.
Proof. destruct Mv as [->|(? & ? & ? & ? & ? & ? & ->)]; [done|by apply inv_move]. Qed.

Lemma total_moves : total votes_of m' = total votes_of m.
Proof. destruct Mv as [->|(? & ? & ? & ? & ? & ? & ->)]; [done|by apply total_moved]. Qed.

Lemma votes_moves b : votes_of (get m' b) = votes_of (get m b).
Proof. destruct Mv as [->|(? & ? & ? & ? & ? & ? & ->)]; [done|by apply votes_moved]. Qed.
End Moves.

(** ** Deregistration *)

Lemma rec_for_release c a v : rec_for c (release a v) = if decide (c = a) then 0 else rec_for c v.
Proof. unfold release. rewrite rec_for_clean. unfold release_votes. by rewrite rec_for_insert. Qed.

Lemma votes_of_release m a c :
  votes_inv m -> votes_of (release c (get m a)) = votes_of (get m a).
Proof.
  intros I. pose proof (votes_get_le m I a) as L. pose proof (i_total m I) as T.
  pose proof (rec_for_le c _ (get_wf m I a)) as Lr. pose proof (rec_for_nonneg c _ (get_wf m I a)) as N.
  pose proof (votes_of_nonneg _ (get_wf m I a)) as [N1 N2].
  unfold release. rewrite votes_of_clean. unfold votes_of, release_votes.
  fold (rec_for c (get m a)). set (v := set_holdVotes _ (get m a)).
  rewrite rec_sum_insert by done. cbn [m_holdVotes set_voteRecord v set_holdVotes].
  rewrite u64_id by (unfold is_word; lia).
  change (rec_sum v) with (rec_sum (get m a)). change (rec_for c v) with (rec_for c (get m a)). lia.
Qed.

(** The released votes stay with the accounts that cast them *)
Lemma votes_deregister a m b :
  votes_inv m -> votes_of (get (deregister_spec a m) b) = votes_of (get m b) /\
  total votes_of (deregister_spec a m) = total votes_of m.
Proof.
  intros I. unfold deregister_spec. destruct (m_isCandidate (get m a)) eqn:Hc; [|done].
  set (v := set_names [] [] (set_receivedVote 0 (set_isCandidate false (release a (get m a))))).
  assert (Ev : m_address v = a) by apply (get_address m I).
  assert (Vv : votes_of v = votes_of (get m a)) by by apply (votes_of_release m a a I).
  assert (T : total votes_of (release a <$> m) = total votes_of m).
  { rewrite total_fmap. apply total_ext. intros c w Hw.
    assert (Gw : get m c = w) by (unfold get; by rewrite Hw). rewrite <-Gw. by apply votes_of_release. }
  rewrite get_put, total_votes_put, Ev, Vv, !get_release, votes_of_release, T by done. split; [|lia].
  case_decide as E; [by rewrite votes_of_clean, Vv, E|by apply votes_of_release].
Qed.

Lemma inv_deregister a m : votes_inv m -> is_address a -> votes_inv (deregister_spec a m).
Proof.
  intros I Ha. unfold deregister_spec. destruct (m_isCandidate (get m a)) eqn:Hc; [|done].
  set (m1 := release a <$> m).
  set (v := set_names [] [] (set_receivedVote 0 (set_isCandidate false (release a (get m a))))).
  assert (Ok1 : bank_ok m1) by (apply bank_ok_release; [apply I|done]).
  assert (G1 : forall c, get m1 c = release a (get m c)) by (intros c; apply get_release).
  assert (Ev : m_address v = a) by apply (get_address m I).
  assert (T1 : forall c, total (rec_for c) m1 = if decide (c = a) then 0 else total (rec_for c) m).
  { intros c. unfold m1. rewrite total_fmap. case_decide as E.
    - rewrite <-(total_0 m). apply total_ext. intros b w _. rewrite rec_for_release. by rewrite decide_True.
    - apply total_ext. intros b w _. rewrite rec_for_release. by rewrite decide_False. }
  assert (T : forall c, total (rec_for c) (put v m1) = if decide (c = a) then 0 else total (rec_for c) m).
  { intros c. rewrite total_rec_put, Ev, G1. change (rec_for c v) with (rec_for c (release a (get m a))).
    rewrite T1. lia. }
  pose proof (normal_get m1 a Ok1) as Nv. rewrite G1 in Nv. split.
  - apply bank_ok_put; [done|by rewrite Ev| |exact (normal_size _ _ Nv)].
    apply wf_info_set_names; [by split; [cbn; lia|apply Forall_nil_2]..|].
    apply wf_info_set_received; [by apply is_word_0|]. apply wf_info_set_candidate, Nv.
  - intros c. rewrite T, get_put, Ev. case_decide as E; [done|]. rewrite G1. apply (i_received m I c).
  - intros c. rewrite T, get_put, Ev. case_decide as E; [done|]. rewrite G1. apply (i_voted m I c).
  - pose proof (proj2 (votes_deregister a m a I)) as Td. unfold deregister_spec in Td.
    rewrite Hc in Td. fold m1 v in Td. rewrite Td. apply I.
Qed.
