(* ===== verification/VoteCall.v ===== *)
(** * The precompiled vote contracts

    A call as the executive makes it: a contract, the input bytes and the caller.  The input is
    read into an order first, and the order has its effect on the records and on the balance of
    the caller; [precompiled_refines] shows that the contracts of Vote.cpp implement this. *)

From stdpp Require Import gmap sorting.
From S2P Require Import Prelude Words Exn Chainbase Ledger Vote VoteCodec VoteStore VoteSpec VoteMap VoteInv.

#[local] Open Scope Z_scope.

(** The registered names *)
Inductive contract :=
  | c_mortgage | c_redeem | c_candidateRegister | c_candidateDeregister | c_vote | c_removeVote | c_send.

Definition precompiled {S : Type} `{!Ledger S} `{!Boost} (c : contract) : list Z -> Z -> M S unit :=
  match c with
  | c_mortgage => pre_mortgage
  | c_redeem => pre_redeem
  | c_candidateRegister => pre_candidateRegister
  | c_candidateDeregister => pre_candidateDeregister
  | c_vote => pre_vote
  | c_removeVote => pre_removeVote
  | c_send => pre_send
  end.

(** ** Orders *)

Inductive order :=
  | o_none
  | o_mortgage (money : Z)
  | o_redeem (votes : Z)
  | o_register (name url : list Z)
  | o_deregister
  | o_vote (to votes : Z)
  | o_removeVote (to votes : Z)
  | o_send (to votes : Z).

Section Parse.
Context `{Bst : !Boost}.

Definition parse_number (text : list Z) (k : Z -> order) : order + exn :=
  match lexical_cast text with Some n => inl (k n) | None => inr bad_lexical_cast end.

Definition parse_to_number (input : list Z) (k : Z -> Z -> order) : order + exn :=
  if decide (length input < 20)%nat then inr undefined_behaviour
  else parse_number (drop 20 input) (k (be_of_bytes (take 20 input))).

(** A name and a url with one zero between them *)
Definition parse_names (input : list Z) : order :=
  match list_find (fun b => b = 0) input with
  | Some (pos, _) =>
      if decide (1 <= pos <= NameMaxSize /\ URLMinSize <= length input - pos - 1 <= URLMaxSize)%nat
      then o_register (take pos input) (drop (pos + 1) input)
      else o_none
  | None => o_none
  end.

Definition parse (c : contract) (input : list Z) : order + exn :=
  match c with
  | c_mortgage => parse_number input o_mortgage
  | c_redeem => parse_number input o_redeem
  | c_candidateRegister => inl (parse_names input)
  | c_candidateDeregister => inl o_deregister
  | c_vote => parse_to_number input o_vote
  | c_removeVote => parse_to_number input o_removeVote
  | c_send => parse_to_number input o_send
  end.
End Parse.

(** The effect of an order of [a] on the records and on the balance of [a] *)
Definition exec (o : order) (a balance : Z) (m : bank) : bank * Z :=
  match o with
  | o_none => (m, balance)
  | o_mortgage money => mortgage_spec money a balance m
  | o_redeem votes => redeem_spec votes a balance m
  | o_register name url => (register_spec name url a m, balance)
  | o_deregister => (deregister_spec a m, balance)
  | o_vote to n => (vote_spec to n a m, balance)
  | o_removeVote to n => (removeVote_spec to n a m, balance)
  | o_send to n => (send_spec to n a m, balance)
  end.

(** What the operands of an order can be *)
Definition order_ok (o : order) : Prop :=
  match o with
  | o_none | o_deregister => True
  | o_mortgage n | o_redeem n => is_word 64 n
  | o_register name url =>
      ((length name <= NameMaxSize)%nat /\ Forall is_byte name) /\
      ((length url <= URLMaxSize)%nat /\ Forall is_byte url)
  | o_vote to n | o_removeVote to n | o_send to n => is_address to /\ is_word 64 n
  end.

Section Calls.
Context `{Bst : !Boost}.

Lemma parse_names_ok input : Forall is_byte input -> order_ok (parse_names input).
Proof.
  intros Hb. unfold parse_names. destruct (list_find _ input) as [[pos b]|]; [|done].
  case_decide as Hp; [|done]. cbn. rewrite length_take, length_drop.
  split; (split; [lia|]); [by apply Forall_take|by apply Forall_drop].
Qed.

Lemma input_address_ok input : Forall is_byte input -> (20 <= length input)%nat -> is_address (be_of_bytes (take 20 input)).
Proof.
  intros Hb Hl. unfold be_of_bytes.
  assert (H : Forall is_byte (reverse (take 20 input))) by by apply Forall_reverse, Forall_take.
  pose proof (le_of_bytes_range _ H) as R. rewrite length_reverse, length_take in R.
  by replace (20 `min` length input)%nat with 20%nat in R by lia.
Qed.

Lemma parse_ok c input o : Forall is_byte input -> parse c input = inl o -> order_ok o.
Proof.
  assert (P : forall text k o, parse_number text k = inl o -> exists n, is_word 64 n /\ o = k n).
  { intros text k o'. unfold parse_number. destruct (lexical_cast text) as [n|] eqn:E; [|done].
    intros [= <-]. exists n. split; [by eapply lexical_cast_range|done]. }
  assert (Q : forall k o, parse_to_number input k = inl o -> Forall is_byte input ->
            exists to n, is_address to /\ is_word 64 n /\ o = k to n).
  { intros k o'. unfold parse_to_number. case_decide as Hl; [done|]. intros (n & Hn & ->)%P Hb.
    eexists _, n. split_and!; [|done|done]. apply input_address_ok; [done|lia]. }
  intros Hb. destruct c; cbn [parse].
  - by intros (n & Hn & ->)%P.
  - by intros (n & Hn & ->)%P.
  - intros [= <-]. by apply parse_names_ok.
  - by intros [= <-].
  - by intros (to & n & Ht & Hn & ->)%Q.
  - by intros (to & n & Ht & Hn & ->)%Q.
  - by intros (to & n & Ht & Hn & ->)%Q.
Qed.

(** ** Refinement *)

Context {S : Type} `{!Ledger S} `{!LedgerLaws S}.

(** What an order does to a state *)
Definition performs (o : order) (a : Z) (s : S) (m : bank) (s' : S) : Prop :=
  let r := exec o a (balances s a) m in
  repr s' r.1 /\ forall c, balances s' c = if decide (c = a) then r.2 else balances s c.

Lemma performs_at_bank o a s m s' :
  (exec o a (balances s a) m).2 = balances s a ->
  at_bank s (exec o a (balances s a) m).1 s' -> performs o a s m s'.
Proof.
  intros E [R B]. split; [done|]. intros c. rewrite B, E. by case_decide; subst.
Qed.

Lemma discard_result {A} (m : M S A) s s' a : m s = (s', inl a) -> (m;; mret tt) s = (s', inl tt).
Proof. intros E. by rewrite (bind_inl _ _ _ _ _ E). Qed.

(** A call that does what its order says *)
Lemma call_order (f : M S bool) o a s m s' b :
  f s = (s', inl b) -> performs o a s m s' ->
  exists s', (f;; mret tt) s = (s', inl tt) /\ performs o a s m s'.
Proof. intros E H. exists s'. split; [by eapply discard_result|done]. Qed.

Lemma call_order_at (f : M S bool) o a s m :
  (exec o a (balances s a) m).2 = balances s a ->
  (exists b, steps_to f s b (at_bank s (exec o a (balances s a) m).1)) ->
  exists s', (f;; mret tt) s = (s', inl tt) /\ performs o a s m s'.
Proof. intros E (b & s' & Hf & R). eapply call_order; [exact Hf|]. by apply performs_at_bank. Qed.

Definition result (c : contract) (input : list Z) (a : Z) (s : S) (m : bank) : Prop :=
  match parse c input with
  | inl o => exists s', precompiled c input a s = (s', inl tt) /\ performs o a s m s'
  | inr e => precompiled c input a s = (s, inr e)
  end.

(** A text that is a number *)
Lemma number_result text (k : Z -> M S unit) (ko : Z -> order) a s m :
  (forall n, is_word 64 n -> exists s', k n s = (s', inl tt) /\ performs (ko n) a s m s') ->
  match parse_number text ko with
  | inl o => exists s', (cast_number text ≫= k) s = (s', inl tt) /\ performs o a s m s'
  | inr e => (cast_number text ≫= k) s = (s, inr e)
  end.
Proof.
  intros Hk. unfold cast_number, parse_number.
  destruct (lexical_cast text) as [n|] eqn:E; [|by apply bind_inr].
  apply (Hk n). by eapply lexical_cast_range.
Qed.

(** An address and a number *)
Lemma to_number_result input (k : Z -> Z -> M S unit) (ko : Z -> Z -> order) a s m :
  Forall is_byte input ->
  (forall to n, is_address to -> is_word 64 n ->
     exists s', k to n s = (s', inl tt) /\ performs (ko to n) a s m s') ->
  let call := to ← input_address input; n ← cast_number (drop AddressLength input); k to n in
  match parse_to_number input ko with
  | inl o => exists s', call s = (s', inl tt) /\ performs o a s m s'
  | inr e => call s = (s, inr e)
  end.
Proof.
  intros Hb Hk. unfold input_address, parse_to_number. change AddressLength with 20%nat. cbv zeta.
  case_decide as Hl; [by apply bind_inr|]. apply number_result. intros n Hn. apply Hk; [|done].
  apply input_address_ok; [done|lia].
Qed.

Lemma sub_rest (input : list Z) pos :
  sub input (pos + 1) (length input - pos - 1) = drop (pos + 1) input.
Proof. unfold sub. apply take_ge. rewrite length_drop. lia. Qed.

Lemma register_result input a s m :
  repr s m -> is_address a -> Forall is_byte input ->
  exists s', pre_candidateRegister input a s = (s', inl tt) /\ performs (parse_names input) a s m s'.
Proof.
  intros R Ha Hb. pose proof (parse_names_ok input Hb) as Hok. unfold pre_candidateRegister, parse_names in *.
  assert (Hnone : performs o_none a s m s) by by apply performs_at_bank.
  destruct (list_find _ input) as [[pos b]|] eqn:E.
  2: { exists s. by case_decide. }
  destruct (proj1 (list_find_Some _ _ _ _) E) as (Hlt%lookup_lt_Some & _ & _).
  unfold NameMinSize, URLMinSize, NameMaxSize, URLMaxSize in *.
  destruct (decide (1 <= pos <= 40 /\ 5 <= length input - pos - 1 <= 120)%nat) as [Hc|Hc].
  - rewrite decide_False by lia. rewrite decide_False by lia. rewrite sub_rest.
    apply call_order_at; [done|]. apply register_refines; [done|done|apply Hok|apply Hok].
  - exists s. case_decide; [done|]. by rewrite decide_True by lia.
Qed.

Lemma precompiled_result c input a s m :
  repr s m -> is_address a -> Forall is_byte input -> result c input a s m.
Proof.
  intros R Ha Hb. unfold result. destruct c; cbn [parse precompiled].
  - apply number_result. intros n Hn. destruct (mortgage_refines s m n a R Ha Hn) as (s' & b & E & H).
    by eapply call_order.
  - apply number_result. intros n Hn. destruct (redeem_refines s m n a R Ha Hn) as (s' & b & E & H).
    by eapply call_order.
  - by apply register_result.
  - apply call_order_at; [done|]. by apply deregister_refines.
  - apply (to_number_result _ (fun to n => vote to n a;; mret tt)); [done|]. intros to n Ht Hn. apply call_order_at; [done|]. by apply vote_refines.
  - apply (to_number_result _ (fun to n => removeVote to n a;; mret tt)); [done|]. intros to n Ht Hn. apply call_order_at; [done|]. by apply removeVote_refines.
  - apply (to_number_result _ (fun to n => send to n a;; mret tt)); [done|]. intros to n Ht Hn. apply call_order_at; [done|]. by apply send_refines.
Qed.
End Calls.
