(* ===== verification/VoteReach.v ===== *)
(** * Votes and money over any sequence of calls

    The states that calls of the vote contracts and any other transactions lead to, with a bound
    on the money there is.  In each of them the records satisfy [votes_inv], the producers that
    the chain reads are the candidates with the votes that were cast for them, and money and
    votes together stay within the bound. *)

From stdpp Require Import gmap sorting.
From S2P Require Import Prelude Words Exn Chainbase Ledger Vote VoteCodec VoteStore VoteSpec VoteMap VoteInv VoteCall.

#[local] Open Scope Z_scope.

(** ** The effect of an order *)

(** What [b] gains when [a] gives the order [o]: sent votes, and the wei that redeem drops *)
Definition gain (o : order) (a hold b : Z) : Z :=
  match o with
  | o_send to n =>
      if decide (to <> a /\ n <= hold) then
        VOTES_PRE_ETH * (if decide (b = to) then n else if decide (b = a) then - n else 0)
      else 0
  | o_redeem n =>
      if decide (b = a /\ n <= hold) then u64 (n * VOTES_PRE_ETH) - n * VOTES_PRE_ETH else 0
  | _ => 0
  end.

Section Exec.
Context (m : bank) (o : order) (a balance : Z).
Hypothesis I : votes_inv m.
Hypothesis Ha : is_address a.
Hypothesis Ho : order_ok o.
(** There is no more money than the 64-bit counters of votes can hold *)
Hypothesis Hb : 0 <= balance /\ balance + VOTES_PRE_ETH * total votes_of m < 2 ^ 64 * VOTES_PRE_ETH.

Lemma mortgage_bound money :
  0 <= money <= balance -> 0 <= money / VOTES_PRE_ETH /\ total votes_of m + money / VOTES_PRE_ETH < 2 ^ 64 /\
  VOTES_PRE_ETH * (money / VOTES_PRE_ETH) <= money.
Proof.
  intros Hm. pose proof (Z.div_pos money VOTES_PRE_ETH) as P. pose proof (Z.mul_div_le money VOTES_PRE_ETH) as L.
  unfold VOTES_PRE_ETH in *. lia.
Qed.

Lemma mortgage_hold money :
  0 <= money <= balance ->
  u64 (m_holdVotes (get m a) + money / VOTES_PRE_ETH) = m_holdVotes (get m a) + money / VOTES_PRE_ETH.
Proof.
  intros Hm. destruct (mortgage_bound money Hm) as (P & L & _). apply u64_id.
  pose proof (votes_get_le m I a). pose proof (votes_of_nonneg _ (get_wf m I a)). unfold is_word. lia.
Qed.

Lemma redeem_money n :
  is_word 64 n -> n <= m_holdVotes (get m a) ->
  (balance + u64 (n * VOTES_PRE_ETH)) mod 2 ^ 256 = balance + u64 (n * VOTES_PRE_ETH) /\
  u64 (n * VOTES_PRE_ETH) <= n * VOTES_PRE_ETH.
Proof.
  intros Hn Hle. pose proof (u64_range (n * VOTES_PRE_ETH)) as R.
  assert (L : u64 (n * VOTES_PRE_ETH) <= n * VOTES_PRE_ETH).
  { rewrite u64_mod. apply Z.mod_le; [unfold is_word, VOTES_PRE_ETH in *; lia|done]. }
  split; [|done]. apply Z.mod_small. pose proof (votes_get_le m I a).
  pose proof (votes_of_nonneg _ (get_wf m I a)). unfold is_word, VOTES_PRE_ETH in *. lia.
Qed.

Lemma inv_exec : votes_inv (exec o a balance m).1.
Proof.
  destruct o as [|money|n|name url| |to n|to n|to n]; cbn [exec order_ok fst] in *.
  - done.
  - apply inv_mortgage; [done|done|by destruct Ho|]. intros Hle. apply mortgage_bound. split; [by destruct Ho|done].
  - apply inv_redeem; [done|done|by destruct Ho].
  - apply inv_register; [done|done|apply Ho|apply Ho].
  - by apply inv_deregister.
  - destruct Ho as [Ht [Hn _]]. eapply inv_moves, vote_moves; done.
  - destruct Ho as [Ht [Hn _]]. eapply inv_moves, removeVote_moves; done.
  - destruct Ho as [Ht [Hn _]]. by apply inv_send.
Qed.

(** Money and votes of one account *)
Lemma exec_worth b :
  let r := exec o a balance m in
  (if decide (b = a) then r.2 - balance else 0) + VOTES_PRE_ETH * votes_of (get r.1 b)
  = VOTES_PRE_ETH * votes_of (get m b) + gain o a (m_holdVotes (get m a)) b.
Proof.
  assert (E : forall m', votes_of (get m' b) = votes_of (get m b) ->
    (if decide (b = a) then balance - balance else 0) + VOTES_PRE_ETH * votes_of (get m' b)
    = VOTES_PRE_ETH * votes_of (get m b) + 0) by (intros m' ->; case_decide; lia).
  destruct o as [|money|n|name url| |to n|to n|to n]; cbn [exec order_ok fst snd gain] in *.
  - by apply E.
  - unfold mortgage_spec. destruct (decide (money <= balance)) as [Hle|]; [|by apply E]. cbn [fst snd].
    assert (Hm : 0 <= money <= balance) by (split; [by destruct Ho|done]).
    rewrite mortgage_hold, votes_set_hold by done. case_decide; lia.
  - unfold redeem_spec. destruct (decide (n <= m_holdVotes (get m a))) as [Hle|Hgt]; cbn [fst snd].
    + rewrite votes_set_hold by done. destruct (redeem_money n Ho Hle) as [-> _].
      destruct (decide (b = a)) as [->|Hba]; [rewrite decide_True by done; lia|].
      rewrite decide_False by tauto. lia.
    + rewrite (decide_False (P := b = a /\ _)) by tauto. by apply E.
  - by apply E, votes_register.
  - by apply E, votes_deregister.
  - destruct Ho as [Ht [Hn _]]. apply E. eapply votes_moves, vote_moves; done.
  - destruct Ho as [Ht [Hn _]]. apply E. eapply votes_moves, removeVote_moves; done.
  - destruct Ho as [Ht [Hn _]]. destruct (decide (to <> a /\ n <= m_holdVotes (get m a))) as [[Hne Hle]|H].
    + rewrite votes_sent by done. case_decide; lia.
    + rewrite send_spec_same by done. by apply E.
Qed.

(** Money and votes of all *)
Lemma exec_total :
  let r := exec o a balance m in
  0 <= r.2 /\ r.2 + VOTES_PRE_ETH * total votes_of r.1 <= balance + VOTES_PRE_ETH * total votes_of m /\
  r.2 - balance <= VOTES_PRE_ETH * total votes_of m - VOTES_PRE_ETH * total votes_of r.1.
Proof.
  assert (E : forall m', total votes_of m' = total votes_of m ->
    0 <= balance /\ balance + VOTES_PRE_ETH * total votes_of m' <= balance + VOTES_PRE_ETH * total votes_of m /\
    balance - balance <= VOTES_PRE_ETH * total votes_of m - VOTES_PRE_ETH * total votes_of m')
    by (intros m' ->; lia).
  destruct o as [|money|n|name url| |to n|to n|to n]; cbn [exec order_ok fst snd] in *.
  - by apply E.
  - unfold mortgage_spec. destruct (decide (money <= balance)) as [Hle|]; [|by apply E]. cbn [fst snd].
    assert (Hm : 0 <= money <= balance) by (split; [by destruct Ho|done]).
    rewrite mortgage_hold, total_set_hold by done. pose proof (mortgage_bound money Hm). lia.
  - unfold redeem_spec. destruct (decide (n <= m_holdVotes (get m a))) as [Hle|Hgt]; [|by apply E]. cbn [fst snd].
    rewrite total_set_hold by done. destruct (redeem_money n Ho Hle) as [-> L].
    pose proof (u64_range (n * VOTES_PRE_ETH)) as [? _]. lia.
  - by apply E, (votes_register name url a m a).
  - by apply E, (votes_deregister a m a).
  - destruct Ho as [Ht [Hn _]]. apply E. eapply total_moves, vote_moves; done.
  - destruct Ho as [Ht [Hn _]]. apply E. eapply total_moves, removeVote_moves; done.
  - destruct Ho as [Ht [Hn _]]. apply E. destruct (decide (to <> a /\ n <= m_holdVotes (get m a))) as [[Hne Hle]|H].
    + by rewrite total_sent.
    + by rewrite send_spec_same.
Qed.
End Exec.

(** ** Reachable states *)

Section Reach.
Context {S : Type} `{!Ledger S} `{!LedgerLaws S} `{Bst : !Boost}.

Definition money (s : S) (l : list Z) : Z := foldr (fun a n => balances s a + n) 0 l.

(** [reach B s]: the state [s] arises when at most [B] wei ever existed.  Other transactions leave
    the records alone; no set of accounts has more money after one than some set had before, apart
    from what is minted.  (They also cover the revert to an earlier state.) *)
Inductive reach : Z -> S -> Prop :=
  | reach_genesis B s :
      lg_ok s -> (forall k, slots s k = 0) -> (forall l, NoDup l -> money s l <= B) -> reach B s
  | reach_call B s c input a s' r :
      reach B s -> is_address a -> Forall is_byte input -> precompiled c input a s = (s', r) ->
      r <> inr undefined_behaviour -> reach B s'
  | reach_other B minted s s' :
      reach B s -> 0 <= minted -> lg_ok s' -> (forall k, slots s' k = slots s k) ->
      (forall l, NoDup l -> exists l', NoDup l' /\ money s' l <= money s l' + minted) ->
      reach (B + minted) s'.

Definition holds (B : Z) (s : S) (m : bank) : Prop :=
  repr s m /\ votes_inv m /\ forall l, NoDup l -> money s l + VOTES_PRE_ETH * total votes_of m <= B.

Lemma info_of_zero sl a : (forall k, sl k = 0) -> info_of sl a = no_info a.
Proof. intros Hz. rewrite (info_of_ext sl (fun _ => 0)); [reflexivity|]. intros. apply Hz. Qed.

Lemma votes_inv_empty : votes_inv ∅.
Proof.
  split.
  - intros a v. by rewrite lookup_empty.
  - intros c. unfold get. by rewrite lookup_empty, total_empty.
  - intros c _. apply total_empty.
  - by rewrite total_empty.
Qed.

Lemma holds_genesis B s :
  lg_ok s -> (forall k, slots s k = 0) -> (forall l, NoDup l -> money s l <= B) -> holds B s ∅.
Proof.
  intros Ok Hz Hl. split_and!; [|apply votes_inv_empty|].
  - split; [done|apply votes_inv_empty|]. intros a _. unfold get. rewrite lookup_empty. by apply info_of_zero.
  - intros l Hnd. rewrite total_empty. pose proof (Hl l Hnd). lia.
Qed.

Lemma holds_balance B s m a :
  holds B s m -> B < 2 ^ 64 * VOTES_PRE_ETH ->
  0 <= balances s a /\ balances s a + VOTES_PRE_ETH * total votes_of m < 2 ^ 64 * VOTES_PRE_ETH.
Proof.
  intros (R & I & Hl) HB. split; [apply balances_range, R|].
  pose proof (Hl [a] ltac:(apply NoDup_singleton)) as H. cbn [money foldr] in H. lia.
Qed.

(** One balance changes *)
Lemma money_change (s s' : S) a x l :
  (forall c, balances s' c = if decide (c = a) then x else balances s c) -> NoDup l ->
  money s' l = money s l + (if decide (a ∈ l) then x - balances s a else 0).
Proof.
  intros Hc. induction l as [|b l IH]; intros Hnd; cbn [money foldr].
  { rewrite decide_False; [done|]. apply not_elem_of_nil. }
  apply list.NoDup_cons in Hnd as [Hb Hnd]. fold (money s' l) (money s l). rewrite IH, Hc by done.
  destruct (decide (b = a)) as [->|Hne].
  - rewrite decide_False by done. rewrite decide_True by by left. lia.
  - destruct (decide (a ∈ l)) as [Hin|Hin]; [rewrite decide_True by (by right); lia|].
    rewrite decide_False; [lia|]. intros [E|?]%elem_of_cons; [congruence|done].
Qed.

Lemma holds_performs B s m o a s' :
  holds B s m -> B < 2 ^ 64 * VOTES_PRE_ETH -> is_address a -> order_ok o -> performs o a s m s' ->
  holds B s' (exec o a (balances s a) m).1.
Proof.
  intros Hs HB Ha Ho [R' B']. pose proof (holds_balance B s m a Hs HB) as Hb.
  destruct Hs as (R & I & Hl). destruct (exec_total m o a (balances s a) I Ha Ho Hb) as (P & T & D).
  split_and!; [done|by apply inv_exec|]. intros l Hnd. rewrite (money_change s s' a _ l B' Hnd).
  destruct (decide (a ∈ l)) as [Hin|Hin]; [pose proof (Hl l Hnd); lia|].
  pose proof (Hl (a :: l) ltac:(by apply list.NoDup_cons)) as H. cbn [money foldr] in H.
  fold (money s l) in H. lia.
Qed.

Lemma holds_call B s m c input a s' r :
  holds B s m -> B < 2 ^ 64 * VOTES_PRE_ETH -> is_address a -> Forall is_byte input ->
  precompiled c input a s = (s', r) -> exists m', holds B s' m'.
Proof.
  intros Hs HB Ha Hin E. pose proof (precompiled_result c input a s m (proj1 Hs) Ha Hin) as P.
  unfold result in P. destruct (parse c input) as [o|e] eqn:Eo.
  - destruct P as (s1 & E1 & P). rewrite E in E1. injection E1 as <- _. eexists.
    eapply holds_performs; [done|done|done|by eapply parse_ok|done].
  - rewrite E in P. injection P as -> _. by exists m.
Qed.

Lemma reach_holds B s : reach B s -> B < 2 ^ 64 * VOTES_PRE_ETH -> exists m, holds B s m.
Proof.
  induction 1 as [B s Ok Hz Hl|B s c input a s' r _ IH Ha Hin E _|B minted s s' _ IH Hm Ok K Hl]; intros HB.
  - exists ∅. by apply holds_genesis.
  - destruct (IH HB) as [m Hs]. by eapply holds_call.
  - destruct IH as (m & R & I & Hs); [lia|]. exists m. split_and!; [|done|].
    + split; [done|apply R|]. intros a Ha. rewrite <-(r_info _ _ R a Ha). apply info_of_ext. intros. by rewrite K.
    + intros l Hnd. destruct (Hl l Hnd) as (l' & Hnd' & L). pose proof (Hs l' Hnd'). lia.
Qed.
End Reach.
