(* ===== verification/VoteClaims.v ===== *)
(** * What the vote contract promises

    The main theorems about libethereum/Vote.cpp, on any state that satisfies the laws of
    [Ledger], and their instances on the model of State.cpp. *)

From stdpp Require Import gmap sorting.
From S2P Require Import Prelude Words Exn Chainbase EthState EthStateInv Ledger EthLedger.
From S2P Require Import Vote VoteCodec VoteStore VoteSpec VoteMap VoteInv VoteCall VoteReach.

#[local] Open Scope Z_scope.

Section Claims.
Context {S : Type} `{!Ledger S} `{!LedgerLaws S} `{Bst : !Boost}.

(** a record that is saved is the record that load returns, without the votes of
    zero and with the name and the url cut at a zero byte; the record of every other address and
    every balance stays as it was. *)
Theorem save_load (v : VoteInfo) (s : S) :
  lg_ok s -> wf_info v -> is_address (m_address v) -> exists s1,
    save v s = (s1, inl tt) /\
    (exists s2, load (m_address v) s1 = (s2, inl (clean v)) /\ unchanged s1 s2) /\
    (forall b, is_address b -> b <> m_address v -> exists s2 s3 r,
       load b s1 = (s2, inl r) /\ load b s = (s3, inl r)) /\
    (forall a, balances s1 a = balances s a).
Proof.
  intros Ok W Ha. destruct (save_spec v s Ok W Ha) as (s1 & E & Ok1 & B1 & I1 & O1).
  exists s1. split_and!; [done| | |done].
  - destruct (load_spec (m_address v) s1 Ok1) as (s2 & E2 & U). exists s2. by rewrite E2, I1.
  - intros b Hb Hne. destruct (load_spec b s1 Ok1) as (s2 & E2 & _). destruct (load_spec b s Ok) as (s3 & E3 & _).
    exists s2, s3, (info_of (slots s) b). by rewrite E2, E3, O1.
Qed.

(** C19: every call of a vote contract does what the specification on the map
    of records says.  A malformed number is an exception that leaves the state alone.  An input of
    vote, removeVote or send that is shorter than the 20 bytes of an address is read past its end:
    its outcome is not defined, and nothing more is said of it than that mark.  Any other input is
    an order whose effect on the records and on the balance of the caller is [exec]; no other
    balance changes. *)
Theorem vote_contract_refines (c : contract) (input : list Z) (a : Z) (s : S) (m : bank) :
  repr s m -> is_address a -> Forall is_byte input ->
  match parse c input with
  | inl o => exists s', precompiled c input a s = (s', inl tt) /\
      let r := exec o a (balances s a) m in
      repr s' r.1 /\ forall b, balances s' b = if decide (b = a) then r.2 else balances s b
  | inr e => precompiled c input a s = (s, inr e)
  end.
Proof. intros R Ha Hin. by apply precompiled_result. Qed.

(** C6: in every state that calls of the contracts and other transactions reach,
    the chain reads exactly the candidates as producers, each with the sum of the votes that the
    records of all accounts give it; no account that is not a candidate has votes; no account
    has voted for more than 15 candidates; and the money of any set of accounts together with
    the money that all the votes stand for does not exceed what was ever issued. *)
Theorem votes_invariant (B : Z) (s : S) :
  reach B s -> B < 2 ^ 64 * VOTES_PRE_ETH -> exists m r s',
    repr s m /\
    getProducerMap s = (s', inl r) /\ at_bank s m s' /\
    (forall a n, r !! a = Some n <->
       is_address a /\ m_isCandidate (info_of (slots s) a) /\ n = total (rec_for a) m) /\
    (forall a, is_address a -> m_isCandidate (info_of (slots s) a) = false -> total (rec_for a) m = 0) /\
    (forall a, is_address a -> (size (m_voteRecord (info_of (slots s) a)) <= 15)%nat) /\
    (forall l, NoDup l -> money s l + VOTES_PRE_ETH * total votes_of m <= B).
Proof.
  intros Hr HB. destruct (reach_holds B s Hr HB) as (m & R & I & Hl).
  destruct (getProducerMap_spec s s m (at_bank_refl s m R)) as (r & (s' & E & R') & Hp).
  exists m, r, s'. split_and!; [done|done|done| | | |done].
  - intros a n. rewrite (Hp a n). split; intros (Ha & Hc & ->).
    + by rewrite (r_info s m R), (i_received m I).
    + rewrite (r_info s m R a Ha) in Hc. split_and!; [done|done|]. by rewrite (i_received m I).
  - intros a Ha. rewrite (r_info s m R) by done. apply (i_voted m I).
  - intros a Ha. rewrite (r_info s m R) by done. apply (n_records a), normal_get, I.
Qed.

(** The money of an account and the money that its votes stand for *)
Definition worth (s : S) (a : Z) : Z := balances s a + VOTES_PRE_ETH * votes_of (info_of (slots s) a).

(** C28: a call of a vote contract moves value only by send, from the caller to the
    receiver; mortgaging, voting, taking votes back, registering and deregistering (also of the
    candidate that others voted for) leave the worth of every account as it was.  A redeem of
    1845 votes or more pays only the amount modulo 2^64, and the caller loses the rest. *)
Theorem vote_value (B : Z) (s : S) (c : contract) (input : list Z) (a : Z) (o : order) :
  reach B s -> B < 2 ^ 64 * VOTES_PRE_ETH -> is_address a -> Forall is_byte input ->
  parse c input = inl o -> exists s', precompiled c input a s = (s', inl tt) /\
    forall b, is_address b ->
      worth s' b = worth s b + gain o a (m_holdVotes (info_of (slots s) a)) b.
Proof.
  intros Hr HB Ha Hin Ho. destruct (reach_holds B s Hr HB) as (m & Hs).
  pose proof (holds_balance B s m a Hs HB) as Hb. destruct Hs as (R & I & Hl).
  pose proof (precompiled_result c input a s m R Ha Hin) as P. unfold result in P. rewrite Ho in P.
  destruct P as (s' & E & R' & B'). exists s'. split; [done|]. intros b Hab. unfold worth.
  rewrite (r_info _ _ R' b Hab), (r_info _ _ R b Hab), (r_info _ _ R a Ha), B'.
  pose proof (exec_worth m o a (balances s a) I Ha (parse_ok _ _ _ Hin Ho) Hb b) as W. cbv zeta in W.
  case_decide as Eb; [subst b|]; lia.
Qed.
End Claims.

(** ** On the model of State.cpp

    A genesis with the account of the votes and one account with 10^20 wei, and decimal numbers. *)

Definition demo_digits (t : list Z) : option Z :=
  foldl (fun acc b => n ← acc; if decide (48 <= b <= 57) then Some (10 * n + (b - 48)) else None) (Some 0) t.

Definition demo_cast (t : list Z) : option Z :=
  n ← demo_digits t;
  if decide (t <> [] /\ 0 <= n < 2 ^ 64) then Some n else None.

Lemma demo_cast_range t n : demo_cast t = Some n -> is_word 64 n.
Proof.
  unfold demo_cast. destruct (demo_digits t) as [k|]; [|done]. cbn. case_decide as H; [|done].
  intros [= <-]. apply H.
Qed.

#[local] Instance demo_boost : Boost := {| lexical_cast := demo_cast; lexical_cast_range := demo_cast_range |}.
#[local] Existing Instance demo_env.

(** The hash turns the last digit to the front and adds one to it *)
Lemma demo_hashedKey k :
  is_u256 k -> hashedKey k = (if decide (k mod 16 = 15) then 0 else (k mod 16 + 1) * 2 ^ 252) + k / 16.
Proof.
  intros Hk. unfold hashedKey. cbn [sha3 demo_env]. unfold demo_hash.
  assert (E : be_of_bytes (1 :: be_to_bytes 32 k) = k + 2 ^ 256).
  { unfold be_of_bytes. rewrite reverse_cons, le_of_bytes_app, length_reverse, length_be_to_bytes
      by (apply Forall_reverse, be_to_bytes_bytes).
    fold (be_of_bytes (be_to_bytes 32 k)). by rewrite be_of_to_bytes_id. }
  rewrite E. change (2 ^ 256) with (2 ^ 252 * 16) at 2. rewrite Z.div_add by done.
  pose proof (Z.div_mod k 16 ltac:(done)) as Ek. pose proof (Z.mod_pos_bound k 16 ltac:(done)) as Er.
  set (q := k / 16) in *. set (r := k mod 16) in *. unfold is_word in Hk. symmetry. case_decide.
  - apply Z.mod_unique_pos with (q + 2 ^ 252 + 1); lia.
  - apply Z.mod_unique_pos with (q + 2 ^ 252); lia.
Qed.

#[local] Instance demo_inj : KeyHashInj.
Proof.
  intros k k' Hk Hk'. rewrite !demo_hashedKey by done. unfold is_word in *.
  pose proof (Z.div_mod k 16 ltac:(done)). pose proof (Z.mod_pos_bound k 16 ltac:(done)).
  pose proof (Z.div_mod k' 16 ltac:(done)). pose proof (Z.mod_pos_bound k' 16 ltac:(done)).
  repeat case_decide; lia.
Qed.

(** The state of EthStateInv with the one storage entry of the votes removed *)
Definition demo_genesis : State := (setStorage 0x21 7 0 demo_state).1.

Lemma demo_state_ok : lg_ok demo_state.
Proof.
  split; [apply demo_wf|by vm_compute|]. eexists. split; [vm_compute; reflexivity|].
  intros [_ He]. by vm_compute in He.
Qed.

Lemma demo_state_slots k : k <> 7 -> slots demo_state k = 0.
Proof.
  intros Hk. unfold slots, State_laws, slot_at.
  replace (acct demo_state VoteInfoAddress) with (Some (account_of_leaf demo_leaf_votes)) by by vm_compute.
  unfold slot. cbn. by rewrite lookup_empty, lookup_singleton_ne.
Qed.

Lemma demo_state_balances a :
  balances demo_state a = if decide (a = 0x21) then 1 else if decide (a = 1) then 10 ^ 20 else 0.
Proof.
  unfold balances, State_laws, balance_at, acct. cbn [m_cache m_state demo_state]. rewrite lookup_empty.
  repeat case_decide; subst; [done|done|]. by rewrite lookup_insert_ne, lookup_singleton_ne by congruence.
Qed.

Lemma demo_genesis_ok : lg_ok demo_genesis /\ (forall k, slots demo_genesis k = 0) /\
  forall a, balances demo_genesis a = balances demo_state a.
Proof.
  destruct (setStorage_law demo_state 7 0 demo_state_ok) as (s' & E & Ok & K & Ba); [done|done|].
  unfold demo_genesis. change (setStorage 0x21 7 0 demo_state) with (lg_setStorage VoteInfoAddress 7 0 demo_state).
  rewrite E. split_and!; [done| |done]. intros k. cbn [fst]. rewrite K. case_decide; [done|by apply demo_state_slots].
Qed.

Lemma in_cons (x a c : Z) l :
  a ∉ l -> (if decide (x ∈ a :: l) then c else 0)
           = (if decide (a = x) then c else 0) + (if decide (x ∈ l) then c else 0).
Proof.
  intros Ha. destruct (decide (a = x)) as [->|Hne].
  - rewrite decide_True by by left. rewrite decide_False by done. lia.
  - rewrite (decide_ext (x ∈ a :: l) (x ∈ l)); [done|]. rewrite elem_of_cons. naive_solver.
Qed.

Lemma demo_money l : NoDup l -> money demo_genesis l <= 10 ^ 20 + 1.
Proof.
  destruct demo_genesis_ok as (_ & _ & Ba). intros Hnd.
  enough (money demo_genesis l = (if decide (0x21 ∈ l) then 1 else 0) + (if decide (1 ∈ l) then 10 ^ 20 else 0))
    as -> by (repeat case_decide; lia).
  induction l as [|a l IH]; [done|]. apply list.NoDup_cons in Hnd as [Ha Hnd].
  cbn [money foldr]. fold (money demo_genesis l). rewrite IH, Ba, demo_state_balances, !in_cons by done.
  repeat case_decide; lia.
Qed.

(** Account 1 mortgages 10^18 wei (100 votes), becomes a candidate and votes 40 votes for itself *)
Definition demo_number (n : list Z) : list Z := (fun d => 48 + d) <$> n.
Definition demo_run (s : State) : State :=
  let s := (precompiled c_mortgage (demo_number (1 :: replicate 18 0)) 1 s).1 in
  let s := (precompiled c_candidateRegister [65; 0; 65; 65; 65; 65; 65] 1 s).1 in
  (precompiled c_vote (be_to_bytes 20 1 ++ demo_number [4; 0]) 1 s).1.

Example demo_run_result :
  let s := demo_run demo_genesis in
  m_holdVotes (info_of (slots s) 1) = 60 /\ (getProducerMap s).2 = inl {[ 1 := 40 ]}.
Proof. vm_compute. done. Qed.

Lemma demo_step s c input :
  reach (10 ^ 20 + 1) s -> Forall is_byte input -> (precompiled c input 1 s).2 = inl tt ->
  reach (10 ^ 20 + 1) (precompiled c input 1 s).1.
Proof.
  intros R Hin E. eapply (reach_call _ s c input 1); [done|done|done|apply surjective_pairing|by rewrite E].
Qed.

Lemma demo_genesis_reach : reach (10 ^ 20 + 1) demo_genesis.
Proof. destruct demo_genesis_ok as (Ok & K & _). apply reach_genesis; [done|done|apply demo_money]. Qed.

Lemma demo_bytes l : forallb (fun b => (0 <=? b) && (b <? 256)) l = true -> Forall is_byte l.
Proof.
  intros E. apply list.Forall_forall. intros x Hx. rewrite forallb_forall in E.
  specialize (E x (proj1 (list_elem_of_In _ _) Hx)). unfold is_word. lia.
Qed.

Lemma demo_run_reach : reach (10 ^ 20 + 1) (demo_run demo_genesis).
Proof.
  unfold demo_run. repeat (apply demo_step; [|by apply demo_bytes; vm_compute|by vm_compute]).
  apply demo_genesis_reach.
Qed.

Lemma demo_addresses : is_address 1 /\ is_address 2 /\ 10 ^ 20 + 1 < 2 ^ 64 * VOTES_PRE_ETH.
Proof. by vm_compute. Qed.

Lemma save_load_witness :
  let v := mkVoteInfo 1 true 40 [65] [66] 60 {[ 1 := 40; 2 := 0 ]} in
  exists s1 s2, save v demo_genesis = (s1, inl tt) /\
    load 1 s1 = (s2, inl (mkVoteInfo 1 true 40 [65] [66] 60 {[ 1 := 40 ]})).
Proof.
  intros v. destruct (save_load v demo_genesis) as (s1 & E1 & (s2 & E2 & _) & _).
  - apply demo_genesis_ok.
  - split.
    + by vm_compute.
    + by vm_compute.
    + split; [by apply Nat.leb_le|by apply demo_bytes].
    + split; [by apply Nat.leb_le|by apply demo_bytes].
    + apply Nat.ltb_lt. by vm_compute.
    + intros a n. cbn [m_voteRecord v]. rewrite lookup_insert_Some, lookup_singleton_Some.
      intros [[<- <-]|[_ [<- <-]]]; by vm_compute.
  - by vm_compute.
  - exists s1, s2. split; [done|]. exact E2.
Defined.

Lemma vote_contract_refines_witness :
  exists s', precompiled c_mortgage (demo_number (1 :: replicate 18 0)) 1 demo_genesis = (s', inl tt) /\
    balances s' 1 = 99 * 10 ^ 18.
Proof.
  pose proof (vote_contract_refines c_mortgage (demo_number (1 :: replicate 18 0)) 1 demo_genesis ∅) as H.
  assert (P : parse c_mortgage (demo_number (1 :: replicate 18 0)) = inl (o_mortgage (10 ^ 18))) by by vm_compute.
  rewrite P in H. destruct H as (s' & E & R & Ba).
  - apply holds_genesis with (10 ^ 20 + 1); [apply demo_genesis_ok|apply demo_genesis_ok|apply demo_money].
  - apply demo_addresses.
  - by apply demo_bytes; vm_compute.
  - exists s'. split; [exact E|]. rewrite (Ba 1). by vm_compute.
Defined.

Lemma votes_invariant_witness :
  exists m r s', repr (demo_run demo_genesis) m /\ getProducerMap (demo_run demo_genesis) = (s', inl r) /\
    r !! 1 = Some (total (rec_for 1) m).
Proof.
  destruct (votes_invariant (10 ^ 20 + 1) (demo_run demo_genesis)) as (m & r & s' & R & E & _ & Hp & _).
  - apply demo_run_reach.
  - apply demo_addresses.
  - exists m, r, s'. split_and!; [exact R|exact E|]. apply Hp.
    split_and!; [apply demo_addresses| |reflexivity]. by vm_compute.
Defined.

Lemma vote_value_witness :
  exists s', precompiled c_send (be_to_bytes 20 2 ++ demo_number [7]) 1 (demo_run demo_genesis) = (s', inl tt) /\
    worth s' 2 = worth (demo_run demo_genesis) 2 + 7 * VOTES_PRE_ETH.
Proof.
  destruct (vote_value (10 ^ 20 + 1) (demo_run demo_genesis) c_send (be_to_bytes 20 2 ++ demo_number [7]) 1
    (o_send 2 7)) as (s' & E & W).
  - apply demo_run_reach.
  - apply demo_addresses.
  - apply demo_addresses.
  - by apply demo_bytes; vm_compute.
  - by vm_compute.
  - exists s'. split; [exact E|]. rewrite (W 2) by apply demo_addresses. by vm_compute.
Defined.

(** With 1845 votes, redeem gives back 3255926290448384 wei and not 18450000000000000000 *)
Example redeem_overflow :
  redeem_spec 1845 1 0 {[ 1 := set_holdVotes 1845 (no_info 1) ]}
  = ({[ 1 := no_info 1 ]}, 3255926290448384) /\ 1845 * VOTES_PRE_ETH = 18450000000000000000.
Proof. by vm_compute. Qed.
