(* ===== verification/VoteStable.v ===== *)
(** * The vote contracts on any storage

    Whatever is in the storage of the votes, a call of a contract reads records of the right form,
    writes pages that are 256-bit words, and ends: so it keeps every property [lg_ok] for which the
    laws of [Ledger] hold. *)

From stdpp Require Import gmap sorting.
From S2P Require Import Prelude Words Exn Chainbase Ledger Vote VoteCodec VoteStore VoteSpec VoteMap VoteCall.

#[local] Open Scope Z_scope.

Create HintDb stable.

(** ** Records as they are read *)

Lemma strnlen_le l n : (strnlen l n <= n)%nat.
Proof. revert l. induction n as [|n IH]; intros [|b l]; cbn; [lia..|]. case_decide; [lia|]. specialize (IH l). lia. Qed.

Lemma sub_bytes (l : list Z) off n : bytes l -> bytes (sub l off n) /\ (length (sub l off n) <= n)%nat.
Proof. intros Hl. unfold sub. split; [by apply Forall_take, Forall_drop|]. rewrite length_take. lia. Qed.

Lemma le_of_sub_range (l : list Z) off : bytes l -> is_word 64 (le_of_bytes (sub l off 8)).
Proof.
  intros Hl. destruct (sub_bytes l off 8 Hl) as [Hb Hn]. pose proof (le_of_bytes_range _ Hb) as R.
  apply (is_word_weaken _ _ _ R). lia.
Qed.

Lemma read_records_wf (b : list Z) : bytes b -> forall n off (r : gmap Z Z),
  (forall a m, r !! a = Some m -> is_word 160 a /\ is_word 64 m) ->
  (size (read_records n off b r) <= n + size r)%nat /\
  forall a m, read_records n off b r !! a = Some m -> is_word 160 a /\ is_word 64 m.
Proof.
  intros Hb n. induction n as [|n IH]; intros off r Hr; cbn [read_records]; [done|].
  set (to := be_of_bytes (sub b off 20)). set (number := le_of_bytes (sub b (off + 20) 8)).
  destruct (r !! to) as [m|] eqn:E.
  - destruct (IH (off + 28)%nat r Hr) as [L W]. split; [lia|done].
  - destruct (IH (off + 28)%nat (<[to := number]> r)) as [L W].
    + intros a m. rewrite lookup_insert_Some. intros [[<- <-]|[_ Hm]]; [|by apply Hr]. split; [|by apply le_of_sub_range].
      destruct (sub_bytes b off 20 Hb) as [Hs Hn]. subst to.
      apply (is_word_weaken _ _ _ (be_of_bytes_range _ Hs)). lia.
    + rewrite map_size_insert_None in L by done. split; [lia|done].
Qed.

Lemma initFromBytes_wf a (b : list Z) : bytes b -> wf_info (initFromBytes a b).
Proof.
  intros Hb.
  assert (H0 : is_byte (b !!! 0%nat)) by by apply is_word_lookup.
  destruct (read_records_wf b Hb (Z.to_nat (b !!! 0%nat)) BasicSize ∅) as [L W]; [intros ? ?; by rewrite lookup_empty|].
  split; cbn [m_receivedVote m_holdVotes m_name m_url m_voteRecord initFromBytes].
  - by apply le_of_sub_range.
  - by apply le_of_sub_range.
  - destruct (sub_bytes b 18 (strnlen (drop 18 b) NameMaxSize) Hb). split; [|done]. etrans; [done|apply strnlen_le].
  - destruct (sub_bytes b (18 + NameMaxSize) (strnlen (drop (18 + NameMaxSize) b) URLMaxSize) Hb). split; [|done].
    etrans; [done|apply strnlen_le].
  - rewrite map_size_empty in L. unfold is_word in H0. lia.
  - done.
Qed.

Lemma pages_of_bytes sl a size l : bytes (pages_of sl a size l).
Proof.
  induction l as [|i l IH]; cbn [pages_of]; [constructor|]. apply Forall_app_2; [|done].
  case_decide; [apply Forall_take|]; apply be_to_bytes_bytes.
Qed.

(** ** Computations that keep the ledger *)

Section Stable.
Context {S : Type} `{!Ledger S} `{!LedgerLaws S} `{Bst : !Boost}.

(** From a ledger in order the computation ends in one, and its result satisfies [P] *)
Definition stable {A} (m : M S A) (P : A -> Prop) : Prop :=
  forall s, lg_ok s -> lg_ok (m s).1 /\ (m s).2 <> inr out_of_fuel /\ forall a, (m s).2 = inl a -> P a.

Lemma stable_bind {A B} (m : M S A) (k : A -> M S B) P Q :
  stable m P -> (forall a, P a -> stable (k a) Q) -> stable (m ≫= k) Q.
Proof.
  intros Hm Hk s Ok. destruct (Hm s Ok) as (Ok1 & Hf & HP). unfold mbind, M_bind.
  destruct (m s) as [s1 [a|e]]; cbn in *; [by apply Hk; [apply HP|]|]. split_and!; [done|by intros [= ->]|done].
Qed.

Lemma stable_ret {A} (a : A) (P : A -> Prop) : P a -> stable (mret a) P.
Proof. intros HP s Ok. split_and!; [done|done|]. by intros ? [= <-]. Qed.

Lemma stable_throw {A} e (P : A -> Prop) : e <> out_of_fuel -> stable (throw e) P.
Proof. intros He s Ok. split_and!; [done|by intros [= ->]|done]. Qed.

Lemma stable_for_each {A} (f : A -> M S unit) l :
  (forall x, x ∈ l -> stable (f x) (fun _ => True)) -> stable (for_each f l) (fun _ => True).
Proof.
  induction l as [|x l IH]; intros Hf; cbn [for_each]; [by apply stable_ret|].
  eapply stable_bind; [apply Hf; by left|]. intros _ _. apply IH. intros y Hy. apply Hf. by right.
Qed.

(** ** Records *)

Lemma load_stable a : stable (load a) (fun v => wf_info v /\ m_address v = a).
Proof.
  intros s Ok. destruct (load_spec a s Ok) as (s' & -> & Ok' & _). split_and!; [done|done|]. intros v [= <-].
  split; [|done]. apply initFromBytes_wf. apply Forall_app_2; [apply be_to_bytes_bytes|apply pages_of_bytes].
Qed.

Lemma save_stable v : wf_info (removeZeroVote v) -> stable (save v) (fun _ => True).
Proof.
  intros W. unfold save. rewrite toBytes_encode by done. apply stable_for_each. intros i _ s Ok.
  destruct (setStorage_law s (addressToU256 (m_address v) i) (page_value (encode (removeZeroVote v)) i) Ok (addressToU256_range _ i))
    as (s' & E & Ok' & _); [by apply page_value_bytes, encode_bytes|].
  unfold page_value in E. cbv zeta in E |- *. rewrite E. by split_and!.
Qed.

Lemma save_wf v : wf_info v -> stable (save v) (fun _ => True).
Proof. intros W. by apply save_stable, wf_info_removeZeroVote. Qed.

Lemma save_ret v (b : bool) : wf_info v -> stable (save v;; mret b) (fun _ => True).
Proof. intros W. eapply stable_bind; [by apply save_wf|]. intros _ _. by apply stable_ret. Qed.

(** A record with an entry of 0 more *)
Lemma release_wf_stored a v : wf_info v -> wf_info (removeZeroVote (release_votes a v)).
Proof.
  intros W. assert (E : m_voteRecord (removeZeroVote (release_votes a v)) = filter (fun p => p.2 <> 0) (delete a (m_voteRecord v))).
  { cbn. rewrite map_filter_insert_False; [done|]. cbn. lia. }
  pose proof (wf_info_removeZeroVote v W) as Wr. split; try apply W.
  - cbn. apply u64_range.
  - rewrite E. eapply Nat.le_lt_trans; [|apply (wf_records v W)]. etrans; [apply size_filter_le|].
    apply map_subseteq_size, delete_subseteq.
  - intros b n. rewrite E. intros [[_ Hn]%lookup_delete_Some _]%map_lookup_filter_Some. by apply (wf_record v W).
Qed.

#[local] Hint Resolve wf_info_set_hold wf_info_set_received wf_info_set_candidate u64_range : stable.

Lemma register_stable name url a :
  bytes name -> bytes url -> (length name <= NameMaxSize)%nat -> (length url <= URLMaxSize)%nat ->
  stable (candidateRegister name url a) (fun _ => True).
Proof.
  intros. eapply stable_bind; [apply load_stable|]. intros v [W _]. cbv beta. destruct (m_isCandidate v); [by apply stable_ret|].
  apply save_ret, wf_info_set_candidate, wf_info_set_names; done.
Qed.

Lemma mortgage_stable money a : is_word 64 money -> stable (mortgage money a) (fun _ => True).
Proof.
  intros Hm s Ok. unfold mortgage. destruct (balance_law s a Ok) as (s1 & E1 & Ok1 & _ & B1). rewrite (bind_inl _ _ _ _ _ E1).
  case_decide as Hle; [|by split_and!]. destruct (load_spec a s1 Ok1) as (s2 & E2 & Ok2 & _ & B2). rewrite (bind_inl _ _ _ _ _ E2).
  assert (Hv : 0 <= u64 (money / VOTES_PRE_ETH * VOTES_PRE_ETH) <= balances s2 a).
  { destruct (u64_range (money / VOTES_PRE_ETH * VOTES_PRE_ETH)). split; [done|]. rewrite B2, B1.
    destruct Hm. pose proof (Z.mul_div_le money VOTES_PRE_ETH ltac:(done)).
    pose proof (Z.div_pos money VOTES_PRE_ETH ltac:(done) ltac:(done)).
    rewrite u64_id; [lia|]. unfold is_word, VOTES_PRE_ETH in *. lia. }
  destruct (subBalance_law s2 a _ Ok2 Hv) as (s3 & E3 & Ok3 & _). rewrite (bind_inl _ _ _ _ _ E3).
  apply save_ret; [|done]. apply wf_info_set_hold; [apply u64_range|].
  apply initFromBytes_wf. apply Forall_app_2; [apply be_to_bytes_bytes|apply pages_of_bytes].
Qed.

Lemma redeem_stable votes a : stable (redeem votes a) (fun _ => True).
Proof.
  eapply stable_bind; [apply load_stable|]. intros v [W _]. cbv beta. case_decide; [|by apply stable_ret].
  eapply (stable_bind _ _ (fun _ => True)); [|intros _ _; apply save_ret; eauto with stable].
  intros s Ok. destruct (addBalance_law s a (u64 (votes * VOTES_PRE_ETH)) Ok) as (s' & -> & Ok' & _); [|by split_and!].
  apply (is_word_weaken 64); [apply u64_range|lia].
Qed.

Lemma send_stable to n a : stable (send to n a) (fun _ => True).
Proof.
  unfold send. case_decide; [by apply stable_ret|]. eapply stable_bind; [apply load_stable|]. intros v [W _]. cbv beta.
  case_decide; [by apply stable_ret|]. eapply stable_bind; [apply load_stable|]. intros w [W' _]. cbv beta.
  eapply stable_bind; [apply save_wf; eauto with stable|]. intros _ _. apply save_ret. eauto with stable.
Qed.

Lemma wf_info_insert a n r v :
  r = m_voteRecord v -> is_word 160 a -> is_word 64 n -> (size (<[a := n]> r) < 256)%nat -> wf_info v ->
  wf_info (set_voteRecord (<[a := n]> r) v).
Proof.
  intros -> Ha Hn Hs []. split; try done; cbn. intros b k. rewrite lookup_insert_Some. intros [[<- <-]|[_ E]]; eauto.
Qed.

(** A vote that is recorded *)
Lemma record_wf v to n : wf_info v -> is_word 160 to -> is_word 64 n ->
  ~ (15 <= size (m_voteRecord v) /\ m_voteRecord v !! to = None)%nat -> wf_info (recordVoteTo to n v).
Proof.
  intros W Hto Hn Hs. unfold recordVoteTo. destruct (m_voteRecord v !! to) as [k|] eqn:E.
  - apply wf_info_insert; [done|done|apply u64_range| |done]. rewrite map_size_insert_Some by (by rewrite E). apply W.
  - apply wf_info_insert; [done..| |done]. rewrite map_size_insert_None by done.
    destruct (decide (15 <= size (m_voteRecord v))%nat); [by destruct Hs|lia].
Qed.

Lemma vote_stable to n a : is_word 160 to -> is_word 64 n -> stable (vote to n a) (fun _ => True).
Proof.
  intros Hto Hn. eapply stable_bind; [apply load_stable|]. intros v [W _]. cbv beta zeta. case_decide; [by apply stable_ret|].
  case_decide as Hs; [by apply stable_ret|].
  assert (F : forall w, wf_info w -> m_voteRecord w = m_voteRecord v ->
    stable (save (recordVoteTo to n (set_holdVotes (u64 (m_holdVotes w - n)) w));; mret true) (fun _ => True)).
  { intros w Ww Er. apply save_ret, record_wf; [eauto with stable|done|done|]. cbn. by rewrite Er. }
  case_decide; [destruct (negb (m_isCandidate v)); [by apply stable_ret|apply F; eauto with stable]|].
  eapply stable_bind; [apply load_stable|]. intros w [W' _]. cbv beta. destruct (negb (m_isCandidate w)); [by apply stable_ret|].
  eapply stable_bind; [apply save_wf; eauto with stable|]. intros _ _. by apply F.
Qed.

Lemma removeVote_stable to n a : stable (removeVote to n a) (fun _ => True).
Proof.
  eapply stable_bind; [apply load_stable|]. intros v [W _]. cbv beta zeta.
  destruct (m_voteRecord v !! to) as [k|] eqn:E; [|by apply stable_ret]. case_decide; [by apply stable_ret|].
  assert (F : forall w, wf_info w -> m_voteRecord w = m_voteRecord v ->
    stable (save (set_voteRecord (<[to := u64 (k - n)]> (m_voteRecord w)) (set_holdVotes (u64 (m_holdVotes w + n)) w));; mret true) (fun _ => True)).
  { intros w Ww Er. apply save_ret, wf_info_insert; [done|apply (wf_record v W to k E)|apply u64_range| |eauto with stable].
    rewrite Er, map_size_insert_Some by (by rewrite E). apply W. }
  case_decide; [destruct (negb (m_isCandidate v)); [by apply stable_ret|apply F; eauto with stable]|].
  eapply stable_bind; [apply load_stable|]. intros w [W' _]. cbv beta. destruct (negb (m_isCandidate w)); [by apply stable_ret|].
  eapply stable_bind; [apply save_wf; eauto with stable|]. intros _ _. by apply F.
Qed.

(** ** The walk over all records *)

Lemma LoadPages_stable a size l : stable (LoadPages a size l) (fun d => bytes d).
Proof.
  intros s Ok. destruct (LoadPages_spec a size l s Ok) as (s' & -> & Ok' & _). split_and!; [done|done|]. intros ? [= <-].
  apply pages_of_bytes.
Qed.

Lemma load_rest_stable a value : stable (load_rest a value) (fun d => bytes d).
Proof.
  unfold load_rest, LoadFixedSizeBtyes. pose proof (be_to_bytes_bytes 32 value) as Hb. generalize dependent (be_to_bytes 32 value).
  intros data Hb. cbv zeta. generalize (info_size (data !!! 0%nat)). intros size. case_decide.
  - eapply stable_bind; [apply LoadPages_stable|]. intros rest Hr. apply stable_ret. by apply Forall_app_2.
  - apply stable_ret. by apply Forall_take.
Qed.

Definition infos_wf (m : gmap Z VoteInfo) : Prop := forall a v, m !! a = Some v -> wf_info v.

Lemma collect_stable ps m : infos_wf m -> stable (collect_infos ps m) infos_wf.
Proof.
  revert m. induction ps as [|[k v] ps IH]; intros m Hm; cbn [collect_infos]; [by apply stable_ret|]. case_decide; [|by apply IH].
  eapply stable_bind; [apply load_rest_stable|]. intros d Hd. cbv beta. apply IH.
  intros a w. rewrite lookup_insert_Some. intros [[_ <-]|[_ Hw]]; [by apply initFromBytes_wf|by eapply Hm].
Qed.

Lemma getVoteInfoMap_stable : stable getVoteInfoMap infos_wf.
Proof.
  intros s Ok. unfold getVoteInfoMap. destruct (storage_map_law s Ok) as (s1 & m & E & Ok1 & _).
  rewrite (bind_inl _ _ _ _ _ E). apply collect_stable; [|done]. intros a v. by rewrite lookup_empty.
Qed.

Lemma deregister_stable a : stable (candidateDeregister a) (fun _ => True).
Proof.
  eapply stable_bind; [apply load_stable|]. intros v [W _]. cbv beta. destruct (negb (m_isCandidate v)); [by apply stable_ret|].
  eapply stable_bind; [apply getVoteInfoMap_stable|]. intros m Hm. cbv beta.
  eapply stable_bind.
  { apply stable_for_each. intros [b w] Hin. apply elem_of_items in Hin. apply save_stable, release_wf_stored. by eapply Hm. }
  intros _ _. eapply stable_bind; [apply load_stable|]. intros w [W' _]. cbv beta.
  apply save_ret, wf_info_set_names; [cbn; split; [lia|constructor]..|].
  apply wf_info_set_received; [by apply is_word_0|]. by apply wf_info_set_candidate.
Qed.

(** ** The contracts *)

Lemma cast_stable text : stable (cast_number text) (fun n => is_word 64 n).
Proof.
  unfold cast_number. destruct (lexical_cast text) eqn:E; [|by apply stable_throw].
  apply stable_ret. by eapply lexical_cast_range.
Qed.

Lemma input_stable input : bytes input -> stable (input_address input) (fun a => is_word 160 a).
Proof.
  intros Hb. unfold input_address. case_decide as Hl; [by apply stable_throw|]. apply stable_ret. apply input_address_ok; [done|].
  unfold AddressLength in Hl. lia.
Qed.

Lemma discard_stable {A} (m : M S A) P : stable m P -> stable (m;; mret tt) (fun _ => True).
Proof. intros Hm. eapply stable_bind; [done|]. intros _ _. by apply stable_ret. Qed.

Lemma to_number_stable input (k : Z -> Z -> M S bool) : bytes input ->
  (forall to n, is_word 160 to -> is_word 64 n -> stable (k to n) (fun _ => True)) ->
  stable (to ← input_address input; n ← cast_number (drop AddressLength input); k to n;; mret tt) (fun _ => True).
Proof.
  intros Hb Hk. eapply stable_bind; [by apply input_stable|]. intros to Hto. cbv beta.
  eapply stable_bind; [apply cast_stable|]. intros n Hn. cbv beta. eapply discard_stable. by apply Hk.
Qed.

Lemma pre_register_stable input a : bytes input -> stable (pre_candidateRegister input a) (fun _ => True).
Proof.
  intros Hb. unfold pre_candidateRegister. case_decide; [by apply stable_ret|].
  destruct (list_find _ input) as [[pos b]|]; [|by apply stable_ret]. case_decide as Hn; [by apply stable_ret|].
  destruct (sub_bytes input (pos + 1) (length input - pos - 1) Hb) as [Bu Lu].
  eapply discard_stable, register_stable; [by apply Forall_take|done| |lia]. rewrite length_take. lia.
Qed.

Lemma precompiled_stable c input a : bytes input -> stable (precompiled c input a) (fun _ => True).
Proof.
  intros Hb. destruct c; cbn [precompiled].
  - eapply stable_bind; [apply cast_stable|]. intros n Hn. cbv beta. eapply discard_stable. by apply mortgage_stable.
  - eapply stable_bind; [apply cast_stable|]. intros n Hn. cbv beta. eapply discard_stable. apply redeem_stable.
  - by apply pre_register_stable.
  - eapply discard_stable, deregister_stable.
  - apply to_number_stable; [done|]. intros. by apply vote_stable.
  - apply to_number_stable; [done|]. intros. apply removeVote_stable.
  - apply to_number_stable; [done|]. intros. apply send_stable.
Qed.
End Stable.
