(* ===== verification/Transaction.v ===== *)
(** * libethcore/TransactionBase, libethereum/Transaction: transactions

    The record of a transaction, its RLP form, the recovery of its sender and the checks that the
    seal engines make before it is executed.  The recovery of a public key from a signature
    (libsecp256k1) is a parameter.  The caches [m_hashWith] and [m_sender] only avoid that a value
    is computed again; [m_sender] is kept because forceSender sets it. *)

From stdpp Require Import gmap.
From S2P Require Import Prelude Words Exn EthState Rlp.

#[local] Open Scope Z_scope.

(** ** EVMSchedule.h: the instructions there are and the prices *)

Record EVMSchedule := mkSchedule {
  exceptionalFailedCodeDeposit : bool;
  haveDelegateCall : bool;
  eip150Mode : bool;
  eip158Mode : bool;
  haveRevert : bool;
  haveReturnData : bool;
  haveStaticCall : bool;
  haveCreate2 : bool;
  tierStepGas : list Z;
  expGas : Z;
  expByteGas : Z;
  sha3Gas : Z;
  sha3WordGas : Z;
  sloadGas : Z;
  sstoreSetGas : Z;
  sstoreResetGas : Z;
  sstoreRefundGas : Z;
  jumpdestGas : Z;
  logGas : Z;
  logDataGas : Z;
  logTopicGas : Z;
  createGas : Z;
  callGas : Z;
  callStipend : Z;
  callValueTransferGas : Z;
  callNewAccountGas : Z;
  suicideRefundGas : Z;
  memoryGas : Z;
  quadCoeffDiv : Z;
  createDataGas : Z;
  txGas : Z;
  txCreateGas : Z;
  txDataZeroGas : Z;
  txDataNonZeroGas : Z;
  copyGas : Z;
  extcodesizeGas : Z;
  extcodecopyGas : Z;
  balanceGas : Z;
  suicideGas : Z;
  blockhashGas : Z;
  maxCodeSize : Z
}.

(** HomesteadSchedule with the changes of EIP150, EIP158 and Byzantium *)
Definition ByzantiumSchedule : EVMSchedule := {|
  exceptionalFailedCodeDeposit := true; haveDelegateCall := true; eip150Mode := true; eip158Mode := true;
  haveRevert := true; haveReturnData := true; haveStaticCall := true; haveCreate2 := false;
  tierStepGas := [0; 2; 3; 5; 8; 10; 20; 0];
  expGas := 10; expByteGas := 50; sha3Gas := 30; sha3WordGas := 6; sloadGas := 200;
  sstoreSetGas := 20000; sstoreResetGas := 5000; sstoreRefundGas := 15000; jumpdestGas := 1;
  logGas := 375; logDataGas := 8; logTopicGas := 375; createGas := 32000; callGas := 700;
  callStipend := 2300; callValueTransferGas := 9000; callNewAccountGas := 25000; suicideRefundGas := 24000;
  memoryGas := 3; quadCoeffDiv := 512; createDataGas := 200; txGas := 21000; txCreateGas := 53000;
  txDataZeroGas := 4; txDataNonZeroGas := 68; copyGas := 3; extcodesizeGas := 700; extcodecopyGas := 700;
  balanceGas := 400; suicideGas := 5000; blockhashGas := 20; maxCodeSize := 0x6000
|}.

(** ChainOperationParams.cpp: every block has the same schedule *)
Definition scheduleForBlockNumber (blockNumber : Z) : EVMSchedule := ByzantiumSchedule.

Definition staticCallDepthLimit (es : EVMSchedule) : bool := negb (eip150Mode es).
Definition suicideChargesNewAccountGas (es : EVMSchedule) : bool := eip150Mode es.
Definition emptinessIsNonexistence (es : EVMSchedule) : bool := eip158Mode es.
Definition zeroValueTransferChargesNewAccountGas (es : EVMSchedule) : bool := negb (eip158Mode es).

(** ** TransactionBase.h *)

Inductive TxType := NullTransaction | ContractCreation | MessageCall.

#[export] Instance TxType_eq_dec : EqDecision TxType.
Proof. solve_decision. Defined.

Record SignatureStruct := mkSig { sig_r : Z; sig_s : Z; sig_v : Z }.

Record TransactionBase := mkTx {
  t_type : TxType;
  t_nonce : Z;
  t_value : Z;
  t_receiveAddress : Z;
  t_gasPrice : Z;
  t_gas : Z;
  t_data : list Z;
  t_vrs : option SignatureStruct;
  t_chainId : Z;
  t_sender : Z
}.

(** TransactionBase() *)
Definition null_tx : TransactionBase := mkTx NullTransaction 0 0 0 0 0 [] None (-4) 0.

Definition forceSender (a : Z) (t : TransactionBase) : TransactionBase :=
  mkTx (t_type t) (t_nonce t) (t_value t) (t_receiveAddress t) (t_gasPrice t) (t_gas t) (t_data t)
       (t_vrs t) (t_chainId t) a.

Definition is_tx (t : TransactionBase) : bool := bool_decide (t_type t <> NullTransaction).
Definition isCreation (t : TransactionBase) : bool := bool_decide (t_type t = ContractCreation).

Definition isZeroSignature (r s : Z) : bool := bool_decide (r = 0) && bool_decide (s = 0).
Definition hasSignature (t : TransactionBase) : bool := match t_vrs t with Some _ => true | None => false end.
Definition hasZeroSignature (t : TransactionBase) : bool :=
  match t_vrs t with Some vrs => isZeroSignature (sig_r vrs) (sig_s vrs) | None => false end.

(** The order of the curve *)
Definition c_secp256k1n : Z :=
  115792089237316195423570985008687907852837564279074904382605163141518161494337.

(** SignatureStruct::isValid *)
Definition sig_isValid (vrs : SignatureStruct) : bool :=
  bool_decide (sig_v vrs <= 1 /\ 0 < sig_r vrs /\ 0 < sig_s vrs /\ sig_r vrs < c_secp256k1n /\
               sig_s vrs < c_secp256k1n).

Definition MaxAddress : Z := 2 ^ 160 - 1.

Inductive CheckTransaction := CheckNone | CheckCheap | CheckEverything.

#[export] Instance CheckTransaction_eq_dec : EqDecision CheckTransaction.
Proof. solve_decision. Defined.

(** ** Writing *)

(** [_s << i] for an [int]: append(unsigned) *)
Definition append_i (i : Z) : M RLPStream unit := append_int (i mod 2 ^ 32).

Definition streamRLP (t : TransactionBase) (sig forEip155hash : bool) : M RLPStream unit :=
  match t_type t with
  | NullTransaction => mret tt
  | _ =>
      appendList ((if sig || forEip155hash then 3 else 0) + 6);;
      append_int (t_nonce t);;
      append_int (t_gasPrice t);;
      append_int (t_gas t);;
      (if decide (t_type t = MessageCall) then append (be_to_bytes 20 (t_receiveAddress t)) false
       else append [] false);;
      append_int (t_value t);;
      append (t_data t) false;;
      if sig then
        match t_vrs t with
        | None => throw TransactionIsUnsigned
        | Some vrs =>
            (if hasZeroSignature t then append_i (t_chainId t)
             else append_i (sig_v vrs + (t_chainId t * 2 + 35)));;
            append_int (sig_r vrs);;
            append_int (sig_s vrs)
        end
      else if forEip155hash then append_i (t_chainId t);; append_i 0;; append_i 0
      else mret tt
  end.

Definition tx_rlp (t : TransactionBase) (sig : bool) : res (list Z) := written (streamRLP t sig false).

(** dev::recover: the 64 bytes of the public key *)
Class Recover := recover : SignatureStruct -> Z -> option (list Z).

Section Crypto.
Context `{NodeEnv}.

(** sha3(_sig) *)
Definition tx_sha3 (t : TransactionBase) (sig : bool) : res Z :=
  b ← written (streamRLP t sig (bool_decide (0 < t_chainId t) && negb sig));
  mret (sha3 b).

(** right160: the last 20 bytes of a hash *)
Definition right160 (h : Z) : Z := h mod 2 ^ 160.

Context `{!Recover}.

Definition sender (t : TransactionBase) : res Z :=
  if decide (t_sender t <> 0) then mret (t_sender t)
  else if hasZeroSignature t then mret MaxAddress
  else match t_vrs t with
  | None => raise TransactionIsUnsigned
  | Some vrs =>
      h ← tx_sha3 t false;
      match recover vrs h with
      | None => raise InvalidSignature
      | Some p => mret (right160 (sha3 p))
      end
  end.

(** ** Reading *)

(** The conversion of four bytes to [int] *)
Definition to_int (x : Z) : Z := if decide (x < 2 ^ 31) then x else x - 2 ^ 32.

(** The signature from the last three fields *)
Definition read_signature (v r s : Z) (checkSig : CheckTransaction) : res (Z * SignatureStruct) :=
  if isZeroSignature r s then mret (v, mkSig r s 0)
  else
    chainId ← (if decide (36 < v) then mret ((v - 35) / 2)
               else if decide (v = 27 \/ v = 28) then mret (-4)
               else raise InvalidSignature);
    let vrs := mkSig r s (u8 (v - (chainId * 2 + 35))) in
    if decide (checkSig <> CheckNone) then
      if sig_isValid vrs then mret (chainId, vrs) else raise InvalidSignature
    else mret (chainId, vrs).

(** TransactionBase(bytesConstRef, CheckTransaction); an item that is read more than once is the
    same every time *)
Definition of_rlp (d : list Z) (checkSig : CheckTransaction) : res TransactionBase :=
  rlp ← RLP d VeryStrict;
  if negb (isList rlp) then raise InvalidTransactionFormat
  else
    p0 ← subscript 0 (fresh rlp); nonce ← toInt 32 p0.2 Strict;
    p1 ← subscript 1 p0.1; gasPrice ← toInt 32 p1.2 Strict;
    p2 ← subscript 2 p1.1; gas ← toInt 32 p2.2 Strict;
    p3 ← subscript 3 p2.1;
    let type := if isEmpty p3.2 then ContractCreation else MessageCall in
    receiveAddress ← (if isEmpty p3.2 then mret 0 else h ← toHash 20 p3.2 VeryStrict; mret (be_of_bytes h));
    p4 ← subscript 4 p3.1; value ← toInt 32 p4.2 Strict;
    p5 ← subscript 5 p4.1;
    if negb (isData p5.2) then raise InvalidTransactionFormat
    else
      data ← toBytes p5.2 LaissezFaire;
      p6 ← subscript 6 p5.1; v ← toInt 4 p6.2 Strict;
      p7 ← subscript 7 p6.1; r ← toInt 32 p7.2 Strict;
      p8 ← subscript 8 p7.1; s ← toInt 32 p8.2 Strict;
      sg ← read_signature (to_int v) r s checkSig;
      let t := mkTx type nonce value receiveAddress gasPrice gas data (Some sg.2) sg.1 0 in
      from ← (if decide (checkSig = CheckEverything) then sender t else mret 0);
      n ← itemCount rlp;
      if decide (9 < n) then raise InvalidTransactionFormat else mret (forceSender from t).

(** ** Checks *)

Definition checkLowS (t : TransactionBase) : res unit :=
  match t_vrs t with
  | None => raise TransactionIsUnsigned
  | Some vrs => if decide (c_secp256k1n / 2 < sig_s vrs) then raise InvalidSignature else mret tt
  end.

Definition checkChainId (chainId : Z) (t : TransactionBase) : res unit :=
  if decide (t_chainId t <> chainId /\ t_chainId t <> -4) then raise InvalidSignature else mret tt.

Definition baseGasRequired_ (contractCreation : bool) (data : list Z) (es : EVMSchedule) : Z :=
  foldl (fun g i => g + (if decide (i <> 0) then txDataNonZeroGas es else txDataZeroGas es))
    (if contractCreation then txCreateGas es else txGas es) data.

Definition baseGasRequired (t : TransactionBase) (es : EVMSchedule) : Z :=
  baseGasRequired_ (isCreation t) (t_data t) es.

(** ImportRequirements *)
Definition TransactionBasic : Z := 8.
Definition TransactionSignatures : Z := 32.
Definition Everything : Z := 1 .| (4 .| 16) .| (TransactionBasic .| TransactionSignatures) .| 64 .| 128.

Definition requires (ir flag : Z) : bool := bool_decide ((ir .& flag) <> 0).

(** SealEngineFace::verifyTransaction *)
Definition face_verifyTransaction (ir : Z) (t : TransactionBase) : res unit :=
  if requires ir TransactionSignatures && hasZeroSignature t then raise InvalidSignature
  else if requires ir TransactionSignatures && hasSignature t then checkLowS t
  else mret tt.

(** Ethash::verifyTransaction, for a header with this number and gas limit *)
Definition verifyTransaction (chainID ir : Z) (t : TransactionBase) (number gasLimit startGasUsed : Z) :
    res unit :=
  face_verifyTransaction ir t;;
  (if requires ir TransactionSignatures then checkChainId chainID t else mret tt);;
  if requires ir TransactionBasic && bool_decide (t_gas t < baseGasRequired t (scheduleForBlockNumber number))
  then raise OutOfGasIntrinsic
  else if decide (gasLimit < startGasUsed + t_gas t) then raise BlockGasLimitReached
  else mret tt.
End Crypto.
