(* ===== verification/TransactionRlp.v ===== *)
(** * The RLP form of a transaction

    What [streamRLP] writes for a signed transaction is read back by the constructor. *)

From stdpp Require Import gmap.
From S2P Require Import Prelude Words Exn EthState EthStateInv Rlp RlpSpec RlpClaims Transaction.

#[local] Open Scope Z_scope.

(** ** Signatures *)

(** The field that carries the chain id and the parity *)
Definition v_field (t : TransactionBase) (vrs : SignatureStruct) : Z :=
  if hasZeroSignature t then t_chainId t else sig_v vrs + (t_chainId t * 2 + 35).

(** A signature as the constructor leaves it *)
Definition signature_ok (t : TransactionBase) (vrs : SignatureStruct) : Prop :=
  is_u256 (sig_r vrs) /\ is_u256 (sig_s vrs) /\
  if hasZeroSignature t then sig_v vrs = 0 /\ - 2 ^ 31 <= t_chainId t < 2 ^ 31
  else 0 <= sig_v vrs <= 1 /\ (t_chainId t = -4 \/ 1 <= t_chainId t /\ 2 * t_chainId t + 36 < 2 ^ 31).

(** Transactions that can be signed and sent *)
Record tx_ok (t : TransactionBase) : Prop := {
  ok_type : t_type t <> NullTransaction;
  ok_nonce : is_u256 (t_nonce t);
  ok_value : is_u256 (t_value t);
  ok_address : if isCreation t then t_receiveAddress t = 0 else 0 <= t_receiveAddress t < 2 ^ 160;
  ok_gasPrice : is_u256 (t_gasPrice t);
  ok_gas : is_u256 (t_gas t);
  ok_data : bytes (t_data t) /\ len (t_data t) < 2 ^ 63;
  ok_signature : exists vrs, t_vrs t = Some vrs /\ signature_ok t vrs
}.

Lemma to_int_mod x : - 2 ^ 31 <= x < 2 ^ 31 -> to_int (x mod 2 ^ 32) = x.
Proof.
  intros Hx. unfold to_int. destruct (decide (0 <= x)).
  - rewrite Z.mod_small by lia. by rewrite decide_True by lia.
  - replace (x mod 2 ^ 32) with (x + 2 ^ 32); [rewrite decide_False by lia; lia|].
    rewrite <-(Z.mod_small (x + 2 ^ 32) (2 ^ 32)) by lia. rewrite <-Zplus_mod_idemp_r, Z.mod_same by done.
    by rewrite Z.add_0_r.
Qed.

Lemma v_field_range t vrs : signature_ok t vrs -> - 2 ^ 31 <= v_field t vrs < 2 ^ 31.
Proof. unfold signature_ok, v_field. intros (_ & _ & H). destruct (hasZeroSignature t); lia. Qed.

(** The signature is read as it was *)
Lemma read_signature_ok t vrs checkSig :
  t_vrs t = Some vrs -> signature_ok t vrs -> (checkSig = CheckNone \/ hasZeroSignature t = true \/ sig_isValid vrs = true) ->
  read_signature (v_field t vrs) (sig_r vrs) (sig_s vrs) checkSig = inl (t_chainId t, vrs).
Proof.
  intros E (_ & _ & H) Hc. unfold read_signature, v_field in *.
  assert (Ez : isZeroSignature (sig_r vrs) (sig_s vrs) = hasZeroSignature t) by (unfold hasZeroSignature; by rewrite E).
  rewrite Ez in *. destruct (hasZeroSignature t).
  { destruct H as [Hv _]. destruct vrs. cbn in *. by subst. }
  destruct H as [Hv Hid].
  assert (Ec : (if decide (36 < sig_v vrs + (t_chainId t * 2 + 35)) then mret ((sig_v vrs + (t_chainId t * 2 + 35) - 35) / 2)
     else if decide (sig_v vrs + (t_chainId t * 2 + 35) = 27 \/ sig_v vrs + (t_chainId t * 2 + 35) = 28)
          then mret (-4) else raise InvalidSignature) = inl (t_chainId t) :> res Z).
  { destruct Hid as [-> |[Hid _]]; [rewrite decide_False, decide_True by lia; done|].
    rewrite decide_True by lia. unfold mret, res_ret. f_equal.
    replace (sig_v vrs + (t_chainId t * 2 + 35) - 35) with (t_chainId t * 2 + sig_v vrs) by lia.
    rewrite Z.div_add_l, Z.div_small by lia. lia. }
  rewrite Ec. cbn [mbind res_bind].
  replace (sig_v vrs + (t_chainId t * 2 + 35) - (t_chainId t * 2 + 35)) with (sig_v vrs) by lia.
  rewrite u8_small by lia. replace (mkSig (sig_r vrs) (sig_s vrs) (sig_v vrs)) with vrs by by destruct vrs.
  destruct (decide (checkSig <> CheckNone)) as [En|En]; [|by destruct vrs]. destruct Hc as [?|[?| ->]]; [done|done|by destruct vrs].
Qed.

(** ** Writing *)

Definition tx_items (t : TransactionBase) (vrs : SignatureStruct) : list item :=
  [Str (int_bytes (t_nonce t)); Str (int_bytes (t_gasPrice t)); Str (int_bytes (t_gas t));
   Str (if isCreation t then [] else be_to_bytes 20 (t_receiveAddress t));
   Str (int_bytes (t_value t)); Str (t_data t);
   Str (int_bytes (v_field t vrs mod 2 ^ 32)); Str (int_bytes (sig_r vrs)); Str (int_bytes (sig_s vrs))].

Lemma u256_small_pow i : is_u256 i -> 0 <= i < 2 ^ 8192.
Proof.
  intros Hi. unfold is_word in Hi. split; [lia|]. eapply Z.lt_le_trans; [apply Hi|]. by apply Z.pow_le_mono_r.
Qed.

Lemma int_mod_u256 x : is_u256 (x mod 2 ^ 32).
Proof. pose proof (Z.mod_pos_bound x (2 ^ 32) ltac:(done)). unfold is_word. lia. Qed.

(** A number is written as the string of its bytes *)
Lemma append_int_write i s : is_u256 i -> append_int i s = write (Str (int_bytes i)) s.
Proof.
  intros Hi%u256_small_pow. rewrite append_int_spec by done. destruct (int_readable i Hi) as [Hr _].
  by rewrite write_spec.
Qed.

Lemma bind_ext {S A B} (m m' : M S A) (k k' : A -> M S B) s :
  (forall s, m s = m' s) -> (forall a s, k a s = k' a s) -> (m ≫= k) s = (m' ≫= k') s.
Proof. intros Hm Hk. unfold mbind, M_bind. rewrite Hm. destruct (m' s) as [s' [a|e]]; [apply Hk|done]. Qed.

Lemma streamRLP_write t vrs s :
  tx_ok t -> t_vrs t = Some vrs -> streamRLP t true false s = write (Lst (tx_items t vrs)) s.
Proof.
  intros Ok E. rewrite write_Lst. unfold streamRLP, tx_items.
  assert (Sg : signature_ok t vrs) by (destruct (ok_signature t Ok) as (? & ? & ?); congruence).
  assert (Et : forall A (x y : A), match t_type t with NullTransaction => x | _ => y end = y).
  { intros. pose proof (ok_type t Ok). by destruct (t_type t). }
  rewrite Et. cbn [orb length]. change (3 + 6) with (Z.of_nat 9). rewrite E.
  assert (Ev : forall u, (if hasZeroSignature t then append_i (t_chainId t)
     else append_i (sig_v vrs + (t_chainId t * 2 + 35))) u = write (Str (int_bytes (v_field t vrs mod 2 ^ 32))) u).
  { intros u. unfold v_field, append_i. destruct (hasZeroSignature t); apply append_int_write, int_mod_u256. }
  assert (Ea : forall u, (if decide (t_type t = MessageCall) then append (be_to_bytes 20 (t_receiveAddress t)) false
     else append [] false) u = write (Str (if isCreation t then [] else be_to_bytes 20 (t_receiveAddress t))) u).
  { intros u. pose proof (ok_type t Ok). unfold isCreation. by destruct (t_type t). }
  cbn [for_each].
  do 9 (apply bind_ext; [intros ?;
    first [done | apply append_int_write; apply Ok | apply append_int_write, Sg | apply Ev | apply Ea]|intros _ ?]).
  rewrite (append_int_write (sig_s vrs)) by apply Sg. unfold mbind, M_bind.
  by destruct (write _ _) as [s' [[]|e]].
Qed.

(** ** Reading *)

Lemma len_encode_str s : bytes s -> len s < max_size -> len (encode (Str s)) <= 9 + len s.
Proof.
  intros Hs Hl. rewrite encode_split, len_app. cbn [payload_of]. pose proof (len_nonneg s).
  assert (Hh : forall n, 0 <= n < max_size -> len (header 0x80 n) <= 9).
  { intros n Hn. rewrite header_len by lia. assert (bytesRequired n <= 8) by (apply bytesRequired_bound; lia).
    case_decide; lia. }
  enough (len (head_of (Str s)) <= 9) by lia.
  destruct s as [|b [|c s]]; cbn [head_of]; [by apply Hh| |by apply Hh].
  case_decide; [done|by apply Hh].
Qed.

Lemma int_str_ok i : is_u256 i -> item_ok (Str (int_bytes i)) /\ len (encode (Str (int_bytes i))) <= 41.
Proof.
  intros Hi. pose proof (bytes_int i ltac:(apply Hi)) as Hb.
  assert (len (int_bytes i) <= 32) by (apply (bytesRequired_bound i 32); [apply Hi|done|apply Hi]).
  pose proof (len_encode_str _ Hb ltac:(lia)). split; [by apply ok_str|lia].
Qed.

Lemma tx_items_readable t vrs : tx_ok t -> t_vrs t = Some vrs -> readable (Lst (tx_items t vrs)).
Proof.
  intros Ok E. assert (Sg : signature_ok t vrs) by (destruct (ok_signature t Ok) as (? & ? & ?); congruence).
  destruct (ok_data t Ok) as [Db Dl]. pose proof (len_encode_str _ Db ltac:(lia)) as Hd.
  set (a := if isCreation t then [] else be_to_bytes 20 (t_receiveAddress t)).
  assert (Ha : bytes a /\ len a <= 20).
  { unfold a. destruct (isCreation t); [split; [constructor|done]|]. split; [apply be_to_bytes_bytes|].
    unfold len. by rewrite length_be_to_bytes. }
  pose proof (len_encode_str a (proj1 Ha) ltac:(lia)) as Hal.
  destruct (int_str_ok _ (ok_nonce t Ok)), (int_str_ok _ (ok_gasPrice t Ok)), (int_str_ok _ (ok_gas t Ok)),
    (int_str_ok _ (ok_value t Ok)), (int_str_ok _ (int_mod_u256 (v_field t vrs))), (int_str_ok _ (proj1 Sg)),
    (int_str_ok _ (proj1 (proj2 Sg))).
  split.
  - apply ok_lst. unfold tx_items. fold a.
    repeat (apply Forall_cons_2; [first [assumption | apply ok_str; first [done | apply Ha]]|]). constructor.
  - cbn [payload_of]. unfold tx_items. fold a. rewrite !encode_all_cons, !len_app. change (len (encode_all [])) with 0. lia.
Qed.

Lemma toInt_int w i : 0 <= w <= 1024 -> 0 <= i < 2 ^ (8 * w) -> toInt w (encode (Str (int_bytes i))) Strict = inl i.
Proof. intros Hw Hi. destruct (int_roundtrip i w Hw Hi) as [E R]. by rewrite E in R. Qed.

Lemma toInt_u256 i : is_u256 i -> toInt 32 (encode (Str (int_bytes i))) Strict = inl i.
Proof. intros Hi. by apply toInt_int. Qed.

Lemma read_str s : readable (Str s) ->
  requireGood (encode (Str s)) = inl tt /\ payload (encode (Str s)) = inl s /\ isData (encode (Str s)) = true.
Proof.
  intros Hr. pose proof (read_item _ [] Hr) as R. cbn zeta in R. rewrite app_nil_r in R.
  destruct R as (El & _ & Ed & _ & En & _). pose proof (payload_item _ [] Hr) as Ep. rewrite app_nil_r in Ep.
  split_and!; [|done|done]. unfold rlp_length in El. rewrite En in El. by destruct (requireGood _) as [[]|].
Qed.

Lemma toHash_str N s : readable (Str s) -> length s = N -> toHash N (encode (Str s)) VeryStrict = inl s.
Proof.
  intros Hr <-. destruct (read_str s Hr) as (G & P & D). unfold toHash. rewrite G. cbn [mbind res_bind].
  rewrite P. cbn [mbind res_bind]. rewrite D, !bool_decide_false by lia. cbn [negb andb orb].
  rewrite Nat.min_id, Nat.sub_diag, firstn_all. done.
Qed.

Lemma isEmpty_address a : isEmpty (encode (Str (be_to_bytes 20 a))) = false.
Proof.
  pose proof (length_be_to_bytes 20 a) as Hl. destruct (be_to_bytes 20 a) as [|b [|c l]]; [done|done|].
  assert (E : encode (Str (b :: c :: l)) = header 0x80 20 ++ b :: c :: l).
  { cbn [encode]. f_equal. f_equal. unfold len. by rewrite Hl. }
  rewrite E. unfold header. rewrite decide_True by done. done.
Qed.

(** The fields of a list, one after the other *)
Lemma subscript_next l rest k r x :
  readable (Lst l) -> cache_ok l rest r -> l !! k = Some x -> Z.of_nat k < 2 ^ 64 ->
  exists r', subscript (Z.of_nat k) r = inl (r', encode x) /\ cache_ok l rest r'.
Proof.
  intros Hr Hc Hx Hk. destruct (subscript_ok l rest Hr k r Hc Hk) as (r' & E & Hc'). exists r'.
  split; [|done]. rewrite E. unfold item_at. by rewrite Hx.
Qed.

(** The receiver, an empty string for a creation *)
Definition address_field (t : TransactionBase) : list Z :=
  encode (Str (if isCreation t then [] else be_to_bytes 20 (t_receiveAddress t))).

Lemma read_address t :
  tx_ok t ->
  (if isEmpty (address_field t) then ContractCreation else MessageCall) = t_type t /\
  (if isEmpty (address_field t) then mret 0
   else h ← toHash 20 (address_field t) VeryStrict; mret (be_of_bytes h)) = inl (t_receiveAddress t) :> res Z.
Proof.
  intros Ok. pose proof (ok_address t Ok) as Ha. pose proof (ok_type t Ok) as Ht. unfold address_field, isCreation in *.
  destruct (t_type t); [done|by rewrite Ha|]. rewrite bool_decide_false in Ha by done. rewrite bool_decide_false by done.
  rewrite isEmpty_address. split; [done|].
  rewrite toHash_str; [|split; [apply ok_str, be_to_bytes_bytes|]|apply length_be_to_bytes].
  - cbn [mbind res_bind]. by rewrite be_of_to_bytes_id.
  - cbn [payload_of]. unfold len. by rewrite length_be_to_bytes.
Qed.

(** Read the field [k] of a list with a valid cache [C] *)
Ltac field k C := let r := fresh "r" in let Er := fresh "E" in let C' := fresh "C" in
  destruct (subscript_next _ [] k _ _ ltac:(eassumption) C eq_refl ltac:(done)) as (r & Er & C');
  match type of Er with subscript ?n _ = _ => let m := eval compute in n in change n with m in Er end;
  rewrite Er; clear Er; cbn [mbind res_bind fst snd].

Section Roundtrip.
Context `{NodeEnv} `{!Recover}.

(** The constructor on the nine fields *)
Lemma of_rlp_items t vrs checkSig :
  tx_ok t -> t_vrs t = Some vrs ->
  (checkSig = CheckNone \/ hasZeroSignature t = true \/ sig_isValid vrs = true) ->
  of_rlp (encode (Lst (tx_items t vrs))) checkSig =
    (from ← (if decide (checkSig = CheckEverything) then sender (forceSender 0 t) else mret 0);
     mret (forceSender from t)).
Proof.
  intros Ok E Hc. pose proof (tx_items_readable t vrs Ok E) as Hr.
  assert (Sg : signature_ok t vrs) by (destruct (ok_signature t Ok) as (? & ? & ?); congruence).
  pose proof (readable_list _ Hr) as Hi. unfold of_rlp. rewrite RLP_exact by done. cbn [mbind res_bind].
  assert (El : isList (encode (Lst (tx_items t vrs))) = true).
  { pose proof (read_item _ [] Hr) as R. cbn zeta in R. rewrite app_nil_r in R. by destruct R as (_ & _ & _ & -> & _). }
  rewrite El. cbn [negb]. set (l := tx_items t vrs) in *.
  assert (C0 : cache_ok l [] (fresh (encode (Lst l)))) by (left; by rewrite app_nil_r).
  field 0%nat C0. rewrite (toInt_u256 _ (ok_nonce t Ok)). cbn [mbind res_bind].
  field 1%nat C. rewrite (toInt_u256 _ (ok_gasPrice t Ok)). cbn [mbind res_bind].
  field 2%nat C1. rewrite (toInt_u256 _ (ok_gas t Ok)). cbn [mbind res_bind].
  field 3%nat C2. fold (address_field t). destruct (read_address t Ok) as [Ety ->]. cbn [mbind res_bind].
  field 4%nat C3. rewrite (toInt_u256 _ (ok_value t Ok)). cbn [mbind res_bind].
  field 5%nat C4. assert (R5 : readable (Str (t_data t))).
  { apply (proj1 (list.Forall_forall readable l) Hi). by do 5 right; left. }
  destruct (read_str _ R5) as (_ & _ & D5). rewrite D5. cbn [negb].
  pose proof (toBytes_item (t_data t) [] LaissezFaire R5) as B5. rewrite app_nil_r in B5. rewrite B5. cbn [mbind res_bind].
  field 6%nat C5. rewrite toInt_int; [|done|apply Z.mod_pos_bound; done]. cbn [mbind res_bind].
  field 7%nat C6. rewrite (toInt_u256 _ (proj1 Sg)). cbn [mbind res_bind].
  field 8%nat C7. rewrite (toInt_u256 _ (proj1 (proj2 Sg))). cbn [mbind res_bind].
  rewrite to_int_mod by by apply v_field_range. rewrite (read_signature_ok t vrs) by done. cbn [mbind res_bind fst snd].
  pose proof (itemCount_list l [] Hr) as En. rewrite app_nil_r in En. rewrite En.
  rewrite Ety, <-E. change (mkTx _ _ _ _ _ _ _ _ _ 0) with (forceSender 0 t).
  destruct (if decide (checkSig = CheckEverything) then _ else _) as [from|e]; [|done]. done.
Qed.

(** C13: what streamRLP writes for a signed transaction is accepted by the
    constructor and gives the transaction back, with the chain id and the parity recovered from
    the one number that carries both; with the strictest check the sender is recovered too. *)
Theorem transaction_roundtrip (t : TransactionBase) (checkSig : CheckTransaction) :
  tx_ok t -> (checkSig = CheckNone \/ hasZeroSignature t = true \/ forall vrs, t_vrs t = Some vrs -> sig_isValid vrs = true) ->
  (d ← tx_rlp t true; of_rlp d checkSig) =
    (from ← (if decide (checkSig = CheckEverything) then sender (forceSender 0 t) else mret 0);
     mret (forceSender from t)).
Proof.
  intros Ok Hc. destruct (ok_signature t Ok) as (vrs & E & Sg). pose proof (tx_items_readable t vrs Ok E) as Hr.
  assert (W : tx_rlp t true = inl (encode (Lst (tx_items t vrs)))).
  { unfold tx_rlp, written. rewrite (bind_ext _ (write (Lst (tx_items t vrs))) _ (fun _ => out)).
    - unfold mbind, M_bind. by rewrite write_spec.
    - intros s. by apply streamRLP_write.
    - done. }
  rewrite W. cbn [mbind res_bind]. apply of_rlp_items; [done|done|]. naive_solver.
Qed.
End Roundtrip.

(** ** Witness, and a second encoding *)

#[local] Existing Instance demo_env.

(** A payment of 5 on the chain 3 *)
Definition demo_tx : TransactionBase :=
  mkTx MessageCall 7 5 0xabcd 20 30000 [1; 0; 200] (Some (mkSig 11 12 1)) 3 0.

Lemma demo_tx_ok : tx_ok demo_tx.
Proof.
  split; try (split; cbn; lia || done); [done|split; [repeat constructor; lia|done]|].
  exists (mkSig 11 12 1). split; [done|]. repeat split; cbn; lia.
Qed.

#[local] Instance demo_recover : Recover := fun vrs h => Some [sig_r vrs; sig_s vrs].

Lemma transaction_roundtrip_witness :
  (d ← tx_rlp demo_tx true; of_rlp d CheckEverything) =
  inl (forceSender (right160 (sha3 [11; 12])) demo_tx).
Proof.
  etrans; [apply (transaction_roundtrip demo_tx CheckEverything)|].
  - apply demo_tx_ok.
  - right; right. intros vrs [= <-]. by vm_compute.
  - by vm_compute.
Defined.

(** The bytes of a creation with [0xc0], the empty list, for the receiver are accepted as well, and
    are not what the transaction is written as. *)
Example two_encodings :
  let t := mkTx ContractCreation 1 0 0 1 2 [] (Some (mkSig 11 12 1)) 3 0 in
  tx_rlp t true = inl [0xc9; 1; 1; 2; 0x80; 0x80; 0x80; 42; 11; 12] /\
  of_rlp [0xc9; 1; 1; 2; 0x80; 0x80; 0x80; 42; 11; 12] CheckNone = inl t /\
  of_rlp [0xc9; 1; 1; 2; 0xc0; 0x80; 0x80; 42; 11; 12] CheckNone = inl t.
Proof. by vm_compute. Qed.
