(* ===== verification/Executive.v ===== *)
(** * libethereum/Executive, ExtVM, State::execute: execution of transactions

    An executive runs one transaction, call or creation on the state.  The virtual machine is a
    parameter: the program [vm_exec gas ext isCreation] is a tree of the calls that it makes on the
    externality object and of what it does with their answers, and it ends with the gas that is
    left and an output, or with an exception.  The precompiled contracts are those of the chain
    parameters.  The modules that a machine has loaded belong to it (see Wasm).  Logging, tracing and
    the thread with the larger stack have no effect on the result. *)

From stdpp Require Import gmap.
From S2P Require Import Prelude Words Exn Rlp EthState Transaction.

#[local] Open Scope Z_scope.

(** ** Transaction.h, Transaction.cpp *)

Inductive TransactionException :=
  | TE_None | TE_Unknown | TE_BadRLP | TE_InvalidFormat | TE_OutOfGasIntrinsic | TE_InvalidSignature
  | TE_InvalidNonce | TE_NotEnoughCash | TE_OutOfGasBase | TE_BlockGasLimitReached
  | TE_BadInstruction | TE_BadJumpDestination | TE_OutOfGas | TE_OutOfStack | TE_StackUnderflow
  | TE_RevertInstruction | TE_InvalidZeroSignatureFormat | TE_AddressAlreadyUsed.

#[export] Instance TransactionException_eq_dec : EqDecision TransactionException.
Proof. solve_decision. Defined.

Inductive CodeDeposit := CD_None | CD_Failed | CD_Success.

Definition toTransactionException (e : exn) : TransactionException :=
  match e with
  | BadRLP | OversizeRLP | UndersizeRLP | BadCast | RLPException => TE_BadRLP
  | OutOfGasIntrinsic => TE_OutOfGasIntrinsic
  | InvalidSignature => TE_InvalidSignature
  | OutOfGasBase => TE_OutOfGasBase
  | InvalidNonce => TE_InvalidNonce
  | NotEnoughCash => TE_NotEnoughCash
  | BlockGasLimitReached => TE_BlockGasLimitReached
  | AddressAlreadyUsed => TE_AddressAlreadyUsed
  | BadInstruction => TE_BadInstruction
  | BadJumpDestination => TE_BadJumpDestination
  | OutOfGas => TE_OutOfGas
  | OutOfStack => TE_OutOfStack
  | StackUnderflow => TE_StackUnderflow
  | _ => TE_Unknown
  end.

(** The exceptions below VMException, RevertInstruction apart *)
Definition is_VMException (e : exn) : bool :=
  match e with
  | BadInstruction | BadJumpDestination | OutOfGas | OutOfStack | StackUnderflow | VMException => true
  | _ => false
  end.

Record ExecutionResult := mkResult {
  res_gasUsed : Z;
  res_excepted : TransactionException;
  res_newAddress : Z;
  res_output : list Z;
  res_codeDeposit : CodeDeposit;
  res_gasRefunded : Z;
  res_depositSize : Z;
  res_gasForDeposit : Z
}.
Definition empty_result : ExecutionResult := mkResult 0 TE_Unknown 0 [] CD_None 0 0 0.

(** ** ExtVMFace.h *)

Record LogEntry := mkLog { log_address : Z; log_topics : list Z; log_data : list Z }.

Record SubState := mkSub { suicides : gset Z; logs : list LogEntry; refunds : Z }.
Definition sub_clear : SubState := mkSub ∅ [] 0.
Definition sub_add (a b : SubState) : SubState :=
  mkSub (suicides a ∪ suicides b) (logs a ++ logs b) (u256 (refunds a + refunds b)).

Record CallParameters := mkCall {
  senderAddress : Z;
  codeAddress : Z;
  receiveAddress : Z;
  valueTransfer : Z;
  apparentValue : Z;
  call_gas : Z;
  call_data : list Z;
  staticCall : bool
}.

(** What the execution reads of the header and of the one before it, with the hashes of the blocks
    before it *)
Record EnvInfo := mkEnv {
  env_number : Z;
  env_author : Z;
  env_timestamp : Z;
  env_prevTimestamp : Z;
  env_difficulty : Z;
  env_gasLimit : Z;
  env_gasUsed : Z;
  env_lastHashes : list Z
}.

Record ExtVM := mkExt {
  ext_myAddress : Z;
  ext_caller : Z;
  ext_origin : Z;
  ext_value : Z;
  ext_gasPrice : Z;
  ext_data : list Z;
  ext_code : list Z;
  ext_codeHash : Z;
  ext_sub : SubState;
  ext_depth : Z;
  ext_staticCall : bool
}.
Definition set_sub (sub : SubState) (x : ExtVM) : ExtVM :=
  mkExt (ext_myAddress x) (ext_caller x) (ext_origin x) (ext_value x) (ext_gasPrice x) (ext_data x)
        (ext_code x) (ext_codeHash x) sub (ext_depth x) (ext_staticCall x).

(** The calls of a virtual machine, with the type of the answer *)
Inductive ext_op : Set -> Type :=
  | op_store (n : Z) : ext_op Z
  | op_setStore (n v : Z) : ext_op unit
  | op_balance (a : Z) : ext_op Z
  | op_codeAt (a : Z) : ext_op (list Z)
  | op_exists (a : Z) : ext_op bool
  | op_suicide (a : Z) : ext_op unit
  | op_log (topics data : list Z) : ext_op unit
  | op_addRefunds (n : Z) : ext_op unit
  | op_blockHash (n : Z) : ext_op Z
  | op_transferBalance (a v : Z) : ext_op unit
  | op_call (p : CallParameters) : ext_op (bool * list Z * Z)
  | op_create (endowment gas : Z) (code : list Z) (create2 : bool) (salt : Z) : ext_op (Z * list Z * Z).

(** An answer is a value or the exception that the call threw *)
Inductive vm_prog : Type :=
  | vm_return (gas : Z) (out : list Z)
  | vm_throw (gas : Z) (e : exn) (out : list Z)
  | vm_do {A : Set} (op : ext_op A) (next : A + exn -> vm_prog).

(** VMFace::exec: the gas, the externality object, and whether a contract is created *)
Class VM := vm_exec : Z -> ExtVM -> bool -> vm_prog.

(** ** ChainOperationParams.h, SealEngine.h *)

Record PrecompiledContract := mkPrecompiled {
  pc_cost : list Z -> Z;
  pc_execute : list Z -> Z -> M State (bool * list Z);
  pc_startingBlock : Z
}.

Record ChainOperationParams := mkParams {
  cp_chainID : Z;
  cp_precompiled : gmap Z PrecompiledContract
}.

(** [m_params.precompiled.at(_a)] when isPrecompiled(_a, _blockNumber) *)
Definition precompiled_at (cp : ChainOperationParams) (a number : Z) : option PrecompiledContract :=
  match cp_precompiled cp !! a with
  | Some pc => if decide (pc_startingBlock pc <= number) then Some pc else None
  | None => None
  end.

(** ** Executive.h *)

Record Executive := mkExecutive {
  e_ext : option ExtVM;
  e_output : list Z;
  e_res : option ExecutionResult;
  e_depth : Z;
  e_excepted : TransactionException;
  e_baseGasRequired : Z;
  e_gas : Z;
  e_refunded : Z;
  e_t : TransactionBase;
  e_logs : list LogEntry;
  e_gasCost : Z;
  e_isCreation : bool;
  e_newAddress : Z;
  e_savepoint : nat
}.

Definition new_executive (res : option ExecutionResult) (depth : Z) : Executive :=
  mkExecutive None [] res depth TE_None 0 0 0 null_tx [] 0 false 0 0.

Definition set_ext x e := mkExecutive x (e_output e) (e_res e) (e_depth e) (e_excepted e)
  (e_baseGasRequired e) (e_gas e) (e_refunded e) (e_t e) (e_logs e) (e_gasCost e) (e_isCreation e) (e_newAddress e) (e_savepoint e).
Definition set_output x e := mkExecutive (e_ext e) x (e_res e) (e_depth e) (e_excepted e)
  (e_baseGasRequired e) (e_gas e) (e_refunded e) (e_t e) (e_logs e) (e_gasCost e) (e_isCreation e) (e_newAddress e) (e_savepoint e).
Definition set_res x e := mkExecutive (e_ext e) (e_output e) x (e_depth e) (e_excepted e)
  (e_baseGasRequired e) (e_gas e) (e_refunded e) (e_t e) (e_logs e) (e_gasCost e) (e_isCreation e) (e_newAddress e) (e_savepoint e).
Definition set_excepted x e := mkExecutive (e_ext e) (e_output e) (e_res e) (e_depth e) x
  (e_baseGasRequired e) (e_gas e) (e_refunded e) (e_t e) (e_logs e) (e_gasCost e) (e_isCreation e) (e_newAddress e) (e_savepoint e).
Definition set_baseGasRequired x e := mkExecutive (e_ext e) (e_output e) (e_res e) (e_depth e) (e_excepted e)
  x (e_gas e) (e_refunded e) (e_t e) (e_logs e) (e_gasCost e) (e_isCreation e) (e_newAddress e) (e_savepoint e).
Definition set_gas x e := mkExecutive (e_ext e) (e_output e) (e_res e) (e_depth e) (e_excepted e)
  (e_baseGasRequired e) x (e_refunded e) (e_t e) (e_logs e) (e_gasCost e) (e_isCreation e) (e_newAddress e) (e_savepoint e).
Definition set_refunded x e := mkExecutive (e_ext e) (e_output e) (e_res e) (e_depth e) (e_excepted e)
  (e_baseGasRequired e) (e_gas e) x (e_t e) (e_logs e) (e_gasCost e) (e_isCreation e) (e_newAddress e) (e_savepoint e).
Definition set_t x e := mkExecutive (e_ext e) (e_output e) (e_res e) (e_depth e) (e_excepted e)
  (e_baseGasRequired e) (e_gas e) (e_refunded e) x (e_logs e) (e_gasCost e) (e_isCreation e) (e_newAddress e) (e_savepoint e).
Definition set_logs x e := mkExecutive (e_ext e) (e_output e) (e_res e) (e_depth e) (e_excepted e)
  (e_baseGasRequired e) (e_gas e) (e_refunded e) (e_t e) x (e_gasCost e) (e_isCreation e) (e_newAddress e) (e_savepoint e).
Definition set_gasCost x e := mkExecutive (e_ext e) (e_output e) (e_res e) (e_depth e) (e_excepted e)
  (e_baseGasRequired e) (e_gas e) (e_refunded e) (e_t e) (e_logs e) x (e_isCreation e) (e_newAddress e) (e_savepoint e).
Definition set_isCreation x e := mkExecutive (e_ext e) (e_output e) (e_res e) (e_depth e) (e_excepted e)
  (e_baseGasRequired e) (e_gas e) (e_refunded e) (e_t e) (e_logs e) (e_gasCost e) x (e_newAddress e) (e_savepoint e).
Definition set_newAddress x e := mkExecutive (e_ext e) (e_output e) (e_res e) (e_depth e) (e_excepted e)
  (e_baseGasRequired e) (e_gas e) (e_refunded e) (e_t e) (e_logs e) (e_gasCost e) (e_isCreation e) x (e_savepoint e).
Definition set_savepoint x e := mkExecutive (e_ext e) (e_output e) (e_res e) (e_depth e) (e_excepted e)
  (e_baseGasRequired e) (e_gas e) (e_refunded e) (e_t e) (e_logs e) (e_gasCost e) (e_isCreation e) (e_newAddress e) x.

(** The state and the executive that works on it *)
Record World := mkWorld { w_s : State; w_e : Executive }.

(** A call on the state *)
Definition on_state {A} (m : M State A) : M World A := fun w =>
  let '(s, r) := m (w_s w) in (mkWorld s (w_e w), r).

Definition get_e : M World Executive := fun w => (w, inl (w_e w)).

(** An assignment to members of the executive *)
Definition upd (f : Executive -> Executive) : M World unit := fun w => (mkWorld (w_s w) (f (w_e w)), inl tt).

(** [if (m_res) *m_res = f( *m_res)] *)
Definition upd_res (f : ExecutionResult -> ExecutionResult) : M World unit :=
  upd (fun e => set_res (f <$> e_res e) e).

Definition set_res_deposit (gas size : Z) (r : ExecutionResult) : ExecutionResult :=
  mkResult (res_gasUsed r) (res_excepted r) (res_newAddress r) (res_output r) (res_codeDeposit r) (res_gasRefunded r) size gas.
Definition set_res_codeDeposit (d : CodeDeposit) (r : ExecutionResult) : ExecutionResult :=
  mkResult (res_gasUsed r) (res_excepted r) (res_newAddress r) (res_output r) d (res_gasRefunded r) (res_depositSize r) (res_gasForDeposit r).
Definition set_res_output (out : list Z) (r : ExecutionResult) : ExecutionResult :=
  mkResult (res_gasUsed r) (res_excepted r) (res_newAddress r) out (res_codeDeposit r) (res_gasRefunded r) (res_depositSize r) (res_gasForDeposit r).
Definition set_res_final (gasUsed : Z) (ex : TransactionException) (newAddress refunded : Z) (r : ExecutionResult) : ExecutionResult :=
  mkResult gasUsed ex newAddress (res_output r) (res_codeDeposit r) refunded (res_depositSize r) (res_gasForDeposit r).

(** [if (m_ext) m_ext->sub = f(m_ext->sub)] *)
Definition upd_sub (f : SubState -> SubState) : M World unit :=
  upd (fun e => set_ext ((fun x => set_sub (f (ext_sub x)) x) <$> e_ext e) e).

Definition gasUsed (e : Executive) : Z := u256 (t_gas (e_t e) - e_gas e).

Section Ops.
Context `{NodeEnv} `{!Recover} `{!VM}.
Context (env : EnvInfo) (cp : ChainOperationParams).

Definition evmSchedule : EVMSchedule := scheduleForBlockNumber (env_number env).

Definition revert : M World unit :=
  upd_sub (fun _ => sub_clear);;
  upd (set_newAddress 0);;
  e ← get_e;
  on_state (rollback (e_savepoint e)).

(** ** Before the execution *)

Definition initialize (t : TransactionBase) : M World unit :=
  upd (set_t t);;
  upd (set_baseGasRequired (baseGasRequired t evmSchedule));;
  try_catch
    (lift (verifyTransaction (cp_chainID cp) Everything t (env_number env) (env_gasLimit env) (env_gasUsed env)))
    (fun ex => upd (set_excepted (toTransactionException ex));; throw ex);;
  if hasZeroSignature t then mret tt
  else
    nonceReq ← try_catch (a ← lift (sender t); on_state (getNonce a))
      (fun ex => (if decide (ex = InvalidSignature) then upd (set_excepted TE_InvalidSignature) else mret tt);; throw ex);
    if decide (t_nonce t <> nonceReq) then upd (set_excepted TE_InvalidNonce);; throw InvalidNonce
    else
      let gasCost := t_gas t * t_gasPrice t in
      let totalCost := t_value t + gasCost in
      a ← lift (sender t);
      b ← on_state (balance a);
      if decide (b < totalCost) then upd (set_excepted TE_NotEnoughCash);; throw NotEnoughCash
      else upd (set_gasCost (u256 gasCost)).

(** ** Calls and creations; the result is true when there is no code to run *)

(** A precompiled contract; the result is true when the call ends here *)
Definition call_precompiled (pc : PrecompiledContract) (p : CallParameters) : M World bool :=
  let g := pc_cost pc (call_data p) in
  if decide (call_gas p < g) then
    upd (set_excepted TE_OutOfGasBase);;
    on_state (addBalance (codeAddress p) 0);;
    mret true
  else
    upd (set_gas (u256 (call_gas p - g)));;
    r ← on_state (pc_execute pc (call_data p) (senderAddress p));
    upd (set_output r.2);;
    if negb r.1 then
      upd (set_gas 0);;
      upd (set_excepted TE_OutOfGas);;
      mret true
    else mret false.

(** The code of an account is to be run *)
Definition call_code (p : CallParameters) (gasPrice origin : Z) : M World bool :=
  upd (set_gas (call_gas p));;
  has ← on_state (addressHasCode (codeAddress p));
  if has : bool then
    c ← on_state (code (codeAddress p));
    h ← on_state (codeHash (codeAddress p));
    upd (fun e => set_ext (Some (mkExt (receiveAddress p) (senderAddress p) origin (apparentValue p) gasPrice
      (call_data p) c h sub_clear (e_depth e) (staticCall p))) e);;
    mret false
  else mret false.

Definition call (p : CallParameters) (gasPrice origin : Z) : M World bool :=
  e ← get_e;
  (if is_tx (e_t e) && bool_decide (senderAddress p <> MaxAddress)
   then on_state (incNonce (senderAddress p)) else mret tt);;
  sp ← on_state savepoint;
  upd (set_savepoint sp);;
  ended ← match precompiled_at cp (codeAddress p) (env_number env) with
          | Some pc => call_precompiled pc p
          | None => call_code p gasPrice origin
          end;
  if ended : bool then mret true
  else
    on_state (transferBalance (senderAddress p) (receiveAddress p) (valueTransfer p));;
    e ← get_e;
    mret (bool_decide (e_ext e = None)).

Definition executeCreate (from endowment gasPrice gas : Z) (init : list Z) (origin : Z) : M World bool :=
  (if decide (from <> MaxAddress) then on_state (incNonce from) else mret tt);;
  sp ← on_state savepoint;
  upd (set_savepoint sp);;
  upd (set_isCreation true);;
  upd (set_gas gas);;
  e ← get_e;
  let newAddress := e_newAddress e in
  has ← on_state (addressHasCode newAddress);
  accountAlreadyExist ← (if has : bool then mret true
                         else n ← on_state (getNonce newAddress); mret (bool_decide (0 < n)));
  if accountAlreadyExist : bool then
    upd (set_gas 0);;
    upd (set_excepted TE_AddressAlreadyUsed);;
    revert;;
    upd (set_ext None);;
    mret true
  else
    on_state (transferBalance from newAddress endowment);;
    start ← on_state requireAccountStartNonce;
    on_state (setNonce newAddress (u256 (start + 1)));;
    if decide (init <> []) then
      upd (fun e => set_ext (Some (mkExt newAddress from origin endowment gasPrice [] init (sha3 init)
        sub_clear (e_depth e) false)) e);;
      mret false
    else mret true.

Definition createOpcode (from endowment gasPrice gas : Z) (init : list Z) (origin : Z) : M World bool :=
  nonce ← on_state (getNonce from);
  list ← lift (Rlp.written (Rlp.appendList 2;; Rlp.append (be_to_bytes 20 from) false;; Rlp.append_int nonce));
  upd (set_newAddress (right160 (sha3 list)));;
  executeCreate from endowment gasPrice gas init origin.

Definition create2Opcode (from endowment gasPrice gas : Z) (init : list Z) (origin salt : Z) : M World bool :=
  upd (set_newAddress (right160 (sha3 (be_to_bytes 20 from ++ be_to_bytes 32 salt ++ be_to_bytes 32 (sha3 init)))));;
  executeCreate from endowment gasPrice gas init origin.

Definition execute : M World bool :=
  e ← get_e;
  let t := e_t e in
  a ← lift (sender t);
  on_state (subBalance a (e_gasCost e));;
  let gas := u256 (t_gas t - u256 (e_baseGasRequired e)) in
  if isCreation t then createOpcode a (t_value t) (t_gasPrice t) gas (t_data t) a
  else call (mkCall a (t_receiveAddress t) (t_receiveAddress t) (t_value t) (t_value t) gas (t_data t) false)
         (t_gasPrice t) a.

(** ** ExtVM.cpp: what the calls of the machine do *)

(** These end the process, or stand for behaviour that is not defined *)
Definition fatal (e : exn) : bool :=
  match e with process_exit | undefined_behaviour | out_of_fuel | hash_collision => true | _ => false end.

(** A new executive on the same state *)
Definition with_executive {A} (depth : Z) (m : M World A) : M World A := fun w =>
  let '(w', r) := m (mkWorld (w_s w) (new_executive None depth)) in (mkWorld (w_s w') (w_e w), r).

Definition blockHash (n : Z) : res Z :=
  let currentNumber := env_number env in
  if decide (currentNumber <= n \/ n < Z.max 256 currentNumber - 256) then mret 0
  else match env_lastHashes env !! Z.to_nat ((currentNumber - 1 - n) mod 2 ^ 32) with
  | Some h => mret h
  | None => raise undefined_behaviour
  end.

Section Machine.
(** Executive::go of an inner executive *)
Context (nested : M World bool).

(** The start of an inner executive and, unless it is done, its run; the substate that the outer
    one takes over *)
Definition run_inner (depth : Z) (start : M World bool) : M World (option SubState * Executive) :=
  with_executive depth
    (ended ← start;
     if ended : bool then e ← get_e; mret (None, e)
     else nested;; e ← get_e; mret (ext_sub <$> e_ext e, e)).

Definition accrueSubState (sub : option SubState) : M World unit :=
  match sub with Some sub => upd_sub (fun s => sub_add s sub) | None => mret tt end.

Definition ext_call (x : ExtVM) (p : CallParameters) : M World (bool * list Z * Z) :=
  r ← run_inner (ext_depth x + 1) (call p (ext_gasPrice x) (ext_origin x));
  accrueSubState r.1;;
  mret (bool_decide (e_excepted r.2 = TE_None), e_output r.2, e_gas r.2).

Definition ext_create (x : ExtVM) (endowment gas : Z) (init : list Z) (create2 : bool) (salt : Z) :
    M World (Z * list Z * Z) :=
  r ← run_inner (ext_depth x + 1)
    (if create2 then create2Opcode (ext_myAddress x) endowment (ext_gasPrice x) gas init (ext_origin x) salt
     else createOpcode (ext_myAddress x) endowment (ext_gasPrice x) gas init (ext_origin x));
  accrueSubState r.1;;
  mret (e_newAddress r.2, e_output r.2, e_gas r.2).

Definition ext_suicide (x : ExtVM) (a : Z) : M World unit :=
  b ← on_state (balance (ext_myAddress x));
  on_state (addBalance a b);;
  b ← on_state (balance (ext_myAddress x));
  on_state (subBalance (ext_myAddress x) b);;
  upd_sub (fun s => mkSub ({[ext_myAddress x]} ∪ suicides s) (logs s) (refunds s)).

Definition handle {A : Set} (x : ExtVM) (op : ext_op A) : M World A :=
  match op in ext_op A return M World A with
  | op_store n => on_state (storage (ext_myAddress x) n)
  | op_setStore n v => on_state (setStorage (ext_myAddress x) n v)
  | op_balance a => on_state (balance a)
  | op_codeAt a => on_state (code a)
  | op_exists a =>
      if emptinessIsNonexistence evmSchedule then on_state (accountNonemptyAndExisting a)
      else on_state (addressInUse a)
  | op_suicide a => ext_suicide x a
  | op_log topics data =>
      upd_sub (fun s => mkSub (suicides s) (logs s ++ [mkLog (ext_myAddress x) topics data]) (refunds s))
  | op_addRefunds n => upd_sub (fun s => mkSub (suicides s) (logs s) (u256 (refunds s + n)))
  | op_blockHash n => lift (blockHash n)
  | op_transferBalance a v => on_state (transferBalance (ext_myAddress x) a v)
  | op_call p => ext_call x p
  | op_create endowment gas init create2 salt => ext_create x endowment gas init create2 salt
  end.

(** The machine at work; its gas is the member of the executive *)
Fixpoint run (x : ExtVM) (p : vm_prog) : M World (list Z + exn * list Z) :=
  match p with
  | vm_return gas out => upd (set_gas gas);; mret (inl out)
  | vm_throw gas e out => upd (set_gas gas);; mret (inr (e, out))
  | vm_do op next => fun w =>
      match handle x op w with
      | (w', inl a) => run x (next (inl a)) w'
      | (w', inr e) => if fatal e then (w', inr e) else run x (next (inr e)) w'
      end
  end.

(** ** Executive::go *)

(** After the code of a creation: the exception that is thrown, if any *)
Definition deposit (x : ExtVM) (out : list Z) : M World (option (exn * list Z)) :=
  e ← get_e;
  upd_res (set_res_deposit (e_gas e) (len out));;
  let store (out : list Z) : M World (option (exn * list Z)) :=
    upd_res (set_res_output out);;
    on_state (setCode (ext_myAddress x) out);;
    mret None in
  if decide (maxCodeSize evmSchedule < len out) then mret (Some (OutOfGas, []))
  else if decide (len out * createDataGas evmSchedule <= e_gas e) then
    upd_res (set_res_codeDeposit CD_Success);;
    upd (set_gas (u256 (e_gas e - len out * createDataGas evmSchedule)));;
    store out
  else if exceptionalFailedCodeDeposit evmSchedule then mret (Some (OutOfGas, []))
  else
    upd_res (set_res_codeDeposit CD_Failed);;
    store [].

(** The handlers *)
Definition caught (ex : exn) (out : list Z) : M World unit :=
  if decide (ex = RevertInstruction) then
    revert;;
    upd (set_output out);;
    upd (set_excepted TE_RevertInstruction)
  else if is_VMException ex then
    upd (set_gas 0);;
    upd (set_excepted (toTransactionException ex));;
    revert
  else throw process_exit.

Definition go_body : M World bool :=
  e ← get_e;
  match e_ext e with
  | None => mret true
  | Some x =>
      r ← (if e_isCreation e then
             on_state (clearStorage (ext_myAddress x));;
             o ← run x (vm_exec (e_gas e) x true);
             match o with inl out => deposit x out | inr ex => mret (Some ex) end
           else
             o ← run x (vm_exec (e_gas e) x false);
             match o with inl out => upd (set_output out);; mret None | inr ex => mret (Some ex) end);
      match r with Some (ex, out) => caught ex out | None => mret tt end;;
      upd (fun e => match e_output e with [] => e | out => set_res (set_res_output out <$> e_res e) e end);;
      mret true
  end.
End Machine.

(** Inner executives run with one unit of fuel less *)
Fixpoint go (fuel : nat) : M World bool :=
  match fuel with
  | O => throw out_of_fuel
  | S fuel => go_body (go fuel)
  end.

(** ** After the execution *)

Definition finalize : M World bool :=
  upd_sub (fun s => mkSub (suicides s) (logs s)
    (u256 (refunds s + suicideRefundGas evmSchedule * Z.of_nat (size (suicides s)))));;
  e ← get_e;
  upd (set_refunded (match e_ext e with
                     | Some x => Z.min (u256 (t_gas (e_t e) - e_gas e) / 2) (refunds (ext_sub x))
                     | None => 0
                     end));;
  upd (fun e => set_gas (u256 (e_gas e + e_refunded e)) e);;
  e ← get_e;
  (if is_tx (e_t e) then
     a ← lift (sender (e_t e));
     on_state (addBalance a (u256 (e_gas e * t_gasPrice (e_t e))));;
     let feesEarned := u256 (u256 (t_gas (e_t e) - e_gas e) * t_gasPrice (e_t e)) in
     on_state (addBalance (env_author env) feesEarned)
   else mret tt);;
  match e_ext e with
  | Some x =>
      for_each (fun a => on_state (kill a)) (elements (suicides (ext_sub x)));;
      upd (set_logs (logs (ext_sub x)))
  | None => mret tt
  end;;
  upd_res (set_res_final (gasUsed e) (e_excepted e) (e_newAddress e)
             (match e_ext e with Some x => refunds (ext_sub x) | None => 0 end));;
  mret (bool_decide (e_excepted e = TE_None)).

(** ** State.cpp *)

Definition executeTransaction (fuel : nat) (t : TransactionBase) : M World bool :=
  initialize t;;
  ended ← execute;
  (if ended : bool then mret true else go fuel);;
  finalize.

Inductive Permanence := Reverted | Committed | Uncommitted.

Record TransactionReceipt := mkReceipt { rc_status : bool; rc_gasUsed : Z; rc_log : list LogEntry }.

(** With MultiThreadImport the changes stay in the cache until the block is committed *)
Definition State_execute (fuel : nat) (t : TransactionBase) (p : Permanence) :
    M State (ExecutionResult * TransactionReceipt) := fun s =>
  match executeTransaction fuel t (mkWorld s (new_executive (Some empty_result) 0)) with
  | (w, inr e) => (w_s w, inr e)
  | (w, inl statusCode) =>
      let s := match p with Reverted => set_cache ∅ (w_s w) | _ => w_s w end in
      (s, inl (default empty_result (e_res (w_e w)),
               mkReceipt statusCode (u256 (env_gasUsed env + gasUsed (w_e w))) (e_logs (w_e w))))
  end.
End Ops.

Definition set_gasUsed (g : Z) (env : EnvInfo) : EnvInfo :=
  mkEnv (env_number env) (env_author env) (env_timestamp env) (env_prevTimestamp env) (env_difficulty env)
        (env_gasLimit env) g (env_lastHashes env).

(** The loop of executeBlockTransactions *)
Fixpoint executeBlockTransactions `{NodeEnv} `{!Recover} `{!VM} (env : EnvInfo) (cp : ChainOperationParams)
    (fuel : nat) (txs : list TransactionBase) (gasUsed_ : Z) : M State unit :=
  match txs with
  | [] => mret tt
  | t :: txs => fun s =>
      match executeTransaction (set_gasUsed gasUsed_ env) cp fuel t (mkWorld s (new_executive None 0)) with
      | (w, inr e) => (w_s w, inr e)
      | (w, inl _) =>
          executeBlockTransactions env cp fuel txs (u256 (gasUsed_ + gasUsed (w_e w))) (w_s w)
      end
  end.
