(* ===== verification/Precompiled.v ===== *)
(** * libethcore/Precompiled, the precompiled contracts of the main network

    The contracts that the genesis of the main network names: those that only compute, and those of
    the votes.  The hash functions of libdevcrypto are parameters; modexp, the contracts of
    alt_bn128 and powReceive are given as a map of further contracts. *)

From stdpp Require Import gmap.
From S2P Require Import Prelude Words Exn Rlp EthState Ledger EthLedger Vote VoteCall Transaction Executive.

#[local] Open Scope Z_scope.

(** PrecompiledContract(base, word, exec, startingBlock) *)
Definition linear (base word : Z) (exec : list Z -> Z -> M State (bool * list Z)) (startingBlock : Z) : PrecompiledContract :=
  mkPrecompiled (fun d => base + (len d + 31) / 32 * word) exec startingBlock.

(** A contract that does not look at the state *)
Definition computes (f : list Z -> bool * list Z) : list Z -> Z -> M State (bool * list Z) :=
  fun d _ => mret (f d).

Section Contracts.
Context `{NodeEnv} `{!Recover} `{!Boost}.
Context (sha256 ripemd160 : list Z -> list Z).

(** The bytes of the input over a struct of zeros *)
Definition ecrecover_input (d : list Z) : list Z := take 128 (take 128 d ++ replicate 128 0).

Definition ecrecover (d : list Z) : bool * list Z :=
  let input := ecrecover_input d in
  let hash := be_of_bytes (sub input 0 32) in
  let v := be_of_bytes (sub input 32 32) in
  let vrs := mkSig (be_of_bytes (sub input 64 32)) (be_of_bytes (sub input 96 32)) (v - 27) in
  if decide (27 <= v <= 28) then
    if sig_isValid vrs then
      match recover vrs hash with
      | Some p => (true, replicate 12 0 ++ be_to_bytes 20 (right160 (sha3 p)))
      | None => (true, [])
      end
    else (true, [])
  else (true, []).

Definition identity (d : list Z) : bool * list Z := (true, d).

(** ETH_REGISTER_PRECOMPILED of a vote contract *)
Definition vote_executor (c : contract) (d : list Z) (a : Z) : M State (bool * list Z) :=
  precompiled c d a;; mret (true, []).

(** The accounts of the genesis with a contract, and the others *)
Definition mainNetwork (others : gmap Z PrecompiledContract) : gmap Z PrecompiledContract :=
  list_to_map [
    (0x1, linear 3000 0 (computes ecrecover) 0);
    (0x2, linear 60 12 (computes (fun d => (true, sha256 d))) 0);
    (0x3, linear 600 120 (computes (fun d => (true, replicate 12 0 ++ ripemd160 d))) 0);
    (0x4, linear 15 3 (computes identity) 0);
    (0x22, linear 210000 7 (vote_executor c_mortgage) 0);
    (0x23, linear 210000 8 (vote_executor c_redeem) 0);
    (0x24, linear 2100000 9 (vote_executor c_candidateRegister) 0);
    (0x25, linear 210000 10 (vote_executor c_candidateDeregister) 0);
    (0x26, linear 210000 6 (vote_executor c_vote) 0);
    (0x27, linear 210000 6 (vote_executor c_removeVote) 0);
    (0x2a, linear 210000 6 (vote_executor c_send) 0)
  ] ∪ others.
End Contracts.
