(* ===== verification/ExecState.v ===== *)
(** * The state under a transaction

    What the executive relies on and keeps: a coherent cache, storage roots that are those of the
    trie or empty, no dead account, and contracts whose accounts stay.  [sound] relates the state
    before and after an operation; [safe] adds that the change log leads back. *)

From stdpp Require Import gmap sorting.
From S2P Require Import Prelude Words Exn EthState EthStateInv EthCommit EthRollback EthLedger.

#[local] Open Scope Z_scope.

Section Roots.
Context `{NodeEnv}.

(** The storage root of the trie at an address *)
Definition root_in (T : gmap Z leaf) (a : Z) : gmap Z Z :=
  match T !! a with Some l => leaf_root l | None => ∅ end.

(** The trie and the start nonce stay, and no storage root is made before the commit *)
Definition framed (T : gmap Z leaf) (n : Z) (s : State) : Prop :=
  m_state s = T /\ m_accountStartNonce s = n /\
  (forall a x, m_cache s !! a = Some x -> m_storageRoot x = ∅ \/ m_storageRoot x = root_in T a) /\
  (forall a r, ChStorageRoot a r ∈ m_changeLog s -> r = root_in T a).

Context (T : gmap Z leaf) (n : Z).

Lemma framed_set a y s :
  framed T n s -> m_storageRoot y = ∅ \/ m_storageRoot y = root_in T a ->
  framed T n (set_cache (<[a := y]> (m_cache s)) s).
Proof.
  intros (? & ? & C & L) Hy. split_and!; [done|done| |done]. intros b x. cbn.
  rewrite lookup_insert_Some. intros [[<- <-]|[_ Hx]]; [done|by apply C].
Qed.

Lemma framed_upd_cache a f s :
  framed T n s -> (forall x, m_storageRoot (f x) = m_storageRoot x) -> framed T n (upd_cache a f s).
Proof.
  intros F Hf. apply framed_set; [done|]. rewrite Hf.
  destruct (m_cache s !! a) as [x|] eqn:E; [by apply F|by left].
Qed.

Lemma framed_upd_account a f s :
  framed T n s -> (forall x, m_storageRoot (f x) = m_storageRoot x) -> framed T n (upd_account a f s).
Proof.
  intros (? & ? & C & L) Hf. split_and!; [done|done| |done]. intros b x. cbn.
  destruct (decide (b = a)) as [->|Hn].
  - rewrite lookup_alter_eq. intros (y & Hy & ->)%fmap_Some. rewrite Hf. by apply C.
  - rewrite lookup_alter_ne by done. apply C.
Qed.

Lemma framed_delete a s : framed T n s -> framed T n (set_cache (delete a (m_cache s)) s).
Proof.
  intros (? & ? & C & L). split_and!; [done|done| |done]. intros b x. cbn [m_cache set_cache].
  intros [_ Hx]%lookup_delete_Some. by apply C.
Qed.

Lemma framed_log c s :
  framed T n s -> (forall a r, c = ChStorageRoot a r -> r = root_in T a) -> framed T n (log c s).
Proof.
  intros (? & ? & C & L) Hc. split_and!; [done|done|done|]. intros a r [E|Hin]%elem_of_cons; [by apply Hc|by apply L].
Qed.

Lemma framed_changeLog cs s :
  framed T n s -> (forall c, c ∈ cs -> c ∈ m_changeLog s) -> framed T n (set_changeLog cs s).
Proof. intros (? & ? & C & L) Hc. split_and!; [done|done|done|]. intros a r Hin. by apply L, Hc. Qed.

Lemma framed_unchanged l s : framed T n s -> framed T n (set_unchanged l s).
Proof. done. Qed.

Lemma framed_nonExisting x s : framed T n s -> framed T n (set_nonExisting x s).
Proof. done. Qed.

Lemma framed_clearCache_loop fuel s : framed T n s -> framed T n (clearCache_loop fuel s).
Proof.
  revert s. induction fuel as [|fuel IH]; intros s F; [done|]. cbn [clearCache_loop].
  case_decide; [|done]. apply IH. case_match; [|done]. case_match; [done|]. by apply framed_delete.
Qed.

Lemma framed_find_account a s : framed T n s -> framed T n (find_account a s).1.
Proof.
  intros F. unfold find_account. destruct (m_cache s !! a); [done|]. case_decide; [done|].
  destruct (m_state s !! a) as [l|] eqn:E; [|done]. cbn [fst].
  apply framed_unchanged, framed_set; [by apply framed_clearCache_loop|]. right. cbn.
  unfold root_in. destruct F as (<- & _). by rewrite E.
Qed.

(** No account, no storage *)
Lemma root_none s a : acct s a = None -> root_in (m_state s) a = ∅.
Proof. unfold root_in, acct. destruct (m_cache s !! a); [done|]. by destruct (m_state s !! a). Qed.

(** One entry of the log undone *)
Lemma framed_undo c s : framed T n s -> c ∈ m_changeLog s -> framed T n (undo c s).
Proof.
  intros F Hc. destruct c; cbn [undo]; try (by apply framed_upd_cache).
  - apply framed_set; [done|]. right. cbn. by eapply F.
  - by apply framed_delete.
Qed.

Lemma framed_rollback sp s : framed T n s -> framed T n (rollback sp s).1.
Proof.
  intros F. change (rollback sp s) with (rollback_loop sp (m_changeLog s) s).
  assert (Hsub : forall c, c ∈ m_changeLog s -> c ∈ m_changeLog s) by done. revert Hsub.
  generalize (m_changeLog s) at 1 3. intros cs. revert s F. induction cs as [|c cs IH]; intros s F Hsub; cbn [rollback_loop].
  - by case_decide.
  - case_decide; [done|]. unfold mbind, M_bind, update_st. apply IH.
    + apply framed_changeLog; [apply framed_undo; [done|apply Hsub; by left]|].
      intros c' Hc'. assert (E : m_changeLog (undo c s) = m_changeLog s) by by destruct c.
      rewrite E. apply Hsub. by right.
    + done.
Qed.

(** ** The operations keep the frame *)

Lemma framed_account a : preserves (framed T n) (account a).
Proof. intros s F. pose proof (framed_find_account a s F) as H1. unfold account. by destruct (find_account a s). Qed.

Lemma framed_update f : (forall s, framed T n s -> framed T n (f s)) -> preserves (framed T n) (update_st f).
Proof. intros Hf s F. by apply Hf. Qed.

Lemma framed_startNonce : preserves (framed T n) requireAccountStartNonce.
Proof. intros s F. unfold requireAccountStartNonce, mbind, M_bind; cbn. by case_decide. Qed.

Lemma framed_createAccount a y : m_storageRoot y = ∅ -> preserves (framed T n) (createAccount a y).
Proof.
  intros Hy s F. cbn. apply framed_log; [|done]. apply framed_nonExisting, framed_set; [done|by left].
Qed.

#[local] Hint Resolve framed_account framed_startNonce : preserves.
Ltac framed := repeat first
  [ progress (eauto with preserves)
  | apply framed_createAccount; done
  | apply preserves_bind; [|intros ?]
  | apply framed_update; intros; first
      [ by apply framed_upd_cache | by apply framed_upd_account | by apply framed_log ]
  | case_match | case_decide ].

Lemma framed_query {A} a (f : Account -> A) d : preserves (framed T n) (query a f d).
Proof. unfold query. framed. Qed.

Lemma framed_getNonce a : preserves (framed T n) (getNonce a).
Proof. unfold getNonce. framed. Qed.

Lemma framed_incNonce a : preserves (framed T n) (incNonce a).
Proof. unfold incNonce. framed. Qed.

Lemma framed_setNonce a m : preserves (framed T n) (setNonce a m).
Proof. unfold setNonce. framed. Qed.

Lemma framed_addBalance a v : preserves (framed T n) (addBalance a v).
Proof. unfold addBalance. framed. Qed.
#[local] Hint Resolve framed_addBalance : preserves.

Lemma framed_subBalance a v : preserves (framed T n) (subBalance a v).
Proof. unfold subBalance. framed. Qed.

Lemma framed_storage a k : preserves (framed T n) (storage a k).
Proof. unfold storage. framed. Qed.
#[local] Hint Resolve framed_storage : preserves.

Lemma framed_setStorage a k v : preserves (framed T n) (setStorage a k v).
Proof. unfold setStorage. framed. Qed.

Lemma framed_code a : preserves (framed T n) (code a).
Proof. unfold code. framed. Qed.
#[local] Hint Resolve framed_code : preserves.

Lemma framed_setCode a c : preserves (framed T n) (setCode a c).
Proof. unfold setCode. framed. Qed.

Lemma framed_clearStorage a : preserves (framed T n) (clearStorage a).
Proof.
  unfold clearStorage. apply preserves_bind; [framed|intros _ s F]. unfold mbind, M_bind, get_st.
  case_decide as E; [done|]. cbn. apply framed_set; [|by left]. apply framed_log; [done|].
  intros b r [= <- <-]. destruct (m_cache s !! a) as [x|] eqn:Ex; [|done]. cbn in *.
  destruct F as (_ & _ & C & _). by destruct (C a x Ex).
Qed.

Lemma framed_rollback_op sp : preserves (framed T n) (rollback sp).
Proof. intros s. apply framed_rollback. Qed.
End Roots.

(** ** What a transaction relies on and keeps *)

(** The accounts that contracts of the chain keep their data in *)
Class Homes := homes : list Z.

Section Sound.
Context `{NodeEnv} `{!Homes}.

(** The account is there, and is not an empty one that was not changed *)
Definition here (s : State) (a : Z) : Prop := exists x, acct s a = Some x /\ ~ unsettled x.

(** An account at whose address no contract can be created *)
Definition guarded (x : Account) : Prop := m_codeHash x <> EmptySHA3 \/ m_nonce x <> 0.

(** The accounts that the trie gives a storage are guarded; no account was killed since the last
    commit *)
Record inv (s : State) : Prop := {
  inv_wf : wf s;
  inv_nonce : is_u256 (m_accountStartNonce s) /\ m_accountStartNonce s <> Invalid256;
  inv_frame : framed (m_state s) (m_accountStartNonce s) s;
  inv_alive : forall a x, acct s a = Some x -> m_isAlive x;
  inv_nonces : forall a x, acct s a = Some x -> is_u256 (m_nonce x);
  inv_guard : forall a x, acct s a = Some x -> root_in (m_state s) a <> ∅ -> guarded x;
  inv_homes : forall a, a ∈ homes -> here s a
}.

(** An account that was changed *)
Definition dirty_at (s : State) (a : Z) : Prop := exists x, acct s a = Some x /\ isDirty x.

(** A contract that runs: its account is there, and stays when it is empty *)
Definition live (s : State) (a : Z) : Prop :=
  exists x, acct s a = Some x /\ ~ unsettled x /\ (m_codeHash x <> EmptySHA3 \/ root_in (m_state s) a = ∅).

Record sound (s s' : State) : Prop := {
  so_inv : inv s';
  so_state : m_state s' = m_state s;
  so_start : m_accountStartNonce s' = m_accountStartNonce s;
  so_live : forall a, live s a -> live s' a;
  so_dirty : forall a, dirty_at s a -> dirty_at s' a
}.

Definition safe (s s' : State) : Prop := undoable s s' /\ sound s s'.

Lemma sound_refl s : inv s -> sound s s.
Proof. by split. Qed.

Lemma sound_trans s1 s2 s3 : sound s1 s2 -> sound s2 s3 -> sound s1 s3.
Proof.
  intros [I1 E1 N1 L1 D1] [I2 E2 N2 L2 D2].
  split; [done|congruence|congruence|intros a Ha; by apply L2, L1|intros a Ha; by apply D2, D1].
Qed.

Lemma safe_refl s : inv s -> safe s s.
Proof. intros I. split; [apply undoable_refl, I|by apply sound_refl]. Qed.

Lemma safe_trans s1 s2 s3 : safe s1 s2 -> safe s2 s3 -> safe s1 s3.
Proof. intros [U1 S1] [U2 S2]. split; [by eapply undoable_trans|by eapply sound_trans]. Qed.

Lemma safe_inv s s' : safe s s' -> inv s'.
Proof. intros [_ S]. apply S. Qed.

Lemma framed_self T n s : framed T n s -> framed (m_state s) (m_accountStartNonce s) s.
Proof. intros F. pose proof F as (E1 & E2 & _). by rewrite E1, E2. Qed.

(** The same accounts, perhaps marked *)
Lemma sound_dirtier s s' :
  inv s -> wf s' -> framed (m_state s) (m_accountStartNonce s) s' -> dirtier s s' -> sound s s'.
Proof.
  intros I W F [_ D]. pose proof F as (Es & En & _).
  assert (B : forall a y, acct s' a = Some y -> exists x, acct s a = Some x /\ dirtier_acc (m_db s) x y).
  { intros a y Hy. specialize (D a). rewrite Hy in D. inversion D; subst; eauto. }
  assert (Hh : forall a, here s a -> here s' a).
  { intros a (x & Hx & Hu). specialize (D a). rewrite Hx in D.
    apply option_Forall2_Some in D as (y & Hy & E & Dy & _). exists y. split; [done|].
    intros [Hn He]. apply Hu. split; [by intros Hd; apply Hn, Dy|]. by rewrite (acc_equiv_isEmpty _ _ _ E). }
  split; [|done|done| |].
  - split; [done|by rewrite En; apply I|by eapply framed_self| | | |intros a Ha; by apply Hh, I].
    + intros a y Hy. destruct (B a y Hy) as (x & Hx & [[] _]). apply (inv_alive s I) in Hx. congruence.
    + intros a y Hy. destruct (B a y Hy) as (x & Hx & [[] _]). apply (inv_nonces s I) in Hx. congruence.
    + intros a y Hy. rewrite Es. intros Hr. destruct (B a y Hy) as (x & Hx & [[] _]).
      pose proof (inv_guard s I a x Hx Hr) as [?|?]; [left|right]; congruence.
  - intros a (x & Hx & Hu & Hc). destruct (Hh a) as (y & Hy & Hu'); [by exists x|]. exists y. split_and!; [done|done|].
    destruct (B a y Hy) as (x' & Hx' & [E _]). rewrite Es. rewrite Hx in Hx'. injection Hx' as <-.
    destruct E. destruct Hc; [left; congruence|by right].
  - intros a (x & Hx & Hd). specialize (D a). rewrite Hx in D.
    apply option_Forall2_Some in D as (y & Hy & _ & Dy & _). exists y. auto.
Qed.

Lemma safe_dirtier s s' :
  inv s -> wf s' -> framed (m_state s) (m_accountStartNonce s) s' -> dirtier s s' -> safe s s'.
Proof. intros. split; [by apply undoable_dirtier|by apply sound_dirtier]. Qed.

(** Back at the savepoint *)
Lemma safe_rollback s s1 :
  safe s s1 -> inv s -> exists s2, rollback (length (m_changeLog s)) s1 = (s2, inl tt) /\ dirtier s s2 /\ safe s s2.
Proof.
  intros [U S] I. destruct (rollback_undoable s s1 U) as (s2 & E & W2 & D2). exists s2. split_and!; [done|done|].
  apply safe_dirtier; [done|done| |done].
  pose proof (framed_rollback_op (m_state s) (m_accountStartNonce s) (length (m_changeLog s)) s1) as F.
  rewrite E in F. apply F. pose proof (inv_frame s1 (so_inv s s1 S)) as F1.
  by rewrite (so_state s s1 S), (so_start s s1 S) in F1.
Qed.
End Sound.
