(* ===== verification/ExecOps.v ===== *)
(** * The operations of the state under a transaction

    The effect of each operation on the accounts, and that it is sound; the sum of all balances. *)

From stdpp Require Import gmap sorting.
From S2P Require Import Prelude Words Exn EthState EthStateInv EthCommit EthRollback EthLedger ExecState.

#[local] Open Scope Z_scope.

Section Effects.
Context `{NodeEnv} `{!Homes}.

(** The account at [a] became [f] of itself, or [new] when there was none; the others are the same *)
Definition assigned (s : State) (a : Z) (f : Account -> Account) (new : Account) (s' : State) : Prop :=
  m_db s' = m_db s /\
  (exists y, acct s' a = Some y /\
     match acct s a with Some x => exists x', same_acc (m_db s) x x' /\ y = f x' | None => y = new end) /\
  (forall b, b <> a -> option_Forall2 (same_acc (m_db s)) (acct s b) (acct s' b)).

Lemma assigned_set s s1 a x f new :
  sim s s1 -> acct s1 a = Some x -> assigned s a f new (set_cache (<[a := f x]> (m_cache s1)) s1).
Proof.
  intros [(E & _) A] Hx. split_and!; [done| |].
  - exists (f x). rewrite acct_set, decide_True by done. split; [done|]. specialize (A a). rewrite Hx in A.
    inversion A; subst. eauto.
  - intros b Hb. rewrite acct_set, decide_False by done. apply A.
Qed.

Lemma assigned_new s s1 a f new :
  sim s s1 -> acct s1 a = None -> assigned s a f new (set_cache (<[a := new]> (m_cache s1)) s1).
Proof.
  intros [(E & _) A] Hx. split_and!; [done| |].
  - exists new. rewrite acct_set, decide_True by done. split; [done|]. specialize (A a). rewrite Hx in A.
    by inversion A.
  - intros b Hb. rewrite acct_set, decide_False by done. apply A.
Qed.

Lemma assigned_frame s a f new t t' :
  m_db t' = m_db t -> (forall b, acct t' b = acct t b) -> assigned s a f new t -> assigned s a f new t'.
Proof.
  intros Ed Ea (D & (y & Hy & R) & O). split_and!; [congruence|exists y; by rewrite Ea|].
  intros b Hb. rewrite Ea. by apply O.
Qed.

Lemma addBalance_assigned s a v :
  wf s -> m_accountStartNonce s <> Invalid256 -> exists s', addBalance a v s = (s', inl tt) /\
    assigned s a (account_addBalance v) (new_account (m_accountStartNonce s) v) s'.
Proof.
  intros W N. unfold addBalance, account, mbind, M_bind.
  destruct (find_account a s) as [s1 r] eqn:E. destruct (find_account_ok s a s1 r W E) as (W1 & S1 & Hr & Hc).
  assert (En : m_accountStartNonce s = m_accountStartNonce s1) by by destruct S1 as [(_ & _ & _ & ? & _) _].
  destruct r as [x|].
  - pose proof (assigned_set s s1 a x (account_addBalance v) (new_account (m_accountStartNonce s) v) S1 (eq_sym Hr)) as C.
    destruct (negb (isDirty x) && isEmpty x); cbn; case_decide; eexists; (split; [reflexivity|]);
      (eapply assigned_frame; [| |exact C]); unfold upd_account; cbn;
      try done; intros b; unfold acct; cbn; by rewrite (alter_alt_Some _ _ _ x).
  - unfold requireAccountStartNonce, mbind, M_bind. cbn. rewrite decide_False by congruence. cbn. rewrite <-En.
    pose proof (assigned_new s s1 a (account_addBalance v) (new_account (m_accountStartNonce s) v) S1 (eq_sym Hr)) as C.
    case_decide; eexists; (split; [reflexivity|]); by eapply assigned_frame; [| |exact C].
Qed.

Lemma setNonce_assigned s a n :
  wf s -> exists s', setNonce a n s = (s', inl tt) /\ wf s' /\
    assigned s a (account_setNonce n) (new_account n 0) s'.
Proof.
  intros W. unfold setNonce, account, mbind, M_bind.
  destruct (find_account a s) as [s1 r] eqn:E. destruct (find_account_ok s a s1 r W E) as (W1 & S1 & Hr & Hc).
  destruct r as [x|].
  - pose proof (assigned_set s s1 a x (account_setNonce n) (new_account n 0) S1 (eq_sym Hr)) as C.
    eexists. split; [reflexivity|]. cbn. rewrite (upd_account_set s1 a x) by done. split.
    + apply wf_log, wf_set; [done| |done|].
      * by apply wf_acc_setNonce, (wf_accounts s1 W1 a).
      * cbn. by apply (wf_alive s1 a x).
    + by eapply assigned_frame; [| |exact C].
  - pose proof (assigned_new s s1 a (account_setNonce n) (new_account n 0) S1 (eq_sym Hr)) as C.
    eexists. split; [reflexivity|]. split; [apply (undoable_new s1 a n 0 W1 (eq_sym Hr)); by apply is_word_0|].
    by eapply assigned_frame; [| |exact C].
Qed.

Lemma incNonce_assigned s a :
  wf s -> m_accountStartNonce s <> Invalid256 -> exists s', incNonce a s = (s', inl tt) /\ wf s' /\
    assigned s a account_incNonce (new_account (u256 (m_accountStartNonce s + 1)) 0) s'.
Proof.
  intros W N. unfold incNonce, account, mbind, M_bind.
  destruct (find_account a s) as [s1 r] eqn:E. destruct (find_account_ok s a s1 r W E) as (W1 & S1 & Hr & Hc).
  assert (En : m_accountStartNonce s = m_accountStartNonce s1) by by destruct S1 as [(_ & _ & _ & ? & _) _].
  set (new := new_account (u256 (m_accountStartNonce s + 1)) 0). destruct r as [x|].
  - pose proof (assigned_set s s1 a x account_incNonce new S1 (eq_sym Hr)) as C.
    eexists. split; [reflexivity|]. cbn. rewrite (upd_account_set s1 a x) by done. split.
    + apply wf_log, wf_set; [done| |done|].
      * by apply wf_acc_setNonce, (wf_accounts s1 W1 a).
      * cbn. by apply (wf_alive s1 a x).
    + by eapply assigned_frame; [| |exact C].
  - pose proof (assigned_new s s1 a account_incNonce new S1 (eq_sym Hr)) as C.
    unfold requireAccountStartNonce, mbind, M_bind. cbn. rewrite decide_False by congruence. cbn. rewrite <-En.
    eexists. split; [reflexivity|]. split; [apply (undoable_new s1 a _ 0 W1 (eq_sym Hr)); by apply is_word_0|].
    by eapply assigned_frame; [| |exact C].
Qed.

Lemma setStorage_assigned s a x k v new :
  wf s -> acct s a = Some x -> is_u256 k -> exists s', setStorage a k v s = (s', inl tt) /\
    assigned s a (account_setStorage k v) new s'.
Proof.
  intros W Hx Hk. destruct (storage_ok s a k W Hk) as (s1 & E & W1 & S1 & C). destruct (C x Hx) as (y & Hy & Ey).
  eexists. split.
  - unfold setStorage. rewrite (bind_inl _ _ _ _ _ E). unfold mbind, M_bind, update_st; cbn.
    by rewrite (upd_cache_set _ a y).
  - pose proof (assigned_set s s1 a y (account_setStorage k v) new S1 (acct_cached _ _ _ Hy)) as A.
    by eapply assigned_frame; [| |exact A].
Qed.

Lemma setCode_assigned s a x c new :
  wf s -> acct s a = Some x -> exists s', setCode a c s = (s', inl tt) /\ assigned s a (account_setCode c) new s'.
Proof.
  intros W Hx. destruct (code_ok s a W) as (s1 & E & W1 & S1 & C). destruct (C x Hx) as (y & Hy & Ey).
  eexists. split.
  - unfold setCode. rewrite (bind_inl _ _ _ _ _ E). unfold mbind, M_bind, update_st; cbn.
    by rewrite (upd_cache_set _ a y).
  - pose proof (assigned_set s s1 a y (account_setCode c) new S1 (acct_cached _ _ _ Hy)) as A.
    by eapply assigned_frame; [| |exact A].
Qed.

(** ** Soundness *)

(** What the change at [a] must keep *)
Definition keeps (s : State) (a : Z) (f : Account -> Account) : Prop :=
  forall x, isDirty (f x) /\ m_isAlive (f x) = m_isAlive x /\
    (is_u256 (m_nonce x) -> is_u256 (m_nonce (f x))) /\
    (root_in (m_state s) a <> ∅ -> m_codeHash x <> EmptySHA3 -> m_codeHash (f x) <> EmptySHA3) /\
    (root_in (m_state s) a <> ∅ -> (exists x0, acct s a = Some x0 /\ acc_equiv (m_db s) x0 x) -> guarded x -> guarded (f x)).

Lemma sound_assigned s a f new s' :
  inv s -> wf s' -> framed (m_state s) (m_accountStartNonce s) s' -> assigned s a f new s' ->
  keeps s a f -> isDirty new -> m_isAlive new -> is_u256 (m_nonce new) -> sound s s'.
Proof.
  intros I W F (_ & (y & Hy & R) & O) K Dn An Nn. pose proof F as (Es & En & _).
  assert (Y : isDirty y /\ m_isAlive y /\ is_u256 (m_nonce y) /\ (root_in (m_state s) a <> ∅ -> guarded y) /\
              forall x, acct s a = Some x -> root_in (m_state s) a <> ∅ -> m_codeHash x <> EmptySHA3 -> m_codeHash y <> EmptySHA3).
  { destruct (acct s a) as [x|] eqn:Hx.
    - destruct R as (x' & [E U] & ->). destruct (K x') as (D1 & A1 & N1 & C1 & G1). pose proof (inv_alive s I a x Hx). pose proof (inv_nonces s I a x Hx).
      split_and!; [done|rewrite A1; destruct E; congruence|apply N1; destruct E; congruence| |].
      + intros Hr. apply G1; [done|eauto|]. destruct (inv_guard s I a x Hx Hr), E; [left|right]; congruence.
      + intros ? [= <-] Hr Hc. apply C1; [done|]. destruct E. congruence.
    - subst y. split_and!; [done|done|done| |by intros]. intros Hr. by apply root_none in Hx. }
  destruct Y as (Dy & Ay & Ny & Gy & Cy).
  assert (B : forall b z, b <> a -> acct s' b = Some z -> exists x, acct s b = Some x /\ same_acc (m_db s) x z).
  { intros b z Hb Hz. specialize (O b Hb). rewrite Hz in O. inversion O; subst; eauto. }
  assert (Hh : forall b, here s b -> here s' b).
  { intros b (x & Hx & Hu). destruct (decide (b = a)) as [->|Hb]; [exists y; by split; [|intros [? _]]|].
    specialize (O b Hb). rewrite Hx in O. apply option_Forall2_Some in O as (z & Hz & Ez). exists z.
    split; [done|by eapply same_acc_unsettled]. }
  split; [|done|done| |].
  - split; [done|by rewrite En; apply I|by eapply framed_self| | | |intros b Hb; by apply Hh, I].
    + intros b z Hz. destruct (decide (b = a)) as [->|Hb]; [congruence|].
      destruct (B b z Hb Hz) as (x & Hx & [[] _]). apply (inv_alive s I) in Hx. congruence.
    + intros b z Hz. destruct (decide (b = a)) as [->|Hb]; [congruence|].
      destruct (B b z Hb Hz) as (x & Hx & [[] _]). apply (inv_nonces s I) in Hx. congruence.
    + intros b z Hz. rewrite Es. intros Hr. destruct (decide (b = a)) as [->|Hb]; [rewrite Hy in Hz; injection Hz as <-; by apply Gy|].
      destruct (B b z Hb Hz) as (x & Hx & [[] _]). pose proof (inv_guard s I b x Hx Hr) as [?|?]; [left|right]; congruence.
  - intros b (x & Hx & Hu & Hc). destruct (decide (b = a)) as [->|Hb].
    + exists y. split_and!; [done|by intros [? _]|]. rewrite Es.
      destruct (decide (root_in (m_state s) a = ∅)); [by right|]. destruct Hc; [left; by eapply Cy|by right].
    + specialize (O b Hb). rewrite Hx in O. apply option_Forall2_Some in O as (z & Hz & Ez). exists z.
      split_and!; [done|by eapply same_acc_unsettled|]. rewrite Es. destruct Ez as [[] _]. destruct Hc; [left; congruence|by right].
  - intros b (x & Hx & Hd). destruct (decide (b = a)) as [->|Hb]; [by exists y|].
    specialize (O b Hb). rewrite Hx in O. apply option_Forall2_Some in O as (z & Hz & [_ Ez]). exists z.
    split; [done|]. unfold isDirty in *. by rewrite <-Ez.
Qed.
End Effects.

(** ** Sums over finite sets *)

Definition sum_list (f : Z -> Z) (l : list Z) : Z := foldr (fun a n => f a + n) 0 l.
Definition sum_over (f : Z -> Z) (D : gset Z) : Z := sum_list f (elements D).

#[export] Instance sum_list_perm f : Proper (Permutation ==> eq) (sum_list f).
Proof. intros l k. unfold sum_list. induction 1; cbn in *; lia. Qed.

Lemma sum_list_app f l k : sum_list f (l ++ k) = sum_list f l + sum_list f k.
Proof. unfold sum_list. induction l as [|a l IH]; cbn in *; lia. Qed.

Lemma sum_list_ext f g l : (forall a, a ∈ l -> f a = g a) -> sum_list f l = sum_list g l.
Proof.
  unfold sum_list. induction l as [|a l IH]; intros E; cbn; [done|]. rewrite (E a) by by left.
  f_equal. apply IH. intros b Hb. apply E. by right.
Qed.

Lemma sum_list_zero f l : (forall a, a ∈ l -> f a = 0) -> sum_list f l = 0.
Proof. intros E. rewrite (sum_list_ext f (fun _ => 0)) by done. clear E. unfold sum_list. induction l; cbn in *; lia. Qed.

Lemma sum_list_nonneg f l : (forall a, 0 <= f a) -> 0 <= sum_list f l.
Proof. intros Hf. unfold sum_list. induction l as [|a l IH]; cbn; [done|]. pose proof (Hf a). lia. Qed.

Lemma sum_over_union f (D E : gset Z) : D ## E -> sum_over f (D ∪ E) = sum_over f D + sum_over f E.
Proof. intros Hd. unfold sum_over. by rewrite elements_disj_union, sum_list_app. Qed.

Lemma sum_over_subset f (D E : gset Z) :
  D ⊆ E -> (forall a, a ∉ D -> f a = 0) -> sum_over f E = sum_over f D.
Proof.
  intros Hs Hz. rewrite (union_difference_L D E Hs), sum_over_union by set_solver.
  unfold sum_over at 2. rewrite (sum_list_zero f); [lia|]. intros a Ha%elem_of_elements. apply Hz. set_solver.
Qed.

Lemma sum_over_remove f (D : gset Z) a : a ∈ D -> sum_over f D = f a + sum_over f (D ∖ {[a]}).
Proof.
  intros Ha. rewrite (union_difference_L {[a]} D) at 1 by set_solver.
  rewrite sum_over_union by set_solver. unfold sum_over at 1. rewrite elements_singleton. cbn. lia.
Qed.

(** One value changed *)
Lemma sum_over_change f g (D : gset Z) a v :
  a ∈ D -> (forall b, g b = if decide (b = a) then v else f b) -> sum_over g D = sum_over f D + (v - f a).
Proof.
  intros Ha Hg. rewrite (sum_over_remove g D a), (sum_over_remove f D a) by done.
  unfold sum_over. rewrite (sum_list_ext g f).
  - rewrite Hg, decide_True by done. lia.
  - intros b Hb%elem_of_elements. rewrite Hg, decide_False; [done|]. set_solver.
Qed.

(** ** The supply *)

Section Supply.
Context `{NodeEnv}.

Definition addresses (s : State) : gset Z := dom (m_cache s) ∪ dom (m_state s).

Definition supply (s : State) : Z := sum_over (balance_at s) (addresses s).

Lemma balance_outside s a : a ∉ addresses s -> balance_at s a = 0.
Proof.
  unfold addresses, balance_at, acct. rewrite not_elem_of_union, !not_elem_of_dom. by intros [-> ->].
Qed.

Lemma supply_over s D : addresses s ⊆ D -> sum_over (balance_at s) D = supply s.
Proof. intros Hs. apply sum_over_subset; [done|]. apply balance_outside. Qed.

Lemma supply_change s s' a v :
  (forall b, balance_at s' b = if decide (b = a) then v else balance_at s b) ->
  supply s' = supply s + (v - balance_at s a).
Proof.
  intros E. rewrite <-(supply_over s' (addresses s ∪ addresses s' ∪ {[a]})), <-(supply_over s (addresses s ∪ addresses s' ∪ {[a]})) by set_solver.
  apply sum_over_change; [set_solver|done].
Qed.

Lemma supply_same s s' : (forall b, balance_at s' b = balance_at s b) -> supply s' = supply s.
Proof.
  intros E. rewrite (supply_change s s' 0 (balance_at s 0)); [lia|]. intros b. rewrite E. by case_decide; subst.
Qed.

Lemma dirtier_balance s s' a : dirtier s s' -> balance_at s' a = balance_at s a.
Proof. intros [_ D]. specialize (D a). unfold balance_at. by destruct D as [x y [[] _]|]. Qed.

Lemma supply_dirtier s s' : dirtier s s' -> supply s' = supply s.
Proof. intros D. apply supply_same. intros b. by apply dirtier_balance. Qed.

Lemma balance_nonneg s a : wf s -> 0 <= balance_at s a.
Proof. intros W. by destruct (balance_range s a W). Qed.

Lemma supply_two s a b : wf s -> a <> b -> balance_at s a + balance_at s b <= supply s.
Proof.
  intros W Hn. rewrite <-(supply_over s (addresses s ∪ {[a; b]})) by set_solver.
  rewrite (sum_over_remove _ _ a), (sum_over_remove _ _ b) by set_solver.
  assert (0 <= sum_over (balance_at s) ((addresses s ∪ {[a; b]}) ∖ {[a]} ∖ {[b]})).
  { apply sum_list_nonneg. intros. by apply balance_nonneg. }
  lia.
Qed.

Lemma supply_one s a : wf s -> balance_at s a <= supply s.
Proof. intros W. pose proof (supply_two s a (a + 1) W ltac:(lia)). pose proof (balance_nonneg s (a + 1) W). lia. Qed.

Lemma supply_nonneg s : wf s -> 0 <= supply s.
Proof. intros W. pose proof (supply_one s 0 W). pose proof (balance_nonneg s 0 W). lia. Qed.
End Supply.
