(* ===== verification/ExecSteps.v ===== *)
(** * The steps of an executive on the state

    For each operation that an executive or the calls of the machine use: that it is safe, what it
    returns, and what it does to balances, nonces, code and storage. *)

From stdpp Require Import gmap sorting.
From S2P Require Import Prelude Words Exn EthState EthStateInv EthCommit EthRollback EthLedger ExecState ExecOps.

#[local] Open Scope Z_scope.

Section Steps.
Context `{NodeEnv} `{!Homes}.

(** Code and storage are as before *)
Definition same_contracts (s s' : State) : Prop :=
  forall b, code_at s' b = code_at s b /\ forall k, slot_at s' b k = slot_at s b k.

Definition same_nonces (s s' : State) : Prop := forall b, nonce_at s' b = nonce_at s b.
Definition same_balances (s s' : State) : Prop := forall b, balance_at s' b = balance_at s b.

Lemma same_contracts_trans s1 s2 s3 : same_contracts s1 s2 -> same_contracts s2 s3 -> same_contracts s1 s3.
Proof.
  intros C1 C2 b. split; [by rewrite (proj1 (C2 b)), (proj1 (C1 b))|]. intros k. by rewrite (proj2 (C2 b)), (proj2 (C1 b)).
Qed.

Lemma dirtier_view s s' : dirtier s s' -> same_contracts s s' /\ same_nonces s s' /\ same_balances s s'.
Proof.
  intros D. pose proof D as [F A].
  assert (Edb : m_db s = m_db s') by by destruct F.
  assert (En : m_accountStartNonce s = m_accountStartNonce s') by by destruct F as (_ & _ & _ & ? & _).
  split_and!; intros b; [|specialize (A b)|by apply dirtier_balance].
  - specialize (A b). unfold code_at, slot_at. rewrite <-Edb. by destruct A as [x y [[] _]|].
  - unfold nonce_at. rewrite <-En. by destruct A as [x y [[] _]|].
Qed.

(** At the other addresses *)
Lemma assigned_other s a f new s' b :
  assigned s a f new s' -> m_accountStartNonce s' = m_accountStartNonce s -> b <> a ->
  balance_at s' b = balance_at s b /\ nonce_at s' b = nonce_at s b /\ code_at s' b = code_at s b /\
  forall k, slot_at s' b k = slot_at s b k.
Proof.
  intros (Ed & _ & O) En Hb. specialize (O b Hb). unfold balance_at, nonce_at, code_at, slot_at. rewrite Ed, En.
  by destruct O as [x y [[] _]|].
Qed.

(** Code and storage are as before at all other addresses *)
Definition other_contracts (a : Z) (s s' : State) : Prop :=
  forall b, b <> a -> code_at s' b = code_at s b /\ forall k, slot_at s' b k = slot_at s b k.

Lemma assigned_contracts s a f new s' :
  assigned s a f new s' -> m_accountStartNonce s' = m_accountStartNonce s -> other_contracts a s s'.
Proof. intros A En b Hb. by apply (assigned_other s a f new s' b A En Hb). Qed.

(** ** Queries *)

Lemma query_safe {A} s a (f : Account -> A) d :
  inv s -> exists s', query a f d s = (s', inl (match acct s' a with Some x => f x | None => d end)) /\
    safe s s' /\ sim s s'.
Proof.
  intros I. pose proof (framed_query (m_state s) (m_accountStartNonce s) a f d s (inv_frame s I)) as F. revert F.
  unfold query, account, mbind, M_bind. destruct (find_account a s) as [s1 r] eqn:E.
  destruct (find_account_ok s a s1 r (inv_wf s I) E) as (W1 & S1 & Hr & _). cbn. intros F. exists s1.
  split_and!; [by rewrite Hr| |done]. apply safe_dirtier; [done|done|done|by apply sim_dirtier].
Qed.

Lemma balance_safe s a :
  inv s -> exists s', balance a s = (s', inl (balance_at s a)) /\ safe s s' /\ dirtier s s'.
Proof.
  intros I. destruct (query_safe s a m_balance 0 I) as (s' & E & U & S). exists s'.
  split_and!; [|done|by apply sim_dirtier]. unfold balance. rewrite E. do 2 f_equal.
  change (balance_at s' a = balance_at s a). by apply sim_balance_at.
Qed.

Lemma getNonce_safe s a :
  inv s -> exists s', getNonce a s = (s', inl (nonce_at s a)) /\ safe s s' /\ dirtier s s'.
Proof.
  intros I. pose proof (framed_getNonce (m_state s) (m_accountStartNonce s) a s (inv_frame s I)) as F.
  pose proof (getNonce_result s a (inv_wf s I)) as R. revert F R.
  unfold getNonce, account, mbind, M_bind. destruct (find_account a s) as [s1 r] eqn:E.
  destruct (find_account_ok s a s1 r (inv_wf s I) E) as (W1 & S1 & Hr & _). cbn. intros F R. exists s1.
  split_and!; [unfold mret, M_ret; by rewrite R| |by apply sim_dirtier]. apply safe_dirtier; [done|done|done|by apply sim_dirtier].
Qed.

Lemma code_safe s a :
  inv s -> exists s', code a s = (s', inl (code_at s a)) /\ safe s s' /\ dirtier s s'.
Proof.
  intros I. pose proof (framed_code (m_state s) (m_accountStartNonce s) a s (inv_frame s I)) as F.
  destruct (code_ok s a (inv_wf s I)) as (s1 & E & W1 & S1 & _). rewrite E in F. exists s1.
  split_and!; [done| |by apply sim_dirtier]. apply safe_dirtier; [done|done|done|by apply sim_dirtier].
Qed.

Lemma storage_safe s a k :
  inv s -> is_u256 k -> exists s', storage a k s = (s', inl (slot_at s a k)) /\ safe s s' /\ dirtier s s'.
Proof.
  intros I Hk. pose proof (framed_storage (m_state s) (m_accountStartNonce s) a k s (inv_frame s I)) as F.
  destruct (storage_ok s a k (inv_wf s I) Hk) as (s1 & E & W1 & S1 & _). rewrite E in F. exists s1.
  split_and!; [done| |by apply sim_dirtier]. apply safe_dirtier; [done|done|done|by apply sim_dirtier].
Qed.

(** ** Payments *)

(** The balance of [a] became [v] *)
Definition paid (s : State) (a v : Z) (s' : State) : Prop :=
  safe s s' /\ same_contracts s s' /\ same_nonces s s' /\
  forall b, balance_at s' b = if decide (b = a) then v else balance_at s b.

Lemma paid_supply s a v s' : paid s a v s' -> supply s' = supply s + (v - balance_at s a).
Proof. intros (_ & _ & _ & B). by apply supply_change. Qed.

Lemma addBalance_safe s a v :
  inv s -> is_u256 v -> exists s', addBalance a v s = (s', inl tt) /\
    paid s a (u256 (balance_at s a + v)) s' /\ dirty_at s' a.
Proof.
  intros I Hv. destruct (addBalance_assigned s a v (inv_wf s I) (proj2 (inv_nonce s I))) as (s' & E & A).
  pose proof (framed_addBalance (m_state s) (m_accountStartNonce s) a v s (inv_frame s I)) as F. rewrite E in F. cbn in F.
  pose proof (undoable_addBalance s a v (inv_wf s I) Hv) as U. rewrite E in U.
  assert (So : sound s s').
  { eapply sound_assigned; [done|apply U|done|exact A| |done|done|apply (inv_nonce s I)].
    intros x. by split_and!. }
  pose proof (so_start s s' So) as En. exists s'. split; [done|].
  pose proof A as (Ed & (y & Hy & R) & _).
  assert (Y : m_balance y = u256 (balance_at s a + v) /\ m_nonce y = nonce_at s a /\ code_of (m_db s) y = code_at s a /\
    (forall k, slot y k = slot_at s a k) /\ isDirty y).
  { unfold balance_at, nonce_at, code_at, slot_at. destruct (acct s a) as [x|].
    - destruct R as (x' & [[] _] & ->). cbn. split_and!; [congruence|done|done|done|done].
    - subst y. cbn. split_and!; [|done| |done|done].
      + unfold u256. by rewrite Z.mod_small.
      + unfold code_of. cbn. by rewrite decide_True. }
  destruct Y as (Yb & Yn & Yc & Ys & Yd). split; [|by exists y]. split_and!; [done| | |].
  - intros b. destruct (decide (b = a)) as [->|Hb]; [|by apply (assigned_other s a _ _ s' b A)].
    unfold code_at at 1, slot_at at 1. rewrite Hy, Ed. by split.
  - intros b. destruct (decide (b = a)) as [->|Hb]; [|by apply (assigned_other s a _ _ s' b A)].
    unfold nonce_at at 1. by rewrite Hy.
  - intros b. case_decide as Eb; [subst b; unfold balance_at at 1; by rewrite Hy|by apply (assigned_other s a _ _ s' b A)].
Qed.

Lemma paid_dirtier s s1 a v s' : dirtier s s1 -> safe s s1 -> paid s1 a v s' -> paid s a v s'.
Proof.
  intros D U (U' & C & N & B). destruct (dirtier_view s s1 D) as (C1 & N1 & B1). split_and!.
  - by eapply safe_trans.
  - by eapply same_contracts_trans.
  - intros b. by rewrite N, N1.
  - intros b. rewrite B. by case_decide.
Qed.

Lemma paid_self s a : inv s -> paid s a (balance_at s a) s.
Proof.
  intros I. split_and!; [by apply safe_refl|done|done|]. intros b. by case_decide; subst.
Qed.

Lemma subBalance_safe s a v :
  inv s -> is_u256 v -> exists s' r, subBalance a v s = (s', r) /\
    ((r = inl tt /\ v <= balance_at s a /\ paid s a (balance_at s a - v) s') \/
     (r = inr NotEnoughCash /\ balance_at s a < v /\ safe s s' /\ dirtier s s')).
Proof.
  intros I Hv. pose proof (balance_nonneg s a (inv_wf s I)) as Hb. unfold subBalance. case_decide as Ez.
  { eexists _, _. split; [reflexivity|]. left. split_and!; [done|lia|]. rewrite Ez, Z.sub_0_r. by apply paid_self. }
  unfold account, mbind, M_bind. destruct (find_account a s) as [s1 r] eqn:E.
  destruct (find_account_ok s a s1 r (inv_wf s I) E) as (W1 & S1 & Hr & _).
  pose proof (framed_find_account (m_state s) (m_accountStartNonce s) a s (inv_frame s I)) as F. rewrite E in F. cbn in F.
  pose proof (sim_dirtier s s1 S1) as D1. pose proof (safe_dirtier s s1 I W1 F D1) as U1.
  pose proof (sim_balance_at s s1 a S1) as B1. unfold balance_at at 1 in B1. rewrite <-Hr in B1.
  destruct r as [x|]; [case_decide as Hlt|].
  - eexists _, _. split; [reflexivity|]. right. split_and!; [done|lia|done|done].
  - destruct (addBalance_safe s1 a (u256 (0 - v)) (safe_inv s s1 U1) (u256_range _)) as (s' & E' & P & _).
    exists s', (inl tt). split; [done|]. left. split_and!; [done|lia|]. eapply paid_dirtier; [done|done|].
    replace (balance_at s a - v) with (u256 (balance_at s1 a + u256 (0 - v))); [done|].
    rewrite (dirtier_balance s s1 a D1). unfold u256. rewrite Zplus_mod_idemp_r, Z.mod_small; [lia|].
    pose proof (balance_range s a (inv_wf s I)) as R. unfold is_word in R, Hv. lia.
  - eexists _, _. split; [reflexivity|]. right. split_and!; [done|unfold is_word in Hv; lia|done|done].
Qed.

(** Money is not lost in a payment, and not made *)
Lemma transferBalance_safe s from to v :
  inv s -> is_u256 v -> exists s' r, transferBalance from to v s = (s', r) /\
    safe s s' /\ same_contracts s s' /\ same_nonces s s' /\ (supply s < 2 ^ 256 -> supply s' = supply s) /\
    ((r = inl tt /\ dirty_at s' to /\ v <= balance_at s from /\
      (supply s < 2 ^ 256 -> forall b, balance_at s' b =
         balance_at s b - (if decide (b = from) then v else 0) + (if decide (b = to) then v else 0))) \/
     (r = inr NotEnoughCash /\ balance_at s from < v /\ dirtier s s')).
Proof.
  intros I Hv. unfold transferBalance, mbind, M_bind.
  destruct (subBalance_safe s from v I Hv) as (s1 & r & E & [(-> & Hle & P)|(-> & Hlt & U & D)]); rewrite E.
  2: { destruct (dirtier_view s s1 D) as (C & N & B). exists s1, (inr NotEnoughCash).
       split_and!; [done|done|done|done|intros _; by apply supply_dirtier|]. by right. }
  pose proof P as (U1 & C1 & N1 & B1). pose proof (paid_supply _ _ _ _ P) as S1.
  destruct (addBalance_safe s1 to v (safe_inv s s1 U1) Hv) as (s2 & E2 & P2 & D2). rewrite E2.
  pose proof P2 as (U2 & C2 & N2 & B2). pose proof (paid_supply _ _ _ _ P2) as S2.
  pose proof (supply_one s1 to (inv_wf s1 (safe_inv s s1 U1))). pose proof (balance_nonneg s1 to (inv_wf s1 (safe_inv s s1 U1))).
  assert (Eu : supply s < 2 ^ 256 -> u256 (balance_at s1 to + v) = balance_at s1 to + v).
  { intros Hs. apply Z.mod_small. unfold is_word in Hv. lia. }
  exists s2, (inl tt). split_and!; [done|by eapply safe_trans| | |intros Hs; rewrite (Eu Hs) in S2; lia|].
  - by eapply same_contracts_trans.
  - intros b. by rewrite N2, N1.
  - left. split_and!; [done|done|done|]. intros Hs b. rewrite B2, (Eu Hs).
    destruct (decide (b = to)) as [->|]; rewrite B1; case_decide; subst; lia.
Qed.

(** ** Nonces, storage and code *)

(** The fields of the account that was assigned *)
Lemma assigned_fields s a f new s' :
  assigned s a f new s' -> m_accountStartNonce s' = m_accountStartNonce s ->
  (forall x, m_balance (f x) = m_balance x) -> m_balance new = 0 ->
  same_balances s s' /\
  ((forall x k, slot (f x) k = slot x k) -> (forall db x, code_of db (f x) = code_of db x) ->
   m_storageRoot new = ∅ -> m_storageOverlay new = ∅ -> m_codeHash new = EmptySHA3 -> same_contracts s s').
Proof.
  intros A En Hf Hn. pose proof A as (Ed & (y & Hy & R) & _). split.
  - intros b. destruct (decide (b = a)) as [->|Hb]; [|by apply (assigned_other s a f new s' b A)].
    unfold balance_at. rewrite Hy. destruct (acct s a); [|by subst y].
    destruct R as (x' & [[] _] & ->). by rewrite Hf.
  - intros Hs Hc Hr Ho Hh b. destruct (decide (b = a)) as [->|Hb]; [|by apply (assigned_other s a f new s' b A)].
    unfold code_at, slot_at. rewrite Hy, Ed. destruct (acct s a).
    + destruct R as (x' & [[] _] & ->). rewrite Hc. split; [done|]. intros k. by rewrite Hs.
    + subst y. unfold code_of, slot. rewrite decide_True, Hr, Ho by done. split; [done|]. intros k. by rewrite !lookup_empty.
Qed.

Lemma incNonce_sound s a :
  inv s ->
  root_in (m_state s) a = ∅ \/ (exists x, acct s a = Some x /\ m_codeHash x <> EmptySHA3) \/ u256 (nonce_at s a + 1) <> 0 ->
  exists s', incNonce a s = (s', inl tt) /\ sound s s' /\ same_contracts s s' /\ same_balances s s' /\
    (forall b, nonce_at s' b = if decide (b = a) then u256 (nonce_at s a + 1) else nonce_at s b) /\
    (settled s a -> safe s s').
Proof.
  intros I Hg. destruct (incNonce_assigned s a (inv_wf s I) (proj2 (inv_nonce s I))) as (s' & E & W & A).
  pose proof (framed_incNonce (m_state s) (m_accountStartNonce s) a s (inv_frame s I)) as F. rewrite E in F. cbn in F.
  assert (So : sound s s').
  { eapply sound_assigned; [done|done|done|exact A| |done|done|apply u256_range].
    intros x. split_and!; [done|done|intros _; apply u256_range|done|].
    intros Hr (x0 & Hx0 & []) G. destruct Hg as [?|[(x1 & Hx1 & Hc)|Hz]]; [done|left; cbn; congruence|].
    right. cbn. unfold nonce_at in Hz. rewrite Hx0 in Hz. congruence. }
  pose proof (so_start s s' So) as En. destruct (assigned_fields s a _ _ s' A En) as [B C]; [done|done|].
  exists s'. split_and!; [done|done|by apply C|done| |].
  - intros b. case_decide as Eb; [subst b|by apply (assigned_other s a _ _ s' b A)].
    destruct A as (_ & (y & Hy & R) & _). unfold nonce_at. rewrite Hy. destruct (acct s a) as [x|].
    + destruct R as (x' & [[] _] & ->). cbn. congruence.
    + by subst y.
  - intros Hs. split; [|done]. pose proof (undoable_incNonce s a (inv_wf s I) Hs) as U. by rewrite E in U.
Qed.

Lemma dirty_settled s a : dirty_at s a -> settled s a.
Proof. intros (x & Hx & Hd) y Hy [Hn _]. congruence. Qed.

Lemma live_settled s a : live s a -> settled s a.
Proof. intros (x & Hx & Hu & _) y Hy. congruence. Qed.

Lemma live_here s a : live s a -> here s a.
Proof. intros (x & Hx & Hu & _). by exists x. Qed.

Lemma setNonce_safe s a n :
  inv s -> dirty_at s a -> is_u256 n -> n <> 0 -> exists s', setNonce a n s = (s', inl tt) /\ safe s s' /\
    same_contracts s s' /\ same_balances s s'.
Proof.
  intros I Hd Hn Hz. destruct (setNonce_assigned s a n (inv_wf s I)) as (s' & E & W & A).
  pose proof (framed_setNonce (m_state s) (m_accountStartNonce s) a n s (inv_frame s I)) as F. rewrite E in F. cbn in F.
  assert (So : sound s s').
  { eapply sound_assigned; [done|done|done|exact A| |done|done|done].
    intros x. split_and!; [done|done|done|done|]. intros _ _ _. by right. }
  destruct (assigned_fields s a _ _ s' A (so_start s s' So)) as [B C]; [done|done|]. exists s'.
  split_and!; [done| |by apply C|done]. split; [|done].
  pose proof (undoable_setNonce s a n (inv_wf s I) (dirty_settled s a Hd)) as U. by rewrite E in U.
Qed.

Lemma setStorage_safe s a k v :
  inv s -> here s a -> is_u256 k -> is_u256 v -> exists s', setStorage a k v s = (s', inl tt) /\ safe s s' /\ same_balances s s' /\
    other_contracts a s s' /\ code_at s' a = code_at s a.
Proof.
  intros I (x & Hx & Hu) Hk Hv.
  destruct (setStorage_assigned s a x k v (new_account 0 0) (inv_wf s I) Hx Hk) as (s' & E & A).
  pose proof (framed_setStorage (m_state s) (m_accountStartNonce s) a k v s (inv_frame s I)) as F. rewrite E in F. cbn in F.
  pose proof (undoable_setStorage s a x k v (inv_wf s I) Hx Hu Hk Hv) as U. rewrite E in U.
  assert (So : sound s s').
  { eapply sound_assigned; [done|apply U|done|exact A| |done|done|done]. intros y. by split_and!. }
  pose proof (so_start s s' So) as En. exists s'.
  split_and!; [done|done|by apply (assigned_fields s a _ _ s' A En)|by eapply assigned_contracts|].
  destruct A as (Ed & (y & Hy & R) & _). rewrite Hx in R. destruct R as (x' & [[] _] & ->).
  unfold code_at. by rewrite Hy, Hx, Ed.
Qed.

(** An account that is being created *)
Definition creating (s : State) (a : Z) : Prop := dirty_at s a /\ root_in (m_state s) a = ∅.

Lemma creating_live s a : creating s a -> live s a.
Proof. intros [(x & Hx & Hd) Hr]. exists x. split_and!; [done|by intros [? _]|by right]. Qed.

Lemma creating_sound s s' a : sound s s' -> creating s a -> creating s' a.
Proof. intros So [Hd Hr]. split; [by apply So|]. by rewrite (so_state s s' So). Qed.

Lemma setCode_safe s a c :
  inv s -> creating s a -> exists s', setCode a c s = (s', inl tt) /\ safe s s' /\ same_balances s s' /\
    other_contracts a s s'.
Proof.
  intros I [(x & Hx & Hd) Hr]. destruct (setCode_assigned s a x c (new_account 0 0) (inv_wf s I) Hx) as (s' & E & A).
  pose proof (framed_setCode (m_state s) (m_accountStartNonce s) a c s (inv_frame s I)) as F. rewrite E in F. cbn in F.
  pose proof (undoable_setCode s a x c (inv_wf s I) Hx Hd) as U. rewrite E in U.
  pose proof A as (Ed & (y & Hy & R) & O). rewrite Hx in R. destruct R as (x' & [Ex Ux] & ->).
  assert (Dx : isDirty x') by (unfold isDirty in *; by rewrite <-Ux).
  assert (So : sound s s').
  { eapply (sound_assigned s a (fun z => if isDirty z then account_setCode c z else account_addBalance 0 z) (new_account 0 0));
      [done|apply U|done| | |done|done|done].
    - split_and!; [done| |done]. eexists. split; [exact Hy|]. rewrite Hx. exists x'. by destruct (isDirty x').
    - intros z. destruct (isDirty z) eqn:Ez; split_and!; try done. unfold isDirty in *. cbn. by rewrite Ez. }
  pose proof (so_start s s' So) as En. exists s'.
  split_and!; [done|done|by apply (assigned_fields s a _ _ s' A En)|by eapply assigned_contracts].
Qed.

(** Nothing is there to clear *)
Lemma clearStorage_creating s a : inv s -> creating s a -> clearStorage a s = (s, inl tt).
Proof.
  intros I [(x & Hx & Hd) Hr]. pose proof (dirty_cached s a x Hx Hd) as Hc.
  unfold clearStorage, mbind, M_bind, update_st, get_st. rewrite (upd_cache_set s a x) by done.
  assert (E : set_cache (<[a := id x]> (m_cache s)) s = s).
  { unfold id. rewrite insert_id by done. by destruct s. }
  rewrite E, Hc. cbn [default from_option id]. rewrite decide_True; [done|].
  destruct (inv_frame s I) as (_ & _ & C & _). destruct (C a x Hc) as [?|Er]; [done|]. by rewrite Er.
Qed.

(** ** Suicide *)

Definition suicide_state (my a : Z) : M State unit :=
  b ← balance my; addBalance a b;; b ← balance my; subBalance my b.

Lemma suicide_safe s my a :
  inv s -> exists s', suicide_state my a s = (s', inl tt) /\ safe s s' /\ same_contracts s s' /\
    (supply s < 2 ^ 256 -> supply s' <= supply s).
Proof.
  intros I. unfold suicide_state, mbind, M_bind.
  destruct (balance_safe s my I) as (s1 & E1 & U1 & D1). rewrite E1. pose proof (safe_inv s s1 U1) as I1.
  pose proof (balance_range s my (inv_wf s I)) as R. pose proof (dirtier_balance s s1 my D1) as B1.
  destruct (addBalance_safe s1 a (balance_at s my) I1 R) as (s2 & E2 & P2 & _). rewrite E2.
  pose proof P2 as (U2 & C2 & _ & B2). pose proof (safe_inv s1 s2 U2) as I2.
  destruct (balance_safe s2 my I2) as (s3 & E3 & U3 & D3). rewrite E3. pose proof (safe_inv s2 s3 U3) as I3.
  pose proof (balance_range s2 my (inv_wf s2 I2)) as R2. pose proof (dirtier_balance s2 s3 my D3) as B3.
  destruct (subBalance_safe s3 my (balance_at s2 my) I3 R2) as (s4 & r & E4 & [(-> & _ & P4)|(_ & Hlt & _)]); [|lia].
  rewrite E4. exists s4. split; [done|]. pose proof P4 as (U4 & C4 & _ & _). split; [|split].
  { eapply safe_trans; [exact U1|]. eapply safe_trans; [exact U2|]. by eapply safe_trans. }
  { eapply same_contracts_trans; [by apply (dirtier_view s s1)|]. eapply same_contracts_trans; [exact C2|].
    eapply same_contracts_trans; [by apply (dirtier_view s2 s3)|exact C4]. }
  intros Hs. pose proof (paid_supply _ _ _ _ P4) as S4. pose proof (supply_dirtier _ _ D3) as S3.
  pose proof (paid_supply _ _ _ _ P2) as S2. pose proof (supply_dirtier _ _ D1) as S1.
  pose proof (balance_nonneg s my (inv_wf s I)). rewrite B2 in *. destruct (decide (my = a)) as [->|Hn]; [lia|].
  pose proof (supply_two s1 my a (inv_wf s1 I1) Hn). pose proof (balance_nonneg s1 a (inv_wf s1 I1)).
  assert (u256 (balance_at s1 a + balance_at s my) = balance_at s1 a + balance_at s my) by (apply Z.mod_small; lia). lia.
Qed.
End Steps.
