(* ===== verification/ExecLaws.v ===== *)
(** * What an executive relies on

    The virtual machine: it never makes gas, it calls with its own address or that of the code as
    the receiver, and not below the depth of 1024; Wasm shows it of the machine of the node.  The
    precompiled contracts: they leave a sound state that can be rolled back, and one that reports a
    failure has changed nothing (Precompiled.cpp, Vote.cpp).  Where money is counted
    ([conserving]), votes are counted with the money that was mortgaged for them, and the account
    of the votes has the code of the genesis. *)

From stdpp Require Import gmap sorting.
From S2P Require Import Prelude Words Exn Rlp RlpSpec RlpClaims EthState EthStateInv EthCommit.
From S2P Require Import EthRollback EthLedger ExecState ExecOps ExecSteps Transaction.
From S2P Require Import TransactionRlp Executive Ledger Vote VoteStore VoteSpec VoteInv.

#[local] Open Scope Z_scope.

(** ** The machine *)

(** The gas that goes with a call, and what of it comes back *)
Definition spent {A : Set} (op : ext_op A) : Z :=
  match op with op_call p => call_gas p | op_create _ gas _ _ _ => gas | _ => 0 end.

Definition given_back {A : Set} (op : ext_op A) : A -> Z :=
  match op in ext_op A return A -> Z with
  | op_call _ => fun r => r.2
  | op_create _ _ _ _ _ => fun r => r.2
  | _ => fun _ => 0
  end.

Definition op_ok {A : Set} (my depth : Z) (op : ext_op A) : Prop :=
  match op with
  | op_store n => is_u256 n
  | op_setStore n v => is_u256 n /\ is_u256 v
  | op_transferBalance _ v => is_u256 v
  | op_call p => depth < 1024 /\ is_u256 (valueTransfer p) /\ Forall is_byte (call_data p) /\
      (receiveAddress p = codeAddress p \/ receiveAddress p = my)
  | op_create endowment _ _ _ _ => depth < 1024 /\ is_u256 endowment
  | _ => True
  end.

(** The exceptions that the machine throws are of a kind, or came from a call; fatal ones do not
    come back to it *)
Fixpoint behaves (kind : exn -> Prop) (my depth : Z) (p : vm_prog) (gas : Z) : Prop :=
  match p with
  | vm_return gas' _ => 0 <= gas' <= gas
  | vm_throw gas' e _ => 0 <= gas' <= gas /\ kind e
  | vm_do op next =>
      op_ok my depth op /\ 0 <= spent op <= gas /\
      (forall a, 0 <= given_back op a <= spent op ->
         behaves kind my depth (next (inl a)) (gas - spent op + given_back op a)) /\
      (forall e, fatal e = false -> behaves (fun e' => kind e' \/ e' = e) my depth (next (inr e)) gas)
  end.

Definition well_behaved : Z -> Z -> vm_prog -> Z -> Prop := behaves (fun _ => True).

Lemma behaves_weaken my depth p : forall (kind kind' : exn -> Prop) gas,
  (forall e, kind e -> kind' e) -> behaves kind my depth p gas -> behaves kind' my depth p gas.
Proof.
  induction p as [g out|g e out|A op next IH]; intros kind kind' gas Hk; cbn; [done|naive_solver|].
  intros (Ho & Hs & Hl & Hr). split; [done|]. split; [done|]. split.
  - intros a Ha. by apply (IH _ kind); [|apply Hl].
  - intros e He. apply (IH _ (fun e' => kind e' \/ e' = e)); [|by apply Hr]. intros e' [?|?]; auto.
Qed.

Lemma behaves_well kind my depth p gas : behaves kind my depth p gas -> well_behaved my depth p gas.
Proof. by apply (behaves_weaken my depth p kind). Qed.

(** Two programs that make the same calls and end in the same way, and behave *)
Inductive agree (my depth : Z) : (exn -> Prop) -> vm_prog -> vm_prog -> Z -> Prop :=
  | agree_return (kind : exn -> Prop) gas' out gas : 0 <= gas' <= gas -> agree my depth kind (vm_return gas' out) (vm_return gas' out) gas
  | agree_throw (kind : exn -> Prop) gas' e out gas :
      0 <= gas' <= gas -> kind e -> agree my depth kind (vm_throw gas' e out) (vm_throw gas' e out) gas
  | agree_do (kind : exn -> Prop) (A : Set) (op : ext_op A) next next' gas :
      op_ok my depth op -> 0 <= spent op <= gas ->
      (forall a, 0 <= given_back op a <= spent op ->
         agree my depth kind (next (inl a)) (next' (inl a)) (gas - spent op + given_back op a)) ->
      (forall e, fatal e = false -> agree my depth (fun e' => kind e' \/ e' = e) (next (inr e)) (next' (inr e)) gas) ->
      agree my depth kind (vm_do op next) (vm_do op next') gas.

Lemma agree_behaves my depth kind p q gas :
  agree my depth kind p q gas -> behaves kind my depth p gas /\ behaves kind my depth q gas.
Proof.
  induction 1 as [| |kind A op n n' gas Ho Hs Hl IHl Hr IHr]; [done|done|]. cbn.
  split; (split; [done|split; [done|split]]); intros; (apply IHl || apply IHr); done.
Qed.

Lemma agree_self my depth kind p gas : agree my depth kind p p gas -> behaves kind my depth p gas.
Proof. by intros [? _]%agree_behaves. Qed.

Lemma agree_sym my depth kind p q gas : agree my depth kind p q gas -> agree my depth kind q p gas.
Proof. induction 1; by constructor. Qed.

(** More gas may be there *)
Lemma agree_mono my depth kind p q gas gas' : agree my depth kind p q gas -> gas <= gas' -> agree my depth kind p q gas'.
Proof.
  intros H. revert gas'. induction H as [| |kind A op n n' gas Ho Hs Hl IHl Hr IHr]; intros g Hg.
  - constructor. lia.
  - constructor; [lia|done].
  - constructor; [done|lia| |].
    + intros a Ha. apply IHl; [done|lia].
    + intros e He. by apply IHr.
Qed.

Class VMLaw `{!VM} : Prop := vm_law : forall gas x isCreation,
  0 <= gas -> well_behaved (ext_myAddress x) (ext_depth x) (vm_exec gas x isCreation) gas.

(** ** The account of the votes *)

(** Its code in the genesis; it is not a module *)
Definition idle_code : list Z := [0x00].

(** A program that leaves the storage of its account alone *)
Definition idle_op {A : Set} (op : ext_op A) : Prop :=
  match op with op_setStore _ _ | op_suicide _ | op_call _ | op_create _ _ _ _ _ => False | _ => True end.

Fixpoint idle (p : vm_prog) : Prop :=
  match p with vm_do op next => idle_op op /\ forall r, idle (next r) | _ => True end.

(** The callers that a program names are addresses *)
Fixpoint from_addresses (p : vm_prog) : Prop :=
  match p with
  | vm_do op next =>
      match op with op_call c => is_address (senderAddress c) | _ => True end /\
      (forall a, from_addresses (next (inl a))) /\ (forall e, fatal e = false -> from_addresses (next (inr e)))
  | _ => True
  end.

(** A program that behaves at the last depth makes no calls *)
Lemma behaves_no_calls kind my p : forall gas, behaves kind my 1024 p gas -> from_addresses p.
Proof.
  revert kind. induction p as [g out|g e out|A op next IH]; intros kind gas; [done|done|]. cbn [behaves from_addresses].
  intros (Ho & Hs & Hl & Hr). destruct op; cbn in Ho; try lia;
    (split; [done|split; [intros ans; eapply IH, Hl; done|intros ex He; by eapply IH, Hr]]).
Qed.

Class VaultLaw `{!VM} : Prop := {
  vault_idle : forall gas x, ext_myAddress x = VoteInfoAddress -> ext_code x = idle_code -> idle (vm_exec gas x false);
  vault_senders : forall gas x isCreation, 0 <= gas -> from_addresses (vm_exec gas x isCreation)
}.

(** ** Steps of the state *)

Section Laws.
Context `{NodeEnv} `{!Homes}.
(** Whether money is counted *)
Context (conserving : bool).

Definition vault (s : State) : Prop := code_at s VoteInfoAddress = idle_code.

(** The records of the votes are in order, and are those of [m] *)
Definition recorded (s : State) (m : bank) : Prop :=
  votes_inv m /\ forall a, is_address a -> info_of (slot_at s VoteInfoAddress) a = get m a.

(** All balances, and what was mortgaged for all votes *)
Definition wealth (s : State) (m : bank) : Z := supply s + VOTES_PRE_ETH * total votes_of m.

(** What holds between the steps *)
Record sane (s : State) : Prop := {
  sane_inv :> inv s;
  sane_vault : conserving = true -> vault s
}.

Definition funds (s s' : State) : Prop :=
  conserving = true -> vault s' /\
    forall m, recorded s m -> wealth s m < 2 ^ 64 * VOTES_PRE_ETH ->
      exists m', recorded s' m' /\ wealth s' m' <= wealth s m.

Definition step (s s' : State) : Prop := safe s s' /\ funds s s'.

Lemma total_votes_nonneg m : votes_inv m -> 0 <= total votes_of m.
Proof.
  intros [Ok _ _ _]. apply total_nonneg. intros a v Hv. destruct (Ok a v Hv) as [_ N].
  pose proof (votes_of_nonneg v (n_wf a v N)). unfold votes_of. lia.
Qed.

Lemma recorded_slots s s' m :
  (forall k, slot_at s' VoteInfoAddress k = slot_at s VoteInfoAddress k) -> recorded s m -> recorded s' m.
Proof. intros K [I R]. split; [done|]. intros a Ha. rewrite <-R by done. apply info_of_ext. intros. by rewrite K. Qed.

(** Code and storage of the account of the votes are as before *)
Lemma step_same s s' :
  sane s -> safe s s' ->
  (conserving = true -> code_at s' VoteInfoAddress = code_at s VoteInfoAddress /\
     forall k, slot_at s' VoteInfoAddress k = slot_at s VoteInfoAddress k) ->
  (supply s < 2 ^ 256 -> supply s' <= supply s) -> step s s'.
Proof.
  intros I U C F. split; [done|]. intros Hc. destruct (C Hc) as [Ec Ek]. split; [unfold vault; rewrite Ec; by apply I|].
  intros m R Hw. exists m. split; [by eapply recorded_slots|]. pose proof (total_votes_nonneg m (proj1 R)).
  unfold wealth, VOTES_PRE_ETH in *. lia.
Qed.

Lemma step_contracts s s' :
  sane s -> safe s s' -> same_contracts s s' -> (supply s < 2 ^ 256 -> supply s' <= supply s) -> step s s'.
Proof. intros I U C F. apply step_same; [done|done| |done]. intros _. apply C. Qed.

Lemma step_other a s s' :
  sane s -> safe s s' -> (conserving = true -> a <> VoteInfoAddress) -> other_contracts a s s' -> same_balances s s' -> step s s'.
Proof.
  intros I U Ha C B. apply step_same; [done|done| |].
  - intros Hc. apply C. intros E. by apply (Ha Hc).
  - intros _. rewrite (supply_same s s' B). lia.
Qed.

Lemma step_refl s : sane s -> step s s.
Proof. intros I. apply step_contracts; [done|apply safe_refl, I|done|lia]. Qed.

Lemma step_trans s1 s2 s3 : step s1 s2 -> step s2 s3 -> step s1 s3.
Proof.
  intros [U1 F1] [U2 F2]. split; [by eapply safe_trans|]. intros C. destruct (F1 C) as [_ G1], (F2 C) as [V2 G2].
  split; [done|]. intros m R Hw. destruct (G1 m R Hw) as (m1 & R1 & W1). destruct (G2 m1 R1 ltac:(lia)) as (m2 & R2 & W2).
  exists m2. split; [done|lia].
Qed.

Lemma step_inv s s' : step s s' -> inv s'.
Proof. intros [U _]. by eapply safe_inv. Qed.

Lemma step_sane s s' : step s s' -> sane s'.
Proof. intros S. split; [by eapply step_inv|]. intros C. by apply S. Qed.

Lemma step_sound s s' : step s s' -> sound s s'.
Proof. by intros [[_ So] _]. Qed.

Lemma step_live s s' a : step s s' -> live s a -> live s' a.
Proof. intros S. by apply (so_live s s' (step_sound s s' S)). Qed.

Lemma step_dirtier s s' : sane s -> safe s s' -> dirtier s s' -> step s s'.
Proof.
  intros I U D. apply step_contracts; [done|done|by apply (dirtier_view s s')|]. intros _. rewrite (supply_dirtier s s' D). lia.
Qed.

(** No query tells the states apart *)
Definition same_view (s s' : State) : Prop := same_contracts s s' /\ same_nonces s s' /\ same_balances s s'.

Lemma same_view_dirtier s s' : dirtier s s' -> same_view s s'.
Proof. apply dirtier_view. Qed.

Lemma same_view_trans s1 s2 s3 : same_view s1 s2 -> same_view s2 s3 -> same_view s1 s3.
Proof.
  intros (C1 & N1 & B1) (C2 & N2 & B2). split_and!; [by eapply same_contracts_trans|intros b|intros b].
  - by rewrite N2, N1.
  - by rewrite B2, B1.
Qed.

Record contract_law (pc : PrecompiledContract) : Prop := {
  pl_cost : forall d, 0 <= pc_cost pc d;
  pl_run : forall d a s s' r, sane s -> (conserving = true -> is_address a) -> Forall is_byte d ->
    pc_execute pc d a s = (s', r) ->
    step s s' /\ r <> inr out_of_fuel /\ (forall out, r = inl (false, out) -> same_view s s')
}.

Class ContractLaws (cp : ChainOperationParams) : Prop :=
  contract_laws : forall a pc, cp_precompiled cp !! a = Some pc -> contract_law pc.

(** ** The operations, as steps *)

Lemma addBalance_step s a :
  sane s -> exists s', addBalance a 0 s = (s', inl tt) /\ step s s' /\ same_view s s'.
Proof.
  intros I. destruct (addBalance_safe s a 0 I (is_word_0 256 ltac:(lia))) as (s' & E & P & _). exists s'.
  pose proof (balance_range s a (inv_wf s I)) as R. rewrite Z.add_0_r in P. unfold u256 in P. rewrite Z.mod_small in P by done.
  pose proof (paid_supply _ _ _ _ P) as S. destruct P as (U & C & N & B).
  split_and!; [done|apply step_contracts; [done|done|done|lia]|]. split_and!; [done|done|]. intros b. rewrite B. by case_decide; subst.
Qed.

Lemma transfer_step s from to v :
  sane s -> is_u256 v -> exists s' r, transferBalance from to v s = (s', r) /\ step s s' /\
    (r = inl tt /\ dirty_at s' to \/ r = inr NotEnoughCash).
Proof.
  intros I Hv. destruct (transferBalance_safe s from to v I Hv) as (s' & r & E & U & C & _ & S & R).
  exists s', r. split_and!; [done|apply step_contracts; [done|done|done|intros Hs; rewrite S by done; lia]|]. naive_solver.
Qed.

(** The address of a new contract can always be computed *)
Lemma rlpList_ok from nonce :
  is_u256 nonce -> exists l, Rlp.written (Rlp.appendList 2;; Rlp.append (be_to_bytes 20 from) false;; Rlp.append_int nonce) = inl l.
Proof.
  intros Hn. set (x := Lst [Str (be_to_bytes 20 from); Str (int_bytes nonce)]). exists (encode x).
  assert (Hr : readable x).
  { destruct (int_str_ok nonce Hn) as [Oi Li]. pose proof (len_encode_str (be_to_bytes 20 from) (be_to_bytes_bytes 20 from)) as La.
    assert (El : len (be_to_bytes 20 from) = 20) by (unfold len; by rewrite length_be_to_bytes). rewrite El in La.
    split.
    - unfold x. apply ok_lst. apply Forall_cons_2; [apply ok_str, be_to_bytes_bytes|]. apply Forall_cons_2; [done|constructor].
    - unfold x. cbn [payload_of]. rewrite !encode_all_cons, !len_app. change (len (encode_all [])) with 0. lia. }
  assert (E : forall s, (Rlp.appendList 2;; Rlp.append (be_to_bytes 20 from) false;; Rlp.append_int nonce) s = write x s).
  { intros s. unfold x. rewrite write_Lst. apply bind_ext; [done|intros _ s1]. cbn [for_each].
    apply bind_ext; [done|intros _ s2]. rewrite append_int_write by done. unfold mbind, M_bind.
    by destruct (write _ s2) as [s3 [[]|e]]. }
  unfold Rlp.written. rewrite (bind_ext _ (write x) _ (fun _ => out)); [|done|done].
  unfold mbind, M_bind. by rewrite write_spec.
Qed.
End Laws.
