(* ===== verification/Machine.v ===== *)
(** * Programs of virtual machines

    A virtual machine of libevm (WASM_VM.cpp) is an object with members that calls the
    externality object.  A member function is a computation over the
    members: it gives the program that the rest of the run is, from the program of what follows.
    An exception ends the run; the gas that is left at that point is kept. *)

From stdpp Require Import gmap.
From S2P Require Import Prelude Words Exn EthState Executive ExecLaws.

#[local] Open Scope Z_scope.

(** What a machine has: its gas, and what it makes of an exception that comes from outside *)
Class Members (S : Type) := {
  gas_of : S -> Z;
  rethrown : exn -> exn
}.

Definition Prog (S A : Type) : Type := S -> (S -> A -> vm_prog) -> vm_prog.

#[export] Instance Prog_ret S : MRet (Prog S) := fun _ a s k => k s a.
#[export] Instance Prog_bind S : MBind (Prog S) := fun _ _ f m s k => m s (fun s' a => f a s' k).

Section Prog.
Context {S : Type} `{!Members S}.

Definition members : Prog S S := fun s k => k s s.
Definition modify (f : S -> S) : Prog S unit := fun s k => k (f s) tt.
Definition stop_with {A} (e : exn) (out : list Z) : Prog S A := fun s _ => vm_throw (gas_of s) e out.
Definition stop {A} (e : exn) : Prog S A := stop_with e [].
Definition require (b : bool) (e : exn) : Prog S unit := if b then mret tt else stop e.
Definition from_option {A} (o : option A) (e : exn) : Prog S A :=
  match o with Some a => mret a | None => stop e end.

(** A call of the externality object *)
Definition ext {A : Set} (op : ext_op A) : Prog S A := fun s k =>
  vm_do op (fun r => match r with inl a => k s a | inr e => vm_throw (gas_of s) (rethrown e) [] end).

(** ** Rules: a precondition on the members and the gas that the run may still use, and a
    postcondition

    A rule speaks of two programs at once: when what follows agrees after the postcondition, the
    whole does.  With one program on both sides it is a rule for [behaves]; with two it compares
    two ways to run a machine. *)

Context (kind : exn -> Prop) (my depth : Z).

Definition triple {A} (P : S -> Z -> Prop) (m : Prog S A) (Q : A -> S -> Z -> Prop) : Prop :=
  forall s G k k', P s G -> (forall s' a G', Q a s' G' -> agree my depth kind (k s' a) (k' s' a) G') ->
    agree my depth kind (m s k) (m s k') G.

(** The gas of the machine is there *)
Definition fits (s : S) (G : Z) : Prop := 0 <= gas_of s <= G.

Lemma triple_ret {A} (a : A) (Q : A -> S -> Z -> Prop) : triple (Q a) (mret a) Q.
Proof. intros s G k k' HP Hk. by apply Hk. Qed.

Lemma triple_bind {A B} P (m : Prog S A) R (f : A -> Prog S B) Q :
  triple P m R -> (forall a, triple (R a) (f a) Q) -> triple P (m ≫= f) Q.
Proof. intros Hm Hf s G k k' HP Hk. apply Hm; [done|]. intros s' a G' HR. by apply (Hf a). Qed.

(** The first two steps at once *)
Lemma triple_bind2 {A B C} P (m : Prog S A) (m' : A -> Prog S B) R (f : B -> Prog S C) Q :
  triple P (m ≫= m') R -> (forall b, triple (R b) (f b) Q) -> triple P (m ≫= fun a => m' a ≫= f) Q.
Proof. intros Hm Hf. exact (triple_bind P (m ≫= m') R f Q Hm Hf). Qed.

Lemma triple_conseq {A} (P P' : S -> Z -> Prop) (m : Prog S A) (Q Q' : A -> S -> Z -> Prop) :
  triple P' m Q' -> (forall s G, P s G -> P' s G) -> (forall a s G, Q' a s G -> Q a s G) -> triple P m Q.
Proof. intros Hm HP HQ s G k k' Hp Hk. apply Hm; [by apply HP|]. intros s' a G' Hq. by apply Hk, HQ. Qed.

(** A fact that does not depend on the members *)
Lemma triple_pure {A} (P : S -> Z -> Prop) (φ : Prop) (m : Prog S A) Q :
  (φ -> triple P m Q) -> triple (fun s G => P s G /\ φ) m Q.
Proof. intros Hm s G k k' [HP Hφ] Hk. by apply Hm. Qed.

Lemma triple_members (P : S -> Z -> Prop) : triple P members (fun a s G => a = s /\ P s G).
Proof. intros s G k k' HP Hk. by apply Hk. Qed.

Lemma triple_modify (f : S -> S) (Q : S -> Z -> Prop) :
  triple (fun s G => Q (f s) G) (modify f) (fun _ => Q).
Proof. intros s G k k' HP Hk. by apply Hk. Qed.

Lemma triple_stop {A} e out (P : S -> Z -> Prop) (Q : A -> S -> Z -> Prop) :
  kind e -> (forall s G, P s G -> fits s G) -> triple P (stop_with e out) Q.
Proof. intros He HP s G k k' Hp _. apply agree_throw; [by apply HP|done]. Qed.

Lemma triple_require b e (P : S -> Z -> Prop) :
  kind e -> (forall s G, P s G -> fits s G) -> triple P (require b e) (fun _ s G => P s G /\ b = true).
Proof.
  intros He HP s G k k' Hp Hk. destruct b; [by apply Hk|]. apply agree_throw; [by apply HP|done].
Qed.

Lemma triple_option {A} (o : option A) e (P : S -> Z -> Prop) :
  kind e -> (forall s G, P s G -> fits s G) -> triple P (from_option o e) (fun a s G => P s G /\ o = Some a).
Proof. intros He HP s G k k' Hp Hk. destruct o; [by apply Hk|]. apply agree_throw; [by apply HP|done]. Qed.

(** A call that takes no gas with it *)
Lemma triple_ext {A : Set} (op : ext_op A) (P : S -> Z -> Prop) :
  op_ok my depth op -> spent op = 0 -> (forall e, fatal e = false -> kind (rethrown e) \/ rethrown e = e) ->
  (forall s G, P s G -> fits s G) -> triple P (ext op) (fun _ => P).
Proof.
  intros Ho Hz Hr HP s G k k' Hp Hk. pose proof (HP _ _ Hp) as [F1 F2]. apply agree_do; [done|lia| |].
  - intros a Ha. apply Hk. by replace (G - spent op + given_back op a) with G by lia.
  - intros e He. apply agree_throw; [done|by apply Hr].
Qed.
End Prog.
