(* ===== verification/Wasm.v ===== *)
(** * libevm/WASM_VM.cpp, eth/Register.cpp: the machine that the node runs

    Executive::go gives every contract to WASM_VM.  WAVM, the engine that compiles and runs a
    module, is not part of the repository: it is the parameter [Wavm].  A run of it is a tree of
    the calls of host functions that the module makes, each with the instance at that point.  The
    host functions of Register.cpp and what WASM_VM.cpp does before and after the run are
    modelled.  Every exception of a run becomes BadInstruction.  What is printed is left out. *)

From stdpp Require Import gmap.
From S2P Require Import Prelude Words Exn EthState EthStateInv Transaction Executive ExecLaws.
From S2P Require Import Machine.

#[local] Open Scope Z_scope.

(** ** The engine *)

(** The host functions, with their arguments; an i32 is signed *)
Inductive intrinsic : Set :=
  | readMessage (destptr destsize : Z)
  | gascount (n : Z)
  | checktime
  | memcpy (dstp srcp len : Z)
  | memset (rel_ptr value len : Z)
  | printi (val : Z)
  | prints (charptr : Z)
  | sha3_ (sourcePtr length dest : Z)
  | contractaddress (dest : Z)
  | caller (dest : Z)
  | balance_ (address dest : Z)
  | blockhash (number dest : Z)
  | coinbase (dest : Z)
  | timestamp (dest : Z)
  | number_ (dest : Z)
  | getcallvalue (dest : Z)
  | gaslimit (dest : Z)
  | gasprice (dest : Z)
  | printu256 (source : Z)
  | printaddress (source : Z)
  | getstore (location data : Z)
  | setstore (location data : Z)
  | transferbalance (address data : Z)
  | callvalue (dest : Z)
  | setu256value (u256address charptr : Z)
  | setaddressvalue (addressptr charptr : Z)
  | u256toaddress (input result : Z)
  | addresstou256 (input result : Z)
  | add_u256 (operand_1 operand_2 result : Z)
  | sub_u256 (operand_1 operand_2 result : Z)
  | mul_u256 (operand_1 operand_2 result : Z)
  | div_u256 (operand_1 operand_2 result : Z)
  | mod_u256 (operand_1 operand_2 result : Z)
  | lt_u256 (operand_1 operand_2 : Z)
  | gt_u256 (operand_1 operand_2 : Z)
  | eq_u256 (operand_1 operand_2 : Z)
  | WAVMAssert (test msg : Z)
  | test1 (a : Z)
  | test2 (a b : Z)
  | malloc (size : Z)
  | free (ptr : Z)
  | WAVMReturn (sourcePtr length : Z).

(** The functions of a module that the node calls *)
Inductive entry : Set := init | default_ | apply.

Inductive wasm_run (I : Type) : Type :=
  | w_end (i : I)
  | w_trap
  | w_host (f : intrinsic) (i : I) (next : I -> Z -> wasm_run I).
Arguments w_end {I}.
Arguments w_trap {I}.
Arguments w_host {I}.

Class Wavm := {
  w_instance : Type;
  (** serializeWithInjection, linkModule and instantiateModule; [None] when one of them fails *)
  w_instantiate : list Z -> option w_instance;
  (** getDefaultMemory is not null *)
  w_memory : w_instance -> bool;
  (** bytes of the memory from an offset on; [None] when memoryRef or memoryArrayPtr throws *)
  w_read : w_instance -> Z -> Z -> option (list Z);
  w_write : w_instance -> Z -> list Z -> option w_instance;
  (** getMemoryNumPages, in pages of 64 KiB, and growMemory *)
  w_pages : w_instance -> Z;
  w_grow : w_instance -> Z -> w_instance;
  (** Platform::getPageSizeLog2 *)
  w_pageSizeLog2 : Z;
  w_exports : w_instance -> entry -> bool;
  w_invoke : w_instance -> entry -> list Z -> wasm_run w_instance;
  (** u256(std::string) of boost; [None] when it throws *)
  w_parse : list Z -> option Z
}.

(** Memory is bytes, and a range that was written is read back *)
Class WavmLaws `{!Wavm} : Prop := {
  w_read_bytes : forall i a n l, w_read i a n = Some l -> Z.of_nat (length l) = n /\ Forall is_byte l;
  w_read_write : forall i a l i', Forall is_byte l -> w_write i a l = Some i' -> w_read i' a (Z.of_nat (length l)) = Some l
}.

(** ** Conversions *)

(** An i32 used as an address or a size *)
Definition Uptr (x : Z) : Z := x mod 2 ^ 64.

(** The result of an operation on int; the standard does not define what is outside *)
Definition int_ok (x : Z) : bool := bool_decide (- 2 ^ 31 <= x < 2 ^ 31).

(** uint32 to int32 *)
Definition to_i32 (x : Z) : Z := (x + 2 ^ 31) mod 2 ^ 32 - 2 ^ 31.

(** ** CommonData.cpp, FixedHash.h: an address from a text *)

Definition fromHexChar (c : Z) : option Z :=
  if decide (0x30 <= c <= 0x39) then Some (c - 0x30)
  else if decide (0x61 <= c <= 0x66) then Some (c - 0x61 + 10)
  else if decide (0x41 <= c <= 0x46) then Some (c - 0x41 + 10)
  else None.

Fixpoint hex_pairs (s : list Z) : option (list Z) :=
  match s with
  | a :: b :: s =>
      match fromHexChar a, fromHexChar b, hex_pairs s with
      | Some h, Some l, Some r => Some (h * 16 + l :: r)
      | _, _, _ => None
      end
  | _ => Some []
  end.

(** fromHex with WhenError::Throw *)
Definition fromHex (s : list Z) : option (list Z) :=
  let digits := match s with 0x30 :: 0x78 :: r => r | _ => s end in
  if Nat.odd (length s) then
    match digits with
    | [] => Some []
    | a :: r => match fromHexChar a, hex_pairs r with Some h, Some l => Some (h :: l) | _, _ => None end
    end
  else hex_pairs digits.

(** Address(std::string): a text of another length is the zero address *)
Definition address_of_string (s : list Z) : option (list Z) :=
  match fromHex s with
  | Some b => Some (if decide (length b = 20%nat) then b else replicate 20 0)
  | None => None
  end.

(** ** Register.h *)

Definition basicGas : Z := 2.
Definition u256op1 : Z := 3.
Definition u256op2 : Z := 5.
Definition w_sha3Gas : Z := 30.
Definition w_sha3WordGas : Z := 6.
Definition w_sloadGas : Z := 200.
Definition w_sstoreSetGas : Z := 20000.
Definition w_sstoreResetGas : Z := 5000.
Definition w_sstoreRefundGas : Z := 15000.
Definition w_callGas : Z := 700.
Definition w_balanceGas : Z := 400.
Definition w_blockhashGas : Z := 800.

Section Host.
Context `{!Wavm} (env : EnvInfo) (x : ExtVM).

(** ** The members that a host function works on *)

Record Core := mkCore {
  c_gas : Z;
  c_instance : w_instance;
  c_return : list Z
}.

#[export] Instance core_members : Members Core := { gas_of := c_gas; rethrown := fun _ => BadInstruction }.

Definition set_instance (i : w_instance) (c : Core) : Core := mkCore (c_gas c) i (c_return c).

(** WASM_VM::AddUsedGas; its argument is converted to u256 *)
Definition AddUsedGas (useGas : Z) : Prog Core unit :=
  c ← members;
  if decide (c_gas c < u256 useGas) then stop BadInstruction
  else modify (fun c => mkCore (c_gas c - u256 useGas) (c_instance c) (c_return c)).

(** memoryArrayPtr, memoryRef: the bytes of a range, which is checked *)
Definition load (a n : Z) : Prog Core (list Z) :=
  c ← members; from_option (w_read (c_instance c) (Uptr a) (Uptr n)) BadInstruction.

Definition store (a : Z) (l : list Z) : Prog Core unit :=
  c ← members;
  i ← from_option (w_write (c_instance c) (Uptr a) l) BadInstruction;
  modify (set_instance i).

(** h256 and Address in memory *)
Definition load256 (a : Z) : Prog Core Z := l ← load a 32; mret (be_of_bytes l).
Definition store256 (a v : Z) : Prog Core unit := store a (be_to_bytes 32 v).
Definition load160 (a : Z) : Prog Core Z := l ← load a 20; mret (be_of_bytes l).
Definition store160 (a v : Z) : Prog Core unit := store a (be_to_bytes 20 v).

Definition no_value (m : Prog Core unit) : Prog Core Z := m;; mret 0.

(** strnlen and the text; only the first byte is checked *)
Fixpoint text (first : bool) (n : nat) (a : Z) : Prog Core (list Z) :=
  match n with
  | O => mret []
  | S n =>
      c ← members;
      match w_read (c_instance c) (Uptr a) 1 with
      | Some (b :: _) => if decide (b = 0) then mret [] else r ← text false n (a + 1); mret (b :: r)
      | _ => if first then stop BadInstruction else stop undefined_behaviour
      end
  end.

Definition operator_u256 (f : Z -> Z -> Z) (usedGas a b result : Z) : Prog Core Z :=
  no_value (AddUsedGas usedGas;; op1 ← load256 a; op2 ← load256 b; store256 result (u256 (f op1 op2))).

Definition division_u256 (f : Z -> Z -> Z) (usedGas a b result : Z) : Prog Core Z :=
  no_value (AddUsedGas usedGas;; op1 ← load256 a; op2 ← load256 b;
            require (bool_decide (op2 <> 0)) BadInstruction;;
            store256 result (f op1 op2)).

Definition comparator_u256 (f : Z -> Z -> bool) (a b : Z) : Prog Core Z :=
  AddUsedGas u256op1;; op1 ← load256 a; op2 ← load256 b; mret (if f op1 op2 then 1 else 0).

(** A member of the externality object or of the header, stored *)
Definition give256 (gas dest v : Z) : Prog Core Z := no_value (AddUsedGas gas;; store256 dest v).
Definition give160 (gas dest v : Z) : Prog Core Z := no_value (AddUsedGas gas;; store160 dest v).

Definition host_readMessage (parameter : list Z) (destptr destsize : Z) : Prog Core Z :=
  AddUsedGas basicGas;;
  require (bool_decide (0 < destsize)) BadInstruction;;
  load destptr destsize;;
  let minlen := Z.min (to_i32 (Z.of_nat (length parameter))) destsize in
  require (bool_decide (0 <= minlen)) undefined_behaviour;;
  store destptr (take (Z.to_nat minlen) parameter);;
  mret minlen.

Definition host_memcpy (dstp srcp len : Z) : Prog Core Z :=
  require (int_ok (2 * len)) undefined_behaviour;;
  AddUsedGas (2 * len);;
  load dstp len;;
  src ← load srcp len;
  require (bool_decide (0 < len)) BadInstruction;;
  (if decide (Uptr srcp < Uptr dstp) then require (bool_decide (Uptr srcp + len <= Uptr dstp)) BadInstruction
   else require (bool_decide (Uptr dstp + len <= Uptr srcp)) BadInstruction);;
  store dstp src;;
  mret dstp.

Definition host_memset (rel_ptr value len : Z) : Prog Core Z :=
  require (int_ok (2 * len)) undefined_behaviour;;
  AddUsedGas (2 * len);;
  load rel_ptr len;;
  store rel_ptr (replicate (Z.to_nat (Uptr len)) (u8 value));;
  mret rel_ptr.

(** The cost is computed on unsigned integers *)
Definition host_sha3 `{NodeEnv} (sourcePtr length dest : Z) : Prog Core Z :=
  require (int_ok (length + 31)) undefined_behaviour;;
  AddUsedGas (u32 (w_sha3Gas + u32 (w_sha3WordGas * u32 (length + 31)) / 32));;
  str ← load sourcePtr length;
  load dest 32;;
  no_value (store256 dest (sha3 str)).

Definition host_setstore (location data : Z) : Prog Core Z :=
  address ← load256 location;
  savedata ← load256 data;
  old ← ext (op_store address);
  (if decide (old = 0 /\ savedata <> 0) then AddUsedGas w_sstoreSetGas
   else
     old ← ext (op_store address);
     if decide (old <> 0 /\ savedata = 0) then
       AddUsedGas w_sstoreResetGas;;
       ext (op_addRefunds w_sstoreRefundGas)
     else AddUsedGas w_sstoreResetGas);;
  no_value (ext (op_setStore address savedata)).

(** The end of the heap is a number at the end of the first TOTAL_PAGES pages; it is given out
    from there downwards *)
Definition TOTAL_PAGES : Z := 1024.
Definition host_malloc (size : Z) : Prog Core Z :=
  require (bool_decide (0 < size)) BadInstruction;;
  let top := TOTAL_PAGES * 2 ^ w_pageSizeLog2 - 4 in
  modify (fun c =>
    let n := w_pages (c_instance c) in
    if decide (n < TOTAL_PAGES) then set_instance (w_grow (c_instance c) (TOTAL_PAGES - n)) c else c);;
  l ← load top 4;
  let old_end := to_i32 (le_of_bytes l) in
  require (int_ok (size + 7)) undefined_behaviour;;
  let new_end := old_end + 8 * ((size + 7) / 8) in
  require (int_ok new_end) undefined_behaviour;;
  store top (le_to_bytes 4 (u32 new_end));;
  require (bool_decide (old_end < new_end)) BadInstruction;;
  require (int_ok (top - new_end)) undefined_behaviour;;
  require (bool_decide (0 <= top - new_end)) BadInstruction;;
  mret (top - new_end).

(** gascount1 to gascount10 *)
Definition host_gascount (n : Z) : Prog Core Z := no_value (AddUsedGas n).

Definition host_printu256 (source : Z) : Prog Core Z := AddUsedGas basicGas;; load source 32;; mret 0.
Definition host_printaddress (source : Z) : Prog Core Z := AddUsedGas basicGas;; load source 20;; mret 0.

Definition host_balance (address dest : Z) : Prog Core Z :=
  AddUsedGas w_balanceGas;; a ← load160 address; b ← ext (op_balance a); no_value (store256 dest b).

Definition host_blockhash (number dest : Z) : Prog Core Z :=
  AddUsedGas w_blockhashGas;; n ← load256 number; h ← ext (op_blockHash n); no_value (store256 dest h).

Definition host_getstore (location data : Z) : Prog Core Z :=
  AddUsedGas w_sloadGas;; a ← load256 location; v ← ext (op_store a); no_value (store256 data v).

Definition host_transferbalance (address data : Z) : Prog Core Z :=
  AddUsedGas w_callGas;; v ← load256 data; a ← load160 address; no_value (ext (op_transferBalance a v)).

Definition host_setu256value (u256address charptr : Z) : Prog Core Z :=
  AddUsedGas u256op1;; load charptr 1;; load u256address 32;; s ← text true 66 charptr;
  v ← from_option (w_parse s) BadInstruction; no_value (store256 u256address (u256 v)).

Definition host_setaddressvalue (addressptr charptr : Z) : Prog Core Z :=
  AddUsedGas u256op1;; load charptr 1;; load addressptr 20;; s ← text true 66 charptr;
  b ← from_option (address_of_string s) BadInstruction; no_value (store addressptr b).

Definition host_u256toaddress (input result : Z) : Prog Core Z :=
  AddUsedGas basicGas;; l ← load input 32; no_value (store result (take 20 l)).

(** The two references may overlap: the address is read again after the zeros are written *)
Definition host_addresstou256 (input result : Z) : Prog Core Z :=
  AddUsedGas basicGas;; load input 20;; load result 32;;
  store result (replicate 32 0);;
  l ← load input 20;
  no_value (store result l).

Definition host_WAVMAssert (test msg : Z) : Prog Core Z :=
  AddUsedGas basicGas;;
  if decide (test = 0) then load msg 1;; stop BadInstruction else mret 0.

Definition host_WAVMReturn (sourcePtr length : Z) : Prog Core Z :=
  AddUsedGas w_sstoreSetGas;; l ← load sourcePtr length;
  no_value (modify (fun c => mkCore (c_gas c) (c_instance c) l)).

(** The call of a host function: which function, member or operator a name stands for *)
Definition host `{NodeEnv} (parameter : list Z) (f : intrinsic) : Prog Core Z :=
  match f with
  | readMessage destptr destsize => host_readMessage parameter destptr destsize
  | gascount n => host_gascount n
  | checktime => mret 0
  | memcpy dstp srcp len => host_memcpy dstp srcp len
  | memset rel_ptr value len => host_memset rel_ptr value len
  | printi _ => no_value (AddUsedGas basicGas)
  | prints charptr => load charptr 1;; mret 0
  | sha3_ sourcePtr length dest => host_sha3 sourcePtr length dest
  | contractaddress dest => give160 basicGas dest (ext_myAddress x)
  | caller dest => give160 basicGas dest (ext_caller x)
  | balance_ address dest => host_balance address dest
  | blockhash number dest => host_blockhash number dest
  | coinbase dest => give160 basicGas dest (env_author env)
  | timestamp dest => give256 basicGas dest (env_prevTimestamp env)
  | number_ dest => give256 basicGas dest (env_number env)
  | getcallvalue dest => give256 basicGas dest (ext_value x)
  | gaslimit dest => give256 basicGas dest (env_gasLimit env)
  | gasprice dest => give256 basicGas dest (ext_gasPrice x)
  | printu256 source => host_printu256 source
  | printaddress source => host_printaddress source
  | getstore location data => host_getstore location data
  | setstore location data => host_setstore location data
  | transferbalance address data => host_transferbalance address data
  | callvalue dest => give256 basicGas dest (ext_value x)
  | setu256value u256address charptr => host_setu256value u256address charptr
  | setaddressvalue addressptr charptr => host_setaddressvalue addressptr charptr
  | u256toaddress input result => host_u256toaddress input result
  | addresstou256 input result => host_addresstou256 input result
  | add_u256 a b result => operator_u256 Z.add u256op1 a b result
  | sub_u256 a b result => operator_u256 Z.sub u256op1 a b result
  | mul_u256 a b result => operator_u256 Z.mul u256op2 a b result
  | div_u256 a b result => division_u256 Z.div u256op2 a b result
  | mod_u256 a b result => division_u256 Z.modulo u256op2 a b result
  | lt_u256 a b => comparator_u256 (fun p q => bool_decide (p < q)) a b
  | gt_u256 a b => comparator_u256 (fun p q => bool_decide (q < p)) a b
  | eq_u256 a b => comparator_u256 (fun p q => bool_decide (p = q)) a b
  | WAVMAssert test msg => host_WAVMAssert test msg
  | test1 _ | test2 _ _ => no_value (AddUsedGas w_sstoreSetGas)
  | malloc size => host_malloc size
  | free _ => mret 0
  | WAVMReturn sourcePtr length => host_WAVMReturn sourcePtr length
  end.

(** ** WASM_CORE: modules and their runs *)

Record ModuleState := mkModule {
  ms_instance : w_instance;
  mem_end : Z;
  init_memory : list Z
}.

(** The memory in pages of the platform, not of the engine; raw accesses are not checked *)
Definition ClearMemory (i : w_instance) : res w_instance :=
  let totalSize := to_i32 (w_pages i * 2 ^ w_pageSizeLog2) in
  if decide (totalSize < 0) then raise undefined_behaviour
  else match w_write i 0 (replicate (Z.to_nat totalSize) 0) with
  | Some i => mret i
  | None => raise undefined_behaviour
  end.

(** One more than the last index of a byte that is not zero; 64 KiB when there is none *)
Definition last_used (mem : list Z) : Z :=
  (fold_left (fun '(i, e) b => (i + 1, if decide (b <> 0) then i + 1 else e)) mem (0, 2 ^ 16)).2.

Definition raw_read (i : w_instance) (n : Z) : res (list Z) :=
  match w_read i 0 n with Some l => mret l | None => raise undefined_behaviour end.

Definition LoadModuleState (module_cache : gmap Z ModuleState) (code : list Z) : res ModuleState :=
  match module_cache !! ext_myAddress x with
  | Some state =>
      if w_memory (ms_instance state) then
        i ← ClearMemory (ms_instance state);
        mret (mkModule i (mem_end state) (init_memory state))
      else raise undefined_behaviour
  | None =>
      match w_instantiate code with
      | None => raise BadInstruction
      | Some i =>
          if w_memory i then
            mem ← raw_read i (w_pages i * 2 ^ 16);
            let e := last_used mem in
            init_ ← raw_read i e;
            i ← ClearMemory i;
            mret (mkModule i e init_)
          else raise undefined_behaviour
      end
  end.

(** The memory before a call: the rest of the first 64 KiB is zero, the initial contents are back *)
Definition reset_memory (state : ModuleState) : res w_instance :=
  if decide (2 ^ 16 < mem_end state) then raise undefined_behaviour
  else match w_write (ms_instance state) (mem_end state) (replicate (Z.to_nat (2 ^ 16 - mem_end state)) 0) with
  | None => raise undefined_behaviour
  | Some i => match w_write i 0 (init_memory state) with Some i => mret i | None => raise undefined_behaviour end
  end.

(** The run of a function with the host functions it calls *)
Fixpoint drive `{NodeEnv} (parameter : list Z) (r : wasm_run w_instance) : Prog Core unit := fun c k =>
  match r with
  | w_end i => k (set_instance i c) tt
  | w_trap => vm_throw (c_gas c) BadInstruction []
  | w_host f i next => host parameter f (set_instance i c) (fun c v => drive parameter (next (c_instance c) v) c k)
  end.

(** The first four bytes of a module; a text ends with a zero *)
Definition has_magic (code : list Z) : bool := bool_decide (le_of_bytes (take 4 (code ++ [0])) = 0x6d736100).

(** WASM_CORE::run; what follows gets the gas that is left and the returned bytes *)
Definition core_run `{NodeEnv} (module_cache : gmap Z ModuleState) (gas : Z) (code : list Z) (functionName : entry)
    (invokeArgs args : list Z) (k : Z -> list Z -> vm_prog) : vm_prog :=
  if decide (length code < 3)%nat then vm_throw gas undefined_behaviour []
  else if has_magic code then
    match LoadModuleState module_cache code with
    | inr e => vm_throw gas e []
    | inl state =>
        if w_memory (ms_instance state) then
          if w_exports (ms_instance state) functionName then
            match reset_memory state with
            | inr e => vm_throw gas e []
            | inl i => drive args (w_invoke i functionName invokeArgs) (mkCore gas i [])
                         (fun c _ => k (c_gas c) (c_return c))
            end
          else match functionName with apply => vm_throw gas BadInstruction [] | _ => k gas [] end
        else k gas []
    end
  else vm_throw gas BadInstruction [].

(** "abc logs" *)
Definition abc_logs : list Z := [0x61; 0x62; 0x63; 0x20; 0x6c; 0x6f; 0x67; 0x73].

(** WASM_VM::exec *)
Definition wasm_exec `{NodeEnv} (module_cache : gmap Z ModuleState) (gas : Z) (isCreation : bool) : vm_prog :=
  let code := ext_code x in
  if isCreation then core_run module_cache gas code init [] [] (fun gas _ => vm_return gas code)
  else match ext_data x with
  | [] => core_run module_cache gas code default_ [] [] vm_return
  | data =>
      if decide (8 <= length data)%nat then
        vm_do (op_log [] abc_logs) (fun r =>
          match r with
          | inl _ => core_run module_cache gas code apply [le_of_bytes (take 8 data)] (drop 8 data) vm_return
          | inr e => vm_throw gas e []
          end)
      else vm_throw gas VMException []
  end.
End Host.

(** VMFactory::createWASM, with the modules that are loaded *)
Definition wasm_vm `{NodeEnv} `{!Wavm} (env : EnvInfo) (module_cache : gmap Z ModuleState) : VM :=
  fun gas x isCreation => wasm_exec env x module_cache gas isCreation.

(** WASM_VM::clearCodeCache, after a failure *)
Definition clearCodeCache `{!Wavm} (address : Z) (module_cache : gmap Z ModuleState) : gmap Z ModuleState :=
  delete address module_cache.

(** ** The machine keeps to the rules of the executive *)

Create HintDb host.

(** The exceptions of a run: they make the executive roll back, unless the standard does not say
    what happens *)
Definition wasm_error (e : exn) : Prop := is_VMException e = true \/ e = undefined_behaviour.

Lemma wasm_error_bad : wasm_error BadInstruction.
Proof. by left. Qed.

Lemma wasm_error_undefined : wasm_error undefined_behaviour.
Proof. by right. Qed.

#[export] Hint Resolve wasm_error_bad wasm_error_undefined : host.

Section Law.
Context `{NodeEnv} `{!Wavm} `{!WavmLaws} (env : EnvInfo) (x : ExtVM) (my depth : Z).

(** The members are in order before and after *)
#[local] Abbreviation ok m := (triple wasm_error my depth fits m (fun _ => fits)).

Lemma ok_ret {A} (a : A) : ok (mret a).
Proof. apply (triple_ret wasm_error my depth a (fun _ => fits)). Qed.

Lemma ok_stop {A} e : wasm_error e -> ok (stop e : Prog Core A).
Proof. intros He. by apply triple_stop. Qed.

Lemma ok_modify f : (forall c, c_gas (f c) = c_gas c) -> ok (modify f).
Proof. intros Hf s G k k' HP Hk. apply Hk. unfold fits in *. cbn in *. by rewrite Hf. Qed.

Lemma ok_require b e : wasm_error e -> ok (require b e).
Proof. intros He. eapply triple_conseq; [by apply (triple_require wasm_error my depth b e fits)|done|]. by intros ??? [? _]. Qed.

Lemma ok_ext {A : Set} (op : ext_op A) : op_ok my depth op -> spent op = 0 -> ok (ext op).
Proof. intros Ho Hz. apply triple_ext; [done|done| |done]. intros e _. left. apply wasm_error_bad. Qed.

Lemma ok_AddUsedGas g : ok (AddUsedGas g).
Proof.
  intros s G k k' HP Hk. unfold AddUsedGas, mbind, Prog_bind, members. case_decide; [apply agree_throw; [apply HP|apply wasm_error_bad]|]. apply Hk.
  unfold fits in *. cbn [gas_of core_members c_gas] in *. pose proof (Z.mod_pos_bound g (2 ^ 256) ltac:(lia)). unfold u256 in *. lia.
Qed.

Lemma load_bytes a n : triple wasm_error my depth fits (load a n) (fun l s G => fits s G /\ Z.of_nat (length l) = Uptr n /\ Forall is_byte l).
Proof.
  intros s G k k' HP Hk. unfold load, mbind, Prog_bind, members, from_option. destruct (w_read _ _ _) as [l|] eqn:E; [|apply agree_throw; [apply HP|apply wasm_error_bad]].
  apply Hk. split; [done|]. by apply (w_read_bytes _ _ _ _ E).
Qed.

Lemma ok_load a n : ok (load a n).
Proof. eapply triple_conseq; [apply load_bytes|done|]. by intros ??? [? _]. Qed.

Lemma load256_range a : triple wasm_error my depth fits (load256 a) (fun v s G => fits s G /\ is_u256 v).
Proof.
  eapply triple_bind; [apply load_bytes|]. intros l. eapply triple_conseq; [apply triple_ret| |by intros ??? HQ; exact HQ].
  intros s G (F & Hl & Hb). split; [done|]. pose proof (be_of_bytes_range l Hb) as R.
  change (Uptr 32) with 32 in Hl. by rewrite (Nat2Z.inj (length l) 32 Hl) in R.
Qed.

Lemma ok_load256 a : ok (load256 a).
Proof. eapply triple_conseq; [apply load256_range|done|]. by intros ??? [? _]. Qed.

Lemma ok_store a l : ok (store a l).
Proof.
  intros s G k k' HP Hk. unfold store, mbind, Prog_bind, members, from_option. destruct (w_write _ _ _) as [i|]; [|apply agree_throw; [apply HP|apply wasm_error_bad]]. by apply Hk.
Qed.

Lemma ok_option {A} (o : option A) e : wasm_error e -> ok (from_option o e).
Proof. intros He. eapply triple_conseq; [by apply (triple_option wasm_error my depth o e fits)|done|]. by intros ??? [? _]. Qed.

Lemma ok_bind {A B} (m : Prog Core A) (f : A -> Prog Core B) : ok m -> (forall a, ok (f a)) -> ok (m ≫= f).
Proof. intros Hm Hf. by eapply triple_bind. Qed.

Lemma ok_members : ok members.
Proof. eapply triple_conseq; [apply (triple_members wasm_error my depth fits)|done|]. by intros ??? [_ ?]. Qed.

Lemma ok_text n : forall first a, ok (text first n a).
Proof.
  induction n as [|n IH]; intros first a; cbn [text]; [apply ok_ret|]. apply ok_bind; [apply ok_members|intros c].
  destruct (w_read _ _ _) as [[|b l]|]; [destruct first; auto using ok_stop with host| |destruct first; auto using ok_stop with host].
  case_decide; [apply ok_ret|]. apply ok_bind; [apply IH|intros r; apply ok_ret].
Qed.

(** A value that was read is used as a word *)
Lemma ok_word {B} a (f : Z -> Prog Core B) : (forall v, is_u256 v -> ok (f v)) -> ok (load256 a ≫= f).
Proof. intros Hf. eapply triple_bind; [apply load256_range|]. intros v. apply triple_pure. apply Hf. Qed.

#[local] Hint Resolve ok_ret ok_stop ok_require ok_AddUsedGas ok_load ok_load256 ok_store ok_option ok_text : host.
#[local] Hint Extern 1 (triple _ _ _ fits (ext _) _) => apply ok_ext; [done|done] : host.
#[local] Hint Extern 1 (triple _ _ _ fits (modify _) _) => apply ok_modify; intros ?; repeat case_match; done : host.
#[local] Hint Extern 2 (triple _ _ _ fits (_ ≫= _) _) => apply ok_bind; [|intros ?] : host.
#[local] Hint Extern 2 (triple _ _ _ fits (if _ then _ else _) _) => case_match : host.

Lemma host_malloc_ok size : ok (host_malloc size).
Proof.
  unfold host_malloc. auto 40 with host.
Qed.

Lemma host_setstore_ok location data : ok (host_setstore location data).
Proof.
  unfold host_setstore, no_value. apply ok_word. intros a Ha. apply ok_word. intros v Hv. auto 20 with host.
Qed.

Lemma host_ok parameter f : ok (host env x parameter f).
Proof.
  destruct f; cbn [host]; try apply host_malloc_ok; try apply host_setstore_ok;
    unfold host_readMessage, host_memcpy, host_memset, host_sha3, host_gascount, host_printu256, host_printaddress,
      host_balance, host_blockhash, host_getstore, host_transferbalance, host_setu256value, host_setaddressvalue,
      host_u256toaddress, host_addresstou256, host_WAVMAssert, host_WAVMReturn, give256, give160, operator_u256, division_u256,
      comparator_u256, load160, store256, store160; unfold no_value;
    try solve [auto 20 with host].
  - apply ok_bind; [auto with host|intros _]. apply ok_word. intros a Ha. auto 20 with host.
  - apply ok_bind; [auto with host|intros _]. apply ok_word. intros a Ha. auto 20 with host.
Qed.

Lemma drive_ok parameter r : ok (drive env x parameter r).
Proof.
  induction r as [i| |f i next IH]; intros s G k k' HP Hk; cbn.
  - by apply Hk.
  - apply agree_throw; [apply HP|apply wasm_error_bad].
  - apply (host_ok parameter f); [done|]. intros s' v G' HP'. by apply (IH (c_instance s') v).
Qed.
End Law.

Section Exec.
Context `{NodeEnv} `{!Wavm} `{!WavmLaws} (env : EnvInfo).

Lemma clear_error i e : ClearMemory i = inr e -> wasm_error e.
Proof. unfold ClearMemory. repeat case_match; intros [= <-]; auto with host. Qed.

Lemma raw_read_error i n e : raw_read i n = inr e -> wasm_error e.
Proof. unfold raw_read. case_match; intros [= <-]; auto with host. Qed.

Lemma load_error x cache code e : LoadModuleState x cache code = inr e -> wasm_error e.
Proof.
  unfold LoadModuleState. destruct (cache !! _) as [st|]; [|destruct (w_instantiate code) as [i|]].
  - destruct (w_memory _); [|intros [= <-]; auto with host]. unfold mbind, res_bind.
    destruct (ClearMemory _) eqn:E; intros [= <-]. by eapply clear_error.
  - destruct (w_memory _); [|intros [= <-]; auto with host]. unfold mbind, res_bind.
    destruct (raw_read i (w_pages i * 2 ^ 16)) as [mem|] eqn:E1; [|intros [= <-]; by eapply raw_read_error].
    destruct (raw_read i (last_used mem)) eqn:E2; [|intros [= <-]; by eapply raw_read_error].
    destruct (ClearMemory i) eqn:E3; intros [= <-]. by eapply clear_error.
  - intros [= <-]; auto with host.
Qed.

Lemma reset_error st e : reset_memory st = inr e -> wasm_error e.
Proof. unfold reset_memory. repeat case_match; intros [= <-]; auto with host. Qed.

Lemma core_run_ok my depth x cache gas G code fn invokeArgs args k :
  0 <= gas <= G -> (forall gas' out G', 0 <= gas' <= G' -> agree my depth wasm_error (k gas' out) (k gas' out) G') ->
  agree my depth wasm_error (core_run env x cache gas code fn invokeArgs args k) (core_run env x cache gas code fn invokeArgs args k) G.
Proof.
  intros Hg Hk. unfold core_run. case_decide; [apply agree_throw; [done|auto with host]|].
  destruct (has_magic code); [|apply agree_throw; [done|auto with host]].
  destruct (LoadModuleState x cache code) as [st|e] eqn:El; [|apply agree_throw; [done|by eapply load_error]].
  destruct (w_memory _); [|by apply Hk].
  destruct (w_exports _ _); [|by destruct fn; [apply Hk|apply Hk|apply agree_throw; [done|auto with host]]].
  destruct (reset_memory st) as [i|e] eqn:Er; [|apply agree_throw; [done|by eapply reset_error]].
  apply (drive_ok env x my depth); [done|]. intros c [] G' HP. apply Hk, HP.
Qed.

Lemma wasm_behaves my depth cache gas x isCreation :
  0 <= gas -> behaves wasm_error my depth (wasm_exec env x cache gas isCreation) gas.
Proof.
  intros Hg. apply agree_self. unfold wasm_exec.
  destruct isCreation; [apply core_run_ok; [lia|by constructor]|].
  destruct (ext_data x) as [|b d]; [apply core_run_ok; [lia|by constructor]|].
  case_decide; [|apply agree_throw; [lia|by left]]. apply agree_do; [done|cbn; lia| |].
  - intros [] _. apply core_run_ok; [cbn; lia|by constructor].
  - intros e He. apply agree_throw; [lia|by right].
Qed.

Lemma wasm_law cache : @VMLaw (wasm_vm env cache).
Proof. intros gas x isCreation Hg. by eapply behaves_well, wasm_behaves. Qed.

(** It makes no calls, and the code of the account of the votes is not a module *)
Lemma wasm_vault cache : @VaultLaw (wasm_vm env cache).
Proof.
  split.
  - intros gas x _ Ec. unfold vm_exec, wasm_vm, wasm_exec. rewrite Ec.
    destruct (ext_data x) as [|b d]; [done|]. case_decide; [|done]. split; [done|]. by intros [].
  - intros gas x isCreation Hg. by eapply behaves_no_calls, (wasm_behaves (ext_myAddress x) 1024).
Qed.

(** C9: the machine that the node runs keeps to the rules of the executive, for
    every module, every engine, every instance that is already loaded and every answer of the
    state: it never ends with more gas than it got, it passes words to the state, and makes no
    calls or creations that the state would have to refuse.  So every theorem about transactions
    that is stated for machines of this kind holds of the node.  And it fails with exceptions that
    the executive answers by a rollback, unless the behaviour of the code is not defined. *)
Theorem wasm_machine_law cache :
  @VMLaw (wasm_vm env cache) /\
  forall gas x isCreation, 0 <= gas ->
    behaves wasm_error (ext_myAddress x) (ext_depth x) (@vm_exec (wasm_vm env cache) gas x isCreation) gas.
Proof.
  split; [apply wasm_law|]. intros gas x isCreation Hg. by apply wasm_behaves.
Qed.
End Exec.

(** ** The heap of a module *)

Section Heap.
Context `{!Wavm} `{!WavmLaws}.

Definition heap_top : Z := TOTAL_PAGES * 2 ^ w_pageSizeLog2 - 4.

(** The heap has been set up and its end is [e] *)
Definition heap_at (c : Core) (e : Z) : Prop :=
  TOTAL_PAGES <= w_pages (c_instance c) /\ w_read (c_instance c) (Uptr heap_top) 4 = Some (le_to_bytes 4 e).

(** Writing the end of the heap is possible and keeps the size of the memory *)
Definition heap_writable : Prop := forall i l, TOTAL_PAGES <= w_pages i -> length l = 4%nat ->
  exists i', w_write i (Uptr heap_top) l = Some i' /\ w_pages i' = w_pages i.

Definition rounded (size : Z) : Z := 8 * ((size + 7) / 8).

Lemma le_bytes_i32 e : 0 <= e < 2 ^ 31 -> to_i32 (le_of_bytes (le_to_bytes 4 e)) = e.
Proof.
  intros He. rewrite le_of_to_bytes_id; [|by split; [lia|]; change (2 ^ (8 * Z.of_nat 4)) with (2 ^ 32); lia].
  unfold to_i32. rewrite Z.mod_small by lia. lia.
Qed.

Lemma malloc_step c e size :
  heap_writable -> heap_at c e -> 0 <= e -> 0 < size -> 0 <= w_pageSizeLog2 <= 20 -> e + rounded size <= heap_top ->
  exists c', (forall k, host_malloc size c k = k c' (heap_top - (e + rounded size))) /\ heap_at c' (e + rounded size).
Proof.
  intros W [Hp Hr] He Hs Hl Hf. set (e' := e + rounded size) in *.
  assert (Ht : heap_top < 2 ^ 30).
  { unfold heap_top, TOTAL_PAGES. assert (2 ^ w_pageSizeLog2 <= 2 ^ 20) by (apply Z.pow_le_mono_r; lia). lia. }
  assert (Hsz : size <= rounded size < size + 8).
  { unfold rounded. pose proof (Z.div_mod (size + 7) 8 ltac:(lia)). pose proof (Z.mod_pos_bound (size + 7) 8 ltac:(lia)). lia. }
  destruct (W (c_instance c) (le_to_bytes 4 (u32 e')) Hp (length_le_to_bytes 4 _)) as (i' & Ew & Ep).
  exists (set_instance i' c).
  assert (Eu : u32 e' = e') by (apply u32_id; split; [lia|]; change (2 ^ 32) with 4294967296; change (2 ^ 30) with 1073741824 in Ht; lia).
  split.
  - intros k. unfold host_malloc, require. fold heap_top. rewrite bool_decide_true by done.
    unfold mbind, Prog_bind, mret, Prog_ret, modify. rewrite decide_False by lia.
    unfold load, mbind, Prog_bind, members, from_option, mret, Prog_ret. change (Uptr 4) with 4. rewrite Hr.
    cbv zeta. rewrite le_bytes_i32 by lia. fold (rounded size). fold e'.
    unfold int_ok. rewrite !bool_decide_true by lia.
    unfold store, mbind, Prog_bind, members, from_option, mret, Prog_ret, modify. rewrite Ew.
    done.
  - split; [cbn; lia|]. cbn [c_instance set_instance]. rewrite Eu in Ew.
    apply (w_read_write _ _ _ _ (le_to_bytes_bytes 4 e') Ew).
Qed.

(** Two calls of malloc in a row give blocks of at least the requested sizes
    that lie one below the other and below the counter, so that they overlap neither each other
    nor the blocks given out before (the end of the heap was [e]) nor the counter itself. *)
Theorem malloc_blocks c e size1 size2 :
  heap_writable -> heap_at c e -> 0 <= e -> 0 < size1 -> 0 < size2 -> 0 <= w_pageSizeLog2 <= 20 ->
  e + rounded size1 + rounded size2 <= heap_top ->
  exists c' p q,
    (forall k, (p ← host_malloc size1; q ← host_malloc size2; mret (p, q)) c k = k c' (p, q)) /\
    0 <= q /\ q + size2 <= p /\ p + size1 <= heap_top - e /\ heap_at c' (heap_top - q).
Proof.
  intros W Ha He H1 H2 Hl Hf.
  assert (R : forall s, s <= rounded s).
  { intros s. unfold rounded. pose proof (Z.div_mod (s + 7) 8 ltac:(lia)). pose proof (Z.mod_pos_bound (s + 7) 8 ltac:(lia)). lia. }
  pose proof (R size1). pose proof (R size2).
  destruct (malloc_step c e size1 W Ha He H1 Hl ltac:(lia)) as (c1 & E1 & Ha1).
  destruct (malloc_step c1 _ size2 W Ha1 ltac:(lia) H2 Hl Hf) as (c2 & E2 & Ha2).
  exists c2, (heap_top - (e + rounded size1)), (heap_top - (e + rounded size1 + rounded size2)).
  split_and!; try lia.
  - intros k. unfold mbind, Prog_bind. rewrite E1, E2. done.
  - by replace (heap_top - (heap_top - (e + rounded size1 + rounded size2))) with (e + rounded size1 + rounded size2) by lia.
Qed.
End Heap.

(** ** What goes wrong around a run *)

Section Flaws.
Context `{NodeEnv} `{!Wavm} (env : EnvInfo) (x : ExtVM).

(** Modules are kept by address: once one is loaded the code of the account is not looked at, also
    when the chain has switched to a fork where another contract has that address *)
Lemma cached_code_ignored cache code1 code2 :
  is_Some (cache !! ext_myAddress x) -> LoadModuleState x cache code1 = LoadModuleState x cache code2.
Proof. intros [st E]. unfold LoadModuleState. by rewrite E. Qed.

(** A module that starts with data above 64 KiB: the size of the memset is negative *)
Lemma large_data_undefined cache gas code fn invokeArgs args k st :
  (3 <= length code)%nat -> has_magic code = true -> LoadModuleState x cache code = inl st ->
  w_memory (ms_instance st) = true -> w_exports (ms_instance st) fn = true -> 2 ^ 16 < mem_end st ->
  core_run env x cache gas code fn invokeArgs args k = vm_throw gas undefined_behaviour [].
Proof.
  intros Hc Hm El Hw Hx He. unfold core_run. rewrite decide_False by lia. rewrite Hm, El, Hw, Hx.
  unfold reset_memory. by rewrite decide_True.
Qed.
End Flaws.

(** ** An engine to run the definitions with

    The memory is a function, and every module has one function that keeps its message in slot 0
    and returns it. *)

Definition demo_store (m : Z -> Z) (a : Z) (l : list Z) : Z -> Z := fun j =>
  if decide (a <= j) then default (m j) (l !! Z.to_nat (j - a)) else m j.

Definition demo_range (pages a n : Z) : bool := bool_decide (0 <= a /\ 0 <= n /\ a + n <= pages * 2 ^ 16).

Definition demo_keep (i : (Z -> Z) * Z) : wasm_run ((Z -> Z) * Z) :=
  w_host (gascount 5) i (fun i _ => w_host (readMessage 0 32) i (fun i n =>
  w_host (setstore 64 0) i (fun i _ => w_host (WAVMReturn 0 n) i (fun i _ => w_end i)))).

Definition demo_wavm : Wavm := {|
  w_instance := (Z -> Z) * Z;
  w_instantiate := fun code => Some (fun j => if decide (j = 100) then 7 else 0, 1);
  w_memory := fun _ => true;
  w_read := fun i a n => if demo_range i.2 a n then Some ((fun j => u8 (i.1 (a + Z.of_nat j))) <$> seq 0 (Z.to_nat n)) else None;
  w_write := fun i a l => if demo_range i.2 a (Z.of_nat (length l)) then Some (demo_store i.1 a l, i.2) else None;
  w_pages := snd;
  w_grow := fun i n => (i.1, i.2 + n);
  w_pageSizeLog2 := 12;
  w_exports := fun _ _ => true;
  w_invoke := fun i _ _ => demo_keep i;
  w_parse := fun _ => None
|}.

#[local] Existing Instance demo_wavm.

#[local] Instance demo_wavm_laws : WavmLaws.
Proof.
  split.
  - intros [m p] a n l. cbn. destruct (demo_range p a n) eqn:R; [|done]. intros [= <-].
    apply bool_decide_eq_true in R. rewrite length_fmap, length_seq. split; [lia|].
    apply Forall_fmap, Forall_true. intros j. apply u8_range.
  - intros [m p] a l i' Hl. cbn. destruct (demo_range p a _) eqn:R; [|done]. intros [= <-]. cbn. rewrite R. f_equal.
    apply list_eq. intros j. rewrite Nat2Z.id, list_lookup_fmap. destruct (decide (j < length l)%nat) as [Hj|Hj].
    + rewrite lookup_seq_lt by done. cbn. unfold demo_store. rewrite decide_True by lia.
      replace (Z.to_nat (a + Z.of_nat j - a)) with j by lia. destruct (lookup_lt_is_Some_2 l j Hj) as [b Hb]. rewrite Hb. cbn.
      f_equal. apply u8_id. by apply (Forall_lookup_1 _ _ _ _ Hl Hb).
    + rewrite lookup_seq_ge by lia. rewrite lookup_ge_None_2 by lia. done.
Qed.

Definition demo_code : list Z := [0x00; 0x61; 0x73; 0x6d; 1; 0; 0; 0].
Definition demo_call : ExtVM := mkExt 0x21 1 1 0 2 (repeat 9 40) demo_code 0 sub_clear 0 false.
Definition demo_block : EnvInfo := mkEnv 1 0x99 1520 1510 131072 (10 ^ 7) 500 [].

Lemma wasm_machine_law_witness :
  behaves wasm_error (ext_myAddress demo_call) (ext_depth demo_call)
    (@vm_exec (wasm_vm (H := demo_env) demo_block ∅) 30000 demo_call false) 30000.
Proof. exact (proj2 (wasm_machine_law (H := demo_env) demo_block ∅) 30000 demo_call false ltac:(lia)). Defined.

Lemma demo_heap_writable : heap_writable.
Proof.
  intros [m p] l Hp Hl. exists (demo_store m (Uptr heap_top) l, p). split; [|done].
  change (Uptr heap_top) with (heap_top). cbn. rewrite Hl. unfold demo_range. rewrite bool_decide_true; [done|].
  change heap_top with 4194300. change TOTAL_PAGES with 1024 in Hp. cbn in Hp. lia.
Qed.

Definition demo_core : Core := mkCore (H := demo_wavm) 9 ((fun _ => 0, 1024) : (Z -> Z) * Z) [].

Lemma malloc_blocks_witness : exists c' p q,
  (forall k, (p ← host_malloc 100; q ← host_malloc 20; mret (p, q)) demo_core k = k c' (p, q)) /\
  0 <= q /\ q + 20 <= p /\ p + 100 <= heap_top - 0 /\ heap_at c' (heap_top - q).
Proof.
  apply (malloc_blocks demo_core 0 100 20); [apply demo_heap_writable|by split; vm_compute|lia|lia|lia|by cbn|by vm_compute].
Defined.

(** The second page of an instance that is used again keeps what an earlier call left there *)
Example memory_left_over :
  match LoadModuleState demo_call {[ 0x21 := mkModule ((fun _ => 5), 2) 101 (replicate 101 0) ]} demo_code with
  | inl st => match reset_memory st with inl i => w_read i 70000 1 = Some [5] | inr _ => False end
  | inr _ => False
  end.
Proof. by vm_compute. Qed.
