(* ===== verification/ExecVotes.v ===== *)
(** * The precompiled contracts keep the laws of the executive

    The states that steps lead to from a given one are a ledger in the sense of [Ledger], so that
    what holds of the vote contracts on any ledger shows that a call of one is a step, which the
    executive can undo, and that it makes no money when votes are counted as money.  The other
    contracts do not touch the state. *)

From stdpp Require Import gmap sorting.
From S2P Require Import Prelude Words Exn EthState EthStateInv EthCommit EthRollback Ledger.
From S2P Require Import EthLedger Vote VoteStore VoteSpec VoteInv VoteCall VoteReach VoteStable ExecState ExecOps ExecSteps.
From S2P Require Import Transaction Executive Precompiled ExecLaws.

#[local] Open Scope Z_scope.

Section Tracked.
Context `{NodeEnv} `{!Homes} `{!KeyHashInj} `{Bst : !Boost} (Hhome : VoteInfoAddress ∈ homes) (s0 : State).

(** The code of the account of the votes stays *)
Definition on_path (s : State) : Prop := safe s0 s /\ code_at s VoteInfoAddress = code_at s0 VoteInfoAddress.

Lemma on_path_ok s : on_path s -> inv s /\ ledger_ok s.
Proof.
  intros [P%safe_inv _]. split; [done|]. split; [apply P|apply P|]. by apply (inv_homes s P).
Qed.

Lemma on_path_safe s s' : on_path s -> safe s s' -> code_at s' VoteInfoAddress = code_at s VoteInfoAddress -> on_path s'.
Proof. intros [P C] U E. split; [by eapply safe_trans|congruence]. Qed.

Lemma on_path_contracts s s' : on_path s -> safe s s' -> same_contracts s s' -> on_path s'.
Proof. intros P U C. eapply on_path_safe; [exact P|done|apply C]. Qed.

Lemma on_path_dirtier s s' : on_path s -> safe s s' -> dirtier s s' -> on_path s'.
Proof. intros P U D. eapply on_path_contracts; [exact P|done|]. by apply (dirtier_view s s'). Qed.

(** The state that an operation of the ledger leads to *)
Lemma same_state {A} (m : M State A) s s1 s2 a b : m s = (s1, inl a) -> m s = (s2, inl b) -> s1 = s2 /\ a = b.
Proof. intros -> [= <- <-]. done. Qed.

Program Definition tracked : LedgerLaws State := {|
  lg_ok := on_path;
  slots := fun s => slot_at s VoteInfoAddress;
  balances := balance_at
|}.
Next Obligation.
  intros s k P. destruct (on_path_ok s P) as [_ Ok]. by apply (slots_range (LedgerLaws := State_laws)).
Qed.
Next Obligation. intros s a P. destruct (on_path_ok s P) as [_ Ok]. apply balance_range, Ok. Qed.
Next Obligation.
  intros s k P Hk. destruct (on_path_ok s P) as [I Ok].
  destruct (storage_safe s VoteInfoAddress k I Hk) as (s1 & E1 & U1 & D1). exists s1.
  destruct (dirtier_view s s1 D1) as (C & _ & B). split_and!; [done|by eapply on_path_dirtier| |done]. intros k'. apply C.
Qed.
Next Obligation.
  intros s P. destruct (on_path_ok s P) as [I Ok].
  destruct (storage_map_law (LedgerLaws := State_laws) s Ok) as (s2 & m & E2 & _ & K & B & L & R).
  pose proof E2 as E. cbv [lg_storage_map State_ledger storage_map] in E.
  match type of E with query ?a ?f ?d s = _ => destruct (query_safe s a f d I) as (s1 & E1 & U1 & D1) end.
  destruct (same_state _ _ _ _ _ _ E1 E) as [-> _]. exists s2, m.
  split_and!; [done|eapply on_path_dirtier; [done|done|by apply sim_dirtier]|done..].
Qed.
Next Obligation.
  intros s k v P Hk Hv. destruct (on_path_ok s P) as [I Ok].
  destruct (setStorage_safe s VoteInfoAddress k v I (inv_homes s I _ Hhome) Hk Hv) as (s1 & E1 & U1 & _ & _ & C1).
  destruct (setStorage_law (LedgerLaws := State_laws) s k v Ok Hk Hv) as (s2 & E2 & _ & K & B).
  destruct (same_state _ _ _ _ _ _ E1 E2) as [-> _]. exists s2. split_and!; [done|by eapply on_path_safe|done..].
Qed.
Next Obligation.
  intros s a P. destruct (on_path_ok s P) as [I Ok].
  destruct (balance_safe s a I) as (s1 & E1 & U1 & D1). exists s1.
  destruct (dirtier_view s s1 D1) as (C & _ & B). split_and!; [done|by eapply on_path_dirtier| |done]. intros k'. apply C.
Qed.
Next Obligation.
  intros s a v P Hv. destruct (on_path_ok s P) as [I Ok].
  destruct (addBalance_safe s a v I Hv) as (s1 & E1 & (U1 & C & _ & B) & _). exists s1.
  split_and!; [done|by eapply on_path_contracts| |done]. intros k'. apply C.
Qed.
Next Obligation.
  intros s a v P Hv. destruct (on_path_ok s P) as [I Ok]. pose proof (balance_range s a (ok_wf s Ok)) as R.
  destruct (subBalance_safe s a v I) as (s1 & r & E1 & [(-> & _ & U1 & C & _ & B)|(_ & ? & _)]); [unfold is_word in *; lia| |lia].
  exists s1. split_and!; [done|by eapply on_path_contracts| |done]. intros k'. apply C.
Qed.

(** A call of a contract, with the money that the votes stand for *)
Lemma vote_funds c d a s r m :
  inv s0 -> bytes d -> is_address a -> recorded s0 m -> wealth s0 m < 2 ^ 64 * VOTES_PRE_ETH ->
  precompiled c d a s0 = (s, r) -> exists m', recorded s m' /\ wealth s m' <= wealth s0 m.
Proof.
  intros I Hd Ha [Im Rm] Hw E.
  assert (R : repr (LedgerLaws0 := tracked) s0 m) by (split; [by split; [apply safe_refl|]|apply Im|exact Rm]).
  pose proof (precompiled_result (LedgerLaws0 := tracked) c d a s0 m R Ha Hd) as P. unfold result in P.
  destruct (parse c d) as [o|e] eqn:Eo; [|rewrite E in P; injection P as -> _; by exists m].
  destruct P as (s1 & E1 & R1 & B1). rewrite E in E1. injection E1 as <- _.
  change (balances s0 a) with (balance_at s0 a) in *.
  assert (Hb : 0 <= balance_at s0 a /\ balance_at s0 a + VOTES_PRE_ETH * total votes_of m < 2 ^ 64 * VOTES_PRE_ETH).
  { pose proof (balance_nonneg s0 a (inv_wf s0 I)). pose proof (supply_one s0 a (inv_wf s0 I)). unfold wealth in Hw. lia. }
  pose proof (parse_ok c d o Hd Eo) as Ho. destruct (exec_total m o a (balance_at s0 a) Im Ha Ho Hb) as (_ & T & _).
  eexists. split; [split; [by eapply inv_exec|exact (r_info _ _ R1)]|].
  unfold wealth. rewrite (supply_change s0 s a _ B1). lia.
Qed.

Lemma vote_law conserving c d a s r :
  sane conserving s0 -> (conserving = true -> is_address a) -> bytes d -> vote_executor c d a s0 = (s, r) ->
  step conserving s0 s /\ r <> inr out_of_fuel /\ forall out, r <> inl (false, out).
Proof.
  intros I Ha Hd. unfold vote_executor.
  pose proof (precompiled_stable (LedgerLaws0 := tracked) c d a Hd s0 (conj (safe_refl s0 I) eq_refl)) as (P & Hf & _).
  unfold mbind, M_bind. destruct (precompiled c d a s0) as [s1 u] eqn:E. cbn [fst snd] in *.
  assert (S : step conserving s0 s1).
  { destruct P as [U C]. split; [done|]. intros Hc. split; [unfold vault; rewrite C; by apply I|].
    intros m R Hw. eapply vote_funds; [apply I|exact Hd|by apply Ha|done|done|exact E]. }
  destruct u as [u|ex]; intros [= <- <-]; split_and!; try done. by intros [= ->].
Qed.
End Tracked.

Lemma computes_law `{NodeEnv} `{!Homes} conserving base word f start :
  0 <= base -> 0 <= word -> contract_law conserving (linear base word (computes f) start).
Proof.
  intros Hb Hw. split; cbn.
  - intros d. assert (0 <= (Rlp.len d + 31) / 32) by (apply Z.div_pos; unfold Rlp.len; lia). nia.
  - intros d a s s' r I _ _ [= <- <-]. split_and!; [by apply step_refl|done|]. intros _ _. by apply same_view_dirtier.
Qed.

Lemma vote_contract_law `{NodeEnv} `{!Homes} `{!KeyHashInj} `{!Boost} conserving c base word start :
  VoteInfoAddress ∈ homes -> 0 <= base -> 0 <= word -> contract_law conserving (linear base word (vote_executor c) start).
Proof.
  intros Hh Hb Hw. split; cbn.
  - intros d. assert (0 <= (Rlp.len d + 31) / 32) by (apply Z.div_pos; unfold Rlp.len; lia). nia.
  - intros d a s s' r I Ha Hd E. destruct (vote_law Hh s conserving c d a s' r I Ha Hd E) as (S & Hf & Hn). split_and!; [done|done|].
    intros out Ho. by apply Hn in Ho.
Qed.

(** ** The main network *)

Section Main.
Context `{NodeEnv} `{!Homes} `{!KeyHashInj} `{!Recover} `{!Boost}.
Context (sha256 ripemd160 : list Z -> list Z).

Lemma mainNetwork_laws conserving chainID others :
  VoteInfoAddress ∈ homes -> ContractLaws conserving (mkParams chainID others) ->
  ContractLaws conserving (mkParams chainID (mainNetwork sha256 ripemd160 others)).
Proof.
  intros Hh Ho a pc. cbn [cp_precompiled]. unfold mainNetwork. rewrite lookup_union_Some_raw. intros [Hpc|[_ Hpc]]; [|by eapply Ho].
  apply elem_of_list_to_map_2 in Hpc.
  repeat (apply elem_of_cons in Hpc as [Hpc|Hpc]; [injection Hpc as -> ->; (by apply computes_law) || (by apply vote_contract_law)|]).
  by apply elem_of_nil in Hpc.
Qed.
End Main.
