(* ===== verification/ExecStart.v ===== *)
(** * The start of a call or a creation

    From the state at the savepoint, a call or a creation ends with nothing to run, or it leaves an
    externality object of a contract whose account is there. *)

From stdpp Require Import gmap sorting.
From S2P Require Import Prelude Words Exn EthState EthStateInv EthCommit EthRollback EthLedger Ledger.
From S2P Require Import VoteStore ExecState ExecOps ExecSteps Transaction Executive ExecLaws.

#[local] Open Scope Z_scope.

Lemma on_state_eq {A} (m : M State A) w s r : m (w_s w) = (s, r) -> on_state m w = (mkWorld s (w_e w), r).
Proof. intros E. unfold on_state. by rewrite E. Qed.

Lemma bind_state {A B} (m : M State A) (k : A -> M World B) w s a :
  m (w_s w) = (s, inl a) -> (on_state m ≫= k) w = k a (mkWorld s (w_e w)).
Proof. intros E. by apply bind_inl, on_state_eq. Qed.

Lemma bind_upd {B} f (k : unit -> M World B) w : (upd f ≫= k) w = k tt (mkWorld (w_s w) (f (w_e w))).
Proof. done. Qed.

Lemma bind_get_e {B} (k : Executive -> M World B) w : (get_e ≫= k) w = k (w_e w) w.
Proof. done. Qed.

Lemma bind_bind {S A B C} (m : M S A) (k : A -> M S B) (h : B -> M S C) s :
  ((m ≫= k) ≫= h) s = (m ≫= (fun a => k a ≫= h)) s.
Proof. unfold mbind, M_bind. by destruct (m s) as [s' [a|e]]. Qed.

(** An executive that has done nothing *)
Definition fresh_exec (e : Executive) : Prop :=
  e_ext e = None /\ e_excepted e = TE_None /\ e_isCreation e = false /\ e_gas e = 0.

(** The members that the transaction set *)
Definition kept (e e' : Executive) : Prop :=
  e_t e' = e_t e /\ e_depth e' = e_depth e /\ (e_res e' = None <-> e_res e = None).

Lemma kept_trans e1 e2 e3 : kept e1 e2 -> kept e2 e3 -> kept e1 e3.
Proof. intros (? & ? & ?) (? & ? & ?). split_and!; [congruence|congruence|tauto]. Qed.

Section Start.
Context `{NodeEnv} `{!Homes} (conserving : bool) (env : EnvInfo) (cp : ChainOperationParams).
Abbreviation step := (step conserving).
Abbreviation sane := (sane conserving).

(** The contract is not the account of the votes, or it is and has its code *)
Definition away (x : ExtVM) (creation : bool) : Prop :=
  conserving = true -> ext_myAddress x <> VoteInfoAddress \/ (creation = false /\ ext_code x = idle_code).

Record started (gas : Z) (e : Executive) (s0 : State) (w : World) (ended : bool) : Prop := {
  st_step : step s0 (w_s w);
  st_kept : kept e (w_e w);
  st_save : e_savepoint (w_e w) = length (m_changeLog s0);
  st_gas : 0 <= e_gas (w_e w) <= gas;
  st_end : ended = true -> e_ext (w_e w) = None /\ (e_excepted (w_e w) <> TE_None -> same_view s0 (w_s w));
  st_run : ended = false -> e_excepted (w_e w) = TE_None /\ exists x, e_ext (w_e w) = Some x /\
    ext_sub x = sub_clear /\ ext_depth x = e_depth e /\ away x (e_isCreation (w_e w)) /\
    if e_isCreation (w_e w) then creating (w_s w) (ext_myAddress x) else live (w_s w) (ext_myAddress x)
}.

(** The outcome of a start *)
Definition starts (gas : Z) (e : Executive) (s0 : State) (o : World * (bool + exn)) : Prop :=
  step s0 (w_s o.1) /\ o.2 <> inr out_of_fuel /\ forall b, o.2 = inl b -> started gas e s0 o.1 b.

Context `{Laws : !ContractLaws conserving cp}.

Lemma precompiled_law a n pc : precompiled_at cp a n = Some pc -> contract_law conserving pc.
Proof.
  unfold precompiled_at. destruct (cp_precompiled cp !! a) as [pc'|] eqn:E; [|done].
  case_decide; [|done]. intros [= <-]. by eapply Laws.
Qed.

Lemma has_code_live s a x : acct s a = Some x -> m_codeHash x <> EmptySHA3 -> live s a.
Proof.
  intros Hx Hc. exists x. split_and!; [done| |by left]. intros [_ He]. unfold isEmpty in He.
  rewrite (bool_decide_false (m_codeHash x = EmptySHA3)), andb_false_r in He by done. done.
Qed.

(** Before the payment of a call *)
Record ready (gas : Z) (e : Executive) (s0 : State) (w : World) : Prop := {
  rd_step : step s0 (w_s w);
  rd_kept : kept e (w_e w);
  rd_save : e_savepoint (w_e w) = length (m_changeLog s0);
  rd_gas : 0 <= e_gas (w_e w) <= gas;
  rd_excepted : e_excepted (w_e w) = TE_None;
  rd_creation : e_isCreation (w_e w) = false;
  rd_ext : e_ext (w_e w) = None \/ exists x, e_ext (w_e w) = Some x /\
    ext_sub x = sub_clear /\ ext_depth x = e_depth e /\ away x false /\ live (w_s w) (ext_myAddress x)
}.

(** The last lines of call *)
Lemma pay_starts gas e s0 w from to v :
  ready gas e s0 w -> is_u256 v ->
  starts gas e s0 ((on_state (transferBalance from to v);; e ← get_e; mret (bool_decide (e_ext e = None))) w).
Proof.
  intros R Hv. pose proof (step_sane conserving _ _ (rd_step _ _ _ _ R)) as I.
  destruct (transfer_step conserving (w_s w) from to v I Hv) as (s' & r & E & S & Hr).
  pose proof (step_trans conserving _ _ _ (rd_step _ _ _ _ R) S) as S0.
  destruct Hr as [(-> & _)| ->].
  2: { unfold mbind at 1, M_bind. rewrite (on_state_eq _ w s' _ E). split_and!; [done|done|by intros]. }
  rewrite (bind_state _ _ w s' tt E), bind_get_e. split_and!; [done|done|]. intros b [= <-]. cbn [w_e w_s fst].
  destruct R as [_ K Sv G X C [Ee|(x & Ee & Hsub & Hd & Ha & Hl)]]; (split; cbn; [done|done|done|done| |]); rewrite Ee.
  - intros _. split; [done|]. by rewrite X.
  - by rewrite bool_decide_true.
  - by rewrite bool_decide_false.
  - intros _. split; [done|]. exists x. rewrite C. split_and!; [done|done|done|done|]. by apply (step_live conserving (w_s w) s').
Qed.

(** What comes before the payment *)
Definition prepares (gas : Z) (e : Executive) (s0 : State) (o : World * (bool + exn)) : Prop :=
  step s0 (w_s o.1) /\ o.2 <> inr out_of_fuel /\
  (o.2 = inl true -> started gas e s0 o.1 true) /\ (o.2 = inl false -> ready gas e s0 o.1).

Lemma precompiled_prepares pc p s0 e :
  sane s0 -> fresh_exec e -> contract_law conserving pc -> (conserving = true -> is_address (senderAddress p)) ->
  0 <= call_gas p -> Forall is_byte (call_data p) ->
  prepares (call_gas p) e s0 (call_precompiled pc p (mkWorld s0 (set_savepoint (length (m_changeLog s0)) e))).
Proof.
  intros I (Fx & Fe & Fc & Fg) [Hc Hr] Hs Hg Hd. unfold call_precompiled. case_decide as Hlt.
  { rewrite bind_upd. cbn [w_s w_e]. destruct (addBalance_step conserving s0 (codeAddress p) I) as (s' & E & S & V).
    rewrite (bind_state _ _ (mkWorld s0 _) s' tt E). split_and!; [done|done| |done]. intros _.
    split; cbn; [done|done|done|rewrite Fg; lia|done|done]. }
  rewrite bind_upd. cbn [w_s w_e]. unfold on_state. unfold mbind at 1, M_bind; cbn [w_s w_e].
  destruct (pc_execute pc (call_data p) (senderAddress p) s0) as [s' r] eqn:E.
  destruct (Hr _ _ _ _ _ I Hs Hd E) as (S & Hf & V). specialize (Hc (call_data p)).
  pose proof (Z.mod_pos_bound (call_gas p - pc_cost pc (call_data p)) (2 ^ 256) ltac:(lia)) as B1.
  pose proof (Z.mod_le (call_gas p - pc_cost pc (call_data p)) (2 ^ 256) ltac:(lia) ltac:(lia)) as B2.
  destruct r as [[ok out]|ex]; [|split_and!; [done|by intros [= ->]|done|done]].
  unfold mbind, M_bind. destruct ok; cbn; (split_and!; [done|done| |]); intros [= ]; split; cbn; try done.
  - unfold u256. lia.
  - by left.
  - intros _. split; [done|]. intros _. by eapply V.
Qed.

Lemma hasCode_step s a :
  sane s -> exists s' b, addressHasCode a s = (s', inl b) /\ step s s' /\ (b = true -> live s' a) /\
    (b = false -> forall x, acct s' a = Some x -> m_codeHash x = EmptySHA3).
Proof.
  intros I. unfold addressHasCode.
  destruct (query_safe s a (fun x => bool_decide (m_codeHash x <> EmptySHA3)) false I) as (s' & E & U & Si).
  eexists s', _. split; [exact E|]. split; [apply step_dirtier; [done|done|by apply sim_dirtier]|].
  destruct (acct s' a) as [x|] eqn:Ex; [|done]. split.
  - intros Hb. apply (has_code_live s' a x); [done|]. by apply bool_decide_eq_true in Hb.
  - intros Hb ? [= <-]. apply bool_decide_eq_false in Hb. by apply dec_stable.
Qed.

Lemma code_prepares p gasPrice origin s0 e :
  sane s0 -> fresh_exec e -> 0 <= call_gas p ->
  receiveAddress p = codeAddress p \/ live s0 (receiveAddress p) /\ (conserving = true -> receiveAddress p <> VoteInfoAddress) ->
  prepares (call_gas p) e s0 (call_code p gasPrice origin (mkWorld s0 (set_savepoint (length (m_changeLog s0)) e))).
Proof.
  intros I (Fx & Fe & Fc & Fg) Hg Hl. unfold call_code. rewrite bind_upd. cbn [w_s w_e].
  destruct (hasCode_step s0 (codeAddress p) I) as (s1 & b & E1 & S1 & L1 & _). rewrite (bind_state _ _ (mkWorld s0 _) s1 b E1).
  destruct b. 2: { split_and!; [done|done|done|]. intros _. split; cbn; try done. by left. }
  destruct (code_safe s1 (codeAddress p) (step_inv _ _ _ S1)) as (s2 & E2 & U2 & D2). cbn [w_e].
  rewrite (bind_state _ _ (mkWorld s1 _) s2 _ E2).
  pose proof (step_dirtier conserving _ _ (step_sane _ _ _ S1) U2 D2) as S2.
  destruct (query_safe s2 (codeAddress p) m_codeHash EmptySHA3 (step_inv _ _ _ S2)) as (s3 & E3 & U3 & D3).
  cbn [w_e]. unfold codeHash. rewrite (bind_state _ _ (mkWorld s2 _) s3 _ E3), bind_upd. cbn [w_s w_e].
  pose proof (step_trans _ _ _ _ S2 (step_dirtier conserving _ _ (step_sane _ _ _ S2) U3 (sim_dirtier _ _ D3))) as S3.
  pose proof (step_trans _ _ _ _ S1 S3) as S. split_and!; [done|done|done|]. intros _. split; cbn; try done.
  right. eexists. split_and!; [reflexivity|done|done| |].
  { intros Hc. cbn. destruct Hl as [->|[_ Hl]]; [|left; by apply Hl].
    destruct (decide (codeAddress p = VoteInfoAddress)) as [Ea|Hn]; [|by left]. right. split; [done|].
    rewrite Ea. by apply (step_sane _ _ _ S1). }
  cbn. destruct Hl as [->|[Hl _]].
  - apply (step_live _ _ _ _ S3). by apply L1.
  - by apply (step_live _ _ _ _ S).
Qed.

(** A call, from the state at its savepoint *)
Lemma call_starts p gasPrice origin s e s0 :
  (if is_tx (e_t e) && bool_decide (senderAddress p <> MaxAddress)
   then incNonce (senderAddress p) s = (s0, inl tt) else s0 = s) ->
  sane s0 -> fresh_exec e -> is_u256 (valueTransfer p) -> 0 <= call_gas p -> Forall is_byte (call_data p) ->
  (conserving = true -> is_address (senderAddress p)) ->
  receiveAddress p = codeAddress p \/ live s0 (receiveAddress p) /\ (conserving = true -> receiveAddress p <> VoteInfoAddress) ->
  starts (call_gas p) e s0 (call env cp p gasPrice origin (mkWorld s e)).
Proof.
  intros E0 I F Hv Hg Hd Hs Hl. unfold call. rewrite bind_get_e. cbn [w_e].
  assert (E : ((if is_tx (e_t e) && bool_decide (senderAddress p <> MaxAddress)
     then on_state (incNonce (senderAddress p)) else mret tt) : M World unit) (mkWorld s e) = (mkWorld s0 e, inl tt)).
  { destruct (_ && _); [by apply (on_state_eq _ (mkWorld s e))|by subst]. }
  rewrite (bind_inl _ _ _ _ _ E), (bind_state _ _ (mkWorld s0 e) s0 (length (m_changeLog s0))), bind_upd by done. cbn [w_s w_e].
  assert (P : prepares (call_gas p) e s0 ((match precompiled_at cp (codeAddress p) (env_number env) with
     | Some pc => call_precompiled pc p | None => call_code p gasPrice origin end)
     (mkWorld s0 (set_savepoint (length (m_changeLog s0)) e)))).
  { destruct (precompiled_at cp (codeAddress p) (env_number env)) as [pc|] eqn:Ep.
    - apply precompiled_prepares; try done. by eapply precompiled_law.
    - by apply code_prepares. }
  revert P. generalize (match precompiled_at cp (codeAddress p) (env_number env) with
     | Some pc => call_precompiled pc p | None => call_code p gasPrice origin end). intros m P.
  unfold mbind at 1, M_bind. destruct (m _) as [w [[]|ex]]; destruct P as (S & Hf & Ht & Hr); cbn in *.
  - split_and!; [done|done|]. intros b [= <-]. by apply Ht.
  - apply pay_starts; auto.
  - split_and!; [done|by intros [= ->]|done].
Qed.

(** ** Creations *)

(** Nothing guards the address: no storage is below it *)
Lemma unguarded_root s a :
  inv s -> (forall x, acct s a = Some x -> m_codeHash x = EmptySHA3) -> ~ 0 < nonce_at s a -> root_in (m_state s) a = ∅.
Proof.
  intros I Hc Hn. unfold nonce_at in Hn. destruct (acct s a) as [x|] eqn:Ex; [|by apply root_none].
  destruct (decide (root_in (m_state s) a = ∅)) as [|Hr]; [done|].
  pose proof (inv_nonces s I a x Ex) as [? _]. destruct (inv_guard s I a x Ex Hr) as [G|G]; [by destruct G; apply Hc|lia].
Qed.

Lemma revert_starts gas e s0 w :
  sane s0 -> step s0 (w_s w) -> kept e (w_e w) -> e_savepoint (w_e w) = length (m_changeLog s0) -> 0 <= gas ->
  starts gas e s0 ((upd (set_gas 0);; upd (set_excepted TE_AddressAlreadyUsed);; revert;; upd (set_ext None);; mret true) w).
Proof.
  intros I [U _] K Sv Hg. unfold revert, upd_sub. rewrite !bind_upd, bind_bind, bind_upd, bind_bind, bind_upd, bind_bind, bind_get_e.
  cbn [w_s w_e e_savepoint set_newAddress set_ext set_excepted set_gas].
  destruct (safe_rollback s0 (w_s w) U I) as (s2 & E & D & U2). rewrite Sv.
  rewrite (bind_state _ _ (mkWorld (w_s w) _) s2 tt E), bind_upd. cbn [w_s w_e].
  pose proof (step_dirtier conserving _ _ I U2 D) as S. split_and!; [done|done|]. intros b [= <-].
  split; cbn; try done. intros _. split; [done|]. intros _. by apply same_view_dirtier.
Qed.

(** The account of the new contract is made *)
Lemma create_starts gas e s0 w from endowment origin gasPrice init :
  step s0 (w_s w) -> kept e (w_e w) -> e_savepoint (w_e w) = length (m_changeLog s0) -> 0 <= e_gas (w_e w) <= gas ->
  e_isCreation (w_e w) = true -> e_excepted (w_e w) = TE_None -> e_ext (w_e w) = None -> is_u256 endowment ->
  root_in (m_state (w_s w)) (e_newAddress (w_e w)) = ∅ ->
  (conserving = true -> e_newAddress (w_e w) <> VoteInfoAddress) ->
  starts gas e s0
   ((on_state (transferBalance from (e_newAddress (w_e w)) endowment);;
    start ← on_state requireAccountStartNonce;
    on_state (setNonce (e_newAddress (w_e w)) (u256 (start + 1)));;
    if decide (init <> []) then
      upd (fun e' => set_ext (Some (mkExt (e_newAddress (w_e w)) from origin endowment gasPrice [] init (sha3 init)
        sub_clear (e_depth e') false)) e');;
      mret false
    else mret true) w).
Proof.
  intros S K Sv G C X Ee Hv Hr Ha. set (a := e_newAddress (w_e w)) in *.
  destruct (transfer_step conserving (w_s w) from a endowment (step_sane _ _ _ S) Hv) as (s1 & r & E1 & S1 & Ho).
  pose proof (step_trans _ _ _ _ S S1) as S01. destruct Ho as [(-> & Hd)| ->].
  2: { unfold mbind at 1, M_bind. rewrite (on_state_eq _ w s1 _ E1). split_and!; [done|done|by intros]. }
  rewrite (bind_state _ _ w s1 tt E1). pose proof (step_inv _ _ _ S1) as I1.
  pose proof (inv_nonce s1 I1) as [Hn Hi]. set (start := m_accountStartNonce s1) in *.
  assert (En : requireAccountStartNonce s1 = (s1, inl start)).
  { unfold requireAccountStartNonce, mbind, M_bind, get_st. by rewrite decide_False. }
  rewrite (bind_state _ _ (mkWorld s1 _) s1 start En). cbn [w_s w_e].
  assert (Hz : u256 (start + 1) <> 0).
  { unfold u256. rewrite Z.mod_small; unfold is_word, Invalid256 in *; lia. }
  destruct (setNonce_safe s1 a (u256 (start + 1)) I1 Hd (u256_range _) Hz) as (s2 & E2 & U2 & C2 & B2).
  rewrite (bind_state _ _ (mkWorld s1 _) s2 tt E2). cbn [w_s w_e].
  assert (S2 : step s1 s2).
  { apply step_contracts; [by apply (step_sane _ _ _ S1)|done|done|]. intros _. rewrite (supply_same s1 s2 B2). lia. }
  pose proof (step_trans _ _ _ _ S01 S2) as S02.
  assert (Cr : creating s2 a).
  { apply (creating_sound s1 s2 a (step_sound _ _ _ S2)). split; [done|].
    by rewrite (so_state _ _ (step_sound _ _ _ S1)). }
  case_decide; [rewrite bind_upd; cbn [w_s w_e]|]; (split_and!; [done|done|]); intros b [= <-]; split; cbn; try done.
  - intros _. split; [done|]. eexists. split_and!; [reflexivity|done|by destruct K as (_ & ? & _)| |by rewrite C].
    intros Hc. left. by apply Ha.
Qed.

Lemma starts_kept gas e e' s0 o : kept e e' -> starts gas e' s0 o -> starts gas e s0 o.
Proof.
  intros K (S & Hf & St). split_and!; [done|done|]. intros b Hb. destruct (St b Hb) as [? K' ? ? ? R].
  split; [done|by eapply kept_trans|done|done|done|]. intros Hr. destruct (R Hr) as (? & x & ? & ? & Hd & ? & ?).
  split; [done|]. exists x. split_and!; [done|done|by destruct K as (_ & <- & _)|done|done].
Qed.

Lemma executeCreate_starts from endowment gasPrice gas init origin s e s0 :
  (if decide (from <> MaxAddress) then incNonce from s = (s0, inl tt) else s0 = s) ->
  sane s0 -> fresh_exec e -> is_u256 endowment -> 0 <= gas ->
  starts gas e s0 (executeCreate from endowment gasPrice gas init origin (mkWorld s e)).
Proof.
  intros E0 I (Fx & Fe & Fc & Fg) Hv Hg. unfold executeCreate.
  assert (E : ((if decide (from <> MaxAddress) then on_state (incNonce from) else mret tt) : M World unit) (mkWorld s e)
    = (mkWorld s0 e, inl tt)).
  { case_decide; [by apply (on_state_eq _ (mkWorld s e))|by subst]. }
  rewrite (bind_inl _ _ _ _ _ E), (bind_state _ _ (mkWorld s0 e) s0 (length (m_changeLog s0))), !bind_upd, bind_get_e by done.
  cbn [w_s w_e]. set (e1 := set_gas gas _). set (a := e_newAddress e1).
  destruct (hasCode_step s0 a I) as (s1 & b & E1 & S1 & _ & Hc). rewrite (bind_state _ _ (mkWorld s0 e1) s1 b E1). cbn [w_e].
  destruct b.
  - unfold mbind at 1, M_bind. cbn. by apply (revert_starts gas e s0 (mkWorld s1 e1)).
  - destruct (getNonce_safe s1 a (step_inv _ _ _ S1)) as (s2 & E2 & U2 & D2).
    rewrite bind_bind, (bind_state _ _ (mkWorld s1 e1) s2 _ E2). unfold mbind at 1, M_bind; cbn.
    pose proof (step_dirtier conserving _ _ (step_sane _ _ _ S1) U2 D2) as S2. pose proof (step_trans _ _ _ _ S1 S2) as S.
    case_bool_decide as Hn; [by apply (revert_starts gas e s0 (mkWorld s2 e1))|].
    apply (create_starts gas e s0 (mkWorld s2 e1)); try done; cbn.
    + rewrite (so_state _ _ (step_sound _ _ _ S2)). apply unguarded_root; [by eapply step_inv|by apply Hc|done].
    + intros Ht Ea. change (a = VoteInfoAddress) in Ea. pose proof (sane_vault _ _ (step_sane _ _ _ S1) Ht) as V. unfold vault, code_at in V.
      rewrite <-Ea in V. destruct (acct s1 a) as [x|] eqn:Ex; [|done].
      unfold code_of in V. by rewrite decide_True in V by by apply Hc.
Qed.

Lemma createOpcode_starts (Q : State -> Prop) from endowment gasPrice gas init origin s e :
  sane s -> fresh_exec e -> is_u256 endowment -> 0 <= gas ->
  (forall s1, safe s s1 -> dirtier s s1 -> exists s0,
     (if decide (from <> MaxAddress) then incNonce from s1 = (s0, inl tt) else s0 = s1) /\ sane s0 /\ Q s0) ->
  exists s0, Q s0 /\ starts gas e s0 (createOpcode from endowment gasPrice gas init origin (mkWorld s e)).
Proof.
  intros I F Hv Hg Hi. unfold createOpcode. destruct (getNonce_safe s from I) as (s1 & E1 & U1 & D1).
  rewrite (bind_state _ _ (mkWorld s e) s1 _ E1). cbn [w_e]. destruct (Hi s1 U1 D1) as (s0 & E0 & I0 & HQ).
  assert (Hn : is_u256 (nonce_at s from)).
  { unfold nonce_at. destruct (acct s from) as [x|] eqn:Ex; [by eapply (inv_nonces s I)|apply (inv_nonce s I)]. }
  destruct (rlpList_ok from _ Hn) as (l & El). exists s0. split; [done|]. unfold lift. rewrite El.
  unfold mbind at 1, M_bind. rewrite bind_upd. cbn [w_s w_e]. eapply starts_kept; [|by apply executeCreate_starts].
  by split_and!.
Qed.

Lemma create2Opcode_starts from endowment gasPrice gas init origin salt s e s0 :
  (if decide (from <> MaxAddress) then incNonce from s = (s0, inl tt) else s0 = s) ->
  sane s0 -> fresh_exec e -> is_u256 endowment -> 0 <= gas ->
  starts gas e s0 (create2Opcode from endowment gasPrice gas init origin salt (mkWorld s e)).
Proof.
  intros E0 I F Hv Hg. unfold create2Opcode. rewrite bind_upd. cbn [w_s w_e].
  eapply starts_kept; [|by apply executeCreate_starts]. by split_and!.
Qed.

(** A contract that runs counts its creations *)
Lemma incNonce_step s a :
  sane s -> live s a -> exists s0, (if decide (a <> MaxAddress) then incNonce a s = (s0, inl tt) else s0 = s) /\
    sane s0 /\ step s s0.
Proof.
  intros I L. case_decide; [|exists s; by split_and!; [|done|apply step_refl]].
  pose proof L as (x & Hx & _ & Hc).
  destruct (incNonce_sound s a I) as (s0 & E & So & C & B & _ & U); [naive_solver|].
  assert (S : step s s0).
  { apply step_contracts; [done|by apply U, live_settled|done|]. intros _. rewrite (supply_same s s0 B). lia. }
  exists s0. split_and!; [done|by eapply step_sane|done].
Qed.
End Start.
