(* ===== verification/ExecRun.v ===== *)
(** * A contract at work

    The calls of the machine and the run of the executive, from the savepoint on: the state stays
    sound, the gas does not grow, an execution that fails leaves the state as it was at the
    savepoint, and the depth of 1024 bounds the calls. *)

From stdpp Require Import gmap sorting.
From S2P Require Import Prelude Words Exn Rlp EthState EthStateInv EthCommit EthRollback.
From S2P Require Import EthLedger ExecState ExecOps ExecSteps Transaction Executive ExecLaws.
From S2P Require Import Ledger VoteStore ExecStart.

#[local] Open Scope Z_scope.

Section Run.
Context `{NodeEnv} `{!Homes} (conserving : bool) (env : EnvInfo) (cp : ChainOperationParams).
Context `{Laws : !ContractLaws conserving cp}.
Abbreviation step := (step conserving).
Abbreviation sane := (sane conserving).
Abbreviation started := (started conserving).
Abbreviation starts := (starts conserving).

(** The executive [e], with what the machine has put in the substate *)
Definition in_machine (e : Executive) (x : ExtVM) (e' : Executive) : Prop :=
  exists sub, e' = set_ext (Some (set_sub sub x)) e.

(** The end of a run of an executive *)
Definition goes (enough : Prop) (gas : Z) (e : Executive) (s0 : State) (o : World * (bool + exn)) : Prop :=
  step s0 (w_s o.1) /\ (forall ex, o.2 = inr ex -> fatal ex = true /\ (enough -> ex <> out_of_fuel)) /\
  forall b, o.2 = inl b -> kept e (w_e o.1) /\ 0 <= e_gas (w_e o.1) <= gas /\
    (e_excepted (w_e o.1) <> TE_None -> same_view s0 (w_s o.1) /\ ext_sub <$> e_ext (w_e o.1) = Some sub_clear).

Definition go_ok (enough : Prop) (depth : Z) (m : M World bool) : Prop :=
  forall gas e s0 w, e_depth e = depth -> sane s0 -> started gas e s0 w false -> goes enough gas e s0 (m w).

(** ** The calls of the machine *)

Section Handle.
Context (enough : Prop) (nested : M World bool) (x : ExtVM) (e : Executive).
Context (Hnested : ext_depth x < 1024 -> go_ok enough (ext_depth x + 1) nested).

Definition handled {A} (s : State) (gas : Z) (back : A -> Z) (o : World * (A + exn)) : Prop :=
  step s (w_s o.1) /\ in_machine e x (w_e o.1) /\ (enough -> o.2 <> inr out_of_fuel) /\
  forall a, o.2 = inl a -> 0 <= back a <= gas.

Lemma on_state_handled {A} (m : M State A) s s' r e' :
  in_machine e x e' -> m s = (s', r) -> step s s' -> r <> inr out_of_fuel ->
  handled s 0 (fun _ => 0) (on_state m (mkWorld s e')).
Proof. intros Hm E S Hf. rewrite (on_state_eq m (mkWorld s e') s' r E). by split_and!. Qed.

Lemma upd_sub_handled f s e' :
  sane s -> in_machine e x e' -> handled s 0 (fun _ => 0) (upd_sub f (mkWorld s e')).
Proof. intros I [sub ->]. split_and!; [by apply step_refl|by exists (f sub)|done|done]. Qed.

Lemma inner_handled gas start s s0 e' :
  in_machine e x e' -> ext_depth x < 1024 -> sane s0 -> step s s0 ->
  starts gas (new_executive None (ext_depth x + 1)) s0 (start (mkWorld s (new_executive None (ext_depth x + 1)))) ->
  handled s gas (fun r => e_gas r.2) (run_inner nested (ext_depth x + 1) start (mkWorld s e')).
Proof.
  intros Hm Hd I0 S Hs. unfold run_inner, with_executive. cbn [w_s w_e].
  set (e1 := new_executive None (ext_depth x + 1)) in *.
  destruct Hs as (S1 & Hf & St). unfold mbind at 1, M_bind.
  destruct (start (mkWorld s e1)) as [w [b|ex]]; cbn in S1, Hf, St; pose proof (step_trans _ _ _ _ S S1) as S2.
  2: { split_and!; [done|done|by intros _ [= ->]|done]. }
  specialize (St b eq_refl). destruct b.
  - split_and!; [done|done|done|]. intros a [= <-]. apply St.
  - destruct (Hnested Hd gas e1 s0 w ltac:(done) I0 St) as (S3 & Hx & Hr). unfold mbind, M_bind.
    destruct (nested w) as [w' [b|ex]]; cbn in *; pose proof (step_trans _ _ _ _ S S3) as S4.
    + split_and!; [done|done|done|]. intros a [= <-]. by destruct (Hr b eq_refl) as (_ & ? & _).
    + split_and!; [done|done| |done]. intros He [= ->]. by apply (proj2 (Hx _ eq_refl)).
Qed.

Lemma accrue_handled {A} s gas (f : option SubState * Executive -> A) (back : A -> Z) (m : M World (option SubState * Executive)) w :
  handled s gas (fun r => e_gas r.2) (m w) -> (forall r, back (f r) = e_gas r.2) ->
  handled s gas back ((r ← m; accrueSubState r.1;; mret (f r)) w).
Proof.
  intros (S & M & Hf & B) E. unfold mbind at 1, M_bind. destruct (m w) as [w' [r|ex]]; cbn in *.
  - specialize (B r eq_refl). destruct r as [[sub|] e']; cbn in *.
    + destruct M as [sub' M]. unfold accrueSubState, upd_sub. rewrite bind_upd. split_and!; [done| |done|].
      * exists (sub_add sub' sub). cbn. by rewrite M.
      * intros a [= <-]. by rewrite E.
    + split_and!; [done|done|done|]. intros a [= <-]. by rewrite E.
  - split_and!; [done|done| |done]. intros He [= ->]. by apply Hf.
Qed.

Lemma call_handled p s e' :
  sane s -> in_machine e x e' -> live s (ext_myAddress x) -> op_ok (ext_myAddress x) (ext_depth x) (op_call p) ->
  (conserving = true -> is_address (senderAddress p) /\ ext_myAddress x <> VoteInfoAddress) ->
  0 <= call_gas p -> handled s (call_gas p) snd (ext_call env cp nested x p (mkWorld s e')).
Proof.
  intros I M L (Hd & Hv & Hb & Hr) Ha Hg. apply accrue_handled; [|done]. apply (inner_handled _ _ s s); try done; [by apply step_refl|].
  apply call_starts; try done; [intros Hc; by apply Ha|]. destruct Hr as [?| ->]; [by left|right]. split; [done|].
  intros Hc. by apply Ha.
Qed.

Lemma create_handled endowment gas init create2 salt s e' :
  sane s -> in_machine e x e' -> live s (ext_myAddress x) -> ext_depth x < 1024 -> is_u256 endowment -> 0 <= gas ->
  handled s gas snd (ext_create nested x endowment gas init create2 salt (mkWorld s e')).
Proof.
  intros I M L Hd Hv Hg. apply accrue_handled; [|done].
  destruct (incNonce_step conserving s (ext_myAddress x) I L) as (s0 & E0 & I0 & S0). destruct create2.
  { apply (inner_handled _ _ s s0); try done. by apply create2Opcode_starts. }
  destruct (createOpcode_starts conserving (fun s1 => sane s1 /\ step s s1) (ext_myAddress x) endowment (ext_gasPrice x) gas init
    (ext_origin x) s (new_executive None (ext_depth x + 1)) I) as (s1 & (I1 & S1) & St); try done.
  { intros s1 U1 D1. pose proof (step_dirtier conserving _ _ I U1 D1) as S1.
    destruct (incNonce_step conserving s1 (ext_myAddress x) (step_sane _ _ _ S1) (step_live _ _ _ _ S1 L)) as (s2 & E2 & I2 & S2).
    exists s2. split_and!; [done|done|done|]. by eapply step_trans. }
  by apply (inner_handled _ _ s s1).
Qed.

Lemma suicide_handled a s e' :
  sane s -> in_machine e x e' -> handled s 0 (fun _ => 0) (ext_suicide x a (mkWorld s e')).
Proof.
  intros I M. destruct (suicide_safe s (ext_myAddress x) a I) as (s' & E & U & C & F).
  assert (E' : ext_suicide x a (mkWorld s e') = (on_state (suicide_state (ext_myAddress x) a);;
     upd_sub (fun s => mkSub ({[ext_myAddress x]} ∪ suicides s) (logs s) (refunds s))) (mkWorld s e')).
  { unfold ext_suicide, suicide_state, on_state, mbind, M_bind. cbn [w_s w_e].
    destruct (balance (ext_myAddress x) s) as [s1 [b|ex]]; cbn; [|done].
    destruct (addBalance a b s1) as [s2 [[]|ex]]; cbn; [|done].
    destruct (balance (ext_myAddress x) s2) as [s3 [b'|ex]]; cbn; [|done].
    by destruct (subBalance (ext_myAddress x) b' s3) as [s4 [[]|ex]]. }
  rewrite E', (bind_state _ _ (mkWorld s e') s' tt E). cbn [w_e].
  assert (S : step s s') by by apply step_contracts.
  destruct (upd_sub_handled (fun s => mkSub ({[ext_myAddress x]} ∪ suicides s) (logs s) (refunds s)) s' e' (step_sane _ _ _ S) M) as (_ & M' & Hf & B).
  by split_and!.
Qed.

Lemma query_handled {A} a (f : Account -> A) d s e' :
  sane s -> in_machine e x e' -> handled s 0 (fun _ => 0) (on_state (query a f d) (mkWorld s e')).
Proof.
  intros I M. destruct (query_safe s a f d I) as (s' & E & U & Si).
  apply (on_state_handled _ s s' _ e' M E); [|done]. apply step_dirtier; [done|done|by apply sim_dirtier].
Qed.

(** What a call must not do to the account of the votes *)
Definition calls_away {A : Set} (op : ext_op A) : Prop :=
  conserving = true -> (ext_myAddress x <> VoteInfoAddress \/ idle_op op) /\
    match op with op_call c => is_address (senderAddress c) | _ => True end.

Lemma handle_handled {A : Set} (op : ext_op A) s e' :
  sane s -> in_machine e x e' -> live s (ext_myAddress x) -> op_ok (ext_myAddress x) (ext_depth x) op -> calls_away op ->
  0 <= spent op ->
  handled s (spent op) (given_back op) (handle env cp nested x op (mkWorld s e')).
Proof.
  intros I M L Ho Ha Hg. destruct op; cbn in Ho, Hg; cbn [spent given_back handle].
  - destruct (storage_safe s (ext_myAddress x) n I Ho) as (s' & E & U & D).
    apply (on_state_handled _ s s' _ e' M E); [by apply step_dirtier|done].
  - destruct Ho as [Hk Hv]. destruct (setStorage_safe s (ext_myAddress x) n v I (live_here s _ L) Hk Hv) as (s' & E & U & B & C & _).
    apply (on_state_handled _ s s' _ e' M E); [|done]. apply (step_other _ (ext_myAddress x)); [done|done| |done|done].
    intros Hc. by destruct (Ha Hc) as [[?|[]] _].
  - by apply query_handled.
  - destruct (code_safe s a I) as (s' & E & U & D).
    apply (on_state_handled _ s s' _ e' M E); [by apply step_dirtier|done].
  - case_match; by apply query_handled.
  - by apply suicide_handled.
  - by apply upd_sub_handled.
  - by apply upd_sub_handled.
  - split_and!; [by apply step_refl|done| |done]. cbn. unfold blockHash.
    case_decide; [done|]. by case_match.
  - destruct (transfer_step conserving s (ext_myAddress x) a v I Ho) as (s' & r & E & S & R).
    apply (on_state_handled _ s s' _ e' M E); [done|]. by destruct R as [(-> & _)| ->].
  - apply call_handled; try done. intros Hc. by destruct (Ha Hc) as [[?|[]] ?].
  - destruct Ho. by apply create_handled.
Qed.

(** ** The run of the machine *)

(** What the whole program must not do *)
Definition keeps_away (p : vm_prog) : Prop :=
  conserving = true -> (ext_myAddress x <> VoteInfoAddress \/ idle p) /\ from_addresses p.

Lemma keeps_away_do {A : Set} (op : ext_op A) next :
  keeps_away (vm_do op next) -> calls_away op /\ (forall a, keeps_away (next (inl a))) /\
  forall e, fatal e = false -> keeps_away (next (inr e)).
Proof.
  intros K. split_and!; [intros Hc|intros a Hc|intros ex He Hc]; destruct (K Hc) as [Hn (Hs & Ha & He')]; (split; [|auto]).
  - destruct Hn as [?|[? _]]; auto.
  - destruct Hn as [?|[_ Hi]]; auto.
  - destruct Hn as [?|[_ Hi]]; auto.
Qed.

Lemma run_ok p : forall gas s e',
  sane s -> keeps_away p -> in_machine e x e' -> live s (ext_myAddress x) -> well_behaved (ext_myAddress x) (ext_depth x) p gas ->
  let o := run env cp nested x p (mkWorld s e') in
  step s (w_s o.1) /\ (forall ex, o.2 = inr ex -> fatal ex = true /\ (enough -> ex <> out_of_fuel)) /\
  (forall r, o.2 = inl r -> exists gas', 0 <= gas' <= gas /\ in_machine (set_gas gas' e) x (w_e o.1)).
Proof.
  induction p as [g out|g ex out|A op next IH]; intros gas s e' I K M L W; unfold well_behaved in W; cbn [behaves] in W.
  - destruct M as [sub ->]. split_and!; [by apply step_refl|done|]. intros r _. exists g. split; [done|]. by exists sub.
  - destruct M as [sub ->]. destruct W as [W _]. split_and!; [by apply step_refl|done|]. intros r _. exists g. split; [done|]. by exists sub.
  - destruct W as (Ho & [Hs Hsg] & Wl & Wr). cbn [run]. destruct (keeps_away_do op next K) as (Ka & Kl & Kr).
    destruct (handle_handled op s e' I M L Ho Ka Hs) as (S & M' & Hf & B).
    destruct (handle env cp nested x op (mkWorld s e')) as [w [a|ex]]; cbn [fst snd] in *.
    + specialize (B a eq_refl). destruct (IH (inl a) _ (w_s w) (w_e w) (step_sane _ _ _ S) (Kl _) M' (step_live _ _ _ _ S L) (Wl a B)) as (S' & Hx & R).
      replace w with (mkWorld (w_s w) (w_e w)) by by destruct w. split_and!; [by eapply step_trans|done|].
      intros r Hr. destruct (R r Hr) as (g & Hg & Mg). exists g. split; [lia|done].
    + destruct (fatal ex) eqn:Ef.
      * split_and!; [done| |done]. intros ? [= <-]. split; [done|]. intros He ->. by apply Hf.
      * destruct (IH (inr ex) _ (w_s w) (w_e w) (step_sane _ _ _ S) (Kr ex Ef) M' (step_live _ _ _ _ S L) (behaves_well _ _ _ _ _ (Wr ex Ef))) as (S' & Hx & R).
        replace w with (mkWorld (w_s w) (w_e w)) by by destruct w. split_and!; [by eapply step_trans|done|].
        intros r Hr. destruct (R r Hr) as (g & Hg & Mg). exists g. split; [lia|done].
Qed.
End Handle.

(** ** The run of the executive *)

(** After the machine has stopped *)
Definition stopped (gas : Z) (e : Executive) (s0 : State) (w : World) : Prop :=
  step s0 (w_s w) /\ kept e (w_e w) /\ e_savepoint (w_e w) = length (m_changeLog s0) /\
  0 <= e_gas (w_e w) <= gas /\ e_excepted (w_e w) = TE_None /\ exists y, e_ext (w_e w) = Some y.

Lemma stopped_step gas e s0 w s' : stopped gas e s0 w -> step (w_s w) s' -> stopped gas e s0 (mkWorld s' (w_e w)).
Proof. intros (S & R) S'. split; [by eapply step_trans|done]. Qed.

Lemma kept_res f e e' : kept e e' -> kept e (set_res (f <$> e_res e') e').
Proof. intros (? & ? & Hr). split_and!; [done|done|]. cbn. rewrite fmap_None. done. Qed.

Lemma stopped_res gas e s0 w f : stopped gas e s0 w -> stopped gas e s0 (mkWorld (w_s w) (set_res (f <$> e_res (w_e w)) (w_e w))).
Proof. intros (S & K & R). split_and!; [done|by apply kept_res|apply R..]. Qed.

Lemma stopped_gas gas e s0 w g : stopped gas e s0 w -> 0 <= g <= gas -> stopped gas e s0 (mkWorld (w_s w) (set_gas g (w_e w))).
Proof. intros (S & K & Sv & _ & R) Hg. split_and!; [done|done|done|cbn; lia..|apply R|apply R]. Qed.

Lemma deposit_stopped gas e s0 w x out :
  stopped gas e s0 w -> creating (w_s w) (ext_myAddress x) -> away conserving x true ->
  exists w' r, deposit env x out w = (w', inl r) /\ stopped gas e s0 w'.
Proof.
  intros R C Ha. unfold deposit, upd_res. rewrite bind_get_e, bind_upd. pose proof (stopped_res _ _ _ _ (set_res_deposit (e_gas (w_e w)) (Rlp.len out)) R) as R1.
  set (w1 := mkWorld _ _) in *. change (w_s w) with (w_s w1) in C. pose proof R as (_ & _ & _ & G & _).
  assert (St : forall out w, w_s w = w_s w1 -> stopped gas e s0 w -> exists w' r,
    (upd (fun e => set_res (set_res_output out <$> e_res e) e);; on_state (setCode (ext_myAddress x) out);;
     (mret None : M World (option (exn * list Z)))) w = (w', inl r) /\ stopped gas e s0 w').
  { intros out' w' Ew R'. rewrite bind_upd, <-Ew in *.
    destruct (setCode_safe (w_s w') (ext_myAddress x) out') as (s2 & E2 & U2 & B2 & C2); [by eapply step_inv; apply R'|done|].
    rewrite (bind_state _ _ (mkWorld (w_s w') _) s2 tt E2). cbn [w_s w_e]. eexists _, _. split; [reflexivity|].
    apply (stopped_step _ _ _ _ s2 (stopped_res _ _ _ _ (set_res_output out') R')).
    apply (step_other _ (ext_myAddress x)); [by eapply step_sane; apply R'|done| |done|done].
    intros Hc. by destruct (Ha Hc) as [?|[? _]]. }
  case_decide; [by eexists _, _|]. case_decide as Hg; [|case_match; [by eexists _, _|]].
  - rewrite !bind_upd. apply St; [done|]. apply (stopped_gas gas e s0 (mkWorld (w_s w1) _)); [by apply (stopped_res _ _ _ w1)|].
    assert (0 <= Rlp.len out * createDataGas (evmSchedule env)).
    { unfold Rlp.len. apply Z.mul_nonneg_nonneg; [lia|]. done. }
    unfold u256. pose proof (Z.mod_pos_bound (e_gas (w_e w) - Rlp.len out * createDataGas (evmSchedule env)) (2 ^ 256) ltac:(lia)).
    pose proof (Z.mod_le (e_gas (w_e w) - Rlp.len out * createDataGas (evmSchedule env)) (2 ^ 256) ltac:(lia) ltac:(lia)). lia.
  - rewrite bind_upd. apply St; [done|]. by apply (stopped_res _ _ _ w1).
Qed.

(** The handlers bring the state of the savepoint back *)
Lemma revert_ok s0 w y : sane s0 -> step s0 (w_s w) -> e_savepoint (w_e w) = length (m_changeLog s0) -> e_ext (w_e w) = Some y ->
  exists s', revert w = (mkWorld s' (set_newAddress 0 (set_ext (Some (set_sub sub_clear y)) (w_e w))), inl tt) /\
    step s0 s' /\ same_view s0 s'.
Proof.
  intros I [U _] Sv Ey. unfold revert, upd_sub. rewrite !bind_upd, bind_get_e. cbn [w_s w_e e_savepoint set_newAddress set_ext].
  destruct (safe_rollback s0 (w_s w) U I) as (s2 & E & D & U2). rewrite Sv, Ey.
  exists s2. split_and!; [by apply (on_state_eq _ (mkWorld (w_s w) _))|by apply step_dirtier|by apply same_view_dirtier].
Qed.

(** The assignment at the end of go *)
Definition keep_output (e : Executive) : Executive :=
  match e_output e with [] => e | out => set_res (set_res_output out <$> e_res e) e end.

Lemma keep_output_same e e' : kept e e' ->
  kept e (keep_output e') /\ e_gas (keep_output e') = e_gas e' /\ e_excepted (keep_output e') = e_excepted e' /\
  e_ext (keep_output e') = e_ext e'.
Proof. intros K. unfold keep_output. destruct (e_output e'); [done|]. split_and!; [by apply kept_res|done..]. Qed.

Lemma goes_end enough gas e s0 s e' :
  step s0 s -> kept e e' -> 0 <= e_gas e' <= gas ->
  (e_excepted e' <> TE_None -> same_view s0 s /\ ext_sub <$> e_ext e' = Some sub_clear) ->
  goes enough gas e s0 ((upd keep_output;; mret true) (mkWorld s e')).
Proof.
  intros S K G V. destruct (keep_output_same e e' K) as (K' & Eg & Ex & Ee). rewrite bind_upd.
  split_and!; [done|done|]. intros b _. cbn. by rewrite Eg, Ex, Ee.
Qed.

Lemma caught_ok enough gas e s0 w ex out :
  sane s0 -> stopped gas e s0 w -> goes enough gas e s0 ((caught ex out;; upd keep_output;; mret true) w).
Proof.
  intros I (S & K & Sv & G & X & y & Ey). destruct (revert_ok s0 w y I S Sv Ey) as (s' & E & S' & V).
  unfold caught. case_decide; [|destruct (is_VMException ex)].
  - rewrite !bind_bind, (bind_inl _ _ _ _ _ E), bind_bind, bind_upd. by apply goes_end.
  - rewrite !bind_bind, bind_upd, !bind_bind, bind_upd.
    destruct (revert_ok s0 (mkWorld (w_s w) (set_excepted (toTransactionException ex) (set_gas 0 (w_e w)))) y I S Sv Ey)
      as (s2 & E2 & S2 & V2).
    rewrite (bind_inl _ _ _ _ _ E2). apply goes_end; [done|done|cbn; lia|done].
  - unfold mbind, M_bind. split_and!; [done| |done]. cbn. by intros ? [= <-].
Qed.

(** The end of go, after the code has run *)
Lemma stopped_goes enough gas e s0 w (r : option (exn * list Z)) :
  sane s0 -> stopped gas e s0 w ->
  goes enough gas e s0 ((match r with Some (ex, out) => caught ex out | None => mret tt end;; upd keep_output;; mret true) w).
Proof.
  intros I R. destruct r as [[ex out]|]; [by apply caught_ok|].
  destruct R as (S & K & Sv & G & X & _). destruct w as [s e']. cbn in *.
  change (goes enough gas e s0 ((upd keep_output;; mret true) (mkWorld s e'))). by apply goes_end.
Qed.

Lemma goes_fatal {A} enough gas e s0 w ex (k : A -> M World bool) (m : M World A) w0 :
  m w0 = (w, inr ex) -> step s0 (w_s w) -> fatal ex = true -> (enough -> ex <> out_of_fuel) -> goes enough gas e s0 ((m ≫= k) w0).
Proof.
  intros E S Hx Hf. unfold mbind, M_bind. rewrite E. split_and!; [done| |done]. by intros ? [= <-].
Qed.

Context `{!VM} `{!VMLaw} (Vault : conserving = true -> VaultLaw).

Lemma machine_away gas x creation : 0 <= gas -> away conserving x creation -> keeps_away x (vm_exec gas x creation).
Proof.
  intros Hg Ha Hc. destruct (Vault Hc) as [Vi Vs]. split; [|by apply Vs].
  destruct (decide (ext_myAddress x = VoteInfoAddress)) as [E|Hn]; [right|by left].
  destruct (Ha Hc) as [?|[-> Hx]]; [done|by apply Vi].
Qed.

Lemma in_machine_refl e x : e_ext e = Some x -> ext_sub x = sub_clear -> in_machine e x e.
Proof.
  intros Ee Es. exists sub_clear. rewrite <-Es. destruct e, x; cbn in *. by rewrite Ee.
Qed.

Lemma stopped_in_machine gas e s0 e0 x g w :
  step s0 (w_s w) -> kept e e0 -> e_savepoint e0 = length (m_changeLog s0) -> e_excepted e0 = TE_None ->
  0 <= g <= gas -> in_machine (set_gas g e0) x (w_e w) -> stopped gas e s0 w.
Proof.
  intros S K Sv X [? ?] [sub E]. unfold stopped. rewrite E. split_and!; [done..|]. by eexists.
Qed.

Lemma go_body_ok enough depth nested :
  (depth < 1024 -> go_ok enough (depth + 1) nested) -> go_ok enough depth (go_body env cp nested).
Proof.
  intros Hn gas e s0 w Hd I0 [S K Sv G _ R]. destruct (R eq_refl) as (X & x & Ee & Es & Ed & Ha & L).
  destruct w as [s e0]. cbn [w_s w_e] in *. unfold go_body. rewrite bind_get_e. cbn [w_e]. rewrite Ee.
  pose proof (in_machine_refl e0 x Ee Es) as M. pose proof (step_sane _ _ _ S) as I.
  assert (Hn' : ext_depth x < 1024 -> go_ok enough (ext_depth x + 1) nested) by by rewrite Ed, Hd.
  assert (Lx : live s (ext_myAddress x)) by (destruct (e_isCreation e0); [by apply creating_live|done]).
  pose proof (run_ok enough nested x e0 Hn' (vm_exec (e_gas e0) x (e_isCreation e0)) (e_gas e0) s e0 I (machine_away _ _ _ (proj1 G) Ha) M Lx
    (vm_law _ _ _ (proj1 G))) as (S1 & Hx & Ho).
  change (fun e1 => match e_output e1 with [] => e1 | _ :: _ => set_res (set_res_output (e_output e1) <$> e_res e1) e1 end) with keep_output.
  destruct (run env cp nested x (vm_exec (e_gas e0) x (e_isCreation e0)) (mkWorld s e0)) as [w1 [o|ex]] eqn:E;
    cbn [fst snd] in *; pose proof (step_trans _ _ _ _ S S1) as S01.
  2: { destruct (Hx ex eq_refl) as (Hfa & Hfu). destruct (e_isCreation e0); rewrite bind_bind.
       - rewrite (bind_state _ _ (mkWorld s e0) s tt (clearStorage_creating _ _ I L)). cbn [w_e]. rewrite bind_bind. by eapply goes_fatal.
       - by eapply goes_fatal. }
  destruct (Ho o eq_refl) as (g & Hg & Mg).
  assert (R1 : stopped gas e s0 w1) by (eapply stopped_in_machine; [done|done|done|done| |done]; lia).
  destruct (e_isCreation e0); rewrite bind_bind.
  - rewrite (bind_state _ _ (mkWorld s e0) s tt (clearStorage_creating _ _ I L)). cbn [w_e].
    rewrite bind_bind, (bind_inl _ _ _ _ _ E). destruct o as [out|[ex out]]; [|by apply (stopped_goes _ _ _ _ _ (Some (ex, out)))].
    destruct (deposit_stopped gas e s0 w1 x out R1) as (w2 & r & E2 & R2).
    { by apply (creating_sound s (w_s w1) _ (step_sound _ _ _ S1)). }
    { done. }
    rewrite (bind_inl _ _ _ _ _ E2). by apply stopped_goes.
  - rewrite (bind_inl _ _ _ _ _ E). destruct o as [out|[ex out]]; [|by apply (stopped_goes _ _ _ _ _ (Some (ex, out)))].
    rewrite bind_bind, bind_upd. by apply (stopped_goes _ _ _ _ (mkWorld _ _) None).
Qed.

Lemma go_spec fuel : forall depth, depth <= 1024 -> go_ok (1025 <= Z.of_nat fuel + depth) depth (go env cp fuel).
Proof.
  induction fuel as [|fuel IH]; intros depth Hd.
  - intros gas e s0 w _ _ St. split_and!; [apply St| |done]. intros ex [= <-]. split; [done|]. lia.
  - cbn [go]. apply go_body_ok. intros Hl. replace (Z.of_nat (S fuel) + depth) with (Z.of_nat fuel + (depth + 1)) by lia.
    apply IH. lia.
Qed.
End Run.
