(* ===== verification/ExecTx.v ===== *)
(** * A transaction

    The checks before the execution, the payment of the gas, the execution and the end: what a
    transaction whose sender is known does to the state. *)

From stdpp Require Import gmap sorting.
From S2P Require Import Prelude Words Exn EthState EthStateInv EthCommit EthRollback EthLedger.
From S2P Require Import ExecState ExecOps ExecSteps Transaction Executive ExecLaws ExecStart.
From S2P Require Import Ledger VoteStore ExecRun.

#[local] Open Scope Z_scope.

Section Tx.
Context `{NodeEnv} `{!Homes} `{!Recover} (env : EnvInfo) (cp : ChainOperationParams).

(** ** The checks *)

(** A signature that the chain accepts *)
Definition signature_accepted (t : TransactionBase) : Prop :=
  hasZeroSignature t = false /\
  (forall vrs, t_vrs t = Some vrs -> sig_s vrs <= c_secp256k1n / 2) /\
  (t_chainId t = cp_chainID cp \/ t_chainId t = -4).

(** The gas that is asked for covers the price of the transaction, and the block has room for it *)
Definition gas_accepted (t : TransactionBase) : Prop :=
  baseGasRequired t (evmSchedule env) <= t_gas t /\ env_gasUsed env + t_gas t <= env_gasLimit env.

(** What the sender can pay, with the next of his nonces *)
Definition sender_accepted (s : State) (t : TransactionBase) (a : Z) : Prop :=
  t_nonce t = nonce_at s a /\ t_value t + t_gas t * t_gasPrice t <= balance_at s a.

Definition accepted (s : State) (t : TransactionBase) (a : Z) : Prop :=
  signature_accepted t /\ gas_accepted t /\ sender_accepted s t a.

Lemma face_spec t :
  (face_verifyTransaction Everything t = inl tt /\ hasZeroSignature t = false /\
   forall vrs, t_vrs t = Some vrs -> sig_s vrs <= c_secp256k1n / 2) \/
  (face_verifyTransaction Everything t = inr InvalidSignature /\ ~ signature_accepted t).
Proof.
  unfold face_verifyTransaction, checkLowS, hasSignature, signature_accepted.
  change (requires Everything TransactionSignatures) with true. cbn [andb].
  destruct (hasZeroSignature t); [right; by split; [|intros (? & _)]|].
  destruct (t_vrs t) as [vrs|]; [|left; by split_and!].
  destruct (decide (c_secp256k1n / 2 < sig_s vrs)) as [Hs|Hs]; [right|left; split_and!; [done|done|intros ? [= <-]; lia]].
  split; [done|]. intros (_ & Hl & _). specialize (Hl vrs eq_refl). lia.
Qed.

Lemma verify_spec t :
  match verifyTransaction (cp_chainID cp) Everything t (env_number env) (env_gasLimit env) (env_gasUsed env) with
  | inl _ => signature_accepted t /\ gas_accepted t
  | inr ex => ~ (signature_accepted t /\ gas_accepted t) /\ ex <> out_of_fuel
  end.
Proof.
  unfold verifyTransaction. destruct (face_spec t) as [(-> & Hz & Hs)|(-> & Hn)]; unfold mbind, res_bind.
  2: { split; [|done]. by intros [? _]. }
  change (requires Everything TransactionSignatures) with true. change (requires Everything TransactionBasic) with true.
  unfold checkChainId, gas_accepted, evmSchedule. cbn [andb].
  destruct (decide (t_chainId t <> cp_chainID cp /\ t_chainId t <> -4)) as [Hc|Hc].
  { split; [|done]. intros [(_ & _ & ?) _]. tauto. }
  cbn. destruct (bool_decide _) eqn:Eg; [apply bool_decide_eq_true in Eg; split; [lia|done]|apply bool_decide_eq_false in Eg].
  destruct (decide (env_gasLimit env < env_gasUsed env + t_gas t)); [split; [lia|done]|].
  split; [|lia]. split_and!; [done|done|]. destruct (decide (t_chainId t = cp_chainID cp)); [by left|].
  destruct (decide (t_chainId t = -4)); [by right|tauto].
Qed.

(** The executive that has checked the transaction *)
Definition checked (t : TransactionBase) (e : Executive) : Executive :=
  set_gasCost (u256 (t_gas t * t_gasPrice t)) (set_baseGasRequired (baseGasRequired t (evmSchedule env)) (set_t t e)).

Lemma initialize_spec s e t a :
  inv s -> sender t = inl a ->
  let o := initialize env cp t (mkWorld s e) in
  safe s (w_s o.1) /\ dirtier s (w_s o.1) /\
  match o.2 with
  | inl _ => accepted s t a /\ w_e o.1 = checked t e
  | inr ex => ~ accepted s t a /\ ex <> out_of_fuel
  end.
Proof.
  intros I Ha. cbv zeta. unfold initialize, accepted. rewrite !bind_upd. cbn [w_s w_e]. set (e1 := set_baseGasRequired _ _).
  pose proof (verify_spec t) as V. destruct (verifyTransaction _ _ _ _ _ _) as [u|ex].
  2: { split_and!; [by apply safe_refl|done|]. cbn. destruct V as [V Vf]. split; [|done]. intros (? & ? & _). by apply V. }
  rewrite (bind_inl _ _ _ (mkWorld s e1) u) by done. destruct V as (Vs & Vg). pose proof Vs as (-> & _).
  destruct (getNonce_safe s a I) as (s1 & E1 & U1 & D1).
  rewrite (bind_inl _ _ _ (mkWorld s1 e1) (nonce_at s a)).
  2: { unfold try_catch, lift. rewrite Ha. unfold mbind, M_bind, on_state. cbn. by rewrite E1. }
  unfold sender_accepted. case_decide as Hn.
  { split_and!; [done|done|]. cbn. split; [|done]. by intros (_ & _ & ? & _). }
  rewrite (bind_inl _ _ _ (mkWorld s1 e1) a) by (unfold lift; by rewrite Ha). pose proof (safe_inv _ _ U1) as I1.
  destruct (balance_safe s1 a I1) as (s2 & E2 & U2 & D2). rewrite (bind_state _ _ (mkWorld s1 e1) s2 _ E2). cbn [w_e].
  pose proof (safe_trans _ _ _ U1 U2) as U. assert (D : dirtier s s2) by by etrans.
  pose proof (dirtier_balance s s1 a D1) as Eb.
  destruct (decide (balance_at s1 a < t_value t + t_gas t * t_gasPrice t)) as [Hb|Hb]; cbn; (split; [done|split; [done|]]);
    [split; [lia|done]|].
  split; [|done]. split_and!; [done..|lia].
Qed.

(** ** The end of a transaction *)

Lemma kill_ok s a :
  wf s -> exists s', kill a s = (s', inl tt) /\ wf s' /\
    (forall b, balance_at s' b = if decide (b = a) then 0 else balance_at s b) /\
    (forall b k, slot_at s' b k = if decide (b = a) then 0 else slot_at s b k).
Proof.
  intros W. unfold kill, account, mbind, M_bind. destruct (find_account a s) as [s1 r] eqn:E.
  destruct (find_account_ok s a s1 r W E) as (W1 & S1 & Hr & Hc).
  assert (Eb : forall b, balance_at s1 b = balance_at s b) by (intros b; by apply sim_balance_at).
  assert (Ek : forall b k, slot_at s1 b k = slot_at s b k) by (intros b k; by apply sim_slot_at).
  destruct r as [x|].
  - eexists. split; [reflexivity|]. rewrite (upd_account_set s1 a x) by by apply Hc. split; [|split].
    + apply wf_set; [done| |done|done]. split; cbn; try done.
      * unfold code_of. cbn. by rewrite decide_True.
      * intros k v. rewrite lookup_empty. by intros [?|?].
    + intros b. unfold balance_at at 1. rewrite acct_set. case_decide; [done|apply Eb].
    + intros b k. unfold slot_at at 1. rewrite acct_set. case_decide; [|apply Ek]. unfold slot. cbn. by rewrite !lookup_empty.
  - exists s1. split_and!; [done|done| |].
    + intros b. rewrite Eb. case_decide; [subst b|done]. rewrite <-(Eb a). unfold balance_at. by rewrite <-Hr.
    + intros b k. rewrite Ek. case_decide; [subst b|done]. rewrite <-(Ek a). unfold slot_at. by rewrite <-Hr.
Qed.

Lemma kills_ok l : forall s, wf s -> exists s', for_each kill l s = (s', inl tt) /\ wf s' /\ supply s' <= supply s /\
  forall b, (forall k, slot_at s' b k = slot_at s b k) \/ (forall k, slot_at s' b k = 0).
Proof.
  induction l as [|a l IH]; intros s W; cbn [for_each]; [exists s; split_and!; [done|done|done|by left]|].
  destruct (kill_ok s a W) as (s1 & E1 & W1 & B1 & K1). rewrite (bind_inl _ _ _ _ _ E1).
  destruct (IH s1 W1) as (s2 & E2 & W2 & S2 & K2). exists s2. split_and!; [done|done| |].
  - rewrite (supply_change s s1 a 0 B1) in S2. pose proof (balance_nonneg s a W). lia.
  - intros b. destruct (K2 b) as [K|K]; [|by right]. destruct (decide (b = a)) as [->|Hn]; [right|left]; intros k.
    + by rewrite K, K1, decide_True.
    + by rewrite K, K1, decide_False.
Qed.

Lemma on_state_for_each {A} (f : A -> M State unit) l w :
  for_each (fun x => on_state (f x)) l w = on_state (for_each f l) w.
Proof.
  revert w. induction l as [|x l IH]; intros w; cbn [for_each]; [by destruct w|].
  destruct (f x (w_s w)) as [s r] eqn:E. unfold mbind, M_bind. rewrite (on_state_eq _ w s r E).
  unfold on_state at 2. rewrite E. destruct r as [[]|ex]; [|done]. rewrite IH. done.
Qed.

(** The gas is given back and the author is paid *)
Definition repaid (s : State) (t : TransactionBase) (a gas : Z) (s2 : State) : Prop :=
  exists s1, paid s a (u256 (balance_at s a + gas * t_gasPrice t)) s1 /\
    paid s1 (env_author env) (u256 (balance_at s1 (env_author env) + (t_gas t - gas) * t_gasPrice t)) s2.

(** Addresses whose accounts are removed at the end *)
Definition doomed (e : Executive) : list Z :=
  match e_ext e with Some x => elements (suicides (ext_sub x)) | None => [] end.

Record finalized (s : State) (e : Executive) (t : TransactionBase) (a : Z) (w : World) (b : bool) : Prop := {
  fi_gas : e_gas e <= e_gas (w_e w) <= e_gas e + (t_gas t - e_gas e) / 2;
  fi_state : exists s2, repaid s t a (e_gas (w_e w)) s2 /\ for_each kill (doomed e) s2 = (w_s w, inl tt);
  fi_t : e_t (w_e w) = t;
  fi_status : b = bool_decide (e_excepted (w_e w) = TE_None);
  fi_excepted : e_excepted (w_e w) = e_excepted e;
  fi_res : e_res (w_e w) = None <-> e_res e = None
}.

Lemma repay_ok s t a gas :
  inv s -> 0 <= gas <= t_gas t -> 0 <= t_gasPrice t -> t_gas t * t_gasPrice t < 2 ^ 256 -> is_u256 (t_gas t) ->
  exists s1 s2, addBalance a (u256 (gas * t_gasPrice t)) s = (s1, inl tt) /\
    addBalance (env_author env) (u256 (u256 (t_gas t - gas) * t_gasPrice t)) s1 = (s2, inl tt) /\ repaid s t a gas s2.
Proof.
  intros I Hg Hp Hc Ht. assert (Hg1 : is_u256 (gas * t_gasPrice t)) by (unfold is_word; nia).
  assert (Hg2 : is_u256 ((t_gas t - gas) * t_gasPrice t)) by (unfold is_word; nia).
  assert (Hg3 : u256 (t_gas t - gas) = t_gas t - gas) by (apply Z.mod_small; unfold is_word in Ht; lia).
  rewrite Hg3. unfold u256 at 1 2. rewrite !Z.mod_small by done.
  destruct (addBalance_safe s a _ I Hg1) as (s1 & E1 & P1 & _). pose proof P1 as (U1 & _).
  destruct (addBalance_safe s1 (env_author env) _ (safe_inv _ _ U1) Hg2) as (s2 & E2 & P2 & _).
  exists s1, s2. split_and!; [done|done|]. by exists s1.
Qed.

Lemma finalize_spec s e t a :
  inv s -> e_t e = t -> sender t = inl a -> is_tx t = true -> 0 <= e_gas e <= t_gas t -> is_u256 (t_gas t) ->
  0 <= t_gasPrice t -> t_gas t * t_gasPrice t < 2 ^ 256 ->
  exists w b, finalize env (mkWorld s e) = (w, inl b) /\ finalized s e t a w b.
Proof.
  intros I Et Ha Htx Hg Ht Hp Hc. unfold finalize, upd_sub. rewrite bind_upd, bind_get_e, !bind_upd, bind_get_e. cbn [w_s w_e].
  set (refund := match e_ext _ with Some _ => _ | None => _ end).
  assert (Hr : 0 <= refund <= (t_gas t - e_gas e) / 2).
  { subst refund. cbn. rewrite Et. assert (Eu : u256 (t_gas t - e_gas e) = t_gas t - e_gas e) by (apply Z.mod_small; unfold is_word in Ht; lia).
    rewrite Eu. pose proof (Z.div_pos (t_gas t - e_gas e) 2 ltac:(lia) ltac:(lia)). destruct (e_ext e) as [x|]; cbn; [|lia].
    match goal with |- context [u256 ?v] => destruct (u256_range v) as [? _] end. lia. }
  pose proof (Z.div_le_upper_bound (t_gas t - e_gas e) 2 (t_gas t - e_gas e) ltac:(lia) ltac:(lia)).
  set (e2 := set_gas _ _). assert (Eg : e_gas e2 = e_gas e + refund).
  { subst e2. cbn. apply Z.mod_small. unfold is_word in Ht. lia. }
  assert (E2t : e_t e2 = t) by done. assert (E2x : e_excepted e2 = e_excepted e) by done. assert (E2r : e_res e2 = e_res e) by done.
  assert (Ed : e_ext e2 = (fun x => set_sub (mkSub (suicides (ext_sub x)) (logs (ext_sub x))
    (u256 (refunds (ext_sub x) + suicideRefundGas (evmSchedule env) * Z.of_nat (size (suicides (ext_sub x)))))) x) <$> e_ext e) by done.
  clearbody e2 refund. rewrite E2t, Htx.
  destruct (repay_ok s t a (e_gas e2) I) as (s1 & s2 & E1 & E2 & R); [lia|done|done|done|].
  rewrite bind_bind, (bind_inl _ _ _ (mkWorld s e2) a) by (unfold lift; by rewrite Ha).
  rewrite bind_bind, (bind_state _ _ (mkWorld s e2) s1 tt E1). cbn [w_e]. rewrite (bind_state _ _ (mkWorld s1 e2) s2 tt E2). cbn [w_e].
  assert (W2 : wf s2) by (destruct R as (? & _ & U2 & _); apply inv_wf; by eapply safe_inv).
  assert (F : forall s3 e3 b, for_each kill (doomed e) s2 = (s3, inl tt) -> e_gas e3 = e_gas e2 -> e_t e3 = t ->
    e_excepted e3 = e_excepted e -> (e_res e3 = None <-> e_res e = None) -> b = bool_decide (e_excepted e = TE_None) ->
    finalized s e t a (mkWorld s3 e3) b).
  { intros s3 e3 b Ek Eg3 Et3 Ex3 Er3 ->. split; cbn; [lia| |done|by rewrite Ex3|done|done].
    exists s2. by rewrite Eg3. }
  unfold doomed in F. rewrite Ed. destruct (e_ext e) as [x|]; cbn [fmap option_fmap option_map].
  - cbn [ext_sub set_sub suicides]. destruct (kills_ok (elements (suicides (ext_sub x))) s2 W2) as (s3 & E3 & W3 & _ & _).
    rewrite bind_bind, (bind_inl _ _ _ (mkWorld s3 e2) tt).
    2: { rewrite on_state_for_each. by apply on_state_eq. }
    rewrite bind_upd. unfold upd_res. rewrite bind_upd, E2x. eexists _, _. split; [reflexivity|].
    apply F; [done|done|done|done|cbn; by rewrite fmap_None, E2r|done].
  - unfold upd_res. rewrite (bind_inl _ _ _ (mkWorld s2 e2) tt) by done. rewrite bind_upd, E2x. eexists _, _. split; [reflexivity|].
    apply F; [done|done|done|done|cbn; by rewrite fmap_None, E2r|done].
Qed.

(** ** The payment of the gas and the start *)

Lemma dirtier_paid s a v s1 s2 : paid s a v s1 -> safe s1 s2 -> dirtier s1 s2 -> paid s a v s2.
Proof.
  intros (U & C & N & B) U2 D. destruct (dirtier_view s1 s2 D) as (C2 & N2 & B2). split_and!.
  - by eapply safe_trans.
  - by eapply same_contracts_trans.
  - intros b. by rewrite N2, N.
  - intros b. by rewrite B2, B.
Qed.

(** The fields have their types, and the nonce of the sender can be counted up *)
Record sendable (t : TransactionBase) : Prop := {
  se_tx : is_tx t = true;
  se_value : is_u256 (t_value t);
  se_gasPrice : is_u256 (t_gasPrice t);
  se_gas : is_u256 (t_gas t);
  se_data : Forall is_byte (t_data t);
  se_nonce : t_nonce t <> 2 ^ 256 - 1
}.

(** The gas is paid and the nonce counted *)
Record bought (s : State) (t : TransactionBase) (a : Z) (s0 : State) : Prop := {
  bo_inv : inv s0;
  bo_contracts : same_contracts s s0;
  bo_nonces : forall b, nonce_at s0 b = if decide (b = a /\ a <> MaxAddress) then nonce_at s a + 1 else nonce_at s b;
  bo_balances : forall b, balance_at s0 b = if decide (b = a) then balance_at s a - t_gas t * t_gasPrice t else balance_at s b
}.

Lemma nonce_range s a : inv s -> is_u256 (nonce_at s a).
Proof.
  intros I. unfold nonce_at. destruct (acct s a) as [x|] eqn:Ex; [by eapply (inv_nonces s I)|apply (inv_nonce s I)].
Qed.

Lemma bought_nonce s t a s2 s1 :
  dirtier s s1 -> paid s1 a (balance_at s1 a - t_gas t * t_gasPrice t) s2 -> inv s2 -> nonce_at s a <> 2 ^ 256 - 1 ->
  exists s0, (if decide (a <> MaxAddress) then incNonce a s2 = (s0, inl tt) else s0 = s2) /\ inv s0 /\ bought s t a s0.
Proof.
  intros D (U2 & C2 & N2 & B2) I2 Hn. destruct (dirtier_view s s1 D) as (C1 & N1 & B1).
  assert (N : forall b, nonce_at s2 b = nonce_at s b) by (intros b; by rewrite N2, N1).
  assert (B : forall b, balance_at s2 b = if decide (b = a) then balance_at s a - t_gas t * t_gasPrice t else balance_at s b).
  { intros b. rewrite B2, B1. by case_decide. }
  assert (C : same_contracts s s2).
  { by eapply same_contracts_trans. }
  pose proof (nonce_range s2 a I2) as [R1 R2]. rewrite N in R1, R2.
  assert (Eu : u256 (nonce_at s a + 1) = nonce_at s a + 1) by (apply Z.mod_small; lia).
  destruct (decide (a <> MaxAddress)) as [Hm|Hm].
  - destruct (incNonce_sound s2 a I2) as (s0 & E & So & C0 & B0 & N0 & _); [right; right; rewrite N, Eu; lia|].
    exists s0. split_and!; [done|apply So|]. split; [apply So| | |].
    + by eapply same_contracts_trans.
    + intros b. rewrite N0, !N, Eu. repeat case_decide; naive_solver.
    + intros b. by rewrite B0.
  - exists s2. split_and!; [done|done|]. split; [done|done| |done]. intros b. rewrite N. case_decide; naive_solver.
Qed.

Lemma base_pos t : 0 <= baseGasRequired t (evmSchedule env).
Proof.
  unfold baseGasRequired, baseGasRequired_. set (g0 := if isCreation t then _ else _). assert (Hg : 0 <= g0) by by destruct (isCreation t).
  clearbody g0. revert g0 Hg. induction (t_data t) as [|x l IH]; intros g0 Hg; cbn [foldl]; [done|].
  apply IH. destruct (decide (x <> 0)); change (txDataNonZeroGas (evmSchedule env)) with 68;
    change (txDataZeroGas (evmSchedule env)) with 4; lia.
Qed.

Lemma cost_range s t a : inv s -> sendable t -> accepted s t a -> 0 <= t_gas t * t_gasPrice t < 2 ^ 256.
Proof.
  intros Hinv Ht Hacc. destruct Hacc as (_ & _ & _ & Hb). destruct Ht as [_ [Hv _] [Hp _] [Hg _] _ _].
  destruct (balance_range s a (inv_wf s Hinv)). nia.
Qed.

Section Perform.
Context `{!VM} `{!VMLaw} (conserving : bool) `{Laws : !ContractLaws conserving cp} (Vault : conserving = true -> VaultLaw).
Context (s : State) (t : TransactionBase) (a : Z).
Context (Hinv : sane conserving s) (Haddress : conserving = true -> is_address a) (Hsender : sender t = inl a) (Ht : sendable t) (Hacc : accepted s t a).

Abbreviation base := (baseGasRequired t (evmSchedule env)).

Lemma sane_contracts s' : inv s' -> same_contracts s s' -> sane conserving s'.
Proof. intros I C. split; [done|]. intros Hc. unfold vault. rewrite (proj1 (C _)). by apply Hinv. Qed.

Lemma execute_starts s1 res :
  dirtier s s1 -> safe s s1 -> exists s0, bought s t a s0 /\
    starts conserving (t_gas t - base) (checked t (new_executive res 0)) s0
      (execute env cp (mkWorld s1 (checked t (new_executive res 0)))).
Proof.
  intros D U. set (e1 := checked t (new_executive res 0)). unfold execute. rewrite bind_get_e. cbn [w_e].
  change (e_t e1) with t. rewrite (bind_inl _ _ _ (mkWorld s1 e1) a) by (unfold lift; by rewrite Hsender).
  pose proof (cost_range s t a Hinv Ht Hacc) as Hc. pose proof (base_pos t) as Hbase. destruct Hacc as (_ & [Hg _] & Hn & Hb). destruct Ht as [Htx Hv Hp Hgas Hdata Hnonce].
  assert (Ec : e_gasCost e1 = t_gas t * t_gasPrice t) by by apply Z.mod_small.
  pose proof (dirtier_balance s s1 a D) as Eb. rewrite Ec.
  assert (Eg : u256 (t_gas t - u256 (e_baseGasRequired e1)) = t_gas t - base).
  { change (e_baseGasRequired e1) with base. unfold is_word in Hgas. unfold u256. rewrite (Z.mod_small base), Z.mod_small by lia. done. }
  rewrite Eg. destruct (subBalance_safe s1 a (t_gas t * t_gasPrice t) (safe_inv _ _ U)) as (s2 & r & E & [(-> & _ & P)|(_ & Hlt & _)]);
    [done| |destruct Hv; lia].
  rewrite (bind_state _ _ (mkWorld s1 e1) s2 tt E). cbn [w_e]. pose proof (safe_inv _ _ (proj1 P)) as I2.
  assert (C2 : same_contracts s s2).
  { eapply same_contracts_trans; [by apply (dirtier_view s s1)|apply P]. }
  assert (Hn' : nonce_at s a <> 2 ^ 256 - 1) by congruence. destruct (isCreation t).
  - apply createOpcode_starts; [by apply sane_contracts|done|done|lia|]. intros s3 U3 D3.
    destruct (bought_nonce s t a s3 s1) as (s0 & E0 & I0 & B0); [done| |by eapply safe_inv|done|]; [by eapply dirtier_paid|].
    exists s0. split_and!; [done|by apply sane_contracts, B0|done].
  - destruct (bought_nonce s t a s2 s1 D P I2 Hn') as (s0 & E0 & I0 & B0). exists s0. split; [done|].
    apply call_starts; try done; cbn; [|by apply sane_contracts, B0|lia|by left].
    change (e_t e1) with t. rewrite Htx. by destruct (decide (a <> MaxAddress)) as [Hm|Hm];
      [rewrite bool_decide_true|rewrite bool_decide_false].
Qed.

(** ** The execution *)

(** After the code has run, and before the accounts are settled *)
Record performed (s0 : State) (w : World) : Prop := {
  pe_step : step conserving s0 (w_s w);
  pe_t : e_t (w_e w) = t;
  pe_gas : 0 <= e_gas (w_e w) <= t_gas t - base;
  pe_failed : e_excepted (w_e w) <> TE_None -> same_view s0 (w_s w) /\ doomed (w_e w) = []
}.

Lemma perform_ok fuel s1 res :
  dirtier s s1 -> safe s s1 -> exists s0, bought s t a s0 /\
    let o := (ended ← execute env cp; if ended : bool then mret true else go env cp fuel)
               (mkWorld s1 (checked t (new_executive res 0))) in
    step conserving s0 (w_s o.1) /\ ((1025 <= fuel)%nat -> o.2 <> inr out_of_fuel) /\
    forall b, o.2 = inl b -> performed s0 o.1.
Proof.
  intros D U. destruct (execute_starts s1 res D U) as (s0 & B & S & Hf & St). exists s0. split; [done|].
  set (e1 := checked t (new_executive res 0)) in *. cbv zeta. unfold mbind, M_bind.
  destruct (execute env cp (mkWorld s1 e1)) as [w1 [b|ex]]; cbn [fst snd] in *; [|by split_and!].
  specialize (St b eq_refl). destruct b.
  - split_and!; [done|done|]. intros b _. destruct St as [_ (? & _) _ ? He _]. destruct (He eq_refl) as [Ee Hv].
    split; [done|done|done|]. cbn. intros Hx. unfold doomed. rewrite Ee. auto.
  - destruct (go_spec conserving env cp Vault fuel 0 ltac:(lia) (t_gas t - base) e1 s0 w1 eq_refl
      (sane_contracts _ (bo_inv _ _ _ _ B) (bo_contracts _ _ _ _ B)) St) as (S2 & Hx & Hr).
    destruct (go env cp fuel w1) as [w2 [b|ex]]; cbn [fst snd] in *; (split_and!; [done| |]).
    + done.
    + intros b' [= <-]. destruct (Hr b eq_refl) as ((? & _) & Hg & Hv). split; [done|done|done|].
      intros Hn. destruct (Hv Hn) as [V Es]. split; [done|]. unfold doomed. destruct (e_ext (w_e w2)) as [x|]; [|done].
      cbn in Es. injection Es as ->. done.
    + intros Hl [= ->]. by apply (proj2 (Hx _ eq_refl)); [lia|].
    + done.
Qed.
End Perform.

(** ** The transaction *)

Section Transaction.
Context `{!VM} `{!VMLaw} (conserving : bool) `{Laws : !ContractLaws conserving cp} (Vault : conserving = true -> VaultLaw).

(** A transaction that is not accepted changes nothing; one that is accepted is paid for, runs, and
    is settled *)
Lemma transaction_cases fuel s t a res :
  sane conserving s -> (conserving = true -> is_address a) -> sender t = inl a -> sendable t ->
  let o := executeTransaction env cp fuel t (mkWorld s (new_executive res 0)) in
  (~ accepted s t a /\ dirtier s (w_s o.1) /\ inv (w_s o.1) /\ exists ex, o.2 = inr ex /\ ex <> out_of_fuel) \/
  (accepted s t a /\ exists s0, bought s t a s0 /\
    ((exists ex, o.2 = inr ex /\ step conserving s0 (w_s o.1) /\ ((1025 <= fuel)%nat -> ex <> out_of_fuel)) \/
     (exists w1 b, performed conserving t s0 w1 /\ o.2 = inl b /\ finalized (w_s w1) (w_e w1) t a o.1 b))).
Proof.
  intros I Had Ha Ht. cbv zeta. unfold executeTransaction.
  destruct (initialize_spec s (new_executive res 0) t a I Ha) as (U & D & R).
  destruct (initialize env cp t (mkWorld s (new_executive res 0))) as [[s1 e1] [[]|ex]] eqn:E0; cbn [fst snd w_s w_e] in *.
  2: { left. rewrite (bind_inr _ _ _ _ _ E0). split_and!; [apply R|done|by eapply safe_inv|]. exists ex. split; [done|apply R]. }
  right. destruct R as [Acc ->]. split; [done|]. rewrite (bind_inl _ _ _ _ _ E0).
  destruct (perform_ok conserving Vault s t a I Had Ha Ht Acc fuel s1 res D U) as (s0 & B & S & Hf & P). exists s0. split; [done|].
  revert S Hf P. set (w := mkWorld s1 _). rewrite <-bind_bind.
  destruct ((ended ← execute env cp; if ended : bool then mret true else go env cp fuel) w) as [w1 [b|ex]] eqn:E; cbn [fst snd]; intros S Hf P.
  - right. specialize (P b eq_refl). pose proof (base_pos t) as Hbase. rewrite (bind_inl _ _ _ _ _ E).
    pose proof (pe_gas _ _ _ _ P) as Pg. pose proof (proj1 (se_gasPrice _ Ht)) as Hp. pose proof (cost_range s t a I Ht Acc) as Hc.
    destruct (finalize_spec (w_s w1) (w_e w1) t a) as (w2 & b2 & E2 & F);
      [by eapply step_inv|apply P|done|apply Ht|lia|apply Ht|done|lia|].
    destruct w1 as [sw ew]. cbn [w_s w_e] in E2. rewrite E2. by exists (mkWorld sw ew), b2.
  - left. rewrite (bind_inr _ _ _ _ _ E). exists ex. split_and!; [done|done|]. intros Hl ->. by apply Hf.
Qed.
End Transaction.
End Tx.
