(* ===== verification/ExecDemo.v ===== *)
(** * A chain to run transactions on

    The state of EthStateInv, the contracts of the main network, and a small machine: it writes to
    its storage and, by the first byte of its input, returns, fails, or calls its own contract so
    that the inner call fails. *)

From stdpp Require Import gmap sorting.
From S2P Require Import Prelude Words Exn EthState EthStateInv EthCommit EthRollback Ledger.
From S2P Require Import EthLedger Vote VoteCall VoteClaims ExecState ExecOps ExecSteps.
From S2P Require Import Transaction Executive Precompiled ExecLaws ExecVotes ExecStart ExecRun.
From S2P Require Import ExecTx.

#[local] Open Scope Z_scope.
#[local] Existing Instance demo_env.
#[local] Existing Instance demo_boost.
#[local] Existing Instance demo_inj.

#[local] Instance demo_homes : Homes := [VoteInfoAddress].
#[local] Instance demo_recover : Recover := fun _ _ => None.

Definition demo_body (gas : Z) (x : ExtVM) : vm_prog :=
  match ext_data x with
  | 1 :: _ => vm_throw gas OutOfGas []
  | 2 :: _ =>
      if decide (ext_depth x < 1024) then
        let me := ext_myAddress x in
        vm_do (op_call (mkCall me me me 0 0 gas [1] false)) (fun r =>
          match r with
          | inl (ok, out, gas') => vm_return gas' out
          | inr e => vm_throw 0 e []
          end)
      else vm_return gas []
  | _ => vm_return gas []
  end.

#[local] Instance demo_vm : VM := fun gas x _ => vm_do (op_setStore 7 9) (fun _ => demo_body gas x).

Lemma demo_body_ok gas x : 0 <= gas -> well_behaved (ext_myAddress x) (ext_depth x) (demo_body gas x) gas.
Proof.
  intros Hg. unfold well_behaved, demo_body. repeat (case_match; cbn; try lia).
  split; [split; [done|split; [by apply is_word_0|split; [by apply Forall_singleton|by left]]]|].
  split; [lia|]. split; [|intros e _; split; [lia|by left]]. intros [[ok out] g] Hb. cbn in *. lia.
Qed.

#[local] Instance demo_vm_law : VMLaw.
Proof.
  intros gas x c Hg. unfold well_behaved. cbn. split; [by split|]. split; [lia|].
  split; [intros _ _|intros e He]; rewrite ?Z.sub_0_r, ?Z.add_0_r.
  - by apply demo_body_ok.
  - eapply behaves_weaken; [|by apply demo_body_ok]. auto.
Qed.

Lemma demo_acct a x : acct demo_state a = Some x ->
  (a = 0x21 /\ x = account_of_leaf demo_leaf_votes) \/ (a = 1 /\ x = account_of_leaf demo_leaf_rich).
Proof.
  unfold acct. cbn [m_cache m_state demo_state]. rewrite lookup_empty. intros (l & Hl & ->)%fmap_Some.
  apply lookup_insert_Some in Hl as [[<- <-]|[_ Hl]]; [by left|]. apply lookup_singleton_Some in Hl as [<- <-]. by right.
Qed.

Lemma demo_inv : inv demo_state.
Proof.
  split.
  - apply demo_wf.
  - split; [by apply is_word_0|by vm_compute].
  - split_and!; [done|done| |].
    + intros a x. cbn. by rewrite lookup_empty.
    + intros a r ?%elem_of_nil. done.
  - intros a x [[_ ->]|[_ ->]]%demo_acct; done.
  - intros a x [[_ ->]|[_ ->]]%demo_acct; by vm_compute.
  - intros a x [[_ ->]|[-> ->]]%demo_acct Hr; [left; by vm_compute|by destruct Hr].
  - intros a ->%list_elem_of_singleton. eexists. split; [reflexivity|]. intros [_ He]. by vm_compute in He.
Qed.

Definition demo_head : EnvInfo := mkEnv 1 0x99 1520 1510 131072 (10 ^ 7) 500 [].
Definition demo_chain : ChainOperationParams := mkParams 1 (mainNetwork (fun _ => []) (fun _ => []) ∅).

#[local] Instance demo_chain_laws : ContractLaws false demo_chain.
Proof.
  apply mainNetwork_laws; [by apply list_elem_of_singleton|]. intros a pc. cbn. by rewrite lookup_empty.
Qed.

(** Account 1 calls the contract of the votes *)
Definition demo_tx (data : list Z) : TransactionBase :=
  mkTx MessageCall 3 0 0x21 2 100000 data (Some (mkSig 5 6 0)) 1 1.

Lemma demo_sendable data : bytes data -> sendable (demo_tx data).
Proof. intros Hd. by split. Qed.

Lemma demo_sendable_1 : sendable (demo_tx [1]).
Proof. apply demo_sendable. by apply Forall_singleton. Qed.
