(* ===== verification/ExecClaims.v ===== *)
(** * What the execution of a transaction promises

    The theorems about State::execute, for every virtual machine that satisfies [VMLaw] and all
    precompiled contracts that satisfy [ContractLaws]. *)

From stdpp Require Import gmap sorting.
From S2P Require Import Prelude Words Exn EthState EthStateInv EthCommit EthRollback Ledger.
From S2P Require Import EthLedger Vote VoteStore VoteSpec VoteInv VoteCall VoteReach VoteClaims ExecState ExecOps ExecSteps.
From S2P Require Import Transaction Executive Precompiled ExecLaws ExecVotes ExecStart ExecRun.
From S2P Require Import ExecTx ExecDemo Machine Wasm.

#[local] Open Scope Z_scope.

Section Claims.
Context `{NodeEnv} `{!Homes} `{!Recover} `{!VM} `{!VMLaw}.
Context (env : EnvInfo) (cp : ChainOperationParams).

(** The gas of the block so far and its limit *)
Definition env_ok : Prop := 0 <= env_gasUsed env /\ is_u256 (env_gasLimit env).

(** ** The end of a transaction *)

Lemma repaid_supply s t a gas s2 :
  repaid env s t a gas s2 -> inv s -> 0 <= gas <= t_gas t -> 0 <= t_gasPrice t ->
  wf s2 /\ same_contracts s s2 /\ supply s2 <= supply s + t_gas t * t_gasPrice t.
Proof.
  intros (s1 & P1 & P2) I Hg Hp. pose proof (same_contracts_trans _ _ _ (proj1 (proj2 P1)) (proj1 (proj2 P2))) as C. pose proof (paid_supply _ _ _ _ P1) as S1. pose proof (paid_supply _ _ _ _ P2) as S2.
  destruct P2 as (U2 & _). split; [by eapply inv_wf, safe_inv|]. split; [done|].
  pose proof (balance_nonneg s a (inv_wf s I)) as B1.
  pose proof (balance_nonneg s1 (env_author env) (inv_wf s1 (safe_inv _ _ (proj1 P1)))) as B2.
  pose proof (Z.mod_le (balance_at s a + gas * t_gasPrice t) (2 ^ 256) ltac:(nia) ltac:(lia)).
  pose proof (Z.mod_le (balance_at s1 (env_author env) + (t_gas t - gas) * t_gasPrice t) (2 ^ 256) ltac:(nia) ltac:(lia)).
  unfold u256 in *. lia.
Qed.

Lemma finalized_supply s e t a w b :
  finalized env s e t a w b -> inv s -> 0 <= e_gas e <= t_gas t -> 0 <= t_gasPrice t ->
  wf (w_s w) /\ supply (w_s w) <= supply s + t_gas t * t_gasPrice t /\
  forall c, (forall k, slot_at (w_s w) c k = slot_at s c k) \/ (forall k, slot_at (w_s w) c k = 0).
Proof.
  intros [Hg (s2 & R & K) _ _ _ _] I He Hp.
  pose proof (Z.div_le_upper_bound (t_gas t - e_gas e) 2 (t_gas t - e_gas e) ltac:(lia) ltac:(lia)).
  destruct (repaid_supply _ _ _ _ _ R I) as (W2 & C2 & S2); [lia|done|].
  destruct (kills_ok (doomed e) s2 W2) as (s3 & E3 & W3 & S3 & K3). rewrite K in E3. injection E3 as <-.
  split_and!; [done|lia|]. intros c. destruct (K3 c) as [Kc|Kc]; [left|by right]. intros k. rewrite Kc. apply C2.
Qed.

Lemma bought_supply s t a s0 : bought s t a s0 -> supply s0 = supply s - t_gas t * t_gasPrice t.
Proof. intros [_ _ _ B]. rewrite (supply_change s s0 a _ B). lia. Qed.

(** The gas that is left over at the end *)
Lemma finalized_gas s0 conserving t a w1 w b :
  performed env conserving t s0 w1 -> finalized env (w_s w1) (w_e w1) t a w b -> is_u256 (t_gas t) ->
  gasUsed (w_e w) = t_gas t - e_gas (w_e w) /\ 0 <= e_gas (w_e w) <= t_gas t /\
  baseGasRequired t (evmSchedule env) <= 2 * (t_gas t - e_gas (w_e w)).
Proof.
  intros [_ _ Pg _] [Fg _ Ft _ _ _] Ht. pose proof (base_pos env t) as Hb.
  pose proof (Z.mul_div_le (t_gas t - e_gas (w_e w1)) 2 ltac:(lia)) as Hd.
  assert (Hr : 0 <= e_gas (w_e w) <= t_gas t) by lia. split_and!; [|lia..].
  unfold gasUsed. rewrite Ft. apply Z.mod_small. unfold is_word in Ht. lia.
Qed.

(** A failed transaction, with the gas that was not used given back *)
Lemma failed_balances s t a s0 gas s2 s1 :
  inv s -> bought s t a s0 -> same_view s0 s1 -> inv s1 -> repaid env s1 t a gas s2 -> supply s < 2 ^ 256 ->
  0 <= gas <= t_gas t -> 0 <= t_gasPrice t -> t_gas t * t_gasPrice t <= balance_at s a ->
  same_contracts s s2 /\ same_nonces s0 s2 /\
  forall b, balance_at s2 b = balance_at s b - (if decide (b = a) then (t_gas t - gas) * t_gasPrice t else 0)
    + (if decide (b = env_author env) then (t_gas t - gas) * t_gasPrice t else 0).
Proof.
  intros I [I0 C0 N0 B0] (C1 & N1 & B1) I1 (s3 & P3 & P2) Hs Hg Hp Hc.
  pose proof P3 as (U3 & C3 & N3 & B3). pose proof P2 as (U2 & C2 & N2 & B2). split_and!.
  - eapply same_contracts_trans; [done|]. eapply same_contracts_trans; [done|]. by eapply same_contracts_trans.
  - intros b. by rewrite N2, N3, N1.
  - assert (Ea : balance_at s1 a = balance_at s a - t_gas t * t_gasPrice t) by by rewrite B1, B0, decide_True.
    assert (Eo : forall b, b <> a -> balance_at s1 b = balance_at s b) by (intros b Hb; by rewrite B1, B0, decide_False).
    pose proof (supply_one s a (inv_wf s I)). pose proof (supply_one s (env_author env) (inv_wf s I)).
    pose proof (balance_nonneg s a (inv_wf s I)). pose proof (balance_nonneg s (env_author env) (inv_wf s I)).
    assert (E3 : balance_at s3 a = balance_at s a - (t_gas t - gas) * t_gasPrice t).
    { rewrite B3, decide_True, Ea by done. unfold u256. rewrite Z.mod_small; nia. }
    assert (E3o : forall b, b <> a -> balance_at s3 b = balance_at s b) by (intros b Hb; rewrite B3, decide_False by done; by apply Eo).
    intros b. rewrite B2. destruct (decide (b = env_author env)) as [->|Hb].
    + destruct (decide (env_author env = a)) as [Eaa|Hn].
      * rewrite Eaa, E3. unfold u256. rewrite Z.mod_small; nia.
      * rewrite (E3o _ Hn). pose proof (supply_two s a (env_author env) (inv_wf s I) ltac:(congruence)).
        unfold u256. rewrite Z.mod_small; nia.
    + destruct (decide (b = a)) as [->|Hn]; [rewrite E3; lia|rewrite (E3o _ Hn); lia].
Qed.

(** ** State::execute *)

Lemma execute_result fuel t p s s' r :
  p <> Reverted -> State_execute env cp fuel t p s = (s', r) ->
  let o := executeTransaction env cp fuel t (mkWorld s (new_executive (Some empty_result) 0)) in
  s' = w_s o.1 /\
  match r with
  | inl (_, rc) => exists b, o.2 = inl b /\ rc_status rc = b /\
      rc_gasUsed rc = u256 (env_gasUsed env + gasUsed (w_e o.1))
  | inr ex => o.2 = inr ex
  end.
Proof.
  intros Hp. unfold State_execute.
  destruct (executeTransaction env cp fuel t (mkWorld s (new_executive (Some empty_result) 0))) as [w [b|ex]]; intros [= <- <-]; cbn.
  - split; [by destruct p|]. by exists b.
  - done.
Qed.

Context `{!ContractLaws false cp}.

Lemma plain_cases fuel s t a res :
  inv s -> sender t = inl a -> sendable t ->
  let o := executeTransaction env cp fuel t (mkWorld s (new_executive res 0)) in
  (~ accepted env cp s t a /\ dirtier s (w_s o.1) /\ inv (w_s o.1) /\ exists ex, o.2 = inr ex /\ ex <> out_of_fuel) \/
  (accepted env cp s t a /\ exists s0, bought s t a s0 /\
    ((exists ex, o.2 = inr ex /\ step false s0 (w_s o.1) /\ ((1025 <= fuel)%nat -> ex <> out_of_fuel)) \/
     (exists w1 b, performed env false t s0 w1 /\ o.2 = inl b /\ finalized env (w_s w1) (w_e w1) t a o.1 b))).
Proof. intros I. by apply transaction_cases. Qed.

(** C2: when the receipt of an executed transaction says that it failed,
    code and storage of every account are as before, the nonce of the sender is one higher and all
    other nonces are the same, and the only change of balances is that the price of the gas that
    the receipt counts went from the sender to the author of the block.  For executions whose state
    is kept, not for the dry run, and a supply that fits in 256 bits. *)
Theorem failed_transaction_pays_gas (fuel : nat) (t : TransactionBase) (a : Z) (p : Permanence) (s s' : State)
    (r : ExecutionResult) (rc : TransactionReceipt) :
  inv s -> sender t = inl a -> sendable t -> env_ok -> p <> Reverted -> supply s < 2 ^ 256 ->
  State_execute env cp fuel t p s = (s', inl (r, rc)) -> rc_status rc = false ->
  let fee := (rc_gasUsed rc - env_gasUsed env) * t_gasPrice t in
  same_contracts s s' /\
  (forall b, nonce_at s' b = if decide (b = a /\ a <> MaxAddress) then nonce_at s a + 1 else nonce_at s b) /\
  (forall b, balance_at s' b = balance_at s b - (if decide (b = a) then fee else 0)
     + (if decide (b = env_author env) then fee else 0)).
Proof.
  intros I Ha Ht He Hp Hs E Hst. cbv zeta. destruct (execute_result _ _ _ _ _ _ Hp E) as (-> & b & Eb & Es & Eg).
  destruct (plain_cases fuel s t a (Some empty_result) I Ha Ht)
    as [(_ & _ & _ & ex & Ex & _)|(Acc & s0 & B & [(ex & Ex & _)|(w1 & b' & P & Eb' & F)])]; [congruence|congruence|].
  destruct (finalized_gas _ _ _ _ _ _ _ P F (se_gas _ Ht)) as (Eu & Hg & Hbase).
  pose proof (cost_range env cp s t a I Ht Acc) as Hc. destruct Acc as (_ & [_ Hl] & _ & Hb). destruct He as [He1 [_ He2]].
  set (w := (executeTransaction _ _ _ _ _).1) in *.
  assert (Ef : rc_gasUsed rc - env_gasUsed env = t_gas t - e_gas (w_e w)).
  { rewrite Eg, Eu. unfold u256. rewrite Z.mod_small; lia. }
  assert (Hx : e_excepted (w_e w1) <> TE_None).
  { intros Hx. destruct F as [_ _ _ Fs Fx _]. rewrite Fx, Hx, bool_decide_true in Fs by done. congruence. }
  destruct (pe_failed _ _ _ _ _ P Hx) as [V Hd]. pose proof (step_inv _ _ _ (pe_step _ _ _ _ _ P)) as I1.
  destruct F as [_ (s2 & R & K) _ _ _ _]. rewrite Hd in K. injection K as K. rewrite <-K, Ef.
  destruct Ht as [_ [Hv _] [Hpr _] _ _ _]. pose proof (bo_nonces _ _ _ _ B) as N0.
  destruct (failed_balances s t a s0 (e_gas (w_e w)) s2 (w_s w1)) as (C & N & Bal); try done; [lia|].
  split_and!; [done| |done]. intros b0. by rewrite N, N0.
Qed.

(** C18: the gas that the receipt adds for a transaction is at most what the
    transaction offers and, in spite of the refund, at least half of its intrinsic price; the gas
    used so far never goes over the limit of the block.  (For executions whose state is kept.) *)
Theorem transaction_gas_bounds (fuel : nat) (t : TransactionBase) (a : Z) (p : Permanence) (s s' : State)
    (r : ExecutionResult) (rc : TransactionReceipt) :
  inv s -> sender t = inl a -> sendable t -> env_ok -> p <> Reverted ->
  State_execute env cp fuel t p s = (s', inl (r, rc)) ->
  let used := rc_gasUsed rc - env_gasUsed env in
  0 <= used <= t_gas t /\ baseGasRequired t (evmSchedule env) <= 2 * used /\ rc_gasUsed rc <= env_gasLimit env.
Proof.
  intros I Ha Ht He Hp E. cbv zeta. destruct (execute_result _ _ _ _ _ _ Hp E) as (_ & b & Eb & _ & Eg).
  destruct (plain_cases fuel s t a (Some empty_result) I Ha Ht)
    as [(_ & _ & _ & ex & Ex & _)|(Acc & s0 & B & [(ex & Ex & _)|(w1 & b' & P & _ & F)])]; [congruence|congruence|].
  destruct (finalized_gas _ _ _ _ _ _ _ P F (se_gas _ Ht)) as (Eu & Hg & Hbase).
  destruct Acc as (_ & [_ Hl] & _). destruct He as [He1 [_ He2]]. rewrite Eu in Eg. unfold u256 in Eg.
  rewrite Z.mod_small in Eg by lia. lia.
Qed.

(** C11: the execution of a transaction ends: with 1025 levels of executives
    the model never runs out of them, because a machine makes no call at the depth of 1024. *)
Theorem transaction_terminates (fuel : nat) (t : TransactionBase) (a : Z) (p : Permanence) (s : State) :
  inv s -> sender t = inl a -> sendable t -> (1025 <= fuel)%nat ->
  (State_execute env cp fuel t p s).2 <> inr out_of_fuel.
Proof.
  intros I Ha Ht Hf. unfold State_execute.
  destruct (plain_cases fuel s t a (Some empty_result) I Ha Ht)
    as [(_ & _ & _ & ex & Ex & Hx)|(_ & s0 & B & [(ex & Ex & _ & Hx)|(w1 & b' & P & Ex & F)])];
    destruct (executeTransaction _ _ _ _ _) as [w r]; cbn [snd] in Ex; subst r; cbn [snd].
  - congruence.
  - intros [= ->]. by apply Hx.
  - done.
Qed.

(** C22: however a transaction ends, State::execute leaves a state in
    which every account has its type: balances and storage are 256-bit words, the code is the one
    that the code hash names, entries that are not marked as changed agree with the trie, and
    addresses that are cached as missing are not in the trie.  (For executions whose state is kept,
    not for the dry run.) *)
Theorem transaction_keeps_state_typed (fuel : nat) (t : TransactionBase) (a : Z) (p : Permanence) (s s' : State)
    (r : (ExecutionResult * TransactionReceipt) + exn) :
  inv s -> sender t = inl a -> sendable t -> p <> Reverted -> State_execute env cp fuel t p s = (s', r) -> wf s'.
Proof.
  intros I Ha Ht Hp E. destruct (execute_result _ _ _ _ _ _ Hp E) as (-> & _).
  destruct (plain_cases fuel s t a (Some empty_result) I Ha Ht)
    as [(_ & _ & I' & _)|(Acc & s0 & B & [(ex & _ & S & _)|(w1 & b' & P & _ & F)])].
  - by apply inv_wf.
  - by apply inv_wf, (step_inv _ _ _ S).
  - pose proof (step_inv _ _ _ (pe_step _ _ _ _ _ P)) as I1. pose proof (base_pos env t). pose proof (pe_gas _ _ _ _ _ P).
    by destruct (finalized_supply _ _ _ _ _ _ F I1) as [W _]; [lia|apply Ht|].
Qed.

(** C7: State::execute runs a transaction only when it is accepted: its
    signature is not the zero one and has the low s; its chain id is that of the chain or -4, the
    mark of a transaction that was signed for no chain in particular; the gas covers its intrinsic
    price and fits in the block, its nonce is the next one of the sender, and the sender can pay
    the value and all of the gas.  Any other transaction throws, no query can tell the state from
    the one before, and further transactions can run on it; so they can when an accepted one
    throws.  (For transactions whose sender can be recovered, whose fields have their types and
    whose nonce is not the last one, and for executions whose state is kept, not for the dry
    run.) *)
Theorem transaction_accepted (fuel : nat) (t : TransactionBase) (a : Z) (p : Permanence) (s s' : State)
    (r : (ExecutionResult * TransactionReceipt) + exn) :
  inv s -> sender t = inl a -> sendable t -> p <> Reverted -> State_execute env cp fuel t p s = (s', r) ->
  (accepted env cp s t a /\ forall ex, r = inr ex -> inv s') \/
  (~ accepted env cp s t a /\ same_view s s' /\ inv s' /\ exists ex, r = inr ex).
Proof.
  intros I Ha Ht Hp E. destruct (execute_result _ _ _ _ _ _ Hp E) as (-> & Hr).
  destruct (plain_cases fuel s t a (Some empty_result) I Ha Ht)
    as [(Hn & D & I' & ex & Ex & _)|(Acc & s0 & B & [(ex & Ex & S & _)|(w1 & b' & P & Ex & F)])].
  - right. split_and!; [done|by apply same_view_dirtier|done|].
    destruct r as [[? ?]|ex']; [|by exists ex']. destruct Hr as (b & Eb & _). congruence.
  - left. split; [done|]. intros _ _. by apply (step_inv _ _ _ S).
  - left. split; [done|]. intros ex ->. congruence.
Qed.
End Claims.

(** ** Money *)

Section Money.
Context `{NodeEnv} `{!Homes} `{!KeyHashInj} `{!Recover} `{!Boost} `{!VM} `{!VMLaw} `{!VaultLaw}.
Context (env : EnvInfo) (chainID : Z) (sha256 ripemd160 : list Z -> list Z) (others : gmap Z PrecompiledContract).
Abbreviation network := (mkParams chainID (mainNetwork sha256 ripemd160 others)).

(** No storage, no votes *)
Lemma recorded_empty s : (forall k, slot_at s VoteInfoAddress k = 0) -> recorded s ∅.
Proof.
  intros Hz. split; [apply votes_inv_empty|]. intros a _. unfold get. rewrite lookup_empty. by apply info_of_zero.
Qed.

(** The accounts are settled *)
Lemma settled_wealth s e t a w b m :
  finalized env s e t a w b -> inv s -> 0 <= e_gas e <= t_gas t -> 0 <= t_gasPrice t -> recorded s m ->
  exists m', recorded (w_s w) m' /\ wealth (w_s w) m' <= wealth s m + t_gas t * t_gasPrice t.
Proof.
  intros F I He Hp R. destruct (finalized_supply _ _ _ _ _ _ _ F I He Hp) as (_ & Sf & K).
  pose proof (total_votes_nonneg m (proj1 R)). destruct (K VoteInfoAddress) as [Ks|Kz].
  - exists m. split; [by eapply recorded_slots|]. unfold wealth. lia.
  - exists ∅. split; [by apply recorded_empty|]. unfold wealth. rewrite total_empty. unfold VOTES_PRE_ETH. lia.
Qed.

(** C4: no transaction makes money on the main network.  Count every balance, and for every vote
    the money that was mortgaged for it: whatever the transaction does and however it ends, in
    State::execute this sum never grows, and the records of the votes stay in order.  The gas is
    paid before the code runs and goes to the sender and the author of the block at the end, a
    payment moves a balance, mortgage and redeem turn balances into votes and back, what a failed
    execution did is undone.  The state is one between transactions of a block, with the account
    of the votes as in the genesis (code 0x00); the machine does not run that code as a contract,
    as Wasm shows for the machine of the node; modexp, alt_bn128 and powReceive, which writes
    the storage of another account only, keep the law of precompiled contracts; no two storage keys have the same hash; there is less money than 2^64
    votes cost; the sender can be recovered; and the execution is not the dry run whose state is
    dropped. *)
Theorem transaction_makes_no_money (fuel : nat) (t : TransactionBase) (a : Z) (p : Permanence) (s s' : State)
    (r : (ExecutionResult * TransactionReceipt) + exn) (m : bank) :
  VoteInfoAddress ∈ homes -> ContractLaws true (mkParams chainID others) ->
  inv s -> vault s -> recorded s m -> wealth s m < 2 ^ 64 * VOTES_PRE_ETH ->
  is_address a -> sender t = inl a -> sendable t -> p <> Reverted ->
  State_execute env network fuel t p s = (s', r) ->
  exists m', recorded s' m' /\ wealth s' m' <= wealth s m.
Proof.
  intros Hh Ho I V R Hw Had Ha Ht Hp E. destruct (execute_result _ _ _ _ _ _ _ _ Hp E) as [-> _].
  pose proof (mainNetwork_laws sha256 ripemd160 true chainID others Hh Ho) as Laws.
  destruct (transaction_cases env network true (fun _ => _) fuel s t a (Some empty_result) (Build_sane true s I (fun _ => V)) (fun _ => Had) Ha Ht)
    as [(_ & D & _)|(Acc & s0 & B & Hrun)].
  { exists m. split; [eapply recorded_slots; [|done]; intros k; by apply (dirtier_view _ _ D)|].
    unfold wealth. rewrite (supply_dirtier _ _ D). lia. }
  pose proof (bought_supply _ _ _ _ B) as Sb. pose proof (cost_range env network s t a I Ht Acc) as Hc.
  assert (R0 : recorded s0 m) by (eapply recorded_slots; [|exact R]; intros k; apply (bo_contracts _ _ _ _ B)).
  assert (W0 : wealth s0 m = wealth s m - t_gas t * t_gasPrice t) by (unfold wealth; lia).
  destruct Hrun as [(ex & _ & [_ Fu] & _)|(w1 & b & P & _ & F)].
  - destruct (proj2 (Fu eq_refl) m R0 ltac:(lia)) as (m' & R' & W'). exists m'. split; [done|lia].
  - destruct P as [S Et Pg _]. pose proof (step_inv _ _ _ S) as I1. destruct S as [_ Fu].
    destruct (proj2 (Fu eq_refl) m R0 ltac:(lia)) as (m1 & R1 & W1). pose proof (base_pos env t).
    destruct (settled_wealth _ _ _ _ _ _ _ F I1 ltac:(lia) (proj1 (se_gasPrice _ Ht)) R1) as (m' & R' & W').
    exists m'. split; [done|lia].
Qed.
End Money.

(** ** Votes *)

Section Votes.
Context `{NodeEnv} `{!Homes} `{!KeyHashInj} `{!Boost}.

(** C15: whatever a call of a vote contract did to the state, and also when it ended
    with an exception, the change log leads back: after rollback to the savepoint before the call
    no query tells the state from the one before, and it is again one that transactions can run
    on. *)
Theorem vote_call_undone (c : contract) (d : list Z) (a : Z) (s s' : State) (r : bool * list Z + exn) :
  VoteInfoAddress ∈ homes -> inv s -> bytes d -> vote_executor c d a s = (s', r) ->
  exists s2, rollback (length (m_changeLog s)) s' = (s2, inl tt) /\ same_view s s2 /\ inv s2.
Proof.
  intros Hh I Hd E. destruct (vote_law Hh s false c d a s' r (Build_sane false s I ltac:(done)) ltac:(done) Hd E) as ((U & _) & _).
  destruct (safe_rollback s s' U I) as (s2 & E2 & D2 & U2). exists s2.
  split_and!; [done|by apply same_view_dirtier|by eapply safe_inv].
Qed.
End Votes.

(** ** Transactions on the small chain *)

#[local] Existing Instance demo_env.
#[local] Existing Instance demo_boost.
#[local] Existing Instance demo_inj.
#[local] Existing Instance demo_homes.
#[local] Existing Instance demo_recover.
#[local] Existing Instance demo_vm.
#[local] Existing Instance demo_vm_law.
#[local] Existing Instance demo_chain_laws.

Definition demo_execute (cp : ChainOperationParams) (t : TransactionBase) := State_execute demo_head cp 1025 t Committed demo_state.

(** The input 1 makes the machine fail, the input 2 makes an inner call fail, and without input it
    succeeds *)
Example demo_outcomes :
  (fun data => (fun r => (rc_status r.2, rc_gasUsed r.2)) <$>
     match (demo_execute demo_chain (demo_tx data)).2 with inl r => Some r | inr _ => None end) <$> [[1]; [2]; []]
  = [Some (false, 100500); Some (true, 100500); Some (true, 21500)].
Proof. vm_compute. done. Qed.

Lemma demo_supply : supply demo_state = 10 ^ 20 + 1.
Proof. vm_compute. done. Qed.

Lemma demo_head_ok : env_ok demo_head.
Proof. done. Qed.

(** On the genesis, with the machine of the node, account 1 mortgages 10^18 wei for 100 votes *)
Definition demo_node : VM := wasm_vm (H0 := demo_wavm) demo_head ∅.

Definition demo_mortgage : TransactionBase :=
  mkTx MessageCall 3 0 0x22 2 300000 (demo_number (1 :: replicate 18 0)) (Some (mkSig 5 6 0)) 1 1.

Definition demo_mortgaged : State * ((ExecutionResult * TransactionReceipt) + exn) :=
  State_execute (H1 := demo_node) demo_head demo_chain 1025 demo_mortgage Committed demo_genesis.

Lemma demo_genesis_inv : inv demo_genesis.
Proof.
  destruct (setStorage_safe demo_state 0x21 7 0 demo_inv) as (s' & E & U & _); [|by vm_compute|by vm_compute|].
  - apply (inv_homes _ demo_inv). by apply list_elem_of_singleton.
  - unfold demo_genesis. rewrite E. by eapply safe_inv.
Qed.

Lemma demo_genesis_recorded : recorded demo_genesis ∅.
Proof. apply recorded_empty. apply demo_genesis_ok. Qed.

Lemma demo_genesis_wealth : wealth demo_genesis ∅ = 10 ^ 20 + 1.
Proof. vm_compute. reflexivity. Qed.

Lemma transaction_makes_no_money_witness :
  supply demo_mortgaged.1 = 10 ^ 20 + 1 - 10 ^ 18 /\
  m_holdVotes (info_of (slot_at demo_mortgaged.1 VoteInfoAddress) 1) = 100 /\
  exists m', recorded demo_mortgaged.1 m' /\ wealth demo_mortgaged.1 m' <= 10 ^ 20 + 1.
Proof.
  split; [vm_compute; reflexivity|]. split; [vm_compute; reflexivity|].
  rewrite <-demo_genesis_wealth. apply (transaction_makes_no_money (H4 := demo_node) (H5 := wasm_law (H1 := demo_wavm_laws) demo_head ∅)
    (H6 := wasm_vault (H1 := demo_wavm_laws) demo_head ∅) demo_head 1 (fun _ => []) (fun _ => []) ∅ 1025 demo_mortgage 1
    Committed demo_genesis
    demo_mortgaged.1 demo_mortgaged.2 ∅).
  - by apply list_elem_of_singleton.
  - intros a pc. cbn. by rewrite lookup_empty.
  - apply demo_genesis_inv.
  - vm_compute. reflexivity.
  - apply demo_genesis_recorded.
  - rewrite demo_genesis_wealth. vm_compute. reflexivity.
  - by vm_compute.
  - reflexivity.
  - by split; try (apply demo_bytes); vm_compute.
  - discriminate.
  - apply surjective_pairing.
Defined.

Definition demo_receipt (data : list Z) : ExecutionResult * TransactionReceipt :=
  match (demo_execute demo_chain (demo_tx data)).2 with inl r => r | inr _ => (empty_result, mkReceipt true 0 []) end.

Definition demo_after (data : list Z) : State := (demo_execute demo_chain (demo_tx data)).1.

Lemma demo_failed : demo_execute demo_chain (demo_tx [1]) = (demo_after [1], inl ((demo_receipt [1]).1, (demo_receipt [1]).2)).
Proof. vm_compute. reflexivity. Qed.

Lemma demo_succeeded : demo_execute demo_chain (demo_tx []) = (demo_after [], inl ((demo_receipt []).1, (demo_receipt []).2)).
Proof. vm_compute. reflexivity. Qed.

Lemma demo_fee : rc_gasUsed (demo_receipt [1]).2 = 100500 /\ rc_status (demo_receipt [1]).2 = false.
Proof. vm_compute. done. Qed.

Lemma failed_transaction_pays_gas_witness :
  balance_at (demo_after [1]) 0x99 = 200000 /\ slot_at (demo_after [1]) 0x21 7 = 5.
Proof.
  destruct (failed_transaction_pays_gas demo_head demo_chain 1025 (demo_tx [1]) 1 Committed demo_state (demo_after [1])
    (demo_receipt [1]).1 (demo_receipt [1]).2 demo_inv eq_refl demo_sendable_1
    demo_head_ok ltac:(discriminate) ltac:(rewrite demo_supply; lia) demo_failed (proj2 demo_fee)) as (C & _ & B).
  split.
  - rewrite B, (proj1 demo_fee). reflexivity.
  - rewrite (proj2 (C 0x21)). reflexivity.
Defined.

Lemma transaction_gas_bounds_witness :
  0 <= rc_gasUsed (demo_receipt []).2 - 500 <= 100000 /\ 21000 <= 2 * (rc_gasUsed (demo_receipt []).2 - 500).
Proof.
  destruct (transaction_gas_bounds demo_head demo_chain 1025 (demo_tx []) 1 Committed demo_state (demo_after [])
    (demo_receipt []).1 (demo_receipt []).2 demo_inv eq_refl (demo_sendable [] (Forall_nil_2 _)) demo_head_ok
    ltac:(discriminate) demo_succeeded) as (B & G & _).
  exact (conj B G).
Defined.

Lemma transaction_terminates_witness : (demo_execute demo_chain (demo_tx [2])).2 <> inr out_of_fuel.
Proof.
  apply (transaction_terminates demo_head demo_chain 1025 (demo_tx [2]) 1 Committed demo_state).
  - apply demo_inv.
  - reflexivity.
  - apply demo_sendable. by apply Forall_singleton.
  - lia.
Defined.

Lemma transaction_keeps_state_typed_witness : wf (demo_after [1]).
Proof.
  exact (transaction_keeps_state_typed demo_head demo_chain 1025 (demo_tx [1]) 1 Committed demo_state (demo_after [1]) _
    demo_inv eq_refl demo_sendable_1 ltac:(discriminate) demo_failed).
Defined.

(** Account 2 has sent nothing: its next nonce is not 3 *)
Definition demo_other : TransactionBase := forceSender 2 (demo_tx []).

Lemma demo_other_sendable : sendable demo_other.
Proof. by split. Qed.

Lemma demo_rejected : demo_execute demo_chain demo_other = ((demo_execute demo_chain demo_other).1, inr InvalidNonce).
Proof. vm_compute. reflexivity. Qed.

Lemma demo_other_nonce : t_nonce demo_other <> nonce_at demo_state 2.
Proof. vm_compute. discriminate. Qed.

Lemma transaction_accepted_witness : same_view demo_state (demo_execute demo_chain demo_other).1.
Proof.
  destruct (transaction_accepted demo_head demo_chain 1025 demo_other 2 Committed demo_state _ _ demo_inv eq_refl
    demo_other_sendable ltac:(discriminate) demo_rejected) as [[(_ & _ & Hn & _) _]|(_ & V & _)].
  - destruct (demo_other_nonce Hn).
  - exact V.
Defined.

(** Account 1 mortgages 10^18 wei *)
Lemma vote_call_undone_witness :
  let s := vote_executor c_mortgage (demo_number (1 :: replicate 18 0)) 1 demo_state in
  balance_at s.1 1 = 99 * 10 ^ 18 /\
  exists s2, rollback 0 s.1 = (s2, inl tt) /\ balance_at s2 1 = 10 ^ 20.
Proof.
  split; [vm_compute; reflexivity|].
  destruct (vote_call_undone c_mortgage (demo_number (1 :: replicate 18 0)) 1 demo_state
    (vote_executor c_mortgage (demo_number (1 :: replicate 18 0)) 1 demo_state).1
    (vote_executor c_mortgage (demo_number (1 :: replicate 18 0)) 1 demo_state).2) as (s2 & E & (_ & _ & B) & _).
  - by apply list_elem_of_singleton.
  - apply demo_inv.
  - repeat constructor; vm_compute; discriminate.
  - apply surjective_pairing.
  - exists s2. split; [exact E|]. rewrite B. reflexivity.
Defined.

(** A mortgage of nearly all the money together with a value: the contract has taken the money and
    given the votes when the payment of the value throws, and nothing brings the state back, so the
    changes, the paid gas and the nonce stay although the transaction is refused *)
Example mortgage_with_value :
  let t := mkTx MessageCall 3 (5 * 10 ^ 19) 0x22 2 300000 (demo_number (1 :: replicate 19 0)) (Some (mkSig 5 6 0)) 1 1 in
  let t2 := mkTx MessageCall 3 (95 * 10 ^ 18) 0x22 2 300000 (demo_number (1 :: replicate 19 0)) (Some (mkSig 5 6 0)) 1 1 in
  let o := demo_execute demo_chain t2 in
  (match (demo_execute demo_chain t).2 with inl r => rc_status r.2 | inr _ => false end) = true /\
  o.2 = inr NotEnoughCash /\ balance_at o.1 1 = 9 * 10 ^ 19 - 600000 /\ nonce_at o.1 1 = 4.
Proof. vm_compute. done. Qed.

(** An account that was killed and is paid afterwards, before the block is committed: the money is
    not in the committed trie *)
Example paid_after_kill :
  let s := (addBalance 1 5 (kill 1 demo_state).1).1 in
  balance_at s 1 = 5 /\ committed RemoveEmptyAccounts s !! 1 = None.
Proof. vm_compute. done. Qed.
